(* ===== verification/_CoqProject ===== *)
-Q . S2P
Prelude.v
Ports.v
Ps2.v
Hid.v
Pci.v
Uhci.v
UhciOk.v
Url.v
ScriptVm.v
Settings.v
BlockDev.v
Persist.v
VirtioBlk.v
VirtioBlkOk.v
VirtioDisk.v
VirtioNet.v
NicDriver.v
VirtioNetOk.v
VirtioMmioNet.v
VirtioMmioNetOk.v
Rtl8139.v
E1000.v
E1000Ok.v
Rtl8168.v
Rtl8168Ok.v
Gpt.v
Log.v
Dom.v
Frame.v
FrameOk.v
Cursors.v
HtmlCss.v
Html.v
HtmlSafe.v
HtmlText.v
NetWire.v
Http.v
NetStack.v
NetSafe.v
Ui.v
UiKeys.v
UiOk.v
UiClick.v
UiClickOk.v
Tls.v
NetDrive.v
DriveSafe.v
AnyNic.v
NicAdapter.v
ArmNic.v
VirtioNic.v
E1000Nic.v
Rtl8168Nic.v
NetFetch.v
TlsQueue.v
NetDhcp.v
NetTimeout.v
