(* ===== verification/Prelude.v ===== *)
(** * Eve OS: a verification library for the kernel's core logic

    Eve OS is a bare-metal Rust kernel (no allocator, no threads) whose main
    loop draws a browser-like UI and polls one network card.  This library
    models the parts of [src/kernel/src] that compute - parsers, codecs, state
    machines, the network stack - and proves what they promise.

    ** How the parts interact

    The main loop owns one [DeviceSettings] ([Settings.v]) and one [NetStack]
    ([NetStack.v]).  At boot it scans the PCI bus ([Pci.v]) and starts the disk
    ([VirtioBlk.v]), a network card ([AnyNic.v]: [VirtioNet.v], [E1000.v],
    [Rtl8168.v], [Rtl8139.v] or another), the keyboards and the mice ([Ps2.v], [Hid.v]).  The settings
    come from the last disk sector ([Persist.v], over the interface
    [BlockDev.v], which the disk driver implements); an installer may patch the
    boot flags of a target disk ([Gpt.v], same interface).  Entering a URL calls
    [NetStack::start_fetch], which parses it ([Url.v]).  Every frame of the NIC
    goes to [handle_rx], which dispatches to ARP, DHCP, DNS and TCP; the packet
    formats are in [NetWire.v], HTTP heads, chunk sizes and content encodings in
    [Http.v].  The finished page is handed to [format_document] ([Html.v]), which
    lays it out as styled rows of text; [Dom.v] is a text tree of a page,
    [ScriptVm.v] runs the byte code a page may embed.  Everything reports to
    the kernel log ([Log.v]).

    ** Files

    - [Prelude.v] (this file): bytes and machine integers, the panic monad
      [rust], slices and buffers, scans, endianness, decimals, record updates,
      the tactics [len], [no_panic] and [by_decide].
    - [Ports.v]: I/O ports as a class, and the bounded wait loops of drivers.
    - [Ps2.v]: [ps2.rs].  The keyboard and mouse streams do not disturb each
      other; typed text and mouse movements are delivered as they were sent.
    - [Hid.v]: [usb_common.rs], [usb_hid/], [xhci.rs], [ehci.rs].  No key press of a
      USB report is lost; the descriptor walk finds the first input endpoint that
      follows a matching boot interface.
    - [Pci.v]: [pci.rs].  The scans return what the registers say, in the order of
      the slots they visit.
    - [Uhci.v]: [uhci.rs], in a monad of state, error and panic.  [UhciOk.v]: enumeration
      returns whatever hubs and devices answer; polling decodes the reports;
      the fallback to PS/2.
    - [Url.v]: [url.rs].  The parser is total, reads exactly the dotted quads,
      and parses back what a URL renders to.
    - [ScriptVm.v]: [script_runtime.rs].  Safety of byte code from any source,
      termination of page scripts, both interpreters compute one reference machine
      (each has its own copy of the instruction arms, as in the source), correct
      evaluation of compiled arithmetic.
    - [Settings.v]: [settings.rs], [cursor_emoji::next_preset].  The IP
      fingerprint notices every change of one static address.
    - [BlockDev.v]: the calls of [virtio_blk.rs] as a type class with laws, and a
      disk in memory that satisfies them.
    - [VirtioBlk.v]: [virtio_blk.rs].  [VirtioBlkOk.v]: over a device that follows the
      protocol, and answers each request within the 2,000,000 polls the driver
      waits, it is a [BlockDev] that keeps its laws.  [VirtioDisk.v]: what
      start-up establishes; settings survive a save and a load through it.
    - [NicDriver.v]: the contract of a network driver (two queues of frames) and
      the ring of buffers it shares with its card.
    - [VirtioNet.v]: [virtio_net.rs].  [E1000.v]: [e1000.rs].  [Rtl8168.v]: [rtl8168.rs].
      [VirtioNetOk.v], [E1000Ok.v], [Rtl8168Ok.v]: over a card that follows its
      specification, and completes a transmission within the polls the driver
      waits, the drivers refine two queues of frames (for VirtIO the received
      frame may keep its header when it looks like one); what start-up
      establishes.
    - [VirtioMmioNet.v]: [virtio_mmio_net.rs].  [VirtioMmioNetOk.v]: over its registers it
      does what the driver of [VirtioNet.v] does over the PCI transport.
    - [Rtl8139.v]: [rtl8139.rs].  Frames of the receive ring are delivered whole and in
      order; no access is out of range.
    - [AnyNic.v]: [nic/x86.rs], the choice between the cards.  [NicAdapter.v]: a driver
      that always returns is a NIC of the stack.  [VirtioNic.v], [E1000Nic.v],
      [Rtl8168Nic.v]: so the whole network side returns over each of the three.
      [ArmNic.v]: [nic/aarch64.rs], the same over the card of the ARM target.
    - [Persist.v]: [settings_persist.rs], [settings_persist_disk.rs].  Encode and
      decode round trip, robustness, detection of any corrupted byte, save/load.
    - [Gpt.v]: [gpt_boot_patch.rs].  A successful patch leaves both CRCs right;
      idempotence; the CRC loop; the MBR path.
    - [Log.v]: [log_buffer.rs], [diag_log.rs].  The ring keeps the last 512
      lines; what each entry point writes to the wire and to the ring.
    - [Dom.v]: [dom.rs].  The tree holds exactly the capped non-empty lines.
    - [Frame.v]: the pixels of [gfx.rs] and [cursor_emoji.rs].  [FrameOk.v]: the fast
      fills write what a loop over pixels would.  [Cursors.v]: [CursorEngine]; moving
      pointers leave nothing behind.
    - [Ui.v], [UiKeys.v], [UiClick.v]: [UiState] of [gfx.rs], its keys ([arm_run.rs],
      [arm_input.rs]) and clicks.  [UiOk.v]: the arrays of the history refine a list with
      a place in it; whatever keys arrive, they are handled and the state stays well
      formed; typing extends the address.  [UiClickOk.v]: the same for clicks.
    - [HtmlCss.v], [Html.v]: [html.rs] and the UTF-8 helpers of [emoji_glyph.rs].
      [HtmlSafe.v]: rendering returns on any page, within its tables.
      [HtmlText.v]: the rows are the text of the page, for pages
      without style rules and within the limits of the tables.
    - [NetWire.v]: [net_ipv4.rs] and the packet functions of [net.rs].  Frames are
      well formed and their checksums verify; DNS names and replies.
    - [Http.v]: the HTTP functions of [net.rs].
    - [NetStack.v]: the struct [NetStack] and its methods; [NetSafe.v]: its
      invariant, kept by every operation, and that no frame makes it panic.
    - [Tls.v]: [eve_tls.rs], [hal/timer.rs].  The generator never degenerates; the
      certificate clock follows the ticks of the main loop.
    - [NetDrive.v]: [NetStack::drive] and the bridge to the TLS library: receive
      loops, timers, handshake, pump.  [DriveSafe.v]: whatever the main loop calls
      and whatever arrives, the driver returns and keeps its invariant.
    - [NetFetch.v]: what a fetch delivers: plain chunked and [Content-Length]
      bodies arrive whole, up to the capacity of the page, wherever they are cut
      into segments, when the segments up to the end of the head fit the header
      buffer.  [NetTimeout.v]: with a silent network a fetch ends with a timeout once
      the gateway is known; without a gateway it waits for ever.  [NetDhcp.v]: the DHCP exchange ends in the
      granted lease.  [TlsQueue.v]: the cipher queue refines a bounded list.

    ** Conventions

    A byte or a word is a [Z], wrap-around written out with [wrap]; slices and
    arrays are lists, indices [nat].  A Rust function that indexes, slices or
    copies returns [rust A]: [Panic] is the abort of an out-of-range access, so
    a theorem that a function returns [Ret _] is a theorem of memory safety.
    Statics and [&mut self] are explicit state.  Definitions keep the source's
    names; where two structs share a field name the second is renamed
    ([NetStack]: [path] is [req_path], [host_header] is [host_hdr], [needs_dns]
    is [dns_needed]).  A loop whose recursion is not structural has fuel, and
    running out of fuel is [Panic]: the safety theorems therefore also say that
    the fuel is enough ([chunk_loop]: twice the input plus two, since two rounds
    consume a byte; [dhcp_options], [skip_dns_name], [ingest_pieces]: one round
    per byte at most; [crc_loop]: one round per sector; [flush_loop]: one round
    per queued byte plus one; the loops of the renderer and the descriptor
    walks: the length of the input plus one).  A loop the source bounds by a
    number keeps that bound ([for_upto]).  The depth of
    hubs behind hubs is bounded by the 127 device addresses.  The receive loops of the driver and the read pump
    of TLS have no bound in the source (they run while the NIC has frames and the
    library has plaintext): their fuel is a parameter, and [net_calls_safe] asks
    that it exceed the traffic.

    ** Parameters

    Third-party code is a parameter: the decompressors ([inflate], [brotli]); the
    TLS library ([TlsLib]: each call is a program of bridge operations, finitely
    many on every path; [TlsOk]: it makes no more plaintext than it reads
    ciphertext); hardware is a type class ([Nic], with [NicOk]: finite traffic;
    [Ports], with [I8042] for the keyboard controller and [PciBus] for the host
    bridge; [UhciMachine], with [UhciOk]: it stays within the transfer buffers; [VirtioMachine], with [VirtioDevice]: the protocol;
    [NetMachine], with [VirtioNetDevice]: the protocol of the network card;
    [E1000Machine], with [E1000Device], and [Rtl8168Machine], with [Rtl8168Device]:
    the data sheets - each of these four also says that the device answers within
    the polls the driver waits, which no protocol promises; [RtlMachine], with [RtlCard]: what the card puts into the
    ring are bytes)
    with an in-memory instance for the witnesses.  To [Hid.v] the USB host
    controllers are records of operations ([HidDriver]), to [AnyNic.v] the
    drivers of the cards are ([CardOps]).

    ** Not modelled

    The drawing of the screens ([gfx.rs], fonts): its result is pixels, and what it
    promises is their look.  The boot and frame loops ([main.rs], [arm_run.rs]):
    they call the other parts in turn and copy their results into [UiState]; the
    key codes of the PC are decoded there.  The OHCI and xHCI controllers and the
    remaining network cards: the same functions as in the modelled drivers over
    other registers; their clients are proved over any such driver.  The kernels
    of the other targets, and the build. *)

From stdpp Require Export base list numbers option strings.
From Stdlib Require Export ZArith Lia ZifyBool.
From Stdlib Require Ascii.


#[global] Open Scope Z_scope.

(** ** Bytes and machine integers

    A byte, a [u16], a [u32], ... is a [Z]; wrap-around is written out with
    [wrap].  Slices and arrays are lists; lengths and indices are [nat]. *)

Abbreviation bytes := (list Z) (only parsing).

Definition is_byte (b : Z) : Prop := 0 <= b < 256.
#[export] Instance is_byte_dec b : Decision (is_byte b).
Proof. unfold is_byte. apply _. Defined.

Definition is_bytes (l : bytes) : Prop := Forall is_byte l.
#[export] Instance is_bytes_dec l : Decision (is_bytes l).
Proof. unfold is_bytes. apply _. Defined.

(** [wrap w z] keeps the low [w] bits of [z]: the value of a [uw] after a
    wrapping operation. *)
Definition wrap (w z : Z) : Z := z mod 2 ^ w.
Abbreviation wrap8 := (wrap 8).
Abbreviation wrap16 := (wrap 16).
Abbreviation wrap32 := (wrap 32).
Abbreviation wrap64 := (wrap 64).

(** The low bits of an index, under a mask. *)
Lemma land_bound a m : 0 <= a -> 0 <= m -> 0 <= Z.land a m <= m.
Proof.
  intros Ha Hm. split; [apply Z.land_nonneg; by left|].
  assert (Z.ldiff m a + Z.land a m = m) as E.
  { rewrite Z.add_nocarry_lxor; apply Z.bits_inj'; intros i Hi.
    - rewrite Z.lxor_spec, Z.ldiff_spec, Z.land_spec. by destruct (Z.testbit m i), (Z.testbit a i).
    - rewrite !Z.land_spec, Z.ldiff_spec, Z.bits_0. by destruct (Z.testbit m i), (Z.testbit a i). }
  pose proof (proj2 (Z.ldiff_nonneg m a) (or_introl Hm)). lia.
Qed.

(** The next value of a free-running [u16] index. *)
Lemma wrap16_next u : 0 <= u < 2 ^ 16 -> wrap16 (u + 1) <> u /\ 0 <= wrap16 (u + 1) < 2 ^ 16.
Proof.
  intros Hu. unfold wrap. split; [|apply Z.mod_pos_bound; lia].
  destruct (decide (u = 2 ^ 16 - 1)) as [->|]; [done|]. rewrite Z.mod_small; lia.
Qed.

(** Two's complement reading of a [w]-bit pattern. *)
Definition signed (w z : Z) : Z :=
  if decide (wrap w z < 2 ^ (w - 1)) then wrap w z else wrap w z - 2 ^ w.

Definition is_i32 (z : Z) : Prop := - 2 ^ 31 <= z < 2 ^ 31.
#[export] Instance is_i32_dec z : Decision (is_i32 z).
Proof. unfold is_i32. apply _. Defined.

(** [usize::MAX] on the 64-bit targets. *)
Definition usize_max : Z := 2 ^ 64 - 1.

(** ** String literals of the source, as bytes *)

Fixpoint bs (s : string) : bytes :=
  match s with
  | EmptyString => []
  | String a s' => Z.of_N (Stdlib.Strings.Ascii.N_of_ascii a) :: bs s'
  end.

(** ** The panic monad

    Rust's indexing, slicing and [copy_from_slice] panic when they are out of
    range.  A function that does them returns [rust A]; [Panic] is the abort. *)

Inductive rust (A : Type) : Type :=
  | Ret (a : A)
  | Panic.
Arguments Ret {A} a.
Arguments Panic {A}.

#[export] Instance rust_ret : MRet rust := fun A a => Ret a.
#[export] Instance rust_bind : MBind rust := fun A B k m =>
  match m with Ret a => k a | Panic => Panic end.

(** [s[i]] *)
Definition rd {A} (s : list A) (i : nat) : rust A :=
  match s !! i with Some x => Ret x | None => Panic end.

(** [&s[a..b]] *)
Definition slice {A} (s : list A) (a b : nat) : list A := take (b - a) (drop a s).
Definition sub {A} (s : list A) (a b : nat) : rust (list A) :=
  if decide (a <= b <= length s)%nat then Ret (slice s a b) else Panic.

(** [s[i] = v] *)
Definition wr {A} (s : list A) (i : nat) (v : A) : rust (list A) :=
  if decide (i < length s)%nat then Ret (<[i:=v]> s) else Panic.

(** [s[off..off + src.len()].copy_from_slice(src)] *)
Definition copy_at (s : bytes) (off : nat) (src : bytes) : rust bytes :=
  if decide (off + length src <= length s)%nat then Ret (list_inserts off src s) else Panic.

Lemma bind_ret {A B} (a : A) (k : A -> rust B) : Ret a ≫= k = k a.
Proof. reflexivity. Qed.

Lemma rd_lookup {A} (s : list A) i x : s !! i = Some x -> rd s i = Ret x.
Proof. unfold rd. by intros ->. Qed.

Lemma rd_mid {A} (pre : list A) x post i : i = length pre -> rd (pre ++ x :: post) i = Ret x.
Proof. intros ->. apply rd_lookup. by apply list_lookup_middle. Qed.

Lemma rd_head {A} (pre : list A) x post : rd (pre ++ x :: post) (length pre) = Ret x.
Proof. by apply rd_mid. Qed.

Lemma rd_in (pre d post : bytes) k : (k < length d)%nat ->
  rd (pre ++ d ++ post) (length pre + k) = Ret (d !!! k).
Proof.
  intros Hk. apply rd_lookup. rewrite lookup_app_r by lia.
  replace (length pre + k - length pre)%nat with k by lia.
  rewrite lookup_app_l by done. by apply list_lookup_lookup_total_lt.
Qed.

Lemma rd_Ret {A} (s : list A) i x : rd s i = Ret x <-> s !! i = Some x.
Proof. unfold rd. destruct (s !! i); split; congruence. Qed.

Lemma rd_ok (s : bytes) i : (i < length s)%nat -> rd s i = Ret (s !!! i).
Proof. intros H. apply rd_lookup. by apply list_lookup_lookup_total_lt. Qed.

Lemma sub_ok {A} (s : list A) a b :
  (a <= b <= length s)%nat -> sub s a b = Ret (slice s a b).
Proof. intros H. unfold sub. by rewrite decide_True by lia. Qed.

Lemma wr_ok {A} (s : list A) i v : (i < length s)%nat -> wr s i v = Ret (<[i:=v]> s).
Proof. intros H. unfold wr. by rewrite decide_True by lia. Qed.

Lemma copy_at_ok (s : bytes) off src :
  (off + length src <= length s)%nat -> copy_at s off src = Ret (list_inserts off src s).
Proof. intros H. unfold copy_at. by rewrite decide_True by lia. Qed.

(** ** Lists *)

Section lists.
Context {A : Type}.
Implicit Types (l s : list A).

Lemma length_slice s a b : (a <= b <= length s)%nat -> length (slice s a b) = (b - a)%nat.
Proof. intros. unfold slice. rewrite length_take, length_drop. lia. Qed.

Lemma slice_app_mid l1 l2 l3 :
  slice (l1 ++ l2 ++ l3) (length l1) (length l1 + length l2) = l2.
Proof.
  unfold slice. rewrite drop_app_length.
  replace (length l1 + length l2 - length l1)%nat with (length l2) by lia.
  apply take_app_length.
Qed.

Lemma slice_0 s n : slice s 0 n = take n s.
Proof. unfold slice. by rewrite drop_0, Nat.sub_0_r. Qed.

Lemma slice_full s a : slice s a (length s) = drop a s.
Proof. unfold slice. apply take_ge. rewrite length_drop. lia. Qed.

(** Writing a block over an equally long block. *)
Lemma inserts_mid l1 l2 l2' l3 :
  length l2 = length l2' -> list_inserts (length l1) l2' (l1 ++ l2 ++ l3) = l1 ++ l2' ++ l3.
Proof.
  intros H. replace (length l1) with (length l1 + 0)%nat by lia.
  rewrite list_inserts_app_r. f_equal. by apply list_inserts_0_r.
Qed.

Lemma inserts_split off src s :
  (off + length src <= length s)%nat ->
  list_inserts off src s = take off s ++ src ++ drop (off + length src) s.
Proof.
  intros H.
  rewrite <-(take_drop off s) at 1.
  rewrite <-(take_drop (length src) (drop off s)) at 1.
  assert (length (take off s) = off) as E by (rewrite length_take; lia).
  rewrite <-E at 1. rewrite inserts_mid, drop_drop; [done|].
  rewrite length_take, length_drop. lia.
Qed.

(** Appending one element to the used prefix of a fixed buffer. *)
Lemma take_insert_snoc s n x :
  (n < length s)%nat -> take (S n) (<[n:=x]> s) = take n s ++ [x].
Proof.
  intros H. rewrite (take_S_r _ _ x) by (by apply list_lookup_insert_eq).
  by rewrite take_insert_ge by lia.
Qed.

Lemma Forall_slice (P : A -> Prop) s a b : Forall P s -> Forall P (slice s a b).
Proof. intros. unfold slice. by apply Forall_take, Forall_drop. Qed.
End lists.

(** ** Fields of a concatenation, and updates inside a slice *)

Lemma slice_skip {A} (l1 l2 : list A) a b :
  (length l1 <= a)%nat -> slice (l1 ++ l2) a b = slice l2 (a - length l1) (b - length l1).
Proof.
  intros. unfold slice. rewrite drop_app_ge by done. f_equal. lia.
Qed.

Lemma slice_here {A} (l1 l2 : list A) a b :
  a = 0%nat -> b = length l1 -> slice (l1 ++ l2) a b = l1.
Proof. intros -> ->. unfold slice. rewrite drop_0, Nat.sub_0_r. apply take_app_length. Qed.

Lemma lookup_skip (l1 l2 : bytes) k :
  (length l1 <= k)%nat -> (l1 ++ l2) !!! k = l2 !!! (k - length l1)%nat.
Proof. apply lookup_total_app_r. Qed.

Lemma lookup_here (l1 l2 : bytes) k : (k < length l1)%nat -> (l1 ++ l2) !!! k = l1 !!! k.
Proof. apply lookup_total_app_l. Qed.

Lemma slice_insert_out {A} (l : list A) i x a b :
  (i < a \/ b <= i)%nat -> slice (<[i:=x]> l) a b = slice l a b.
Proof.
  intros Hi. unfold slice. destruct (decide (i < a)%nat).
  - by rewrite drop_insert_lt by lia.
  - rewrite drop_insert_ge by lia. by rewrite take_insert_ge by lia.
Qed.

Lemma slice_insert_in {A} (l : list A) i x a b :
  (a <= i < b)%nat -> slice (<[i:=x]> l) a b = <[(i - a)%nat:=x]> (slice l a b).
Proof.
  intros Hi. unfold slice. rewrite drop_insert_ge by lia. by rewrite take_insert_lt by lia.
Qed.

Lemma lookup_slice (l : bytes) a b i :
  (a <= i < b)%nat -> (i < length l)%nat -> slice l a b !!! (i - a)%nat = l !!! i.
Proof.
  intros Hi Hl. unfold slice. rewrite lookup_total_take_lt by lia.
  rewrite lookup_total_drop. f_equal. lia.
Qed.

(** Changing a byte of a slice changes it. *)
Lemma slice_changed (l : bytes) i x a b :
  (a <= i < b)%nat -> (b <= length l)%nat -> x <> l !!! i -> slice (<[i:=x]> l) a b <> slice l a b.
Proof.
  intros Hi Hl Hx E. apply Hx. rewrite <-(lookup_slice l a b i), <-E by lia.
  rewrite slice_insert_in by done. symmetry. apply list_lookup_total_insert_eq.
  rewrite length_slice; lia.
Qed.

Lemma list4_eq {A} (l : list A) : length l = 4%nat -> exists a b c d, l = [a; b; c; d].
Proof.
  intros H. destruct l as [|a [|b [|c [|d [|]]]]]; simpl in H; try lia. eauto.
Qed.

(** Blocks written into a buffer. *)
Section inserts.
Context {A : Type}.
Implicit Types (l s src : list A).

Lemma inserts_twice off src1 src2 s :
  length src1 = length src2 -> (off + length src1 <= length s)%nat ->
  list_inserts off src2 (list_inserts off src1 s) = list_inserts off src2 s.
Proof.
  intros Hl Hs. rewrite (inserts_split off src1), (inserts_split off src2 s) by lia.
  rewrite <-Hl. rewrite <-(inserts_mid (take off s) src1 src2 _ Hl). f_equal.
  rewrite length_take. lia.
Qed.

Lemma slice_inserts_in off src s b :
  b = (off + length src)%nat -> (b <= length s)%nat -> slice (list_inserts off src s) off b = src.
Proof.
  intros -> Hs. rewrite inserts_split by lia.
  rewrite slice_skip, slice_here; rewrite ?length_take; lia || done.
Qed.

Lemma slice_inserts_out off src s a b :
  (b <= off \/ off + length src <= a)%nat -> slice (list_inserts off src s) a b = slice s a b.
Proof.
  revert off s. induction src as [|x src IH]; intros off s Hr; [done|].
  cbn [list_inserts length] in *. rewrite slice_insert_out by lia. apply IH. lia.
Qed.

Lemma slice_slice l a b c d :
  (b + d <= c)%nat -> slice (slice l b c) a d = slice l (b + a) (b + d).
Proof.
  intros Hd. unfold slice. rewrite skipn_firstn_comm, take_take, drop_drop. f_equal. lia.
Qed.

Lemma Forall_inserts (P : A -> Prop) off src s :
  Forall P src -> Forall P s -> Forall P (list_inserts off src s).
Proof.
  intros Hsrc Hs. revert off. induction Hsrc as [|x src Hx _ IH]; intros off; [done|].
  cbn. apply Forall_insert; [apply IH|done].
Qed.

Lemma take_as_slice n s : take n s = slice s 0 n.
Proof. by rewrite slice_0. Qed.
End inserts.

(** ** Scanning

    [while *i < s.len() && p(s[*i]) { *i += 1 }] *)

Section scan.
Context (p : Z -> bool).

Fixpoint span_len (l : bytes) : nat :=
  match l with
  | x :: l' => if p x then S (span_len l') else O
  | [] => O
  end.

Definition scan_while (s : bytes) (i : nat) : nat := (i + span_len (drop i s))%nat.

Lemma span_len_le l : (span_len l <= length l)%nat.
Proof. induction l as [|x l IH]; simpl; [lia|]. destruct (p x); lia. Qed.

Lemma span_len_all l : Forall (fun x => p x = true) l -> span_len l = length l.
Proof. induction 1 as [|x l Hx _ IH]; simpl; [done|]. by rewrite Hx, IH. Qed.

Lemma span_len_stop l1 x l2 :
  Forall (fun y => p y = true) l1 -> p x = false -> span_len (l1 ++ x :: l2) = length l1.
Proof.
  intros H Hx. induction H as [|y l1 Hy _ IH]; simpl; [by rewrite Hx|].
  by rewrite Hy, IH.
Qed.

Lemma span_len_forall l : Forall (fun x => p x = true) (take (span_len l) l).
Proof.
  induction l as [|x l IH]; simpl; [constructor|].
  destruct (p x) eqn:E; simpl; constructor; auto.
Qed.

(** The scan stops at the end or at the first byte that fails [p]. *)
Lemma span_len_next l x : l !! span_len l = Some x -> p x = false.
Proof.
  induction l as [|y l IH]; simpl; [done|].
  destruct (p y) eqn:E; simpl; [done|]. by intros [= ->].
Qed.

Lemma scan_while_ge s i : (i <= scan_while s i)%nat.
Proof. unfold scan_while. lia. Qed.

Lemma scan_while_le s i : (i <= length s)%nat -> (scan_while s i <= length s)%nat.
Proof.
  intros H. unfold scan_while. pose proof (span_len_le (drop i s)) as Hl.
  rewrite length_drop in Hl. lia.
Qed.

Lemma scan_while_stop s i x : s !! scan_while s i = Some x -> p x = false.
Proof.
  unfold scan_while. rewrite <-lookup_drop. apply span_len_next.
Qed.
End scan.

(** ** ASCII *)

Definition is_digit (c : Z) : bool := (48 <=? c) && (c <=? 57).

(** [u8::to_ascii_lowercase] *)
Definition to_lower (c : Z) : Z := if (65 <=? c) && (c <=? 90) then c + 32 else c.

Definition eq_ci (a b : Z) : bool := to_lower a =? to_lower b.

Lemma is_digit_spec c : is_digit c = true <-> 48 <= c <= 57.
Proof. unfold is_digit. rewrite andb_true_iff, !Z.leb_le. lia. Qed.

(** ** Little- and big-endian encodings *)

Fixpoint to_le (n : nat) (z : Z) : bytes :=
  match n with
  | O => []
  | S n' => z mod 256 :: to_le n' (z / 256)
  end.

Fixpoint of_le (l : bytes) : Z :=
  match l with
  | [] => 0
  | b :: l' => b + 256 * of_le l'
  end.

Definition to_be (n : nat) (z : Z) : bytes := rev (to_le n z).
Definition of_be (l : bytes) : Z := of_le (rev l).

Section endian.
Implicit Types (l : bytes) (z : Z) (n : nat).

Lemma length_to_le n z : length (to_le n z) = n.
Proof. revert z. induction n; intros; simpl; auto. Qed.

Lemma length_to_be n z : length (to_be n z) = n.
Proof. unfold to_be. by rewrite length_rev, length_to_le. Qed.

Lemma pow256_S n : 256 ^ Z.of_nat (S n) = 256 * 256 ^ Z.of_nat n.
Proof. rewrite Nat2Z.inj_succ, Z.pow_succ_r by lia. lia. Qed.

Lemma pow256_pos n : 0 < 256 ^ Z.of_nat n.
Proof. apply Z.pow_pos_nonneg; lia. Qed.

Lemma of_le_to_le n z : of_le (to_le n z) = z mod 256 ^ Z.of_nat n.
Proof.
  revert z. induction n as [|n IH]; intros z; [by rewrite Z.mod_1_r|].
  cbn [to_le of_le]. rewrite IH, pow256_S. pose proof (pow256_pos n).
  rewrite Z.rem_mul_r by lia. lia.
Qed.

Lemma of_le_to_le_small n z : 0 <= z < 256 ^ Z.of_nat n -> of_le (to_le n z) = z.
Proof. intros. by rewrite of_le_to_le, Z.mod_small. Qed.

Lemma of_be_to_be n z : of_be (to_be n z) = z mod 256 ^ Z.of_nat n.
Proof. unfold of_be, to_be. by rewrite rev_involutive, of_le_to_le. Qed.

Lemma is_bytes_to_le n z : is_bytes (to_le n z).
Proof.
  revert z. induction n as [|n IH]; intros z; simpl; constructor; [|apply IH].
  unfold is_byte. pose proof (Z.mod_pos_bound z 256). lia.
Qed.

Lemma is_bytes_rev l : is_bytes l -> is_bytes (rev l).
Proof. intros. unfold is_bytes. by apply Forall_rev. Qed.

Lemma is_bytes_to_be n z : is_bytes (to_be n z).
Proof. apply is_bytes_rev, is_bytes_to_le. Qed.

Lemma of_le_bound l : is_bytes l -> 0 <= of_le l < 256 ^ Z.of_nat (length l).
Proof.
  induction 1 as [|b l Hb _ IH]; [simpl; lia|].
  cbn [of_le length]. rewrite pow256_S. unfold is_byte in Hb. lia.
Qed.

Lemma to_le_of_le l : is_bytes l -> to_le (length l) (of_le l) = l.
Proof.
  induction 1 as [|b l Hb _ IH]; [done|]. cbn [of_le length to_le].
  unfold is_byte in Hb.
  replace ((b + 256 * of_le l) mod 256) with b.
  2:{ rewrite Z.mul_comm, Z.mod_add, Z.mod_small by lia. done. }
  replace ((b + 256 * of_le l) / 256) with (of_le l).
  2:{ rewrite Z.mul_comm, Z.div_add, Z.div_small by lia. lia. }
  by rewrite IH.
Qed.
End endian.

(** ** Decimal digits of a number

    [while n > 0 { i -= 1; tmp[i] = b'0' + (n % 10); n /= 10 }] fills the end
    of a buffer from right to left; the accumulator is [tmp[i..]] and the fuel
    is the room left of it. *)

Fixpoint dec_loop (fuel : nat) (n : Z) (acc : bytes) : bytes :=
  match fuel with
  | O => acc
  | S fuel' => if decide (0 < n) then dec_loop fuel' (n / 10) ((48 + n mod 10) :: acc) else acc
  end.

(** The number a digit string denotes. *)
Definition dec_value (v : Z) (l : bytes) : Z := fold_left (fun v c => v * 10 + (c - 48)) l v.

Definition digits (l : bytes) : Prop := Forall (fun c => is_digit c = true) l.

Section decimal.
Implicit Types (l : bytes) (n v : Z).

Lemma dec_value_app v l1 l2 : dec_value v (l1 ++ l2) = dec_value (dec_value v l1) l2.
Proof. apply fold_left_app. Qed.

Lemma dec_value_shift v l : dec_value v l = v * 10 ^ Z.of_nat (length l) + dec_value 0 l.
Proof.
  revert v. induction l as [|c l IH]; intros v; [cbn; lia|].
  change (dec_value v (c :: l)) with (dec_value (v * 10 + (c - 48)) l).
  change (dec_value 0 (c :: l)) with (dec_value (0 * 10 + (c - 48)) l).
  rewrite (IH (v * 10 + _)), (IH (0 * 10 + _)). cbn [length].
  rewrite Nat2Z.inj_succ, Z.pow_succ_r by lia. lia.
Qed.

Lemma dec_value_ge v l : digits l -> 0 <= v -> v <= dec_value v l.
Proof.
  intros H. revert v. induction H as [|c l Hc _ IH]; intros v Hv; [cbn; lia|].
  apply is_digit_spec in Hc.
  change (v <= dec_value (v * 10 + (c - 48)) l).
  specialize (IH (v * 10 + (c - 48))). lia.
Qed.

(** With fuel for its digits, the loop writes the decimal representation. *)
Lemma dec_loop_spec fuel n acc :
  0 <= n < 10 ^ Z.of_nat fuel ->
  exists ds, dec_loop fuel n acc = ds ++ acc /\ digits ds /\ dec_value 0 ds = n /\
             (ds = [] <-> n = 0) /\
             (forall k, n < 10 ^ Z.of_nat k -> (length ds <= k)%nat).
Proof.
  revert n acc. induction fuel as [|fuel IH]; intros n acc Hn.
  { exists []. cbn in *. repeat split; try constructor; intros; lia. }
  cbn [dec_loop]. rewrite Nat2Z.inj_succ, Z.pow_succ_r in Hn by lia.
  case_decide as Hp.
  2:{ exists []. cbn. repeat split; try constructor; intros; lia. }
  destruct (IH (n / 10) ((48 + n mod 10) :: acc)) as (ds & -> & Hd & Hv & Hz & Hl).
  { split; [apply Z.div_pos; lia|]. apply Z.div_lt_upper_bound; lia. }
  pose proof (Z.mod_pos_bound n 10). pose proof (Z.div_mod n 10).
  exists (ds ++ [48 + n mod 10]). rewrite <-app_assoc. repeat split.
  - apply Forall_app_2; [done|]. constructor; [|constructor]. apply is_digit_spec. lia.
  - rewrite dec_value_app, Hv. cbn. lia.
  - intros E. by destruct ds.
  - lia.
  - intros k Hk. rewrite length_app. cbn. destruct k as [|k]; [cbn in Hk; lia|].
    rewrite Nat2Z.inj_succ, Z.pow_succ_r in Hk by lia.
    specialize (Hl k ltac:(apply Z.div_lt_upper_bound; lia)). lia.
Qed.
End decimal.

(** [slice.split(|&b| b == c)]: the fields between the separators. *)
Fixpoint split_on (c : Z) (l : bytes) : list bytes :=
  match l with
  | [] => [[]]
  | x :: l' =>
      if decide (x = c) then [] :: split_on c l'
      else match split_on c l' with
           | f :: fs => (x :: f) :: fs
           | [] => [[x]]
           end
  end.

Lemma split_on_cons c l : exists f fs, split_on c l = f :: fs.
Proof.
  induction l as [|x l (f & fs & E)]; simpl; [eauto|]. case_decide; [eauto|]. rewrite E. eauto.
Qed.

(** ** Record updates

    [s <| f := v |>] is [s.f = v] and [s <| f ::= g |>] rewrites the field with a
    function.  A record gives its eta expansion as an instance of [Settable];
    the setter of a field is found by abstracting that field's projection. *)

Class Settable (R : Type) := expand : R -> R.
Class Setter {R E : Type} (get : R -> E) := over : (E -> E) -> R -> R.
Arguments over {R E} get {_} f r /.

Ltac find_setter :=
  lazymatch goal with
  | |- @Setter ?R ?E ?get =>
      let i := constr:(ltac:(typeclasses eauto) : Settable R) in
      let i := eval hnf in i in
      lazymatch eval pattern get in i with
      | ?F _ => let u := eval cbv beta in (fun f : E -> E => F (fun r : R => f (get r))) in exact u
      end
  end.
#[export] Hint Extern 1 (Setter _) => find_setter : typeclass_instances.

Notation "s <| x := v |>" := (over x (fun _ => v) s)
  (at level 1, left associativity, v at level 99, format "s  <| x  :=  v |>").
Notation "s <| x ::= f |>" := (over x f s)
  (at level 1, left associativity, f at level 99, format "s  <| x  ::=  f |>").

(** ** Tactics and hints of the development *)

Create HintDb eve.
Create Rewrite HintDb eve_len.
#[export] Hint Resolve is_bytes_to_le is_bytes_to_be : eve.
Lemma len_cons {A} (x : A) l : length (x :: l) = S (length l).
Proof. reflexivity. Qed.
Lemma len_nil {A} : length (@nil A) = 0%nat.
Proof. reflexivity. Qed.

#[export] Hint Rewrite @len_cons @len_nil @length_app @length_take @length_drop @length_replicate
  @length_insert @length_inserts length_to_le length_to_be : eve_len.

(** Normalises lengths everywhere and calls [lia]. *)
Ltac len := autorewrite with eve_len in *; try lia.

(** Reduces a chain of [rd]/[sub]/[wr]/[copy_at] whose ranges [lia] proves. *)
Ltac no_panic :=
  repeat (first
    [ rewrite bind_ret
    | rewrite rd_ok by len
    | rewrite sub_ok by len
    | rewrite wr_ok by len
    | rewrite copy_at_ok by len ]).

(** ** A function that returns *)

(** [returns P m]: [m] does not panic, and its result satisfies [P]. *)
Definition returns {A} (P : A -> Prop) (m : rust A) : Prop :=
  match m with Ret a => P a | Panic => False end.

Lemma returns_bind {A B} (Q : A -> Prop) (P : B -> Prop) m (k : A -> rust B) :
  returns Q m -> (forall a, Q a -> returns P (k a)) -> returns P (m ≫= k).
Proof. destruct m; cbn; auto. Qed.

Lemma returns_weaken {A} (Q P : A -> Prop) m : returns Q m -> (forall a, Q a -> P a) -> returns P m.
Proof. destruct m; cbn; auto. Qed.

Lemma returns_ex {A} (P : A -> Prop) m : returns P m <-> exists a, m = Ret a /\ P a.
Proof. destruct m; cbn; split; [eauto|by intros (? & [= ->] & ?)|done|by intros (? & ? & ?)]. Qed.

(** The head of a function that reads its input and branches. *)
Section heads.
Context {A : Type} (P : A -> Prop).

Lemma returns_rd (s : bytes) i (k : Z -> rust A) :
  (i < length s)%nat -> returns P (k (s !!! i)) -> returns P (rd s i ≫= k).
Proof. intros Hi. by rewrite rd_ok, bind_ret by done. Qed.

Lemma returns_sub {B} (s : list B) a b (k : list B -> rust A) :
  (a <= b <= length s)%nat -> (length (slice s a b) = (b - a)%nat -> returns P (k (slice s a b))) ->
  returns P (sub s a b ≫= k).
Proof. intros Hi Hk. rewrite sub_ok, bind_ret by done. by apply Hk, length_slice. Qed.

Lemma returns_decide (Q : Prop) `{Decision Q} (a b : rust A) :
  (Q -> returns P a) -> (~ Q -> returns P b) -> returns P (if decide Q then a else b).
Proof. by destruct (decide Q); auto. Qed.
End heads.

(** One step of such a function; early returns are left alone. *)
Ltac rust_step := cbv zeta; lazymatch goal with
  | |- returns _ (rd _ _ ≫= _) => apply returns_rd; [lia|]
  | |- returns _ (sub _ _ _ ≫= _) => apply returns_sub; [lia|intros ?]
  | |- returns _ (if decide _ then Ret _ else _) => apply returns_decide; [intros _|intros ?]
  | |- returns _ (if decide _ then _ else _) => apply returns_decide; intros ?
  end.

(** Closes a goal by running its decision procedure: for witnesses. *)
Ltac by_decide := apply (bool_decide_unpack _); vm_compute; exact I.
