(* ===== verification/Ports.v ===== *)
(** * I/O ports and bounded polling

    The interface of the x86 [in] and [out] instructions
    ([kernel/src/ports.rs] wraps them one by one), over which the
    register-level drivers are written, and the loop
    [for _ in 0..n { ... }] with its early exits, which those drivers use to
    wait for a device.  The bounds of the source (up to two million rounds) are
    kept as [positive] numbers, so that the definitions stay executable. *)

From S2P Require Import Prelude.

(** [W] is the machine outside of the processor.  Reading a port may change it.
    [in32] and [out32] are the instructions [inl] and [outl]. *)
Class Ports (W : Type) := {
  inb : Z -> W -> W * Z;
  outb : Z -> Z -> W -> W;
  inw : Z -> W -> W * Z;
  outw : Z -> Z -> W -> W;
  in32 : Z -> W -> W * Z;
  out32 : Z -> Z -> W -> W;
}.

(** Volatile accesses to device registers in memory, beside the ports. *)
Class Mmio (W : Type) := {
  mmio_ports :: Ports W;
  mm_r8 : Z -> W -> W * Z;
  mm_r16 : Z -> W -> W * Z;
  mm_r32 : Z -> W -> W * Z;
  mm_w8 : Z -> Z -> W -> W;
  mm_w16 : Z -> Z -> W -> W;
  mm_w32 : Z -> Z -> W -> W;
  mm_w64 : Z -> Z -> W -> W;
}.

(** ** [for _ in 0..n]

    The body returns [inl s] to go on with [s] and [inr r] to leave the loop
    with the result [r]. *)

Section bounded.
Context {S R : Type} (body : S -> S + R).

Definition and_then (m : S + R) (k : S -> S + R) : S + R :=
  match m with inl s => k s | inr r => inr r end.

Fixpoint for_nat (n : nat) (s : S) : S + R :=
  match n with
  | O => inl s
  | Datatypes.S n => and_then (body s) (for_nat n)
  end.

Fixpoint for_upto (p : positive) (s : S) : S + R :=
  match p with
  | xH => body s
  | xO p => and_then (for_upto p s) (for_upto p)
  | xI p => and_then (body s) (fun s => and_then (for_upto p s) (for_upto p))
  end.

Lemma for_nat_S n s : for_nat (Datatypes.S n) s = and_then (body s) (for_nat n).
Proof. reflexivity. Qed.

Lemma for_nat_add m n s : for_nat (m + n) s = and_then (for_nat m s) (for_nat n).
Proof.
  revert s. induction m as [|m IH]; intros s; [done|]. cbn.
  destruct (body s) as [s'|r]; cbn; [apply IH|done].
Qed.

Lemma for_upto_nat p s : for_upto p s = for_nat (Pos.to_nat p) s.
Proof.
  revert s. induction p as [p IH|p IH|]; intros s.
  - replace (Pos.to_nat p~1) with (1 + (Pos.to_nat p + Pos.to_nat p))%nat by lia.
    rewrite for_nat_add. cbn. destruct (body s) as [s'|r]; cbn; [|done].
    rewrite IH, for_nat_add. destruct (for_nat _ s'); cbn; auto.
  - replace (Pos.to_nat p~0) with (Pos.to_nat p + Pos.to_nat p)%nat by lia.
    cbn [for_upto]. rewrite IH, for_nat_add. destruct (for_nat _ s); cbn; auto.
  - change (Pos.to_nat 1) with 1%nat. cbn. by destruct (body s).
Qed.

(** A loop that leaves after [k] rounds leaves under any larger bound. *)
Lemma for_upto_exit p k s r :
  (k <= Pos.to_nat p)%nat -> for_nat k s = inr r -> for_upto p s = inr r.
Proof.
  intros Hk E. rewrite for_upto_nat. replace (Pos.to_nat p) with (k + (Pos.to_nat p - k))%nat by lia.
  by rewrite for_nat_add, E.
Qed.

(** What holds of the loop's state and result, from what the body keeps. *)
Lemma for_upto_post (I : S -> Prop) (Q : R -> Prop) p s :
  (forall s, I s -> match body s with inl s => I s | inr r => Q r end) ->
  I s -> match for_upto p s with inl s => I s | inr r => Q r end.
Proof.
  intros Hb. rewrite for_upto_nat. revert s. induction (Pos.to_nat p) as [|n IH]; intros s Hs; [done|].
  cbn. specialize (Hb s Hs). destruct (body s) as [s0|r]; cbn; [exact (IH s0 Hb)|exact Hb].
Qed.
End bounded.

(** Two loops whose rounds correspond. *)
Lemma for_upto_map {S R S' R'} (f : S -> S') (g : R -> R') (body : S -> S + R) (body' : S' -> S' + R') p s :
  (forall s, body' (f s) = sum_map f g (body s)) -> for_upto body' p (f s) = sum_map f g (for_upto body p s).
Proof.
  intros Hb. rewrite !for_upto_nat. revert s. induction (Pos.to_nat p) as [|n IH]; intros s; [done|].
  cbn. rewrite Hb. destruct (body s); cbn; [apply IH|done].
Qed.
