(* ===== verification/Ps2.v ===== *)
(** * PS/2 keyboard and mouse ([kernel/src/ps2.rs])

    The i8042 controller is reached through [Ports]; the [static mut] variables
    of the file are the record [Ps2].  [poll_event] takes one byte from the
    controller and feeds the keyboard or the mouse decoder, which are
    [kbd_byte] and [mouse_byte].  The theorems: the two byte streams do not
    disturb each other, however they interleave; movement packets decode to
    the movements; key strokes decode to the text typed; start-up reads the
    mouse's answers past queued key strokes. *)

From S2P Require Import Prelude Ports.

(** ** Ports and waiting *)

Definition PS2_DATA : Z := 0x60.
Definition PS2_STATUS : Z := 0x64.
Definition PS2_CMD : Z := 0x64.
Definition STATUS_OUT_FULL : Z := 1.
Definition STATUS_IN_FULL : Z := 2.
Definition STATUS_AUX : Z := 0x20.

(** ** State of the decoders *)

Inductive Ps2Event :=
  | Key (code : Z) (shift : bool)
  | BrowserScroll (lines : Z)
  | Mouse (buttons dx dy : Z).

Record Ps2 := {
  KBD_RELEASE : bool;
  KBD_E0_PREFIX : bool;
  KBD_EXT_RELEASE : bool;
  SHIFT_L : bool;
  SHIFT_R : bool;
  MOUSE_PHASE : Z;
  MOUSE_BUF : bytes;
  MOUSE_PKT_LEN : Z;
}.
#[export] Instance Ps2_eta : Settable Ps2 := fun s =>
  Build_Ps2 s.(KBD_RELEASE) s.(KBD_E0_PREFIX) s.(KBD_EXT_RELEASE) s.(SHIFT_L) s.(SHIFT_R)
    s.(MOUSE_PHASE) s.(MOUSE_BUF) s.(MOUSE_PKT_LEN).

Definition Ps2_new : Ps2 := {|
  KBD_RELEASE := false; KBD_E0_PREFIX := false; KBD_EXT_RELEASE := false;
  SHIFT_L := false; SHIFT_R := false;
  MOUSE_PHASE := 0; MOUSE_BUF := replicate 4 0; MOUSE_PKT_LEN := 3 |}.

(** ** The decoders *)

(** The branch of [poll_event] for a byte of the keyboard. *)
Definition kbd_byte (b : Z) (s : Ps2) : Ps2 * option Ps2Event :=
  if decide (b = 0xE0) then (s <| KBD_E0_PREFIX := true |>, None)
  else if KBD_E0_PREFIX s then
    let s := s <| KBD_E0_PREFIX := false |> in
    if decide (b = 0xF0) then (s <| KBD_EXT_RELEASE := true |>, None)
    else (s, if decide (b = 0x48) then Some (BrowserScroll (-3))
             else if decide (b = 0x50) then Some (BrowserScroll 3) else None)
  else if decide (b = 0xF0) then (s <| KBD_RELEASE := true |>, None)
  else if KBD_RELEASE s then
    let s := s <| KBD_RELEASE := false |> in
    if KBD_EXT_RELEASE s then (s <| KBD_EXT_RELEASE := false |>, None)
    else if decide (b = 0x2A) then (s <| SHIFT_L := false |>, None)
    else if decide (b = 0x36) then (s <| SHIFT_R := false |>, None)
    else (s, None)
  else if KBD_EXT_RELEASE s then (s <| KBD_EXT_RELEASE := false |>, None)
  else if decide (b = 0x2A) then (s <| SHIFT_L := true |>, None)
  else if decide (b = 0x36) then (s <| SHIFT_R := true |>, None)
  else (s, Some (Key b (SHIFT_L s || SHIFT_R s))).

(** [dx |= 0xFF00u16 as i16] on a value read from one byte. *)
Definition sign_extend (flag : bool) (v : Z) : Z :=
  if flag then signed 16 (Z.lor v 0xFF00) else v.

Definition finish_ps2_mouse_packet (s : Ps2) : rust Ps2Event :=
  flags ← rd (MOUSE_BUF s) 0;
  x ← rd (MOUSE_BUF s) 1;
  y ← rd (MOUSE_BUF s) 2;
  let dx := sign_extend (bool_decide (Z.land flags 0x10 <> 0)) x in
  let dy := sign_extend (bool_decide (Z.land flags 0x20 <> 0)) y in
  Ret (Mouse (Z.land flags 0x07) dx (- dy)).

#[global] Arguments finish_ps2_mouse_packet : simpl never.

(** The branch of [poll_event] for a byte of the mouse. *)
Definition mouse_byte (b : Z) (s : Ps2) : rust (Ps2 * option Ps2Event) :=
  let phase := MOUSE_PHASE s in
  let pkt_len := Z.min (Z.max (MOUSE_PKT_LEN s) 3) 4 in
  let put i := buf ← wr (MOUSE_BUF s) i b; Ret (s <| MOUSE_BUF := buf |>) in
  let finish (s : Ps2) :=
    let s := s <| MOUSE_PHASE := 0 |> in e ← finish_ps2_mouse_packet s; Ret (s, Some e) in
  if decide (phase = 0) then
    if decide (Z.land b 0x08 = 0) then Ret (s, None)
    else s ← put 0%nat; Ret (s <| MOUSE_PHASE := 1 |>, None)
  else if decide (phase = 1) then s ← put 1%nat; Ret (s <| MOUSE_PHASE := 2 |>, None)
  else if decide (phase = 2) then
    s ← put 2%nat;
    if decide (pkt_len > 3) then Ret (s <| MOUSE_PHASE := 3 |>, None) else finish s
  else s ← put 3%nat; finish s.

(** One byte, from either device. *)
Definition ps2_byte (aux : bool) (b : Z) (s : Ps2) : rust (Ps2 * option Ps2Event) :=
  if aux then mouse_byte b s else Ret (kbd_byte b s).

(** ** The controller *)

Section controller.
Context {W : Type} `{Ports W}.

Definition wait_write_ready (w : W) : W :=
  match for_upto (fun w => let '(w, st) := inb PS2_STATUS w in
    if decide (Z.land st STATUS_IN_FULL = 0) then inr w else inl w) 100000 w
  with inl w | inr w => w end.

Definition wait_read_ready (w : W) : W :=
  match for_upto (fun w => let '(w, st) := inb PS2_STATUS w in
    if decide (Z.land st STATUS_OUT_FULL <> 0) then inr w else inl w) 100000 w
  with inl w | inr w => w end.

Definition write_cmd (v : Z) (w : W) : W := outb PS2_CMD v (wait_write_ready w).
Definition write_data (v : Z) (w : W) : W := outb PS2_DATA v (wait_write_ready w).
Definition read_data (w : W) : W * Z := inb PS2_DATA (wait_read_ready w).

(** One round of the loop of [read_aux_data]: the state is [skip_budget]. *)
Definition read_aux_round (sw : Z * W) : (Z * W) + (W * option Z) :=
  let '(skip_budget, w) := sw in
  let '(w, st) := inb PS2_STATUS w in
  if decide (Z.land st STATUS_OUT_FULL = 0) then inl (skip_budget, w)
  else
    let '(w, st) := inb PS2_STATUS w in
    let '(w, b) := inb PS2_DATA w in
    if decide (Z.land st STATUS_AUX <> 0) then inr (w, Some b)
    else if decide (skip_budget = 0) then inr (w, None)
    else inl (skip_budget - 1, w).

Definition read_aux_data (w : W) : W * option Z :=
  match for_upto read_aux_round 250000 (32, w) with
  | inl (_, w) => (w, None)
  | inr r => r
  end.

(** [for _ in 0..n { if full { inb(data) } else { break } }] *)
Definition drain (n : positive) (w : W) : W :=
  match for_upto (fun w => let '(w, st) := inb PS2_STATUS w in
    if decide (Z.land st STATUS_OUT_FULL <> 0) then inl (inb PS2_DATA w).1 else inr w) n w
  with inl w | inr w => w end.

(** [write_cmd(0xD4); write_data(v); read_aux_data()] *)
Definition mouse_cmd (v : Z) (w : W) : W * option Z :=
  read_aux_data (write_data v (write_cmd 0xD4 w)).

(** The mouse's part of [init]: the packet length. *)
Definition init_mouse (w : W) : W * Z :=
  let '(w, r) := mouse_cmd 0xF6 w in
  if decide (r <> Some 0xFA) then (w, 3)
  else
    let '(w, r) := mouse_cmd 0xF4 w in
    if decide (r <> Some 0xFA) then (w, 3)
    else
      let '(w, r) := mouse_cmd 0xF2 w in
      if decide (r <> Some 0xFA) then (w, 3)
      else
        let '(w, id) := read_aux_data w in
        let id := default 0 id in
        (w, if decide (id = 0x03 \/ id = 0x04) then 4 else 3).

Definition init (w : W) (s : Ps2) : W * Ps2 :=
  let w := drain 16 w in
  let w := write_cmd 0xA8 w in
  let w := write_cmd 0x20 w in
  let '(w, cfg) := read_data w in
  let cfg := Z.lor cfg 0x03 in
  let w := write_cmd 0x60 w in
  let w := write_data cfg w in
  let '(w, pkt_len) := init_mouse w in
  (drain 8 w, s <| MOUSE_PKT_LEN := pkt_len |>).

Definition poll_event (w : W) (s : Ps2) : W * rust (Ps2 * option Ps2Event) :=
  let '(w, st) := inb PS2_STATUS w in
  if decide (Z.land st STATUS_OUT_FULL = 0) then (w, Ret (s, None))
  else
    let '(w, st) := inb PS2_STATUS w in
    let '(w, b) := inb PS2_DATA w in
    (w, ps2_byte (bool_decide (Z.land st 0x20 <> 0)) b s).
End controller.

(** ** From key to character *)

Definition scancode_set1_to_ascii (code : Z) (shift : bool) : option Z :=
  let on (hi lo : string) := Some (if shift then bs hi !!! 0%nat else bs lo !!! 0%nat) in
  if decide (0x02 <= code <= 0x0A) then
    Some (if shift then bs "!@#$%^&*(" !!! Z.to_nat (code - 0x02) else 49 + (code - 0x02))
  else match code with
  | 0x1C => Some 10
  | 0x0E => Some 0x08
  | 0x39 => Some 32
  | 0x0B => on ")" "0"
  | 0x0C => on "_" "-"
  | 0x0D => on "+" "="
  | 0x1A => on "{" "["
  | 0x1B => on "}" "]"
  | 0x27 => on ":" ";"
  | 0x28 => Some (if shift then 34 else 39)
  | 0x29 => on "~" "`"
  | 0x33 => on "<" ","
  | 0x34 => on ">" "."
  | 0x35 => on "?" "/"
  | 0x2B => on "|" "\"
  | 0x10 => on "Q" "q"
  | 0x11 => on "W" "w"
  | 0x12 => on "E" "e"
  | 0x13 => on "R" "r"
  | 0x14 => on "T" "t"
  | 0x15 => on "Y" "y"
  | 0x16 => on "U" "u"
  | 0x17 => on "I" "i"
  | 0x18 => on "O" "o"
  | 0x19 => on "P" "p"
  | 0x1E => on "A" "a"
  | 0x1F => on "S" "s"
  | 0x20 => on "D" "d"
  | 0x21 => on "F" "f"
  | 0x22 => on "G" "g"
  | 0x23 => on "H" "h"
  | 0x24 => on "J" "j"
  | 0x25 => on "K" "k"
  | 0x26 => on "L" "l"
  | 0x2C => on "Z" "z"
  | 0x2D => on "X" "x"
  | 0x2E => on "C" "c"
  | 0x2F => on "V" "v"
  | 0x30 => on "B" "b"
  | 0x31 => on "N" "n"
  | 0x32 => on "M" "m"
  | _ => None
  end%string.

(** ** What the controller promises

    [pending w] is the controller's output queue, oldest byte first, each byte
    with the device it comes from.  The status port shows whether there is one
    and from which device; the data port takes it. *)

Class I8042 (W : Type) `{Ports W} := {
  pending : W -> list (bool * Z);
  pending_bytes w : Forall (fun x => is_byte x.2) (pending w);
  status_keeps w : pending (inb PS2_STATUS w).1 = pending w;
  status_full w : Z.land (inb PS2_STATUS w).2 STATUS_OUT_FULL <> 0 <-> pending w <> [];
  status_aux w x l : pending w = x :: l ->
    bool_decide (Z.land (inb PS2_STATUS w).2 STATUS_AUX <> 0) = x.1;
  data_pops w x l : pending w = x :: l ->
    (inb PS2_DATA w).2 = x.2 /\ pending (inb PS2_DATA w).1 = l;
}.

(** Calls of [poll_event], as many as [n], and the events they return. *)
Fixpoint poll_events {W} `{Ports W} (n : nat) (w : W) (s : Ps2) : W * rust (Ps2 * list Ps2Event) :=
  match n with
  | O => (w, Ret (s, []))
  | S n =>
      match poll_event w s with
      | (w, Panic) => (w, Panic)
      | (w, Ret (s, e)) =>
          let '(w, r) := poll_events n w s in
          (w, '(s, es) ← r; Ret (s, option_list e ++ es))
      end
  end.

(** ** The decoders on whole streams *)

Fixpoint decode_kbd (l : bytes) (s : Ps2) : Ps2 * list Ps2Event :=
  match l with
  | [] => (s, [])
  | b :: l =>
      let '(s, e) := kbd_byte b s in
      let '(s, es) := decode_kbd l s in
      (s, option_list e ++ es)
  end.

Fixpoint decode_mouse (l : bytes) (s : Ps2) : rust (Ps2 * list Ps2Event) :=
  match l with
  | [] => Ret (s, [])
  | b :: l =>
      '(s, e) ← mouse_byte b s;
      '(s, es) ← decode_mouse l s;
      Ret (s, option_list e ++ es)
  end.

Definition is_mouse_event (e : Ps2Event) : bool :=
  match e with Mouse _ _ _ => true | _ => false end.

Definition mouse_events (es : list Ps2Event) : list Ps2Event :=
  filter (fun e => is_mouse_event e = true) es.
Definition kbd_events (es : list Ps2Event) : list Ps2Event :=
  filter (fun e => is_mouse_event e = false) es.

(** The bytes of one device in a mixed stream. *)
Definition bytes_of (aux : bool) (l : list (bool * Z)) : bytes :=
  (filter (fun x => x.1 = aux) l).*2.

(** The keyboard's state of [s] with the mouse's state of [m]. *)
Definition with_mouse (m s : Ps2) : Ps2 :=
  s <| MOUSE_PHASE := MOUSE_PHASE m |> <| MOUSE_BUF := MOUSE_BUF m |>
    <| MOUSE_PKT_LEN := MOUSE_PKT_LEN m |>.

(** ** Specifications of the two protocols

    A movement of the mouse: buttons, nine-bit signed deltas (up is positive),
    and the byte of the wheel, which only four-byte packets carry. *)
Record Movement := { mv_buttons : Z; mv_dx : Z; mv_dy : Z; mv_wheel : Z }.

Definition movement_ok (m : Movement) : Prop :=
  0 <= m.(mv_buttons) < 8 /\ -256 <= m.(mv_dx) <= 255 /\ -256 <= m.(mv_dy) <= 255 /\
  is_byte m.(mv_wheel).
#[export] Instance movement_ok_dec m : Decision (movement_ok m).
Proof. unfold movement_ok. apply _. Defined.

Definition packet_flags (m : Movement) : Z :=
  8 + m.(mv_buttons) + (if decide (m.(mv_dx) < 0) then 16 else 0)
    + (if decide (m.(mv_dy) < 0) then 32 else 0).

Definition packet (pkt_len : Z) (m : Movement) : bytes :=
  [packet_flags m; m.(mv_dx) mod 256; m.(mv_dy) mod 256] ++
  (if decide (pkt_len = 4) then [m.(mv_wheel)] else []).

(** The event of a movement: the screen's y axis points down. *)
Definition movement_event (m : Movement) : Ps2Event :=
  Mouse m.(mv_buttons) m.(mv_dx) (- m.(mv_dy)).

(** The keys of a US keyboard, row by row, as they are printed on it: the make
    code of the first key of the row in scan code set 1 (the codes count up
    along a row), the characters of the row, and the same keys with shift. *)
Definition us_rows : list (Z * bytes * bytes) := [
  (0x02, bs "1234567890-=", bs "!@#$%^&*()_+");
  (0x10, bs "qwertyuiop[]", bs "QWERTYUIOP{}");
  (0x1E, bs "asdfghjkl;'`", bs "ASDFGHJKL:" ++ [34] ++ bs "~");
  (0x2B, bs "\zxcvbnm,./", bs "|ZXCVBNM<>?");
  (0x0E, [8], []);
  (0x1C, [10], []);
  (0x39, bs " ", [])].

(** The place of a character in a row. *)
Definition place (c : Z) (row : bytes) : option nat := fst <$> list_find (fun x => x = c) row.

(** The key that carries a character, and whether it takes shift. *)
Fixpoint key_in (c : Z) (rows : list (Z * bytes * bytes)) : option (Z * bool) :=
  match rows with
  | [] => None
  | (k, plain, shifted) :: rows =>
      match place c plain, place c shifted with
      | Some i, _ => Some (k + Z.of_nat i, false)
      | _, Some i => Some (k + Z.of_nat i, true)
      | None, None => key_in c rows
      end
  end.
Definition key_of (c : Z) : option (Z * bool) := key_in c us_rows.

(** Press and release of a key: make code, then [0xF0] and the code. *)
Definition press_release (k : Z) : bytes := [k; 0xF0; k].

Definition stroke (c : Z) : bytes :=
  match key_of c with
  | Some (k, true) => 0x2A :: press_release k ++ [0xF0; 0x2A]
  | Some (k, false) => press_release k
  | None => []
  end.

(** The characters a sequence of key events stands for. *)
Definition typed (es : list Ps2Event) : bytes :=
  omap (fun e => match e with Key code shift => scancode_set1_to_ascii code shift | _ => None end) es.

(** Printable ASCII, backspace and new line. *)
Definition typeable (c : Z) : Prop := 32 <= c <= 126 \/ c = 8 \/ c = 10.
#[export] Instance typeable_dec c : Decision (typeable c).
Proof. unfold typeable. apply _. Defined.

(** No key is half read, and no shift key is down. *)
Definition kbd_idle (s : Ps2) : Prop :=
  KBD_RELEASE s = false /\ KBD_E0_PREFIX s = false /\ KBD_EXT_RELEASE s = false /\
  SHIFT_L s = false /\ SHIFT_R s = false.
#[export] Instance kbd_idle_dec s : Decision (kbd_idle s).
Proof. unfold kbd_idle. apply _. Defined.

Definition ps2_wf (s : Ps2) : Prop :=
  length (MOUSE_BUF s) = 4%nat /\ is_bytes (MOUSE_BUF s) /\ 0 <= MOUSE_PHASE s <= 3.
#[export] Instance ps2_wf_dec s : Decision (ps2_wf s).
Proof. unfold ps2_wf. apply _. Defined.

(** ** The decoders keep to their own state *)

(** Decides the tests of a decoder one by one. *)
Ltac ps2_cases := repeat (case_decide || case_match); simplify_eq/=; try done.

Lemma kbd_byte_frame b s m :
  kbd_byte b (with_mouse m s) = (with_mouse m (kbd_byte b s).1, (kbd_byte b s).2).
Proof. destruct s as [[] [] [] ? ? ? ? ?]; unfold kbd_byte; cbn; by ps2_cases. Qed.

Lemma kbd_byte_mouse b s : with_mouse s (kbd_byte b s).1 = (kbd_byte b s).1.
Proof. destruct s as [[] [] [] ? ? ? ? ?]; unfold kbd_byte; cbn; by ps2_cases. Qed.

Lemma kbd_byte_event b s e : (kbd_byte b s).2 = Some e -> is_mouse_event e = false.
Proof. destruct s as [[] [] [] ? ? ? ? ?]; unfold kbd_byte; cbn; intros E; by ps2_cases. Qed.

(** The bytes of a packet become [x] of the event, and its range. *)
Lemma sign_extend_byte f v : is_byte v -> sign_extend f v = if f then v - 256 else v.
Proof.
  intros Hv. destruct f; [|done].
  assert (Forall (fun v => sign_extend true v = v - 256) (seqZ 0 256)) as Hall by by_decide.
  rewrite Forall_forall in Hall. apply Hall, elem_of_seqZ. unfold is_byte in Hv. lia.
Qed.

Lemma land_7_range z : 0 <= Z.land z 7 < 8.
Proof. change 7 with (Z.ones 3). rewrite Z.land_ones by lia. by apply Z.mod_pos_bound. Qed.

Definition event_ok (e : Ps2Event) : Prop :=
  match e with
  | Mouse btn dx dy => 0 <= btn < 8 /\ -256 <= dx <= 255 /\ -255 <= dy <= 256
  | _ => True
  end.

Lemma finish_packet_ok s :
  length (MOUSE_BUF s) = 4%nat -> is_bytes (MOUSE_BUF s) ->
  exists e, finish_ps2_mouse_packet s = Ret e /\ is_mouse_event e = true /\ event_ok e.
Proof.
  intros (a & b & c & d & E)%list4_eq Hb. unfold finish_ps2_mouse_packet. rewrite E in *. cbn.
  apply Forall_cons in Hb as [_ [Hb [Hc _]%Forall_cons]%Forall_cons].
  eexists; split_and!; [done..|]. cbn. rewrite !sign_extend_byte by done.
  pose proof (land_7_range a). unfold is_byte in *. split_and!; try lia; repeat case_match; lia.
Qed.

(** A mouse byte is taken, whatever it is. *)
Lemma mouse_byte_ok b s : is_byte b -> ps2_wf s ->
  exists s' e, mouse_byte b s = Ret (s', e) /\ ps2_wf s' /\
    MOUSE_PKT_LEN s' = MOUSE_PKT_LEN s /\
    (forall e', e = Some e' -> is_mouse_event e' = true /\ event_ok e') /\
    forall m, mouse_byte b (with_mouse s m) = Ret (with_mouse s' m, e).
Proof.
  destruct s as [f1 f2 f3 f4 f5 p buf len]. intros Hb (Hl & Hbuf & Hp).
  unfold mouse_byte, ps2_wf; cbn in *.
  assert (forall i, length (<[i:=b]> buf) = 4%nat /\ is_bytes (<[i:=b]> buf)) as Hput.
  { intros i. rewrite length_insert. split; [done|]. by apply Forall_insert. }
  assert (forall i, exists e, forall f1 f2 f3 f4 f5 len,
     finish_ps2_mouse_packet (Build_Ps2 f1 f2 f3 f4 f5 0 (<[i:=b]> buf) len) = Ret e /\
     is_mouse_event e = true /\ event_ok e) as Hfin.
  { intros i. destruct (finish_packet_ok (Build_Ps2 f1 f2 f3 f4 f5 0 (<[i:=b]> buf) len)) as (e & He);
      [apply Hput..|]. by exists e. }
  repeat case_decide; rewrite ?wr_ok, ?bind_ret by lia.
  1-4: eexists _, None; split; [reflexivity|]; cbn; split_and!; try apply Hput; try done; try lia; intros m; rewrite ?wr_ok, ?bind_ret by lia; try done.
  1: destruct (Hfin 2%nat) as [e He].
  2: destruct (Hfin 3%nat) as [e He].
  all: rewrite (proj1 (He _ _ _ _ _ _)); eexists _, (Some e); split; [reflexivity|]; cbn.
  all: split_and!; try apply Hput; try done; [intros ? [= <-]; by apply (He f1 f2 f3 f4 f5 len)|].
  all: intros m; by rewrite ?wr_ok, ?bind_ret, (proj1 (He _ _ _ _ _ _)) by lia.
Qed.

Lemma with_mouse_self s : with_mouse s s = s.
Proof. by destruct s. Qed.

Lemma decode_kbd_frame l s m :
  decode_kbd l (with_mouse m s) = (with_mouse m (decode_kbd l s).1, (decode_kbd l s).2).
Proof.
  revert s. induction l as [|b l IH]; intros s; [done|]. cbn. rewrite kbd_byte_frame.
  destruct (kbd_byte b s) as [s' e]; cbn. rewrite IH. by destruct (decode_kbd l s').
Qed.

Lemma decode_mouse_ok l s : is_bytes l -> ps2_wf s ->
  exists s' es, decode_mouse l s = Ret (s', es) /\ ps2_wf s' /\
    MOUSE_PKT_LEN s' = MOUSE_PKT_LEN s /\
    Forall (fun e => is_mouse_event e = true /\ event_ok e) es /\
    forall m, decode_mouse l (with_mouse s m) = Ret (with_mouse s' m, es).
Proof.
  intros Hl. revert s. induction Hl as [|b l Hb _ IH]; intros s Hs; [by exists s, []|].
  destruct (mouse_byte_ok b s Hb Hs) as (s1 & e & E & Hs1 & Hlen & He & Hm).
  destruct (IH s1 Hs1) as (s2 & es & E2 & Hs2 & Hlen2 & Hes & Hm2).
  exists s2, (option_list e ++ es). cbn. rewrite E, bind_ret, E2. split_and!; try done; [congruence|..].
  - apply Forall_app. split; [|done]. destruct e; cbn; [|done]. constructor; [by apply He|done].
  - intros m. by rewrite Hm, bind_ret, Hm2.
Qed.

Lemma events_split e es b :
  (forall e', e = Some e' -> is_mouse_event e' = b) ->
  mouse_events (option_list e ++ es) = (if b then option_list e else []) ++ mouse_events es /\
  kbd_events (option_list e ++ es) = (if b then [] else option_list e) ++ kbd_events es.
Proof.
  intros He. unfold mouse_events, kbd_events. destruct e as [e|]; [|by destruct b].
  specialize (He e eq_refl). change (option_list (Some e) ++ es) with (e :: es).
  rewrite !filter_cons, He. by destruct b.
Qed.

Lemma is_bytes_of aux l : Forall (fun x => is_byte x.2) l -> is_bytes (bytes_of aux l).
Proof.
  intros Hl. apply Forall_fmap, Forall_forall. intros x [_ Hx]%list_elem_of_filter.
  by apply (proj1 (Forall_forall _ _) Hl).
Qed.

(** ** Polling a controller *)

Section polling.
Context {W : Type} `{I8042 W}.
Implicit Types (w : W) (s : Ps2).

Lemma poll_event_empty w s : pending w = [] ->
  exists w', poll_event w s = (w', Ret (s, None)) /\ pending w' = [].
Proof.
  intros E. unfold poll_event. pose proof (status_full w) as Hf. pose proof (status_keeps w) as Hk.
  destruct (inb PS2_STATUS w) as [w1 st]; cbn in *. rewrite decide_True; [exists w1; split; congruence|].
  destruct (decide (Z.land st STATUS_OUT_FULL = 0)); [done|]. by apply Hf in E.
Qed.

Lemma poll_event_next w s aux b l : pending w = (aux, b) :: l ->
  exists w', poll_event w s = (w', ps2_byte aux b s) /\ pending w' = l.
Proof.
  intros E. unfold poll_event. pose proof (status_full w) as Hf. pose proof (status_keeps w) as Hk.
  destruct (inb PS2_STATUS w) as [w1 st]; cbn in *. rewrite decide_False by (apply Hf; congruence).
  rewrite E in Hk. pose proof (status_aux w1 _ _ Hk) as Ha. pose proof (status_keeps w1) as Hk1.
  destruct (inb PS2_STATUS w1) as [w2 st2]; cbn in *. rewrite Hk in Hk1.
  pose proof (data_pops w2 _ _ Hk1) as [Hd Hp]. destruct (inb PS2_DATA w2) as [w3 b']; cbn in *.
  exists w3. change STATUS_AUX with 0x20 in Ha. by rewrite Ha, Hd.
Qed.

(** Polling splits the queue into the two streams. *)
Lemma poll_streams n w s : ps2_wf s -> (length (pending w) <= n)%nat ->
  exists w' sm em es,
    decode_mouse (bytes_of true (pending w)) s = Ret (sm, em) /\ mouse_events es = em /\
    kbd_events es = (decode_kbd (bytes_of false (pending w)) s).2 /\
    poll_events n w s = (w', Ret (with_mouse sm (decode_kbd (bytes_of false (pending w)) s).1, es)) /\
    pending w' = [].
Proof.
  revert w s. induction n as [|n IH]; intros w s Hs Hn.
  { destruct (pending w) eqn:E; [|cbn in Hn; lia]. exists w, s, [], []. cbn.
    by rewrite with_mouse_self. }
  destruct (pending w) as [|[aux b] l] eqn:E.
  { destruct (poll_event_empty w s E) as (w1 & E1 & Hw1).
    destruct (IH w1 s Hs) as (w2 & sm & em & es & IH'); [rewrite Hw1; cbn; lia|].
    rewrite Hw1 in IH'. cbn in IH'. destruct IH' as ([= <- <-] & Hm & Hk & E2 & Hw2).
    exists w2, s, [], es. cbn. by rewrite E1, E2. }
  destruct (poll_event_next w s aux b l E) as (w1 & E1 & Hw1). cbn [poll_events]. rewrite E1.
  pose proof (pending_bytes w) as Hb. rewrite E in Hb. apply Forall_cons in Hb as [Hb Hbl]. cbn in Hb.
  cbn in Hn. destruct aux; cbn [ps2_byte].
  - destruct (mouse_byte_ok b s Hb Hs) as (s1 & e & E2 & Hs1 & _ & He & Hm).
    pose proof (Hm s) as Hs'. rewrite with_mouse_self, E2 in Hs'. injection Hs' as Hs'.
    destruct (IH w1 s1 Hs1) as (w2 & sm & em & es & Em & Ee & Ek & E3 & Hw2); [rewrite Hw1; lia|].
    rewrite Hw1 in *. rewrite E2, E3.
    destruct (events_split e es true) as [Hse Hsk]; [by intros; apply He|].
    eexists w2, sm, (option_list e ++ em), (option_list e ++ es).
    change (bytes_of true ((true, b) :: l)) with (b :: bytes_of true l).
    change (bytes_of false ((true, b) :: l)) with (bytes_of false l).
    cbn [decode_mouse]. rewrite E2, bind_ret, Em, Hse, Hsk, Ee.
    rewrite Hs', decode_kbd_frame in Ek |- *. split_and!; done.
  - pose proof (kbd_byte_mouse b s) as Hs'. pose proof (kbd_byte_event b s) as He.
    cbn [decode_kbd].
    change (bytes_of true ((false, b) :: l)) with (bytes_of true l).
    change (bytes_of false ((false, b) :: l)) with (b :: bytes_of false l).
    destruct (decode_mouse_ok (bytes_of true l) s) as (sm & em & Em & _ & _ & _ & Hm); [|done|].
    { by apply is_bytes_of. }
    cbn [decode_kbd]. destruct (kbd_byte b s) as [s1 e]; cbn in *.
    assert (ps2_wf s1) as Hs1 by (rewrite <-Hs'; exact Hs).
    destruct (IH w1 s1 Hs1) as (w2 & sm' & em' & es & Em' & Ee & Ek & E3 & Hw2); [rewrite Hw1; lia|].
    rewrite Hw1 in *. rewrite <-Hs', Hm in Em'. injection Em' as <- <-.
    destruct (events_split e es false) as [Hse Hsk]; [done|].
    exists w2, sm, em, (option_list e ++ es). rewrite E3, Hse, Hsk, Ek.
    destruct (decode_kbd (bytes_of false l) s1); cbn. split_and!; done.
Qed.
End polling.

(** ** Movement packets *)

Lemma decode_mouse_app l1 l2 s s1 es1 : decode_mouse l1 s = Ret (s1, es1) ->
  decode_mouse (l1 ++ l2) s = '(s2, es2) ← decode_mouse l2 s1; Ret (s2, es1 ++ es2).
Proof.
  revert s es1. induction l1 as [|b l1 IH]; intros s es1; cbn.
  - intros [= -> <-]. by destruct (decode_mouse l2 s1) as [[]|].
  - destruct (mouse_byte b s) as [[s' e]|]; [|done]. rewrite !bind_ret.
    destruct (decode_mouse l1 s') as [[s2 es2]|] eqn:E; [|done]. rewrite bind_ret. intros [= -> <-].
    rewrite (IH _ _ E). destruct (decode_mouse l2 s1) as [[]|]; cbn; [|done]. by rewrite app_assoc.
Qed.

Lemma packet_flags_bits m : movement_ok m ->
  Z.land (packet_flags m) 0x08 <> 0 /\ Z.land (packet_flags m) 0x07 = m.(mv_buttons) /\
  bool_decide (Z.land (packet_flags m) 0x10 <> 0) = bool_decide (m.(mv_dx) < 0) /\
  bool_decide (Z.land (packet_flags m) 0x20 <> 0) = bool_decide (m.(mv_dy) < 0) /\
  is_byte (packet_flags m).
Proof.
  destruct m as [b dx dy z]. unfold packet_flags. cbn. intros [Hb _]; cbn in Hb.
  rewrite (bool_decide_decide (dx < 0)), (bool_decide_decide (dy < 0)).
  assert (b = 0 \/ b = 1 \/ b = 2 \/ b = 3 \/ b = 4 \/ b = 5 \/ b = 6 \/ b = 7) as Hc by lia.
  destruct (decide (dx < 0)), (decide (dy < 0)), Hc as [->|[->|[->|[->|[->|[->|[->| ->]]]]]]];
    by vm_compute.
Qed.

(** Low byte and sign give the delta back. *)
Lemma delta_byte d : -256 <= d <= 255 -> sign_extend (bool_decide (d < 0)) (d mod 256) = d.
Proof.
  intros Hd. rewrite sign_extend_byte by (apply Z.mod_pos_bound; lia).
  case_bool_decide; [|by apply Z.mod_small; lia].
  rewrite <-(Z_mod_plus d 1) by lia. rewrite Z.mod_small; lia.
Qed.

Lemma is_bytes_packet len m : movement_ok m -> is_bytes (packet len m).
Proof.
  intros Hm. pose proof (packet_flags_bits m Hm) as (_ & _ & _ & _ & Hf).
  assert (forall z, is_byte (z mod 256)) as Hmod by (intros; apply Z.mod_pos_bound; lia).
  unfold packet, is_bytes. destruct (decide (len = 4)); cbn; rewrite !Forall_cons; split_and!; try done;
    try apply Hm; constructor.
Qed.

(** The bytes of one packet, on an explicit state. *)
Section packet_bytes.
Context (f1 f2 f3 f4 f5 : bool) (a b c d : Z).
#[local] Abbreviation st p buf len := (Build_Ps2 f1 f2 f3 f4 f5 p buf len).

Lemma first_byte x len : Z.land x 0x08 <> 0 ->
  mouse_byte x (st 0 [a; b; c; d] len) = Ret (st 1 [x; b; c; d] len, None).
Proof. intros Hx. unfold mouse_byte. cbv zeta. by rewrite (decide_False (P := Z.land x 8 = 0)). Qed.

Lemma second_byte x y len : mouse_byte y (st 1 [x; b; c; d] len) = Ret (st 2 [x; y; c; d] len, None).
Proof. reflexivity. Qed.

Lemma third_byte_of_3 x y z : mouse_byte z (st 2 [x; y; c; d] 3) =
  e ← finish_ps2_mouse_packet (st 0 [x; y; z; d] 3); Ret (st 0 [x; y; z; d] 3, Some e).
Proof. reflexivity. Qed.

Lemma third_byte_of_4 x y z : mouse_byte z (st 2 [x; y; c; d] 4) = Ret (st 3 [x; y; z; d] 4, None).
Proof. reflexivity. Qed.

Lemma fourth_byte x y z u : mouse_byte u (st 3 [x; y; z; d] 4) =
  e ← finish_ps2_mouse_packet (st 0 [x; y; z; u] 4); Ret (st 0 [x; y; z; u] 4, Some e).
Proof. reflexivity. Qed.

Lemma decode_three x y z : Z.land x 0x08 <> 0 ->
  decode_mouse [x; y; z] (st 0 [a; b; c; d] 3) =
    e ← finish_ps2_mouse_packet (st 0 [x; y; z; d] 3); Ret (st 0 [x; y; z; d] 3, [e]).
Proof.
  intros Hx. cbn [decode_mouse]. rewrite first_byte, bind_ret, second_byte, bind_ret, third_byte_of_3 by done.
  by destruct (finish_ps2_mouse_packet _).
Qed.

Lemma decode_four x y z u : Z.land x 0x08 <> 0 ->
  decode_mouse [x; y; z; u] (st 0 [a; b; c; d] 4) =
    e ← finish_ps2_mouse_packet (st 0 [x; y; z; u] 4); Ret (st 0 [x; y; z; u] 4, [e]).
Proof.
  intros Hx. cbn [decode_mouse].
  rewrite first_byte, bind_ret, second_byte, bind_ret, third_byte_of_4, bind_ret, fourth_byte by done.
  by destruct (finish_ps2_mouse_packet _).
Qed.

Lemma finish_movement m z len : movement_ok m ->
  finish_ps2_mouse_packet (st 0 [packet_flags m; mv_dx m mod 256; mv_dy m mod 256; z] len) =
    Ret (movement_event m).
Proof.
  intros Hm. destruct (packet_flags_bits m Hm) as (_ & H7 & H16 & H32 & _), Hm as (_ & Hdx & Hdy & _).
  unfold finish_ps2_mouse_packet. cbn. by rewrite H16, H32, H7, !delta_byte.
Qed.
End packet_bytes.

Lemma decode_packet m s : movement_ok m -> ps2_wf s -> MOUSE_PHASE s = 0 ->
  MOUSE_PKT_LEN s = 3 \/ MOUSE_PKT_LEN s = 4 ->
  exists s', decode_mouse (packet (MOUSE_PKT_LEN s) m) s = Ret (s', [movement_event m]) /\
    ps2_wf s' /\ MOUSE_PHASE s' = 0 /\ MOUSE_PKT_LEN s' = MOUSE_PKT_LEN s.
Proof.
  intros Hm Hs Hp Hlen. destruct (packet_flags_bits m Hm) as (H8 & _).
  destruct (decode_mouse_ok (packet (MOUSE_PKT_LEN s) m) s) as (s1 & es & E & Hs1 & Hl1 & _); [|done|].
  { by apply is_bytes_packet. }
  exists s1. rewrite E.
  destruct s as [f1 f2 f3 f4 f5 p buf len], Hs as [(a & b & c & d & Hbuf)%list4_eq _].
  cbn in Hbuf, Hp, Hlen, Hl1 |- *. subst p buf. destruct Hlen as [-> | ->].
  - change (packet _ m) with [packet_flags m; mv_dx m mod 256; mv_dy m mod 256] in E.
    rewrite decode_three, finish_movement in E by done. by injection E as <- <-.
  - change (packet _ m) with [packet_flags m; mv_dx m mod 256; mv_dy m mod 256; mv_wheel m] in E.
    rewrite decode_four, finish_movement in E by done. by injection E as <- <-.
Qed.

Lemma decode_noise l s :
  MOUSE_PHASE s = 0 -> Forall (fun b => Z.land b 0x08 = 0) l -> decode_mouse l s = Ret (s, []).
Proof.
  intros Hs Hl. induction Hl as [|b l Hb _ IH]; [done|]. cbn. unfold mouse_byte.
  by rewrite (decide_True (P := MOUSE_PHASE s = 0)), decide_True, bind_ret, IH.
Qed.

Lemma decode_packets ms s : Forall movement_ok ms -> ps2_wf s -> MOUSE_PHASE s = 0 ->
  MOUSE_PKT_LEN s = 3 \/ MOUSE_PKT_LEN s = 4 ->
  exists s', decode_mouse (concat (map (packet (MOUSE_PKT_LEN s)) ms)) s =
    Ret (s', map movement_event ms).
Proof.
  intros Hms. revert s. induction Hms as [|m ms Hm _ IH]; intros s Hs Hp Hl; [by exists s|].
  destruct (decode_packet m s Hm Hs Hp Hl) as (s1 & E & Hs1 & Hp1 & Hl1).
  destruct (IH s1 Hs1 Hp1) as (s2 & E2); [by rewrite Hl1|]. rewrite Hl1 in E2. exists s2. cbn [map concat].
  by rewrite (decode_mouse_app _ _ _ _ _ E), E2.
Qed.

(** ** Key strokes *)

Definition plain_key (k : Z) : Prop := k <> 0xE0 /\ k <> 0xF0 /\ k <> 0x2A /\ k <> 0x36.
#[export] Instance plain_key_dec k : Decision (plain_key k).
Proof. unfold plain_key. apply _. Defined.

(** The keyboard carries every typeable character, the driver's table gives it
    back, and its key is not a prefix or a shift. *)
Lemma key_of_typeable c : typeable c ->
  exists k shift, key_of c = Some (k, shift) /\ plain_key k /\ scancode_set1_to_ascii k shift = Some c.
Proof.
  intros Hc.
  assert (Forall (fun c => match key_of c with
    | Some (k, shift) => bool_decide (plain_key k /\ scancode_set1_to_ascii k shift = Some c)
    | None => false end = true) (8 :: 10 :: seqZ 32 95)) as Hall by by_decide.
  rewrite Forall_forall in Hall. specialize (Hall c).
  assert (c ∈ 8 :: 10 :: seqZ 32 95) as Hin
    by (rewrite !elem_of_cons, elem_of_seqZ; unfold typeable in Hc; lia).
  specialize (Hall Hin). destruct (key_of c) as [[k sh]|]; [exists k, sh|done].
  split; [done|]. by apply bool_decide_eq_true in Hall.
Qed.

(** A key without a prefix, from a state with no key half read. *)
Lemma kbd_make k s f : plain_key k -> kbd_idle s ->
  kbd_byte k (s <| SHIFT_L := f |>) = (s <| SHIFT_L := f |>, Some (Key k f)).
Proof.
  intros (H1 & H2 & H3 & H4) Hs. unfold kbd_byte. cbv zeta. rewrite (decide_False _ _ H1), ?(decide_False _ _ H2), ?(decide_False _ _ H3), ?(decide_False _ _ H4).
  destruct s as [[] [] [] [] [] ? ? ?]; try by destruct Hs as (?&?&?&?&?). cbn. by rewrite orb_false_r.
Qed.

Lemma kbd_break k s f : plain_key k -> kbd_idle s ->
  kbd_byte k (s <| SHIFT_L := f |> <| KBD_RELEASE := true |>) = (s <| SHIFT_L := f |>, None).
Proof.
  intros (H1 & H2 & H3 & H4) Hs. unfold kbd_byte. cbv zeta. rewrite (decide_False _ _ H1), ?(decide_False _ _ H2), ?(decide_False _ _ H3), ?(decide_False _ _ H4).
  by destruct s as [[] [] [] [] [] ? ? ?]; try by destruct Hs as (?&?&?&?&?).
Qed.

Lemma kbd_break_prefix s f : kbd_idle s ->
  kbd_byte 0xF0 (s <| SHIFT_L := f |>) = (s <| SHIFT_L := f |> <| KBD_RELEASE := true |>, None).
Proof. by destruct s as [[] [] [] [] [] ? ? ?]; intros (?&?&?&?&?). Qed.

Lemma decode_press_release k l f s : plain_key k -> kbd_idle s ->
  decode_kbd (press_release k ++ l) (s <| SHIFT_L := f |>) =
    let '(s', es) := decode_kbd l (s <| SHIFT_L := f |>) in (s', Key k f :: es).
Proof.
  intros Hk Hs. unfold press_release. cbn [app decode_kbd].
  rewrite kbd_make, kbd_break_prefix, kbd_break by done. by destruct (decode_kbd l _).
Qed.

Lemma shift_down s : kbd_idle s -> kbd_byte 0x2A s = (s <| SHIFT_L := true |>, None).
Proof. by destruct s as [[] [] [] [] [] ? ? ?]; intros (?&?&?&?&?). Qed.

Lemma shift_up s : kbd_idle s ->
  kbd_byte 0x2A (s <| SHIFT_L := true |> <| KBD_RELEASE := true |>) = (s, None).
Proof. by destruct s as [[] [] [] [] [] ? ? ?]; intros (?&?&?&?&?). Qed.

Lemma shift_is_up s : kbd_idle s -> s <| SHIFT_L := false |> = s.
Proof. by destruct s as [[] [] [] [] [] ? ? ?]; intros (?&?&?&?&?). Qed.

Lemma decode_stroke c l s : typeable c -> kbd_idle s ->
  exists k shift, scancode_set1_to_ascii k shift = Some c /\
    decode_kbd (stroke c ++ l) s = let '(s', es) := decode_kbd l s in (s', Key k shift :: es).
Proof.
  intros (k & sh & E & Hk & Hc)%key_of_typeable Hs. exists k, sh. split; [done|].
  unfold stroke. rewrite E. destruct sh.
  - change ((0x2A :: press_release k ++ [0xF0; 0x2A]) ++ l) with (0x2A :: press_release k ++ [0xF0; 0x2A] ++ l).
    cbn [decode_kbd]. rewrite shift_down, decode_press_release by done.
    cbn [app decode_kbd]. rewrite kbd_break_prefix, shift_up by done. by destruct (decode_kbd l s).
  - rewrite <-(shift_is_up s Hs) at 1. rewrite decode_press_release by done. by rewrite shift_is_up.
Qed.

Lemma decode_strokes text s : Forall typeable text -> kbd_idle s ->
  (decode_kbd (concat (map stroke text)) s).1 = s /\
  typed (decode_kbd (concat (map stroke text)) s).2 = text.
Proof.
  intros Ht Hs. induction Ht as [|c text Hc _ [IH1 IH2]]; [done|]. cbn [map concat].
  destruct (decode_stroke c (concat (map stroke text)) s Hc Hs) as (k & sh & E & ->).
  destruct (decode_kbd _ s) as [s' es]; cbn in *. split; [done|]. by rewrite E, IH2.
Qed.

(** Only key events count as typed. *)
Lemma typed_kbd_events es : typed (kbd_events es) = typed es.
Proof.
  unfold kbd_events, typed. induction es as [|e es IH]; [done|]. rewrite filter_cons.
  destruct e; cbn [is_mouse_event]; rewrite ?decide_True, ?decide_False by done;
    cbn [omap list_omap]; by rewrite ?IH.
Qed.

(** ** Reading the mouse's answer past key strokes *)

Section aux.
Context {W : Type} `{I8042 W}.
Implicit Types (w : W).

Lemma read_aux_round_step w sb aux b l : pending w = (aux, b) :: l ->
  exists w', pending w' = l /\ read_aux_round (sb, w) =
    if aux : bool then inr (w', Some b)
    else if decide (sb = 0) then inr (w', None) else inl (sb - 1, w').
Proof.
  intros E. unfold read_aux_round. pose proof (status_full w) as Hf. pose proof (status_keeps w) as Hk.
  destruct (inb PS2_STATUS w) as [w1 st]; cbn in *. rewrite (decide_False (P := Z.land st _ = 0)) by (apply Hf; congruence).
  rewrite E in Hk. pose proof (status_aux w1 _ _ Hk) as Ha. pose proof (status_keeps w1) as Hk1.
  destruct (inb PS2_STATUS w1) as [w2 st2]; cbn in *. rewrite Hk in Hk1.
  pose proof (data_pops w2 _ _ Hk1) as [Hd Hp]. destruct (inb PS2_DATA w2) as [w3 b']; cbn in *.
  exists w3. split; [done|]. rewrite Hd. rewrite bool_decide_decide in Ha.
  by destruct (decide (Z.land st2 STATUS_AUX <> 0)), aux.
Qed.

Lemma read_aux_rounds kbd b l w sb :
  pending w = map (pair false) kbd ++ (true, b) :: l -> Z.of_nat (length kbd) <= sb ->
  exists w', pending w' = l /\ for_nat read_aux_round (S (length kbd)) (sb, w) = inr (w', Some b).
Proof.
  revert w sb. induction kbd as [|k kbd IH]; intros w sb E Hsb.
  - destruct (read_aux_round_step w sb _ _ _ E) as (w' & Hw & E'). exists w'.
    split; [done|]. cbn [length]. by rewrite for_nat_S, E'.
  - destruct (read_aux_round_step w sb _ _ _ E) as (w1 & Hw & E1). cbn [length] in *.
    destruct (IH w1 (sb - 1) Hw) as (w2 & Hw2 & E2); [lia|]. exists w2. split; [done|].
    rewrite for_nat_S, E1, decide_False by lia. exact E2.
Qed.

Lemma read_aux_gives_up kbd b l w sb :
  pending w = map (pair false) (kbd ++ [b]) ++ l -> Z.of_nat (length kbd) = sb ->
  exists w', pending w' = l /\ for_nat read_aux_round (S (length kbd)) (sb, w) = inr (w', None).
Proof.
  revert w sb. induction kbd as [|k kbd IH]; intros w sb E Hsb.
  - destruct (read_aux_round_step w sb _ _ _ E) as (w' & Hw & E'). exists w'.
    split; [done|]. cbn [length] in *. by rewrite for_nat_S, E', decide_True by lia.
  - destruct (read_aux_round_step w sb _ _ _ E) as (w1 & Hw & E1). cbn [length] in *.
    destruct (IH w1 (sb - 1) Hw) as (w2 & Hw2 & E2); [lia|]. exists w2. split; [done|].
    rewrite for_nat_S, E1, decide_False by lia. exact E2.
Qed.
End aux.

(** ** A controller in memory

    The output queue, whether the next data byte goes to the mouse, and the
    mouse's device id; a command to the mouse is acknowledged at once. *)

Record FakeCtl := { fc_out : list (bool * Z); fc_aux : bool; fc_id : Z }.

Definition fc_status (w : FakeCtl) : Z :=
  match w.(fc_out) with [] => 0 | (aux, _) :: _ => if aux : bool then 0x21 else 0x01 end.

Definition fc_inb (p : Z) (w : FakeCtl) : FakeCtl * Z :=
  if decide (p = PS2_DATA) then
    ({| fc_out := tail w.(fc_out); fc_aux := w.(fc_aux); fc_id := w.(fc_id) |},
     match w.(fc_out) with [] => 0 | (_, b) :: _ => b mod 256 end)
  else (w, fc_status w).

Definition fc_push (l : list (bool * Z)) (aux : bool) (w : FakeCtl) : FakeCtl :=
  {| fc_out := w.(fc_out) ++ l; fc_aux := aux; fc_id := w.(fc_id) |}.

Definition fc_outb (p v : Z) (w : FakeCtl) : FakeCtl :=
  if decide (p = PS2_CMD) then
    fc_push (if decide (v = 0x20) then [(false, 0x47)] else []) (bool_decide (v = 0xD4)) w
  else if w.(fc_aux) then
    fc_push ((true, 0xFA) :: if decide (v = 0xF2) then [(true, w.(fc_id))] else []) false w
  else w.

#[export] Instance FakeCtl_ports : Ports FakeCtl := {|
  inb := fc_inb; outb := fc_outb; inw := fun _ w => (w, 0); outw := fun _ _ w => w;
  in32 := fun _ w => (w, 0); out32 := fun _ _ w => w |}.

#[export, refine] Instance FakeCtl_i8042 : I8042 FakeCtl := {|
  pending := fun w => map (fun x => (x.1, x.2 mod 256)) w.(fc_out) |}.
Proof.
  - intros w. apply Forall_fmap, Forall_forall. intros x _. apply Z.mod_pos_bound. lia.
  - done.
  - intros [[|[[] b] l] aux id]; cbn; split; done.
  - intros [[|[[] b] l] aux id] x l'; cbn; by intros [= <- <-].
  - intros [[|[[] b] l] aux id] x l'; cbn; by intros [= <- <-].
Defined.

(** A mouse with a wheel gets four-byte packets, another one three-byte packets. *)
Example init_wheel_mouse :
  MOUSE_PKT_LEN (init {| fc_out := [(false, 0x1C)]; fc_aux := false; fc_id := 3 |} Ps2_new).2 = 4.
Proof. vm_compute. reflexivity. Qed.

Example init_plain_mouse :
  MOUSE_PKT_LEN (init {| fc_out := []; fc_aux := false; fc_id := 0 |} Ps2_new).2 = 3.
Proof. vm_compute. reflexivity. Qed.

(** Set-1 hardware releases a key with [code + 0x80]: the decoder takes it for
    another key, and a released shift stays down. *)
Example set1_release_keeps_shift :
  decode_kbd [0x2A; 0x1E; 0x9E; 0xAA; 0x1E] Ps2_new =
    (Ps2_new <| SHIFT_L := true |>, [Key 0x1E true; Key 0x9E true; Key 0xAA true; Key 0x1E true]).
Proof. reflexivity. Qed.

(** ** Properties *)

(** C16: However the bytes of the keyboard and of the mouse interleave in the
    controller's queue, polling never panics and returns exactly the events
    the two streams decode to on their own; the mouse's deltas are in range. *)
Theorem ps2_streams_independent {W} `{I8042 W} n (w : W) s :
  ps2_wf s -> (length (pending w) <= n)%nat ->
  exists w' sm em es,
    poll_events n w s = (w', Ret (with_mouse sm (decode_kbd (bytes_of false (pending w)) s).1, es)) /\
    decode_mouse (bytes_of true (pending w)) s = Ret (sm, em) /\
    mouse_events es = em /\ kbd_events es = (decode_kbd (bytes_of false (pending w)) s).2 /\
    Forall (fun e => is_mouse_event e = true /\ event_ok e) em /\ ps2_wf sm /\ pending w' = [].
Proof.
  intros Hs Hn. destruct (poll_streams n w s Hs Hn) as (w' & sm & em & es & Em & He & Hk & Ep & Hw).
  destruct (decode_mouse_ok (bytes_of true (pending w)) s) as (sm' & em' & Em' & Hsm & _ & Hok & _);
    [apply is_bytes_of, pending_bytes|done|].
  rewrite Em in Em'. injection Em' as <- <-. by exists w', sm, em, es.
Qed.

(** Movement packets of three or four bytes, after line noise and with key
    strokes in between, are delivered as the movements they encode: buttons,
    sign-extended deltas, y turned down. *)
Theorem mouse_movements_delivered {W} `{I8042 W} n (w : W) s noise ms :
  ps2_wf s -> MOUSE_PHASE s = 0 -> MOUSE_PKT_LEN s = 3 \/ MOUSE_PKT_LEN s = 4 ->
  Forall (fun b => Z.land b 0x08 = 0) noise -> Forall movement_ok ms ->
  bytes_of true (pending w) = noise ++ concat (map (packet (MOUSE_PKT_LEN s)) ms) ->
  (length (pending w) <= n)%nat ->
  exists w' s' es, poll_events n w s = (w', Ret (s', es)) /\
    mouse_events es = map movement_event ms.
Proof.
  intros Hs Hp Hl Hnoise Hms E Hn.
  destruct (poll_streams n w s Hs Hn) as (w' & sm & em & es & Em & He & _ & Ep & _).
  destruct (decode_packets ms s Hms Hs Hp Hl) as (s2 & E2).
  rewrite E, (decode_mouse_app _ _ _ _ _ (decode_noise noise s Hp Hnoise)), E2 in Em.
  injection Em as _ <-. eexists w', _, es. by rewrite Ep.
Qed.

(** C25: Typing a text of printable characters, backspaces and new lines on a
    US keyboard ([us_rows]: the codes of its rows, the characters printed on
    its keys), with make codes, [0xF0] break codes and the left shift key,
    delivers that text, whatever the mouse sends meanwhile, and leaves no key
    half read. *)
Theorem typed_text_delivered {W} `{I8042 W} n (w : W) s text :
  ps2_wf s -> kbd_idle s -> Forall typeable text ->
  bytes_of false (pending w) = concat (map stroke text) -> (length (pending w) <= n)%nat ->
  exists w' s' es, poll_events n w s = (w', Ret (s', es)) /\ typed es = text /\ kbd_idle s'.
Proof.
  intros Hs Hi Ht E Hn.
  destruct (poll_streams n w s Hs Hn) as (w' & sm & em & es & _ & _ & Hk & Ep & _).
  destruct (decode_strokes text s Ht Hi) as [E1 E2]. rewrite E, E1 in Ep. rewrite E in Hk.
  eexists w', _, es. split; [exact Ep|]. by rewrite <-typed_kbd_events, Hk.
Qed.

(** While the mouse's answer waits behind queued key strokes, start-up skips
    up to 32 of them and reads the answer; behind more, it gives up after the
    thirty-third. *)
Theorem read_aux_data_skips {W} `{I8042 W} (w : W) kbd b l :
  pending w = map (pair false) kbd ++ (true, b) :: l ->
  exists w' r, read_aux_data w = (w', r) /\
    ((length kbd <= 32)%nat -> r = Some b /\ pending w' = l) /\
    ((32 < length kbd)%nat -> r = None /\ pending w' = map (pair false) (drop 33 kbd) ++ (true, b) :: l).
Proof.
  intros E. unfold read_aux_data. destruct (decide (length kbd <= 32)%nat) as [Hk|Hk].
  - destruct (read_aux_rounds kbd b l w 32 E) as (w' & Hw & E'); [lia|]. exists w', (Some b).
    rewrite (for_upto_exit _ 250000 (S (length kbd)) _ _ ltac:(lia) E'). split_and!; [done|done|lia].
  - rewrite <-(take_drop 33 kbd), map_app, <-app_assoc in E.
    assert (exists k33, take 33 kbd = take 32 kbd ++ [k33]) as [k33 Ek].
    { destruct (lookup_lt_is_Some_2 kbd 32) as [x Hx]; [lia|]. exists x. by apply take_S_r. }
    rewrite Ek in E. destruct (read_aux_gives_up _ _ _ w 32 E) as (w' & Hw & E');
      [rewrite length_take; lia|]. exists w', None. rewrite length_take in E'.
    rewrite (for_upto_exit _ 250000 (S (32 `min` length kbd)) _ _ ltac:(lia) E'). split_and!; [done|lia|done].
Qed.

(** ** Witnesses

    Two movements and the text [Hi] on one queue. *)

Definition demo_moves : list Movement :=
  [{| mv_buttons := 1; mv_dx := -3; mv_dy := 200; mv_wheel := 0 |};
   {| mv_buttons := 0; mv_dx := 255; mv_dy := -256; mv_wheel := 0 |}].

Fixpoint mix (a b : list (bool * Z)) : list (bool * Z) :=
  match a, b with
  | x :: a, y :: b => x :: y :: mix a b
  | [], b => b
  | a, [] => a
  end.

Definition demo_ctl : FakeCtl := {|
  fc_out := mix (map (pair false) (concat (map stroke (bs "Hi"))))
                (map (pair true) (0x00 :: concat (map (packet 3) demo_moves)));
  fc_aux := false; fc_id := 0 |}.

Lemma ps2_streams_independent_witness :
  exists sm em es, (poll_events 40 demo_ctl Ps2_new).2 =
      Ret (with_mouse sm (decode_kbd (bytes_of false (pending demo_ctl)) Ps2_new).1, es) /\
    decode_mouse (bytes_of true (pending demo_ctl)) Ps2_new = Ret (sm, em) /\
    mouse_events es = em.
Proof.
  destruct (ps2_streams_independent 40 demo_ctl Ps2_new) as (w' & sm & em & es & E & H1 & H2 & _).
  - by_decide.
  - by_decide.
  - exists sm, em, es. rewrite E. by split_and!.
Defined.

Lemma mouse_movements_delivered_witness :
  exists w' s' es, poll_events 40 demo_ctl Ps2_new = (w', Ret (s', es)) /\
    mouse_events es = [Mouse 1 (-3) (-200); Mouse 0 255 256].
Proof.
  apply (mouse_movements_delivered 40 demo_ctl Ps2_new [0x00] demo_moves).
  - by_decide.
  - reflexivity.
  - left. reflexivity.
  - by_decide.
  - by_decide.
  - vm_compute. reflexivity.
  - by_decide.
Defined.

Lemma typed_text_delivered_witness :
  exists w' s' es, poll_events 40 demo_ctl Ps2_new = (w', Ret (s', es)) /\
    typed es = bs "Hi" /\ kbd_idle s'.
Proof.
  apply (typed_text_delivered 40 demo_ctl Ps2_new (bs "Hi")).
  - by_decide.
  - by_decide.
  - by_decide.
  - vm_compute. reflexivity.
  - by_decide.
Defined.

Lemma read_aux_data_skips_witness :
  exists w', read_aux_data {| fc_out := [(false, 0x1C); (true, 0xFA)]; fc_aux := false; fc_id := 0 |}
    = (w', Some 0xFA).
Proof.
  destruct (read_aux_data_skips
    {| fc_out := [(false, 0x1C); (true, 0xFA)]; fc_aux := false; fc_id := 0 |} [0x1C] 0xFA [])
    as (w' & r & E & H1 & _).
  - vm_compute. reflexivity.
  - exists w'. rewrite E. f_equal. apply H1. apply (bool_decide_unpack _); vm_compute; exact I.
Defined.
