(* ===== verification/Hid.v ===== *)
(** * USB keyboards and mice above the host controllers

    [usb_common.rs]: the walk over a configuration descriptor;
    [usb_hid/mod.rs], [usb_hid/x86.rs]: the choice of a host controller, key
    reports and the key queue; [xhci.rs], [ehci.rs]: the dispatch to companion
    controllers.  A controller's driver is a [HidDriver], the interface all four
    modules share.  The theorems: the descriptor walk finds exactly the first
    matching endpoint, for any bytes; every newly pressed key of every report is
    delivered once, in order, and the queue never loses one. *)

From S2P Require Import Prelude.

(** ** Configuration descriptors *)

(** The walk's loop: [iface] is the interface the walk is in, 0xFF for one
    that does not match.  Every round consumes at least two bytes. *)
Fixpoint find_eps_loop (fuel : nat) (cfg : bytes) (protocol iface : Z) (i : nat) :
    rust (option (Z * Z * Z)) :=
  match fuel with
  | O => Panic
  | S fuel =>
      if decide (i + 2 <= length cfg)%nat then
        len ← rd cfg i;
        let len := Z.to_nat len in
        if decide (len < 2 \/ length cfg < i + len)%nat then Ret None
        else
          ty ← rd cfg (i + 1);
          if decide (ty = 4) then
            if decide (9 <= len)%nat then
              iface ← rd cfg (i + 2);
              class ← rd cfg (i + 5);
              subclass ← rd cfg (i + 6);
              proto ← rd cfg (i + 7);
              find_eps_loop fuel cfg protocol
                (if decide (class <> 3 \/ subclass <> 1 \/ proto <> protocol) then 0xFF else iface)
                (i + len)
            else find_eps_loop fuel cfg protocol iface (i + len)
          else if decide (ty = 5) then
            if decide ((7 <= len)%nat /\ iface <> 0xFF) then
              addr ← rd cfg (i + 2);
              attr ← rd cfg (i + 3);
              lo ← rd cfg (i + 4);
              hi ← rd cfg (i + 5);
              if decide (Z.land addr 0x80 <> 0 /\ Z.land attr 3 = 3) then
                Ret (Some (iface, addr, of_le [lo; hi]))
              else find_eps_loop fuel cfg protocol iface (i + len)
            else find_eps_loop fuel cfg protocol iface (i + len)
          else find_eps_loop fuel cfg protocol iface (i + len)
      else Ret None
  end.

Definition find_hid_boot_eps (cfg : bytes) (protocol : Z) : rust (option (Z * Z * Z)) :=
  find_eps_loop (S (length cfg)) cfg protocol 0 0.

Fixpoint has_hub_loop (fuel : nat) (cfg : bytes) (i : nat) : rust bool :=
  match fuel with
  | O => Panic
  | S fuel =>
      if decide (i + 2 <= length cfg)%nat then
        len ← rd cfg i;
        let len := Z.to_nat len in
        if decide (len < 2 \/ length cfg < i + len)%nat then Ret false
        else
          ty ← rd cfg (i + 1);
          if decide (ty = 4 /\ (9 <= len)%nat) then
            class ← rd cfg (i + 5);
            if decide (class = 9) then Ret true else has_hub_loop fuel cfg (i + len)
          else has_hub_loop fuel cfg (i + len)
      else Ret false
  end.

Definition config_has_hub_interface (cfg : bytes) : rust bool :=
  has_hub_loop (S (length cfg)) cfg 0.

(** ** The drivers *)

Record HidDriver (W : Type) := {
  hd_init : Z -> W -> W * bool;
  hd_poll_mouse_slot : nat -> W -> W * option (Z * Z * Z);
  hd_usb_mouse_count : W -> nat;
  hd_mouse_ready : W -> bool;
  hd_keyboard_ready : W -> bool;
  hd_kbd_suppresses_ps2 : W -> bool;
  hd_poll_keyboard_report : W -> W * option bytes;
}.
Arguments hd_init {W}.
Arguments hd_poll_mouse_slot {W}.
Arguments hd_usb_mouse_count {W}.
Arguments hd_mouse_ready {W}.
Arguments hd_keyboard_ready {W}.
Arguments hd_kbd_suppresses_ps2 {W}.
Arguments hd_poll_keyboard_report {W}.

(** No controller: [UsbActive::None] and [XhciBackend::None]. *)
Definition no_driver {W} : HidDriver W := {|
  hd_init := fun _ w => (w, false);
  hd_poll_mouse_slot := fun _ w => (w, None);
  hd_usb_mouse_count := fun _ => 0%nat;
  hd_mouse_ready := fun _ => false;
  hd_keyboard_ready := fun _ => false;
  hd_kbd_suppresses_ps2 := fun _ => false;
  hd_poll_keyboard_report := fun w => (w, None) |}.

(** [ehci.rs]: looks for the controller, and never drives it. *)
Definition ehci {W} (find_ehci : W -> W * bool) : HidDriver W := {|
  hd_init := fun _ w => ((find_ehci w).1, false);
  hd_poll_mouse_slot := fun _ w => (w, None);
  hd_usb_mouse_count := fun _ => 0%nat;
  hd_mouse_ready := fun _ => false;
  hd_keyboard_ready := fun _ => false;
  hd_kbd_suppresses_ps2 := fun _ => false;
  hd_poll_keyboard_report := fun w => (w, None) |}.

(** What the machine offers: PCI scans, and the register-level drivers. *)
Class UsbMachine (W : Type) := {
  scan_usb_host_prog_if : W -> W * option Z;
  find_usb_uhci_io : W -> W * bool;
  find_ehci : W -> W * bool;
  find_xhci : W -> W * bool;
  uhci : HidDriver W;
  ohci : HidDriver W;
  xhci_native : HidDriver W;
}.

Inductive UsbHostKind := HostNone | HostUhci | HostOhci | HostEhci | HostXhci | HostOther (pi : Z).
Inductive UsbActive := ActiveNone | ActiveUhci | ActiveOhci | ActiveEhci | ActiveXhci.
Inductive XhciBackend := BackendNone | BackendOhci | BackendUhci | BackendEhci | BackendNative.

Definition KBD_Q_CAP : nat := 8.

Record UsbHid := {
  DETECTED : UsbHostKind;
  ACTIVE : UsbActive;
  BACKEND : XhciBackend;
  PREV_KBD_REPORT : bytes;
  KBD_QUEUE : list (Z * bool);
  KBD_Q_HEAD : nat;
  KBD_Q_TAIL : nat;
}.
#[export] Instance UsbHid_eta : Settable UsbHid := fun s =>
  Build_UsbHid s.(DETECTED) s.(ACTIVE) s.(BACKEND) s.(PREV_KBD_REPORT) s.(KBD_QUEUE)
    s.(KBD_Q_HEAD) s.(KBD_Q_TAIL).

Definition UsbHid_new : UsbHid := {|
  DETECTED := HostNone; ACTIVE := ActiveNone; BACKEND := BackendNone;
  PREV_KBD_REPORT := replicate 8 0; KBD_QUEUE := replicate KBD_Q_CAP (0, false);
  KBD_Q_HEAD := 0; KBD_Q_TAIL := 0 |}.

Definition pci_prog_to_kind (pi : Z) : UsbHostKind :=
  if decide (pi = 0x00) then HostUhci
  else if decide (pi = 0x10) then HostOhci
  else if decide (pi = 0x20) then HostEhci
  else if decide (pi = 0x30) then HostXhci
  else HostOther pi.

Section host.
Context {W : Type} `{UsbMachine W}.

(** [xhci::init] with the backend it selects. *)
Definition xhci_init (skew : Z) (w : W) : W * XhciBackend * bool :=
  let '(w, found) := find_xhci w in
  if found : bool then
    let '(w, ok) := hd_init ohci skew w in
    if ok : bool then (w, BackendOhci, true)
    else
      let '(w, ok) := hd_init uhci skew w in
      if ok : bool then (w, BackendUhci, true)
      else
        let '(w, ok) := hd_init (ehci find_ehci) skew w in
        if ok : bool then (w, BackendEhci, true)
        else
          let '(w, ok) := hd_init xhci_native skew w in
          if ok : bool then (w, BackendNative, true) else (w, BackendNone, false)
  else (w, BackendNone, false).

Definition xhci_backend (b : XhciBackend) : HidDriver W :=
  match b with
  | BackendNone => no_driver
  | BackendOhci => ohci
  | BackendUhci => uhci
  | BackendEhci => ehci find_ehci
  | BackendNative => xhci_native
  end.

(** The driver the calls of [usb_hid] are dispatched to. *)
Definition active_driver (s : UsbHid) : HidDriver W :=
  match ACTIVE s with
  | ActiveNone => no_driver
  | ActiveUhci => uhci
  | ActiveOhci => ohci
  | ActiveEhci => ehci find_ehci
  | ActiveXhci => xhci_backend (BACKEND s)
  end.

Definition init (skew : Z) (w : W) (s : UsbHid) : W * UsbHid :=
  let s := s <| PREV_KBD_REPORT := replicate 8 0 |> <| KBD_Q_HEAD := 0%nat |>
             <| KBD_Q_TAIL := 0%nat |> <| ACTIVE := ActiveNone |> in
  let '(w, pi) := scan_usb_host_prog_if w in
  let s := s <| DETECTED := match pi with Some pi => pci_prog_to_kind pi | None => HostNone end |> in
  let '(w, io) := find_usb_uhci_io w in
  let '(w, ok) := if io : bool then hd_init uhci skew w else (w, false) in
  if ok : bool then (w, s <| ACTIVE := ActiveUhci |> <| DETECTED := HostUhci |>)
  else
    let '(w, b, ok) := xhci_init skew w in
    let s := s <| BACKEND := b |> in
    if ok : bool then (w, s <| ACTIVE := ActiveXhci |> <| DETECTED := HostXhci |>)
    else
      let '(w, ok) := hd_init ohci skew w in
      if ok : bool then (w, s <| ACTIVE := ActiveOhci |> <| DETECTED := HostOhci |>)
      else
        let '(w, ok) := hd_init (ehci find_ehci) skew w in
        if ok : bool then (w, s <| ACTIVE := ActiveEhci |> <| DETECTED := HostEhci |>)
        else (w, s).

Definition poll_hid_slot (idx : nat) (w : W) (s : UsbHid) : W * option (Z * Z * Z) :=
  hd_poll_mouse_slot (active_driver s) idx w.
Definition usb_mouse_count (w : W) (s : UsbHid) : nat := hd_usb_mouse_count (active_driver s) w.
Definition usb_mouse_active (w : W) (s : UsbHid) : bool := hd_mouse_ready (active_driver s) w.
Definition usb_keyboard_active (w : W) (s : UsbHid) : bool := hd_keyboard_ready (active_driver s) w.
Definition usb_ps2_kbd_should_ignore (w : W) (s : UsbHid) : bool :=
  hd_kbd_suppresses_ps2 (active_driver s) w.
Definition poll_keyboard_report_any (w : W) (s : UsbHid) : W * option bytes :=
  hd_poll_keyboard_report (active_driver s) w.

(** ** Key presses *)

Definition kbd_q_push (usage : Z) (shift : bool) (s : UsbHid) : rust UsbHid :=
  let n := ((KBD_Q_TAIL s + 1) `mod` KBD_Q_CAP)%nat in
  if decide (n = KBD_Q_HEAD s) then Ret s
  else
    q ← wr (KBD_QUEUE s) (KBD_Q_TAIL s) (usage, shift);
    Ret (s <| KBD_QUEUE := q |> <| KBD_Q_TAIL := n |>).

Definition kbd_q_pop (s : UsbHid) : rust (UsbHid * option (Z * bool)) :=
  if decide (KBD_Q_HEAD s = KBD_Q_TAIL s) then Ret (s, None)
  else
    v ← rd (KBD_QUEUE s) (KBD_Q_HEAD s);
    Ret (s <| KBD_Q_HEAD := ((KBD_Q_HEAD s + 1) `mod` KBD_Q_CAP)%nat |>, Some v).

(** The loop over the six key slots of a report. *)
Fixpoint push_new (keys old : bytes) (shift : bool) (s : UsbHid) : rust UsbHid :=
  match keys with
  | [] => Ret s
  | k :: keys =>
      s ← (if decide (k = 0) then Ret s
           else if decide (k ∈ old) then Ret s
           else kbd_q_push k shift s);
      push_new keys old shift s
  end.

Definition poll_usb_key_press (w : W) (s : UsbHid) : W * rust (UsbHid * option (Z * bool)) :=
  if usb_keyboard_active w s then
    match kbd_q_pop s with
    | Panic => (w, Panic)
    | Ret (s, Some v) => (w, Ret (s, Some v))
    | Ret (s, None) =>
        let '(w, rep) := poll_keyboard_report_any w s in
        (w, match rep with
            | None => Ret (s, None)
            | Some rep =>
                m ← rd rep 0;
                let shift := bool_decide (Z.land m 0x22 <> 0) in
                old ← sub (PREV_KBD_REPORT s) 2 8;
                keys ← sub rep 2 8;
                s ← push_new keys old shift s;
                kbd_q_pop (s <| PREV_KBD_REPORT := rep |>)
            end)
    end
  else (w, Ret (s, None)).
End host.

Definition hid_usage_to_ascii (usage : Z) (shift : bool) : option Z :=
  let on (hi lo : string) := Some (if shift then bs hi !!! 0%nat else bs lo !!! 0%nat) in
  if decide (0x04 <= usage <= 0x1D) then Some (if shift then 65 + (usage - 0x04) else 97 + (usage - 0x04))
  else if decide (0x1E <= usage <= 0x26) then
    Some (if shift then bs "!@#$%^&*(" !!! Z.to_nat (usage - 0x1E) else 49 + (usage - 0x1E))
  else match usage with
  | 0x28 => Some 10
  | 0x2A => Some 0x08
  | 0x2C => Some 32
  | 0x27 => on ")" "0"
  | 0x2D => on "_" "-"
  | 0x2E => on "+" "="
  | 0x2F => on "{" "["
  | 0x30 => on "}" "]"
  | 0x33 => on ":" ";"
  | 0x34 => Some (if shift then 34 else 39)
  | 0x35 => on "~" "`"
  | 0x36 => on "<" ","
  | 0x37 => on ">" "."
  | 0x38 => on "?" "/"
  | 0x31 => on "|" "\"
  | _ => None
  end%string.

(** ** Specifications *)

(** A descriptor: its own length, a type, and a body. *)
Definition desc_ok (d : bytes) : Prop :=
  (2 <= length d)%nat /\ d !! 0%nat = Some (Z.of_nat (length d)).

(** The walk stops where no whole descriptor follows. *)
Definition stops (rest : bytes) : Prop :=
  (length rest < 2)%nat \/
  exists b, rest !! 0%nat = Some b /\ (Z.to_nat b < 2 \/ length rest < Z.to_nat b)%nat.

(** Interface descriptors of nine bytes or more, endpoint descriptors of seven or more. *)
Definition is_interface (d : bytes) : bool := bool_decide (d !! 1%nat = Some 4 /\ (9 <= length d)%nat).
Definition is_endpoint (d : bytes) : bool := bool_decide (d !! 1%nat = Some 5 /\ (7 <= length d)%nat).

(** A boot interface of the protocol: class 3, subclass 1. *)
Definition boot_interface (protocol : Z) (d : bytes) : Prop :=
  d !!! 5%nat = 3 /\ d !!! 6%nat = 1 /\ d !!! 7%nat = protocol.
#[export] Instance boot_interface_dec p d : Decision (boot_interface p d).
Proof. unfold boot_interface. apply _. Defined.

(** An interrupt endpoint towards the host. *)
Definition interrupt_in_ep (d : bytes) : Prop :=
  Z.land (d !!! 2%nat) 0x80 <> 0 /\ Z.land (d !!! 3%nat) 3 = 3.
#[export] Instance interrupt_in_ep_dec d : Decision (interrupt_in_ep d).
Proof. unfold interrupt_in_ep. apply _. Defined.

(** The descriptors before the first interface of a list. *)
Fixpoint before_interface (ds : list bytes) : list bytes :=
  match ds with
  | [] => []
  | d :: ds => if is_interface d then [] else d :: before_interface ds
  end.

(** The interfaces of a configuration, each with the descriptors up to the
    next interface. *)
Fixpoint interfaces (ds : list bytes) : list (bytes * list bytes) :=
  match ds with
  | [] => []
  | d :: ds => if is_interface d then (d, before_interface ds) :: interfaces ds else interfaces ds
  end.

Definition input_endpoint (d : bytes) : Prop := is_endpoint d = true /\ interrupt_in_ep d.
#[export] Instance input_endpoint_dec d : Decision (input_endpoint d).
Proof. unfold input_endpoint. apply _. Defined.

(** Interface number, endpoint address and packet size of the first
    interrupt-in endpoint among the descriptors of an interface. *)
Definition input_of (iface : Z) (eps : list bytes) : option (Z * Z * Z) :=
  (fun e => (iface, e !!! 2%nat, of_le [e !!! 4%nat; e !!! 5%nat])) <$> head (filter input_endpoint eps).

(** The interrupt-in endpoint that a boot driver uses: that of the first boot
    interface of the protocol that has one.  Interfaces are numbered from 0
    and there are at most 255, so 255 is no number. *)
Definition boot_endpoint (protocol : Z) (ds : list bytes) : option (Z * Z * Z) :=
  head (omap (fun x : bytes * list bytes =>
    if decide (boot_interface protocol x.1 /\ x.1 !!! 2%nat <> 0xFF) then input_of (x.1 !!! 2%nat) x.2
    else None) (interfaces ds)).

(** The state of the walk: the number of the interface it takes itself to be
    in, 255 outside the ones it looks for. *)
Fixpoint first_ep (ds : list bytes) (protocol iface : Z) : option (Z * Z * Z) :=
  match ds with
  | [] => None
  | d :: ds =>
      if is_interface d then
        first_ep ds protocol (if decide (boot_interface protocol d) then d !!! 2%nat else 0xFF)
      else if is_endpoint d && bool_decide (iface <> 0xFF /\ interrupt_in_ep d) then
        Some (iface, d !!! 2%nat, of_le [d !!! 4%nat; d !!! 5%nat])
      else first_ep ds protocol iface
  end.

Definition hub_interface (d : bytes) : bool := is_interface d && bool_decide (d !!! 5%nat = 9).

(** The key queue's contents, oldest first. *)
Definition queued (s : UsbHid) : list (Z * bool) :=
  map (fun i => KBD_QUEUE s !!! ((KBD_Q_HEAD s + i) `mod` KBD_Q_CAP)%nat)
    (seq 0 ((KBD_Q_TAIL s + KBD_Q_CAP - KBD_Q_HEAD s) `mod` KBD_Q_CAP)).

Definition hid_wf (s : UsbHid) : Prop :=
  length (KBD_QUEUE s) = KBD_Q_CAP /\ (KBD_Q_HEAD s < KBD_Q_CAP)%nat /\
  (KBD_Q_TAIL s < KBD_Q_CAP)%nat /\ length (PREV_KBD_REPORT s) = 8%nat.
#[export] Instance hid_wf_dec s : Decision (hid_wf s).
Proof. unfold hid_wf. apply _. Defined.

(** The keys of report [r] that are not in the report [prev] before it, with
    the shift state of [r]. *)
Definition new_keys (prev r : bytes) : list (Z * bool) :=
  map (fun k => (k, bool_decide (Z.land (r !!! 0%nat) 0x22 <> 0)))
    (filter (fun k => k <> 0 /\ k ∉ slice prev 2 8) (slice r 2 8)).

Fixpoint presses (prev : bytes) (reports : list bytes) : list (Z * bool) :=
  match reports with
  | [] => []
  | r :: reports => new_keys prev r ++ presses r reports
  end.

(** What a keyboard behind a driver promises: polling takes the oldest
    pending report of eight bytes, or stalls and takes none. *)
Class HidKeyboard {W} (d : HidDriver W) := {
  reports : W -> list bytes;
  reports_len w : Forall (fun r => length r = 8%nat) (reports w);
  kbd_ready w : hd_keyboard_ready d w = true;
  kbd_poll w :
    match hd_poll_keyboard_report d w with
    | (w', None) => reports w' = reports w
    | (w', Some r) => reports w = r :: reports w'
    end;
}.

(** Calls of [poll_usb_key_press], and the presses they return. *)
Fixpoint poll_keys {W} `{UsbMachine W} (n : nat) (w : W) (s : UsbHid) : W * rust (UsbHid * list (Z * bool)) :=
  match n with
  | O => (w, Ret (s, []))
  | S n =>
      match poll_usb_key_press w s with
      | (w, Panic) => (w, Panic)
      | (w, Ret (s, e)) =>
          let '(w, r) := poll_keys n w s in
          (w, '(s, es) ← r; Ret (s, option_list e ++ es))
      end
  end.

(** ** The descriptor walk *)

Lemma desc_head (d : bytes) : desc_ok d -> Z.to_nat (d !!! 0%nat) = length d.
Proof. intros [_ E%list_lookup_total_correct]. rewrite E. lia. Qed.

Lemma desc_type (d : bytes) z : desc_ok d -> d !! 1%nat = Some z <-> d !!! 1%nat = z.
Proof. intros [Hl _]. rewrite (list_lookup_lookup_total_lt d 1) by lia. split; congruence. Qed.

Lemma is_interface_iff d : desc_ok d -> is_interface d = bool_decide (d !!! 1%nat = 4 /\ (9 <= length d)%nat).
Proof. intros Hd. apply bool_decide_ext. by rewrite desc_type. Qed.

Lemma is_endpoint_iff d : desc_ok d -> is_endpoint d = bool_decide (d !!! 1%nat = 5 /\ (7 <= length d)%nat).
Proof. intros Hd. apply bool_decide_ext. by rewrite desc_type. Qed.

(** The head of a walk's round: the descriptor's length and type. *)
Lemma walk_length pre d post : desc_ok d ->
  (length pre + 2 <= length (pre ++ d ++ post))%nat /\
  rd (pre ++ d ++ post) (length pre) = Ret (d !!! 0%nat) /\
  ~ (Z.to_nat (d !!! 0%nat) < 2 \/
     length (pre ++ d ++ post) < length pre + Z.to_nat (d !!! 0%nat))%nat /\
  rd (pre ++ d ++ post) (length pre + 1) = Ret (d !!! 1%nat).
Proof.
  intros Hd. pose proof Hd as [Hl _]. rewrite desc_head by done. split_and!; [len| |len|].
  - rewrite <-(rd_in pre d post 0) by lia. f_equal. lia.
  - apply rd_in. lia.
Qed.

(** One descriptor of the walk. *)
Lemma walk_eps fuel pre d post protocol iface : desc_ok d ->
  find_eps_loop (S fuel) (pre ++ d ++ post) protocol iface (length pre) =
    if is_interface d then
      find_eps_loop fuel (pre ++ d ++ post) protocol
        (if decide (boot_interface protocol d) then d !!! 2%nat else 0xFF) (length pre + length d)
    else if is_endpoint d && bool_decide (iface <> 0xFF /\ interrupt_in_ep d) then
      Ret (Some (iface, d !!! 2%nat, of_le [d !!! 4%nat; d !!! 5%nat]))
    else find_eps_loop fuel (pre ++ d ++ post) protocol iface (length pre + length d).
Proof.
  intros Hd. destruct (walk_length pre d post Hd) as (H1 & H2 & H3 & H4).
  rewrite is_interface_iff, is_endpoint_iff by done. cbn [find_eps_loop].
  rewrite decide_True, H2, bind_ret by done. cbv zeta. rewrite decide_False, H4, bind_ret, desc_head by done.
  destruct (decide (d !!! 1%nat = 4)) as [E4|E4].
  - destruct (decide (9 <= length d)%nat) as [H9|H9].
    + rewrite !rd_in, !bind_ret by lia. rewrite bool_decide_true by done. f_equal.
      unfold boot_interface. repeat case_decide; tauto || done.
    + by rewrite (bool_decide_false (_ = 4 /\ _)), (bool_decide_false (_ = 5 /\ _)) by lia.
  - rewrite bool_decide_false by (by intros []). destruct (decide (d !!! 1%nat = 5)) as [E5|E5].
    + destruct (decide (7 <= length d)%nat) as [H7|H7].
      * rewrite (bool_decide_true (_ /\ _)) by done. cbn [andb]. unfold interrupt_in_ep.
        destruct (decide (iface = 0xFF)) as [->|Hi].
        { rewrite decide_False, bool_decide_false by (by intros []; tauto). done. }
        rewrite decide_True by done. rewrite !rd_in, !bind_ret by lia.
        case_decide; [rewrite bool_decide_true|rewrite bool_decide_false]; tauto || done.
      * rewrite decide_False, bool_decide_false by lia. done.
    + rewrite bool_decide_false by (by intros []). done.
Qed.

Lemma walk_hub fuel pre d post : desc_ok d ->
  has_hub_loop (S fuel) (pre ++ d ++ post) (length pre) =
    if hub_interface d then Ret true
    else has_hub_loop fuel (pre ++ d ++ post) (length pre + length d).
Proof.
  intros Hd. destruct (walk_length pre d post Hd) as (H1 & H2 & H3 & H4).
  unfold hub_interface. rewrite is_interface_iff by done. cbn [has_hub_loop].
  rewrite decide_True, H2, bind_ret by done. cbv zeta. rewrite decide_False, H4, bind_ret, desc_head by done.
  case_bool_decide as Hi; [|by rewrite decide_False].
  rewrite decide_True, rd_in, bind_ret by (done || lia). cbn [andb]. by repeat case_decide; case_bool_decide.
Qed.

Lemma walk_stop pre rest : stops rest ->
  (length pre + 2 <= length (pre ++ rest))%nat ->
  exists b, rd (pre ++ rest) (length pre) = Ret b /\
    (Z.to_nat b < 2 \/ length (pre ++ rest) < length pre + Z.to_nat b)%nat.
Proof.
  intros [Hs|(b & Eb & Hs)] Hl; rewrite length_app in *; [lia|]. exists b. split; [|lia].
  apply rd_lookup. by rewrite lookup_app_r, Nat.sub_diag by lia.
Qed.

Lemma find_eps_stop fuel pre rest p iface : stops rest ->
  find_eps_loop (S fuel) (pre ++ rest) p iface (length pre) = Ret None.
Proof.
  intros Hs. cbn [find_eps_loop]. case_decide as Hl; [|done].
  destruct (walk_stop pre rest Hs Hl) as (b & -> & Hb). by rewrite bind_ret, decide_True.
Qed.

Lemma has_hub_stop fuel pre rest : stops rest ->
  has_hub_loop (S fuel) (pre ++ rest) (length pre) = Ret false.
Proof.
  intros Hs. cbn [has_hub_loop]. case_decide as Hl; [|done].
  destruct (walk_stop pre rest Hs Hl) as (b & -> & Hb). by rewrite bind_ret, decide_True.
Qed.

Lemma find_eps_descs ds rest pre fuel p iface :
  Forall desc_ok ds -> stops rest -> (length ds < fuel)%nat ->
  find_eps_loop fuel (pre ++ concat ds ++ rest) p iface (length pre) = Ret (first_ep ds p iface).
Proof.
  intros Hds Hs. revert pre fuel iface. induction Hds as [|d ds Hd _ IH]; intros pre [|fuel] iface Hf;
    cbn [length] in Hf; try lia; [by apply find_eps_stop|].
  cbn [concat first_ep]. rewrite <-app_assoc, walk_eps by done.
  assert (forall iface, find_eps_loop fuel (pre ++ d ++ concat ds ++ rest) p iface (length pre + length d)
    = Ret (first_ep ds p iface)) as Hnext.
  { intros i. rewrite <-length_app, app_assoc. apply IH. lia. }
  rewrite !Hnext. by repeat case_match.
Qed.

Lemma head_omap_cons {A B} (f : A -> option B) x l :
  head (omap f (x :: l)) = match f x with Some y => Some y | None => head (omap f l) end.
Proof. cbn. by destruct (f x). Qed.

Lemma input_of_cons iface d ds :
  input_of iface (d :: ds) =
    if decide (input_endpoint d) then Some (iface, d !!! 2%nat, of_le [d !!! 4%nat; d !!! 5%nat])
    else input_of iface ds.
Proof. unfold input_of. rewrite filter_cons. by case_decide. Qed.

Lemma filter_none {A} (P : A -> Prop) `{!forall x, Decision (P x)} l :
  Forall (fun x => ~ P x) l -> filter P l = [].
Proof. induction 1 as [|x l Hx _ IH]; [done|]. by rewrite filter_cons, decide_False. Qed.

Lemma andb_bool_decide_l b P `{Decision P} : b && bool_decide P = bool_decide (b = true /\ P).
Proof. destruct b; cbn; [apply bool_decide_ext; tauto|]. symmetry. apply bool_decide_eq_false. by intros []. Qed.

(** Endpoints before the first interface are looked at as those of interface
    [iface]; behind it the walk follows the interfaces. *)
Lemma first_ep_interfaces ds p iface :
  first_ep ds p iface =
    match (if decide (iface = 0xFF) then None else input_of iface (before_interface ds)) with
    | Some e => Some e
    | None => boot_endpoint p ds
    end.
Proof.
  revert iface. induction ds as [|d ds IH]; intros iface; cbn [first_ep before_interface].
  { by case_decide. }
  unfold boot_endpoint in *. cbn [interfaces]. destruct (is_interface d) eqn:Hd.
  - rewrite head_omap_cons. cbn [fst snd]. rewrite IH.
    assert (input_of iface [] = None) as -> by done.
    destruct (decide (boot_interface p d)) as [Hb|Hb].
    + destruct (decide (d !!! 2%nat = 0xFF)) as [Hn|Hn].
      * rewrite (decide_False (P := _ /\ _)) by tauto. by case_decide.
      * rewrite (decide_True (P := _ /\ _)) by tauto. by case_decide.
    + rewrite (decide_False (P := _ /\ _)) by tauto. by repeat case_decide.
  - rewrite input_of_cons, andb_bool_decide_l. case_bool_decide as Hb; [|rewrite IH].
    + rewrite (decide_False (P := iface = _)), decide_True by (unfold input_endpoint; tauto). done.
    + case_decide as Hi; [done|]. rewrite decide_False by (unfold input_endpoint; tauto). done.
Qed.

Lemma has_hub_descs ds rest pre fuel :
  Forall desc_ok ds -> stops rest -> (length ds < fuel)%nat ->
  has_hub_loop fuel (pre ++ concat ds ++ rest) (length pre) = Ret (existsb hub_interface ds).
Proof.
  intros Hds Hs. revert pre fuel. induction Hds as [|d ds Hd _ IH]; intros pre [|fuel] Hf;
    cbn [length] in Hf; try lia; [by apply has_hub_stop|].
  cbn [concat existsb]. rewrite <-app_assoc, walk_hub by done.
  assert (has_hub_loop fuel (pre ++ d ++ concat ds ++ rest) (length pre + length d)
    = Ret (existsb hub_interface ds)) as ->.
  { rewrite <-length_app, app_assoc. apply IH. lia. }
  by destruct (hub_interface d).
Qed.

(** Any bytes are descriptors followed by something that is none. *)
Lemma descs_of (cfg : bytes) : is_bytes cfg ->
  exists ds rest, cfg = concat ds ++ rest /\ Forall desc_ok ds /\ stops rest.
Proof.
  assert (exists n, length cfg < n)%nat as [n Hn] by (exists (S (length cfg)); lia).
  revert cfg Hn. induction n as [|n IH]; intros cfg Hn Hc; [lia|].
  destruct (decide (length cfg < 2)%nat) as [Hl|Hl]; [exists [], cfg; split_and!; [done|done|by left]|].
  destruct cfg as [|b cfg']; [cbn in Hl; lia|]. set (cfg := b :: cfg') in *.
  destruct (decide (Z.to_nat b < 2 \/ length cfg < Z.to_nat b)%nat) as [Hb|Hb].
  { exists [], cfg. split_and!; [done|done|]. right. by exists b. }
  apply Forall_cons in Hc as Hc'. destruct Hc' as [Hb0 _]. unfold is_byte in Hb0.
  assert (length (take (Z.to_nat b) cfg) = Z.to_nat b) as Ht by (rewrite length_take; lia).
  destruct (IH (drop (Z.to_nat b) cfg)) as (ds & rest & E & Hds & Hr);
    [rewrite length_drop; lia|by apply Forall_drop|].
  exists (take (Z.to_nat b) cfg :: ds), rest. split_and!; [|constructor; [|done]|done].
  - cbn [concat]. by rewrite <-app_assoc, <-E, take_drop.
  - split; [lia|]. rewrite Ht, lookup_take_lt by lia. cbn. f_equal. lia.
Qed.

Lemma length_descs ds : Forall desc_ok ds -> (length ds <= length (concat ds))%nat.
Proof. induction 1 as [|d ds [Hd _] _ IH]; cbn; [lia|]. rewrite length_app. lia. Qed.

(** ** The key queue *)

(** Every state of the ring, with the eight entries in variables. *)
Ltac each_ring Hq Hh Ht :=
  cbn in Hq, Hh, Ht; unfold KBD_Q_CAP in Hq, Hh, Ht;
  match type of Hq with length ?q = _ => do 8 (destruct q as [|? q]; [done|]); destruct q; [|done] end;
  match type of Hh with (?h < _)%nat => repeat (destruct h as [|h]; [|try lia]) end;
  match type of Ht with (?t < _)%nat => repeat (destruct t as [|t]; [|try lia]) end.

Ltac ring_state := split; [unfold hid_wf, KBD_Q_CAP; cbn; split_and!; done || lia|]; split_and!; reflexivity.

Lemma queued_push k sh s : hid_wf s -> exists s', kbd_q_push k sh s = Ret s' /\ hid_wf s' /\
  PREV_KBD_REPORT s' = PREV_KBD_REPORT s /\ ACTIVE s' = ACTIVE s /\ BACKEND s' = BACKEND s /\
  queued s' = if decide (length (queued s) < 7)%nat then queued s ++ [(k, sh)] else queued s.
Proof.
  destruct s as [de ac ba pr q h t]. intros (Hq & Hh & Ht & Hp).
  each_ring Hq Hh Ht; (eexists; split; [reflexivity|]; ring_state).
Qed.

Lemma queued_pop s : hid_wf s -> exists s', kbd_q_pop s = Ret (s', head (queued s)) /\ hid_wf s' /\
  PREV_KBD_REPORT s' = PREV_KBD_REPORT s /\ ACTIVE s' = ACTIVE s /\ BACKEND s' = BACKEND s /\
  queued s' = tail (queued s).
Proof.
  destruct s as [de ac ba pr q h t]. intros (Hq & Hh & Ht & Hp).
  each_ring Hq Hh Ht; (eexists; split; [reflexivity|]; ring_state).
Qed.

Lemma push_new_queued keys old sh s : hid_wf s -> (length (queued s) + length keys <= 7)%nat ->
  exists s', push_new keys old sh s = Ret s' /\ hid_wf s' /\
    PREV_KBD_REPORT s' = PREV_KBD_REPORT s /\ ACTIVE s' = ACTIVE s /\ BACKEND s' = BACKEND s /\
    queued s' = queued s ++ map (fun k => (k, sh)) (filter (fun k => k <> 0 /\ k ∉ old) keys).
Proof.
  revert s. induction keys as [|k keys IH]; intros s Hs Hl; cbn [length push_new] in *.
  { exists s. rewrite app_nil_r. by split_and!. }
  rewrite filter_cons. destruct (decide (k = 0)) as [->|Hk].
  { rewrite (decide_False (P := _ /\ _)) by (by intros []). apply IH; [done|lia]. }
  destruct (decide (k ∈ old)) as [Ho|Ho].
  { rewrite (decide_False (P := _ /\ _)) by (by intros []). apply IH; [done|lia]. }
  destruct (queued_push k sh s Hs) as (s1 & -> & Hs1 & Hp & Ha & Hb & Hq).
  rewrite decide_True in Hq by lia. rewrite (decide_True (P := _ /\ _)) by done.
  destruct (IH s1) as (s2 & E & Hs2 & Hp2 & Ha2 & Hb2 & Hq2); [done|rewrite Hq, length_app; cbn [length]; lia|].
  exists s2. rewrite bind_ret. split_and!; try congruence. rewrite Hq2, Hq, <-app_assoc. done.
Qed.

(** ** Polling a keyboard *)

Section keyboard.
Context {W : Type} `{UsbMachine W}.
Implicit Types (w : W) (s : UsbHid).

Section driven.
Context (d : HidDriver W) `{HidKeyboard W d}.

(** The presses still to be delivered: queued ones, then those of the reports. *)
Definition outstanding w s : list (Z * bool) := queued s ++ presses (PREV_KBD_REPORT s) (reports w).

(** One call: what it returns, and what it leaves. *)
Lemma poll_press_step w s : hid_wf s -> active_driver s = d ->
  exists w' s' e, poll_usb_key_press w s = (w', Ret (s', e)) /\ hid_wf s' /\ active_driver s' = d /\
    outstanding w s = option_list e ++ outstanding w' s' /\
    (length (reports w') <= length (reports w))%nat /\
    (e = None -> queued s' = [] /\
      ((hd_poll_keyboard_report d w).2 <> None -> (length (reports w') < length (reports w))%nat)).
Proof.
  intros Hs Hd. unfold poll_usb_key_press, usb_keyboard_active, poll_keyboard_report_any.
  rewrite Hd, kbd_ready. assert (forall s', ACTIVE s' = ACTIVE s -> BACKEND s' = BACKEND s -> active_driver s' = d) as Hdrv.
  { intros s' E1 E2. rewrite <-Hd. unfold active_driver. by rewrite E1, E2. }
  destruct (queued_pop s Hs) as (s1 & -> & Hs1 & Hp & Ha & Hb & Hq).
  destruct (queued s) as [|v q] eqn:Eq; cbn [head tail] in *.
  2: { exists w, s1, (Some v). split_and!; [done|done|by apply Hdrv| |lia|done].
       unfold outstanding. by rewrite Eq, Hq, Hp. }
  rewrite (Hdrv s1) by done. pose proof (kbd_poll w) as Hpoll. destruct (hd_poll_keyboard_report d w) as [w1 [rep|]].
  2: { exists w1, s1, None. split_and!; [done|done|by apply Hdrv| |by rewrite Hpoll|].
       - unfold outstanding. by rewrite Hpoll, Eq, Hq, Hp.
       - intros _. by split. }
  pose proof (reports_len w) as Hlen. rewrite Hpoll in Hlen. apply Forall_cons in Hlen as [Hlen _].
  destruct Hs1 as (? & ? & ? & Hprev) eqn:E0; clear E0.
  rewrite rd_ok, bind_ret, !sub_ok, !bind_ret by lia.
  destruct (push_new_queued (slice rep 2 8) (slice (PREV_KBD_REPORT s1) 2 8)
    (bool_decide (Z.land (rep !!! 0%nat) 0x22 <> 0)) s1 Hs1) as (s2 & -> & Hs2 & Hp2 & Ha2 & Hb2 & Hq2);
    [rewrite Hq, length_slice; cbn; lia|].
  assert (hid_wf (s2 <| PREV_KBD_REPORT := rep |>)) as Hs2' by (destruct Hs2 as (?&?&?&?); by split_and!).
  destruct (queued_pop _ Hs2') as (s3 & E3 & Hs3 & Hp3 & Ha3 & Hb3 & Hq3).
  change (queued (s2 <| PREV_KBD_REPORT := rep |>)) with (queued s2) in *.
  rewrite bind_ret, E3. exists w1, s3, (head (queued s2)).
  rewrite Hq in Hq2. cbn [app] in Hq2.
  split_and!; [done|done|by apply Hdrv; rewrite ?Ha3, ?Hb3; cbn; congruence| | |].
  - unfold outstanding. rewrite Eq, Hpoll, Hq3, Hp3. cbn [presses app over PREV_KBD_REPORT].
    unfold new_keys. rewrite <-Hp, <-Hq2, app_assoc. f_equal. by destruct (queued s2).
  - rewrite Hpoll. cbn. lia.
  - intros E. rewrite Hq3, Hpoll. split; [by destruct (queued s2)|]. cbn. lia.
Qed.

Lemma poll_keys_step n w s : hid_wf s -> active_driver s = d ->
  exists w' s' es, poll_keys n w s = (w', Ret (s', es)) /\ hid_wf s' /\
    outstanding w s = es ++ outstanding w' s' /\
    ((forall w, reports w <> [] -> (hd_poll_keyboard_report d w).2 <> None) ->
     (length (outstanding w s) + length (reports w) < n)%nat -> outstanding w' s' = []).
Proof.
  revert w s. induction n as [|n IH]; intros w s Hs Hd; [exists w, s, []; split_and!; [done|done|done|lia]|].
  destruct (poll_press_step w s Hs Hd) as (w1 & s1 & e & E & Hs1 & Hd1 & Ho & Hr & He).
  destruct (IH w1 s1 Hs1 Hd1) as (w2 & s2 & es & E2 & Hs2 & Ho2 & Hall).
  exists w2, s2, (option_list e ++ es). cbn [poll_keys]. rewrite E, E2. split_and!; [done|done|..].
  - by rewrite Ho, Ho2, app_assoc.
  - intros Hlive Hn. rewrite Ho, length_app in Hn. destruct e as [v|]; cbn [option_list option_rect length] in Hn.
    + apply Hall; [done|lia].
    + destruct (He eq_refl) as [Hq Hless].
      destruct (decide (reports w = [])) as [Hw|Hw].
      * assert (reports w1 = []) as Hw1 by (destruct (reports w1); [done|rewrite Hw in Hr; cbn in Hr; lia]).
        unfold outstanding in Ho2. rewrite Hq, Hw1 in Ho2. cbn in Ho2. by destruct es.
      * apply Hall; [done|]. specialize (Hless (Hlive w Hw)). lia.
Qed.
End driven.
End keyboard.

(** ** Keyboards of a list of reports, for the witnesses *)

Definition list_keyboard : HidDriver (list bytes) := {|
  hd_init := fun _ w => (w, true);
  hd_poll_mouse_slot := fun _ w => (w, None);
  hd_usb_mouse_count := fun _ => 0%nat;
  hd_mouse_ready := fun _ => false;
  hd_keyboard_ready := fun _ => true;
  hd_kbd_suppresses_ps2 := fun _ => true;
  hd_poll_keyboard_report := fun w =>
    match w with [] => ([], None) | r :: w => (w, Some (resize 8 0 r)) end |}.

#[export] Instance list_machine : UsbMachine (list bytes) := {|
  scan_usb_host_prog_if := fun w => (w, Some 0); find_usb_uhci_io := fun w => (w, true);
  find_ehci := fun w => (w, false); find_xhci := fun w => (w, false);
  uhci := list_keyboard; ohci := no_driver; xhci_native := no_driver |}.

#[export, refine] Instance list_hid_keyboard : HidKeyboard list_keyboard := {|
  reports := map (resize 8 0) |}.
Proof.
  - intros w. apply Forall_fmap, Forall_forall. intros r _. apply length_resize.
  - done.
  - by intros [|r w].
Defined.

(** ** Properties *)

(** C7: Every key of every USB report that was not down in the report before is
    delivered exactly once, in order and with the report's shift state: what
    the polls returned and what is still queued or unread is what was there
    before, the queue never drops a key, and a keyboard that does not stall is
    read to the end. *)
Theorem usb_key_presses_delivered {W} `{UsbMachine W} (d : HidDriver W) `{HidKeyboard W d} n w s :
  hid_wf s -> active_driver s = d ->
  exists w' s' es, poll_keys n w s = (w', Ret (s', es)) /\ hid_wf s' /\
    queued s ++ presses (PREV_KBD_REPORT s) (reports w) =
      es ++ queued s' ++ presses (PREV_KBD_REPORT s') (reports w') /\
    ((forall w, reports w <> [] -> (hd_poll_keyboard_report d w).2 <> None) ->
     (length (queued s ++ presses (PREV_KBD_REPORT s) (reports w)) + length (reports w) < n)%nat ->
     es = queued s ++ presses (PREV_KBD_REPORT s) (reports w)).
Proof.
  intros Hs Hd. destruct (poll_keys_step d n w s Hs Hd) as (w' & s' & es & E & Hs' & Ho & Hall).
  exists w', s', es. unfold outstanding in *. split_and!; [done|done|done|].
  intros Hlive Hn. specialize (Hall Hlive Hn). by rewrite Ho, Hall, app_nil_r.
Qed.

Lemma usb_key_presses_delivered_witness :
  exists w' s', poll_keys 9 [[0; 0; 4]; [2; 0; 4; 5; 6]; []; [0; 0; 4]] (init 0 [] UsbHid_new).2 =
    (w', Ret (s', [(4, false); (5, true); (6, true); (4, false)])).
Proof.
  destruct (usb_key_presses_delivered list_keyboard 9 [[0; 0; 4]; [2; 0; 4; 5; 6]; []; [0; 0; 4]]
    (init 0 [] UsbHid_new).2) as (w' & s' & es & E & _ & _ & Hall).
  - by_decide.
  - reflexivity.
  - exists w', s'. rewrite E, Hall; [reflexivity| |].
    + by intros [|r w].
    + apply (bool_decide_unpack _). vm_compute. exact I.
Defined.

(** C26: The walk over a configuration descriptor returns on any bytes.  It
    reads the descriptors the bytes begin with and stops before the first thing
    that is none.  If no interrupt-in endpoint comes before the first
    interface, it finds the first interrupt-in endpoint of the first boot
    interface of the protocol that has one; it sees a hub interface exactly
    when there is one. *)
Theorem descriptor_walk_correct cfg protocol : is_bytes cfg ->
  exists ds rest r, cfg = concat ds ++ rest /\ Forall desc_ok ds /\ stops rest /\
    find_hid_boot_eps cfg protocol = Ret r /\
    (Forall (fun d => ~ input_endpoint d) (before_interface ds) -> r = boot_endpoint protocol ds) /\
    config_has_hub_interface cfg = Ret (existsb hub_interface ds).
Proof.
  intros (ds & rest & -> & Hds & Hs)%descs_of. exists ds, rest. eexists. split_and!; [done..| | |].
  - apply (find_eps_descs ds rest []); [done|done|]. rewrite length_app.
    pose proof (length_descs ds Hds). lia.
  - intros Hb. rewrite first_ep_interfaces. unfold input_of.
    by rewrite (filter_none _ _ Hb).
  - apply (has_hub_descs ds rest []); [done|done|]. rewrite length_app.
    pose proof (length_descs ds Hds). lia.
Qed.

(** The configuration of a boot mouse on interface 0. *)
Definition mouse_config : bytes :=
  [9; 2; 34; 0; 1; 1; 0; 160; 50;  9; 4; 0; 0; 1; 3; 1; 2; 0;
   9; 33; 17; 1; 0; 1; 34; 52; 0;  7; 5; 129; 3; 4; 0; 10].

Lemma descriptor_walk_correct_witness :
  exists ds rest r, mouse_config = concat ds ++ rest /\ Forall desc_ok ds /\
    find_hid_boot_eps mouse_config 2 = Ret r /\ r = Some (0, 129, 4) /\
    (Forall (fun d => ~ input_endpoint d) (before_interface ds) -> r = boot_endpoint 2 ds).
Proof.
  destruct (descriptor_walk_correct mouse_config 2) as (ds & rest & r & E & Hds & _ & Hf & Hr & _).
  - by_decide.
  - exists ds, rest, r. split_and!; [exact E|exact Hds|exact Hf| |exact Hr].
    assert (Ret r = Ret (Some (0, 129, 4))) as [=] by (rewrite <-Hf; vm_compute; reflexivity). done.
Defined.

(** A keyboard interface without an endpoint, then the mouse. *)
Definition two_interfaces : list bytes :=
  [[9; 2; 0; 0; 2; 1; 0; 160; 50]; [9; 4; 0; 0; 0; 3; 1; 1; 0]; [9; 33; 17; 1; 0; 1; 34; 52; 0];
   [9; 4; 1; 0; 1; 3; 1; 2; 0]; [7; 5; 130; 3; 4; 0; 10]].

Example boot_endpoint_of_mouse :
  boot_endpoint 2 two_interfaces = Some (1, 130, 4) /\ boot_endpoint 1 two_interfaces = None.
Proof. split; vm_compute; reflexivity. Qed.

(** The walk starts in interface 0: an endpoint that comes before any
    interface is taken for a boot keyboard's (and for a boot mouse's). *)
Example endpoint_before_interface :
  find_hid_boot_eps [7; 5; 129; 3; 4; 0; 10] 1 = Ret (Some (0, 129, 4)).
Proof. reflexivity. Qed.
