(* ===== verification/Pci.v ===== *)
(** * PCI configuration space ([kernel/src/pci.rs])

    Configuration registers are read and written through the port pair
    0xCF8/0xCFC; the scans probe buses 0 to 7.  [PciBus] is what the host
    bridge promises; the theorems say that byte and word accesses touch exactly
    their part of a register, and that every scan returns exactly the first
    function (or all the functions, in order) whose registers match. *)

From S2P Require Import Prelude Ports.

Definition CONFIG_ADDRESS : Z := 0xCF8.
Definition CONFIG_DATA : Z := 0xCFC.

(** Bus, slot and function. *)
Definition PciFn : Type := Z * Z * Z.

Definition cfg_addr (f : PciFn) (offset : Z) : Z :=
  let '(bus, slot, func) := f in
  Z.lor (Z.lor (Z.lor (Z.lor 0x80000000 (Z.shiftl bus 16)) (Z.shiftl slot 11)) (Z.shiftl func 8))
    (Z.land offset 0xFC).

(** The functions a scan probes, in its order, and function 0 of each slot. *)
Definition slots : list (Z * Z) := flat_map (fun bus => map (pair bus) (seqZ 0 32)) (seqZ 0 8).
Definition functions : list PciFn := flat_map (fun bs => map (pair bs) (seqZ 0 8)) slots.
Definition functions0 : list PciFn := map (fun bs => (bs, 0)) slots.

Section config.
Context {W : Type} `{Ports W}.

Definition read_u32 (f : PciFn) (offset : Z) (w : W) : W * Z :=
  in32 CONFIG_DATA (out32 CONFIG_ADDRESS (cfg_addr f offset) w).

Definition write_u32 (f : PciFn) (offset v : Z) (w : W) : W :=
  out32 CONFIG_DATA v (out32 CONFIG_ADDRESS (cfg_addr f offset) w).

Definition read_u16 (f : PciFn) (offset : Z) (w : W) : W * Z :=
  let '(w, v) := read_u32 f offset w in
  (w, if decide (Z.land offset 3 = 0) then Z.land v 0xFFFF else Z.shiftr v 16).

Definition read_u8 (f : PciFn) (offset : Z) (w : W) : W * Z :=
  let '(w, v) := read_u32 f (Z.land offset 0xFC) w in
  (w, Z.land (Z.shiftr v (8 * Z.land offset 3)) 0xFF).

Definition write_u16 (f : PciFn) (offset v : Z) (w : W) : W :=
  let base := Z.land offset 0xFC in
  let '(w, r) := read_u32 f base w in
  let r :=
    if decide (Z.land offset 3 = 0) then Z.lor (Z.land r 0xFFFF0000) v
    else Z.lor (Z.land r 0xFFFF) (Z.shiftl v 16) in
  write_u32 f base r w.

(** [vid_did == 0xFFFF_FFFF || (vid_did & 0xFFFF) == 0xFFFF] *)
Definition absent (vid_did : Z) : bool :=
  bool_decide (vid_did = 0xFFFFFFFF \/ Z.land vid_did 0xFFFF = 0xFFFF).

Definition class_subclass (bs : Z * Z) (w : W) : W * option (Z * Z) :=
  let f := (bs, 0) in
  let '(w, vid_did) := read_u32 f 0 w in
  if absent vid_did then (w, None)
  else
    let '(w, sub) := read_u8 f 0x0A w in
    let '(w, base) := read_u8 f 0x0B w in
    (w, Some (base, sub)).

Definition class_subclass_prog_fn (f : PciFn) (w : W) : W * option (Z * Z * Z) :=
  let '(w, vid_did) := read_u32 f 0 w in
  if absent vid_did then (w, None)
  else
    let '(w, sub) := read_u8 f 0x0A w in
    let '(w, base) := read_u8 f 0x0B w in
    let '(w, pi) := read_u8 f 0x09 w in
    (w, Some (base, sub, pi)).

(** The nested loops over the functions: the first probe that returns, and
    all probes that return. *)
Fixpoint first_of {F A} (probe : F -> W -> W * option A) (l : list F) (w : W) : W * option A :=
  match l with
  | [] => (w, None)
  | f :: l =>
      let '(w, r) := probe f w in
      match r with Some a => (w, Some a) | None => first_of probe l w end
  end.

Fixpoint all_of {F A} (probe : F -> W -> W * option A) (l : list F) (w : W) : W * list A :=
  match l with
  | [] => (w, [])
  | f :: l =>
      let '(w, r) := probe f w in
      let '(w, rs) := all_of probe l w in
      (w, option_list r ++ rs)
  end.

Record PciFnId := { id_fn : PciFn; vendor_id : Z; device_id : Z }.

Definition probe_class (class subclass : Z) (f : PciFn) (w : W) : W * option PciFnId :=
  let '(w, c) := class_subclass_prog_fn f w in
  match c with
  | Some (b, s, _) =>
      if decide (b <> class \/ s <> subclass) then (w, None)
      else
        let '(w, vid_did) := read_u32 f 0 w in
        (w, Some {| id_fn := f; vendor_id := Z.land vid_did 0xFFFF; device_id := Z.shiftr vid_did 16 |})
  | None => (w, None)
  end.

(** Fills a buffer of [cap] entries; the result is the filled part. *)
Definition enumerate_pci_class (class subclass : Z) (cap : nat) (w : W) : W * list PciFnId :=
  let '(w, l) := all_of (probe_class class subclass) functions w in
  (w, take cap l).

Definition scan_ethernet_count (w : W) : W * Z :=
  let '(w, l) := all_of (fun bs w =>
    let '(w, c) := class_subclass bs w in
    (w, if decide (c = Some (0x02, 0x00)) then Some tt else None)) slots w in
  (w, Z.min (Z.of_nat (length l)) 255).

Definition scan_mm_audio_present (w : W) : W * bool :=
  let '(w, r) := first_of (fun bs w =>
    let '(w, c) := class_subclass bs w in
    (w, match c with
        | Some (b, sub) =>
            if decide (b = 0x04 /\ (sub = 0x01 \/ sub = 0x02 \/ sub = 0x03)) then Some tt else None
        | None => None
        end)) slots w in
  (w, bool_decide (is_Some r)).

Definition scan_usb_host_prog_if (w : W) : W * option Z :=
  first_of (fun f w =>
    let '(w, c) := class_subclass_prog_fn f w in
    (w, match c with
        | Some (b, s, pi) => if decide (b = 0x0C /\ s = 0x03) then Some pi else None
        | None => None
        end)) functions w.

Definition find_usb_host_mmio_bar0 (pi : Z) (w : W) : W * option (PciFn * Z) :=
  first_of (fun f w =>
    let '(w, c) := class_subclass_prog_fn f w in
    match c with
    | Some (b, s, p) =>
        if decide (b = 0x0C /\ s = 0x03) then
          if decide (p <> pi) then (w, None)
          else
            let '(w, bar0) := read_u32 f 0x10 w in
            if decide (Z.land bar0 1 <> 0) then (w, None)
            else
              let base := Z.land bar0 0xFFFFFFF0 in
              if decide (base = 0) then (w, None) else (w, Some (f, base))
        else (w, None)
    | None => (w, None)
    end) functions w.

Definition find_usb_uhci_io (w : W) : W * option (PciFn * Z) :=
  first_of (fun f w =>
    let '(w, c) := class_subclass_prog_fn f w in
    if decide (c = Some (0x0C, 0x03, 0x00)) then
      let '(w, bar0) := read_u32 f 0x10 w in
      if decide (Z.land bar0 1 <> 0) then
        let io := Z.land bar0 0xFFFC in
        if decide (io <> 0) then (w, Some (f, io)) else (w, None)
      else (w, None)
    else (w, None)) functions w.

(** Memory (or I/O) space and bus mastering. *)
Definition pci_enable_mmio_bm (f : PciFn) (w : W) : W :=
  let '(w, cmd) := read_u16 f 0x04 w in write_u16 f 0x04 (Z.lor cmd 0x0006) w.
Definition pci_enable_io_bm (f : PciFn) (w : W) : W :=
  let '(w, cmd) := read_u16 f 0x04 w in write_u16 f 0x04 (Z.lor cmd 0x0005) w.

Definition probe_device (vendor device : Z) (f : PciFn) (w : W) : W * option PciFn :=
  let '(w, vid_did) := read_u32 f 0 w in
  if absent vid_did then (w, None)
  else if decide (Z.land vid_did 0xFFFF = vendor /\ Z.shiftr vid_did 16 = device) then (w, Some f)
  else (w, None).

Definition find_device (vendor device : Z) (w : W) : W * option PciFn :=
  first_of (probe_device vendor device) functions0 w.

Definition find_device_any_fn (vendor device : Z) (cap : nat) (w : W) : W * list PciFn :=
  let '(w, l) := all_of (probe_device vendor device) functions w in (w, take cap l).
End config.

Definition pci_mmio_kernel_addr (physical_memory_offset : option Z) (bar_phys : Z) : Z :=
  match physical_memory_offset with
  | Some off => wrap64 (bar_phys + off)
  | None => bar_phys
  end.

(** ** What the host bridge promises *)

(** [cfg w a] is the register behind configuration address [a].  Reading has
    no effect on any register, writing one has none on the others. *)
Class PciBus (W : Type) `{Ports W} := {
  cfg : W -> Z -> Z;
  cfg_range w a : 0 <= cfg w a < 2 ^ 32;
  cfg_read w a : (in32 CONFIG_DATA (out32 CONFIG_ADDRESS a w)).2 = cfg w a;
  cfg_read_keeps w a a' : cfg (in32 CONFIG_DATA (out32 CONFIG_ADDRESS a w)).1 a' = cfg w a';
  cfg_write_others w a v a' : a' <> a ->
    cfg (out32 CONFIG_DATA v (out32 CONFIG_ADDRESS a w)) a' = cfg w a';
}.

(** ** What the scans look for, as functions of the registers *)

Section spec.
Context (c : Z -> Z).

Definition reg (f : PciFn) (offset : Z) : Z := c (cfg_addr f offset).

(** Byte [offset] of a function's configuration space. *)
Definition cfg_byte (f : PciFn) (offset : Z) : Z :=
  reg f (Z.land offset 0xFC) / 2 ^ (8 * (offset mod 4)) mod 256.

Definition fn_class (f : PciFn) : option (Z * Z * Z) :=
  if absent (reg f 0) then None else Some (cfg_byte f 0x0B, cfg_byte f 0x0A, cfg_byte f 0x09).

(** Function 0 of a slot is of the class and of one of the subclasses. *)
Definition slot_class (class : Z) (subclasses : list Z) (slot : Z * Z) : bool :=
  match fn_class (slot, 0) with
  | Some (b, s, _) => bool_decide (b = class /\ s ∈ subclasses)
  | None => false
  end.
Definition slot_of (class : Z) (subclasses : list Z) (slot : Z * Z) : option unit :=
  if slot_class class subclasses slot then Some tt else None.

Definition fn_ids (f : PciFn) : Z * Z := (reg f 0 mod 2 ^ 16, reg f 0 / 2 ^ 16).

Definition usb_host (f : PciFn) : option Z :=
  match fn_class f with
  | Some (b, s, pi) => if decide (b = 0x0C /\ s = 0x03) then Some pi else None
  | None => None
  end.

Definition uhci_io (f : PciFn) : option (PciFn * Z) :=
  if decide (fn_class f = Some (0x0C, 0x03, 0x00) /\ Z.odd (reg f 0x10) = true /\
             Z.land (reg f 0x10) 0xFFFC <> 0)
  then Some (f, Z.land (reg f 0x10) 0xFFFC) else None.

Definition usb_mmio (pi : Z) (f : PciFn) : option (PciFn * Z) :=
  if decide (usb_host f = Some pi /\ Z.odd (reg f 0x10) = false /\ Z.land (reg f 0x10) 0xFFFFFFF0 <> 0)
  then Some (f, Z.land (reg f 0x10) 0xFFFFFFF0) else None.

Definition of_class (class subclass : Z) (f : PciFn) : option PciFnId :=
  match fn_class f with
  | Some (b, s, _) => if decide (b = class /\ s = subclass)
      then Some {| id_fn := f; vendor_id := (fn_ids f).1; device_id := (fn_ids f).2 |} else None
  | None => None
  end.

Definition is_device (vendor device : Z) (f : PciFn) : option PciFn :=
  if decide (absent (reg f 0) = false /\ fn_ids f = (vendor, device)) then Some f else None.
End spec.

(** They depend on the registers only. *)
Abbreviation reg_proper g := (Proper (pointwise_relation Z eq ==> eq ==> eq) g) (only parsing).

#[export] Instance fn_class_proper : reg_proper fn_class.
Proof. intros c c' E f ? <-. unfold fn_class, cfg_byte, reg. by rewrite !(E _). Qed.
#[export] Instance slot_of_proper b l : reg_proper (fun c => slot_of c b l).
Proof.
  intros c c' E f ? <-. unfold slot_of, slot_class.
  by rewrite (fn_class_proper c c' E (f, 0) (f, 0) eq_refl).
Qed.
#[export] Instance fn_ids_proper : reg_proper fn_ids.
Proof. intros c c' E f ? <-. unfold fn_ids, reg. by rewrite !(E _). Qed.
#[export] Instance usb_host_proper : reg_proper usb_host.
Proof. intros c c' E f ? <-. unfold usb_host. by rewrite (fn_class_proper c c' E f f eq_refl). Qed.
#[export] Instance uhci_io_proper : reg_proper uhci_io.
Proof. intros c c' E f ? <-. unfold uhci_io, reg. by rewrite (fn_class_proper c c' E f f eq_refl), !(E _). Qed.
#[export] Instance usb_mmio_proper pi : reg_proper (fun c => usb_mmio c pi).
Proof. intros c c' E f ? <-. unfold usb_mmio, reg. by rewrite (usb_host_proper c c' E f f eq_refl), !(E _). Qed.
#[export] Instance of_class_proper b s : reg_proper (fun c => of_class c b s).
Proof.
  intros c c' E f ? <-. unfold of_class.
  by rewrite (fn_class_proper c c' E f f eq_refl), (fn_ids_proper c c' E f f eq_refl).
Qed.
#[export] Instance is_device_proper v d : reg_proper (fun c => is_device c v d).
Proof. intros c c' E f ? <-. unfold is_device, reg. by rewrite (fn_ids_proper c c' E f f eq_refl), !(E _). Qed.

(** ** Accesses *)

Section bus.
Context {W : Type} `{PciBus W}.
Implicit Types (w : W) (f : PciFn).

Definition same_cfg (w w' : W) : Prop := forall a, cfg w' a = cfg w a.

Lemma same_cfg_trans w w' w'' : same_cfg w w' -> same_cfg w' w'' -> same_cfg w w''.
Proof. intros H1 H2 a. by rewrite H2, H1. Qed.

(** [reads m w v]: [m] returns [v] and changes no register. *)
Definition reads {A} (m : W -> W * A) (w : W) (v : A) : Prop := exists w', m w = (w', v) /\ same_cfg w w'.

Lemma reads_u32 f off w : reads (read_u32 f off) w (reg (cfg w) f off).
Proof.
  unfold read_u32, reads. pose proof (cfg_read w (cfg_addr f off)) as Hr.
  pose proof (cfg_read_keeps w (cfg_addr f off)) as Hk.
  destruct (in32 _ _) as [w' v]; cbn in *. subst v. by exists w'.
Qed.

Lemma reads_u8 f off w : 0 <= off < 256 -> reads (read_u8 f off) w (cfg_byte (cfg w) f off).
Proof.
  intros Ho. unfold read_u8, reads. destruct (reads_u32 f (Z.land off 0xFC) w) as (w' & -> & Hs).
  exists w'. split; [|done]. f_equal. unfold cfg_byte.
  change 0xFF with (Z.ones 8). change 3 with (Z.ones 2). rewrite !Z.land_ones by lia.
  change (2 ^ 2) with 4. rewrite Z.shiftr_div_pow2; [done|]. pose proof (Z.mod_pos_bound off 4). lia.
Qed.

Lemma reads_class f w : reads (class_subclass_prog_fn f) w (fn_class (cfg w) f).
Proof.
  unfold class_subclass_prog_fn, fn_class, reads. destruct (reads_u32 f 0 w) as (w1 & -> & H1).
  destruct (absent _); [by exists w1|].
  destruct (reads_u8 f 0x0A w1) as (w2 & -> & H2); [lia|].
  destruct (reads_u8 f 0x0B w2) as (w3 & -> & H3); [lia|].
  destruct (reads_u8 f 0x09 w3) as (w4 & -> & H4); [lia|].
  exists w4. unfold cfg_byte, reg. split; [|by repeat (eapply same_cfg_trans; [eassumption|])].
  by rewrite !H3, !H2, !H1.
Qed.
(** A scan sees the registers as they were when it began. *)
Section scans.
Context {F A : Type} (probe : F -> W -> W * option A) (g : (Z -> Z) -> F -> option A).
Context {Hg : Proper (pointwise_relation Z eq ==> eq ==> eq) g}.
Context (Hprobe : forall x w, reads (probe x) w (g (cfg w) x)).

Lemma omap_cfg (l : list F) w w' : same_cfg w w' -> omap (g (cfg w')) l = omap (g (cfg w)) l.
Proof.
  intros Hs. induction l as [|x l IH]; [done|]. cbn [omap list_omap].
  rewrite (Hg (cfg w') (cfg w) Hs x x eq_refl : g (cfg w') x = g (cfg w) x). by rewrite IH.
Qed.

Lemma reads_first (l : list F) w : reads (first_of probe l) w (head (omap (g (cfg w)) l)).
Proof.
  revert w. induction l as [|x l IH]; intros w; [by exists w|]. unfold reads. cbn [first_of].
  destruct (Hprobe x w) as (w1 & -> & H1). cbn [omap list_omap]. destruct (g (cfg w) x); [by exists w1|].
  destruct (IH w1) as (w2 & -> & H2). exists w2. split; [|by eapply same_cfg_trans].
  by rewrite (omap_cfg l w w1).
Qed.

Lemma reads_all (l : list F) w : reads (all_of probe l) w (omap (g (cfg w)) l).
Proof.
  revert w. induction l as [|x l IH]; intros w; [by exists w|]. unfold reads. cbn [all_of].
  destruct (Hprobe x w) as (w1 & -> & H1). destruct (IH w1) as (w2 & -> & H2). exists w2.
  split; [|by eapply same_cfg_trans]. rewrite (omap_cfg l w w1) by done. cbn [omap list_omap].
  by destruct (g (cfg w) x).
Qed.
End scans.

(** ** The probes *)

Lemma reads_class_subclass bs w : reads (class_subclass bs) w (fst <$> fn_class (cfg w) (bs, 0)).
Proof.
  unfold class_subclass, fn_class, reads. destruct (reads_u32 (bs, 0) 0 w) as (w1 & -> & H1).
  destruct (absent _); [by exists w1|].
  destruct (reads_u8 (bs, 0) 0x0A w1) as (w2 & -> & H2); [lia|].
  destruct (reads_u8 (bs, 0) 0x0B w2) as (w3 & -> & H3); [lia|].
  exists w3. unfold cfg_byte, reg. split; [|by repeat (eapply same_cfg_trans; [eassumption|])].
  cbn. by rewrite !H2, !H1.
Qed.

(** A probe of function 0 that looks at the class only. *)
Lemma reads_slot class subs (P : option (Z * Z) -> option unit) :
  (forall c, P c = match c with
    | Some (b, s) => if decide (b = class /\ s ∈ subs) then Some tt else None | None => None end) ->
  forall bs w, reads (fun w => let '(w, c) := class_subclass bs w in (w, P c)) w
    (slot_of (cfg w) class subs bs).
Proof.
  intros HP bs w. unfold reads. destruct (reads_class_subclass bs w) as (w1 & -> & H1). exists w1.
  split; [|done]. rewrite HP. unfold slot_of, slot_class.
  destruct (fn_class (cfg w) (bs, 0)) as [[[b s] pi]|]; cbn; [|done]. rewrite bool_decide_decide. by case_decide.
Qed.

Lemma slots_of_filter (c : Z -> Z) class subs (l : list (Z * Z)) :
  length (omap (slot_of c class subs) l) = length (List.filter (slot_class c class subs) l) /\
  bool_decide (is_Some (head (omap (slot_of c class subs) l))) = existsb (slot_class c class subs) l.
Proof.
  induction l as [|x l [IH1 IH2]]; [done|]. cbn [omap list_omap List.filter existsb].
  replace (slot_of c class subs x) with (if slot_class c class subs x then Some tt else None) by done.
  destruct (slot_class c class subs x); cbn; [|done]. by rewrite IH1.
Qed.

Lemma reads_device v d f w : reads (probe_device v d f) w (is_device (cfg w) v d f).
Proof.
  unfold probe_device, is_device, reads. destruct (reads_u32 f 0 w) as (w1 & -> & H1). exists w1.
  destruct (absent (reg (cfg w) f 0)); [by rewrite decide_False by (by intros [])|].
  unfold fn_ids. change 0xFFFF with (Z.ones 16). rewrite Z.land_ones, Z.shiftr_div_pow2 by lia.
  split; [|done]. case_decide as Ha; case_decide as Hb; try done; exfalso.
  - destruct Ha. apply Hb. split; congruence.
  - destruct Hb as [_ [= <- <-]]. by apply Ha.
Qed.

Lemma reads_of_class b s f w : reads (probe_class b s f) w (of_class (cfg w) b s f).
Proof.
  unfold probe_class, of_class, reads. destruct (reads_class f w) as (w1 & -> & H1).
  destruct (fn_class (cfg w) f) as [[[b' s'] pi]|]; [|by exists w1].
  destruct (reads_u32 f 0 w1) as (w2 & -> & H2). unfold fn_ids, reg. rewrite H1.
  change 0xFFFF with (Z.ones 16). rewrite Z.land_ones, Z.shiftr_div_pow2 by lia.
  destruct (decide (b' = b /\ s' = s)) as [[-> ->]|Hn].
  - rewrite decide_False by tauto. exists w2. split; [done|]. by eapply same_cfg_trans.
  - rewrite decide_True by (destruct (decide (b' = b)); [right|left]; tauto). by exists w1.
Qed.

(** The low bit of a base address register: I/O or memory. *)
Lemma bar_io z : Z.land z 1 <> 0 <-> Z.odd z = true.
Proof.
  change 1 with (Z.ones 1). rewrite Z.land_ones by lia. change (2 ^ 1) with 2. rewrite Zmod_odd.
  destruct (Z.odd z); lia.
Qed.

Lemma reads_usb_host f w : reads (fun w =>
    let '(w, c) := class_subclass_prog_fn f w in
    (w, match c with
        | Some (b, s, pi) => if decide (b = 0x0C /\ s = 0x03) then Some pi else None
        | None => None
        end)) w (usb_host (cfg w) f).
Proof.
  unfold reads, usb_host. destruct (reads_class f w) as (w1 & -> & H1). by exists w1.
Qed.

Lemma reads_uhci f w : reads (fun w =>
    let '(w, c) := class_subclass_prog_fn f w in
    if decide (c = Some (0x0C, 0x03, 0x00)) then
      let '(w, bar0) := read_u32 f 0x10 w in
      if decide (Z.land bar0 1 <> 0) then
        let io := Z.land bar0 0xFFFC in
        if decide (io <> 0) then (w, Some (f, io)) else (w, None)
      else (w, None)
    else (w, None)) w (uhci_io (cfg w) f).
Proof.
  unfold reads, uhci_io. destruct (reads_class f w) as (w1 & -> & H1).
  destruct (decide (fn_class (cfg w) f = Some (0x0C, 0x03, 0x00))) as [Hc|Hc];
    [|exists w1; by rewrite decide_False by (by intros [])].
  destruct (reads_u32 f 0x10 w1) as (w2 & -> & H2). unfold reg in *. rewrite !H1 in *.
  exists w2. split; [|by eapply same_cfg_trans]. pose proof (bar_io (cfg w (cfg_addr f 0x10))) as Hb.
  destruct (decide (Z.land (cfg w (cfg_addr f 0x10)) 1 <> 0)) as [Hi|Hi].
  - destruct (decide (Z.land (cfg w (cfg_addr f 0x10)) 0xFFFC <> 0)) as [Hn|Hn].
    + rewrite (decide_True (P := _ /\ _)) by tauto. done.
    + rewrite (decide_False (P := _ /\ _)) by tauto. done.
  - rewrite (decide_False (P := _ /\ _)) by tauto. done.
Qed.

Lemma reads_usb_mmio pi f w : reads (fun w =>
    let '(w, c) := class_subclass_prog_fn f w in
    match c with
    | Some (b, s, p) =>
        if decide (b = 0x0C /\ s = 0x03) then
          if decide (p <> pi) then (w, None)
          else
            let '(w, bar0) := read_u32 f 0x10 w in
            if decide (Z.land bar0 1 <> 0) then (w, None)
            else
              let base := Z.land bar0 0xFFFFFFF0 in
              if decide (base = 0) then (w, None) else (w, Some (f, base))
        else (w, None)
    | None => (w, None)
    end) w (usb_mmio (cfg w) pi f).
Proof.
  unfold reads, usb_mmio, usb_host. destruct (reads_class f w) as (w1 & -> & H1).
  destruct (fn_class (cfg w) f) as [[[b s] p]|]; [|exists w1; by rewrite decide_False by (by intros [])].
  destruct (decide (b = 0x0C /\ s = 0x03)) as [Hc|Hc]; [|exists w1; by rewrite decide_False by (by intros [])].
  destruct (decide (p <> pi)) as [Hp|Hp]; [exists w1; by rewrite decide_False by (intros [? _]; congruence)|].
  destruct (reads_u32 f 0x10 w1) as (w2 & -> & H2). unfold reg in *. rewrite !H1 in *.
  exists w2. split; [|by eapply same_cfg_trans]. pose proof (bar_io (cfg w (cfg_addr f 0x10))) as Hb.
  assert (Some p = Some pi) as Hp' by (f_equal; lia).
  destruct (decide (Z.land (cfg w (cfg_addr f 0x10)) 1 <> 0)) as [Hi|Hi].
  - rewrite (decide_False (P := _ /\ _)); [done|]. intros (_ & Ho & _). apply Hb in Hi. congruence.
  - assert (Z.odd (cfg w (cfg_addr f 0x10)) = false) as Ho by (destruct (Z.odd _); tauto).
    destruct (decide (Z.land (cfg w (cfg_addr f 0x10)) 0xFFFFFFF0 = 0)) as [Hn|Hn].
    + rewrite (decide_False (P := _ /\ _)) by tauto. done.
    + rewrite (decide_True (P := _ /\ _)) by tauto. done.
Qed.

(** The two conditions of the class scans, as membership. *)
Definition ethernet_probe (c : option (Z * Z)) : option unit :=
  if decide (c = Some (0x02, 0x00)) then Some tt else None.
Definition audio_probe (c : option (Z * Z)) : option unit :=
  match c with
  | Some (b, sub) =>
      if decide (b = 0x04 /\ (sub = 0x01 \/ sub = 0x02 \/ sub = 0x03)) then Some tt else None
  | None => None
  end.

Lemma ethernet_probe_in c : ethernet_probe c =
  match c with Some (b, s) => if decide (b = 2 /\ s ∈ [0]) then Some tt else None | None => None end.
Proof.
  destruct c as [[b s]|]; [|done]. unfold ethernet_probe.
  pose proof (list_elem_of_singleton s 0). repeat case_decide; try done; exfalso; naive_solver.
Qed.

Lemma audio_probe_in c : audio_probe c =
  match c with Some (b, s) => if decide (b = 4 /\ s ∈ [1; 2; 3]) then Some tt else None | None => None end.
Proof.
  destruct c as [[b s]|]; [|done]. unfold audio_probe.
  assert (s ∈ [1; 2; 3] <-> s = 1 \/ s = 2 \/ s = 3) by (rewrite !elem_of_cons, elem_of_nil; tauto).
  repeat case_decide; try done; exfalso; tauto.
Qed.

Lemma reads_ethernet_count w : reads scan_ethernet_count w
  (Z.min (Z.of_nat (length (List.filter (slot_class (cfg w) 0x02 [0x00]) slots))) 255).
Proof.
  unfold reads, scan_ethernet_count.
  destruct (reads_all _ (fun c => slot_of c 0x02 [0x00])
    (reads_slot 0x02 [0x00] ethernet_probe ethernet_probe_in) slots w) as (w1 & E & H1).
  unfold ethernet_probe in E. rewrite E. exists w1. split; [|done].
  by rewrite (proj1 (slots_of_filter _ _ _ _)).
Qed.

Lemma reads_mm_audio w : reads scan_mm_audio_present w
  (existsb (slot_class (cfg w) 0x04 [0x01; 0x02; 0x03]) slots).
Proof.
  unfold reads, scan_mm_audio_present.
  destruct (reads_first _ (fun c => slot_of c 0x04 [0x01; 0x02; 0x03])
    (reads_slot 0x04 [0x01; 0x02; 0x03] audio_probe audio_probe_in) slots w) as (w1 & E & H1).
  unfold audio_probe in E. rewrite E. exists w1. split; [|done].
  by rewrite (proj2 (slots_of_filter _ _ _ _)).
Qed.
End bus.

(** ** A bus in memory *)

(** The latched address and the registers; a missing register reads as ones. *)
Record PciMem := { pm_latch : Z; pm_regs : list (Z * Z) }.

Definition pm_cfg (w : PciMem) (a : Z) : Z :=
  match list_find (fun r => r.1 = a) w.(pm_regs) with
  | Some (_, (_, v)) => wrap32 v
  | None => 0xFFFFFFFF
  end.

#[export] Instance PciMem_ports : Ports PciMem := {|
  inb := fun _ w => (w, 0); outb := fun _ _ w => w; inw := fun _ w => (w, 0); outw := fun _ _ w => w;
  in32 := fun p w => (w, if decide (p = CONFIG_DATA) then pm_cfg w w.(pm_latch) else 0);
  out32 := fun p v w =>
    if decide (p = CONFIG_ADDRESS) then {| pm_latch := v; pm_regs := w.(pm_regs) |}
    else {| pm_latch := w.(pm_latch); pm_regs := (w.(pm_latch), v) :: w.(pm_regs) |} |}.

#[export, refine] Instance PciMem_bus : PciBus PciMem := {| cfg := pm_cfg |}.
Proof.
  - intros w a. unfold pm_cfg. destruct (list_find _ _) as [[? [? v]]|]; [|lia].
    apply Z.mod_pos_bound. lia.
  - done.
  - done.
  - intros w a v a' Hne. change (pm_cfg {| pm_latch := a; pm_regs := (a, v) :: pm_regs w |} a' = pm_cfg w a').
    unfold pm_cfg. cbn. rewrite decide_False by done. by destruct (list_find _ _) as [[? []]|].
Defined.

(** ** Properties *)

(** C40: Every PCI scan returns what the configuration registers of buses 0 to
    7 say.  Looking at all eight functions of a slot: the first one, in bus
    order, that is a UHCI controller with an I/O base address, a USB controller
    with the given interface and a memory base address in the first BAR (of
    either width: its low half), any USB controller; and all devices with given
    ids or of a given class, in order, as many as the buffer holds.  Looking at
    function 0 only: the first device with given ids, the number of Ethernet
    controllers (at most 255), whether there is an audio device. *)
Theorem pci_scans_exact {W} `{PciBus W} w :
  (find_usb_uhci_io w).2 = head (omap (uhci_io (cfg w)) functions) /\
  (forall pi, (find_usb_host_mmio_bar0 pi w).2 = head (omap (usb_mmio (cfg w) pi) functions)) /\
  (scan_usb_host_prog_if w).2 = head (omap (usb_host (cfg w)) functions) /\
  (forall v d, (find_device v d w).2 = head (omap (is_device (cfg w) v d) functions0)) /\
  (forall v d cap, (find_device_any_fn v d cap w).2 = take cap (omap (is_device (cfg w) v d) functions)) /\
  (forall b s cap, (enumerate_pci_class b s cap w).2 = take cap (omap (of_class (cfg w) b s) functions)) /\
  (scan_ethernet_count w).2 =
    Z.min (Z.of_nat (length (List.filter (slot_class (cfg w) 0x02 [0x00]) slots))) 255 /\
  (scan_mm_audio_present w).2 = existsb (slot_class (cfg w) 0x04 [0x01; 0x02; 0x03]) slots.
Proof.
  assert (forall A (m : W -> W * A) v, reads m w v -> (m w).2 = v) as Hv by (by intros A m v (w' & -> & _)).
  split_and!.
  - exact (Hv _ _ _ (reads_first _ _ reads_uhci functions w)).
  - intros pi. exact (Hv _ _ _ (reads_first _ _ (reads_usb_mmio pi) functions w)).
  - exact (Hv _ _ _ (reads_first _ _ reads_usb_host functions w)).
  - intros v d. exact (Hv _ _ _ (reads_first _ _ (reads_device v d) functions0 w)).
  - intros v d cap. unfold find_device_any_fn.
    destruct (reads_all _ _ (reads_device v d) functions w) as (w' & -> & _). done.
  - intros b s cap. unfold enumerate_pci_class.
    destruct (reads_all _ _ (reads_of_class b s) functions w) as (w' & -> & _). done.
  - exact (Hv _ _ _ (reads_ethernet_count w)).
  - exact (Hv _ _ _ (reads_mm_audio w)).
Qed.

(** A PIIX3 with UHCI on function 2, I/O base 0xC040. *)
Definition piix3 : PciMem := {| pm_latch := 0; pm_regs :=
  [(cfg_addr (0, 1, 0) 0, 0x70008086); (cfg_addr (0, 1, 2) 0, 0x70208086);
   (cfg_addr (0, 1, 2) 8, 0x0C030001); (cfg_addr (0, 1, 2) 0x10, 0xC041)] |}.

Lemma pci_scans_exact_witness :
  (find_usb_uhci_io piix3).2 = head (omap (uhci_io (cfg piix3)) functions) /\
  (find_usb_uhci_io piix3).2 = Some ((0, 1, 2), 0xC040) /\ (scan_ethernet_count piix3).2 = 0.
Proof.
  destruct (pci_scans_exact piix3) as [E _]. split; [exact E|]. split; vm_compute; reflexivity.
Defined.
