(* ===== verification/Uhci.v ===== *)
(** * The UHCI host controller driver ([kernel/src/uhci.rs])

    Control and interrupt transfers over transfer descriptors in shared memory,
    hub enumeration, and the polling of boot mice and of the boot keyboard.
    The controller is the class [UhciMachine]: its I/O registers are ports, and
    [hc_run] is what it does to the shared memory between two of the driver's
    reads.  The driver's code is written in the monad [M] of a state, the error
    of [Result<_, ()>], and [Crash] for an access out of range.  [UhciOk.v] has
    the theorems. *)

From S2P Require Import Prelude Ports Pci Hid.

(** ** Constants *)

Definition MAX_USB_MICE : nat := 12.
Definition USBCMD : Z := 0x00.
Definition USBSTS : Z := 0x02.
Definition USBINTR : Z := 0x04.
Definition FRNUM : Z := 0x06.
Definition FLBASEADD : Z := 0x08.
Definition PORTSC0 : Z := 0x10.
Definition TD_CTRL_ACTIVE : Z := Z.shiftl 1 23.
Definition TD_CTRL_IOC : Z := Z.shiftl 1 24.
Definition TD_CTRL_C_ERR_SHIFT : Z := 27.
Definition PID_SETUP : Z := 0x2D.
Definition PID_IN : Z := 0x69.
Definition PID_OUT : Z := 0xE1.
Definition HUB_PORT_RESET : Z := 4.
Definition HUB_C_PORT_RESET : Z := 20.
Definition BUF_DATA_LEN : nat := 512.
Definition USB_STALL_BEFORE_PS2 : Z := 96.

(** ** Memory shared with the controller *)

Record Td := { link : Z; ctrl : Z; token : Z; buffer : Z }.
Definition td_zero : Td := {| link := 0; ctrl := 0; token := 0; buffer := 0 |}.

(** The statics the controller reads and writes; [LOCAL] is the stack buffer
    of [hub_read_nports].  Of the frame list only entry 0 ever differs from
    the terminator 1. *)
Record Dma := {
  FRAME0 : Z;
  TD_SETUP : Td;
  TD_DATA : Td;
  TD_STAT : Td;
  TD_IRQ : Td;
  BUF_SETUP : bytes;
  BUF_DATA : bytes;
  BUF_IRQ_MOUSE : bytes;
  BUF_IRQ_KBD : bytes;
  BUF_PORT : bytes;
  LOCAL : bytes;
}.
#[export] Instance Dma_eta : Settable Dma := fun m =>
  Build_Dma m.(FRAME0) m.(TD_SETUP) m.(TD_DATA) m.(TD_STAT) m.(TD_IRQ) m.(BUF_SETUP) m.(BUF_DATA)
    m.(BUF_IRQ_MOUSE) m.(BUF_IRQ_KBD) m.(BUF_PORT) m.(LOCAL).

Definition Dma_new : Dma := {|
  FRAME0 := 1; TD_SETUP := td_zero; TD_DATA := td_zero; TD_STAT := td_zero; TD_IRQ := td_zero;
  BUF_SETUP := replicate 8 0; BUF_DATA := replicate BUF_DATA_LEN 0; BUF_IRQ_MOUSE := replicate 8 0;
  BUF_IRQ_KBD := replicate 8 0; BUF_PORT := replicate 4 0; LOCAL := replicate 9 0 |}.

(** The statics by name: their addresses are given by the linker. *)
Inductive Sym :=
  | SFrameList | STdSetup | STdData | STdStat | STdIrq
  | SBufSetup | SBufData | SBufMouse | SBufKbd | SBufPort | SLocal.

(** ** The driver's own state *)

Record MouseSlot := { addr : Z; ep : Z; mps : Z; toggle : bool; present : bool }.
#[export] Instance MouseSlot_eta : Settable MouseSlot := fun m =>
  Build_MouseSlot m.(addr) m.(ep) m.(mps) m.(toggle) m.(present).
Definition no_mouse : MouseSlot := {| addr := 0; ep := 0; mps := 0; toggle := false; present := false |}.

Record Uhci := {
  PHYS_SKEW : Z;
  IOBASE : Z;
  MICE : list MouseSlot;
  MOUSE_COUNT : nat;
  KBD_ADDR : Z;
  KBD_EP : Z;
  KBD_MPS : Z;
  KBD_TOGGLE : bool;
  KBD_READY : bool;
  HID_KBD_XFER_OK : bool;
  HID_MOUSE_XFER_OK : bool;
  KBD_USB_FAILS : Z;
  MOUSE_USB_FAILS : Z;
}.
#[export] Instance Uhci_eta : Settable Uhci := fun d =>
  Build_Uhci d.(PHYS_SKEW) d.(IOBASE) d.(MICE) d.(MOUSE_COUNT) d.(KBD_ADDR) d.(KBD_EP) d.(KBD_MPS)
    d.(KBD_TOGGLE) d.(KBD_READY) d.(HID_KBD_XFER_OK) d.(HID_MOUSE_XFER_OK) d.(KBD_USB_FAILS)
    d.(MOUSE_USB_FAILS).

Definition Uhci_new : Uhci := {|
  PHYS_SKEW := 0; IOBASE := 0; MICE := replicate MAX_USB_MICE no_mouse; MOUSE_COUNT := 0;
  KBD_ADDR := 0; KBD_EP := 0; KBD_MPS := 0; KBD_TOGGLE := false; KBD_READY := false;
  HID_KBD_XFER_OK := false; HID_MOUSE_XFER_OK := false; KBD_USB_FAILS := 0; MOUSE_USB_FAILS := 0 |}.

Class UhciMachine (W : Type) := {
  uhci_ports :: Ports W;
  sym_addr : Sym -> Z;
  hc_run : W -> Dma -> W * Dma;
}.

(** Machine, shared memory, driver, and the next free device address. *)
Record UhciState (W : Type) := { hw : W; dma : Dma; drv : Uhci; next_free : Z }.
Arguments hw {W}.
Arguments dma {W}.
Arguments drv {W}.
Arguments next_free {W}.
#[export] Instance UhciState_eta W : Settable (UhciState W) := fun s =>
  Build_UhciState W s.(hw) s.(dma) s.(drv) s.(next_free).

(** ** The monad *)

Inductive res (A : Type) := Ok (a : A) | Er | Crash.
Arguments Ok {A} a.
Arguments Er {A}.
Arguments Crash {A}.

Section uhci.
Context {W : Type} `{UhciMachine W}.

Definition M (A : Type) : Type := UhciState W -> UhciState W * res A.

#[export] Instance M_ret : MRet M := fun A a s => (s, Ok a).
#[export] Instance M_bind : MBind M := fun A B k m s =>
  match m s with
  | (s, Ok a) => k a s
  | (s, Er) => (s, Er)
  | (s, Crash) => (s, Crash)
  end.

Definition fail {A} : M A := fun s => (s, Er).
Definition get {A} (f : UhciState W -> A) : M A := fun s => (s, Ok (f s)).
Definition modify (f : UhciState W -> UhciState W) : M unit := fun s => (f s, Ok tt).
Definition lift {A} (m : rust A) : M A := fun s =>
  match m with Ret a => (s, Ok a) | Panic => (s, Crash) end.
(** The [Result] of a call as a value: [let _ = ...], [is_err], [unwrap_or]. *)
Definition try_ {A} (m : M A) : M (option A) := fun s =>
  match m s with
  | (s, Ok a) => (s, Ok (Some a))
  | (s, Er) => (s, Ok None)
  | (s, Crash) => (s, Crash)
  end.

Definition set_dma (f : Dma -> Dma) : M unit := modify (fun s => s <| dma ::= f |>).
Definition set_drv (f : Uhci -> Uhci) : M unit := modify (fun s => s <| drv ::= f |>).

(** ** Descriptors *)

Definition virt_to_phys (x : Sym) : M Z := get (fun s => wrap32 (sym_addr x + PHYS_SKEW (drv s))).

Definition td_token (pid a endpoint : Z) (tog : bool) (len : nat) : Z :=
  let t := Z.lor pid (Z.shiftl (Z.land a 0x7F) 8) in
  let t := Z.lor t (Z.shiftl (Z.land endpoint 0x0F) 15) in
  let t := if tog then Z.lor t (Z.shiftl 1 19) else t in
  let explen := if decide (len = 0%nat) then 0x7FF else Z.land (Z.of_nat len - 1) 0x7FF in
  Z.lor t (Z.shiftl explen 21).

Definition td_ctrl_active_ioc : Z :=
  Z.lor (Z.lor TD_CTRL_ACTIVE TD_CTRL_IOC) (Z.shiftl 3 TD_CTRL_C_ERR_SHIFT).
Definition td_ctrl_active : Z := Z.lor TD_CTRL_ACTIVE (Z.shiftl 3 TD_CTRL_C_ERR_SHIFT).
Definition link_to_td_next (phys : Z) : Z := Z.lor (Z.land phys 0xFFFFFFF0) 4.

(** ** Registers *)

Definition uhci_readw (io r : Z) : M Z := fun s =>
  let '(w, v) := inw (wrap16 (io + r)) (hw s) in (s <| hw := w |>, Ok v).
Definition uhci_writew (io r v : Z) : M unit := fun s =>
  (s <| hw := outw (wrap16 (io + r)) v (hw s) |>, Ok tt).

(** The wait of [hc_stop], five thousand reads of the status. *)
Definition wait_halted (io : Z) : M unit := fun s =>
  match for_upto (fun w => let '(w, sts) := inw (wrap16 (io + USBSTS)) w in
    if decide (Z.land sts 0x20 <> 0) then inr w else inl w) 5000 (hw s)
  with inl w | inr w => (s <| hw := w |>, Ok tt) end.

Definition hc_stop (io : Z) : M unit :=
  cmd ← uhci_readw io USBCMD;
  uhci_writew io USBCMD (Z.ldiff cmd 1);; wait_halted io.

Definition hc_start (io : Z) : M unit :=
  cmd ← uhci_readw io USBCMD; uhci_writew io USBCMD (Z.lor cmd 1).

(** ** Transfers *)

(** [wait_td_done] of the descriptor [td]: the controller runs, then [ctrl] is read. *)
Definition td_round (td : Dma -> Td) (st : W * Dma) : (W * Dma) + (W * Dma * res Z) :=
  let '(w, m) := hc_run st.1 st.2 in
  let c := ctrl (td m) in
  if decide (Z.land c TD_CTRL_ACTIVE = 0) then
    inr (w, m, if decide (Z.land c (Z.shiftl 1 22) <> 0) then Er else Ok c)
  else inl (w, m).

Definition wait_td_done (td : Dma -> Td) : M Z := fun s =>
  match for_upto (td_round td) 1200000 (hw s, dma s) with
  | inr (w, m, r) => (s <| hw := w |> <| dma := m |>, r)
  | inl (w, m) => (s <| hw := w |> <| dma := m |>, Er)
  end.

Definition run_chain (io first_td_phys : Z) : M unit :=
  hc_stop io;;
  set_dma (fun m => m <| FRAME0 := link_to_td_next first_td_phys |>);;
  uhci_writew io FRNUM 0;; uhci_writew io USBSTS 0xFFFF;; hc_start io.

Definition wait_chain_last (td : Dma -> Td) (io : Z) : M Z :=
  r ← try_ (wait_td_done td);
  hc_stop io;;
  set_dma (fun m => m <| FRAME0 := 1 |>);;
  hc_start io;;
  match r with Some c => mret c | None => fail end.

(** The length a finished descriptor reports. *)
Definition actual_len (c : Z) : nat := Z.to_nat (Z.land (Z.land c 0x7FF + 1) 0x7FF).

(** [control_transfer] with [data_in]: the buffer and the length of its slice. *)
Definition control_in (io a : Z) (setup : bytes) (buf : Sym) (n : nat) : M nat :=
  set_dma (fun m => m <| BUF_SETUP := setup |>);;
  setup_phys ← virt_to_phys SBufSetup;
  data_phys ← virt_to_phys buf;
  td_data ← virt_to_phys STdData;
  td_stat ← virt_to_phys STdStat;
  set_dma (fun m => m <| TD_SETUP := {| link := link_to_td_next td_data; ctrl := td_ctrl_active;
    token := td_token PID_SETUP a 0 false 8; buffer := setup_phys |} |>);;
  set_dma (fun m => m <| TD_DATA := {| link := link_to_td_next td_stat; ctrl := td_ctrl_active;
    token := td_token PID_IN a 0 true n; buffer := data_phys |} |>);;
  set_dma (fun m => m <| TD_STAT := {| link := 1; ctrl := td_ctrl_active_ioc;
    token := td_token PID_OUT a 0 false 0; buffer := 0 |} |>);;
  first ← virt_to_phys STdSetup;
  run_chain io first;;
  wait_chain_last TD_STAT io;;
  ctrl_d ← get (fun s => ctrl (TD_DATA (dma s)));
  if decide (Z.land ctrl_d TD_CTRL_ACTIVE <> 0 \/ Z.land ctrl_d (Z.shiftl 1 22) <> 0) then fail
  else mret (actual_len ctrl_d `min` n)%nat.

(** [control_transfer] without data. *)
Definition control_out (io a : Z) (setup : bytes) : M nat :=
  set_dma (fun m => m <| BUF_SETUP := setup |>);;
  setup_phys ← virt_to_phys SBufSetup;
  td_stat ← virt_to_phys STdStat;
  set_dma (fun m => m <| TD_SETUP := {| link := link_to_td_next td_stat; ctrl := td_ctrl_active;
    token := td_token PID_SETUP a 0 false 8; buffer := setup_phys |} |>);;
  set_dma (fun m => m <| TD_STAT := {| link := 1; ctrl := td_ctrl_active_ioc;
    token := td_token PID_IN a 0 true 0; buffer := 0 |} |>);;
  first ← virt_to_phys STdSetup;
  run_chain io first;;
  wait_chain_last TD_STAT io;;
  mret 0%nat.

(** [interrupt_in] on a buffer of [blen] bytes; the toggle after it, and the
    outcome.  The toggle flips before the transfer, and back on a stall that
    [wait_chain_last] has let through; when that call fails it stays flipped. *)
Definition interrupt_in (io a e mps : Z) (buf : Sym) (blen : nat) (tog : bool) : M (bool * option nat) :=
  phys ← virt_to_phys buf;
  let len := Nat.max (Nat.min blen (Z.to_nat mps)) 1 in
  set_dma (fun m => m <| TD_IRQ := {| link := 1; ctrl := td_ctrl_active_ioc;
    token := td_token PID_IN a (Z.land e 0x0F) tog len; buffer := phys |} |>);;
  first ← virt_to_phys STdIrq;
  run_chain io first;;
  r ← try_ (wait_chain_last TD_IRQ io);
  match r with
  | None => mret (negb tog, None)
  | Some c =>
      if decide (Z.land c (Z.shiftl 1 22) <> 0) then mret (tog, None)
      else mret (negb tog, Some (actual_len c `min` len)%nat)
  end.

(** ** Root ports and hubs *)

Definition port_connected (io portsc : Z) : M bool :=
  v ← uhci_readw io portsc; mret (bool_decide (Z.land v 1 <> 0)).

Definition port_reset_enable (io portsc : Z) : M unit :=
  sc ← uhci_readw io portsc;
  if decide (Z.land sc 1 = 0) then fail
  else
    uhci_writew io portsc (Z.lor sc 0x0200);;
    sc ← uhci_readw io portsc;
    uhci_writew io portsc (Z.ldiff sc 0x0200);;
    sc ← uhci_readw io portsc;
    if decide (Z.land sc 1 = 0) then fail
    else uhci_writew io portsc (Z.lor sc 0x0004).

Definition hub_get_port_status (io hub port : Z) : M Z :=
  n ← control_in io hub [0xA3; 0; 0; 0; port; 0; 4; 0] SBufPort 4;
  if decide (n < 4)%nat then fail else get (fun s => of_le (BUF_PORT (dma s))).

Definition hub_set_port_feature (io hub port feature : Z) : M unit :=
  control_out io hub [0x23; 0x03; Z.land feature 0xFF; wrap8 (Z.shiftr feature 8); port; 0; 0; 0];; mret tt.
Definition hub_clear_port_feature (io hub port feature : Z) : M unit :=
  control_out io hub [0x23; 0x01; Z.land feature 0xFF; wrap8 (Z.shiftr feature 8); port; 0; 0; 0];; mret tt.

(** One of the 500000 rounds of [hub_wait_port_reset]. *)
Definition port_reset_round (io hub port : Z) (s : UhciState W) :
    UhciState W + UhciState W * res unit :=
  match hub_get_port_status io hub port s with
  | (s, Er) => inr (s, Er)
  | (s, Crash) => inr (s, Crash)
  | (s, Ok st) =>
      let change := Z.shiftr st 16 in
      if decide (Z.land change (Z.shiftl 1 4) <> 0) then
        inr ((_ ← try_ (hub_clear_port_feature io hub port HUB_C_PORT_RESET); mret tt) s)
      else inl s
  end.

Definition hub_wait_port_reset (io hub port : Z) : M unit := fun s =>
  match for_upto (port_reset_round io hub port) 500000 s with
  | inr r => r
  | inl s => (s, Er)
  end.

Definition hub_read_nports (io hub_addr : Z) : M Z :=
  set_dma (fun m => m <| LOCAL := replicate 9 0 |>);;
  n ← control_in io hub_addr [0xA0; 0x06; 0; 0x29; 0; 0; 9; 0] SLocal 9;
  if decide (n < 3)%nat then fail
  else l ← get (fun s => LOCAL (dma s)); lift (rd l 2).

(** ** Devices *)

Definition add_mouse_slot (a e m : Z) : M unit :=
  i ← get (fun s => MOUSE_COUNT (drv s));
  if decide (MAX_USB_MICE <= i)%nat then mret tt
  else
    mice ← get (fun s => MICE (drv s));
    mice ← lift (wr mice i {| addr := a; ep := e; mps := m; toggle := false; present := true |});
    set_drv (fun d => d <| MICE := mice |> <| MOUSE_COUNT := S i |>).

Inductive HidKind := Keyboard | Mouse.

Definition clamp (lo hi z : Z) : Z := Z.min (Z.max z lo) hi.

Definition configure_hid_boot (io a iface ep_addr m : Z) (kind : HidKind) : M unit :=
  b ← get (fun s => BUF_DATA (dma s));
  cfg_val ← lift (rd b 5);
  control_out io a [0x00; 0x09; cfg_val; 0; 0; 0; 0; 0];;
  control_out io a [0x21; 0x0B; 0; 0; iface; 0; 0; 0];;
  match kind with
  | Mouse => add_mouse_slot a ep_addr (clamp 4 64 m)
  | Keyboard =>
      ready ← get (fun s => KBD_READY (drv s));
      if ready : bool then mret tt
      else set_drv (fun d => d <| KBD_ADDR := a |> <| KBD_EP := ep_addr |> <| KBD_MPS := Z.max m 8 |>
             <| KBD_TOGGLE := false |> <| KBD_READY := true |>)
  end.

Definition load_config_tuple (io a : Z) : M (bool * option (HidKind * Z * Z * Z)) :=
  n ← control_in io a [0x80; 0x06; 0; 0x01; 0; 0; 18; 0] SBufData 18;
  if decide (n < 18)%nat then fail
  else
    b ← get (fun s => BUF_DATA (dma s));
    dev_class ← lift (rd b 4);
    n9 ← control_in io a [0x80; 0x06; 0; 0x02; 0; 0; 9; 0] SBufData 9;
    if decide (n9 < 9)%nat then fail
    else
      b ← get (fun s => BUF_DATA (dma s));
      lo ← lift (rd b 2);
      hi ← lift (rd b 3);
      let total := clamp 9 (Z.of_nat BUF_DATA_LEN) (of_le [lo; hi]) in
      got ← control_in io a [0x80; 0x06; 0; 0x02; 0; 0; Z.land total 0xFF; Z.land (Z.shiftr total 8) 0xFF]
              SBufData (Z.to_nat total);
      if decide (got < 9)%nat then fail
      else
        b ← get (fun s => BUF_DATA (dma s));
        cfg ← lift (sub b 0 got);
        hub ← (if decide (dev_class = 9) then mret true else lift (config_has_hub_interface cfg));
        kbd ← lift (find_hid_boot_eps cfg 1);
        match kbd with
        | Some (iface, e, m) => mret (hub, Some (Keyboard, iface, e, m))
        | None =>
            mouse ← lift (find_hid_boot_eps cfg 2);
            match mouse with
            | Some (iface, e, m) => mret (hub, Some (Mouse, iface, e, m))
            | None => mret (hub, None)
            end
        end.

(** The ports of a hub, in order; [enumerate] is the recursive call on a child. *)
Fixpoint hub_ports (enumerate : Z -> M unit) (io hub : Z) (ports : list Z) : M unit :=
  match ports with
  | [] => mret tt
  | port :: ports =>
      st ← try_ (hub_get_port_status io hub port);
      if decide (Z.land (default 0 st) 1 = 0) then hub_ports enumerate io hub ports
      else
        try_ (hub_set_port_feature io hub port HUB_PORT_RESET);;
        r ← try_ (hub_wait_port_reset io hub port);
        match r with
        | None => hub_ports enumerate io hub ports
        | Some _ =>
            child ← get next_free;
            if decide (127 < child) then mret tt
            else
              modify (fun s => s <| next_free := Z.min (child + 1) 255 |>);;
              try_ (enumerate child);;
              hub_ports enumerate io hub ports
        end
  end.

(** [fuel] bounds the depth of hubs behind hubs: addresses grow along a chain
    of hubs, and none is above 127. *)
Fixpoint enumerate_device_at_zero (fuel : nat) (io assign_addr : Z) : M unit :=
  match fuel with
  | O => lift Panic
  | S fuel =>
      if decide (assign_addr = 0 \/ 127 < assign_addr) then fail
      else
        control_out io 0 [0x00; 0x05; assign_addr; 0; 0; 0; 0; 0];;
        '(is_hub, hid) ← load_config_tuple io assign_addr;
        if is_hub : bool then
          b ← get (fun s => BUF_DATA (dma s));
          cfg_val ← lift (rd b 5);
          control_out io assign_addr [0x00; 0x09; cfg_val; 0; 0; 0; 0; 0];;
          nports ← hub_read_nports io assign_addr;
          if decide (nports = 0 \/ 16 < nports) then mret tt
          else hub_ports (enumerate_device_at_zero fuel io) io assign_addr (seqZ 1 nports)
        else
          match hid with
          | Some (kind, iface, e, m) => configure_hid_boot io assign_addr iface e m kind
          | None => mret tt
          end
  end.

(** The loop of [init] over the two root ports. *)
Fixpoint root_ports (io : Z) (ports : list Z) : M unit :=
  match ports with
  | [] => mret tt
  | port_idx :: ports =>
      let portsc := wrap16 (PORTSC0 + wrap16 (port_idx * 2)) in
      c ← port_connected io portsc;
      if c : bool then
        nf ← get next_free;
        if decide (127 < nf) then mret tt
        else
          r ← try_ (port_reset_enable io portsc);
          match r with
          | None => root_ports io ports
          | Some _ =>
              assign ← get next_free;
              modify (fun s => s <| next_free := Z.min (assign + 1) 255 |>);;
              try_ (enumerate_device_at_zero 128 io assign);;
              root_ports io ports
          end
      else root_ports io ports
  end.

Definition on_ports {A} (f : W -> W * A) : M A := fun s =>
  let '(w, a) := f (hw s) in (s <| hw := w |>, Ok a).

(** The statics as [init] resets them: all but [IOBASE]. *)
Definition reset_drv (skew : Z) (d : Uhci) : Uhci := {|
  PHYS_SKEW := skew; IOBASE := IOBASE d; MICE := replicate MAX_USB_MICE no_mouse; MOUSE_COUNT := 0;
  KBD_ADDR := 0; KBD_EP := 0; KBD_MPS := 0; KBD_TOGGLE := false; KBD_READY := false;
  HID_KBD_XFER_OK := false; HID_MOUSE_XFER_OK := false; KBD_USB_FAILS := 0; MOUSE_USB_FAILS := 0 |}.

Definition init (skew : Z) : M bool :=
  set_drv (reset_drv skew);;
  found ← on_ports Pci.find_usb_uhci_io;
  match found with
  | None => mret false
  | Some (f, io) =>
      on_ports (fun w => (pci_enable_io_bm f w, tt));;
      set_drv (fun d => d <| IOBASE := io |>);;
      set_dma (fun m => m <| FRAME0 := 1 |>);;
      uhci_writew io USBCMD (Z.shiftl 1 1);;
      uhci_writew io USBCMD 0;;
      fl_phys ← virt_to_phys SFrameList;
      uhci_writew io USBINTR 0;;
      uhci_writew io FLBASEADD (wrap16 fl_phys);;
      uhci_writew io (FLBASEADD + 2) (wrap16 (Z.shiftr fl_phys 16));;
      uhci_writew io FRNUM 0;;
      uhci_writew io USBSTS 0xFFFF;;
      cmd ← uhci_readw io USBCMD;
      uhci_writew io USBCMD (Z.lor cmd 1);;
      modify (fun s => s <| next_free := 1 |>);;
      root_ports io [0; 1];;
      d ← get drv;
      if decide ((0 < MOUSE_COUNT d)%nat \/ KBD_READY d = true) then mret true
      else
        hc_stop io;;
        set_drv (fun d => d <| IOBASE := 0 |>);;
        mret false
  end.

(** ** Polling *)

(** [x as i8 as i16] *)
Definition as_i8 (z : Z) : Z := signed 8 z.

Definition sat_u16 (z : Z) : Z := Z.min z 0xFFFF.
Definition mouse_failed : M (option (Z * Z * Z)) :=
  set_drv (fun d => d <| MOUSE_USB_FAILS ::= fun n => sat_u16 (n + 1) |>);; mret None.
Definition kbd_failed : M (option bytes) :=
  set_drv (fun d => d <| KBD_USB_FAILS ::= fun n => sat_u16 (n + 1) |>);; mret None.

Definition poll_mouse_slot (idx : nat) : M (option (Z * Z * Z)) :=
  d ← get drv;
  if decide (IOBASE d = 0 \/ (MOUSE_COUNT d <= idx)%nat) then mret None
  else
    slot ← lift (rd (MICE d) idx);
    if present slot then
      set_dma (fun m => m <| BUF_IRQ_MOUSE := replicate 8 0 |>);;
      '(tog, r) ← interrupt_in (IOBASE d) (addr slot) (ep slot) (mps slot) SBufMouse 8 (toggle slot);
      match r with
      | None => mouse_failed
      | Some n =>
          set_drv (fun d => d <| MICE ::= fun l => <[idx := slot <| toggle := tog |>]> l |>);;
          if decide (n < 3)%nat then mouse_failed
          else
            set_drv (fun d => d <| MOUSE_USB_FAILS := 0 |> <| HID_MOUSE_XFER_OK := true |>);;
            buf ← get (fun s => BUF_IRQ_MOUSE (dma s));
            b0 ← lift (rd buf 0);
            b1 ← lift (rd buf 1);
            b2 ← lift (rd buf 2);
            mret (Some (Z.land b0 0x07, as_i8 b1, - as_i8 b2))
      end
    else mret None.

Definition poll_keyboard_report : M (option bytes) :=
  d ← get drv;
  if decide (KBD_READY d = false \/ IOBASE d = 0) then mret None
  else
    set_dma (fun m => m <| BUF_IRQ_KBD := replicate 8 0 |>);;
    '(tog, r) ← interrupt_in (IOBASE d) (KBD_ADDR d) (KBD_EP d) (KBD_MPS d) SBufKbd 8 (KBD_TOGGLE d);
    set_drv (fun d => d <| KBD_TOGGLE := tog |>);;
    match r with
    | None => kbd_failed
    | Some n =>
        if decide (n < 8)%nat then kbd_failed
        else
          set_drv (fun d => d <| KBD_USB_FAILS := 0 |> <| HID_KBD_XFER_OK := true |>);;
          buf ← get (fun s => BUF_IRQ_KBD (dma s));
          mret (Some buf)
    end.

Definition mouse_ready (s : UhciState W) : bool :=
  bool_decide ((0 < MOUSE_COUNT (drv s))%nat /\ HID_MOUSE_XFER_OK (drv s) = true /\
    MOUSE_USB_FAILS (drv s) < USB_STALL_BEFORE_PS2).
Definition usb_mouse_count (s : UhciState W) : nat := MOUSE_COUNT (drv s).
Definition keyboard_ready (s : UhciState W) : bool := KBD_READY (drv s).
Definition hid_kbd_suppresses_ps2 (s : UhciState W) : bool :=
  bool_decide (KBD_READY (drv s) = true /\ HID_KBD_XFER_OK (drv s) = true /\
    KBD_USB_FAILS (drv s) < USB_STALL_BEFORE_PS2).
End uhci.
