(* ===== verification/UhciOk.v ===== *)
(** * What the UHCI driver guarantees

    Over any controller that stays within the transfer buffers ([UhciOk]):
    enumeration returns whatever the devices answer, within its tables, with
    distinct addresses; polling decodes reports; the keyboard falls back to
    PS/2 after a run of failures. *)

From S2P Require Import Prelude Ports Pci Hid Uhci.

Create HintDb quiet.

(** ** Specifications *)

Definition buf_ok (n : nat) (b : bytes) : Prop := length b = n /\ is_bytes b.
#[export] Instance buf_ok_dec n b : Decision (buf_ok n b).
Proof. unfold buf_ok. apply _. Defined.

Definition dma_ok (m : Dma) : Prop :=
  buf_ok BUF_DATA_LEN (BUF_DATA m) /\ buf_ok 8 (BUF_IRQ_MOUSE m) /\ buf_ok 8 (BUF_IRQ_KBD m) /\
  buf_ok 4 (BUF_PORT m) /\ buf_ok 9 (LOCAL m).
#[export] Instance dma_ok_dec m : Decision (dma_ok m).
Proof. unfold dma_ok. apply _. Defined.

(** A controller writes bytes, inside the buffers it was given. *)
Class UhciOk (W : Type) `{UhciMachine W} := {
  hc_run_ok w m : dma_ok m -> dma_ok (hc_run w m).2;
}.

(** The addresses of the devices the driver will poll. *)
Definition used (d : Uhci) : list Z :=
  (if KBD_READY d then [KBD_ADDR d] else []) ++ map addr (take (MOUSE_COUNT d) (MICE d)).

Definition slot_ok (sl : MouseSlot) : Prop := present sl = true /\ 4 <= mps sl <= 64.
Definition address_ok (next a : Z) : Prop := 1 <= a < next /\ a <= 127.

Definition table_ok (next : Z) (d : Uhci) : Prop :=
  length (MICE d) = MAX_USB_MICE /\ (MOUSE_COUNT d <= MAX_USB_MICE)%nat /\
  NoDup (used d) /\ Forall (address_ok next) (used d) /\
  Forall slot_ok (take (MOUSE_COUNT d) (MICE d)) /\ (KBD_READY d = true -> 8 <= KBD_MPS d).

Section proofs.
Context {W : Type} `{UhciMachine W, !UhciOk W}.
Implicit Types (s : UhciState W).

(** ** Weakest preconditions

    [None] in the postcondition is the error of the call; a call with a
    weakest precondition never crashes. *)

Definition wp {A} (m : M A) (Q : option A -> UhciState W -> Prop) s : Prop :=
  match m s with
  | (s', Ok a) => Q (Some a) s'
  | (s', Er) => Q None s'
  | (_, Crash) => False
  end.

Lemma wp_mono {A} (m : M A) (P Q : option A -> UhciState W -> Prop) s :
  wp m P s -> (forall o s', P o s' -> Q o s') -> wp m Q s.
Proof. unfold wp. destruct (m s) as [s' [a| |]]; auto. Qed.

Lemma wp_bind {A B} (m : M A) (k : A -> M B) Q s :
  wp m (fun o s' => match o with Some a => wp (k a) Q s' | None => Q None s' end) s -> wp (m ≫= k) Q s.
Proof. unfold wp, mbind, M_bind. destruct (m s) as [s' [a| |]]; auto. Qed.

Lemma wp_get {A B} (f : UhciState W -> A) (k : A -> M B) Q s : wp (k (f s)) Q s -> wp (get f ≫= k) Q s.
Proof. done. Qed.

Lemma wp_modify {B} f (k : unit -> M B) Q s : wp (k tt) Q (f s) -> wp (modify f ≫= k) Q s.
Proof. done. Qed.

Lemma wp_try {A} (m : M A) Q s : wp m (fun o => Q (Some o)) s -> wp (try_ m) Q s.
Proof. unfold wp, try_. destruct (m s) as [s' [a| |]]; auto. Qed.

(** ** Calls that leave the driver alone *)

Definition frame s s' : Prop :=
  drv s' = drv s /\ next_free s' = next_free s /\ dma_ok (dma s').

(** [m] changes nothing but the machine and the transfer memory, and what it
    returns satisfies [P]. *)
Definition quiet {A} (m : M A) (P : A -> Prop) : Prop :=
  forall s, dma_ok (dma s) -> wp m (fun o s' => frame s s' /\ forall a, o = Some a -> P a) s.

Lemma quiet_bind {A B} (m : M A) (k : A -> M B) P Q :
  quiet m P -> (forall a, P a -> quiet (k a) Q) -> quiet (m ≫= k) Q.
Proof.
  intros Hm Hk s Hs. apply wp_bind. eapply wp_mono; [by apply Hm|].
  intros [a|] s' [(Hd & Hn & Hs') HP]; [|by split_and!].
  eapply wp_mono; [by apply Hk; auto|]. intros o s2 [(Hd2 & Hn2 & Hs2) HQ].
  split; [split_and!; congruence || done|done].
Qed.

Lemma quiet_mono {A} (m : M A) (P Q : A -> Prop) : quiet m P -> (forall a, P a -> Q a) -> quiet m Q.
Proof.
  intros Hm HPQ s Hs. eapply wp_mono; [by apply Hm|]. intros o s' [Hf HP].
  split; [done|]. intros a E. exact (HPQ a (HP a E)).
Qed.

Lemma quiet_ret {A} (a : A) (P : A -> Prop) : P a -> quiet (mret a) P.
Proof. intros HP s Hs. split; [by split_and!|]. by intros ? [= <-]. Qed.

Lemma quiet_fail {A} (P : A -> Prop) : quiet fail P.
Proof. intros s Hs. split; [by split_and!|done]. Qed.

Lemma quiet_get {A} (f : UhciState W -> A) (P : A -> Prop) :
  (forall s, dma_ok (dma s) -> P (f s)) -> quiet (get f) P.
Proof. intros HP s Hs. split; [by split_and!|]. intros ? [= <-]. auto. Qed.

Lemma quiet_lift {A} (m : rust A) a (P : A -> Prop) : m = Ret a -> P a -> quiet (lift m) P.
Proof. intros -> HP s Hs. split; [by split_and!|]. by intros ? [= <-]. Qed.

Lemma quiet_set_dma f : (forall m, dma_ok m -> dma_ok (f m)) -> quiet (set_dma f) (fun _ => True).
Proof. intros Hf s Hs. split; [|done]. split_and!; [done..|]. by apply Hf. Qed.

Lemma quiet_try {A} (m : M A) P : quiet m P -> quiet (try_ m) (fun o => forall a, o = Some a -> P a).
Proof.
  intros Hm s Hs. apply wp_try. eapply wp_mono; [by apply Hm|]. intros o s' [Hf HP].
  split; [done|]. by intros ? [= <-].
Qed.

Lemma quiet_readw io r : quiet (uhci_readw io r) (fun _ => True).
Proof.
  intros s Hs. unfold wp, uhci_readw. destruct (inw _ _) as [w v]. split; [by split_and!|done].
Qed.

Lemma quiet_writew io r v : quiet (uhci_writew io r v) (fun _ => True).
Proof. intros s Hs. split; [by split_and!|done]. Qed.

Lemma quiet_wait_halted io : quiet (wait_halted io) (fun _ => True).
Proof.
  intros s Hs. unfold wp, wait_halted.
  destruct (for_upto _ _ _) as [w|w]; (split; [by split_and!|done]).
Qed.

Lemma quiet_on_ports {A} (f : W -> W * A) : quiet (on_ports f) (fun _ => True).
Proof.
  intros s Hs. unfold wp, on_ports. destruct (f _) as [w a]. split; [by split_and!|done].
Qed.

Lemma quiet_phys x : quiet (virt_to_phys x) (fun _ => True).
Proof. by apply quiet_get. Qed.

#[local] Hint Resolve quiet_fail quiet_readw quiet_writew quiet_wait_halted quiet_on_ports quiet_phys : quiet.

(** An update of a descriptor or of the setup packet. *)
Lemma quiet_td f :
  (forall m, BUF_DATA (f m) = BUF_DATA m /\ BUF_IRQ_MOUSE (f m) = BUF_IRQ_MOUSE m /\
    BUF_IRQ_KBD (f m) = BUF_IRQ_KBD m /\ BUF_PORT (f m) = BUF_PORT m /\ LOCAL (f m) = LOCAL m) ->
  quiet (set_dma f) (fun _ => True).
Proof.
  intros Hf. apply quiet_set_dma. intros m Hm. unfold dma_ok.
  by destruct (Hf m) as (-> & -> & -> & -> & ->).
Qed.

Ltac quiet_step :=
  match goal with
  | |- quiet (mret _) _ => apply quiet_ret
  | |- quiet fail _ => apply quiet_fail
  | |- quiet (set_dma _) _ => apply quiet_td; by intros
  | |- quiet (if decide ?P then _ else _) _ => destruct (decide P)
  | |- quiet (mbind _ _) _ => eapply quiet_bind; [|intros ? ?]
  | |- quiet _ _ => solve [eauto with quiet]
  end.
Ltac quiet := repeat quiet_step.

Lemma quiet_hc_stop io : quiet (hc_stop io) (fun _ => True).
Proof. unfold hc_stop. quiet. Qed.

Lemma quiet_hc_start io : quiet (hc_start io) (fun _ => True).
Proof. unfold hc_start. quiet. Qed.

Lemma td_round_ok td st : dma_ok st.2 ->
  match td_round td st with
  | inl st' => dma_ok st'.2
  | inr r => dma_ok r.1.2 /\ match r.2 with Ok c => Z.land c (Z.shiftl 1 22) = 0 | Er => True | Crash => False end
  end.
Proof.
  intros Hm. unfold td_round. pose proof (hc_run_ok st.1 st.2 Hm) as Hm'.
  destruct (hc_run st.1 st.2) as [w' m']. by repeat case_decide.
Qed.

(** A descriptor that ends without error is not stalled. *)
Lemma quiet_wait_td_done td : quiet (wait_td_done td) (fun c => Z.land c (Z.shiftl 1 22) = 0).
Proof.
  intros s Hs. unfold wp, wait_td_done.
  pose proof (for_upto_post (td_round td) _ _ 1200000 (hw s, dma s) (td_round_ok td) Hs) as Hp.
  destruct (for_upto _ _ _) as [[w m]|[[w m] r]]; [by split; [split_and!|]|].
  destruct Hp as [Hm Hr]. destruct r; [|by split; [split_and!|]|done].
  split; [by split_and!|]. by intros ? [= <-].
Qed.

#[local] Hint Resolve quiet_hc_stop quiet_hc_start quiet_wait_td_done : quiet.

Lemma quiet_run_chain io p : quiet (run_chain io p) (fun _ => True).
Proof. unfold run_chain. quiet. Qed.

Lemma quiet_wait_chain_last td io : quiet (wait_chain_last td io) (fun c => Z.land c (Z.shiftl 1 22) = 0).
Proof.
  unfold wait_chain_last. eapply quiet_bind; [apply quiet_try, quiet_wait_td_done|intros r Hr].
  quiet. destruct r; quiet. by apply Hr.
Qed.

#[local] Hint Resolve quiet_run_chain quiet_wait_chain_last : quiet.

Lemma quiet_control_in io a setup buf n : quiet (control_in io a setup buf n) (fun k => k <= n)%nat.
Proof.
  unfold control_in. quiet; [by apply (quiet_get _ (fun _ => True))|]. lia.
Qed.

Lemma quiet_control_out io a setup : quiet (control_out io a setup) (fun _ => True).
Proof. unfold control_out. quiet. done. Qed.

(** The toggle comes back flipped, whatever the outcome: a stall does not get
    as far as the code that flips it back. *)
Lemma quiet_interrupt_in io a e m buf n tog :
  quiet (interrupt_in io a e m buf n tog)
    (fun r => r.1 = negb tog /\ forall k, r.2 = Some k -> (k <= Nat.max n 1)%nat).
Proof.
  unfold interrupt_in. cbv zeta. do 3 (eapply quiet_bind; [quiet|intros ? _]).
  eapply quiet_bind; [quiet|intros _ _].
  eapply quiet_bind; [apply quiet_try, quiet_wait_chain_last|intros [c|] Hc]; [|by apply quiet_ret].
  rewrite decide_False by (rewrite (Hc c eq_refl); tauto). apply quiet_ret. split; [done|].
  intros k [= <-]. lia.
Qed.

#[local] Hint Resolve quiet_control_in quiet_control_out quiet_interrupt_in : quiet.
(** ** Hubs and descriptors *)

Lemma quiet_hub_get_port_status io hub port : quiet (hub_get_port_status io hub port) (fun _ => True).
Proof. unfold hub_get_port_status. quiet. by apply quiet_get. Qed.

Lemma quiet_hub_set_port_feature io hub port f : quiet (hub_set_port_feature io hub port f) (fun _ => True).
Proof. unfold hub_set_port_feature. quiet. done. Qed.

Lemma quiet_hub_clear_port_feature io hub port f : quiet (hub_clear_port_feature io hub port f) (fun _ => True).
Proof. unfold hub_clear_port_feature. quiet. done. Qed.

#[local] Hint Resolve quiet_hub_get_port_status quiet_hub_set_port_feature
  quiet_hub_clear_port_feature : quiet.

Lemma quiet_hub_wait_port_reset io hub port : quiet (hub_wait_port_reset io hub port) (fun _ => True).
Proof.
  intros s Hs. unfold wp, hub_wait_port_reset.
  pose proof (for_upto_post (port_reset_round io hub port) (frame s)
    (fun r => frame s r.1 /\ r.2 <> Crash) 500000 s) as Hp.
  assert (match for_upto (port_reset_round io hub port) 500000 s with
    inl s' => frame s s' | inr r => frame s r.1 /\ r.2 <> Crash end) as Hq.
  { apply Hp; [|by split_and!]. clear Hp. intros s1 (Hd & Hn & Hs1). unfold port_reset_round.
    assert (quiet (_ ← try_ (hub_clear_port_feature io hub port HUB_C_PORT_RESET); mret tt)
      (fun _ => True)) as Hc.
    { eapply quiet_bind; [apply quiet_try; eauto with quiet|by intros; apply quiet_ret]. }
    pose proof (quiet_hub_get_port_status io hub port s1 Hs1) as Hg. unfold wp in Hg.
    destruct (hub_get_port_status io hub port s1) as [s2 [st| |]]; [|destruct Hg as [(?&?&?) _]|done].
    - destruct Hg as [(Hd2 & Hn2 & Hs2) _]. cbv zeta. case_decide; [|by split_and!; congruence || done].
      specialize (Hc s2 Hs2). unfold wp in Hc.
      match type of Hc with match ?x with _ => _ end => destruct x as [s3 [u| |]] end; [| |done].
      all: destruct Hc as [(?&?&?) _]; split; [split_and!; cbn; congruence || done|done].
    - split; [split_and!; cbn; congruence || done|done]. }
  clear Hp. destruct (for_upto _ _ _) as [s'|[s' r]]; [by split|].
  destruct Hq as [Hf Hr]. by destruct r.
Qed.

Lemma quiet_hub_read_nports io hub : quiet (hub_read_nports io hub) is_byte.
Proof.
  unfold hub_read_nports. eapply quiet_bind.
  { apply quiet_set_dma. intros m (?&?&?&?&?). split_and!; try done. cbn. split; [done|]. by_decide. }
  intros _ _. eapply quiet_bind; [apply quiet_control_in|]. intros n Hn. case_decide; [apply quiet_fail|].
  eapply (quiet_bind _ _ (buf_ok 9)); [apply quiet_get; by intros ? (?&?&?&?&?)|].
  intros l [Hl Hb]. eapply quiet_lift; [apply rd_ok; lia|]. apply Forall_lookup_total_1; [done|lia].
Qed.

#[local] Hint Resolve quiet_hub_wait_port_reset quiet_hub_read_nports : quiet.

Lemma quiet_buf_data : quiet (get (fun s => BUF_DATA (dma s))) (buf_ok BUF_DATA_LEN).
Proof. apply quiet_get. by intros ? (?&?&?&?&?). Qed.

Lemma quiet_rd b i : (i < BUF_DATA_LEN)%nat -> buf_ok BUF_DATA_LEN b -> quiet (lift (rd b i)) is_byte.
Proof.
  intros Hi [Hl Hb]. eapply quiet_lift; [apply rd_ok; lia|]. apply Forall_lookup_total_1; [done|lia].
Qed.

(** The walks over a descriptor return. *)
Lemma walks_return cfg protocol : is_bytes cfg ->
  (exists r, find_hid_boot_eps cfg protocol = Ret r) /\ (exists b, config_has_hub_interface cfg = Ret b).
Proof.
  intros (ds & rest & -> & Hds & Hs)%descs_of. pose proof (length_descs ds Hds). split; eexists.
  - apply (find_eps_descs ds rest []); [done|done|len].
  - apply (has_hub_descs ds rest []); [done|done|len].
Qed.

Lemma quiet_walk cfg protocol : is_bytes cfg -> quiet (lift (find_hid_boot_eps cfg protocol)) (fun _ => True).
Proof. intros [[r E] _]%(walks_return _ protocol). by eapply quiet_lift. Qed.

Lemma quiet_load_config_tuple io a : quiet (load_config_tuple io a) (fun _ => True).
Proof.
  unfold load_config_tuple.
  eapply quiet_bind; [apply quiet_control_in|intros n Hn]. case_decide; [apply quiet_fail|].
  eapply quiet_bind; [apply quiet_buf_data|intros b Hb].
  eapply quiet_bind; [apply quiet_rd; [unfold BUF_DATA_LEN; lia|done]|intros dc Hdc].
  eapply quiet_bind; [apply quiet_control_in|intros n9 Hn9]. case_decide; [apply quiet_fail|].
  eapply quiet_bind; [apply quiet_buf_data|intros b2 Hb2].
  eapply quiet_bind; [apply quiet_rd; [unfold BUF_DATA_LEN; lia|done]|intros lo Hlo].
  eapply quiet_bind; [apply quiet_rd; [unfold BUF_DATA_LEN; lia|done]|intros hi Hhi]. cbv zeta.
  eapply quiet_bind; [apply quiet_control_in|intros got Hgot]. case_decide; [apply quiet_fail|].
  eapply quiet_bind; [apply quiet_buf_data|intros b3 [Hl3 Hb3]].
  assert (got <= length b3)%nat as Hg by (unfold clamp, BUF_DATA_LEN in *; lia).
  eapply (quiet_bind _ _ is_bytes); [eapply quiet_lift; [apply sub_ok; lia|by apply Forall_slice]|].
  intros cfg Hcfg. destruct (walks_return cfg 1 Hcfg) as [_ [h Eh]].
  eapply (quiet_bind _ _ (fun _ => True)).
  { case_decide; [by apply quiet_ret|]. by eapply quiet_lift. }
  intros hub _. eapply quiet_bind; [by apply quiet_walk|intros kbd _].
  destruct kbd as [[[iface e] m]|]; [by apply quiet_ret|].
  eapply quiet_bind; [by apply quiet_walk|intros mouse _].
  destruct mouse as [[[iface e] m]|]; by apply quiet_ret.
Qed.

#[local] Hint Resolve quiet_load_config_tuple quiet_buf_data : quiet.
(** ** The tables *)

Definition enum_ok s : Prop :=
  dma_ok (dma s) /\ 1 <= next_free s <= 255 /\ table_ok (next_free s) (drv s).

(** What a step of enumeration establishes. *)
Definition grows {A} s (_ : option A) s' : Prop := enum_ok s' /\ next_free s <= next_free s'.

Lemma table_grows n n' d : n <= n' -> table_ok n d -> table_ok n' d.
Proof.
  intros Hn (H1 & H2 & H3 & H4 & H5 & H6). split_and!; try done.
  eapply Forall_impl; [exact H4|]. unfold address_ok. lia.
Qed.

Lemma table_add_mouse n d a e m :
  table_ok n d -> address_ok n a -> a ∉ used d -> 4 <= m <= 64 -> (MOUSE_COUNT d < MAX_USB_MICE)%nat ->
  table_ok n (d <| MICE := <[MOUSE_COUNT d := {| addr := a; ep := e; mps := m; toggle := false; present := true |}]> (MICE d) |>
    <| MOUSE_COUNT := S (MOUSE_COUNT d) |>).
Proof.
  intros (H1 & H2 & H3 & H4 & H5 & H6) Ha Hu Hm Hc. unfold table_ok, used in *. cbn in *.
  rewrite take_insert_snoc, map_app, app_assoc by lia. cbn.
  split_and!; [by rewrite length_insert|lia| | | |done].
  - apply NoDup_app. split_and!; [done| |apply NoDup_singleton]. by intros x Hx ->%list_elem_of_singleton.
  - apply Forall_app. by rewrite Forall_singleton.
  - apply Forall_app. by rewrite Forall_singleton.
Qed.

Lemma table_add_keyboard n d a e m :
  table_ok n d -> address_ok n a -> a ∉ used d -> KBD_READY d = false ->
  table_ok n (d <| KBD_ADDR := a |> <| KBD_EP := e |> <| KBD_MPS := Z.max m 8 |>
    <| KBD_TOGGLE := false |> <| KBD_READY := true |>).
Proof.
  intros (H1 & H2 & H3 & H4 & H5 & H6) Ha Hu Hk. unfold table_ok, used in *. rewrite Hk in *. cbn in *.
  split_and!; [done|done|by constructor|by constructor|done|lia].
Qed.

(** A quiet call in front of a step. *)
Lemma grows_quiet {A B} (m : M A) (k : A -> M B) P s :
  enum_ok s -> quiet m P ->
  (forall a s', P a -> enum_ok s' -> drv s' = drv s -> next_free s' = next_free s ->
    wp (k a) (grows s') s') ->
  wp (m ≫= k) (grows s) s.
Proof.
  intros (Hd & Hn & Ht) Hm Hk. apply wp_bind. eapply wp_mono; [by apply Hm|].
  intros o s' [(Ed & En & Hd') HP]. assert (enum_ok s') as He by (split_and!; rewrite ?Ed, ?En; done || lia).
  destruct o as [a|]; [|split; [done|lia]]. eapply wp_mono; [by eapply Hk; eauto|].
  intros o s2 [He2 Hl]. split; [done|lia].
Qed.

Lemma grows_try_from {A B} (m : M A) (k : option A -> M B) lo s :
  wp m (grows s) s -> lo <= next_free s ->
  (forall o s', enum_ok s' -> lo <= next_free s' -> wp (k o) (grows s') s') -> wp (try_ m ≫= k) (grows s) s.
Proof.
  intros Hm Hs Hk. apply wp_bind, wp_try. eapply wp_mono; [exact Hm|].
  intros o s' [He Hl]. eapply wp_mono; [apply Hk; [done|lia]|]. intros o2 s2 [He2 Hl2]. split; [done|lia].
Qed.

Lemma grows_stop {A} (m : M A) P s : enum_ok s -> quiet m P -> wp m (grows s) s.
Proof.
  intros (Hd & Hn & Ht) Hm. eapply wp_mono; [by apply Hm|].
  intros o s' [(Ed & En & Hd') _]. split; [|lia]. split_and!; rewrite ?Ed, ?En; done || lia.
Qed.

Lemma configure_grows io a iface e m kind s :
  enum_ok s -> address_ok (next_free s) a -> a ∉ used (drv s) ->
  wp (configure_hid_boot io a iface e m kind) (grows s) s.
Proof.
  intros Hs Ha Hu. unfold configure_hid_boot.
  eapply grows_quiet; [done|apply quiet_buf_data|intros b s1 Hb Hs1 E1 N1].
  eapply grows_quiet; [done|apply quiet_rd; [unfold BUF_DATA_LEN; lia|done]|intros v s2 _ Hs2 E2 N2].
  eapply grows_quiet; [done|apply quiet_control_out|intros _ s3 _ Hs3 E3 N3].
  eapply grows_quiet; [done|apply quiet_control_out|intros _ s4 _ Hs4 E4 N4].
  assert (address_ok (next_free s4) a) as Ha4 by congruence.
  assert (a ∉ used (drv s4)) as Hu4 by congruence.
  destruct Hs4 as (Hd & Hn & Ht). destruct kind; unfold grows, enum_ok.
  - unfold wp, mbind, M_bind, get. destruct (KBD_READY (drv s4)) eqn:Hk; cbn; [split; [done|lia]|].
    split; [split_and!; try done; try lia|lia]. by apply table_add_keyboard.
  - unfold add_mouse_slot, wp, mbind, M_bind, get. case_decide as Hc; cbn; [split; [done|lia]|].
    rewrite wr_ok by (destruct Ht as [-> _]; lia). cbn.
    split; [split_and!; try done; try lia|lia]. apply table_add_mouse; try done; [|lia].
    unfold clamp. lia.
Qed.

(** ** Enumeration *)

(** Taking the next address. *)
Lemma fresh_address s (s' := s <| next_free := Z.min (next_free s + 1) 255 |>) :
  enum_ok s -> next_free s <= 127 ->
  next_free s' = next_free s + 1 /\ enum_ok s' /\ next_free s ∉ used (drv s').
Proof.
  intros (Hd & Hn & Ht) Hc. assert (next_free s' = next_free s + 1) as N by (unfold s'; cbn; lia).
  split_and!; [done|split_and!; [done|rewrite N; lia..|]|].
  - eapply table_grows; [|exact Ht]. lia.
  - destruct Ht as (_ & _ & _ & Ht & _). intros Hin.
    rewrite Forall_forall in Ht. specialize (Ht _ Hin). unfold address_ok in Ht. lia.
Qed.

Lemma hub_ports_grows (enum : Z -> M unit) io hub ports lo s :
  enum_ok s -> lo <= next_free s ->
  (forall a s, enum_ok s -> next_free s = a + 1 -> 1 <= a <= 127 -> lo <= a -> a ∉ used (drv s) ->
    wp (enum a) (grows s) s) ->
  wp (hub_ports enum io hub ports) (grows s) s.
Proof.
  intros Hs Hlo He. revert s Hs Hlo. induction ports as [|port ports IH]; intros s Hs Hlo; cbn [hub_ports].
  { eapply grows_stop; [done|by apply (quiet_ret tt (fun _ => True))]. }
  eapply grows_quiet; [done|apply quiet_try; eauto with quiet|intros st s1 _ Hs1 E1 N1].
  case_decide; [apply IH; done || lia|].
  eapply grows_quiet; [done|apply quiet_try; eauto with quiet|intros u s2 _ Hs2 E2 N2].
  eapply grows_quiet; [done|apply quiet_try; eauto with quiet|intros r s3 _ Hs3 E3 N3].
  destruct r; [|apply IH; done || lia].
  apply wp_get. case_decide as Hc.
  { eapply grows_stop; [done|by apply (quiet_ret tt (fun _ => True))]. }
  apply wp_modify. match goal with |- wp _ _ ?x => set (s4 := x) end.
  destruct (fresh_address s3) as (N4 & Hs4 & Hu4); [done|lia|]. fold s4 in N4, Hs4, Hu4.
  assert (wp (try_ (enum (next_free s3)) ;; hub_ports enum io hub ports) (grows s4) s4) as Hw.
  { eapply (grows_try_from _ _ lo s4); [|lia|intros; apply IH; done || lia]. 
    destruct Hs3 as (_ & Hn3 & _). apply He; done || lia. }
  eapply wp_mono; [exact Hw|]. intros o s' [Hok Hl]. split; [done|lia].
Qed.

(** Addresses grow along a chain of hubs, so the fuel lasts. *)
Lemma enumerate_grows fuel io a s :
  enum_ok s -> next_free s = a + 1 -> 1 <= a -> a ∉ used (drv s) -> 129 <= Z.of_nat fuel + a ->
  (0 < fuel)%nat -> wp (enumerate_device_at_zero fuel io a) (grows s) s.
Proof.
  revert a s. induction fuel as [|fuel IH]; intros a s Hs Hn Ha Hu Hf H0; [lia|].
  cbn [enumerate_device_at_zero]. case_decide as Hr; [by eapply grows_stop; [|apply (quiet_fail (fun _ => True))]|].
  eapply grows_quiet; [done|apply quiet_control_out|intros _ s1 _ Hs1 E1 N1].
  eapply grows_quiet; [done|apply quiet_load_config_tuple|intros [is_hub hid] s2 _ Hs2 E2 N2].
  destruct is_hub.
  - eapply grows_quiet; [done|apply quiet_buf_data|intros b s3 Hb Hs3 E3 N3].
    eapply grows_quiet; [done|apply quiet_rd; [unfold BUF_DATA_LEN; lia|done]|intros v s4 _ Hs4 E4 N4].
    eapply grows_quiet; [done|apply quiet_control_out|intros _ s5 _ Hs5 E5 N5].
    eapply grows_quiet; [done|apply quiet_hub_read_nports|intros np s6 _ Hs6 E6 N6].
    case_decide; [by eapply grows_stop; [|apply (quiet_ret tt (fun _ => True))]|].
    apply hub_ports_grows with (lo := a + 1); [done|lia|].
    intros c s7 Hs7 N7 Hc Hlo Hu7. apply IH; done || lia.
  - destruct hid as [[[[kind iface] e] m]|].
    + apply configure_grows; [done| |congruence]. unfold address_ok. lia.
    + by eapply grows_stop; [|apply (quiet_ret tt (fun _ => True))].
Qed.

Lemma quiet_port_reset_enable io p : quiet (port_reset_enable io p) (fun _ => True).
Proof. unfold port_reset_enable. quiet. Qed.

Lemma root_ports_grows io ports s : enum_ok s -> wp (root_ports io ports) (grows s) s.
Proof.
  revert s. induction ports as [|p ports IH]; intros s Hs; cbn [root_ports]; cbv zeta.
  { by eapply grows_stop; [|apply (quiet_ret tt (fun _ => True))]. }
  eapply (grows_quiet _ _ (fun _ => True)); [done|unfold port_connected; quiet; done|].
  intros [] s1 _ Hs1 E1 N1; [|by apply IH]. apply wp_get. case_decide as Hc.
  { by eapply grows_stop; [|apply (quiet_ret tt (fun _ => True))]. }
  eapply grows_quiet; [done|apply quiet_try, quiet_port_reset_enable|intros r s2 _ Hs2 E2 N2].
  destruct r; [|by apply IH]. apply wp_get, wp_modify. match goal with |- wp _ _ ?x => set (s3 := x) end.
  destruct (fresh_address s2) as (N3 & Hs3 & Hu); [done|lia|]. fold s3 in N3, Hs3, Hu.
  eapply wp_mono; [eapply (grows_try_from _ _ 0 s3); [|destruct Hs3; lia|by intros; apply IH]|].
  - destruct Hs2 as (_ & Hn2 & _). apply enumerate_grows; done || lia.
  - intros o s' [Hok Hl]. split; [done|lia].
Qed.

(** ** Calls that return no error *)

Definition calm {A} (m : M A) : Prop := forall s, (m s).2 <> Er.

Lemma calm_bind {A B} (m : M A) (k : A -> M B) : calm m -> (forall a, calm (k a)) -> calm (m ≫= k).
Proof.
  intros Hm Hk s. specialize (Hm s). unfold mbind, M_bind. destruct (m s) as [s' [a| |]]; [apply Hk|done..].
Qed.

Lemma calm_try {A} (m : M A) : calm (try_ m).
Proof. intros s. unfold try_. by destruct (m s) as [s' [a| |]]. Qed.

Lemma calm_readw io r : calm (uhci_readw io r).
Proof. intros s. unfold uhci_readw. by destruct (inw _ _). Qed.

Lemma calm_wait_halted io : calm (wait_halted io).
Proof. intros s. unfold wait_halted. by destruct (for_upto _ _ _). Qed.

Lemma calm_on_ports {A} (f : W -> W * A) : calm (on_ports f).
Proof. intros s. unfold on_ports. by destruct (f _). Qed.

Ltac calm :=
  repeat match goal with
  | |- calm (mbind _ _) => apply calm_bind; [|intros ?]
  | |- calm (if decide ?P then _ else _) => destruct (decide P)
  | |- calm (match ?x with _ => _ end) => destruct x
  | |- calm (try_ _) => apply calm_try
  | |- calm (uhci_readw _ _) => apply calm_readw
  | |- calm (wait_halted _) => apply calm_wait_halted
  | |- calm (on_ports _) => apply calm_on_ports
  | |- calm _ => by intros ?
  end.

Lemma calm_root_ports io ports : calm (root_ports io ports).
Proof. induction ports as [|p ports IH]; cbn [root_ports]; cbv zeta; unfold port_connected; calm; done. Qed.

Lemma calm_init skew : calm (init skew).
Proof. unfold init, hc_stop. calm; [apply calm_root_ports|done..]. Qed.

Lemma wp_calm {A} (m : M A) Q s : calm m -> wp m Q s -> exists a s', m s = (s', Ok a) /\ Q (Some a) s'.
Proof. intros Hc Hw. specialize (Hc s). unfold wp in Hw. destruct (m s) as [s' [a| |]]; [eauto|done..]. Qed.
(** ** Start-up *)

(** A postcondition for calls that return. *)
Definition returns {A} (Q : A -> UhciState W -> Prop) (o : option A) s : Prop :=
  forall a, o = Some a -> Q a s.

Lemma wp_quiet {A B} (m : M A) (k : A -> M B) P Q s :
  dma_ok (dma s) -> quiet m P ->
  (forall a s', P a -> frame s s' -> wp (k a) (returns Q) s') -> wp (m ≫= k) (returns Q) s.
Proof.
  intros Hs Hm Hk. apply wp_bind. eapply wp_mono; [by apply Hm|].
  intros [a|] s' [Hf HP]; [by apply Hk; auto|by intros ?].
Qed.

(** What start-up leaves behind. *)
Definition started (b : bool) s : Prop :=
  dma_ok (dma s) /\ (exists n, table_ok n (drv s)) /\ (b = true <-> used (drv s) <> []).

Lemma used_nil d : length (MICE d) = MAX_USB_MICE ->
  used d <> [] <-> (0 < MOUSE_COUNT d)%nat \/ KBD_READY d = true.
Proof.
  intros Hl. unfold used, MAX_USB_MICE in *. destruct (KBD_READY d); cbn; [by split; [right|]|].
  destruct (MOUSE_COUNT d) as [|n]; cbn; [by split; [|intros [?|?]; [lia|]]|].
  destruct (MICE d); [done|]. cbn. split; [left; lia|done].
Qed.

(** The end of [init]: the root ports, and off again when nothing was found. *)
Lemma init_devices io s : enum_ok s ->
  wp (root_ports io [0; 1];;
      d ← get drv;
      if decide ((0 < MOUSE_COUNT d)%nat \/ KBD_READY d = true) then mret true
      else
        hc_stop io;;
        set_drv (fun d => d <| IOBASE := 0 |>);;
        mret false) (returns started) s.
Proof.
  intros Hs. apply wp_bind. eapply wp_mono; [by apply root_ports_grows|].
  intros [u|] s7 [(Hd & Hn & Ht) _]; [|by intros ?]. apply wp_get.
  pose proof (used_nil (drv s7)) as Hu. case_decide as Hdev.
  - intros b [= <-]. split_and!; [done|by eexists|]. destruct Ht as [Hl _]. tauto.
  - eapply wp_quiet; [done|apply quiet_hc_stop|intros _ s8 _ (E8 & N8 & Hs8)].
    unfold set_drv. apply wp_modify. intros b [= <-]. split_and!; [done| |].
    + exists (next_free s7). cbn. by rewrite E8.
    + cbn. rewrite E8. destruct Ht as [Hl _]. split; [done|]. intros Hb. destruct Hdev. by apply Hu.
Qed.
Lemma init_starts skew s : dma_ok (dma s) -> wp (init skew) (returns started) s.
Proof.
  intros Hs. unfold init. unfold set_drv at 1. apply wp_modify.
  match goal with |- wp _ _ ?x => set (s0 := x) end.
  assert (table_ok 1 (drv s0)) as Ht0.
  { split_and!; [done|cbn; lia|apply NoDup_nil_2|apply Forall_nil_2|apply Forall_nil_2|done]. }
  assert (used (drv s0) = []) as Hu0 by done.
  assert (dma_ok (dma s0)) as Hs0 by done. clearbody s0.
  eapply wp_quiet; [done|apply quiet_on_ports|intros found s1 _ (E1 & N1 & Hs1)].
  destruct found as [[f io]|].
  2: { intros b [= <-]. split_and!; [done|by exists 1; rewrite E1|by rewrite E1, Hu0]. }
  eapply wp_quiet; [done|apply quiet_on_ports|intros _ s2 _ (E2 & N2 & Hs2)].
  unfold set_drv at 1. apply wp_modify. match goal with |- wp _ _ ?x => set (s3 := x) end.
  assert (table_ok 1 (drv s3)) as Ht3 by (unfold s3; cbn; by rewrite E2, E1).
  assert (dma_ok (dma s3)) as Hs3 by done. clearbody s3.
  eapply wp_quiet; [done|by apply quiet_td|intros _ s4 _ (E4 & N4 & Hs4)].
  assert (table_ok 1 (drv s4)) as Ht4 by congruence. clear - Ht4 Hs4 UhciOk0.
  do 9 (eapply wp_quiet; [eassumption|eauto with quiet|intros ? ? _ (? & ? & ?)]).
  eapply wp_quiet; [eassumption|eauto with quiet|intros _ s5 _ (? & ? & Hs5)].
  assert (table_ok 1 (drv s5)) as Ht5 by congruence. clear - Ht5 Hs5 UhciOk0.
  apply wp_modify. match goal with |- wp _ _ ?x => set (s6 := x) end.
  assert (enum_ok s6) as Hs6 by (split_and!; cbn; done || lia). clearbody s6. clear - Hs6 UhciOk0.
  by apply init_devices.
Qed.
(** ** Polling *)

Definition driver_ok s : Prop := dma_ok (dma s) /\ exists n, table_ok n (drv s).

Lemma calm_interrupt_in io a e m buf n tog : calm (interrupt_in io a e m buf n tog).
Proof. unfold interrupt_in, run_chain, hc_stop, hc_start. cbv zeta. by calm. Qed.

Lemma poll_transfer io a e m buf n tog s : dma_ok (dma s) ->
  exists s' r, interrupt_in io a e m buf n tog s = (s', Ok (negb tog, r)) /\ frame s s'.
Proof.
  intros Hs. destruct (wp_calm _ _ _ (calm_interrupt_in io a e m buf n tog)
    (quiet_interrupt_in io a e m buf n tog s Hs)) as ([t r] & s' & E & Hf & HP).
  exists s', r. destruct (HP _ eq_refl) as [Ht _]. cbn in Ht. by subst.
Qed.
(** Writing back a slot with its toggle flipped. *)
Lemma table_toggle n d idx slot t : table_ok n d -> MICE d !! idx = Some slot ->
  table_ok n (d <| MICE ::= fun l => <[idx := slot <| toggle := t |>]> l |>) /\
  used (d <| MICE ::= fun l => <[idx := slot <| toggle := t |>]> l |>) = used d.
Proof.
  intros (H1 & H2 & H3 & H4 & H5 & H6) Hi.
  assert (used (d <| MICE ::= fun l => <[idx := slot <| toggle := t |>]> l |>) = used d) as Hu.
  { unfold used. cbn. f_equal. rewrite <-!firstn_map. f_equal.
    rewrite (list_fmap_insert addr). cbn. apply list_insert_id. by rewrite list_lookup_fmap, Hi. }
  split; [|done]. unfold table_ok. rewrite Hu. cbn. split_and!; try done; [by rewrite length_insert|].
  apply Forall_forall. intros sl Hsl. rewrite Forall_forall in H5.
  apply list_elem_of_lookup in Hsl as [j Hj]. apply lookup_take_Some in Hj as [Hj Hjc].
  destruct (decide (j = idx)) as [->|Hne].
  - rewrite list_lookup_insert_eq in Hj by (by eapply lookup_lt_Some). injection Hj as <-.
    apply (H5 slot). apply list_elem_of_lookup. exists idx. by apply lookup_take_Some.
  - rewrite list_lookup_insert_ne in Hj by done.
    apply H5, list_elem_of_lookup. exists j. by apply lookup_take_Some.
Qed.

Definition mouse_on idx s : Prop := IOBASE (drv s) <> 0 /\ (idx < MOUSE_COUNT (drv s))%nat.

(** What a poll of one mouse does, by its result. *)
Definition mouse_polled idx s s' (r : option (Z * Z * Z)) : Prop :=
  driver_ok s' /\ used (drv s') = used (drv s) /\
  (forall j, j <> idx -> MICE (drv s') !! j = MICE (drv s) !! j) /\
  match r with
  | Some (buttons, dx, dy) =>
      mouse_on idx s /\ mouse_ready s' = true /\
      exists b0 b1 b2 rest, BUF_IRQ_MOUSE (dma s') = b0 :: b1 :: b2 :: rest /\
        buttons = Z.land b0 7 /\ dx = signed 8 b1 /\ dy = - signed 8 b2
  | None => mouse_on idx s -> MOUSE_USB_FAILS (drv s') = Z.min (MOUSE_USB_FAILS (drv s) + 1) 0xFFFF
  end.

Lemma poll_mouse_off idx s : driver_ok s -> ~ mouse_on idx s ->
  poll_mouse_slot idx s = (s, Ok None) /\ mouse_polled idx s s None.
Proof.
  intros Hs Hoff. unfold mouse_on in Hoff. split; [|by split_and!].
  unfold poll_mouse_slot, mbind, M_bind, get. by rewrite decide_True by lia.
Qed.

Definition runs {A} (m : M A) s (Q : UhciState W -> A -> Prop) : Prop :=
  exists s' a, m s = (s', Ok a) /\ Q s' a.

Lemma runs_bind {A B} (m : M A) (k : A -> M B) s s' a Q :
  m s = (s', Ok a) -> runs (k a) s' Q -> runs (m ≫= k) s Q.
Proof. intros Hm (s2 & b & Hk & HQ). exists s2, b. split; [|done]. unfold mbind, M_bind. by rewrite Hm. Qed.

Lemma runs_ret {A} (a : A) s (Q : UhciState W -> A -> Prop) : Q s a -> runs (mret a) s Q.
Proof. by exists s, a. Qed.

(** Three bytes at the head of a buffer of eight. *)
Lemma buf_head b : buf_ok 8 b -> exists b0 b1 b2 rest, b = b0 :: b1 :: b2 :: rest.
Proof. intros [Hl _]. destruct b as [|b0 [|b1 [|b2 rest]]]; try done. eauto. Qed.

Lemma poll_mouse_on idx s : driver_ok s -> mouse_on idx s ->
  runs (poll_mouse_slot idx) s (mouse_polled idx s).
Proof.
  intros (Hd & n & Ht) Hon. pose proof Hon as [Hio Hi]. pose proof Ht as (Hl & Hc & _ & _ & Hsl & _).
  destruct (lookup_lt_is_Some_2 (MICE (drv s)) idx) as [slot Eslot]; [lia|].
  assert (slot_ok slot) as [Hp _].
  { rewrite Forall_forall in Hsl. apply Hsl, list_elem_of_lookup. exists idx. by apply lookup_take_Some. }
  unfold poll_mouse_slot. eapply runs_bind; [reflexivity|]. rewrite decide_False by lia.
  eapply runs_bind; [unfold lift; by rewrite (rd_lookup _ _ _ Eslot)|]. rewrite Hp.
  eapply runs_bind; [reflexivity|]. match goal with |- runs _ ?x _ => set (s1 := x) end.
  destruct (poll_transfer (IOBASE (drv s)) (addr slot) (ep slot) (mps slot) SBufMouse 8 (toggle slot) s1)
    as (s2 & r & E & Ed & _ & Hd2).
  { destruct Hd as (?&?&?&?&?). unfold s1. cbn. split_and!; try done. split; [done|by_decide]. }
  eapply runs_bind; [exact E|]. change (drv s1) with (drv s) in Ed. clear E. clearbody s1.
  destruct r as [k|].
  2: { unfold mouse_failed, set_drv. eapply runs_bind; [reflexivity|]. apply runs_ret.
    split_and!; [split; [done|exists n]| | |]; cbn; by rewrite ?Ed. }
  unfold set_drv. eapply runs_bind; [reflexivity|]. match goal with |- runs _ ?x _ => set (s3 := x) end.
  destruct (table_toggle n (drv s) idx slot (negb (toggle slot)) Ht Eslot) as [Ht3 Hu3].
  assert (drv s3 = (drv s) <| MICE ::= fun l => <[idx := slot <| toggle := negb (toggle slot) |>]> l |>) as E3
    by (by rewrite <-Ed).
  assert (forall j, j <> idx -> MICE (drv s3) !! j = MICE (drv s) !! j) as Hm3.
  { intros j Hj. rewrite E3. by apply list_lookup_insert_ne. }
  assert (dma_ok (dma s3)) as Hd3 by done. rewrite <-E3 in Ht3, Hu3. clearbody s3. case_decide as Hk.
  { unfold mouse_failed, set_drv. eapply runs_bind; [reflexivity|]. apply runs_ret.
    split_and!; [split; [done|by exists n]|done|done|]. cbn. by rewrite E3. }
  unfold set_drv. eapply runs_bind; [reflexivity|]. eapply runs_bind; [reflexivity|].
  destruct (buf_head (BUF_IRQ_MOUSE (dma s3))) as (b0 & b1 & b2 & rest & Eb); [by destruct Hd3 as (?&?&?)|].
  cbn [dma]. do 3 (eapply runs_bind; [unfold lift; change (dma (s3 <| drv ::= _ |>)) with (dma s3);
    rewrite Eb; reflexivity|]).
  apply runs_ret. split_and!; [split; [done|by exists n]|done|done|done| |].
  - unfold mouse_ready. apply bool_decide_eq_true. cbn. rewrite E3. cbn. unfold USB_STALL_BEFORE_PS2. lia.
  - exists b0, b1, b2, rest. by rewrite <-Eb.
Qed.
Lemma poll_mouse_ok idx s : driver_ok s -> runs (poll_mouse_slot idx) s (mouse_polled idx s).
Proof.
  intros Hs. destruct (decide (mouse_on idx s)) as [Hon|Hoff]; [by apply poll_mouse_on|].
  destruct (poll_mouse_off idx s Hs Hoff) as [E Hp]. by exists s, None.
Qed.

Definition keyboard_on s : Prop := KBD_READY (drv s) = true /\ IOBASE (drv s) <> 0.

(** What a poll of the keyboard does, by its result. *)
Definition keyboard_polled s s' (r : option bytes) : Prop :=
  driver_ok s' /\ keyboard_on s' /\ KBD_TOGGLE (drv s') = negb (KBD_TOGGLE (drv s)) /\
  match r with
  | Some report => report = BUF_IRQ_KBD (dma s') /\ buf_ok 8 report /\ KBD_USB_FAILS (drv s') = 0 /\
      HID_KBD_XFER_OK (drv s') = true
  | None => KBD_USB_FAILS (drv s') = Z.min (KBD_USB_FAILS (drv s) + 1) 0xFFFF /\
      HID_KBD_XFER_OK (drv s') = HID_KBD_XFER_OK (drv s)
  end.

Lemma poll_keyboard_on s : driver_ok s -> keyboard_on s ->
  runs poll_keyboard_report s (keyboard_polled s).
Proof.
  intros (Hd & n & Ht) [Hr Hio]. unfold poll_keyboard_report.
  eapply runs_bind; [reflexivity|]. rewrite decide_False by (intros [?|?]; congruence).
  eapply runs_bind; [reflexivity|]. match goal with |- runs _ ?x _ => set (s1 := x) end.
  destruct (poll_transfer (IOBASE (drv s)) (KBD_ADDR (drv s)) (KBD_EP (drv s)) (KBD_MPS (drv s)) SBufKbd 8
    (KBD_TOGGLE (drv s)) s1) as (s2 & r & E & Ed & _ & Hd2).
  { destruct Hd as (?&?&?&?&?). unfold s1. cbn. split_and!; try done. split; [done|by_decide]. }
  eapply runs_bind; [exact E|]. change (drv s1) with (drv s) in Ed. clear E. clearbody s1.
  eapply runs_bind; [reflexivity|]. match goal with |- runs _ ?x _ => set (s3 := x) end.
  assert (drv s3 = (drv s) <| KBD_TOGGLE := negb (KBD_TOGGLE (drv s)) |>) as E3 by (unfold s3; by rewrite <-Ed).
  assert (dma_ok (dma s3)) as Hd3 by done. clearbody s3.
  assert (runs kbd_failed s3 (keyboard_polled s)) as Hfail.
  { unfold kbd_failed, set_drv. eapply runs_bind; [reflexivity|]. apply runs_ret.
    split_and!; [split; [done|exists n]|split|..]; cbn; rewrite E3; done. }
  destruct r as [k|]; [|done]. case_decide; [done|].
  eapply runs_bind; [reflexivity|]. eapply runs_bind; [reflexivity|]. apply runs_ret.
  split_and!; [split; [done|exists n]|..]; cbn; rewrite ?E3; try done; apply Hd3.
Qed.

(** [n] polls of the keyboard, and what they returned. *)
Fixpoint poll_keyboard (n : nat) : M (list (option bytes)) :=
  match n with
  | O => mret []
  | S n => r ← poll_keyboard_report; rs ← poll_keyboard n; mret (r :: rs)
  end.

(** The failures in a row after some polls, from [f] before them. *)
Fixpoint stalls (f : Z) (rs : list (option bytes)) : Z :=
  match rs with
  | [] => f
  | Some _ :: rs => stalls 0 rs
  | None :: rs => stalls (Z.min (f + 1) 0xFFFF) rs
  end.

Definition reported (r : option bytes) : bool := bool_decide (is_Some r).

Lemma poll_keyboard_run n s : driver_ok s -> keyboard_on s ->
  runs (poll_keyboard n) s (fun s' rs => length rs = n /\ KBD_READY (drv s') = true /\
    KBD_USB_FAILS (drv s') = stalls (KBD_USB_FAILS (drv s)) rs /\
    HID_KBD_XFER_OK (drv s') = HID_KBD_XFER_OK (drv s) || existsb reported rs).
Proof.
  revert s. induction n as [|n IH]; intros s Hs Hon; cbn [poll_keyboard].
  { apply runs_ret. split_and!; [done|by destruct Hon|done|]. by rewrite orb_false_r. }
  destruct (poll_keyboard_on s Hs Hon) as (s1 & r & E & Hs1 & Hon1 & _ & Hr).
  eapply runs_bind; [exact E|]. destruct (IH s1 Hs1 Hon1) as (s2 & rs & E2 & Hlen & Hrdy & Hf & Hx).
  eapply runs_bind; [exact E2|]. apply runs_ret. rewrite Hf, Hx. destruct r as [rep|]; cbn.
  - destruct Hr as (_ & _ & -> & ->). split_and!; [lia|done|done|]. by rewrite orb_true_r.
  - destruct Hr as [-> ->]. split_and!; lia || done.
Qed.

Lemma stalls_app f rs1 rs2 : stalls f (rs1 ++ rs2) = stalls (stalls f rs1) rs2.
Proof. revert f. by induction rs1 as [|[r|] rs1 IH]; intros f; cbn. Qed.

Lemma stalls_none f k : 0 <= f <= 0xFFFF -> stalls f (replicate k None) = Z.min (f + Z.of_nat k) 0xFFFF.
Proof. revert f. induction k as [|k IH]; intros f Hf; cbn; [lia|]. rewrite IH; lia. Qed.

Lemma stalls_range f rs : 0 <= f <= 0xFFFF -> 0 <= stalls f rs <= 0xFFFF.
Proof. revert f. induction rs as [|[r|] rs IH]; intros f Hf; cbn; [done|apply IH; lia..]. Qed.
End proofs.

#[export] Hint Resolve quiet_fail quiet_readw quiet_writew quiet_wait_halted quiet_on_ports quiet_phys
  quiet_hc_stop quiet_hc_start quiet_run_chain quiet_wait_chain_last
  quiet_control_in quiet_control_out quiet_interrupt_in : quiet.

(** ** A controller with one boot mouse *)

(** Port 1 of a PIIX3's UHCI has a mouse; it answers every transfer at once,
    and reports the left button with a movement of 5 right and 3 up. *)
Record UsbBox := { host : PciMem }.
#[export] Instance UsbBox_ports : Ports UsbBox := {|
  inb := fun _ w => (w, 0); outb := fun _ _ w => w; outw := fun _ _ w => w;
  in32 := fun p w => let '(h, v) := in32 p (host w) in ({| host := h |}, v);
  out32 := fun p v w => {| host := out32 p v (host w) |};
  inw := fun p w => (w, if decide (p = 0xC050) then 1 else if decide (p = 0xC042) then 0x20 else 0) |}.

Definition device_descriptor : bytes := [18; 1; 16; 1; 0; 0; 0; 8; 39; 6; 1; 0; 0; 0; 1; 2; 0; 1].

Definition fill (src b : bytes) : bytes := take (length b) (src ++ drop (length src) b).

(** A finished descriptor reports the length it asked for. *)
Definition done_td (t : Td) : Td :=
  {| link := link t; ctrl := Z.shiftr (token t) 21; token := token t; buffer := buffer t |}.

#[export] Instance UsbBox_uhci : UhciMachine UsbBox := {|
  sym_addr := fun x => match x with SBufData => 0x2000 | _ => 0x1000 end;
  hc_run := fun w m => (w, m
    <| TD_DATA ::= done_td |> <| TD_STAT ::= done_td |> <| TD_IRQ ::= done_td |>
    <| BUF_DATA ::= fill (if decide (BUF_SETUP m !! 3%nat = Some 1) then device_descriptor else mouse_config) |>
    <| BUF_IRQ_MOUSE ::= fill [1; 5; 253] |>) |}.

Definition usb_box : UhciState UsbBox :=
  {| hw := {| host := piix3 |}; dma := Dma_new; drv := Uhci_new; next_free := 0 |}.

Lemma fill_ok n src b : is_bytes src -> buf_ok n b -> buf_ok n (fill src b).
Proof.
  intros Hs [Hl Hb]. unfold fill. split; [len|]. apply Forall_take, Forall_app. split; [done|].
  by apply Forall_drop.
Qed.

#[export] Instance UsbBox_ok : UhciOk UsbBox.
Proof.
  split. intros w m (H1 & H2 & H3 & H4 & H5). split_and!; [|by apply fill_ok; [by_decide|]|done..].
  apply fill_ok; [|done]. by case_decide; by_decide.
Qed.

(** ** Properties *)

(** C27: Enumeration returns on any hardware: whatever the devices and hubs
    answer, [init] reports whether it found anything, with at most twelve mice,
    all polled devices at distinct addresses between 1 and 127, and packet
    sizes within the bounds of the transfer buffers. *)
Theorem uhci_enumeration_safe {W} `{UhciMachine W, !UhciOk W} skew (s : UhciState W) : dma_ok (dma s) ->
  exists s' b, init skew s = (s', Ok b) /\ (b = true <-> used (drv s') <> []) /\ driver_ok s' /\
    (MOUSE_COUNT (drv s') <= 12)%nat /\ NoDup (used (drv s')) /\
    Forall (fun a => 1 <= a <= 127) (used (drv s')) /\
    Forall slot_ok (take (MOUSE_COUNT (drv s')) (MICE (drv s'))).
Proof.
  intros Hs. destruct (wp_calm _ _ _ (calm_init skew) (init_starts skew s Hs)) as (b & s' & E & HQ).
  destruct (HQ b eq_refl) as (Hd & [n Ht] & Hb). pose proof Ht as (_ & Hc & Hn & Ha & Hsl & _).
  exists s', b. split_and!; try done; [split; [done|by exists n]|].
  eapply Forall_impl; [exact Ha|]. unfold address_ok. lia.
Qed.

Lemma uhci_enumeration_safe_witness :
  exists s' b, init 0 usb_box = (s', Ok b) /\ (MOUSE_COUNT (drv s') <= 12)%nat /\
    used (init 0 usb_box).1.(drv) = [1].
Proof.
  destruct (uhci_enumeration_safe 0 usb_box) as (s' & b & E & _ & _ & Hc & _).
  - by_decide.
  - exists s', b. split; [exact E|split; [exact Hc|vm_compute; reflexivity]].
Defined.

(** Polling any slot returns and keeps the driver's tables.  A result comes
    from a slot in use, and is the report as sent: the three buttons, and the
    two signed movements with the vertical one turned round; the other mice
    are untouched, and the mouse counts as alive.  A poll that fails is counted. *)
Theorem uhci_mouse_reports {W} `{UhciMachine W, !UhciOk W} idx (s : UhciState W) : driver_ok s ->
  exists s' r, poll_mouse_slot idx s = (s', Ok r) /\ driver_ok s' /\ used (drv s') = used (drv s) /\
    (forall j, j <> idx -> MICE (drv s') !! j = MICE (drv s) !! j) /\
    match r with
    | Some (buttons, dx, dy) =>
        mouse_on idx s /\ mouse_ready s' = true /\
        exists b0 b1 b2 rest, BUF_IRQ_MOUSE (dma s') = b0 :: b1 :: b2 :: rest /\
          buttons = Z.land b0 7 /\ dx = signed 8 b1 /\ dy = - signed 8 b2
    | None => mouse_on idx s -> MOUSE_USB_FAILS (drv s') = Z.min (MOUSE_USB_FAILS (drv s) + 1) 0xFFFF
    end.
Proof. exact (poll_mouse_ok idx s). Qed.

(** The mouse of the box after start-up. *)
Definition box_started : UhciState UsbBox :=
  {| hw := {| host := piix3 |}; dma := Dma_new; next_free := 2; drv :=
     {| PHYS_SKEW := 0; IOBASE := 0xC040; MOUSE_COUNT := 1; KBD_ADDR := 2; KBD_EP := 1; KBD_MPS := 8;
        MICE := {| addr := 1; ep := 129; mps := 4; toggle := false; present := true |}
          :: replicate 11 no_mouse;
        KBD_TOGGLE := false; KBD_READY := true; HID_KBD_XFER_OK := false; HID_MOUSE_XFER_OK := false;
        KBD_USB_FAILS := 0; MOUSE_USB_FAILS := 0 |} |}.

Lemma box_started_ok : driver_ok box_started.
Proof.
  split; [by_decide|]. exists 3. split_and!; [done|unfold MAX_USB_MICE; cbn; lia| | | |cbn; lia].
  - apply (bool_decide_unpack _). vm_compute. exact I.
  - unfold used. cbn. by repeat (constructor; [split; lia|]).
  - cbn. repeat constructor. all: cbn; lia.
Qed.

Lemma uhci_mouse_reports_witness :
  exists s' r, poll_mouse_slot 0 box_started = (s', Ok r) /\ used (drv s') = [2; 1] /\
    (poll_mouse_slot 0 box_started).2 = Ok (Some (1, 5, 3)).
Proof.
  destruct (uhci_mouse_reports 0 box_started box_started_ok) as (s' & r & E & _ & Hu & _).
  exists s', r. split; [exact E|split; [rewrite Hu; reflexivity|vm_compute; reflexivity]].
Defined.

(** C28: The keyboard's fallback to PS/2: after any polls, if the last report was
    [k] failed polls ago, the PS/2 keyboard is ignored exactly while [k] is
    less than 96; after 96 failures in a row it is used again. *)
Theorem usb_keyboard_falls_back {W} `{UhciMachine W, !UhciOk W} n (s : UhciState W) :
  driver_ok s -> keyboard_on s -> 0 <= KBD_USB_FAILS (drv s) <= 0xFFFF ->
  exists s' rs, poll_keyboard n s = (s', Ok rs) /\ length rs = n /\
    (forall before r k, rs = before ++ Some r :: replicate k None ->
      hid_kbd_suppresses_ps2 s' = bool_decide (k < 96)%nat) /\
    (forall before k, rs = before ++ replicate k None -> (96 <= k)%nat ->
      hid_kbd_suppresses_ps2 s' = false).
Proof.
  intros Hs Hon Hf. destruct (poll_keyboard_run n s Hs Hon) as (s' & rs & E & Hlen & Hr & Hst & Hx).
  exists s', rs. split_and!; [done|done| |]; unfold hid_kbd_suppresses_ps2, USB_STALL_BEFORE_PS2.
  - intros before r k ->. rewrite Hr, Hx, Hst, existsb_app, stalls_app. cbn [stalls existsb reported].
    rewrite stalls_none by lia. change (reported (Some r)) with true. rewrite !orb_true_r.
    apply bool_decide_ext. lia.
  - intros before k -> Hk. rewrite Hst, stalls_app, stalls_none by (by apply stalls_range).
    pose proof (stalls_range _ before Hf). apply bool_decide_eq_false. lia.
Qed.

Lemma usb_keyboard_falls_back_witness :
  exists s' rs, poll_keyboard 2 box_started = (s', Ok rs) /\ length rs = 2%nat /\
    (forall r, rs = [Some r; None] -> hid_kbd_suppresses_ps2 s' = true).
Proof.
  destruct (usb_keyboard_falls_back 2 box_started) as (s' & rs & E & Hlen & Hs & _).
  - exact box_started_ok.
  - split; [reflexivity|intros [=]].
  - cbn. lia.
  - exists s', rs. split; [exact E|split; [exact Hlen|]]. intros r Hr. exact (Hs [] r 1%nat Hr).
Defined.

(** A poll of the keyboard that fails still flips the toggle of its endpoint
    (the mouse's toggle is only written back after a transfer that ended). *)
Lemma keyboard_toggle_flips_on_failure {W} `{UhciMachine W, !UhciOk W} (s : UhciState W) :
  driver_ok s -> keyboard_on s -> exists s' r, poll_keyboard_report s = (s', Ok r) /\
    KBD_TOGGLE (drv s') = negb (KBD_TOGGLE (drv s)).
Proof.
  intros Hs Hon. destruct (poll_keyboard_on s Hs Hon) as (s' & r & E & _ & _ & Ht & _). by exists s', r.
Qed.
