(* ===== verification/Url.v ===== *)
(** * URL parsing ([kernel/src/url.rs])

    [parse_fetch_url] and everything below it.  The fixed arrays of
    [ParsedHttpUrl] are lists of their full length; the code's slices and
    [copy_from_slice] calls go through the panic monad, so that "the parser
    never panics" is a theorem about this model and not a convention. *)

From S2P Require Import Prelude.

Record ParsedHttpUrl := {
  https : bool;
  port : Z;
  ip : bytes;
  needs_dns : bool;
  host_for_dns : bytes;
  host_for_dns_len : nat;
  host_header : bytes;
  host_header_len : nat;
  path : bytes;
  path_len : nat;
}.

Definition P_http : bytes := Eval vm_compute in bs "http://".
Definition P_https : bytes := Eval vm_compute in bs "https://".

(** The loop of [starts_with_http(s)]: compare byte by byte, keep the rest. *)
Fixpoint strip_prefix_ci (p url : bytes) : option bytes :=
  match p, url with
  | [], _ => Some url
  | x :: p', y :: url' => if eq_ci y x then strip_prefix_ci p' url' else None
  | _ :: _, [] => None
  end.

Definition starts_with_http (url : bytes) : option bytes :=
  if decide (length url < length P_http)%nat then None else strip_prefix_ci P_http url.

Definition starts_with_https (url : bytes) : option bytes :=
  if decide (length url < length P_https)%nat then None else strip_prefix_ci P_https url.

Fixpoint parse_u8_loop (v : Z) (s : bytes) : option Z :=
  match s with
  | [] => Some v
  | c :: s' =>
      if negb (is_digit c) then None
      else let v' := v * 10 + (c - 48) in
           if decide (255 < v') then None else parse_u8_loop v' s'
  end.

Definition parse_u8 (s : bytes) : option Z :=
  if decide (s = [] \/ (3 < length s)%nat) then None else parse_u8_loop 0 s.

(** The loop of [parse_ipv4_host]: [i] is the index of the head of [l]. *)
Fixpoint ipv4_loop (host l : bytes) (i start n : nat) (parts : bytes)
  : option (nat * nat * bytes) :=
  match l with
  | [] => Some (start, n, parts)
  | b :: l' =>
      if decide (b = 46 (* '.' *)) then
        if decide (4 <= n)%nat then None
        else match parse_u8 (slice host start i) with
             | None => None
             | Some v => ipv4_loop host l' (S i) (S i) (S n) (<[n:=v]> parts)
             end
      else ipv4_loop host l' (S i) start n parts
  end.

Definition parse_ipv4_host (host : bytes) : option bytes :=
  match ipv4_loop host host 0 0 0 [0; 0; 0; 0] with
  | None => None
  | Some (start, n, parts) =>
      if decide (n = 3)%nat then
        match parse_u8 (drop start host) with
        | None => None
        | Some v => Some (<[3%nat:=v]> parts)
        end
      else None
  end.

(** Strip spaces at both ends. *)
Definition is_space (c : Z) : bool := c =? 32.
Definition trim (url : bytes) : bytes :=
  let i := scan_while is_space url 0 in
  let rest := drop i url in
  take (length rest - span_len is_space (rev rest)) rest.

Definition is_path_start (b : Z) : bool := (b =? 47) || (b =? 63) || (b =? 35). (* / ? # *)

(** The decimal port: [u32] accumulator, rejected above 65535. *)
Fixpoint parse_port (p : Z) (s : bytes) : option Z :=
  match s with
  | [] => Some p
  | c :: s' =>
      if negb (is_digit c) then None
      else let p' := p * 10 + (c - 48) in
           if decide (65535 < p') then None else parse_port p' s'
  end.

Definition default_port (tls : bool) : Z := if tls then 443 else 80.

(** [host_header] with the explicit port appended when it is not the default. *)
Definition put_port (hdr : bytes) (hdr_len : nat) (tls : bool) (prt : Z)
  : rust (option (bytes * nat)) :=
  if decide (prt <> default_port tls) then
    let ds := if decide (prt = 0) then [48] else dec_loop 16 prt [] in
    if decide (95 < hdr_len + 1 + length ds)%nat then Ret None
    else
      hdr ← wr hdr hdr_len 58 (* ':' *);
      hdr ← copy_at hdr (hdr_len + 1) ds;
      Ret (Some (hdr, (hdr_len + 1 + length ds)%nat))
  else Ret (Some (hdr, hdr_len)).

(** The request path: a query or fragment gets a leading [/]. *)
Definition put_path (path_src : bytes) : rust (bytes * nat) :=
  let zero := replicate 160 0 in
  match path_src with
  | [] => p ← wr zero 0 47; Ret (p, 1%nat)
  | c :: _ =>
      if decide (c = 63 \/ c = 35) then
        p ← wr zero 0 47;
        p ← copy_at p 1 path_src;
        Ret (p, (length path_src + 1)%nat)
      else
        p ← copy_at zero 0 path_src;
        Ret (p, length path_src)
  end.

Definition path_extra (path_src : bytes) : nat :=
  match path_src with
  | c :: _ => if decide (c = 63 \/ c = 35) then 1%nat else 0%nat
  | [] => 0%nat
  end.

Definition finish_parse (host : bytes) (prt : Z) (path_src : bytes) (tls : bool)
  : rust (option ParsedHttpUrl) :=
  if decide (host = [] \/ (95 < length host)%nat \/ (159 < length path_src + path_extra path_src)%nat)
  then Ret None
  else
    dns ← copy_at (replicate 96 0) 0 host;
    hdr ← copy_at (replicate 96 0) 0 host;
    r ← put_port hdr (length host) tls prt;
    match r with
    | None => Ret None
    | Some (hdr, hdr_len) =>
        let addr := match parse_ipv4_host host with Some oct => oct | None => [0; 0; 0; 0] end in
        pp ← put_path path_src;
        Ret (Some {|
          https := tls; port := prt;
          ip := addr; needs_dns := bool_decide (addr = [0; 0; 0; 0]);
          host_for_dns := dns; host_for_dns_len := length host;
          host_header := hdr; host_header_len := hdr_len;
          path := pp.1; path_len := pp.2 |})
    end.

(** What ends the host: a path byte, a [:] or the end of the URL. *)
Definition host_stop (b : Z) : bool := is_path_start b || (b =? 58).

Definition parse_host_port_path (rest : bytes) (dflt : Z) (tls : bool)
  : rust (option ParsedHttpUrl) :=
  let i := span_len (fun b => negb (host_stop b)) rest in
  if decide (rest !! i = Some 58 (* ':' *)) then
      ps ← sub rest (i + 1) (length rest);
      let pe := span_len (fun c => negb (is_path_start c)) ps in
      if decide (pe = 0)%nat then Ret None
      else
        match parse_port 0 (take pe ps) with
        | None => Ret None
        | Some prt =>
            after ← sub rest (i + 1 + pe) (length rest);
            match after with
            | [] => finish_parse (take i rest) prt [47] tls
            | c :: _ =>
                if is_path_start c then finish_parse (take i rest) prt after tls else Ret None
            end
        end
  else
      let path_src := if decide (length rest <= i)%nat then [47] else drop i rest in
      let path_src := match path_src with [] => [47] | _ => path_src end in
      finish_parse (take i rest) dflt path_src tls.

Definition parse_fetch_url (url : bytes) : rust (option ParsedHttpUrl) :=
  let url := trim url in
  match starts_with_https url with
  | Some rest => parse_host_port_path rest 443 true
  | None =>
      match starts_with_http url with
      | None => Ret None
      | Some rest => parse_host_port_path rest 80 false
      end
  end.

Definition parse_http_url (url : bytes) : rust (option ParsedHttpUrl) :=
  r ← parse_fetch_url url;
  match r with
  | None => Ret None
  | Some u => if u.(https) then Ret None else Ret (Some u)
  end.

(** The bytes the fetcher uses: the prefixes the lengths delimit. *)
Definition host_bytes (u : ParsedHttpUrl) : bytes := take u.(host_for_dns_len) u.(host_for_dns).
Definition header_bytes (u : ParsedHttpUrl) : bytes := take u.(host_header_len) u.(host_header).
Definition path_bytes (u : ParsedHttpUrl) : bytes := take u.(path_len) u.(path).

(** ** Dotted IPv4 addresses *)

(** The reference reading: exactly four dot-separated fields, each a [u8]. *)
Definition ipv4_spec (host : bytes) : option bytes :=
  let fs := split_on 46 host in
  if decide (length fs = 4)%nat then mapM parse_u8 fs else None.

Definition ipv4_finish (host : bytes) (r : option (nat * nat * bytes)) : option bytes :=
  match r with
  | None => None
  | Some (start, n, parts) =>
      if decide (n = 3)%nat then
        match parse_u8 (drop start host) with None => None | Some v => Some (<[3%nat:=v]> parts) end
      else None
  end.

Lemma ipv4_loop_spec host pre l start n parts f fs :
  host = pre ++ l -> (start <= length pre)%nat -> length parts = 4%nat -> (n <= 4)%nat ->
  split_on 46 l = f :: fs ->
  ipv4_finish host (ipv4_loop host l (length pre) start n parts) =
    match mapM parse_u8 ((drop start pre ++ f) :: fs) with
    | Some vs => if decide (n + length fs = 3)%nat then Some (list_inserts n vs parts) else None
    | None => None
    end.
Proof.
  revert pre start n parts f fs.
  induction l as [|b l IH]; intros pre start n parts f fs Hh Hs Hp Hn Hf; cbn [ipv4_loop].
  - cbn in Hf. simplify_eq. rewrite app_nil_r in *. unfold ipv4_finish. cbn [mapM length].
    replace (n + 0)%nat with n by lia. rewrite app_nil_r.
    case_decide; subst; destruct (parse_u8 _); reflexivity.
  - assert (host = (pre ++ [b]) ++ l) as Hh' by (rewrite Hh, <-app_assoc; done).
    assert (S (length pre) = length (pre ++ [b])) as Hi by (rewrite length_app; simpl; lia).
    cbn [split_on] in Hf. destruct (split_on_cons 46 l) as (g & gs & Hg). rewrite Hg in Hf.
    destruct (decide (b = 46)) as [->|Hb]; simplify_eq.
    + assert (slice (pre ++ 46 :: l) start (length pre) = drop start pre) as ->.
      { unfold slice. rewrite drop_app_le, take_app_le by (rewrite ?length_drop; lia).
        apply take_ge. rewrite length_drop. lia. }
      rewrite app_nil_r. change (mapM parse_u8 (drop start pre :: ?x)) with
        (y ← parse_u8 (drop start pre); k ← mapM parse_u8 x; mret (y :: k)).
      destruct (decide (4 <= n)%nat).
      { cbn [ipv4_finish]. destruct (_ ≫= _); [|done]. by rewrite decide_False by (simpl; lia). }
      destruct (parse_u8 (drop start pre)) as [v|]; [|done].
      rewrite Hi, (IH _ _ _ _ g gs) by (rewrite ?length_app, ?length_insert; simpl; try lia; done).
      rewrite drop_ge by lia. cbn [app].
      destruct (mapM parse_u8 (g :: gs)) as [vs|]; [|done].
      change (Some v ≫= _) with (Some (v :: vs)). cbn iota.
      cbn [length list_inserts].
      replace (n + S (length gs))%nat with (S n + length gs)%nat by lia.
      case_decide; [|done]. f_equal. by rewrite list_insert_inserts_lt by lia.
    + rewrite Hi, (IH _ _ _ _ g fs) by (rewrite ?length_app; simpl; try lia; done).
      by rewrite drop_app_le, <-app_assoc by lia.
Qed.

Lemma parse_ipv4_host_eq host : parse_ipv4_host host = ipv4_spec host.
Proof.
  destruct (split_on_cons 46 host) as (f & fs & Hf).
  change (parse_ipv4_host host) with
    (ipv4_finish host (ipv4_loop host host (length (@nil Z)) 0 0 [0; 0; 0; 0])).
  rewrite (ipv4_loop_spec host [] host 0 0 _ f fs) by (simpl; try lia; done).
  unfold ipv4_spec. rewrite Hf. cbn [drop app length].
  destruct (decide (0 + length fs = 3)%nat) as [H|H].
  - rewrite (decide_True (P := S _ = _)) by lia.
    destruct (mapM parse_u8 (f :: fs)) as [vs|] eqn:E; [|done].
    apply length_mapM in E. f_equal. rewrite <-(app_nil_r [0;0;0;0]).
    rewrite list_inserts_0_r by (rewrite <-E; simpl; lia). by rewrite app_nil_r.
  - rewrite (decide_False (P := S _ = _)) by lia. by destruct (mapM parse_u8 (f :: fs)).
Qed.

(** [parse_ipv4_host] reads exactly the dotted quads: four fields between
    dots, each a decimal number of one to three digits that fits a byte, and it
    rejects everything else. *)
Theorem parse_ipv4_host_spec host :
  parse_ipv4_host host =
    (let fs := split_on 46 host in if decide (length fs = 4)%nat then mapM parse_u8 fs else None).
Proof. apply parse_ipv4_host_eq. Qed.

(** ** What a parsed URL carries *)

Definition dec_port (prt : Z) : bytes := if decide (prt = 0) then [48] else dec_loop 16 prt [].
Definition port_suffix (tls : bool) (prt : Z) : bytes :=
  if decide (prt <> default_port tls) then 58 :: dec_port prt else [].
Definition request_path (src : bytes) : bytes :=
  match src with
  | [] => [47]
  | c :: _ => if decide (c = 63 \/ c = 35) then 47 :: src else src
  end.

(** [u] is the record for the given scheme, port, host and path source. *)
Record url_is (u : ParsedHttpUrl) (tls : bool) (prt : Z) (host src : bytes) : Prop := {
  ui_https : u.(https) = tls;
  ui_port : u.(port) = prt;
  ui_host : host_bytes u = host;
  ui_header : header_bytes u = host ++ port_suffix tls prt;
  ui_path : path_bytes u = request_path src;
  ui_ip : u.(ip) = default [0; 0; 0; 0] (parse_ipv4_host host);
  ui_dns : u.(needs_dns) = bool_decide (u.(ip) = [0; 0; 0; 0]);
  ui_arrays : length u.(host_for_dns) = 96%nat /\ length u.(host_header) = 96%nat /\
              length u.(path) = 160%nat;
  ui_lens : (1 <= u.(host_for_dns_len) <= 95)%nat /\ (u.(host_header_len) <= 95)%nat /\
            (u.(path_len) <= 159)%nat;
}.

Lemma put_port_spec hdr n tls prt :
  length hdr = 96%nat -> (n <= 95)%nat ->
  if decide (95 < n + length (port_suffix tls prt))%nat
  then put_port hdr n tls prt = Ret None
  else exists h, put_port hdr n tls prt = Ret (Some (h, (n + length (port_suffix tls prt))%nat)) /\
         length h = 96%nat /\
         take (n + length (port_suffix tls prt)) h = take n hdr ++ port_suffix tls prt.
Proof.
  intros Hl Hn. unfold put_port, port_suffix.
  destruct (decide (prt <> default_port tls)) as [Hp|Hp].
  - fold (dec_port prt). set (ds := dec_port prt). cbn [length].
    replace (n + S (length ds))%nat with (n + 1 + length ds)%nat by lia.
    destruct (decide (95 < _)%nat) as [H|H]; [done|].
    no_panic. eexists. split; [reflexivity|]. rewrite length_inserts, length_insert. split; [done|].
    rewrite inserts_split by (rewrite length_insert; lia).
    rewrite app_assoc, take_app_le by len.
    rewrite take_ge by len.
    replace (n + 1)%nat with (S n) by lia. by rewrite take_insert_snoc, <-app_assoc by lia.
  - cbn [length]. rewrite Nat.add_0_r, decide_False by lia.
    eexists. split; [reflexivity|]. by rewrite app_nil_r.
Qed.

Lemma put_path_spec src :
  (length (request_path src) <= 159)%nat ->
  exists p, put_path src = Ret (p, length (request_path src)) /\ length p = 160%nat /\
            take (length (request_path src)) p = request_path src.
Proof.
  assert (forall l : bytes, (length l <= 159)%nat ->
    take (length l) (list_inserts 0 l (replicate 160 0)) = l) as Hz.
  { intros l Hl. rewrite inserts_split by (rewrite length_replicate; lia).
    rewrite take_0, app_nil_l. by rewrite take_app_length. }
  intros H. destruct src as [|c src]; [by eexists|]. unfold put_path, request_path in *.
  case_decide.
  - rewrite wr_ok by (rewrite length_replicate; lia). rewrite bind_ret, copy_at_ok by len.
    rewrite bind_ret. eexists. split; [f_equal; f_equal; simpl; lia|].
    split; [by rewrite length_inserts, length_insert, length_replicate|].
    rewrite <-list_insert_inserts_lt by lia. apply (Hz (47 :: c :: src)). done.
  - rewrite copy_at_ok by (rewrite length_replicate; simpl in *; lia). rewrite bind_ret.
    eexists. split; [reflexivity|]. rewrite length_inserts, length_replicate. split; [done|].
    by apply Hz.
Qed.

Lemma finish_parse_spec host prt src tls :
  if decide (host = [] \/ (95 < length host)%nat \/ (159 < length (request_path src))%nat \/
             (95 < length (host ++ port_suffix tls prt))%nat)
  then finish_parse host prt src tls = Ret None
  else exists u, finish_parse host prt src tls = Ret (Some u) /\ url_is u tls prt host src.
Proof.
  unfold finish_parse.
  assert ((159 < length src + path_extra src)%nat <-> (159 < length (request_path src))%nat) as Hx.
  { destruct src as [|c src]; simpl; [lia|]. case_decide; simpl; lia. }
  destruct (decide (host = [] \/ (95 < length host)%nat \/ (159 < length src + path_extra src)%nat)) as [H1|H1].
  - rewrite Hx in H1. by rewrite decide_True by tauto.
  - rewrite Hx in H1. apply Decidable.not_or in H1 as [Hne [Hh Hp]%Decidable.not_or].
    assert (length host <> 0)%nat by (by destruct host).
    rewrite !copy_at_ok by len. rewrite !bind_ret.
    set (buf := list_inserts 0 host (replicate 96 0)).
    assert (length buf = 96%nat) as Hb by (unfold buf; len).
    assert (take (length host) buf = host) as Ht.
    { unfold buf. rewrite inserts_split by len. rewrite take_0, app_nil_l. by rewrite take_app_length. }
    rewrite length_app.
    pose proof (put_port_spec buf (length host) tls prt Hb ltac:(lia)) as Hpp.
    destruct (decide (95 < length host + _)%nat) as [H2|H2].
    { rewrite Hpp. by rewrite decide_True by tauto. }
    rewrite decide_False by tauto.
    destruct Hpp as (h & -> & Hl & Hh').
    destruct (put_path_spec src ltac:(lia)) as (p & -> & Hlp & Hp'). rewrite bind_ret.
    eexists. split; [reflexivity|].
    split; cbn; unfold host_bytes, header_bytes, path_bytes; cbn; try done.
    + by rewrite Hh', Ht.
    + lia.
Qed.

Lemma parse_port_spec s p q :
  parse_port p s = Some q -> 0 <= p <= 65535 -> digits s /\ q = dec_value p s /\ 0 <= q <= 65535.
Proof.
  revert p. induction s as [|c s IH]; intros p H Hp; cbn [parse_port] in H.
  { simplify_eq. split; [constructor|]. done. }
  destruct (is_digit c) eqn:Hc; [|done]. cbn [negb] in H. case_decide; [done|].
  pose proof Hc as Hc'. apply is_digit_spec in Hc'.
  apply IH in H as (Hd & -> & Hq); [|lia].
  split; [by constructor|]. done.
Qed.

Lemma parse_port_digits s p :
  digits s -> 0 <= p -> dec_value p s <= 65535 -> parse_port p s = Some (dec_value p s).
Proof.
  intros H. revert p. induction H as [|c s Hc Hs IH]; intros p Hp Hv; [done|].
  cbn [parse_port]. rewrite Hc. cbn [negb]. apply is_digit_spec in Hc.
  change (dec_value p (c :: s)) with (dec_value (p * 10 + (c - 48)) s) in *.
  pose proof (dec_value_ge (p * 10 + (c - 48)) s Hs ltac:(lia)).
  rewrite decide_False by lia. apply IH; lia.
Qed.

(** Either outcome of [parse_host_port_path] comes from [finish_parse]. *)
Definition url_result (tls : bool) (r : option ParsedHttpUrl) : Prop :=
  match r with
  | None => True
  | Some u => exists prt host src,
      url_is u tls prt host src /\ 0 <= prt <= 65535 /\
      exists c src', src = c :: src' /\ is_path_start c = true
  end.

Lemma finish_parse_result host prt c src tls :
  0 <= prt <= 65535 -> is_path_start c = true ->
  exists r, finish_parse host prt (c :: src) tls = Ret r /\ url_result tls r.
Proof.
  intros. pose proof (finish_parse_spec host prt (c :: src) tls) as H1.
  case_decide; [by eexists|]. destruct H1 as (u & -> & Hu).
  eexists. split; [reflexivity|]. cbn. eauto 10.
Qed.

Lemma parse_host_port_path_result rest dflt tls :
  0 <= dflt <= 65535 ->
  exists r, parse_host_port_path rest dflt tls = Ret r /\ url_result tls r.
Proof.
  intros Hd. unfold parse_host_port_path.
  set (i := span_len _ rest).
  destruct (decide (rest !! i = Some 58)) as [E|E].
  - pose proof (lookup_lt_Some _ _ _ E) as Hi.
    rewrite sub_ok by lia. rewrite bind_ret, slice_full.
    set (ps := drop (i + 1) rest). set (pe := span_len _ ps).
    case_decide as Hpe; [by eexists|].
    destruct (parse_port 0 (take pe ps)) as [prt|] eqn:Hport; [|by eexists].
    apply parse_port_spec in Hport as (_ & _ & Hprt); [|lia].
    pose proof (span_len_le (fun c => negb (is_path_start c)) ps) as Hple. fold pe in Hple.
    unfold ps in Hple. rewrite length_drop in Hple.
    rewrite sub_ok by lia. rewrite bind_ret, slice_full.
    destruct (drop (i + 1 + pe) rest) as [|c after]; [by apply finish_parse_result|].
    destruct (is_path_start c) eqn:Hc; [|by eexists]. by apply finish_parse_result.
  - assert (exists c src, (match (if decide (length rest <= i)%nat then [47] else drop i rest) with
        [] => [47] | _ => if decide (length rest <= i)%nat then [47] else drop i rest end) = c :: src
        /\ is_path_start c = true) as (c & src & Hsrc & Hc).
    { case_decide; [by exists 47, []|].
      destruct (rest !! i) as [c|] eqn:Ec; [|apply lookup_ge_None in Ec; lia].
      pose proof (span_len_next _ _ _ Ec) as Hstop. exists c, (drop (S i) rest).
      rewrite (drop_S _ c) by done. split; [done|].
      cbn in Hstop. unfold host_stop in Hstop.
      destruct (is_path_start c); [done|]. cbn in Hstop.
      destruct (Z.eqb_spec c 58); [congruence|done]. }
    rewrite Hsrc. by apply finish_parse_result.
Qed.

(** ** The parser is total and its records are well formed *)

Record url_wf (u : ParsedHttpUrl) : Prop := {
  uw_host : (1 <= length (host_bytes u) <= 95)%nat;
  uw_header : exists suffix, header_bytes u = host_bytes u ++ suffix /\ (length (header_bytes u) <= 95)%nat;
  uw_path : exists p, path_bytes u = 47 :: p /\ (length p <= 158)%nat;
  uw_port : 0 <= u.(port) <= 65535;
  uw_ip : length u.(ip) = 4%nat /\ is_bytes u.(ip);
  uw_dns : u.(needs_dns) = true <-> u.(ip) = [0; 0; 0; 0];
}.

Lemma parse_u8_range s v : parse_u8 s = Some v -> 0 <= v <= 255.
Proof.
  unfold parse_u8. case_decide; [done|].
  assert (forall l x, 0 <= x <= 255 -> parse_u8_loop x l = Some v -> 0 <= v <= 255) as Hl.
  { induction l as [|c l IH]; intros x Hx; cbn [parse_u8_loop]; [by intros [= <-]|].
    destruct (is_digit c) eqn:Hc; [|done]. cbn. case_decide; [done|].
    apply is_digit_spec in Hc. apply IH. lia. }
  apply Hl. lia.
Qed.

Lemma parse_ipv4_host_bytes host v :
  parse_ipv4_host host = Some v -> length v = 4%nat /\ is_bytes v.
Proof.
  rewrite parse_ipv4_host_eq. unfold ipv4_spec. case_decide as Hl; [|done]. intros Hm.
  split; [by rewrite <-Hl; symmetry; eapply length_mapM|].
  apply mapM_Some_1 in Hm. unfold is_bytes. apply Forall_forall. intros x Hx.
  apply list_elem_of_lookup in Hx as (i & Hx). destruct (Forall2_lookup_r _ _ _ _ _ Hm Hx) as (y & _ & Hy).
  apply parse_u8_range in Hy. unfold is_byte. lia.
Qed.

Lemma length_take_le (l : bytes) n : (length (take n l) <= n)%nat.
Proof. rewrite length_take. lia. Qed.

Lemma url_ip_length u tls prt host src : url_is u tls prt host src -> length u.(ip) = 4%nat.
Proof.
  intros Hu. rewrite (ui_ip _ _ _ _ _ Hu). destruct (parse_ipv4_host host) eqn:E; [|done].
  by apply parse_ipv4_host_bytes in E as [].
Qed.

Lemma url_result_wf tls r : url_result tls r -> from_option url_wf True r.
Proof.
  destruct r as [u|]; [|done]. intros (prt & host & src & Hu & Hp & c & src' & -> & Hc).
  destruct Hu as [? Hport Hhost Hhdr Hpath Hip Hdns (Ha & Hb & Hd) (Hl1 & Hl2 & Hl3)].
  split.
  - unfold host_bytes. rewrite length_take. lia.
  - exists (port_suffix tls prt). rewrite Hhost. split; [done|].
    unfold header_bytes. rewrite length_take. lia.
  - assert (exists p, request_path (c :: src') = 47 :: p) as (p & Hr).
    { unfold request_path. destruct (decide (c = 63 \/ c = 35)); [eauto|]. unfold is_path_start in Hc.
      rewrite !orb_true_iff, !Z.eqb_eq in Hc. assert (c = 47) as -> by lia. eauto. }
    exists p. rewrite Hpath. split; [done|].
    pose proof (f_equal length Hpath) as Hlen. unfold path_bytes in Hlen.
    rewrite length_take, Hr in Hlen. simpl in Hlen. lia.
  - by rewrite Hport.
  - rewrite Hip. destruct (parse_ipv4_host host) eqn:E; [by eapply parse_ipv4_host_bytes|].
    cbn. split; [done|]. repeat constructor; lia.
  - rewrite Hdns. apply bool_decide_eq_true.
Qed.

Lemma parse_fetch_url_result url :
  exists r tls, parse_fetch_url url = Ret r /\ url_result tls r.
Proof.
  unfold parse_fetch_url. destruct (starts_with_https _) as [rest|].
  { destruct (parse_host_port_path_result rest 443 true) as (r & -> & H); [lia|]. eauto. }
  destruct (starts_with_http _) as [rest|]; [|by exists None, false].
  destruct (parse_host_port_path_result rest 80 false) as (r & -> & H); [lia|]. eauto.
Qed.

(** On every input the parser returns (no slice or copy is out of range),
    and a record it returns is well formed. *)
Theorem parse_fetch_url_safe url :
  exists r, parse_fetch_url url = Ret r /\ from_option url_wf True r.
Proof. destruct (parse_fetch_url_result url) as (r & tls & E & H). eauto using url_result_wf. Qed.

(** ** Rendering a URL and parsing it back *)

Definition scheme (tls : bool) : bytes := if tls then P_https else P_http.
Definition render (tls : bool) (host : bytes) (prt : option Z) (pth : bytes) : bytes :=
  scheme tls ++ host ++ (match prt with Some p => 58 :: dec_port p | None => [] end) ++ pth.

Lemma rev_replicate_eq n (x : Z) : rev (replicate n x) = replicate n x.
Proof. induction n as [|n IH]; [done|]. cbn [replicate rev]. by rewrite IH, <-replicate_cons_app. Qed.

Lemma trim_padded a b x l y :
  x <> 32 -> last (x :: l) = Some y -> y <> 32 ->
  trim (replicate a 32 ++ (x :: l) ++ replicate b 32) = x :: l.
Proof.
  intros Hx Hl Hy. unfold trim, scan_while. rewrite drop_0.
  assert (forall n, Forall (fun c => is_space c = true) (replicate n 32)) as Hsp.
  { intros n. apply Forall_replicate. done. }
  cbn [app]. rewrite span_len_stop by (done || (unfold is_space; by apply Z.eqb_neq)).
  rewrite Nat.add_0_l, drop_app_length, app_comm_cons.
  apply last_Some in Hl as (l' & ->).
  rewrite rev_app_distr. rewrite rev_app_distr. cbn [rev app].
  rewrite rev_replicate_eq.
  rewrite span_len_stop by (done || (unfold is_space; by apply Z.eqb_neq)).
  rewrite length_app, Nat.add_sub. apply take_app_length.
Qed.

Lemma dec_port_spec p : 0 <= p <= 65535 ->
  digits (dec_port p) /\ parse_port 0 (dec_port p) = Some p /\ dec_port p <> [].
Proof.
  intros Hp. unfold dec_port. case_decide as H0.
  { subst. split; [by repeat constructor|]. done. }
  destruct (dec_loop_spec 16 p []) as (ds & -> & Hd & Hv & Hz & _); [lia|].
  rewrite app_nil_r. split; [done|]. split; [|by rewrite Hz].
  rewrite parse_port_digits by (done || lia). by rewrite Hv.
Qed.

Lemma starts_with_scheme tls rest :
  match tls with true => starts_with_https (P_https ++ rest) = Some rest
  | false => starts_with_https (P_http ++ rest) = None /\ starts_with_http (P_http ++ rest) = Some rest
  end.
Proof.
  destruct tls; unfold starts_with_https, starts_with_http.
  - by rewrite decide_False by (rewrite length_app; simpl; lia).
  - split; [by case_decide|]. by rewrite decide_False by (rewrite length_app; simpl; lia).
Qed.

Lemma digit_not_stop c : is_digit c = true -> is_path_start c = false /\ host_stop c = false.
Proof.
  rewrite is_digit_spec. unfold host_stop, is_path_start.
  intros H. rewrite !orb_false_iff, !Z.eqb_neq. lia.
Qed.

Lemma parse_host_port_path_render tls host prt p' :
  Forall (fun c => host_stop c = false) host -> from_option (fun p => 0 <= p <= 65535) True prt ->
  parse_host_port_path (host ++ (match prt with Some p => 58 :: dec_port p | None => [] end) ++ 47 :: p')
      (default_port tls) tls
    = finish_parse host (default (default_port tls) prt) (47 :: p') tls.
Proof.
  intros Hh Hp. unfold parse_host_port_path.
  assert (Forall (fun c => negb (host_stop c) = true) host) as Hh'.
  { eapply Forall_impl; [exact Hh|]. by intros ? ->. }
  destruct prt as [p|]; cbn [default].
  - destruct (dec_port_spec p Hp) as (Hd & Hpp & Hne). cbn [app].
    rewrite span_len_stop by done.
    rewrite decide_True by (by rewrite list_lookup_middle).
    assert (drop (length host + 1) (host ++ 58 :: dec_port p ++ 47 :: p') = dec_port p ++ 47 :: p') as Hdrop.
    { rewrite drop_app_ge by lia. by replace (length host + 1 - length host)%nat with 1%nat by lia. }
    rewrite sub_ok by len. rewrite bind_ret, slice_full, Hdrop.
    rewrite span_len_stop; [|eapply Forall_impl; [exact Hd|]; intros c Hc; cbn;
                             by destruct (digit_not_stop c Hc) as [-> _]|done].
    rewrite decide_False by (by destruct (dec_port p)).
    rewrite take_app_length, Hpp. rewrite sub_ok by len.
    rewrite bind_ret, slice_full, <-drop_drop, Hdrop, drop_app_length.
    by rewrite take_app_length.
  - cbn [app]. rewrite span_len_stop by done.
    rewrite list_lookup_middle by done. rewrite decide_False by done.
    rewrite decide_False by len. rewrite take_app_length.
    by rewrite drop_app_length.
Qed.

(** C29: a rendered URL, with any padding, parses back to its parts. *)
Theorem parse_fetch_url_render a b tls host prt p' :
  host <> [] -> Forall (fun c => host_stop c = false) host ->
  from_option (fun p => 0 <= p <= 65535) True prt ->
  last (47 :: p') <> Some 32 -> (length p' <= 158)%nat ->
  (length (host ++ port_suffix tls (default (default_port tls) prt)) <= 95)%nat ->
  exists u, parse_fetch_url (replicate a 32 ++ render tls host prt (47 :: p') ++ replicate b 32) = Ret (Some u)
         /\ url_is u tls (default (default_port tls) prt) host (47 :: p').
Proof.
  intros Hne Hh Hp Hlast Hlen Hhdr. unfold parse_fetch_url.
  assert (trim (replicate a 32 ++ render tls host prt (47 :: p') ++ replicate b 32)
          = render tls host prt (47 :: p')) as ->.
  { destruct (last (47 :: p')) as [y|] eqn:Hy; [|by apply last_None in Hy].
    assert (last (render tls host prt (47 :: p')) = Some y) as Hr.
    { unfold render. rewrite !app_assoc, last_app. by rewrite Hy. }
    destruct (render tls host prt (47 :: p')) as [|x l] eqn:Er; [done|].
    apply trim_padded with y; [|done|congruence].
    unfold render, scheme in Er. destruct tls; cbn in Er; congruence. }
  pose proof (finish_parse_spec host (default (default_port tls) prt) (47 :: p') tls) as Hf.
  rewrite decide_False in Hf.
  2:{ cbn [request_path length]. rewrite length_app in *. rewrite decide_False by lia. cbn [length].
      intros [?|[?|[?|?]]]; [done|lia..]. }
  unfold render. pose proof (starts_with_scheme tls) as Hs. destruct tls; cbn [scheme].
  - rewrite Hs. by rewrite (parse_host_port_path_render true).
  - specialize (Hs (host ++ match prt with Some p => 58 :: dec_port p | None => [] end ++ 47 :: p')).
    destruct Hs as [-> ->]. by rewrite (parse_host_port_path_render false).
Qed.

Lemma parse_fetch_url_render_witness :
  exists u, parse_fetch_url (bs "  http://10.0.2.2:8080/a?b=c ") = Ret (Some u)
         /\ url_is u false 8080 (bs "10.0.2.2") (bs "/a?b=c").
Proof.
  apply (parse_fetch_url_render 2 1 false (bs "10.0.2.2") (Some 8080) (bs "a?b=c"));
    by_decide.
Defined.
