(* ===== verification/ScriptVm.v ===== *)
(** * The in-house script VM ([kernel/src/script_runtime.rs])

    A 64-slot stack machine with two front ends: [run] on decoded [Op]s and
    [run_bytes] on the byte code that [run_page_eve_script] extracts from a
    page.  The host trait is the class [HostApi]; [NullHost] is its instance
    with the default methods.  [steps > step_limit] is the structural argument
    of the loops, so they need no other fuel. *)

From S2P Require Import Prelude.

Inductive Op :=
  | PushI32 (v : Z)
  | Add
  | Sub
  | Mul
  | Div
  | CallHost (id : Z)
  | OpRet.

Inductive VmError := BadOpcode | TruncatedImm | StepLimit.

(** [trait HostApi]: each method may change the host and returns an [i32]. *)
Class HostApi (H : Type) := {
  timer_set : H -> Z -> H * Z;
  fetch_start : H -> Z -> H * Z;
  storage_get : H -> Z -> H * Z;
  storage_set : H -> Z -> Z -> H * Z;
}.

(** What the trait's types promise of every implementation. *)
Class HostOk (H : Type) `{HostApi H} := {
  timer_set_i32 h x : is_i32 (timer_set h x).2;
  fetch_start_i32 h x : is_i32 (fetch_start h x).2;
  storage_get_i32 h x : is_i32 (storage_get h x).2;
  storage_set_i32 h x y : is_i32 (storage_set h x y).2;
}.

Inductive NullHost := null_host.
#[export] Instance NullHost_api : HostApi NullHost := {
  timer_set h _ := (h, -1);
  fetch_start h _ := (h, -1);
  storage_get h _ := (h, -1);
  storage_set h _ _ := (h, -1);
}.

Record Vm := { stack : list Z; sp : nat; pc : nat; step_limit : nat }.

Definition vm_new : Vm := {| stack := replicate 64 0; sp := 0; pc := 0; step_limit := 4096 |}.
Definition set_pc (vm : Vm) (n : nat) : Vm :=
  {| stack := vm.(stack); sp := vm.(sp); pc := n; step_limit := vm.(step_limit) |}.
Definition reset (vm : Vm) : Vm :=
  {| stack := vm.(stack); sp := 0; pc := 0; step_limit := vm.(step_limit) |}.
Definition set_step_limit (vm : Vm) (n : nat) : Vm :=
  {| stack := vm.(stack); sp := vm.(sp); pc := vm.(pc); step_limit := Nat.max n 1 |}.

(** A push on a full stack is dropped. *)
Definition push (vm : Vm) (v : Z) : rust Vm :=
  if decide (vm.(sp) < length vm.(stack))%nat then
    st ← wr vm.(stack) vm.(sp) v;
    Ret {| stack := st; sp := S vm.(sp); pc := vm.(pc); step_limit := vm.(step_limit) |}
  else Ret vm.

(** A pop on an empty stack is 0. *)
Definition pop (vm : Vm) : rust (Vm * Z) :=
  match vm.(sp) with
  | O => Ret (vm, 0)
  | S n =>
      let vm' := {| stack := vm.(stack); sp := n; pc := vm.(pc); step_limit := vm.(step_limit) |} in
      v ← rd vm.(stack) n; Ret (vm', v)
  end.

Definition wrapping_add (a b : Z) : Z := signed 32 (a + b).
Definition wrapping_sub (a b : Z) : Z := signed 32 (a - b).
Definition wrapping_mul (a b : Z) : Z := signed 32 (a * b).
(** [i32::wrapping_div] truncates; [MIN / -1] wraps to [MIN]. *)
Definition wrapping_div (a b : Z) : Z := signed 32 (Z.quot a b).

Definition binop (vm : Vm) (f : Z -> Z -> Z) : rust Vm :=
  '(vm, b) ← pop vm;
  '(vm, a) ← pop vm;
  push vm (f a b).

Section run.
Context {H : Type} `{HostApi H}.

Definition call_host (vm : Vm) (h : H) (id : Z) : rust (Vm * H * Z) :=
  if decide (id = 0) then
    '(vm, ms) ← pop vm;
    let '(h, r) := timer_set h (Z.max ms 0) in Ret (vm, h, r)
  else if decide (id = 1) then
    '(vm, url_id) ← pop vm;
    let '(h, r) := fetch_start h url_id in Ret (vm, h, r)
  else if decide (id = 2) then
    '(vm, key_id) ← pop vm;
    let '(h, r) := storage_get h key_id in Ret (vm, h, r)
  else if decide (id = 3) then
    '(vm, value_id) ← pop vm;
    '(vm, key_id) ← pop vm;
    let '(h, r) := storage_set h key_id value_id in Ret (vm, h, r)
  else Ret (vm, h, -1).

(** [exec_one], the interpreter of [run_bytes]. *)
Definition exec_one (vm : Vm) (op : Op) (h : H) : rust (Vm * H * option Z) :=
  match op with
  | PushI32 v => vm ← push vm v; Ret (vm, h, None)
  | Add => vm ← binop vm wrapping_add; Ret (vm, h, None)
  | Sub => vm ← binop vm wrapping_sub; Ret (vm, h, None)
  | Mul => vm ← binop vm wrapping_mul; Ret (vm, h, None)
  | Div =>
      '(vm, b) ← pop vm;
      '(vm, a) ← pop vm;
      vm ← push vm (if decide (b = 0) then 0 else wrapping_div a b);
      Ret (vm, h, None)
  | CallHost id =>
      '(vm, h, r) ← call_host vm h id;
      vm ← push vm r;
      Ret (vm, h, None)
  | OpRet => '(vm, v) ← pop vm; Ret (vm, h, Some v)
  end.

(** The match of [run]: the source writes every arm a second time here, and
    so does the model. *)
Definition run_arm (vm : Vm) (op : Op) (h : H) : rust (Vm * H * option Z) :=
  match op with
  | PushI32 v => vm ← push vm v; Ret (vm, h, None)
  | Add => vm ← binop vm wrapping_add; Ret (vm, h, None)
  | Sub => vm ← binop vm wrapping_sub; Ret (vm, h, None)
  | Mul => vm ← binop vm wrapping_mul; Ret (vm, h, None)
  | Div =>
      '(vm, b) ← pop vm;
      '(vm, a) ← pop vm;
      vm ← push vm (if decide (b = 0) then 0 else wrapping_div a b);
      Ret (vm, h, None)
  | CallHost id =>
      '(vm, h, ret) ←
        (if decide (id = 0) then
           '(vm, ms) ← pop vm;
           let '(h, r) := timer_set h (Z.max ms 0) in Ret (vm, h, r)
         else if decide (id = 1) then
           '(vm, url_id) ← pop vm;
           let '(h, r) := fetch_start h url_id in Ret (vm, h, r)
         else if decide (id = 2) then
           '(vm, key_id) ← pop vm;
           let '(h, r) := storage_get h key_id in Ret (vm, h, r)
         else if decide (id = 3) then
           '(vm, value_id) ← pop vm;
           '(vm, key_id) ← pop vm;
           let '(h, r) := storage_set h key_id value_id in Ret (vm, h, r)
         else Ret (vm, h, -1));
      vm ← push vm ret;
      Ret (vm, h, None)
  | OpRet => '(vm, v) ← pop vm; Ret (vm, h, Some v)
  end.

(** [run]: [budget] is [step_limit - steps]. *)
Fixpoint run_loop (budget : nat) (code : list Op) (vm : Vm) (h : H) : rust (Vm * H * Z) :=
  if decide (vm.(pc) < length code)%nat then
    match budget with
    | O => Ret (vm, h, 0)
    | S budget =>
        op ← rd code vm.(pc);
        '(vm, h, r) ← run_arm (set_pc vm (S vm.(pc))) op h;
        match r with
        | Some v => Ret (vm, h, v)
        | None => run_loop budget code vm h
        end
    end
  else Ret (vm, h, 0).

Definition run (vm : Vm) (code : list Op) (h : H) : rust (Vm * H * Z) :=
  run_loop vm.(step_limit) code (reset vm) h.

(** [decode_op code &mut pc] *)
Definition decode_op (code : bytes) (pc : nat) : rust (nat * (VmError + Op)) :=
  if decide (length code <= pc)%nat then Ret (pc, inl BadOpcode)
  else
    op ← rd code pc;
    let pc := S pc in
    if decide (op = 1) then
      if decide (length code < pc + 4)%nat then Ret (pc, inl TruncatedImm)
      else
        b0 ← rd code pc;
        b1 ← rd code (pc + 1);
        b2 ← rd code (pc + 2);
        b3 ← rd code (pc + 3);
        Ret ((pc + 4)%nat, inr (PushI32 (signed 32 (of_le [b0; b1; b2; b3]))))
    else if decide (op = 2) then Ret (pc, inr Add)
    else if decide (op = 3) then Ret (pc, inr Sub)
    else if decide (op = 4) then Ret (pc, inr Mul)
    else if decide (op = 5) then Ret (pc, inr Div)
    else if decide (op = 6) then
      if decide (length code <= pc)%nat then Ret (pc, inl TruncatedImm)
      else id ← rd code pc; Ret (S pc, inr (CallHost id))
    else if decide (op = 7) then Ret (pc, inr OpRet)
    else Ret (pc, inl BadOpcode).

Fixpoint run_bytes_loop (budget : nat) (code : bytes) (vm : Vm) (h : H)
  : rust (Vm * H * (VmError + Z)) :=
  if decide (vm.(pc) < length code)%nat then
    match budget with
    | O => Ret (vm, h, inl StepLimit)
    | S budget =>
        '(pc', op) ← decode_op code vm.(pc);
        match op with
        | inl e => Ret (set_pc vm pc', h, inl e)
        | inr op =>
            '(vm, h, r) ← exec_one (set_pc vm pc') op h;
            match r with
            | Some v => Ret (vm, h, inr v)
            | None => run_bytes_loop budget code vm h
            end
        end
    end
  else Ret (vm, h, inr 0).

Definition run_bytes (vm : Vm) (code : bytes) (h : H) : rust (Vm * H * (VmError + Z)) :=
  run_bytes_loop vm.(step_limit) code (reset vm) h.
End run.

(** ** The page marker *)

(** [lower] of this file: [b + 32] on ASCII capitals, as [to_lower]. *)
Definition lower (b : Z) : Z := to_lower b.

Fixpoint match_ci (hay needle : bytes) : bool :=
  match needle, hay with
  | [], _ => true
  | n :: needle', c :: hay' => if lower c =? lower n then match_ci hay' needle' else false
  | _ :: _, [] => false
  end.

(** The outer loop of [find_ci] over the start [i]. *)
Fixpoint find_ci_from (hay needle : bytes) (i : nat) : option nat :=
  if decide (length hay < length needle)%nat then None
  else if match_ci hay needle then Some i
  else match hay with [] => None | _ :: hay' => find_ci_from hay' needle (S i) end.

Definition find_ci (hay needle : bytes) : option nat :=
  if decide (needle = [] \/ (length hay < length needle)%nat) then None
  else find_ci_from hay needle 0.

Definition hex_nybble (b : Z) : option Z :=
  if (48 <=? b) && (b <=? 57) then Some (b - 48)
  else if (97 <=? b) && (b <=? 102) then Some (b - 97 + 10)
  else if (65 <=? b) && (b <=? 70) then Some (b - 65 + 10)
  else None.

Definition is_ws (b : Z) : bool := (b =? 32) || (b =? 9) || (b =? 13) || (b =? 10).

(** The hex-pair loop: [room] is [code.len() - len]. *)
Fixpoint hex_pairs (room : nat) (raw : bytes) : bytes :=
  match room, raw with
  | S room, a :: b :: raw' =>
      match hex_nybble a, hex_nybble b with
      | Some hi, Some lo => wrap8 (Z.lor (Z.shiftl hi 4) lo) :: hex_pairs room raw'
      | _, _ => []
      end
  | _, _ => []
  end.

Definition marker : bytes := Eval vm_compute in bs "eve-script:".

Definition run_page_eve_script (raw : bytes) (enabled : bool) : rust (option (VmError + Z)) :=
  if negb enabled then Ret None
  else match find_ci raw marker with
  | None => Ret None
  | Some at_ =>
      let i := scan_while is_ws raw (at_ + length marker) in
      let code := hex_pairs 256 (drop i raw) in
      if decide (length code = 0)%nat then Ret (Some (inl TruncatedImm))
      else
        '(_, _, r) ← run_bytes vm_new code null_host;
        Ret (Some r)
  end.

(** ** The machine invariant, and safety of every step *)

Record vm_wf (vm : Vm) : Prop := {
  vw_len : length vm.(stack) = 64%nat;
  vw_sp : (vm.(sp) <= 64)%nat;
  vw_i32 : Forall is_i32 vm.(stack);
}.

Definition op_wf (op : Op) : Prop :=
  match op with PushI32 v => is_i32 v | CallHost id => is_byte id | _ => True end.

(** [vm'] differs from [vm] in its stack only. *)
Definition same_pc (vm vm' : Vm) : Prop := vm'.(pc) = vm.(pc) /\ vm'.(step_limit) = vm.(step_limit).

Lemma signed32_i32 z : is_i32 (signed 32 z).
Proof.
  unfold is_i32, signed, wrap. pose proof (Z.mod_pos_bound z (2 ^ 32)). case_decide; lia.
Qed.

Lemma signed32_id z : is_i32 z -> signed 32 z = z.
Proof.
  unfold is_i32, signed, wrap. intros Hz. destruct (decide (0 <= z)).
  - rewrite Z.mod_small by lia. case_decide; lia.
  - assert (z mod 2 ^ 32 = z + 2 ^ 32) as ->.
    { symmetry. apply (Zmod_unique _ _ (-1)); lia. }
    case_decide; lia.
Qed.
#[export] Hint Resolve signed32_i32 : eve.

Lemma set_pc_wf vm n : vm_wf vm -> vm_wf (set_pc vm n).
Proof. intros []. by split. Qed.
Lemma reset_wf vm : vm_wf vm -> vm_wf (reset vm).
Proof. intros []. split; simpl; [done|lia|done]. Qed.
Lemma vm_new_wf : vm_wf vm_new.
Proof. split; simpl; [done|lia|]. by_decide. Qed.
#[export] Hint Resolve set_pc_wf reset_wf vm_new_wf : eve.

Lemma push_ok vm v :
  vm_wf vm -> is_i32 v -> exists vm', push vm v = Ret vm' /\ vm_wf vm' /\ same_pc vm vm'.
Proof.
  intros [Hl Hs Hi] Hv. unfold push. case_decide; [|eexists; split; [done|]; by split].
  rewrite wr_ok by lia. rewrite bind_ret. eexists. split; [done|].
  split; [|done]. split; simpl; [by rewrite length_insert|lia|by apply Forall_insert].
Qed.

Lemma pop_ok vm :
  vm_wf vm -> exists vm' v, pop vm = Ret (vm', v) /\ vm_wf vm' /\ is_i32 v /\ same_pc vm vm'.
Proof.
  intros [Hl Hs Hi]. unfold pop. destruct (sp vm) as [|n] eqn:E.
  - exists vm, 0. split; [done|]. split; [by split; rewrite ?E|]. split; [unfold is_i32; lia|done].
  - assert (is_Some (stack vm !! n)) as [v Hv] by (apply lookup_lt_is_Some; lia).
    rewrite (rd_lookup _ _ _ Hv), bind_ret. do 2 eexists. split; [done|].
    split; [split; simpl; [done|lia|done]|]. split; [|done].
    by apply (Forall_lookup_1 _ _ _ _ Hi Hv).
Qed.

(** Steps through a monadic chain, discharging each [pop]/[push] in turn. *)
Ltac vm_steps :=
  repeat match goal with
  | |- context [pop ?vm ≫= _] =>
      let vm' := fresh "vm" in let v := fresh "v" in
      destruct (pop_ok vm) as (vm' & v & -> & ? & ? & []); [by eauto with eve|];
      rewrite bind_ret
  | |- context [push ?vm ?v ≫= _] =>
      let vm' := fresh "vm" in
      destruct (push_ok vm v) as (vm' & -> & ? & []); [by eauto with eve|by eauto with eve|];
      rewrite bind_ret
  end.

Section safety.
Context {H : Type} `{HostOk H}.

Lemma binop_ok vm f :
  vm_wf vm -> (forall a b, is_i32 (f a b)) ->
  exists vm', binop vm f = Ret vm' /\ vm_wf vm' /\ same_pc vm vm'.
Proof.
  intros Hw Hf. unfold binop. vm_steps.
  destruct (push_ok vm1 (f v0 v)) as (vm' & -> & ? & []); auto.
  eexists. split; [done|]. split; [done|]. split; congruence.
Qed.

Lemma call_host_ok vm h id :
  vm_wf vm -> exists vm' h' r, call_host vm h id = Ret (vm', h', r) /\
    vm_wf vm' /\ is_i32 r /\ same_pc vm vm'.
Proof.
  intros Hw. unfold call_host. repeat case_decide; vm_steps.
  - pose proof (timer_set_i32 h (Z.max v 0)). destruct (timer_set h _).
    do 3 eexists. split_and!; eauto; split; congruence.
  - pose proof (fetch_start_i32 h v). destruct (fetch_start h _).
    do 3 eexists. split_and!; eauto; split; congruence.
  - pose proof (storage_get_i32 h v). destruct (storage_get h _).
    do 3 eexists. split_and!; eauto; split; congruence.
  - pose proof (storage_set_i32 h v0 v). destruct (storage_set h _ _).
    do 3 eexists. split_and!; eauto; split; congruence.
  - do 3 eexists. split; [done|]. split; [done|]. split; [unfold is_i32; lia|done].
Qed.

Lemma exec_one_ok vm op h :
  vm_wf vm -> op_wf op -> exists vm' h' r, exec_one vm op h = Ret (vm', h', r) /\
    vm_wf vm' /\ from_option is_i32 True r /\ same_pc vm vm'.
Proof.
  intros Hw Ho.
  assert (forall f, (forall a b, is_i32 (f a b)) -> exists vm' h' r,
    (vm ← binop vm f; Ret (vm, h, @None Z)) = Ret (vm', h', r) /\
    vm_wf vm' /\ from_option is_i32 True r /\ same_pc vm vm') as Hbin.
  { intros f Hf. destruct (binop_ok vm f Hw Hf) as (vm' & -> & ? & ?). rewrite bind_ret.
    do 3 eexists. split_and!; [reflexivity|done|exact I|done]. }
  destruct op; cbn [exec_one op_wf] in *; try (apply Hbin; intros; apply signed32_i32).
  - destruct (push_ok vm v) as (vm' & -> & ? & ?); auto. rewrite bind_ret.
    do 3 eexists. split_and!; [reflexivity|done|exact I|done].
  - vm_steps.
    destruct (push_ok vm1 (if decide (v = 0) then 0 else wrapping_div v0 v)) as (vm' & -> & ? & []); auto.
    { case_decide; [unfold is_i32; lia|apply signed32_i32]. }
    rewrite bind_ret. do 3 eexists. split_and!; [reflexivity|done|exact I|split; congruence].
  - destruct (call_host_ok vm h id Hw) as (vm' & h' & r & -> & ? & ? & []). rewrite bind_ret.
    vm_steps. do 3 eexists. split_and!; [reflexivity|done|exact I|split; congruence].
  - vm_steps. do 3 eexists. split_and!; [reflexivity|done|done|split; congruence].
Qed.

Lemma decode_op_ok code n :
  (n < length code)%nat -> is_bytes code ->
  exists n' r, decode_op code n = Ret (n', r) /\ (n < n' <= length code)%nat /\
    match r with inl e => e <> StepLimit | inr op => op_wf op end.
Proof.
  intros Hn Hb. unfold decode_op. rewrite decide_False by lia. rewrite (rd_ok code n) by lia. rewrite bind_ret.
  assert (forall i, (i < length code)%nat -> is_byte (code !!! i)) as Hrd.
  { intros i Hi. apply (Forall_lookup_total_1 _ _ _ Hb Hi). }
  repeat case_decide; no_panic; do 2 eexists; (split; [reflexivity|]);
    (split; [lia|]); cbn; try done; auto with eve.
  apply Hrd. lia.
Qed.

Lemma run_bytes_loop_ok budget code vm h :
  is_bytes code -> vm_wf vm ->
  exists vm' h' r, run_bytes_loop budget code vm h = Ret (vm', h', r) /\ vm_wf vm' /\
    match r with
    | inr v => is_i32 v
    | inl e => (length code <= vm.(pc) + budget)%nat -> e <> StepLimit
    end.
Proof.
  intros Hb. revert vm h. induction budget as [|budget IH]; intros vm h Hw; cbn [run_bytes_loop];
    (case_decide as Hpc; [|do 3 eexists; split; [done|]; split; [done|]; unfold is_i32; lia]).
  { do 3 eexists. split; [done|]. split; [done|]. lia. }
  destruct (decode_op_ok code (pc vm) Hpc Hb) as (n' & r & -> & Hn & Hr). rewrite bind_ret.
  destruct r as [e|op].
  { do 3 eexists. split; [done|]. split; [by apply set_pc_wf|]. done. }
  destruct (exec_one_ok (set_pc vm n') op h) as (vm' & h' & r & -> & Hw' & Hi & [Hpc' _]); auto with eve.
  rewrite bind_ret. destruct r as [v|]; [by eauto 10|].
  destruct (IH vm' h' Hw') as (vm2 & h2 & r & -> & Hw2 & Hr2).
  do 3 eexists. split; [done|]. split; [done|]. destruct r; [|done].
  cbn in Hpc'. intros. apply Hr2. lia.
Qed.

(** Any byte string run by any host, from any well-formed machine: no
    panic (no stack or code access is out of range), the machine stays well
    formed, and a value it returns is an [i32]. *)
Theorem run_bytes_safe vm code h :
  is_bytes code -> vm_wf vm ->
  exists vm' h' r, run_bytes vm code h = Ret (vm', h', r) /\ vm_wf vm' /\
    (forall v, r = inr v -> is_i32 v) /\
    ((length code <= vm.(step_limit))%nat -> r <> inl StepLimit).
Proof.
  intros Hb Hw. unfold run_bytes.
  destruct (run_bytes_loop_ok (step_limit vm) code (reset vm) h) as (vm' & h' & r & -> & Hw' & Hr);
    auto with eve.
  do 3 eexists. split; [done|]. split; [done|].
  destruct r; cbn in Hr; (split; [intros; simplify_eq; auto|]); intros; naive_solver.
Qed.
End safety.

#[export] Instance NullHost_ok : HostOk NullHost.
Proof. split; intros; unfold is_i32; cbn; lia. Qed.

(** ** Page scripts *)

Lemma hex_nybble_range b v : hex_nybble b = Some v -> 0 <= v < 16.
Proof.
  unfold hex_nybble. intros H.
  destruct (_ && _) eqn:E1; [simplify_eq; lia|].
  destruct (_ && _) eqn:E2 in H; [simplify_eq; lia|].
  destruct (_ && _) eqn:E3 in H; [simplify_eq; lia|]. done.
Qed.

Lemma hex_pairs_ok room raw :
  is_bytes (hex_pairs room raw) /\ (length (hex_pairs room raw) <= room)%nat.
Proof.
  revert raw. induction room as [|room IH]; intros raw; cbn [hex_pairs]; [split; [constructor|done]|].
  destruct raw as [|a [|b raw]]; [split; [constructor|simpl; lia]..|].
  destruct (hex_nybble a), (hex_nybble b); try (split; [constructor|simpl; lia]).
  destruct (IH raw). split; [|simpl; lia]. constructor; [|done].
  unfold is_byte, wrap. pose proof (Z.mod_pos_bound (Z.lor (z ≪ 4) z0) (2 ^ 8)). lia.
Qed.

(** C37: a page script always terminates within its 4096 steps: whatever the
    page holds, the call returns, never with a panic and never with
    [StepLimit]; no marker or a disabled VM gives no result. *)
Theorem run_page_eve_script_total raw enabled :
  exists r, run_page_eve_script raw enabled = Ret r /\
    r <> Some (inl StepLimit) /\
    (forall v, r = Some (inr v) -> is_i32 v) /\
    (r = None <-> enabled = false \/ find_ci raw marker = None).
Proof.
  unfold run_page_eve_script. destruct enabled; cbn [negb].
  2:{ exists None. split_and!; try done. tauto. }
  destruct (find_ci raw marker) as [p|]; [|exists None; split_and!; try done; tauto].
  pose proof (hex_pairs_ok 256 (drop (scan_while is_ws raw (p + length marker)) raw)) as Hc.
  revert Hc. generalize (hex_pairs 256 (drop (scan_while is_ws raw (p + length marker)) raw)).
  intros code [Hb Hl]. case_decide.
  { eexists. split_and!; [done..|]. split; [done|]. by intros [|]. }
  destruct (run_bytes_safe vm_new code null_host Hb vm_new_wf) as (vm' & h' & r & E & _ & Hv & Hs).
  rewrite E, bind_ret. eexists. split; [reflexivity|].
  assert (r <> inl StepLimit) by (apply Hs; cbn; lia).
  split_and!; [congruence|naive_solver|]. split; [done|]. by intros [|].
Qed.

(** ** The byte code is the [Op] code *)

Definition encode_op (op : Op) : bytes :=
  match op with
  | PushI32 v => 1 :: to_le 4 v
  | Add => [2]
  | Sub => [3]
  | Mul => [4]
  | Div => [5]
  | CallHost id => [6; id]
  | OpRet => [7]
  end.

Definition assemble (ops : list Op) : bytes := mbind encode_op ops.

Lemma encode_op_nonempty op : (0 < length (encode_op op))%nat.
Proof. destruct op; cbn; lia. Qed.

Lemma decode_encode_op op a b :
  op_wf op ->
  decode_op (a ++ encode_op op ++ b) (length a) = Ret (length (a ++ encode_op op), inr op).
Proof.
  intros Hw. unfold decode_op.
  assert (forall n x l, encode_op op ++ b = l -> l !! n = Some x ->
    rd (a ++ encode_op op ++ b) (length a + n) = Ret x) as Hrd.
  { intros n x l E Hx. apply rd_lookup. rewrite lookup_app_r by lia.
    replace (length a + n - length a)%nat with n by lia. by rewrite E. }
  pose proof (encode_op_nonempty op). rewrite decide_False by (rewrite !length_app; lia).
  pose proof (Hrd 0%nat) as H0. rewrite Nat.add_0_r in H0.
  destruct op; cbn [encode_op app] in *;
    (erewrite H0; [|reflexivity|reflexivity]); rewrite bind_ret; cbn [decide];
    repeat (rewrite decide_False by done); rewrite decide_True by done;
    try (rewrite length_app; f_equal; f_equal; simpl; lia).
  - rewrite decide_False by (rewrite length_app; simpl; lia).
    rewrite <-Nat.add_1_r, <-!Nat.add_assoc.
    cbn [Nat.add].
    rewrite (Hrd 1%nat _ _ eq_refl eq_refl), bind_ret, (Hrd 2%nat _ _ eq_refl eq_refl), bind_ret,
      (Hrd 3%nat _ _ eq_refl eq_refl), bind_ret, (Hrd 4%nat _ _ eq_refl eq_refl), bind_ret.
    rewrite length_app. cbn [length to_le].
    replace (length a + (1 + 4))%nat with (length a + 5)%nat by lia.
    do 4 f_equal.
    change [_; _; _; _] with (to_le 4 v). rewrite of_le_to_le.
    unfold signed, wrap. change (256 ^ Z.of_nat 4) with (2 ^ 32).
    rewrite Z.mod_mod by lia. apply (signed32_id v Hw).
  - rewrite decide_False by (rewrite length_app; simpl; lia).
    replace (S (length a)) with (length a + 1)%nat by lia.
    rewrite (Hrd 1%nat _ _ eq_refl eq_refl).
    rewrite bind_ret, length_app. do 2 f_equal. simpl. lia.
Qed.

(** ** A reference machine

    The stack is a list with its top first; at most 64 values are kept, an
    empty stack reads as 0. *)

(** The 32-bit operations, written out. *)
Definition arith (op : Op) (a b : Z) : Z :=
  match op with
  | Add => signed 32 (a + b)
  | Sub => signed 32 (a - b)
  | Mul => signed 32 (a * b)
  | Div => if decide (b = 0) then 0 else signed 32 (Z.quot a b)
  | _ => 0
  end.

Definition st_push (v : Z) (st : list Z) : list Z :=
  if decide (length st < 64)%nat then v :: st else st.

Section reference.
Context {H : Type} `{HostApi H}.

Definition ref_host (id : Z) (st : list Z) (h : H) : list Z * (H * Z) :=
  let x := hd 0 st in
  if decide (id = 0) then (tl st, timer_set h (Z.max x 0))
  else if decide (id = 1) then (tl st, fetch_start h x)
  else if decide (id = 2) then (tl st, storage_get h x)
  else if decide (id = 3) then (tl (tl st), storage_set h (hd 0 (tl st)) x)
  else (st, (h, -1)).

Definition ref_step (op : Op) (st : list Z) (h : H) : list Z * H * option Z :=
  match op with
  | PushI32 v => (st_push v st, h, None)
  | CallHost id => let '(st, (h, r)) := ref_host id st h in (st_push r st, h, None)
  | OpRet => (tl st, h, Some (hd 0 st))
  | _ => (st_push (arith op (hd 0 (tl st)) (hd 0 st)) (tl (tl st)), h, None)
  end.

(** At most [limit] instructions; no result when there are more. *)
Fixpoint ref_run (limit : nat) (ops : list Op) (st : list Z) (h : H) : list Z * H * option Z :=
  match ops, limit with
  | [], _ => (st, h, Some 0)
  | _ :: _, O => (st, h, None)
  | op :: ops, S limit =>
      match ref_step op st h with
      | (st, h, None) => ref_run limit ops st h
      | done => done
      end
  end.
End reference.

(** The machine's stack is the list [st]. *)
Record holds (vm : Vm) (st : list Z) : Prop := {
  ho_len : length vm.(stack) = 64%nat;
  ho_sp : vm.(sp) = length st;
  ho_max : (length st <= 64)%nat;
  ho_live : take vm.(sp) vm.(stack) = reverse st;
}.

Lemma holds_set_pc vm st n : holds vm st -> holds (set_pc vm n) st.
Proof. intros []. by split. Qed.

Lemma push_holds vm st v :
  holds vm st -> exists vm', push vm v = Ret vm' /\ holds vm' (st_push v st) /\ same_pc vm vm'.
Proof.
  intros [Hl Hs Hm Ht]. unfold push, st_push. rewrite Hl, <-Hs.
  case_decide; [|eexists; split; [done|]; split; [by split|done]].
  rewrite wr_ok, bind_ret by lia. eexists. split; [done|]. split; [|done].
  split; cbn; [by rewrite length_insert|by rewrite Hs|lia|].
  rewrite take_insert_snoc by lia. by rewrite Ht, <-reverse_cons.
Qed.

Lemma pop_holds vm st :
  holds vm st -> exists vm', pop vm = Ret (vm', hd 0 st) /\ holds vm' (tl st) /\ same_pc vm vm'.
Proof.
  intros [Hl Hs Hm Ht]. unfold pop. destruct st as [|x st]; cbn in Hs |- *; rewrite Hs.
  { eexists. split; [done|]. split; [by split|done]. }
  rewrite Hs in Ht. cbn in Hm.
  assert (is_Some (stack vm !! length st)) as [y Hy] by (apply lookup_lt_is_Some; lia).
  rewrite (take_S_r _ _ y Hy), reverse_cons in Ht. apply app_inj_2 in Ht as [Ht ?]; [|done].
  simplify_eq. rewrite (rd_lookup _ _ _ Hy), bind_ret. eexists. split; [done|].
  split; [split; cbn; [done|done|lia|done]|done].
Qed.

(** The arms of both interpreters: pops and pushes in turn. *)
Ltac ref_arms :=
  rewrite ?bind_ret;
  repeat match goal with
  | Hh : holds ?vm _ |- context [pop ?vm ≫= _] =>
      let vm' := fresh "vm" in
      destruct (pop_holds vm _ Hh) as (vm' & -> & ? & []); rewrite bind_ret
  | Hh : holds ?vm _ |- context [push ?vm ?v ≫= _] =>
      let vm' := fresh "vm" in
      destruct (push_holds vm _ v Hh) as (vm' & -> & ? & []); rewrite bind_ret
  | |- context [let '(_, _) := ?x in _] => destruct x; rewrite ?bind_ret
  end;
  eexists; split; [reflexivity|]; split; [eassumption|congruence].

Section simulation.
Context {H : Type} `{HostApi H}.

Lemma binop_holds vm st f :
  holds vm st -> exists vm', binop vm f = Ret vm' /\
    holds vm' (st_push (f (hd 0 (tl st)) (hd 0 st)) (tl (tl st))) /\ pc vm' = pc vm.
Proof.
  intros Hh. unfold binop.
  destruct (pop_holds vm st Hh) as (vm1 & -> & H1 & [P1 _]). rewrite bind_ret.
  destruct (pop_holds vm1 _ H1) as (vm2 & -> & H2 & [P2 _]). rewrite bind_ret.
  destruct (push_holds vm2 _ (f (hd 0 (tl st)) (hd 0 st)) H2) as (vm3 & -> & H3 & [P3 _]).
  exists vm3. split; [done|]. split; [done|congruence].
Qed.

(** What an interpreter does is what the reference does. *)
Definition refines (exec : Vm -> Op -> H -> rust (Vm * H * option Z)) : Prop :=
  forall vm op h st, holds vm st ->
  exists vm', exec vm op h = Ret (vm', (ref_step op st h).1.2, (ref_step op st h).2) /\
    holds vm' (ref_step op st h).1.1 /\ pc vm' = pc vm.

Lemma exec_one_refines : refines exec_one.
Proof.
  intros vm op h st Hh.
  destruct op; cbn [exec_one ref_step arith fst snd];
    try match goal with |- context [binop vm ?f] =>
      destruct (binop_holds vm st f Hh) as (vm' & -> & ? & ?); rewrite bind_ret; exists vm';
      by split_and!
    end; [ref_arms..|unfold call_host, ref_host; repeat case_decide; ref_arms|ref_arms].
Qed.

Lemma run_arm_refines : refines run_arm.
Proof.
  intros vm op h st Hh.
  destruct op; cbn [run_arm ref_step arith fst snd];
    try match goal with |- context [binop vm ?f] =>
      destruct (binop_holds vm st f Hh) as (vm' & -> & ? & ?); rewrite bind_ret; exists vm';
      by split_and!
    end; [ref_arms..|unfold ref_host; repeat case_decide; ref_arms|ref_arms].
Qed.

Lemma assemble_app ops ops' : assemble (ops ++ ops') = assemble ops ++ assemble ops'.
Proof. apply bind_app. Qed.

Lemma assemble_cons op ops : assemble (op :: ops) = encode_op op ++ assemble ops.
Proof. done. Qed.

Lemma run_loop_refines limit pre rest vm h st :
  holds vm st -> vm.(pc) = length pre ->
  exists vm', run_loop limit (pre ++ rest) vm h =
      Ret (vm', (ref_run limit rest st h).1.2, default 0 (ref_run limit rest st h).2) /\
    holds vm' (ref_run limit rest st h).1.1.
Proof.
  revert pre rest vm h st. induction limit as [|limit IH]; intros pre [|op rest] vm h st Hh Hpc;
    cbn [run_loop ref_run]; rewrite Hpc, ?app_nil_r.
  1,3: rewrite decide_False by lia; by eexists.
  { rewrite decide_True by len. by eexists. }
  rewrite decide_True by len.
  rewrite (rd_lookup _ _ op), bind_ret by (by rewrite list_lookup_middle).
  destruct (run_arm_refines (set_pc vm (S (length pre))) op h st) as (vm1 & -> & Ho1 & P1);
    [by apply holds_set_pc|].
  rewrite bind_ret. destruct (ref_step op st h) as [[st1 h1] [v|]]; cbn in *; [by eexists|].
  replace (pre ++ op :: rest) with ((pre ++ [op]) ++ rest) by (by rewrite <-app_assoc).
  apply IH; [done|len].
Qed.

Lemma run_bytes_loop_refines limit pre rest vm h st :
  Forall op_wf rest -> holds vm st -> vm.(pc) = length (assemble pre) ->
  exists vm', run_bytes_loop limit (assemble (pre ++ rest)) vm h =
      Ret (vm', (ref_run limit rest st h).1.2,
           from_option inr (inl StepLimit) (ref_run limit rest st h).2) /\
    holds vm' (ref_run limit rest st h).1.1.
Proof.
  revert pre rest vm h st. induction limit as [|limit IH]; intros pre [|op rest] vm h st Hw Hh Hpc;
    cbn [run_bytes_loop ref_run]; rewrite Hpc, ?app_nil_r, ?assemble_app, ?assemble_cons.
  1,3: rewrite decide_False by lia; by eexists.
  { pose proof (encode_op_nonempty op). rewrite decide_True by (rewrite !length_app; lia). by eexists. }
  pose proof (encode_op_nonempty op). apply Forall_cons in Hw as [Hop Hw].
  rewrite decide_True by (rewrite !length_app; lia). rewrite decode_encode_op, bind_ret by done.
  destruct (exec_one_refines (set_pc vm (length (assemble pre ++ encode_op op))) op h st)
    as (vm1 & -> & Ho1 & P1); [by apply holds_set_pc|].
  rewrite bind_ret. destruct (ref_step op st h) as [[st1 h1] [v|]]; cbn in *; [by eexists|].
  replace (assemble pre ++ encode_op op ++ assemble rest) with (assemble ((pre ++ [op]) ++ rest))
    by (by rewrite !assemble_app, assemble_cons, app_nil_r, <-app_assoc).
  apply IH; [done..|]. by rewrite P1, assemble_app, assemble_cons, app_nil_r.
Qed.

(** C31: both runners of the VM, [run] on instructions and [run_bytes] on
    their byte code, compute the reference machine: a list as stack, the
    32-bit operations written out, the host called with the values on the
    stack.  The two agree on the calls of the host, the final stack and the
    value; a program with more instructions than the step limit lets run
    ends as 0 in [run] and as [StepLimit] in [run_bytes]. *)
Theorem run_bytes_assemble vm ops h :
  length vm.(stack) = 64%nat -> Forall op_wf ops ->
  exists vm1 vm2 st h' r, ref_run vm.(step_limit) ops [] h = (st, h', r) /\
    run vm ops h = Ret (vm1, h', default 0 r) /\ holds vm1 st /\
    run_bytes vm (assemble ops) h = Ret (vm2, h', from_option inr (inl StepLimit) r) /\ holds vm2 st.
Proof.
  intros Hl Hw.
  assert (holds (reset vm) []) as Hh by (split; cbn; [done|done|lia|done]).
  destruct (run_loop_refines (step_limit vm) [] ops (reset vm) h [] Hh eq_refl) as (vm1 & E1 & Ho1).
  destruct (run_bytes_loop_refines (step_limit vm) [] ops (reset vm) h [] Hw Hh eq_refl)
    as (vm2 & E2 & Ho2).
  cbn [app] in E1, E2. unfold run, run_bytes. rewrite E1, E2.
  destruct (ref_run (step_limit vm) ops [] h) as [[st h'] r]. exists vm1, vm2, st, h', r. by split_and!.
Qed.
End simulation.

Definition demo_ops : list Op := [PushI32 7; PushI32 (-2); Mul; PushI32 5; CallHost 3; Sub; OpRet].

Lemma run_bytes_assemble_witness :
  exists vm1 vm2 st h' r, ref_run 4096 demo_ops [] null_host = (st, h', r) /\
    run vm_new demo_ops null_host = Ret (vm1, h', default 0 r) /\ holds vm1 st /\
    run_bytes vm_new (assemble demo_ops) null_host = Ret (vm2, h', from_option inr (inl StepLimit) r) /\
    holds vm2 st.
Proof.
  apply (run_bytes_assemble vm_new demo_ops null_host).
  - reflexivity.
  - repeat constructor; unfold op_wf, is_i32, is_byte; lia.
Defined.

Example demo_value :
  (ref_run 4096 demo_ops [] null_host).2 = Some 1 /\ (ref_run 6 demo_ops [] null_host).2 = None.
Proof. split; vm_compute; reflexivity. Qed.

(** ** Arithmetic expressions *)

Inductive expr := Num (v : Z) | Bin (op : Op) (a b : expr).

Definition arith_op (op : Op) : bool :=
  match op with Add | Sub | Mul | Div => true | _ => false end.

Fixpoint eval (e : expr) : Z :=
  match e with Num v => v | Bin op a b => arith op (eval a) (eval b) end.
Fixpoint compile (e : expr) : list Op :=
  match e with Num v => [PushI32 v] | Bin op a b => compile a ++ compile b ++ [op] end.
Fixpoint depth (e : expr) : nat :=
  match e with Num _ => 1 | Bin _ a b => Nat.max (depth a) (S (depth b)) end.
Fixpoint arith_expr (e : expr) : bool :=
  match e with Num _ => true | Bin op a b => arith_op op && arith_expr a && arith_expr b end.

Lemma depth_pos e : (0 < depth e)%nat.
Proof. induction e; cbn; lia. Qed.

(** The live part of the stack. *)
Definition live (vm : Vm) : list Z := take vm.(sp) vm.(stack).

Lemma push_live vm v :
  (vm.(sp) < length vm.(stack))%nat ->
  exists vm', push vm v = Ret vm' /\ live vm' = live vm ++ [v] /\ vm'.(sp) = S vm.(sp) /\
              length vm'.(stack) = length vm.(stack) /\ same_pc vm vm'.
Proof.
  intros Hs. unfold push, live. rewrite decide_True, wr_ok, bind_ret by lia.
  eexists. split; [done|]. cbn. rewrite take_insert_snoc, length_insert by lia. done.
Qed.

Lemma pop_live vm l v :
  live vm = l ++ [v] -> (vm.(sp) <= length vm.(stack))%nat ->
  exists vm', pop vm = Ret (vm', v) /\ live vm' = l /\ vm.(sp) = S vm'.(sp) /\
              vm'.(stack) = vm.(stack) /\ same_pc vm vm'.
Proof.
  unfold live, pop. intros Hl Hs.
  pose proof (f_equal length Hl) as Hn. rewrite length_take, length_app in Hn. cbn in Hn.
  destruct (sp vm) as [|n] eqn:E; [lia|].
  assert (is_Some (stack vm !! n)) as [x Hx] by (apply lookup_lt_is_Some; lia).
  rewrite (take_S_r _ _ x Hx) in Hl. apply app_inj_2 in Hl as [Ht Hv]; [|done]. simplify_eq.
  rewrite (rd_lookup _ _ _ Hx), bind_ret. eexists. by split_and!.
Qed.

Section compile.
Context {H : Type} `{HostApi H}.

Lemma exec_arith vm op a b l h :
  arith_op op = true -> live vm = l ++ [a; b] -> (vm.(sp) <= length vm.(stack))%nat ->
  exists vm', run_arm vm op h = Ret (vm', h, None) /\ live vm' = l ++ [arith op a b] /\
    S vm'.(sp) = vm.(sp) /\ length vm'.(stack) = length vm.(stack) /\ same_pc vm vm'.
Proof.
  intros Hop Hl Hs. change [a; b] with ([a] ++ [b]) in Hl. rewrite app_assoc in Hl.
  destruct (pop_live vm _ _ Hl Hs) as (vm1 & E1 & L1 & S1 & T1 & [P1 Q1]).
  destruct (pop_live vm1 _ _ L1) as (vm2 & E2 & L2 & S2 & T2 & [P2 Q2]); [rewrite T1; lia|].
  destruct (push_live vm2 (arith op a b)) as (vm3 & E3 & L3 & S3 & T3 & [P3 Q3]);
    [rewrite T2, T1; lia|].
  exists vm3. split_and!; [|congruence|lia|congruence|split; congruence].
  destruct op; try done; cbn [run_arm]; unfold binop, wrapping_add, wrapping_sub, wrapping_mul,
    wrapping_div in *; rewrite E1, bind_ret, E2, bind_ret; cbn [arith] in E3; by rewrite E3.
Qed.

Lemma run_compile_loop e pre post vm h budget :
  arith_expr e = true -> vm.(pc) = length pre ->
  (vm.(sp) + depth e <= length vm.(stack))%nat ->
  exists vm',
    run_loop (length (compile e) + budget) (pre ++ compile e ++ post) vm h =
      run_loop budget (pre ++ compile e ++ post) vm' h /\
    live vm' = live vm ++ [eval e] /\ vm'.(sp) = S vm.(sp) /\
    length vm'.(stack) = length vm.(stack) /\ vm'.(pc) = length (pre ++ compile e).
Proof.
  revert pre post vm budget. induction e as [v|op a IHa b IHb];
    intros pre post vm budget He Hpc Hs; cbn [arith_expr compile eval depth] in *.
  - cbn [length Nat.add run_loop app]. rewrite Hpc. rewrite decide_True by len.
    rewrite (rd_lookup _ _ (PushI32 v)), bind_ret by (by rewrite list_lookup_middle).
    cbn [run_arm].
    destruct (push_live (set_pc vm (S (length pre))) v) as (vm' & -> & Hl & Hs' & Hst & [Hp _]);
      [cbn; lia|]. rewrite !bind_ret.
    eexists. split; [reflexivity|]. split_and!; [done..|]. rewrite Hp. cbn. len.
  - apply andb_true_iff in He as [[Hop Ha]%andb_true_iff Hb].
    rewrite !length_app, <-!app_assoc. cbn [length].
    replace (length (compile a) + (length (compile b) + 1) + budget)%nat
      with (length (compile a) + (length (compile b) + S budget))%nat by lia.
    destruct (IHa pre (compile b ++ [op] ++ post) vm (length (compile b) + S budget)%nat)
      as (vm1 & E1 & L1 & S1 & T1 & P1); [done|done|lia|]. rewrite E1. clear E1.
    destruct (IHb (pre ++ compile a) ([op] ++ post) vm1 (S budget))
      as (vm2 & E2 & L2 & S2 & T2 & P2); [done|done|lia|].
    rewrite <-!app_assoc in E2. rewrite E2. clear E2. cbn [run_loop].
    replace (pre ++ compile a ++ compile b ++ [op] ++ post)
      with ((pre ++ compile a ++ compile b) ++ op :: post) by (by rewrite <-!app_assoc).
    rewrite <-app_assoc in P2. rewrite P2. rewrite decide_True by (rewrite !length_app; cbn; lia).
    rewrite (rd_lookup _ _ op), bind_ret by (by rewrite list_lookup_middle).
    set (n := S _).
    destruct (exec_arith (set_pc vm2 n) op (eval a) (eval b) (live vm) h)
      as (vm3 & -> & L3 & S3 & T3 & [P3 _]);
      [done|by change (live vm2 = live vm ++ [eval a; eval b]); rewrite L2, L1, <-app_assoc|
       cbn; pose proof (depth_pos b); lia|].
    rewrite !bind_ret. eexists. split; [reflexivity|]. cbn in S3, T3, P3.
    split_and!; [done|lia|congruence|]. rewrite P3. subst n. len.
Qed.

(** C30: the VM evaluates arithmetic: the postfix code of an expression that
    needs at most 64 slots returns the expression's 32-bit value (division
    by zero is 0), and leaves the host alone. *)
Theorem run_compile_expr vm e h :
  vm_wf vm -> arith_expr e = true -> (depth e <= 64)%nat ->
  (length (compile e) < vm.(step_limit))%nat ->
  exists vm', run vm (compile e ++ [OpRet]) h = Ret (vm', h, eval e).
Proof.
  intros [Hl _ _] He Hd Hlim. unfold run.
  destruct (step_limit vm) as [|lim] eqn:E; [lia|].
  replace (S lim) with (length (compile e) + S (lim - length (compile e)))%nat by lia.
  destruct (run_compile_loop e [] [OpRet] (reset vm) h (S (lim - length (compile e))))
    as (vm1 & E1 & L1 & S1 & T1 & P1); [done|done|cbn; lia|].
  cbn [app] in *. rewrite E1. cbn [run_loop]. rewrite P1.
  rewrite decide_True by len.
  rewrite (rd_lookup _ _ OpRet), bind_ret by (by rewrite list_lookup_middle).
  cbn [run_arm].
  destruct (pop_live (set_pc vm1 (S (length (compile e)))) [] (eval e)) as (vm2 & -> & _);
    [exact L1|cbn in *; lia|].
  rewrite !bind_ret. by eexists.
Qed.
End compile.

Lemma run_compile_expr_witness :
  exists vm', run vm_new (compile (Bin Sub (Bin Mul (Num 6) (Num 7)) (Bin Div (Num 9) (Num 0))) ++ [OpRet])
                null_host = Ret (vm', null_host, 42).
Proof.
  apply (run_compile_expr vm_new (Bin Sub (Bin Mul (Num 6) (Num 7)) (Bin Div (Num 9) (Num 0))) null_host);
    [apply vm_new_wf | reflexivity | cbn; lia | cbn; lia].
Defined.

Lemma run_bytes_safe_witness :
  exists vm' h' r, run_bytes vm_new [1; 255; 255; 255; 127; 6] null_host = Ret (vm', h', r) /\ vm_wf vm' /\
      (forall v, r = inr v -> is_i32 v) /\ (6 <= 4096 -> r <> inl StepLimit)%nat.
Proof. apply (run_bytes_safe vm_new [1; 255; 255; 255; 127; 6] null_host); [by_decide | apply vm_new_wf]. Defined.
