(* ===== verification/Settings.v ===== *)
(** * Device settings ([kernel/src/settings.rs], [kernel/src/cursor_emoji.rs])

    The preference enums with their [next]/[label] methods, the platform
    capability constructors, [DeviceSettings] with its defaults, and the
    [ip_settings_tag] fingerprint that [NetStack] uses to notice a change. *)

From S2P Require Import Prelude.

Definition DEFAULT_HOME_URL : bytes := Eval vm_compute in
  bs "https://alexanderdfox.github.io/TempleOSWebShrine/".
Definition PERSIST_HOME_URL_CAP : nat := 120.
Definition PERSIST_BOOKMARK_SLOTS : nat := 8.
Definition PERSIST_BOOKMARK_URL_CAP : nat := 30.

(** ** Platform capabilities *)

Inductive InputBackend := Ps2Usb | UefiInput | SerialAnsi.
Definition InputBackend_label (b : InputBackend) : bytes :=
  match b with
  | Ps2Usb => bs "PS2+USB" | UefiInput => bs "UEFI INPUT" | SerialAnsi => bs "SERIAL ANSI"
  end.

Inductive UsbParity := Operational | CompatFallback | Unsupported.
Definition UsbParity_label (p : UsbParity) : bytes :=
  match p with
  | Operational => bs "USB OP" | CompatFallback => bs "USB COMPAT" | Unsupported => bs "USB UNSUP"
  end.

Record PlatformCaps := {
  input_backend : InputBackend;
  usb_parity : UsbParity;
  wifi_detect_only : bool;
  wifi_operational : bool;
  net_stack_supported : bool;
  net_probe_gated : bool;
  settings_persist_supported : bool;
}.

Definition caps_x86_persist (persist : bool) : PlatformCaps := {|
  input_backend := Ps2Usb; usb_parity := CompatFallback;
  wifi_detect_only := true; wifi_operational := false;
  net_stack_supported := true; net_probe_gated := false;
  settings_persist_supported := persist |}.
Definition caps_x86 : PlatformCaps := caps_x86_persist false.
Definition caps_arm_uefi (probe_gated : bool) : PlatformCaps := {|
  input_backend := UefiInput; usb_parity := Unsupported;
  wifi_detect_only := true; wifi_operational := false;
  net_stack_supported := true; net_probe_gated := probe_gated;
  settings_persist_supported := true |}.
Definition caps_rpi : PlatformCaps := {|
  input_backend := SerialAnsi; usb_parity := Unsupported;
  wifi_detect_only := true; wifi_operational := false;
  net_stack_supported := false; net_probe_gated := true;
  settings_persist_supported := false |}.

Definition wifi_mode_label (c : PlatformCaps) : bytes :=
  if c.(wifi_operational) then bs "WIFI RUN"
  else if c.(wifi_detect_only) then bs "WIFI DETECT" else bs "WIFI UNSUP".
Definition net_mode_label (c : PlatformCaps) : bytes :=
  if negb c.(net_stack_supported) then bs "NET UNSUP"
  else if c.(net_probe_gated) then bs "NET PROBE-OFF" else bs "NET READY".
Definition persist_label (c : PlatformCaps) : bytes :=
  if c.(settings_persist_supported) then bs "PERSIST ON" else bs "PERSIST VOL".

(** ** Preference enums *)

Inductive DisplayTheme := Light | Dark.
#[export] Instance DisplayTheme_eq : EqDecision DisplayTheme.
Proof. solve_decision. Defined.
Definition DisplayTheme_next (t : DisplayTheme) : DisplayTheme :=
  match t with Light => Dark | Dark => Light end.
Definition DisplayTheme_label (t : DisplayTheme) : bytes :=
  match t with Light => bs "LIGHT" | Dark => bs "DARK" end.

Inductive NicChoice := Virtio | Rtl8139 | E1000 | Pcnet | Off.
#[export] Instance NicChoice_eq : EqDecision NicChoice.
Proof. solve_decision. Defined.
Definition NicChoice_next (n : NicChoice) : NicChoice :=
  match n with
  | Virtio => Rtl8139 | Rtl8139 => E1000 | E1000 => Pcnet | Pcnet => Off | Off => Virtio
  end.
(** [settings.nic as u8]: the declaration order. *)
Definition NicChoice_u8 (n : NicChoice) : Z :=
  match n with Virtio => 0 | Rtl8139 => 1 | E1000 => 2 | Pcnet => 3 | Off => 4 end.

Inductive IpConfig := Slirp | Dhcp | Static.
#[export] Instance IpConfig_eq : EqDecision IpConfig.
Proof. solve_decision. Defined.
Definition IpConfig_next (c : IpConfig) : IpConfig :=
  match c with Dhcp => Slirp | Slirp => Static | Static => Dhcp end.
Definition IpConfig_label (c : IpConfig) : bytes :=
  match c with Slirp => bs "SLIRP" | Dhcp => bs "DHCP" | Static => bs "STATIC" end.
Definition IpConfig_u8 (c : IpConfig) : Z := match c with Slirp => 0 | Dhcp => 1 | Static => 2 end.

Inductive WifiSecurity := Open | Wpa2Psk | Wpa3Sae.
#[export] Instance WifiSecurity_eq : EqDecision WifiSecurity.
Proof. solve_decision. Defined.
Definition WifiSecurity_next (w : WifiSecurity) : WifiSecurity :=
  match w with Open => Wpa2Psk | Wpa2Psk => Wpa3Sae | Wpa3Sae => Open end.
Definition WifiSecurity_label (w : WifiSecurity) : bytes :=
  match w with Open => bs "OPEN" | Wpa2Psk => bs "WPA2 PSK" | Wpa3Sae => bs "WPA3 SAE" end.
Definition WifiSecurity_u8 (w : WifiSecurity) : Z :=
  match w with Open => 0 | Wpa2Psk => 1 | Wpa3Sae => 2 end.

(** ** The settings record *)

Record DeviceSettings := {
  display_theme : DisplayTheme;
  display_pref_width : Z;
  display_pref_height : Z;
  display_use_custom_resolution : bool;
  wifi_enabled : bool;
  nic : NicChoice;
  internet_stack_enabled : bool;
  ip_config : IpConfig;
  static_ip : bytes;
  static_gw : bytes;
  static_dns : bytes;
  usb_polling_enabled : bool;
  cursor_emoji_preset : Z;
  bluetooth_enabled : bool;
  midi_enabled : bool;
  midi_usb_enabled : bool;
  midi_channel : Z;
  browser_script_runtime_enabled : bool;
  home_url : bytes;
  home_url_len : Z;
  bookmark_url : list bytes;
  bookmark_len : list Z;
  wifi_ssid : bytes;
  wifi_ssid_len : Z;
  wifi_psk : bytes;
  wifi_psk_len : Z;
  wifi_sec : WifiSecurity;
}.

Definition default_home_len : nat := Nat.min (length DEFAULT_HOME_URL) PERSIST_HOME_URL_CAP.

(** [a[..n].copy_from_slice(&DEFAULT_HOME_URL[..n])] *)
Definition put_default_home (a : bytes) : bytes :=
  list_inserts 0 (take default_home_len DEFAULT_HOME_URL) a.

Definition settings_new : DeviceSettings := {|
  display_theme := Light;
  display_pref_width := 0;
  display_pref_height := 0;
  display_use_custom_resolution := false;
  wifi_enabled := true;
  nic := Virtio;
  internet_stack_enabled := true;
  ip_config := Slirp;
  static_ip := [192; 168; 1; 100];
  static_gw := [192; 168; 1; 1];
  static_dns := [8; 8; 8; 8];
  usb_polling_enabled := true;
  cursor_emoji_preset := 0;
  bluetooth_enabled := false;
  midi_enabled := true;
  midi_usb_enabled := false;
  midi_channel := 1;
  browser_script_runtime_enabled := false;
  home_url := put_default_home (replicate PERSIST_HOME_URL_CAP 0);
  home_url_len := Z.of_nat default_home_len;
  bookmark_url := replicate PERSIST_BOOKMARK_SLOTS (replicate PERSIST_BOOKMARK_URL_CAP 0);
  bookmark_len := replicate PERSIST_BOOKMARK_SLOTS 0;
  wifi_ssid := replicate 32 0;
  wifi_ssid_len := 0;
  wifi_psk := replicate 64 0;
  wifi_psk_len := 0;
  wifi_sec := Wpa2Psk;
|}.

(** The types of the fields, and nothing more: array lengths and widths. *)
Record settings_typed (s : DeviceSettings) : Prop := {
  st_width : 0 <= s.(display_pref_width) < 2 ^ 16;
  st_height : 0 <= s.(display_pref_height) < 2 ^ 16;
  st_ip : length s.(static_ip) = 4%nat /\ is_bytes s.(static_ip);
  st_gw : length s.(static_gw) = 4%nat /\ is_bytes s.(static_gw);
  st_dns : length s.(static_dns) = 4%nat /\ is_bytes s.(static_dns);
  st_preset : is_byte s.(cursor_emoji_preset);
  st_midi : is_byte s.(midi_channel);
  st_home : length s.(home_url) = 120%nat /\ is_bytes s.(home_url) /\ is_byte s.(home_url_len);
  st_bookmarks : length s.(bookmark_url) = 8%nat /\
    Forall (fun u => length u = 30%nat /\ is_bytes u) s.(bookmark_url);
  st_bm_len : length s.(bookmark_len) = 8%nat /\ is_bytes s.(bookmark_len);
  st_ssid : length s.(wifi_ssid) = 32%nat /\ is_bytes s.(wifi_ssid) /\ 0 <= s.(wifi_ssid_len) <= usize_max;
  st_psk : length s.(wifi_psk) = 64%nat /\ is_bytes s.(wifi_psk) /\ 0 <= s.(wifi_psk_len) <= usize_max;
}.

(** ** Small updates *)

(** [c.midi_channel] for [toggle_midi_channel]. *)
Definition next_midi_channel (c : Z) : Z := if decide (16 <= c) then 1 else c + 1.

(** [cursor_emoji::next_preset] *)
Definition next_preset (p : Z) : Z := (p + 1) mod 8.

(** ** The fingerprint *)

Definition wrapping_shl8 (x : Z) : Z := wrap32 (Z.shiftl x 8).

(** The chain [u32::from(a[0]).wrapping_shl(8).wrapping_add(a[1])...]. *)
Definition pack_ipv4 (a : bytes) : Z :=
  wrap32 (wrapping_shl8 (wrap32 (wrapping_shl8 (wrap32 (wrapping_shl8 (a !!! 0%nat) + a !!! 1%nat))
    + a !!! 2%nat)) + a !!! 3%nat).

Definition ip_settings_tag (s : DeviceSettings) : Z :=
  let h := IpConfig_u8 s.(ip_config) in
  if decide (s.(ip_config) = Static) then
    let h := Z.lxor h (pack_ipv4 s.(static_ip)) in
    let h := Z.lxor h (wrap32 (pack_ipv4 s.(static_gw) * 0x9E3779B1)) in
    Z.lxor h (wrap32 (pack_ipv4 s.(static_dns) * 0x85EBCA6B))
  else h.

(** ** Properties *)

Lemma settings_new_typed : settings_typed settings_new.
Proof. split; try by_decide. Qed.

Lemma pack_ipv4_of_be a b c d :
  is_bytes [a; b; c; d] -> pack_ipv4 [a; b; c; d] = of_be [a; b; c; d].
Proof.
  intros Hb. do 4 (apply Forall_cons in Hb as [? Hb]). unfold is_byte in *.
  unfold pack_ipv4, wrapping_shl8, wrap, of_be. cbn [rev app of_le lookup_total list_lookup_total].
  rewrite !Z.shiftl_mul_pow2 by lia. change (2 ^ 8) with 256.
  rewrite (Z.mod_small (a * 256)) by lia. rewrite (Z.mod_small (a * 256 + b)) by lia.
  rewrite (Z.mod_small ((a * 256 + b) * 256)) by lia.
  rewrite (Z.mod_small ((a * 256 + b) * 256 + c)) by lia.
  rewrite (Z.mod_small (((a * 256 + b) * 256 + c) * 256)) by lia.
  rewrite Z.mod_small; lia.
Qed.

Lemma of_be_inj l l' :
  is_bytes l -> is_bytes l' -> length l = length l' -> of_be l = of_be l' -> l = l'.
Proof.
  intros Hl Hl' Hn E. unfold of_be in E.
  assert (rev l = rev l') as Hr.
  { rewrite <-(to_le_of_le (rev l)), <-(to_le_of_le (rev l')), !length_rev, Hn, E
      by (by apply is_bytes_rev). done. }
  by rewrite <-(rev_involutive l), Hr, rev_involutive.
Qed.

Lemma pack_ipv4_inj l l' :
  length l = 4%nat -> is_bytes l -> length l' = 4%nat -> is_bytes l' ->
  pack_ipv4 l = pack_ipv4 l' -> l = l'.
Proof.
  intros (a & b & c & d & ->)%list4_eq Hb (a' & b' & c' & d' & ->)%list4_eq Hb'.
  rewrite !pack_ipv4_of_be by done. by apply of_be_inj.
Qed.

Lemma pack_ipv4_range a : 0 <= pack_ipv4 a < 2 ^ 32.
Proof. unfold pack_ipv4, wrap. apply Z.mod_pos_bound. lia. Qed.

(** Multiplying by an odd constant is injective on [u32]. *)
Lemma wrap_mul_inj k inv x y :
  wrap32 (k * inv) = 1 -> 0 <= x < 2 ^ 32 -> 0 <= y < 2 ^ 32 ->
  wrap32 (x * k) = wrap32 (y * k) -> x = y.
Proof.
  unfold wrap. intros Hinv Hx Hy E.
  assert (forall z, 0 <= z < 2 ^ 32 -> ((z * k) mod 2 ^ 32 * inv) mod 2 ^ 32 = z) as Hz.
  { intros z Hz. rewrite Z.mul_mod_idemp_l by lia.
    rewrite <-Z.mul_assoc, Z.mul_comm, <-Z.mul_mod_idemp_l, Hinv, Z.mul_1_l by lia.
    by apply Z.mod_small. }
  by rewrite <-(Hz x Hx), E, Hz.
Qed.

Lemma lxor_cancel_l a b c : Z.lxor a b = Z.lxor a c -> b = c.
Proof.
  intros H. rewrite <-(Z.lxor_0_l b), <-(Z.lxor_nilpotent a), Z.lxor_assoc, H.
  by rewrite <-Z.lxor_assoc, Z.lxor_nilpotent, Z.lxor_0_l.
Qed.
Lemma lxor_cancel_r a b c : Z.lxor b a = Z.lxor c a -> b = c.
Proof. rewrite !(Z.lxor_comm _ a). apply lxor_cancel_l. Qed.

(** [s'] is [s] with at most one of its three static addresses changed. *)
Definition one_address_changed (s s' : DeviceSettings) : Prop :=
  (s.(static_gw) = s'.(static_gw) /\ s.(static_dns) = s'.(static_dns)) \/
  (s.(static_ip) = s'.(static_ip) /\ s.(static_dns) = s'.(static_dns)) \/
  (s.(static_ip) = s'.(static_ip) /\ s.(static_gw) = s'.(static_gw)).

Lemma ip_settings_tag_inj s s' :
  settings_typed s -> settings_typed s' ->
  s.(ip_config) = Static -> s'.(ip_config) = Static ->
  one_address_changed s s' ->
  ip_settings_tag s = ip_settings_tag s' ->
  s.(static_ip) = s'.(static_ip) /\ s.(static_gw) = s'.(static_gw) /\ s.(static_dns) = s'.(static_dns).
Proof.
  intros [] [] Hc Hc'. unfold ip_settings_tag. rewrite Hc, Hc', !decide_True by done.
  intros [[E1 E2]|[[E1 E2]|[E1 E2]]] E; rewrite E1, E2 in E; (split_and!; try done).
  - apply lxor_cancel_r, lxor_cancel_r, lxor_cancel_l in E. apply pack_ipv4_inj in E; tauto.
  - apply lxor_cancel_r, lxor_cancel_l in E.
    apply (wrap_mul_inj _ 0x0E8B2F51) in E; [|reflexivity|apply pack_ipv4_range..].
    apply pack_ipv4_inj in E; tauto.
  - apply lxor_cancel_l in E.
    apply (wrap_mul_inj _ 0xA5CB9243) in E; [|reflexivity|apply pack_ipv4_range..].
    apply pack_ipv4_inj in E; tauto.
Qed.

(** The default configuration with another mode and other static addresses. *)
Definition with_ip (s : DeviceSettings) (mode : IpConfig) (our gw dns : bytes) : DeviceSettings := {|
  display_theme := s.(display_theme);
  display_pref_width := s.(display_pref_width);
  display_pref_height := s.(display_pref_height);
  display_use_custom_resolution := s.(display_use_custom_resolution);
  wifi_enabled := s.(wifi_enabled);
  nic := s.(nic);
  internet_stack_enabled := s.(internet_stack_enabled);
  ip_config := mode;
  static_ip := our;
  static_gw := gw;
  static_dns := dns;
  usb_polling_enabled := s.(usb_polling_enabled);
  cursor_emoji_preset := s.(cursor_emoji_preset);
  bluetooth_enabled := s.(bluetooth_enabled);
  midi_enabled := s.(midi_enabled);
  midi_usb_enabled := s.(midi_usb_enabled);
  midi_channel := s.(midi_channel);
  browser_script_runtime_enabled := s.(browser_script_runtime_enabled);
  home_url := s.(home_url);
  home_url_len := s.(home_url_len);
  bookmark_url := s.(bookmark_url);
  bookmark_len := s.(bookmark_len);
  wifi_ssid := s.(wifi_ssid);
  wifi_ssid_len := s.(wifi_ssid_len);
  wifi_psk := s.(wifi_psk);
  wifi_psk_len := s.(wifi_psk_len);
  wifi_sec := s.(wifi_sec);
|}.

Lemma with_ip_typed mode our gw dns :
  is_bytes our -> is_bytes gw -> is_bytes dns ->
  length our = 4%nat -> length gw = 4%nat -> length dns = 4%nat ->
  settings_typed (with_ip settings_new mode our gw dns).
Proof. intros. destruct settings_new_typed. by split. Qed.

(** In static mode the fingerprint notices every change of one address: two
    configurations that differ in exactly one of guest, gateway and DNS address
    have different tags, so [NetStack] is reconfigured. *)
Theorem ip_settings_tag_detects s s' :
  settings_typed s -> settings_typed s' ->
  s.(ip_config) = Static -> s'.(ip_config) = Static ->
  one_address_changed s s' ->
  (s.(static_ip), s.(static_gw), s.(static_dns)) <> (s'.(static_ip), s'.(static_gw), s'.(static_dns)) ->
  ip_settings_tag s <> ip_settings_tag s'.
Proof.
  intros Ht Ht' Hc Hc' Ho Hne E. apply Hne.
  destruct (ip_settings_tag_inj s s') as (-> & -> & ->); done.
Qed.

Lemma ip_settings_tag_detects_witness :
  ip_settings_tag (with_ip settings_new Static [10; 0; 0; 9] [10; 0; 0; 1] [8; 8; 8; 8]) <>
  ip_settings_tag (with_ip settings_new Static [10; 0; 0; 9] [10; 0; 0; 2] [8; 8; 8; 8]).
Proof.
  apply ip_settings_tag_detects;
    [apply with_ip_typed; by_decide..|reflexivity|reflexivity|right; by left|discriminate].
Defined.

(** The fingerprint is not injective across modes: a static configuration with
    guest address 0.0.0.2 and no gateway or DNS server has the tag of SLIRP. *)
Lemma ip_settings_tag_collision :
  ip_settings_tag (with_ip settings_new Static [0; 0; 0; 2] [0; 0; 0; 0] [0; 0; 0; 0]) =
  ip_settings_tag (with_ip settings_new Slirp [0; 0; 0; 2] [0; 0; 0; 0] [0; 0; 0; 0]).
Proof. reflexivity. Qed.
