(* ===== verification/BlockDev.v ===== *)
(** * The block-device interface

    [VirtioBlk::read_sector] and [write_sector] ([kernel/src/virtio_blk.rs]) talk
    to a device over a virtqueue; their clients ([settings_persist_disk.rs],
    [gpt_boot_patch.rs]) use the two calls and the fields [capacity] and
    [sector_size].  [BlockDev] is that surface for a 512-byte-sector device, and
    [BlockDevOk] what a disk promises: a successful read returns the sector, a
    successful write replaces it, and no call touches another sector.
    [MemDisk] is a disk in memory that keeps the promise. *)

From S2P Require Import Prelude.

(** [read_sector d lba] is [Some data] when the call returns [true] and fills
    the caller's 512-byte buffer, and [None] when it returns [false]. *)
Class BlockDev (D : Type) := {
  capacity : D -> Z;
  sector_size : D -> Z;
  read_sector : D -> Z -> D * option bytes;
  write_sector : D -> Z -> bytes -> D * bool;
}.

Definition sector_ok (b : bytes) : Prop := length b = 512%nat /\ is_bytes b.

Class BlockDevOk (D : Type) `{BlockDev D} := {
  (** the sectors on the medium *)
  sector : D -> Z -> bytes;
  sector_wf d l : sector_ok (sector d l);
  read_capacity d l : capacity (read_sector d l).1 = capacity d;
  read_sector_size d l : sector_size (read_sector d l).1 = sector_size d;
  write_capacity d l b : capacity (write_sector d l b).1 = capacity d;
  write_sector_size d l b : sector_size (write_sector d l b).1 = sector_size d;
  read_keeps d l l' : sector (read_sector d l).1 l' = sector d l';
  read_returns d l b : (read_sector d l).2 = Some b -> b = sector d l /\ 0 <= l < capacity d;
  write_keeps d l b l' : l <> l' -> sector (write_sector d l b).1 l' = sector d l';
  write_stores d l b : sector_ok b -> (write_sector d l b).2 = true ->
    sector (write_sector d l b).1 l = b;
}.

(** ** A disk in memory *)

Record MemDisk := { md_sectors : list bytes; md_size : Z; md_broken : Z -> bool }.

Definition md_sector (d : MemDisk) (l : Z) : bytes :=
  if decide (0 <= l) then
    match d.(md_sectors) !! Z.to_nat l with
    | Some b => if decide (sector_ok b) then b else replicate 512 0
    | None => replicate 512 0
    end
  else replicate 512 0.

Definition md_capacity (d : MemDisk) : Z := Z.of_nat (length d.(md_sectors)).

Definition md_write (d : MemDisk) (l : Z) (b : bytes) : MemDisk * bool :=
  if decide (0 <= l < md_capacity d /\ d.(md_broken) l = false)
  then ({| md_sectors := <[Z.to_nat l := b]> d.(md_sectors); md_size := d.(md_size);
           md_broken := d.(md_broken) |}, true)
  else (d, false).

#[export] Instance MemDisk_dev : BlockDev MemDisk := {
  capacity := md_capacity;
  sector_size := md_size;
  read_sector d l :=
    if decide (0 <= l < md_capacity d /\ d.(md_broken) l = false) then (d, Some (md_sector d l))
    else (d, None);
  write_sector := md_write;
}.

Lemma zeros_ok : sector_ok (replicate 512 0).
Proof. split; [done|]. by_decide. Qed.

#[export] Instance MemDisk_ok : BlockDevOk MemDisk.
Proof.
  refine {| sector := md_sector |}; cbn.
  - intros d l. unfold md_sector. case_decide; [|apply zeros_ok].
    destruct (_ !! _); [case_decide; [done|]|]; apply zeros_ok.
  - intros. by case_decide.
  - intros. by case_decide.
  - intros. unfold md_write. case_decide; [|done]. unfold md_capacity. cbn. by rewrite length_insert.
  - intros. unfold md_write. by case_decide.
  - intros. by case_decide.
  - intros d l b. case_decide as Hl; [|done]. cbn. intros [= <-]. split; [done|]. apply Hl.
  - intros d l b l' Hne. unfold md_write. case_decide as Hl; [|done]. unfold md_sector. cbn.
    case_decide; [|done]. rewrite list_lookup_insert_ne by lia. done.
  - intros d l b Hb. unfold md_write. case_decide as Hl; [|done]. intros _. unfold md_sector, md_capacity in *. cbn.
    rewrite decide_True by lia. rewrite list_lookup_insert_eq by lia. by rewrite decide_True.
Defined.

(** A healthy disk of [n] zero sectors. *)
Definition blank_disk (n : nat) : MemDisk :=
  {| md_sectors := replicate n (replicate 512 0); md_size := 512; md_broken := fun _ => false |}.
