(* ===== verification/Persist.v ===== *)
(** * Settings persistence ([kernel/src/settings_persist.rs], [settings_persist_disk.rs])

    The 512-byte EVS2 blob: [encode], [decode_v2], the display-only legacy EVS1
    reader, [decode_merge], and the two disk entry points over the interface of
    [BlockDev].  [encode] is the sequence of writes of the source into a zeroed
    buffer.  The decoders check [data.len()] before they index with literals,
    so their reads are total lookups. *)

From S2P Require Import Prelude Settings BlockDev.

Definition BLOB_LEN : nat := 512.
Definition MAGIC_V1 : bytes := Eval vm_compute in bs "EVS1".
Definition MAGIC_V2 : bytes := Eval vm_compute in bs "EVS2".
Definition VERSION_V1 : Z := 1.
Definition VERSION_V2 : Z := 2.

Definition checksum_step (c b : Z) : Z := wrap32 (wrap32 (c * 31) + b).
Definition checksum (payload : bytes) : Z := fold_left checksum_step payload 0x5F370E41.

(** [f |= bit] for each enabled flag. *)
Definition flag (b : bool) (bit f : Z) : Z := if b then Z.lor f bit else f.
Definition flags_byte (s : DeviceSettings) : Z :=
  flag s.(browser_script_runtime_enabled) 64
  (flag s.(midi_usb_enabled) 32
  (flag s.(midi_enabled) 16
  (flag s.(bluetooth_enabled) 8
  (flag s.(usb_polling_enabled) 4
  (flag s.(wifi_enabled) 2
  (flag s.(internet_stack_enabled) 1 0)))))).

Definition wr_at (off : nat) (src : bytes) (out : bytes) : bytes := list_inserts off src out.

Definition encode_payload (s : DeviceSettings) : bytes :=
  let out := replicate BLOB_LEN 0 in
  let out := wr_at 0 MAGIC_V2 out in
  let out := wr_at 4 [VERSION_V2] out in
  let out := wr_at 5 [match s.(display_theme) with Light => 0 | Dark => 1 end] out in
  let out := wr_at 6 (to_le 2 s.(display_pref_width)) out in
  let out := wr_at 8 (to_le 2 s.(display_pref_height)) out in
  let out := wr_at 10 [if s.(display_use_custom_resolution) then 1 else 0] out in
  let out := wr_at 11 [NicChoice_u8 s.(nic)] out in
  let out := wr_at 12 [IpConfig_u8 s.(ip_config)] out in
  let out := wr_at 13 s.(static_ip) out in
  let out := wr_at 17 s.(static_gw) out in
  let out := wr_at 21 s.(static_dns) out in
  let out := wr_at 25 [flags_byte s] out in
  let out := wr_at 26 [Z.max (Z.min s.(midi_channel) 16) 1] out in
  let out := wr_at 27 [s.(cursor_emoji_preset)] out in
  let out := wr_at 28 [wrap8 (Z.min s.(wifi_ssid_len) 32)] out in
  let out := wr_at 29 [wrap8 (Z.min s.(wifi_psk_len) 64)] out in
  let out := wr_at 30 [WifiSecurity_u8 s.(wifi_sec)] out in
  let out := wr_at 31 [0] out in
  let out := wr_at 32 s.(wifi_ssid) out in
  let out := wr_at 64 (take 64 s.(wifi_psk)) out in
  let hl := Z.min s.(home_url_len) 120 in
  let out := wr_at 128 [wrap8 hl] out in
  let out := wr_at 129 s.(home_url) out in
  let out := foldl (fun out i => wr_at (249 + i) [Z.min (s.(bookmark_len) !!! i) 30] out)
               out (seq 0 PERSIST_BOOKMARK_SLOTS) in
  foldl (fun out i => wr_at (257 + i * PERSIST_BOOKMARK_URL_CAP) (s.(bookmark_url) !!! i) out)
    out (seq 0 PERSIST_BOOKMARK_SLOTS).

Definition encode (s : DeviceSettings) : bytes :=
  let out := encode_payload s in
  wr_at 508 (to_le 4 (checksum (take 508 out))) out.

Definition theme_of (b : Z) : DisplayTheme := if decide (b = 1) then Dark else Light.

Definition set_display (s : DeviceSettings) (data : bytes) : DeviceSettings := {|
  display_theme := theme_of (data !!! 5%nat);
  display_pref_width := of_le (slice data 6 8);
  display_pref_height := of_le (slice data 8 10);
  display_use_custom_resolution := negb (Z.land (data !!! 10%nat) 1 =? 0);
  wifi_enabled := s.(wifi_enabled);
  nic := s.(nic);
  internet_stack_enabled := s.(internet_stack_enabled);
  ip_config := s.(ip_config);
  static_ip := s.(static_ip);
  static_gw := s.(static_gw);
  static_dns := s.(static_dns);
  usb_polling_enabled := s.(usb_polling_enabled);
  cursor_emoji_preset := s.(cursor_emoji_preset);
  bluetooth_enabled := s.(bluetooth_enabled);
  midi_enabled := s.(midi_enabled);
  midi_usb_enabled := s.(midi_usb_enabled);
  midi_channel := s.(midi_channel);
  browser_script_runtime_enabled := s.(browser_script_runtime_enabled);
  home_url := s.(home_url);
  home_url_len := s.(home_url_len);
  bookmark_url := s.(bookmark_url);
  bookmark_len := s.(bookmark_len);
  wifi_ssid := s.(wifi_ssid);
  wifi_ssid_len := s.(wifi_ssid_len);
  wifi_psk := s.(wifi_psk);
  wifi_psk_len := s.(wifi_psk_len);
  wifi_sec := s.(wifi_sec);
|}.

(** The decoders return the updated settings and the [bool] of the source. *)
Definition decode_v1_display_only (s : DeviceSettings) (data : bytes) : DeviceSettings * bool :=
  if decide (length data < 28)%nat then (s, false)
  else if decide (slice data 0 4 <> MAGIC_V1) then (s, false)
  else if decide (data !!! 4%nat <> VERSION_V1) then (s, false)
  else if decide (checksum (slice data 0 24) <> of_le (slice data 24 28)) then (s, false)
  else (set_display s data, true).

Definition nic_of (b : Z) : NicChoice :=
  if decide (b = 0) then Virtio else if decide (b = 1) then Rtl8139
  else if decide (b = 2) then E1000 else if decide (b = 3) then Pcnet else Off.
Definition ip_config_of (b : Z) : IpConfig :=
  if decide (b = 0) then Slirp else if decide (b = 1) then Dhcp else Static.
Definition wifi_sec_of (b : Z) : WifiSecurity :=
  if decide (b = 1) then Wpa2Psk else if decide (b = 2) then Wpa3Sae else Open.
Definition has_bit (f bit : Z) : bool := negb (Z.land f bit =? 0).

Definition decode_body (data : bytes) : DeviceSettings :=
  let f := data !!! 25%nat in
  let hl := Z.min (data !!! 128%nat) 120 in
  let home := slice data 129 249 in {|
  display_theme := theme_of (data !!! 5%nat);
  display_pref_width := of_le (slice data 6 8);
  display_pref_height := of_le (slice data 8 10);
  display_use_custom_resolution := has_bit (data !!! 10%nat) 1;
  wifi_enabled := has_bit f 2;
  nic := nic_of (data !!! 11%nat);
  internet_stack_enabled := has_bit f 1;
  ip_config := ip_config_of (data !!! 12%nat);
  static_ip := slice data 13 17;
  static_gw := slice data 17 21;
  static_dns := slice data 21 25;
  usb_polling_enabled := has_bit f 4;
  cursor_emoji_preset := data !!! 27%nat;
  bluetooth_enabled := has_bit f 8;
  midi_enabled := has_bit f 16;
  midi_usb_enabled := has_bit f 32;
  midi_channel := Z.max 1 (Z.min (data !!! 26%nat) 16);
  browser_script_runtime_enabled := has_bit f 64;
  home_url := if decide (hl = 0) then put_default_home home else home;
  home_url_len := if decide (hl = 0) then Z.of_nat default_home_len else hl;
  bookmark_url := (fun i => slice data (257 + i * PERSIST_BOOKMARK_URL_CAP)
                      (257 + i * PERSIST_BOOKMARK_URL_CAP + PERSIST_BOOKMARK_URL_CAP))
                    <$> seq 0 PERSIST_BOOKMARK_SLOTS;
  bookmark_len := (fun i => Z.min (data !!! (249 + i)%nat) 30) <$> seq 0 PERSIST_BOOKMARK_SLOTS;
  wifi_ssid := slice data 32 64;
  wifi_ssid_len := Z.min (data !!! 28%nat) 32;
  wifi_psk := slice data 64 128;
  wifi_psk_len := Z.min (data !!! 29%nat) 64;
  wifi_sec := wifi_sec_of (data !!! 30%nat);
|}.

Definition decode_v2 (s : DeviceSettings) (data : bytes) : DeviceSettings * bool :=
  if decide (length data < BLOB_LEN)%nat then (s, false)
  else if decide (slice data 0 4 <> MAGIC_V2) then (s, false)
  else if decide (data !!! 4%nat <> VERSION_V2) then (s, false)
  else if decide (checksum (slice data 0 508) <> of_le (slice data 508 512)) then (s, false)
  else (decode_body data, true).

Definition decode_merge (s : DeviceSettings) (data : bytes) : DeviceSettings * bool :=
  if decide ((4 <= length data)%nat /\ slice data 0 4 = MAGIC_V2) then decode_v2 s data
  else decode_v1_display_only s data.

(** ** The disk entry points *)

Section disk.
Context {D : Type} `{BlockDev D}.

(** [load]: the device after the read, the merged settings, and the result. *)
Definition load (blk : D) (s : DeviceSettings) : D * DeviceSettings * bool :=
  if decide (capacity blk = 0) then (blk, s, false)
  else
    let lba := capacity blk - 1 in
    match read_sector blk lba with
    | (blk, None) => (blk, s, false)
    | (blk, Some sec) => let '(s, ok) := decode_merge s sec in (blk, s, ok)
    end.

Definition save (blk : D) (s : DeviceSettings) : D * bool :=
  if decide (capacity blk = 0) then (blk, false)
  else write_sector blk (capacity blk - 1) (encode s).
End disk.

(** ** The layout of the blob *)

Lemma wr_append off src pre n :
  length pre = off -> (length src <= n)%nat ->
  wr_at off src (pre ++ replicate n 0) = (pre ++ src) ++ replicate (n - length src) 0.
Proof.
  intros <- Hn. unfold wr_at.
  replace n with (length src + (n - length src))%nat at 1 by lia.
  rewrite replicate_add, inserts_mid by (by rewrite length_replicate). by rewrite app_assoc.
Qed.

(** The bytes before the zero padding, field by field. *)
Definition header (s : DeviceSettings) : bytes :=
  MAGIC_V2 ++ [VERSION_V2; match s.(display_theme) with Light => 0 | Dark => 1 end] ++
  to_le 2 s.(display_pref_width) ++ to_le 2 s.(display_pref_height) ++
  [if s.(display_use_custom_resolution) then 1 else 0; NicChoice_u8 s.(nic); IpConfig_u8 s.(ip_config)] ++
  s.(static_ip) ++ s.(static_gw) ++ s.(static_dns) ++
  [flags_byte s; Z.max (Z.min s.(midi_channel) 16) 1; s.(cursor_emoji_preset);
   wrap8 (Z.min s.(wifi_ssid_len) 32); wrap8 (Z.min s.(wifi_psk_len) 64);
   WifiSecurity_u8 s.(wifi_sec); 0].

Definition bm_lens (s : DeviceSettings) : bytes :=
  concat ((fun i => [Z.min (s.(bookmark_len) !!! i) 30]) <$> seq 0 8).
Definition bm_urls (s : DeviceSettings) : bytes :=
  concat ((fun i => s.(bookmark_url) !!! i) <$> seq 0 8).

Definition body (s : DeviceSettings) : bytes :=
  header s ++ s.(wifi_ssid) ++ s.(wifi_psk) ++ [wrap8 (Z.min s.(home_url_len) 120)] ++
  s.(home_url) ++ bm_lens s ++ bm_urls s.

Section layout.
Context (s : DeviceSettings) (Ht : settings_typed s).

Lemma length_header : length (header s) = 32%nat.
Proof. destruct Ht. unfold header, MAGIC_V2. rewrite !length_app, !length_to_le. cbn. lia. Qed.

Lemma bookmark_length i : (i < 8)%nat -> length (s.(bookmark_url) !!! i) = 30%nat.
Proof.
  intros Hi. destruct Ht as [? ? ? ? ? ? ? ? [Hl Hf] ? ? ?].
  destruct (lookup_lt_is_Some_2 (bookmark_url s) i) as [u Hu]; [lia|].
  rewrite (list_lookup_total_correct _ _ _ Hu). by apply (Forall_lookup_1 _ _ _ _ Hf Hu).
Qed.

Lemma length_bm_lens : length (bm_lens s) = 8%nat.
Proof. done. Qed.

Lemma length_bm_urls : length (bm_urls s) = 240%nat.
Proof.
  unfold bm_urls. cbn [seq fmap list_fmap concat]. rewrite !length_app, !bookmark_length by lia. done.
Qed.

Lemma length_body : length (body s) = 497%nat.
Proof.
  unfold body. rewrite !length_app, length_header, length_bm_lens, length_bm_urls.
  destruct Ht. cbn [length]. lia.
Qed.

(** A zeroed blob filled up to [n] with [pre]. *)
Definition filled (n : Z) (pre out : bytes) : Prop :=
  exists m, out = pre ++ replicate m 0 /\ Z.of_nat (length pre) = n /\ n + Z.of_nat m = 512.

Lemma fill (off : nat) n k n' src pre out :
  filled n pre out -> Z.of_nat off = n -> Z.of_nat (length src) = k -> n + k = n' -> n' <= 512 ->
  filled n' (pre ++ src) (wr_at off src out).
Proof.
  intros (m & -> & Hp & Hm) Hn Hk <- Hl. exists (m - length src)%nat.
  rewrite wr_append by lia. rewrite length_app. split_and!; [done|lia|lia].
Qed.

Lemma filled_start : filled 0 [] (replicate BLOB_LEN 0).
Proof. by exists BLOB_LEN. Qed.

(** One write: the position and the field's length are computed, or given by
    the typing of the settings. *)
Ltac field_length :=
  lazymatch goal with
  | |- Z.of_nat (length (bookmark_url _ !!! _)) = _ => rewrite bookmark_length by lia
  | H : length ?x = _ |- Z.of_nat (length ?x) = _ => rewrite H
  | H : length ?x = _ /\ _ |- Z.of_nat (length ?x) = _ => rewrite (proj1 H)
  | |- Z.of_nat (length (to_le _ _)) = _ => rewrite length_to_le
  | _ => idtac
  end; reflexivity.

Lemma encode_payload_filled : filled 497 (body s) (encode_payload s).
Proof.
  assert (exists n pre, filled n pre (encode_payload s) /\ n = 497 /\ pre = body s) as (? & ? & H & -> & ->); [|exact H].
  do 2 eexists. split; [|split].
  - pose proof Ht as []. unfold encode_payload, PERSIST_BOOKMARK_SLOTS. cbv zeta. cbn [foldl seq].
    rewrite (take_ge (wifi_psk s)) by lia.
    repeat (eapply fill; [|reflexivity|field_length|reflexivity|vm_compute; discriminate]).
    apply filled_start.
  - reflexivity.
  - unfold body, header, bm_lens, bm_urls. cbn [fmap list_fmap concat seq].
    rewrite !app_nil_r, <-!app_assoc. reflexivity.
Qed.

Lemma encode_payload_layout : encode_payload s = body s ++ replicate 15 0.
Proof.
  destruct encode_payload_filled as (m & -> & Hl & Hm).
  do 2 f_equal. lia.
Qed.

Definition blob_sum : Z := checksum (body s ++ replicate 11 0).

Lemma encode_layout : encode s = body s ++ replicate 11 0 ++ to_le 4 blob_sum.
Proof.
  unfold encode, wr_at. rewrite encode_payload_layout.
  change (replicate 15 0) with (replicate 11 0 ++ replicate 4 0).
  assert (length (body s ++ replicate 11 0) = 508%nat) as Hl
    by (rewrite length_app, length_body; done).
  rewrite app_assoc, take_app_length' by done. fold blob_sum.
  rewrite <-(app_nil_r (replicate 4 0)). rewrite <-Hl at 1.
  rewrite inserts_mid by (by rewrite length_to_le). by rewrite app_nil_r, <-app_assoc.
Qed.

Lemma length_encode : length (encode s) = 512%nat.
Proof. rewrite encode_layout, !length_app, length_body, length_to_le. done. Qed.
End layout.

(** ** Reading a field back *)

(** The value the decoder rebuilds: counters clamped as [encode] clamps them,
    and the default home page in place of an empty one. *)
Definition normalize (s : DeviceSettings) : DeviceSettings :=
  let hl := Z.min s.(home_url_len) 120 in {|
  display_theme := s.(display_theme);
  display_pref_width := s.(display_pref_width);
  display_pref_height := s.(display_pref_height);
  display_use_custom_resolution := s.(display_use_custom_resolution);
  wifi_enabled := s.(wifi_enabled);
  nic := s.(nic);
  internet_stack_enabled := s.(internet_stack_enabled);
  ip_config := s.(ip_config);
  static_ip := s.(static_ip);
  static_gw := s.(static_gw);
  static_dns := s.(static_dns);
  usb_polling_enabled := s.(usb_polling_enabled);
  cursor_emoji_preset := s.(cursor_emoji_preset);
  bluetooth_enabled := s.(bluetooth_enabled);
  midi_enabled := s.(midi_enabled);
  midi_usb_enabled := s.(midi_usb_enabled);
  midi_channel := Z.max 1 (Z.min s.(midi_channel) 16);
  browser_script_runtime_enabled := s.(browser_script_runtime_enabled);
  home_url := if decide (hl = 0) then put_default_home s.(home_url) else s.(home_url);
  home_url_len := if decide (hl = 0) then Z.of_nat default_home_len else hl;
  bookmark_url := s.(bookmark_url);
  bookmark_len := (fun l => Z.min l 30) <$> s.(bookmark_len);
  wifi_ssid := s.(wifi_ssid);
  wifi_ssid_len := Z.min s.(wifi_ssid_len) 32;
  wifi_psk := s.(wifi_psk);
  wifi_psk_len := Z.min s.(wifi_psk_len) 64;
  wifi_sec := s.(wifi_sec);
|}.

Lemma flags_byte_bits s :
  has_bit (flags_byte s) 1 = s.(internet_stack_enabled) /\
  has_bit (flags_byte s) 2 = s.(wifi_enabled) /\
  has_bit (flags_byte s) 4 = s.(usb_polling_enabled) /\
  has_bit (flags_byte s) 8 = s.(bluetooth_enabled) /\
  has_bit (flags_byte s) 16 = s.(midi_enabled) /\
  has_bit (flags_byte s) 32 = s.(midi_usb_enabled) /\
  has_bit (flags_byte s) 64 = s.(browser_script_runtime_enabled) /\
  is_byte (flags_byte s).
Proof.
  unfold flags_byte.
  destruct (browser_script_runtime_enabled s), (midi_usb_enabled s), (midi_enabled s),
    (bluetooth_enabled s), (usb_polling_enabled s), (wifi_enabled s), (internet_stack_enabled s);
    by_decide.
Qed.

Lemma clamp_twice m : Z.max 1 (Z.min (Z.max (Z.min m 16) 1) 16) = Z.max 1 (Z.min m 16).
Proof. lia. Qed.

Lemma of_le_to_le2 z : 0 <= z < 2 ^ 16 -> of_le (to_le 2 z) = z.
Proof. intros. apply of_le_to_le_small. by change (256 ^ Z.of_nat 2) with (2 ^ 16). Qed.

Lemma list8_eq {A} `{Inhabited A} (l : list A) :
  length l = 8%nat -> (fun i => l !!! i) <$> seq 0 8 = l.
Proof.
  intros Hl. do 8 (destruct l as [|? l]; [done|]). by destruct l.
Qed.

(** Reads one field of a concatenation whose pieces have known lengths. *)
Ltac field :=
  repeat first
    [ rewrite slice_here by (rewrite ?length_to_le; cbn [length]; lia)
    | rewrite slice_skip by (rewrite ?length_to_le; cbn [length]; lia)
    | rewrite lookup_here by (rewrite ?length_to_le; cbn [length]; lia)
    | rewrite lookup_skip by (rewrite ?length_to_le; cbn [length]; lia) ];
  rewrite ?length_to_le.

Section decode.
Context (s : DeviceSettings) (Ht : settings_typed s) (tail : bytes).

Lemma body_header_bytes :
  let d := body s ++ tail in
  slice d 0 4 = MAGIC_V2 /\ d !!! 4%nat = VERSION_V2 /\
  theme_of (d !!! 5%nat) = s.(display_theme) /\
  of_le (slice d 6 8) = s.(display_pref_width) /\ of_le (slice d 8 10) = s.(display_pref_height) /\
  has_bit (d !!! 10%nat) 1 = s.(display_use_custom_resolution) /\
  nic_of (d !!! 11%nat) = s.(nic) /\ ip_config_of (d !!! 12%nat) = s.(ip_config).
Proof.
  destruct Ht. unfold body, header, MAGIC_V2. cbn zeta. rewrite <-!app_assoc. split_and!.
  - by field.
  - by field.
  - field. cbn. by destruct (display_theme s).
  - field. by apply of_le_to_le2.
  - field. by apply of_le_to_le2.
  - field. cbn. by destruct (display_use_custom_resolution s).
  - field. cbn. by destruct (nic s).
  - field. cbn. by destruct (ip_config s).
Qed.

Lemma body_address_bytes :
  let d := body s ++ tail in
  slice d 13 17 = s.(static_ip) /\ slice d 17 21 = s.(static_gw) /\
  slice d 21 25 = s.(static_dns) /\ d !!! 25%nat = flags_byte s /\
  d !!! 26%nat = Z.max (Z.min s.(midi_channel) 16) 1 /\ d !!! 27%nat = s.(cursor_emoji_preset) /\
  d !!! 28%nat = Z.min s.(wifi_ssid_len) 32 /\ d !!! 29%nat = Z.min s.(wifi_psk_len) 64 /\
  wifi_sec_of (d !!! 30%nat) = s.(wifi_sec).
Proof.
  destruct Ht as [_ _ [Ha _] [Hb _] [Hc _] ? ? ? ? ? ? ?]. unfold body, header, MAGIC_V2. cbn zeta.
  apply list4_eq in Ha as (? & ? & ? & ? & ->), Hb as (? & ? & ? & ? & ->),
    Hc as (? & ? & ? & ? & ->).
  rewrite <-!app_assoc. split_and!; cbn; unfold wrap; try done.
  - apply Z.mod_small. lia.
  - apply Z.mod_small. lia.
  - by destruct (wifi_sec s).
Qed.

Lemma body_text_bytes :
  let d := body s ++ tail in
  slice d 32 64 = s.(wifi_ssid) /\ slice d 64 128 = s.(wifi_psk) /\
  d !!! 128%nat = Z.min s.(home_url_len) 120 /\ slice d 129 249 = s.(home_url).
Proof.
  destruct Ht as [? ? ? ? ? ? ? [? [? Hh]] ? ? ? ?]. pose proof (length_header s Ht) as Hl.
  unfold body. cbn zeta. rewrite <-!app_assoc. unfold is_byte in Hh.
  split_and!; field; try done.
  replace (128 - _ - _ - _)%nat with 0%nat by lia. cbn. unfold wrap. apply Z.mod_small. lia.
Qed.

Lemma body_bm_len_byte i : (i < 8)%nat ->
  (body s ++ tail) !!! (249 + i)%nat = Z.min (s.(bookmark_len) !!! i) 30.
Proof.
  intros Hi. destruct Ht as [? ? ? ? ? ? ? [? [? Hh]] ? ? ? ?].
  pose proof (length_header s Ht) as Hl. pose proof (length_bm_lens s) as Hb.
  unfold body. rewrite <-!app_assoc. field.
  cbn [length]. rewrite Hl.
  replace (249 + i - 32 - _ - _ - 1 - _)%nat with i by lia.
  unfold bm_lens. do 8 (destruct i as [|i]; [done|]). lia.
Qed.

Lemma body_bm_url_bytes i : (i < 8)%nat ->
  slice (body s ++ tail) (257 + i * 30) (257 + i * 30 + 30) = s.(bookmark_url) !!! i.
Proof.
  intros Hi. destruct Ht as [? ? ? ? ? ? ? [? [? Hh]] ? ? ? ?].
  pose proof (length_header s Ht) as Hl. pose proof (length_bm_lens s) as Hb.
  pose proof (bookmark_length s Ht) as Hu.
  unfold body, bm_urls. cbn [seq fmap list_fmap concat]. rewrite <-!app_assoc.
  do 8 (destruct i as [|i]; [repeat first
    [ rewrite slice_skip by (rewrite ?Hu by lia; cbn [length]; lia)
    | rewrite slice_here by (rewrite ?Hu by lia; cbn [length]; lia) ]; done|]). lia.
Qed.

Lemma decode_body_encode : decode_body (body s ++ tail) = normalize s.
Proof.
  pose proof body_header_bytes as (_ & _ & E1 & E2 & E3 & E4 & E5 & E6).
  pose proof body_address_bytes as (F1 & F2 & F3 & F4 & F5 & F6 & F7 & F8 & F9).
  pose proof body_text_bytes as (G1 & G2 & G3 & G4).
  pose proof (flags_byte_bits s) as (B1 & B2 & B3 & B4 & B5 & B6 & B7 & _).
  pose proof Ht as [? ? ? ? ? ? ? ? ? [Hbl _] [_ [_ ?]] [_ [_ ?]]].
  unfold decode_body, normalize.
  rewrite E1, E2, E3, E4, E5, E6, F1, F2, F3, F4, F5, F6, F7, F8, F9, G1, G2, G3, G4,
    B1, B2, B3, B4, B5, B6, B7.
  rewrite <-!Z.min_assoc, (Z.min_id 120), (Z.min_id 32), (Z.min_id 64).
  rewrite clamp_twice. clear - Ht Hbl. f_equal.
  - etransitivity; [|apply (list8_eq (bookmark_url s)); destruct Ht; tauto].
    apply list_fmap_ext. intros k i Hi. apply body_bm_url_bytes. apply lookup_seq in Hi. lia.
  - rewrite <-(list8_eq (bookmark_len s) Hbl) at 1. rewrite <-list_fmap_compose.
    apply list_fmap_ext. intros k i Hi. rewrite body_bm_len_byte by (apply lookup_seq in Hi; lia).
    cbn. lia.
Qed.
End decode.

(** ** The checksum *)

Lemma checksum_step_range c b : 0 <= checksum_step c b < 2 ^ 32.
Proof. unfold checksum_step, wrap. apply Z.mod_pos_bound. lia. Qed.

Lemma checksum_fold_range l c : 0 <= c < 2 ^ 32 -> 0 <= fold_left checksum_step l c < 2 ^ 32.
Proof.
  revert c. induction l as [|b l IH]; intros c Hc; [done|]. apply IH, checksum_step_range.
Qed.

Lemma checksum_range l : 0 <= checksum l < 2 ^ 32.
Proof. by apply checksum_fold_range. Qed.

Lemma wrap_add_cancel a b x :
  0 <= a < 2 ^ 32 -> 0 <= b < 2 ^ 32 -> wrap32 (a + x) = wrap32 (b + x) -> a = b.
Proof.
  unfold wrap. intros Ha Hb E.
  rewrite <-(Z.mod_small a (2 ^ 32)), <-(Z.mod_small b (2 ^ 32)) by done.
  replace a with (a + x - x) by lia. replace b with (b + x - x) by lia.
  by rewrite <-(Zminus_mod_idemp_l (a + x)), E, Zminus_mod_idemp_l.
Qed.

(** Each step is injective in the running sum and in the byte. *)
Lemma checksum_step_inj c c' b :
  0 <= c < 2 ^ 32 -> 0 <= c' < 2 ^ 32 -> checksum_step c b = checksum_step c' b -> c = c'.
Proof.
  intros Hc Hc' E. apply wrap_add_cancel in E; [|apply Z.mod_pos_bound; lia..].
  by apply (wrap_mul_inj 31 0xbdef7bdf) in E.
Qed.

Lemma checksum_step_byte c b b' :
  is_byte b -> is_byte b' -> checksum_step c b = checksum_step c b' -> b = b'.
Proof.
  unfold checksum_step, is_byte. intros. rewrite !(Z.add_comm (wrap32 (c * 31))) in *.
  eapply wrap_add_cancel; [lia|lia|done].
Qed.

Lemma checksum_fold_inj l c c' :
  0 <= c < 2 ^ 32 -> 0 <= c' < 2 ^ 32 ->
  fold_left checksum_step l c = fold_left checksum_step l c' -> c = c'.
Proof.
  revert c c'. induction l as [|b l IH]; intros c c' Hc Hc' E; [done|].
  apply IH in E; [|apply checksum_step_range..]. by eapply checksum_step_inj.
Qed.

(** Two payloads that differ in one byte have different checksums. *)
Lemma checksum_change l i b :
  is_bytes l -> is_byte b -> (i < length l)%nat -> b <> l !!! i -> checksum (<[i:=b]> l) <> checksum l.
Proof.
  intros Hl Hb Hi Hne E. destruct (lookup_lt_is_Some_2 l i Hi) as [x Hx].
  rewrite (list_lookup_total_correct _ _ _ Hx) in Hne.
  apply (list_elem_of_split_length l) in Hx as (l1 & l2 & -> & ->).
  rewrite insert_app_r_alt, Nat.sub_diag in E by lia. cbn in E. unfold checksum in E.
  rewrite !fold_left_app in E. cbn [fold_left] in E.
  apply Forall_app in Hl as [_ [Hx _]%Forall_cons].
  apply checksum_fold_inj, checksum_step_byte in E; try done; apply checksum_step_range.
Qed.


(** ** Properties *)

(** The bounds every running configuration keeps: what the indexing of the
    other components relies on. *)
Record settings_ok (s : DeviceSettings) : Prop := {
  so_typed : settings_typed s;
  so_midi : 1 <= s.(midi_channel) <= 16;
  so_home : 1 <= s.(home_url_len) <= 120;
  so_bookmarks : Forall (fun l => l <= 30) s.(bookmark_len);
  so_ssid : s.(wifi_ssid_len) <= 32;
  so_psk : s.(wifi_psk_len) <= 64;
}.

Lemma settings_new_ok : settings_ok settings_new.
Proof. split; [apply settings_new_typed|by_decide..]. Qed.

Lemma byte_lookup l i : is_bytes l -> is_byte (l !!! i).
Proof.
  intros Hl. destruct (decide (i < length l)%nat) as [Hi|Hi].
  - by apply Forall_lookup_total_1.
  - rewrite list_lookup_total_alt, lookup_ge_None_2 by lia. by_decide.
Qed.

Lemma of_le_slice2 l a :
  is_bytes l -> (a + 2 <= length l)%nat -> 0 <= of_le (slice l a (a + 2)) < 2 ^ 16.
Proof.
  intros Hl Ha. pose proof (of_le_bound (slice l a (a + 2))) as Hb.
  rewrite length_slice in Hb by lia. replace (a + 2 - a)%nat with 2%nat in Hb by lia.
  apply Hb. by apply Forall_slice.
Qed.

Lemma put_default_home_bytes a :
  length a = 120%nat -> is_bytes a -> length (put_default_home a) = 120%nat /\ is_bytes (put_default_home a).
Proof.
  intros Hl Ha. unfold put_default_home. rewrite length_inserts. split; [done|].
  rewrite inserts_split by (rewrite Hl; vm_compute; lia).
  apply Forall_app_2; [by apply Forall_take|]. apply Forall_app_2; [by_decide|by apply Forall_drop].
Qed.

Lemma decode_body_ok data :
  length data = 512%nat -> is_bytes data -> settings_ok (decode_body data).
Proof.
  intros Hl Hb. pose proof (fun a b => Forall_slice _ data a b Hb) as Hs.
  pose proof (fun i => byte_lookup data i Hb) as Hy. unfold is_byte in Hy.
  assert (forall a b, (a <= b <= 512)%nat -> length (slice data a b) = (b - a)%nat) as Hn
    by (intros; apply length_slice; lia).
  destruct (put_default_home_bytes (slice data 129 249)) as [Hh Hh']; [by apply Hn; lia|apply Hs|].
  pose proof (Hy 128%nat). pose proof (Hy 26%nat). pose proof (Hy 28%nat). pose proof (Hy 29%nat).
  split; [split|..]; cbn [decode_body display_pref_width display_pref_height static_ip static_gw
    static_dns cursor_emoji_preset midi_channel home_url home_url_len bookmark_url bookmark_len
    wifi_ssid wifi_ssid_len wifi_psk wifi_psk_len].
  - apply (of_le_slice2 data 6); [done|lia].
  - apply (of_le_slice2 data 8); [done|lia].
  - split; [apply (Hn 13 17)%nat; lia|apply Hs].
  - split; [apply (Hn 17 21)%nat; lia|apply Hs].
  - split; [apply (Hn 21 25)%nat; lia|apply Hs].
  - apply Hy.
  - unfold is_byte. lia.
  - case_decide; (split_and!; [|..]); try done; try (by apply Hn; lia); try apply Hs; unfold is_byte; lia.
  - split; [done|]. apply Forall_fmap, Forall_seq. intros i Hi.
    unfold PERSIST_BOOKMARK_URL_CAP, PERSIST_BOOKMARK_SLOTS in *. split; [rewrite (Hn _ _); lia|apply Hs].
  - split; [done|]. apply Forall_fmap, Forall_seq. intros i Hi. specialize (Hy (249 + i)%nat).
    unfold compose, is_byte. lia.
  - split_and!; [apply (Hn 32 64)%nat; lia|apply Hs|lia|unfold usize_max; lia].
  - split_and!; [apply (Hn 64 128)%nat; lia|apply Hs|lia|unfold usize_max; lia].
  - lia.
  - case_decide; [vm_compute; split; discriminate|lia].
  - apply Forall_fmap, Forall_seq. intros i Hi. unfold compose. lia.
  - lia.
  - lia.
Qed.

Lemma set_display_ok s data :
  (28 <= length data)%nat -> is_bytes data -> settings_ok s -> settings_ok (set_display s data).
Proof.
  intros Hl Hb [[] ? ? ? ? ?].
  split; [split|..]; try done; cbn [set_display display_pref_width display_pref_height].
  - apply (of_le_slice2 data 6); [done|lia].
  - apply (of_le_slice2 data 8); [done|lia].
Qed.

(** [out]: the updated settings and the success flag of a decoder on a buffer
    that passes every check. *)
Lemma decode_v2_valid s d :
  length d = 512%nat -> slice d 0 4 = MAGIC_V2 -> d !!! 4%nat = VERSION_V2 ->
  checksum (slice d 0 508) = of_le (slice d 508 512) ->
  decode_merge s d = (decode_body d, true).
Proof.
  intros Hl Hm Hv Hc. unfold decode_merge, decode_v2, BLOB_LEN.
  rewrite decide_True by (split; [lia|done]). rewrite !decide_False by (try lia; congruence). done.
Qed.

(** A successful EVS2 decode passed every check. *)
Lemma decode_v2_inv s s' d :
  decode_v2 s d = (s', true) ->
  (512 <= length d)%nat /\ slice d 0 4 = MAGIC_V2 /\ d !!! 4%nat = VERSION_V2 /\
  checksum (slice d 0 508) = of_le (slice d 508 512) /\ s' = decode_body d.
Proof.
  unfold decode_v2, BLOB_LEN.
  destruct (decide _); [done|]. destruct (decide _) as [|Hm]; [done|].
  destruct (decide _) as [|Hv]; [done|]. destruct (decide _) as [|Hc]; [done|].
  apply dec_stable in Hm, Hv, Hc. intros [= <-]. split_and!; auto. lia.
Qed.

(** [decode_v2] reads the first 512 bytes only. *)
Lemma decode_body_take data : decode_body (take 512 data) = decode_body data.
Proof.
  assert (forall a b, (b <= 512)%nat -> slice (take 512 data) a b = slice data a b) as Hs.
  { intros a b Hab. unfold slice. rewrite skipn_firstn_comm, take_take. f_equal. lia. }
  assert (forall i, (i < 512)%nat -> take 512 data !!! i = data !!! i) as Hi
    by (intros; by apply lookup_total_take_lt).
  unfold decode_body. rewrite !Hs, !Hi by lia. f_equal.
  - apply list_fmap_ext. intros k i Hk%lookup_seq. rewrite Hs; [done|].
    unfold PERSIST_BOOKMARK_URL_CAP, PERSIST_BOOKMARK_SLOTS in *. lia.
  - apply list_fmap_ext. intros k i Hk%lookup_seq. rewrite Hi; [done|].
    unfold PERSIST_BOOKMARK_SLOTS in *. lia.
Qed.

Lemma of_le_inj l l' :
  is_bytes l -> is_bytes l' -> length l = length l' -> of_le l = of_le l' -> l = l'.
Proof. intros Hl Hl' Hn E. by rewrite <-(to_le_of_le l), E, Hn, to_le_of_le. Qed.

Lemma encode_sum s :
  settings_typed s -> checksum (slice (encode s) 0 508) = of_le (slice (encode s) 508 512).
Proof.
  intros Ht. rewrite encode_layout, app_assoc by done.
  assert (length (body s ++ replicate 11 0) = 508%nat) as Hl by (by rewrite length_app, length_body).
  rewrite slice_here, slice_skip by lia. rewrite <-(app_nil_r (to_le 4 _)).
  rewrite slice_here by (rewrite ?length_to_le; lia).
  rewrite of_le_to_le_small; [done|apply checksum_range].
Qed.

Lemma decode_merge_encode_aux s s0 :
  settings_typed s -> decode_merge s0 (encode s) = (normalize s, true).
Proof.
  intros Ht. pose proof (length_encode s Ht) as Hl. pose proof (encode_sum s Ht) as Hc.
  rewrite encode_layout in * by done.
  pose proof (body_header_bytes s Ht (replicate 11 0 ++ to_le 4 (blob_sum s))) as (Hm & Hv & _).
  rewrite decode_v2_valid by done.
  by rewrite decode_body_encode.
Qed.

(** C20: saving and restoring loses nothing: decoding the encoded settings succeeds
    from any starting state and yields them with the counters clamped to the
    fixed arrays ([normalize]). *)
Theorem decode_merge_encode s s0 :
  settings_typed s -> decode_merge s0 (encode s) = (normalize s, true).
Proof. apply decode_merge_encode_aux. Qed.

Lemma decode_merge_encode_witness :
  decode_merge settings_new (encode (with_ip settings_new Static [10; 0; 0; 9] [10; 0; 0; 1] [8; 8; 4; 4])) =
  (normalize (with_ip settings_new Static [10; 0; 0; 9] [10; 0; 0; 1] [8; 8; 4; 4]), true).
Proof. apply decode_merge_encode, with_ip_typed; by_decide. Defined.

(** No decoder input breaks the running configuration: whatever sector comes
    back from disk, accepted or not, the settings keep their array lengths and
    widths and every counter stays inside its buffer. *)
Theorem decode_merge_ok s data :
  is_bytes data -> settings_ok s -> settings_ok (decode_merge s data).1.
Proof.
  intros Hb Hs. unfold decode_merge. destruct (decide (4 <= _ /\ _)%nat) as [|_].
  - unfold decode_v2, BLOB_LEN.
    destruct (decide _) as [|Hl]; [done|]. do 3 (destruct (decide _); [done|]). cbn.
    rewrite <-decode_body_take.
    apply decode_body_ok; [rewrite length_take; lia|by apply Forall_take].
  - unfold decode_v1_display_only. destruct (decide _) as [|Hl]; [done|].
    do 3 (destruct (decide _); [done|]). apply set_display_ok; [lia|done|done].
Qed.

Lemma decode_merge_ok_witness : settings_ok (decode_merge settings_new (replicate 512 255)).1.
Proof. apply decode_merge_ok; [by_decide|apply settings_new_ok]. Defined.

(** Corruption is detected: when one byte of a blob that decodes as EVS2 is
    replaced by any other byte, the decoder rejects it and leaves the settings
    as they were (magic, version, payload or stored checksum alike). *)
Theorem decode_merge_corrupt s s' d i b :
  length d = 512%nat -> is_bytes d -> decode_v2 s d = (s', true) ->
  (i < 512)%nat -> is_byte b -> b <> d !!! i ->
  decode_merge s (<[i:=b]> d) = (s, false).
Proof.
  intros Hl Hd (_ & Hm & Hv & Hc & _)%decode_v2_inv Hi Hb Hne.
  assert (forall a e, (a <= i < e)%nat -> (e <= 512)%nat ->
            slice (<[i:=b]> d) a e <> slice d a e) as Hin
    by (intros; apply slice_changed; [lia|lia|done]).
  assert (forall k, k <> i -> <[i:=b]> d !!! k = d !!! k) as Hk
    by (intros; by apply list_lookup_total_insert_ne).
  unfold decode_merge. destruct (decide (i < 4)%nat).
  { rewrite decide_False by (intros [_ E]; apply (Hin 0%nat 4%nat); [lia|lia|congruence]).
    unfold decode_v1_display_only. rewrite length_insert, decide_False by lia.
    destruct (decide _); [done|]. rewrite decide_True; [done|]. rewrite Hk, Hv by lia. done. }
  assert (slice (<[i:=b]> d) 0 4 = MAGIC_V2) as Hm' by (by rewrite slice_insert_out by lia).
  rewrite length_insert, decide_True by (split; [lia|done]).
  unfold decode_v2, BLOB_LEN. rewrite length_insert.
  destruct (decide _); [done|]. destruct (decide _); [done|].
  destruct (decide _) as [|Hv']; [done|]. apply dec_stable in Hv'.
  rewrite decide_True; [done|]. intros E.
  destruct (decide (i = 4)%nat) as [->|].
  { apply Hne. rewrite Hv, <-Hv'. symmetry. apply list_lookup_total_insert_eq. lia. }
  destruct (decide (i < 508)%nat).
  - rewrite slice_insert_in, slice_insert_out, <-Hc in E by lia.
    apply checksum_change in E; [done|by apply Forall_slice|done| |].
    + rewrite length_slice; lia.
    + by rewrite lookup_slice by lia.
  - rewrite slice_insert_out, Hc in E by lia. apply (Hin 508%nat 512%nat); [lia|lia|].
    symmetry. apply of_le_inj; [apply Forall_slice; done|apply Forall_slice, Forall_insert; done| |done].
    rewrite !length_slice; rewrite ?length_insert; lia.
Qed.

Lemma decode_merge_corrupt_witness :
  decode_merge settings_new (<[200%nat := 7]> (encode settings_new)) = (settings_new, false).
Proof.
  apply (decode_merge_corrupt settings_new (normalize settings_new));
    [vm_compute; reflexivity|by_decide|vm_compute; reflexivity|lia|by_decide|vm_compute; discriminate].
Defined.

Lemma encode_bytes s : settings_typed s -> is_bytes (encode s).
Proof.
  intros Ht. rewrite encode_layout by done.
  assert (is_byte (flags_byte s)) as Hf by apply flags_byte_bits.
  assert (forall z, 0 <= z < 256 -> is_byte z) as Hz by done.
  assert (forall z, is_byte (wrap8 z)) as Hw by (intros; apply Z.mod_pos_bound; lia).
  assert (forall i, (i < 8)%nat -> Forall is_byte (bookmark_url s !!! i)) as Hu.
  { intros i Hi. destruct Ht as [? ? ? ? ? ? ? ? [Hl Hb] ? ? ?].
    destruct (lookup_lt_is_Some_2 (bookmark_url s) i) as [u Hl']; [lia|].
    rewrite (list_lookup_total_correct _ _ _ Hl'). by apply (Forall_lookup_1 _ _ _ _ Hb Hl'). }
  assert (forall i, is_byte (bookmark_len s !!! i)) as Hbl by (intros; apply byte_lookup, Ht).
  assert (is_byte (match display_theme s with Light => 0 | Dark => 1 end)) by (destruct (display_theme s); by_decide).
  assert (is_byte (if display_use_custom_resolution s then 1 else 0))
    by (destruct (display_use_custom_resolution s); by_decide).
  assert (is_byte (NicChoice_u8 (nic s))) by (destruct (nic s); by_decide).
  assert (is_byte (IpConfig_u8 (ip_config s))) by (destruct (ip_config s); by_decide).
  assert (is_byte (WifiSecurity_u8 (wifi_sec s))) by (destruct (wifi_sec s); by_decide).
  assert (is_byte 0) by by_decide. assert (is_byte VERSION_V2) by by_decide.
  assert (is_byte (Z.max (Z.min (midi_channel s) 16) 1)) by (unfold is_byte; lia).
  assert (forall i, is_byte (Z.min (bookmark_len s !!! i) 30)) as Hm
    by (intros i; specialize (Hbl i); unfold is_byte in *; lia).
  destruct Ht. unfold body, header, MAGIC_V2, bm_lens.
  repeat apply Forall_app_2; try tauto; try apply is_bytes_to_le; try by_decide;
    repeat (apply Forall_cons_2 || apply Forall_nil_2); auto with lia.
Qed.

Section disk_laws.
Context {D : Type} `{BlockDevOk D}.

Lemma save_load_eq blk blk' s s0 :
  settings_typed s -> save blk s = (blk', true) ->
  (forall lba, lba <> capacity blk - 1 -> sector blk' lba = sector blk lba) /\
  let '(_, s1, ok) := load blk' s0 in
  (ok = true /\ s1 = normalize s) \/
  (ok = false /\ s1 = s0 /\ (read_sector blk' (capacity blk' - 1)).2 = None).
Proof.
  intros Ht. unfold save, load. destruct (decide (capacity blk = 0)) as [|Hc]; [done|].
  intros Hw. assert (Hcap := write_capacity blk (capacity blk - 1) (encode s)).
  assert (Hst := write_stores blk (capacity blk - 1) (encode s)).
  assert (Hkp := write_keeps blk (capacity blk - 1) (encode s)).
  rewrite Hw in Hcap, Hst, Hkp. cbn in Hcap, Hst, Hkp. rewrite Hcap. split; [intros; apply Hkp; lia|].
  rewrite decide_False by done.
  destruct (read_sector blk' (capacity blk - 1)) as [blk'' [sec|]] eqn:Hr; [|by right].
  assert (sec = encode s) as ->.
  { assert (Hrt := read_returns blk' (capacity blk - 1) sec). rewrite Hr in Hrt.
    destruct Hrt as [-> _]; [done|]. apply Hst; [|done].
    split; [by apply length_encode|by apply encode_bytes]. }
  rewrite decode_merge_encode_aux by done. by left.
Qed.

(** C32: power cycles keep the settings: after a successful [save], a [load] from
    the same disk whose read succeeds restores them (normalized) whatever the
    settings before the load were, no sector but the last one was touched, and
    a [load] whose read fails changes nothing. *)
Theorem save_load blk blk' s s0 :
  settings_typed s -> save blk s = (blk', true) ->
  (forall lba, lba <> capacity blk - 1 -> sector blk' lba = sector blk lba) /\
  let '(_, s1, ok) := load blk' s0 in
  (ok = true /\ s1 = normalize s) \/
  (ok = false /\ s1 = s0 /\ (read_sector blk' (capacity blk' - 1)).2 = None).
Proof. apply save_load_eq. Qed.
End disk_laws.

Lemma save_load_witness :
  let s := with_ip settings_new Static [10; 0; 0; 9] [10; 0; 0; 1] [8; 8; 4; 4] in
  let blk' := (save (blank_disk 4) s).1 in
  (forall lba, lba <> capacity (blank_disk 4) - 1 -> sector blk' lba = sector (blank_disk 4) lba) /\
  let '(_, s1, ok) := load blk' settings_new in
  (ok = true /\ s1 = normalize s) \/
  (ok = false /\ s1 = settings_new /\ (read_sector blk' (capacity blk' - 1)).2 = None).
Proof.
  apply (save_load (blank_disk 4)); [apply with_ip_typed; by_decide|vm_compute; reflexivity].
Defined.
