(* ===== verification/VirtioBlk.v ===== *)
(** * The VirtIO block driver ([kernel/src/virtio_blk.rs])

    Start-up (capability walk, feature negotiation, queue 0) and the sector
    requests: a chain of three descriptors, the available ring, the notify
    register and the wait for the used index.  The pages of a device ([BLK0],
    [BLK1]) are shared with it: [spin] is what the device does to them between
    two of the driver's reads.  [VirtioBlkOk.v] shows that the driver over a
    device that follows the VirtIO protocol and answers within the driver's
    polls is a [BlockDev] that keeps the promises of [BlockDevOk]. *)

From S2P Require Import Prelude Ports Pci.

Definition VIRTIO_PCI_CAP : Z := 0x09.
Definition CFG_COMMON : Z := 1.
Definition CFG_NOTIFY : Z := 2.
Definition CFG_DEVICE : Z := 4.
Definition STATUS_ACK : Z := 1.
Definition STATUS_DRIVER : Z := 2.
Definition STATUS_FEATURES_OK : Z := 8.
Definition STATUS_DRIVER_OK : Z := 4.
Definition VIRTQ_DESC_F_NEXT : Z := 1.
Definition VIRTQ_DESC_F_WRITE : Z := 2.
Definition VIRTIO_BLK_F_RO : Z := 32.
Definition VIRTIO_BLK_F_BLK_SIZE : Z := 64.
Definition VIRTIO_BLK_T_IN : Z := 0.
Definition VIRTIO_BLK_T_OUT : Z := 1.
Definition VIRTIO_BLK_S_OK : Z := 0.
Definition BLK_QSZ : nat := 64.
Definition SECTOR : nat := 512.

(** ** The shared pages *)

Record VirtqDesc := { d_addr : Z; d_len : Z; d_flags : Z; d_next : Z }.

Definition no_desc : VirtqDesc := {| d_addr := 0; d_len := 0; d_flags := 0; d_next := 0 |}.

(** [BlkPages]; of the two rings, the parts the driver or the device use. *)
Record BlkPages := {
  desc : list VirtqDesc;
  avail_flags : Z;
  avail_idx : Z;
  avail_ring : list Z;
  used_flags : Z;
  used_idx : Z;
  req : bytes;
  data : bytes;
  status : Z;
  vq_last_seen : Z;
}.
#[export] Instance BlkPages_eta : Settable BlkPages := fun p =>
  Build_BlkPages p.(desc) p.(avail_flags) p.(avail_idx) p.(avail_ring) p.(used_flags) p.(used_idx)
    p.(req) p.(data) p.(status) p.(vq_last_seen).

Definition BLK_zero : BlkPages := {|
  desc := replicate 4 no_desc; avail_flags := 0; avail_idx := 0; avail_ring := replicate BLK_QSZ 0;
  used_flags := 0; used_idx := 0; req := replicate 16 0; data := replicate SECTOR 0; status := 0;
  vq_last_seen := 0 |}.

(** Offsets of the fields in the [repr(C, align(16))] layout. *)
Definition off_desc : Z := 0.
Definition off_avail : Z := 64.
Definition off_used : Z := 200.
Definition off_req : Z := 720.
Definition off_data : Z := 736.
Definition off_status : Z := 1248.

(** [VirtioBlk]; [pages] is the address of its pages. *)
Record VirtioBlk := {
  common : Z;
  notify : Z;
  notify_mul : Z;
  device_cfg : Z;
  phys_skew : option Z;
  qmask : Z;
  pages : Z;
  capacity : Z;
  sector_size : Z;
}.

Class VirtioMachine (W : Type) := {
  vm_mmio :: Mmio W;
  spin : W -> BlkPages -> W * BlkPages;
}.

(** [phys] *)
Definition phys (skew : option Z) (virt : Z) : Z :=
  match skew with Some off => wrap64 (virt - off) | None => virt end.

Section driver.
Context {W : Type} `{Mmio W}.

(** ** Start-up *)

Definition cfg32 (f : PciFn) (off : Z) (w : W) : W * Z :=
  let '(w, b0) := read_u8 f (wrap8 off) w in
  let '(w, b1) := read_u8 f (wrap8 (off + 1)) w in
  let '(w, b2) := read_u8 f (wrap8 (off + 2)) w in
  let '(w, b3) := read_u8 f (wrap8 (off + 3)) w in
  (w, Z.lor (Z.lor (Z.lor b0 (Z.shiftl b1 8)) (Z.shiftl b2 16)) (Z.shiftl b3 24)).

Definition bar_mem (f : PciFn) (idx : Z) (w : W) : W * option Z :=
  let '(w, raw) := read_u32 f (0x10 + idx * 4) w in
  (w, if decide (raw = 0 \/ raw = 0xFFFFFFFF \/ Z.land raw 1 <> 0) then None
      else Some (Z.land raw 0xFFFFFFF0)).

Fixpoint read_bars (f : PciFn) (mmio_off : option Z) (idxs : list Z) (w : W) : W * list (option Z) :=
  match idxs with
  | [] => (w, [])
  | i :: idxs =>
      let '(w, b) := bar_mem f i w in
      let '(w, l) := read_bars f mmio_off idxs w in
      (w, (pci_mmio_kernel_addr mmio_off <$> b) :: l)
  end.

(** What the capability walk finds: bar and offset of the three structures,
    and the notify multiplier. *)
Record Caps := { cap_common : option (Z * Z); cap_notify : option (Z * Z * Z); cap_devcfg : option (Z * Z) }.
#[export] Instance Caps_eta : Settable Caps := fun c =>
  Build_Caps c.(cap_common) c.(cap_notify) c.(cap_devcfg).

(** One round of [for _ in 0..64]. *)
Definition cap_round (f : PciFn) (st : Z * Caps * W) : (Z * Caps * W) + (Caps * W) :=
  let '(cap, c, w) := st in
  if decide (cap = 0) then inr (c, w)
  else
    let '(w, id) := read_u8 f cap w in
    let '(c, w) :=
      if decide (id = VIRTIO_PCI_CAP) then
        let '(w, ty) := read_u8 f (wrap8 (cap + 3)) w in
        let '(w, bar) := read_u8 f (wrap8 (cap + 4)) w in
        let '(w, off) := cfg32 f (wrap8 (cap + 8)) w in
        if decide (ty = CFG_COMMON) then (c <| cap_common := Some (bar, off) |>, w)
        else if decide (ty = CFG_NOTIFY) then
          let '(w, mul) := cfg32 f (wrap8 (cap + 16)) w in
          (c <| cap_notify := Some (bar, off, mul) |>, w)
        else if decide (ty = CFG_DEVICE) then (c <| cap_devcfg := Some (bar, off) |>, w)
        else (c, w)
      else (c, w) in
    let '(w, next) := read_u8 f (wrap8 (cap + 1)) w in
    inl (if decide (next <> 0) then Z.land next 0xFC else next, c, w).

Definition walk_caps (f : PciFn) (cap : Z) (w : W) : Caps * W :=
  match for_upto (cap_round f) 64 (cap, {| cap_common := None; cap_notify := None; cap_devcfg := None |}, w) with
  | inl (_, c, w) => (c, w)
  | inr r => r
  end.

(** [bars[bar as usize]?.wrapping_add(off)]: the array has six entries. *)
Definition bar_addr (bars : list (option Z)) (bar off : Z) : rust (option Z) :=
  b ← rd bars (Z.to_nat bar);
  Ret (match b with Some a => Some (wrap64 (a + off)) | None => None end).

Definition is_power_of_two (n : Z) : bool := bool_decide (0 < n /\ Z.land n (n - 1) = 0).

(** From the reset to the queue size: [None] where [init] gives up. *)
Definition negotiate (reject_read_only : bool) (base : Z) (w : W) : W * option Z :=
  let w := mm_w8 (base + 20) 0 w in
  let w := mm_w8 (base + 20) STATUS_ACK w in
  let w := mm_w8 (base + 20) (Z.lor STATUS_ACK STATUS_DRIVER) w in
  let w := mm_w32 base 0 w in
  let '(w, dev_f0) := mm_r32 (base + 4) w in
  if decide (reject_read_only = true /\ Z.land dev_f0 VIRTIO_BLK_F_RO <> 0) then (w, None)
  else
    let driver_f0 := Z.ldiff (Z.ldiff dev_f0 VIRTIO_BLK_F_RO) VIRTIO_BLK_F_BLK_SIZE in
    let w := mm_w32 (base + 8) 0 w in
    let w := mm_w32 (base + 12) driver_f0 w in
    let w := mm_w32 base 1 w in
    let '(w, dev_f1) := mm_r32 (base + 4) w in
    let w := mm_w32 (base + 8) 1 w in
    let w := mm_w32 (base + 12) (Z.land dev_f1 1) w in
    let w := mm_w8 (base + 20) (Z.lor (Z.lor STATUS_ACK STATUS_DRIVER) STATUS_FEATURES_OK) w in
    let '(w, st) := mm_r8 (base + 20) w in
    if decide (Z.land st STATUS_FEATURES_OK = 0) then (w, None)
    else
      let w := mm_w16 (base + 22) 0 w in
      let '(w, q0max) := mm_r16 (base + 24) w in
      if decide (q0max < 4 \/ is_power_of_two q0max = false) then (w, None)
      else (w, Some (Z.min (Z.of_nat BLK_QSZ) q0max)).

Definition setup_queue (base queue_size p_desc p_avail p_used : Z) (w : W) : W :=
  let w := mm_w16 (base + 22) 0 w in
  let w := mm_w16 (base + 24) queue_size w in
  let w := mm_w16 (base + 26) 0xFFFF w in
  let w := mm_w16 (base + 28) 0 w in
  let w := mm_w64 (base + 32) p_desc w in
  let w := mm_w64 (base + 40) p_avail w in
  let w := mm_w64 (base + 48) p_used w in
  mm_w16 (base + 28) 1 w.

(** [init]: [va] is the address of the pages [BLK0] or [BLK1] picked by
    [pages_slot], [p] their contents. *)
Definition init (f : PciFn) (physical_memory_offset : option Z) (pages_slot : Z) (va : Z)
    (reject_read_only : bool) (p : BlkPages) (w : W) : W * rust (option (VirtioBlk * BlkPages)) :=
  if decide (pages_slot <> 0 /\ pages_slot <> 1) then (w, Ret None)
  else
    let w := pci_enable_mmio_bm f w in
    let '(w, bars) := read_bars f physical_memory_offset (seqZ 0 6) w in
    let '(w, cap) := read_u8 f 0x34 w in
    let '(c, w) := walk_caps f (Z.land cap 0xFC) w in
    match cap_common c, cap_notify c, cap_devcfg c with
    | Some (cbar, coff), Some (nbar, noff, nmul), Some (dbar, doff) =>
        match bar_addr bars cbar coff with
        | Ret (Some common_base) =>
            match bar_addr bars nbar noff with
            | Ret (Some notify_base) =>
                match bar_addr bars dbar doff with
                | Ret (Some device_cfg) =>
                    let '(w, q) := negotiate reject_read_only common_base w in
                    match q with
                    | None => (w, Ret None)
                    | Some q_use =>
                        let '(w, cap_lo) := mm_r32 device_cfg w in
                        let '(w, cap_hi) := mm_r32 (device_cfg + 4) w in
                        let skew := physical_memory_offset in
                        let dev := {|
                          common := common_base; notify := notify_base; notify_mul := nmul;
                          device_cfg := device_cfg; phys_skew := skew; qmask := q_use - 1; pages := va;
                          capacity := Z.lor cap_lo (Z.shiftl cap_hi 32);
                          sector_size := Z.of_nat SECTOR |} in
                        match wr (desc p) 0 no_desc with
                        | Panic => (w, Panic)
                        | Ret ds =>
                            let p := p <| desc := ds |> <| avail_flags := 0 |> <| avail_idx := 0 |>
                              <| used_flags := 0 |> <| used_idx := 0 |> <| vq_last_seen := 0 |> in
                            let w := setup_queue common_base q_use (phys skew (va + off_desc))
                              (phys skew (va + off_avail)) (phys skew (va + off_used)) w in
                            let w := mm_w8 (common_base + 20)
                              (Z.lor (Z.lor (Z.lor STATUS_ACK STATUS_DRIVER) STATUS_FEATURES_OK)
                                STATUS_DRIVER_OK) w in
                            (w, Ret (Some (dev, p)))
                        end
                    end
                | Ret None => (w, Ret None)
                | Panic => (w, Panic)
                end
            | Ret None => (w, Ret None)
            | Panic => (w, Panic)
            end
        | Ret None => (w, Ret None)
        | Panic => (w, Panic)
        end
    | _, _, _ => (w, Ret None)
    end.

(** ** Requests *)

Definition fill_req_header (r : bytes) (typ sector : Z) : rust bytes :=
  r ← copy_at r 0 (to_le 4 typ);
  r ← copy_at r 4 (to_le 4 0);
  copy_at r 8 (to_le 8 sector).

(** The three descriptors; [data_flags] is the direction of the data. *)
Definition fill_descs (dev : VirtioBlk) (data_flags : Z) (p : BlkPages) : rust BlkPages :=
  let at_ off := phys (phys_skew dev) (pages dev + off) in
  ds ← wr (desc p) 0 {| d_addr := at_ off_req; d_len := 16; d_flags := VIRTQ_DESC_F_NEXT; d_next := 1 |};
  ds ← wr ds 1 {| d_addr := at_ off_data; d_len := sector_size dev; d_flags := data_flags; d_next := 2 |};
  ds ← wr ds 2 {| d_addr := at_ off_status; d_len := 1; d_flags := VIRTQ_DESC_F_WRITE; d_next := 0 |};
  Ret (p <| desc := ds |>).

(** One entry on the available ring. *)
Definition push_avail (dev : VirtioBlk) (p : BlkPages) : rust BlkPages :=
  let ai := avail_idx p in
  let slot := Z.land ai (qmask dev) in
  ring ← wr (avail_ring p) (Z.to_nat slot) 0;
  Ret (p <| avail_ring := ring |> <| avail_idx := wrap16 (ai + 1) |>).

Definition kick (dev : VirtioBlk) (w : W) : W :=
  let w := mm_w16 (common dev + 22) 0 w in
  let '(w, qn) := mm_r16 (common dev + 30) w in
  mm_w16 (wrap64 (notify dev + wrap32 (qn * notify_mul dev))) 0 w.

End driver.

Section requests.
Context {W : Type} `{VirtioMachine W}.

(** One round of the wait: the device runs, then [used.idx] is read. *)
Definition wait_round (lu : Z) (st : W * BlkPages) : (W * BlkPages) + (W * BlkPages) :=
  let '(w, p) := spin st.1 st.2 in
  if decide (used_idx p <> lu) then inr (w, p) else inl (w, p).

Definition wait_used (w : W) (p : BlkPages) : W * BlkPages :=
  let lu := vq_last_seen p in
  match for_upto (wait_round lu) 2000000 (w, p) with
  | inr (w, p) => (w, p <| vq_last_seen := used_idx p |>)
  | inl (w, p) => (w, p <| vq_last_seen := lu |>)
  end.

(** [out] is the caller's buffer; the result is the flag and the buffer. *)
Definition read_sector (dev : VirtioBlk) (sector : Z) (out : bytes) (w : W) (p : BlkPages) :
    W * rust (BlkPages * bool * bytes) :=
  let ss := Z.to_nat (sector_size dev) in
  if decide ((length out < ss)%nat \/ capacity dev <= sector) then (w, Ret (p, false, out))
  else
    match
      r ← fill_req_header (req p) VIRTIO_BLK_T_IN sector;
      let p := p <| req := r |> <| status := 0xFF |> in
      p ← fill_descs dev (Z.lor VIRTQ_DESC_F_NEXT VIRTQ_DESC_F_WRITE) p;
      push_avail dev p
    with
    | Panic => (w, Panic)
    | Ret p =>
        let '(w, p) := wait_used (kick dev w) p in
        (w, if decide (status p <> VIRTIO_BLK_S_OK) then Ret (p, false, out)
            else
              d ← sub (data p) 0 ss;
              out ← copy_at out 0 d;
              Ret (p, true, out))
    end.

Definition write_sector (dev : VirtioBlk) (sector : Z) (src : bytes) (w : W) (p : BlkPages) :
    W * rust (BlkPages * bool) :=
  let ss := Z.to_nat (sector_size dev) in
  if decide ((length src < ss)%nat \/ capacity dev <= sector) then (w, Ret (p, false))
  else
    match
      r ← fill_req_header (req p) VIRTIO_BLK_T_OUT sector;
      s ← sub src 0 ss;
      d ← copy_at (data p) 0 s;
      let p := p <| req := r |> <| data := d |> <| status := 0xFF |> in
      p ← fill_descs dev VIRTQ_DESC_F_NEXT p;
      push_avail dev p
    with
    | Panic => (w, Panic)
    | Ret p =>
        let '(w, p) := wait_used (kick dev w) p in
        (w, Ret (p, bool_decide (status p = VIRTIO_BLK_S_OK)))
    end.

Definition VIRTIO_VENDOR : Z := 0x1AF4.
Definition VIRTIO_BLK_DEVICE : Z := 0x1042.
Definition enumerate (cap : nat) (w : W) : W * list PciFn :=
  find_device_any_fn VIRTIO_VENDOR VIRTIO_BLK_DEVICE cap w.
End requests.
