(* ===== verification/VirtioBlkOk.v ===== *)
(** * The VirtIO driver keeps the block device's promises

    [VirtioDevice] is what the VirtIO specification asks of a block device
    with one queue - it serves the chain on the available ring and reports
    through the status byte and the used ring - and one thing it does not ask
    for: an answer within the 2,000,000 polls that the driver waits.
    Over such a device the driver of [VirtioBlk.v] refines the interface of
    [BlockDev.v]; [MemVirtio] is such a device. *)

From S2P Require Import Prelude Ports Pci BlockDev VirtioBlk.

(** ** Requests as the device sees them *)

(** The request a chain stands for: header, data and status descriptors at
    the physical addresses of the fields of the pages at [pa]. *)
Definition chain_request (pa : Z) (p : BlkPages) (head : nat) : option (Z * Z) :=
  d0 ← desc p !! head;
  d1 ← desc p !! Z.to_nat (d_next d0);
  d2 ← desc p !! Z.to_nat (d_next d1);
  let typ := of_le (take 4 (req p)) in
  let sector := of_le (drop 8 (req p)) in
  if decide (
    d_addr d0 = pa + off_req /\ d_len d0 = 16 /\ d_flags d0 = VIRTQ_DESC_F_NEXT /\
    d_addr d1 = pa + off_data /\ d_len d1 = 512 /\
    d_addr d2 = pa + off_status /\ d_len d2 = 1 /\ d_flags d2 = VIRTQ_DESC_F_WRITE /\
    (typ = VIRTIO_BLK_T_IN /\ d_flags d1 = Z.lor VIRTQ_DESC_F_NEXT VIRTQ_DESC_F_WRITE \/
     typ = VIRTIO_BLK_T_OUT /\ d_flags d1 = VIRTQ_DESC_F_NEXT))
  then Some (typ, sector) else None.

(** [j] steps of the device. *)
Fixpoint spins {W} `{VirtioMachine W} (j : nat) (st : W * BlkPages) : W * BlkPages :=
  match j with O => st | S j => spins j (spin st.1 st.2) end.

(** Where a device is: its registers, its queue, its pages. *)
Record Place := { at_common : Z; at_notify : Z; at_mul : Z; at_off : Z; at_qsize : Z; at_pages : Z }.

Definition notify_addr (d : Place) : Z :=
  wrap64 (d.(at_notify) + wrap32 (d.(at_off) * d.(at_mul))).

(** The device takes a request off the ring: [w], [p] before, [w'], [p'] after. *)
Record served {W} (medium : W -> Z -> bytes) (consumed : W -> Z) (typ sector : Z)
    (w : W) (p : BlkPages) (w' : W) (p' : BlkPages) : Prop := {
  sv_desc : desc p' = desc p;
  sv_avail : avail_idx p' = avail_idx p;
  sv_ring : avail_ring p' = avail_ring p;
  sv_req : req p' = req p;
  sv_seen : vq_last_seen p' = vq_last_seen p;
  sv_used : used_idx p' = wrap16 (used_idx p + 1);
  sv_consumed : consumed w' = used_idx p';
  sv_data : sector_ok (data p');
  sv_in : typ = VIRTIO_BLK_T_IN -> (forall l, medium w' l = medium w l) /\
    (status p' = VIRTIO_BLK_S_OK -> data p' = medium w sector);
  sv_out : typ = VIRTIO_BLK_T_OUT -> (forall l, l <> sector -> medium w' l = medium w l) /\
    (status p' = VIRTIO_BLK_S_OK -> medium w' sector = data p);
}.

Class VirtioDevice (W : Type) `{VirtioMachine W} (d : Place) := {
  medium : W -> Z -> bytes;
  medium_ok w l : sector_ok (medium w l);
  consumed : W -> Z;
  (** queue 0 is selected and its notify offset read *)
  select_queue w :
    let '(w', qn) := mm_r16 (d.(at_common) + 30) (mm_w16 (d.(at_common) + 22) 0 w) in
    qn = d.(at_off) /\ consumed w' = consumed w /\ forall l, medium w' l = medium w l;
  (** a chain on the ring is served after a notification, within the polls
      the driver waits for *)
  serves w p head typ sector :
    consumed w = used_idx p -> avail_idx p = wrap16 (used_idx p + 1) ->
    avail_ring p !! Z.to_nat (Z.land (used_idx p) (d.(at_qsize) - 1)) = Some (Z.of_nat head) ->
    chain_request d.(at_pages) p head = Some (typ, sector) -> sector_ok (data p) ->
    exists k w' p',
      (k < Pos.to_nat 2000000)%nat /\
      (forall j, (j <= k)%nat -> used_idx (spins j (mm_w16 (notify_addr d) 0 w, p)).2 = used_idx p) /\
      spins (S k) (mm_w16 (notify_addr d) 0 w, p) = (w', p') /\
      served medium consumed typ sector w p w' p';
}.

(** ** Between requests *)

Record VirtioState (W : Type) := { vs_w : W; vs_dev : VirtioBlk; vs_p : BlkPages }.
Arguments vs_w {W}.
Arguments vs_dev {W}.
Arguments vs_p {W}.

Definition pages_wf (p : BlkPages) : Prop :=
  length (desc p) = 4%nat /\ length (avail_ring p) = BLK_QSZ /\ length (req p) = 16%nat /\
  sector_ok (data p) /\ 0 <= used_idx p < 2 ^ 16 /\
  avail_idx p = used_idx p /\ vq_last_seen p = used_idx p.
#[export] Instance pages_wf_dec p : Decision (pages_wf p).
Proof. unfold pages_wf, sector_ok. apply _. Defined.

Definition placed (d : Place) (dev : VirtioBlk) : Prop :=
  common dev = d.(at_common) /\ notify dev = d.(at_notify) /\ notify_mul dev = d.(at_mul) /\
  qmask dev = d.(at_qsize) - 1 /\ 1 <= d.(at_qsize) <= Z.of_nat BLK_QSZ /\
  sector_size dev = Z.of_nat SECTOR /\ capacity dev <= 2 ^ 64 /\
  phys (phys_skew dev) (pages dev + off_req) = d.(at_pages) + off_req /\
  phys (phys_skew dev) (pages dev + off_data) = d.(at_pages) + off_data /\
  phys (phys_skew dev) (pages dev + off_status) = d.(at_pages) + off_status.
#[export] Instance placed_dec d dev : Decision (placed d dev).
Proof. unfold placed. apply _. Defined.

Section refinement.
Context {W : Type} `{VirtioDevice W d}.
Implicit Types (w : W) (p : BlkPages).

Definition vs_wf (s : VirtioState W) : Prop :=
  placed d (vs_dev s) /\ pages_wf (vs_p s) /\ consumed (vs_w s) = used_idx (vs_p s).

(** The pages of a request of one sector, ready for the device. *)
Definition request_pages (dev : VirtioBlk) (typ data_flags sector : Z) (p : BlkPages) : rust BlkPages :=
  r ← fill_req_header (req p) typ sector;
  let p := p <| req := r |> <| status := 0xFF |> in
  p ← fill_descs dev data_flags p;
  push_avail dev p.

Definition data_flags_of (typ : Z) : Z :=
  if decide (typ = VIRTIO_BLK_T_IN) then Z.lor VIRTQ_DESC_F_NEXT VIRTQ_DESC_F_WRITE
  else VIRTQ_DESC_F_NEXT.

(** The header the device reads back. *)
Lemma header_ok r typ sector : length r = 16%nat -> 0 <= typ < 2 ^ 32 -> 0 <= sector < 2 ^ 64 ->
  exists r', fill_req_header r typ sector = Ret r' /\ length r' = 16%nat /\
    of_le (take 4 r') = typ /\ of_le (drop 8 r') = sector.
Proof.
  intros Hr Ht Hs. unfold fill_req_header. no_panic.
  eexists. split; [reflexivity|]. split; [len|].
  set (r1 := list_inserts 0 (to_le 4 typ) r). set (r2 := list_inserts 4 (to_le 4 0) r1).
  assert (length r1 = 16%nat) as H1 by (subst r1; len).
  assert (length r2 = 16%nat) as H2 by (subst r2; len).
  rewrite <-slice_0, <-(slice_full _ 8). split.
  - rewrite slice_inserts_out by (left; lia). subst r2. rewrite slice_inserts_out by (left; lia).
    subst r1. rewrite slice_inserts_in; [|by rewrite length_to_le|lia]. by apply of_le_to_le_small.
  - rewrite slice_inserts_in; [by apply of_le_to_le_small|len|len].
Qed.

Lemma ring_slot (ai m : Z) : 0 <= ai -> 0 <= m < 64 -> (Z.to_nat (Z.land ai m) < BLK_QSZ)%nat.
Proof. intros Ha Hm. pose proof (land_bound ai m Ha). unfold BLK_QSZ. lia. Qed.

(** The driver's part: a chain the device reads as the request. *)
Lemma request_pages_ok dev typ sector p :
  placed d dev -> pages_wf p -> 0 <= sector < 2 ^ 64 -> typ = VIRTIO_BLK_T_IN \/ typ = VIRTIO_BLK_T_OUT ->
  exists p', request_pages dev typ (data_flags_of typ) sector p = Ret p' /\
    length (desc p') = 4%nat /\ length (avail_ring p') = BLK_QSZ /\ length (req p') = 16%nat /\
    data p' = data p /\ used_idx p' = used_idx p /\ vq_last_seen p' = vq_last_seen p /\
    avail_idx p' = wrap16 (avail_idx p + 1) /\
    avail_ring p' !! Z.to_nat (Z.land (avail_idx p) (qmask dev)) = Some 0 /\
    chain_request d.(at_pages) p' 0 = Some (typ, sector).
Proof.
  intros (_ & _ & _ & Hq & Hqs & Hss & _ & Hpr & Hpd & Hps).
  destruct p as [ds af ai ar uf ui rq da stt ls]. intros (Hd & Hr & Hreq & _ & Hu & Ha & _) Hsec Htyp.
  cbn in * |-. subst ai. apply list4_eq in Hd as (a & b & c & e & ->).
  unfold request_pages. cbn [req].
  destruct (header_ok rq typ sector) as (r & -> & Hlr & Htr & Hsr);
    [done|destruct Htyp as [-> | ->]; unfold VIRTIO_BLK_T_IN, VIRTIO_BLK_T_OUT; lia|done|].
  pose proof (ring_slot ui (qmask dev) ltac:(lia) ltac:(unfold BLK_QSZ in *; lia)) as Hslot.
  rewrite <-Hr in Hslot.
  unfold fill_descs, push_avail.
  repeat (rewrite ?bind_ret; cbn; rewrite wr_ok by (cbn; lia)). cbn.
  eexists. split; [reflexivity|]. cbn. split_and!; try done; [by rewrite length_insert| |].
  - by apply list_lookup_insert_eq.
  - unfold chain_request. cbn. rewrite Htr, Hsr, Hss, Hpr, Hpd, Hps. apply decide_True.
    split_and!; try done. destruct Htyp as [-> | ->]; [left|right]; done.
Qed.

(** The wait finds the device's answer. *)
Lemma wait_spins k lu st w' p' :
  (forall j, (j <= k)%nat -> used_idx (spins j st).2 = lu) -> spins (S k) st = (w', p') ->
  used_idx p' <> lu -> for_nat (wait_round lu) (S k) st = inr (w', p').
Proof.
  revert st. induction k as [|k IH]; intros st Hq E Hu; rewrite for_nat_S; unfold wait_round at 1.
  - cbn in E. destruct (spin st.1 st.2) as [w p]. injection E as -> ->. by rewrite decide_True.
  - pose proof (Hq 1%nat ltac:(lia)) as H1. cbn in H1. destruct (spin st.1 st.2) as [w p] eqn:Es.
    cbn in H1. rewrite decide_False by (intros Hn; by apply Hn). cbn [and_then]. apply IH; [|by cbn in E; rewrite Es in E|done].
    intros j Hj. pose proof (Hq (S j) ltac:(lia)) as Hj'. cbn in Hj'. by rewrite Es in Hj'.
Qed.

Lemma wait_used_served w p k w' p' :
  (k < Pos.to_nat 2000000)%nat ->
  (forall j, (j <= k)%nat -> used_idx (spins j (w, p)).2 = vq_last_seen p) ->
  spins (S k) (w, p) = (w', p') -> used_idx p' <> vq_last_seen p ->
  wait_used w p = (w', p' <| vq_last_seen := used_idx p' |>).
Proof.
  intros Hk Hq E Hu. unfold wait_used.
  rewrite (for_upto_exit _ 2000000 (S k) _ (w', p')) by (lia || by apply wait_spins). done.
Qed.

(** One request: the ring is quiet before and after. *)
Lemma request_served dev typ sector p w :
  placed d dev -> pages_wf p -> consumed w = used_idx p -> 0 <= sector < 2 ^ 64 ->
  typ = VIRTIO_BLK_T_IN \/ typ = VIRTIO_BLK_T_OUT ->
  exists p0 w' p', request_pages dev typ (data_flags_of typ) sector p = Ret p0 /\
    wait_used (kick dev w) p0 = (w', p') /\ pages_wf p' /\ consumed w' = used_idx p' /\
    (typ = VIRTIO_BLK_T_IN -> (forall l, medium w' l = medium w l) /\
      (status p' = VIRTIO_BLK_S_OK -> data p' = medium w sector)) /\
    (typ = VIRTIO_BLK_T_OUT -> (forall l, l <> sector -> medium w' l = medium w l) /\
      (status p' = VIRTIO_BLK_S_OK -> medium w' sector = data p)).
Proof.
  intros Hpl Hp Hc Hs Htyp.
  destruct (request_pages_ok dev typ sector p Hpl Hp Hs Htyp)
    as (p0 & E0 & Hld & Hlr & Hlq & Hda & Hui & Hls & Hai & Hri & Hch).
  destruct Hp as (_ & _ & _ & Hdata & Hu & Ha & Hseen).
  pose proof Hpl as (Hco & Hno & Hmu & Hqm & _).
  pose proof (select_queue w) as Hsel. unfold kick. rewrite Hco.
  destruct (mm_r16 _ _) as [w1 qn]. destruct Hsel as (-> & Hc1 & Hm1). rewrite Hno, Hmu.
  destruct (serves w1 p0 0 typ sector) as (k & w' & p' & Hk & Hquiet & Espin & Hserved);
    [congruence|congruence|by rewrite <-Hqm, Hui, <-Ha|done|by rewrite Hda|].
  destruct Hserved as [S1 S2 S3 S4 S5 S6 S7 S8 S9 S10].
  destruct (wrap16_next (used_idx p0)) as [Hne Hrng]; [by rewrite Hui|].
  exists p0, w', (p' <| vq_last_seen := used_idx p' |>). split; [done|]. split.
  { apply (wait_used_served _ _ k); [done| |done|]; rewrite Hls, Hseen, <-Hui; [done|]. by rewrite S6. }
  split; [|split; [done|]].
  - unfold pages_wf. cbn. rewrite S1, S2, S3, S4, S6. split_and!; try done; try apply S8; try lia.
    by rewrite Hai, Ha, Hui.
  - cbn. split.
    + intros Ht. destruct (S9 Ht) as [Hm Hd']. split; [by intros; rewrite Hm|]. intros Hst. by rewrite Hd'.
    + intros Ht. destruct (S10 Ht) as [Hm Hd']. split; [intros; by rewrite Hm|]. intros Hst. by rewrite Hd'.
Qed.

Lemma copy_all (dst src : bytes) : length dst = length src -> copy_at dst 0 src = Ret src.
Proof.
  intros Hl. rewrite copy_at_ok by lia. f_equal. rewrite inserts_split by lia. rewrite take_0. cbn.
  by rewrite drop_ge, app_nil_r by lia.
Qed.

Lemma read_sector_ok dev l out w p :
  placed d dev -> pages_wf p -> consumed w = used_idx p -> 0 <= l -> length out = SECTOR ->
  exists w' p' ok out', read_sector dev l out w p = (w', Ret (p', ok, out')) /\
    pages_wf p' /\ consumed w' = used_idx p' /\ (forall l, medium w' l = medium w l) /\
    (ok = true -> l < capacity dev /\ out' = medium w l) /\
    (ok = false -> out' = out /\ (l < capacity dev -> status p' <> VIRTIO_BLK_S_OK)).
Proof.
  intros Hpl Hp Hc Hl Ho. unfold read_sector. pose proof Hpl as (_ & _ & _ & _ & _ & Hss & Hcap & _).
  rewrite Hss, Nat2Z.id. case_decide as Hr.
  { exists w, p, false, out. split_and!; try done. intros _. split; [done|intros ?; lia]. }
  destruct (request_served dev VIRTIO_BLK_T_IN l p w) as (p0 & w' & p' & E0 & Ew & Hp' & Hc' & Hin & _);
    [done|done|done|lia|by left|].
  change (data_flags_of VIRTIO_BLK_T_IN) with (Z.lor VIRTQ_DESC_F_NEXT VIRTQ_DESC_F_WRITE) in E0.
  unfold request_pages in E0. rewrite E0, Ew. destruct (Hin eq_refl) as [Hm Hd].
  destruct (decide (status p' = VIRTIO_BLK_S_OK)) as [Hs|Hs].
  - rewrite (decide_False (P := status p' <> _)) by tauto.
    pose proof Hp' as (_ & _ & _ & [Hld _] & _). change SECTOR with 512%nat in *.
    rewrite sub_ok, bind_ret, slice_0, take_ge, copy_all, bind_ret by lia.
    exists w', p', true, (data p'). split_and!; try done. intros _. split; [lia|by apply Hd].
  - rewrite (decide_True (P := status p' <> _)) by done. by exists w', p', false, out.
Qed.

Lemma write_sector_ok dev l src w p :
  placed d dev -> pages_wf p -> consumed w = used_idx p -> 0 <= l -> sector_ok src ->
  exists w' p' ok, write_sector dev l src w p = (w', Ret (p', ok)) /\
    pages_wf p' /\ consumed w' = used_idx p' /\ (forall l', l' <> l -> medium w' l' = medium w l') /\
    (ok = true -> medium w' l = src) /\
    (ok = false -> l < capacity dev -> status p' <> VIRTIO_BLK_S_OK).
Proof.
  intros Hpl Hp Hc Hl Hsrc. unfold write_sector. pose proof Hpl as (_ & _ & _ & _ & _ & Hss & Hcap & _).
  rewrite Hss, Nat2Z.id. pose proof Hsrc as [Hls _]. case_decide as Hr.
  { exists w, p, false. split_and!; try done. intros _ ?. change SECTOR with 512%nat in *. lia. }
  pose proof Hp as (Hp1 & Hp2 & Hp3 & [Hp4 _] & Hp5).
  destruct (request_served dev VIRTIO_BLK_T_OUT l (p <| data := src |>) w)
    as (p0 & w' & p' & E0 & Ew & Hp' & Hc' & _ & Hout); [done|done|done|lia|by right|].
  change (data_flags_of VIRTIO_BLK_T_OUT) with VIRTQ_DESC_F_NEXT in E0.
  unfold request_pages in E0. change SECTOR with 512%nat.
  change (req (p <| data := src |>)) with (req p) in E0.
  destruct (fill_req_header (req p) VIRTIO_BLK_T_OUT l) as [r|]; [|done]. rewrite bind_ret in E0 |- *.
  rewrite sub_ok, bind_ret, slice_0, take_ge, copy_all, bind_ret by lia.
  match goal with |- context [match ?m with Ret _ => _ | Panic => _ end] =>
    assert (m = Ret p0) as -> by exact E0 end.
  rewrite Ew. destruct (Hout eq_refl) as [Hm Hd].
  exists w', p', (bool_decide (status p' = VIRTIO_BLK_S_OK)). split_and!; try done.
  - intros Hs%bool_decide_eq_true. by apply Hd.
  - by intros Hs%bool_decide_eq_false _.
Qed.

(** ** The driver as a block device

    A disk is a state of the driver and the machine between two requests; a
    sector number is a [u64].  [Panic] does not occur there. *)

Definition Disk : Type := { s : VirtioState W | vs_wf s }.
Definition at_rest (D : Disk) : VirtioState W := proj1_sig D.

Definition read_state (s : VirtioState W) (l : Z) : VirtioState W * option bytes :=
  match read_sector (vs_dev s) l (replicate SECTOR 0) (vs_w s) (vs_p s) with
  | (w, Ret (p, ok, out)) =>
      ({| vs_w := w; vs_dev := vs_dev s; vs_p := p |}, if ok : bool then Some out else None)
  | (w, Panic) => (s, None)
  end.

Definition write_state (s : VirtioState W) (l : Z) (b : bytes) : VirtioState W * bool :=
  match write_sector (vs_dev s) l b (vs_w s) (vs_p s) with
  | (w, Ret (p, ok)) => ({| vs_w := w; vs_dev := vs_dev s; vs_p := p |}, ok)
  | (w, Panic) => (s, false)
  end.

Lemma read_state_ok s l : vs_wf s -> 0 <= l ->
  vs_wf (read_state s l).1 /\ vs_dev (read_state s l).1 = vs_dev s /\
  (forall l', medium (vs_w (read_state s l).1) l' = medium (vs_w s) l') /\
  (forall b, (read_state s l).2 = Some b -> b = medium (vs_w s) l /\ l < capacity (vs_dev s)).
Proof.
  intros (Hpl & Hp & Hc) Hl. unfold read_state.
  destruct (read_sector_ok (vs_dev s) l (replicate SECTOR 0) (vs_w s) (vs_p s))
    as (w' & p' & ok & out' & -> & Hp' & Hc' & Hm & Hok & _); [done|done|done|done|by rewrite length_replicate|].
  split; [done|]. split; [done|]. split; [done|]. intros b Hb. cbn in Hb. destruct ok; [|done].
  injection Hb as <-. destruct (Hok eq_refl). done.
Qed.

Lemma write_state_ok s l b : vs_wf s -> 0 <= l -> sector_ok b ->
  vs_wf (write_state s l b).1 /\ vs_dev (write_state s l b).1 = vs_dev s /\
  (forall l', l <> l' -> medium (vs_w (write_state s l b).1) l' = medium (vs_w s) l') /\
  ((write_state s l b).2 = true -> medium (vs_w (write_state s l b).1) l = b).
Proof.
  intros (Hpl & Hp & Hc) Hl Hb. unfold write_state.
  destruct (write_sector_ok (vs_dev s) l b (vs_w s) (vs_p s))
    as (w' & p' & ok & -> & Hp' & Hc' & Hm & Hok & _); [done..|].
  split; [done|]. split; [done|]. split; [|done]. intros l' Hne. by apply Hm.
Qed.

Definition read_disk (D : Disk) (l : Z) : Disk * option bytes :=
  match decide (0 <= l) with
  | left Hl => (exist _ (read_state (at_rest D) l).1 (proj1 (read_state_ok (at_rest D) l (proj2_sig D) Hl)), (read_state (at_rest D) l).2)
  | right _ => (D, None)
  end.

(** Only whole sectors are written: the callers' buffers have 512 bytes. *)
Definition write_disk (D : Disk) (l : Z) (b : bytes) : Disk * bool :=
  match decide (0 <= l), decide (sector_ok b) with
  | left Hl, left Hb =>
      (exist _ (write_state (at_rest D) l b).1 (proj1 (write_state_ok (at_rest D) l b (proj2_sig D) Hl Hb)), (write_state (at_rest D) l b).2)
  | _, _ => (D, false)
  end.

(** A read of a sector of the medium fails only with the device's status. *)
Lemma read_disk_failed (D : Disk) l :
  0 <= l < capacity (vs_dev (at_rest D)) -> (read_disk D l).2 = None ->
  exists w' p', read_sector (vs_dev (at_rest D)) l (replicate SECTOR 0) (vs_w (at_rest D)) (vs_p (at_rest D))
      = (w', Ret (p', false, replicate SECTOR 0)) /\ status p' <> VIRTIO_BLK_S_OK.
Proof.
  intros Hl. unfold read_disk. destruct (decide (0 <= l)) as [Hl0|]; [|lia]. cbn [snd]. unfold read_state.
  destruct (proj2_sig D) as (Hpl & Hp & Hc).
  destruct (read_sector_ok (vs_dev (at_rest D)) l (replicate SECTOR 0) (vs_w (at_rest D)) (vs_p (at_rest D)))
    as (w' & p' & ok & out' & E & _ & _ & _ & _ & Hf);
    [exact Hpl|exact Hp|exact Hc|done|by rewrite length_replicate|].
  rewrite E. destruct ok; cbn [snd]; [done|]. intros _. destruct (Hf eq_refl) as [Eo Hs].
  exists w', p'. split; [by rewrite Eo|apply Hs; lia].
Qed.

Lemma write_disk_true (D : Disk) l b : (write_disk D l b).2 = true -> 0 <= l.
Proof. unfold write_disk. by destruct (decide (0 <= l)). Qed.

(** The flag of a write, without the state's proof. *)
Lemma write_disk_flag (D : Disk) l b :
  0 <= l -> sector_ok b -> (write_disk D l b).2 = (write_state (at_rest D) l b).2.
Proof.
  intros Hl Hb. unfold write_disk. destruct (decide (0 <= l)); [|done]. by destruct (decide (sector_ok b)).
Qed.

Lemma write_disk_state (D : Disk) l b :
  0 <= l -> sector_ok b -> at_rest (write_disk D l b).1 = (write_state (at_rest D) l b).1.
Proof.
  intros Hl Hb. unfold write_disk. destruct (decide (0 <= l)); [|done]. by destruct (decide (sector_ok b)).
Qed.

#[export] Instance Disk_dev : BlockDev Disk := {
  BlockDev.capacity := fun D => capacity (vs_dev (at_rest D));
  BlockDev.sector_size := fun D => sector_size (vs_dev (at_rest D));
  BlockDev.read_sector := read_disk;
  BlockDev.write_sector := write_disk;
}.

Lemma read_disk_ok (D : Disk) l :
  vs_dev (at_rest (read_disk D l).1) = vs_dev (at_rest D) /\
  (forall l', medium (vs_w (at_rest (read_disk D l).1)) l' = medium (vs_w (at_rest D)) l') /\
  (forall b, (read_disk D l).2 = Some b -> b = medium (vs_w (at_rest D)) l /\ 0 <= l < capacity (vs_dev (at_rest D))).
Proof.
  unfold read_disk. destruct (decide (0 <= l)) as [Hl|Hl]; [|done]. cbn.
  destruct (read_state_ok (at_rest D) l (proj2_sig D) Hl) as (_ & Hd & Hm & Hb).
  split; [done|]. split; [done|]. intros b E. destruct (Hb b E). split; [done|lia].
Qed.

Lemma write_disk_ok (D : Disk) l b :
  vs_dev (at_rest (write_disk D l b).1) = vs_dev (at_rest D) /\
  (forall l', l <> l' -> medium (vs_w (at_rest (write_disk D l b).1)) l' = medium (vs_w (at_rest D)) l') /\
  (sector_ok b -> (write_disk D l b).2 = true -> medium (vs_w (at_rest (write_disk D l b).1)) l = b).
Proof.
  unfold write_disk. destruct (decide (0 <= l)) as [Hl|Hl]; [|done].
  destruct (decide (sector_ok b)) as [Hb|Hb]; [|done]. cbn.
  destruct (write_state_ok (at_rest D) l b (proj2_sig D) Hl Hb) as (_ & Hd & Hm & Hs). by split_and!.
Qed.

#[export] Instance Disk_ok : BlockDevOk Disk.
Proof.
  refine {| sector := fun (D : Disk) l => medium (vs_w (at_rest D)) l |}; cbn.
  - intros D l. exact (medium_ok (vs_w (at_rest D)) l).
  - intros D l. cbn. by destruct (read_disk_ok D l) as (-> & _).
  - intros D l. cbn. by destruct (read_disk_ok D l) as (-> & _).
  - intros D l b. cbn. by destruct (write_disk_ok D l b) as (-> & _).
  - intros D l b. cbn. by destruct (write_disk_ok D l b) as (-> & _).
  - intros D l. exact (proj1 (proj2 (read_disk_ok D l))).
  - intros D l. exact (proj2 (proj2 (read_disk_ok D l))).
  - intros D l b. exact (proj1 (proj2 (write_disk_ok D l b))).
  - intros D l b. exact (proj2 (proj2 (write_disk_ok D l b))).
Defined.
End refinement.
