(* ===== verification/VirtioDisk.v ===== *)
(** * Settings on a VirtIO disk

    What the start-up of the VirtIO driver establishes, the sector requests as
    one contract, and the composition: device settings saved through the driver
    ([Persist.v] over [VirtioBlk.v]) come back.  [MemVirtio] is a device in
    memory that does so in time, and shows that the contract can be met. *)

From S2P Require Import Prelude Ports Pci Settings BlockDev Persist VirtioBlk VirtioBlkOk.

(** ** Start-up *)

Definition is_u32 (z : Z) : Prop := 0 <= z < 2 ^ 32.

(** The place a started device is at, by the driver's own record. *)
Definition place_of (dev : VirtioBlk) (notify_off : Z) : Place := {|
  at_common := common dev; at_notify := notify dev; at_mul := notify_mul dev; at_off := notify_off;
  at_qsize := qmask dev + 1; at_pages := phys (phys_skew dev) (pages dev) |}.

(** The pages are in one piece of physical memory. *)
Definition contiguous (skew : option Z) (va : Z) : Prop :=
  match skew with Some off => 0 <= va - off /\ va - off + 1280 <= 2 ^ 64 | None => True end.
#[export] Instance contiguous_dec skew va : Decision (contiguous skew va).
Proof. unfold contiguous. destruct skew; apply _. Defined.

Lemma phys_offset skew va off : contiguous skew va -> 0 <= off < 1280 ->
  phys skew (va + off) = phys skew va + off.
Proof.
  unfold contiguous, phys. destruct skew as [k|]; [|done]. intros Hc Ho. unfold wrap.
  rewrite !Z.mod_small; lia.
Qed.

Section start.
Context {W : Type} `{Mmio W}.

Lemma negotiate_queue ro base w w' q : negotiate ro base w = (w', Some q) ->
  4 <= q <= 64.
Proof.
  unfold negotiate. cbv zeta. destruct (mm_r32 _ _) as [w1 f0]. case_decide; [done|].
  destruct (mm_r32 _ _) as [w2 f1]. destruct (mm_r8 _ _) as [w3 st]. case_decide; [done|].
  destruct (mm_r16 _ _) as [w4 qm]. case_decide as Hq; [done|]. intros [= _ <-].
  change (Z.of_nat BLK_QSZ) with 64. lia.
Qed.

Lemma lor_u64 lo hi : is_u32 lo -> is_u32 hi -> 0 <= Z.lor lo (Z.shiftl hi 32) < 2 ^ 64.
Proof.
  unfold is_u32. intros Hl Hh. rewrite Z.shiftl_mul_pow2 by lia.
  split; [apply Z.lor_nonneg; lia|]. apply Z.log2_lt_cancel.
  rewrite Z.log2_lor, Z.log2_pow2 by lia.
  assert (forall z, 0 <= z < 2 ^ 64 -> Z.log2 z < 64) as Hlog.
  { intros z Hz. destruct (decide (z = 0)) as [->|]; [done|]. apply Z.log2_lt_pow2; lia. }
  apply Z.max_lub_lt; apply Hlog; lia.
Qed.

End start.

(** ** A device in memory

    One BAR at 0x1000 with the common structure, the device configuration at
    0x2000 and the notify area at 0x3000.  After a notification it idles for
    two steps and then serves the ring. *)

Record MemVirtio := {
  mv_disk : MemDisk;
  mv_consumed : Z;
  mv_busy : nat;   (** steps until the request is served, 0 when there is none *)
  mv_pci : PciMem;
  mv_read_only : bool;
}.
#[export] Instance MemVirtio_eta : Settable MemVirtio := fun w =>
  Build_MemVirtio w.(mv_disk) w.(mv_consumed) w.(mv_busy) w.(mv_pci) w.(mv_read_only).

Definition mem_place : Place := {|
  at_common := 0x1000; at_notify := 0x3000; at_mul := 4; at_off := 0; at_qsize := 64;
  at_pages := 0x200000 |}.

(** The device takes the next entry off the ring. *)
Definition mv_serve (w : MemVirtio) (p : BlkPages) : MemVirtio * BlkPages :=
  let next := wrap16 (used_idx p + 1) in
  let w' := w <| mv_consumed := next |> <| mv_busy := 0%nat |> in
  match avail_ring p !! Z.to_nat (Z.land (used_idx p) 63) ≫= fun h =>
        chain_request 0x200000 p (Z.to_nat h) with
  | Some (typ, sector) =>
      if decide (typ = VIRTIO_BLK_T_IN) then
        match (BlockDev.read_sector w.(mv_disk) sector).2 with
        | Some b => (w', p <| data := b |> <| status := 0 |> <| used_idx := next |>)
        | None => (w', p <| status := 1 |> <| used_idx := next |>)
        end
      else
        let '(disk, ok) := BlockDev.write_sector w.(mv_disk) sector (data p) in
        (w' <| mv_disk := disk |>, p <| status := if ok : bool then 0 else 1 |> <| used_idx := next |>)
  | None => (w', p)
  end.

Definition mv_spin (w : MemVirtio) (p : BlkPages) : MemVirtio * BlkPages :=
  match w.(mv_busy) with
  | O => (w, p)
  | 1%nat => mv_serve w p
  | S n => (w <| mv_busy := n |>, p)
  end.

Definition mv_reg16 (w : MemVirtio) (a : Z) : Z := if decide (a = 0x1018) then 64 else 0.
Definition mv_reg32 (w : MemVirtio) (a : Z) : Z :=
  if decide (a = 0x1004) then (if w.(mv_read_only) then 32 else 1)
  else if decide (a = 0x2000) then wrap32 (md_capacity w.(mv_disk)) else 0.

#[export] Instance MemVirtio_mmio : Mmio MemVirtio := {|
  mmio_ports := {|
    inb := fun _ w => (w, 0); outb := fun _ _ w => w; inw := fun _ w => (w, 0); outw := fun _ _ w => w;
    in32 := fun p w => (w, (in32 p w.(mv_pci)).2);
    out32 := fun p v w => w <| mv_pci := out32 p v w.(mv_pci) |> |};
  mm_r8 := fun _ w => (w, 0x0F);
  mm_r16 := fun a w => (w, mv_reg16 w a);
  mm_r32 := fun a w => (w, mv_reg32 w a);
  mm_w8 := fun _ _ w => w;
  mm_w16 := fun a _ w => if decide (a = 0x3000) then w <| mv_busy := 3%nat |> else w;
  mm_w32 := fun _ _ w => w;
  mm_w64 := fun _ _ w => w |}.

#[export] Instance MemVirtio_machine : VirtioMachine MemVirtio := {| spin := mv_spin |}.

Lemma mv_serve_served w p head typ sector :
  avail_ring p !! Z.to_nat (Z.land (used_idx p) 63) = Some (Z.of_nat head) ->
  chain_request 0x200000 p head = Some (typ, sector) -> sector_ok (data p) ->
  let st := mv_serve (w <| mv_busy := 1%nat |>) p in
  served (fun w l => md_sector w.(mv_disk) l) mv_consumed typ sector w p st.1 st.2.
Proof.
  intros Hring Hch Hdata. cbv zeta. unfold mv_serve. rewrite Hring. cbn [mbind option_bind].
  rewrite Nat2Z.id, Hch. destruct w as [disk co busy pci ro]. cbn [mv_disk over].
  destruct (decide (typ = VIRTIO_BLK_T_IN)) as [->|Ht].
  - pose proof (read_returns disk sector) as Hrd. destruct (BlockDev.read_sector disk sector) as [disk' [b|]]; cbn.
    + destruct (Hrd b eq_refl) as [-> _]. constructor; try done. apply (sector_wf disk sector).
    + by constructor.
  - assert (typ = VIRTIO_BLK_T_OUT) as ->.
    { unfold chain_request in Hch. destruct (desc p !! head) as [d0|]; [cbn in Hch|done].
      destruct (desc p !! Z.to_nat (d_next d0)) as [d1|]; [cbn in Hch|done].
      destruct (desc p !! Z.to_nat (d_next d1)) as [d2|]; [cbn in Hch|done].
      case_decide as Hd; [|done]. injection Hch as <- _. destruct Hd as (_&_&_&_&_&_&_&_&[[? _]|[? _]]); done. }
    pose proof (write_keeps disk sector (data p)) as Hk. pose proof (write_stores disk sector (data p) Hdata) as Hst.
    destruct (BlockDev.write_sector disk sector (data p)) as [disk' ok]; cbn in *.
    constructor; try done. intros _. split; [intros l Hl; apply Hk; congruence|]. cbn. destruct ok; intros E; [by apply Hst|by vm_compute in E].
Qed.

#[export, refine] Instance MemVirtio_device : VirtioDevice MemVirtio mem_place := {|
  medium := fun w l => md_sector w.(mv_disk) l; consumed := mv_consumed |}.
Proof.
  - intros w l. exact (sector_wf w.(mv_disk) l).
  - done.
  - intros w p head typ sector Hc Ha Hring Hch Hdata.
    pose proof (mv_serve_served w p head typ sector Hring Hch Hdata) as Hs.
    eexists 2%nat, _, _. split; [lia|]. split.
    { intros [|[|[|j]]] Hj; [done|done|done|lia]. }
    split; [apply surjective_pairing|]. exact Hs.
Defined.

(** ** A device that answers too late

    It fetches a request at once and completes it only after the next
    notification, when the driver has given up waiting.  The driver takes the
    late completion for the one of its new request: it returns the data of the
    sector asked for before.  (The used ring names the finished chain, but both
    requests are chain 0 and share one buffer.) *)

Record SlowVirtio := { sl_disk : MemDisk; sl_fetched : option Z; sl_notified : bool; sl_due : bool }.

Definition slow_spin (w : SlowVirtio) (p : BlkPages) : SlowVirtio * BlkPages :=
  match w.(sl_fetched) with
  | Some sector =>
      if w.(sl_due) then
        ({| sl_disk := w.(sl_disk); sl_fetched := None; sl_notified := false; sl_due := false |},
         p <| data := md_sector w.(sl_disk) sector |> <| status := 0 |>
           <| used_idx := wrap16 (used_idx p + 1) |>)
      else (w, p)
  | None =>
      if w.(sl_notified) then
        ({| sl_disk := w.(sl_disk); sl_fetched := snd <$> chain_request 0x200000 p 0;
            sl_notified := false; sl_due := false |}, p)
      else (w, p)
  end.

#[export] Instance SlowVirtio_mmio : Mmio SlowVirtio := {|
  mmio_ports := {|
    inb := fun _ w => (w, 0); outb := fun _ _ w => w; inw := fun _ w => (w, 0); outw := fun _ _ w => w;
    in32 := fun _ w => (w, 0); out32 := fun _ _ w => w |};
  mm_r8 := fun _ w => (w, 0); mm_r16 := fun _ w => (w, 0); mm_r32 := fun _ w => (w, 0);
  mm_w8 := fun _ _ w => w; mm_w32 := fun _ _ w => w; mm_w64 := fun _ _ w => w;
  mm_w16 := fun a _ w => if decide (a = 0x3000) then
    {| sl_disk := w.(sl_disk); sl_fetched := w.(sl_fetched); sl_notified := true;
       sl_due := bool_decide (is_Some w.(sl_fetched)) |} else w |}.

#[export] Instance SlowVirtio_machine : VirtioMachine SlowVirtio := {| spin := slow_spin |}.

Definition demo_dev : VirtioBlk := {|
  common := 0x1000; notify := 0x3000; notify_mul := 4; device_cfg := 0x2000; phys_skew := None;
  qmask := 63; pages := 0x200000; capacity := 2; sector_size := 512 |}.

Definition two_sectors : MemDisk := {|
  md_sectors := [replicate 512 65; replicate 512 66]; md_size := 512; md_broken := fun _ => false |}.

Example late_completion_is_taken :
  let w := {| sl_disk := two_sectors; sl_fetched := None; sl_notified := false; sl_due := false |} in
  let buf := replicate 512 0 in
  match read_sector demo_dev 0 buf w BLK_zero with
  | (w, Ret (p, ok0, _)) =>
      match read_sector demo_dev 1 buf w p with
      | (_, Ret (_, ok1, out)) => ok0 = false /\ ok1 = true /\ out = replicate 512 65
      | _ => False
      end
  | _ => False
  end.
Proof. vm_compute. by split_and!. Qed.

(** ** Properties *)

(** C6: Over a VirtIO device that serves every request within the 2,000,000
    polls the driver waits, the driver's sector requests neither panic nor
    leave the ring in disorder.  A read changes nothing on the medium and
    returns the sector; a write stores the sector and touches no other one;
    either fails only for a sector past the capacity or with the error status
    of the device, and then a read leaves the caller's buffer alone.
    (A slower device breaks the promise: [late_completion_is_taken].) *)
Theorem virtio_sector_requests {W} `{VirtioDevice W d} (s : VirtioState W) l out src :
  vs_wf s -> 0 <= l -> length out = SECTOR -> sector_ok src ->
  (exists w' p' ok out',
     read_sector (vs_dev s) l out (vs_w s) (vs_p s) = (w', Ret (p', ok, out')) /\
     vs_wf {| vs_w := w'; vs_dev := vs_dev s; vs_p := p' |} /\
     (forall l', medium w' l' = medium (vs_w s) l') /\
     (ok = true -> l < capacity (vs_dev s) /\ out' = medium (vs_w s) l) /\
     (ok = false -> out' = out /\ (l < capacity (vs_dev s) -> status p' <> VIRTIO_BLK_S_OK))) /\
  (exists w' p' ok,
     write_sector (vs_dev s) l src (vs_w s) (vs_p s) = (w', Ret (p', ok)) /\
     vs_wf {| vs_w := w'; vs_dev := vs_dev s; vs_p := p' |} /\
     (forall l', l' <> l -> medium w' l' = medium (vs_w s) l') /\
     (ok = true -> medium w' l = src) /\
     (ok = false -> l < capacity (vs_dev s) -> status p' <> VIRTIO_BLK_S_OK)).
Proof.
  intros (Hpl & Hp & Hc) Hl Ho Hsrc. split.
  - destruct (read_sector_ok (vs_dev s) l out (vs_w s) (vs_p s) Hpl Hp Hc Hl Ho)
      as (w' & p' & ok & out' & E & Hp' & Hc' & Hm & Hok). by exists w', p', ok, out'.
  - destruct (write_sector_ok (vs_dev s) l src (vs_w s) (vs_p s) Hpl Hp Hc Hl Hsrc)
      as (w' & p' & ok & E & Hp' & Hc' & Hm & Hok). by exists w', p', ok.
Qed.

(** C38: When the driver's start-up succeeds - whatever the device answered -
    the queue has 4 to 64 entries, the ring is quiet, the chain's descriptors
    will point into the pages, and the device has not yet taken anything: the
    state the sector requests start from. *)
Theorem virtio_init_ready {W} `{Mmio W} f skew slot va ro p (w w' : W) dev p' :
  (forall a (w : W), is_u32 (mm_r32 a w).2) -> contiguous skew va ->
  length (desc p) = 4%nat -> length (avail_ring p) = BLK_QSZ -> length (req p) = 16%nat ->
  sector_ok (data p) ->
  init f skew slot va ro p w = (w', Ret (Some (dev, p'))) ->
  pages_wf p' /\ used_idx p' = 0 /\ (forall notify_off, placed (place_of dev notify_off) dev) /\
  3 <= qmask dev <= 63.
Proof.
  intros mm_r32_range Hc Hd Ha Hr Hs E. unfold init in E. case_decide; [done|]. cbv zeta in E.
  destruct (read_bars _ _ _ _) as [w1 bars], (read_u8 f 0x34 w1) as [w2 cap].
  destruct (walk_caps _ _ _) as [c w3].
  destruct (cap_common c) as [[cbar coff]|], (cap_notify c) as [[[nbar noff] nmul]|],
    (cap_devcfg c) as [[dbar doff]|]; try done.
  destruct (bar_addr bars cbar coff) as [[cb|]|]; try done.
  destruct (bar_addr bars nbar noff) as [[nb|]|]; try done.
  destruct (bar_addr bars dbar doff) as [[db|]|]; try done.
  destruct (negotiate ro cb w3) as [w4 [q|]] eqn:En; [|done]. apply negotiate_queue in En.
  destruct (mm_r32 db w4) as [w5 lo] eqn:Elo, (mm_r32 (db + 4) w5) as [w6 hi] eqn:Ehi.
  rewrite wr_ok in E by lia. injection E as <- <- <-.
  assert (0 <= Z.lor lo (Z.shiftl hi 32) < 2 ^ 64) as Hcap.
  { apply lor_u64; [specialize (mm_r32_range db w4)|specialize (mm_r32_range (db + 4) w5)];
      rewrite ?Elo, ?Ehi in mm_r32_range; done. }
  split; [|split; [done|split; [|cbn; lia]]].
  - unfold pages_wf. cbn. rewrite length_insert. split_and!; done || lia.
  - intros off. unfold placed, place_of. cbn. change (Z.of_nat BLK_QSZ) with 64.
    rewrite !phys_offset by (done || (unfold off_req, off_data, off_status; lia)). split_and!; done || lia.
Qed.

(** C22: Settings saved through the VirtIO driver are loaded back through it: a
    save that reports success leaves the encoded settings on the medium's last
    sector and touches no other one, and a later load restores them; it fails,
    and then changes nothing, only when the device answers the read of that
    sector with an error status.  The device serves every request within the
    polls the driver waits. *)
Theorem settings_over_virtio {W} `{VirtioDevice W d} (D D' : Disk) s s0 :
  settings_typed s -> save D s = (D', true) ->
  (forall l, l <> capacity (vs_dev (at_rest D)) - 1 ->
     medium (vs_w (at_rest D')) l = medium (vs_w (at_rest D)) l) /\
  let '(_, s1, ok) := load D' s0 in
  (ok = true /\ s1 = normalize s) \/
  (ok = false /\ s1 = s0 /\ exists w' p',
     read_sector (vs_dev (at_rest D')) (capacity (vs_dev (at_rest D')) - 1) (replicate SECTOR 0)
       (vs_w (at_rest D')) (vs_p (at_rest D')) = (w', Ret (p', false, replicate SECTOR 0)) /\
     status p' <> VIRTIO_BLK_S_OK).
Proof.
  intros Ht Hs. destruct (save_load_eq D D' s s0 Ht Hs) as [Hk Hl]. split; [exact Hk|].
  destruct (load D' s0) as [[D'' s1] ok]. destruct Hl as [?|(? & ? & Hr)]; [by left|right].
  split; [done|]. split; [done|]. apply read_disk_failed; [|exact Hr].
  unfold save in Hs. case_decide; [done|].
  assert (0 <= BlockDev.capacity D - 1) as Hcap.
  { apply (write_disk_true D _ (encode s)). exact (f_equal snd Hs). }
  pose proof (write_capacity D (BlockDev.capacity D - 1) (encode s)) as Hc. rewrite Hs in Hc. cbn in Hc, Hcap.
  rewrite Hc. lia.
Qed.

(** ** Witnesses: the device in memory, started *)

Definition blk_function (bar : Z) : PciMem := {| pm_latch := 0; pm_regs := map (fun r => (cfg_addr (0, 4, 0) r.1, r.2))
  [(0x04, 0); (0x10, 0x1000); (0x34, 0x40);
   (0x40, 0x01105009); (0x44, bar); (0x48, 0);
   (0x50, 0x02147009); (0x54, 0); (0x58, 0x2000); (0x60, 4);
   (0x70, 0x04100009); (0x74, 0); (0x78, 0x1000)] |}.

Definition cold (bar : Z) (ro : bool) : MemVirtio := {|
  mv_disk := blank_disk 2; mv_consumed := 0; mv_busy := 0; mv_pci := blk_function bar;
  mv_read_only := ro |}.

Definition start (w : MemVirtio) : MemVirtio * rust (option (VirtioBlk * BlkPages)) :=
  init (0, 4, 0) None 0 0x200000 true BLK_zero w.

(** A read-only device is refused as an install target; a capability that
    names a reserved BAR (the specification: to be ignored) is a panic. *)
Example read_only_refused : (start (cold 0 true)).2 = Ret None.
Proof. vm_compute. reflexivity. Qed.
Example reserved_bar_panics : (start (cold 6 false)).2 = Panic.
Proof. vm_compute. reflexivity. Qed.

Definition warm : MemVirtio := (start (cold 0 false)).1.
Definition warm_dev : VirtioBlk :=
  match (start (cold 0 false)).2 with Ret (Some (dev, _)) => dev | _ => demo_dev end.
Definition warm_pages : BlkPages :=
  match (start (cold 0 false)).2 with Ret (Some (_, p)) => p | _ => BLK_zero end.

Lemma virtio_init_ready_witness :
  start (cold 0 false) = (warm, Ret (Some (warm_dev, warm_pages))) /\
  pages_wf warm_pages /\ used_idx warm_pages = 0 /\
  (forall notify_off, placed (place_of warm_dev notify_off) warm_dev) /\ 3 <= qmask warm_dev <= 63.
Proof.
  split; [vm_compute; reflexivity|].
  apply (virtio_init_ready (0, 4, 0) None 0 0x200000 true BLK_zero (cold 0 false) warm).
  - intros a w. unfold mm_r32, MemVirtio_mmio, mv_reg32, is_u32. cbn [snd].
    destruct (decide (a = 0x1004)); [destruct (mv_read_only w); lia|].
    destruct (decide (a = 0x2000)); [apply Z.mod_pos_bound; lia|lia].
  - exact I.
  - reflexivity.
  - reflexivity.
  - reflexivity.
  - by_decide.
  - vm_compute. reflexivity.
Defined.

Definition warm_state : VirtioState MemVirtio := {| vs_w := warm; vs_dev := warm_dev; vs_p := warm_pages |}.

Lemma warm_wf : vs_wf (d := mem_place) warm_state.
Proof.
  assert (placed mem_place warm_dev) as H1 by by_decide.
  assert (pages_wf warm_pages) as H2 by by_decide.
  assert (consumed (d := mem_place) warm = used_idx warm_pages) as H3 by (vm_compute; reflexivity).
  exact (conj H1 (conj H2 H3)).
Qed.

Lemma virtio_sector_requests_witness :
  exists w' p' ok,
    write_sector (vs_dev warm_state) 1 (replicate 512 7) (vs_w warm_state) (vs_p warm_state)
      = (w', Ret (p', ok)) /\
    (ok = true -> medium (d := mem_place) w' 1 = replicate 512 7).
Proof.
  destruct (virtio_sector_requests (d := mem_place) warm_state 1 (replicate 512 0) (replicate 512 7))
    as [_ (w' & p' & ok & E & _ & _ & Hok & _)].
  - apply warm_wf.
  - lia.
  - reflexivity.
  - by_decide.
  - exists w', p', ok. exact (conj E Hok).
Defined.

(** The write does report success, and the sector reads back. *)
Example warm_write_read :
  match write_sector warm_dev 1 (replicate 512 7) warm warm_pages with
  | (w, Ret (p, ok)) => ok = true /\
      exists w' p', read_sector warm_dev 1 (replicate 512 0) w p = (w', Ret (p', true, replicate 512 7))
  | _ => False
  end.
Proof. vm_compute. split; [reflexivity|]. eexists _, _. reflexivity. Qed.

Definition warm_disk : Disk (d := mem_place) := exist _ warm_state warm_wf.

Definition saved : Disk (d := mem_place) := (save warm_disk settings_new).1.
Definition other_settings : DeviceSettings :=
  with_ip settings_new Static [10; 0; 0; 9] [10; 0; 0; 1] [8; 8; 4; 4].

(** The sector that the save writes, and the state after it. *)
Lemma saved_sector : sector_ok (encode settings_new).
Proof. split; [by rewrite length_encode by apply settings_new_typed|]. apply encode_bytes, settings_new_typed. Qed.

Lemma save_warm : save warm_disk settings_new = write_disk (d := mem_place) warm_disk 1 (encode settings_new).
Proof.
  assert (capacity warm_dev = 2) as Hcap by (vm_compute; reflexivity).
  unfold save. change (BlockDev.capacity warm_disk) with (capacity warm_dev).
  by rewrite Hcap, decide_False by done.
Qed.

Definition saved_state : VirtioState MemVirtio := (write_state warm_state 1 (encode settings_new)).1.

Lemma at_rest_saved : at_rest saved = saved_state.
Proof.
  unfold saved. rewrite save_warm, write_disk_state; [|lia|apply saved_sector].
  change (at_rest warm_disk) with warm_state. unfold saved_state. reflexivity.
Qed.

Lemma saved_true : save warm_disk settings_new = (saved, true).
Proof.
  assert ((save warm_disk settings_new).2 = true) as Hflag;
    [|unfold saved; rewrite <-Hflag; apply surjective_pairing].
  rewrite save_warm, write_disk_flag; [|lia|apply saved_sector].
  change (at_rest warm_disk) with warm_state. vm_compute. reflexivity.
Qed.

(** The device answers the read of the saved sector with success. *)
Lemma saved_reads w' p' out' ok :
  read_sector (vs_dev saved_state) (capacity (vs_dev saved_state) - 1) (replicate SECTOR 0)
    (vs_w saved_state) (vs_p saved_state) = (w', Ret (p', ok, out')) -> status p' = VIRTIO_BLK_S_OK.
Proof.
  assert (match read_sector (vs_dev saved_state) (capacity (vs_dev saved_state) - 1) (replicate SECTOR 0)
    (vs_w saved_state) (vs_p saved_state) with
    | (_, Ret (p, _, _)) => status p | (_, Panic) => -1 end = VIRTIO_BLK_S_OK) as Hs
    by (vm_compute; reflexivity).
  intros E. by rewrite E in Hs.
Qed.

Lemma settings_over_virtio_witness :
  save warm_disk settings_new = (saved, true) /\
  let '(_, s1, ok) := load saved other_settings in ok = true /\ s1 = normalize settings_new.
Proof.
  split; [exact saved_true|].
  pose proof (settings_over_virtio (d := mem_place) warm_disk saved settings_new other_settings
    settings_new_typed saved_true) as [_ Hload].
  destruct (load saved other_settings) as [[D'' s1] ok].
  destruct Hload as [?|(_ & _ & w' & p' & Er & Hst)]; [done|]. exfalso. apply Hst.
  rewrite at_rest_saved in Er. exact (saved_reads _ _ _ _ Er).
Defined.
