(* ===== verification/VirtioNet.v ===== *)
(** * The VirtIO network driver ([kernel/src/virtio_net.rs])

    Start-up of the two queues, reception through one buffer that is handed
    back after every packet, and transmission with a wait for the used ring.
    The pages of the queues are shared with the device: [net_spin] is what it
    does to them between two of the driver's reads.  Reading the PCI
    configuration is written in this file as it is in [virtio_blk.rs], and the
    definitions of [VirtioBlk.v] are used.  [VirtioNetOk.v] has the theorems. *)

From S2P Require Import Prelude Ports Pci VirtioBlk.

Definition VIRTIO_VENDOR : Z := 0x1AF4.
Definition VIRTIO_NET : Z := 0x1041.
Definition RX_QSZ : nat := 256.
Definition TX_QSZ : nat := 8.
Definition RX_BUFFER_BYTES : nat := 4096.
Definition TX_BUFFER_BYTES : nat := 4096.

(** ** The shared pages *)

(** [RxPages] and [TxPages]: of the rings, the parts the driver or the device
    use; [used_ring] has the pairs of a [VirtqUsedElem]. *)
Record VirtQ := {
  desc : list VirtqDesc;
  avail_flags : Z;
  avail_idx : Z;
  avail_ring : list Z;
  used_flags : Z;
  used_idx : Z;
  used_ring : list (Z * Z);
  buf : bytes;
}.
#[export] Instance VirtQ_eta : Settable VirtQ := fun q =>
  Build_VirtQ q.(desc) q.(avail_flags) q.(avail_idx) q.(avail_ring) q.(used_flags) q.(used_idx)
    q.(used_ring) q.(buf).

Definition zero_queue (qsz bytes : nat) : VirtQ := {|
  desc := replicate qsz no_desc; avail_flags := 0; avail_idx := 0; avail_ring := replicate qsz 0;
  used_flags := 0; used_idx := 0; used_ring := replicate qsz (0, 0); buf := replicate bytes 0 |}.

Record NetPages := { RXQ : VirtQ; TXQ : VirtQ }.
#[export] Instance NetPages_eta : Settable NetPages := fun p => Build_NetPages p.(RXQ) p.(TXQ).

Definition NetPages_zero : NetPages := {|
  RXQ := zero_queue RX_QSZ RX_BUFFER_BYTES; TXQ := zero_queue TX_QSZ TX_BUFFER_BYTES |}.

(** Offsets of the fields in the [repr(C, align(4096))] layouts. *)
Definition rx_off_avail : Z := 4096.
Definition rx_off_used : Z := 4616.
Definition rx_off_buf : Z := 6672.
Definition tx_off_avail : Z := 128.
Definition tx_off_used : Z := 152.
Definition tx_off_buf : Z := 224.

Record VirtioNet := {
  common : Z;
  notify : Z;
  notify_mul : Z;
  device_cfg : Z;
  phys_skew : option Z;
  rx_mask : Z;
  tx_mask : Z;
  mac : bytes;
  rx_packets : Z;
  rx_last_used : Z;
  tx_last_used : Z;
  tx_inflight : bool;
}.
#[export] Instance VirtioNet_eta : Settable VirtioNet := fun n =>
  Build_VirtioNet n.(common) n.(notify) n.(notify_mul) n.(device_cfg) n.(phys_skew) n.(rx_mask)
    n.(tx_mask) n.(mac) n.(rx_packets) n.(rx_last_used) n.(tx_last_used) n.(tx_inflight).

(** [RXQ_at], [TXQ_at]: the addresses of the two statics. *)
Class NetMachine (W : Type) := {
  net_mmio :: Mmio W;
  RXQ_at : Z;
  TXQ_at : Z;
  net_spin : W -> NetPages -> W * NetPages;
}.

Section choice.
Context {W : Type} `{Ports W}.

(** The first of the functions found that is an Ethernet controller. *)
Fixpoint first_ethernet (locs : list PciFn) (w : W) : W * option PciFn :=
  match locs with
  | [] => (w, None)
  | f :: locs =>
      let '(w, c) := class_subclass_prog_fn f w in
      match c with
      | Some (cls, sub, _) =>
          if decide (cls = 0x02 /\ sub = 0x00) then (w, Some f) else first_ethernet locs w
      | None => first_ethernet locs w
      end
  end.

(** The function a driver takes: an Ethernet controller, or else the first found. *)
Definition pick_function (vendor device : Z) (w : W) : W * option PciFn :=
  let '(w, locs) := find_device_any_fn vendor device 8 w in
  match locs with
  | [] => (w, None)
  | loc0 :: _ =>
      let '(w, picked) := first_ethernet locs w in
      (w, Some (default loc0 picked))
  end.
End choice.

Section driver.
Context {W : Type} `{NetMachine W}.

(** ** Queues *)

Definition notify_queue (n : VirtioNet) (queue_sel : Z) (w : W) : W :=
  let w := mm_w16 (common n + 22) queue_sel w in
  let '(w, qn) := mm_r16 (common n + 30) w in
  mm_w16 (wrap64 (notify n + wrap32 (qn * notify_mul n))) 0 w.

Definition setup_one_queue (base queue_index queue_size p_desc p_avail p_used : Z) (w : W) : W :=
  let w := mm_w16 (base + 22) queue_index w in
  let w := mm_w16 (base + 24) queue_size w in
  let w := mm_w16 (base + 26) 0xFFFF w in
  let w := mm_w16 (base + 28) 0 w in
  let w := mm_w64 (base + 32) p_desc w in
  let w := mm_w64 (base + 40) p_avail w in
  let w := mm_w64 (base + 48) p_used w in
  mm_w16 (base + 28) 1 w.

(** ** Start-up *)

(** The three structures of the device, from the capabilities and the BARs. *)
Definition find_bases (bars : list (option Z)) (c : Caps) : rust (option (Z * Z * Z * Z)) :=
  match cap_common c, cap_notify c, cap_devcfg c with
  | Some (cbar, coff), Some (nbar, noff, nmul), Some (dbar, doff) =>
      cb ← bar_addr bars cbar coff;
      match cb with
      | None => Ret None
      | Some common_base =>
          nb ← bar_addr bars nbar noff;
          match nb with
          | None => Ret None
          | Some notify_base =>
              db ← bar_addr bars dbar doff;
              match db with
              | None => Ret None
              | Some device_cfg => Ret (Some (common_base, notify_base, nmul, device_cfg))
              end
          end
      end
  | _, _, _ => Ret None
  end.

(** Reset and features: VERSION_1 and the MAC address. *)
Definition negotiate (base : Z) (w : W) : W * bool :=
  let w := mm_w8 (base + 20) 0 w in
  let w := mm_w8 (base + 20) STATUS_ACK w in
  let w := mm_w8 (base + 20) (Z.lor STATUS_ACK STATUS_DRIVER) w in
  let w := mm_w32 base 1 w in
  let '(w, dev_f1) := mm_r32 (base + 4) w in
  let w := mm_w32 (base + 8) 1 w in
  let w := mm_w32 (base + 12) (Z.land dev_f1 1) w in
  let w := mm_w32 base 0 w in
  let '(w, dev_f0) := mm_r32 (base + 4) w in
  let w := mm_w32 (base + 8) 0 w in
  let w := mm_w32 (base + 12) (Z.land dev_f0 (Z.shiftl 1 5)) w in
  let w := mm_w8 (base + 20) (Z.lor (Z.lor STATUS_ACK STATUS_DRIVER) STATUS_FEATURES_OK) w in
  let '(w, st) := mm_r8 (base + 20) w in
  (w, bool_decide (Z.land st STATUS_FEATURES_OK <> 0)).

(** The length of a queue: the device's, if it is usable, and at most ours. *)
Definition queue_length (base queue_index : Z) (ours : nat) (w : W) : W * option Z :=
  let w := mm_w16 (base + 22) queue_index w in
  let '(w, qmax) := mm_r16 (base + 24) w in
  (w, if decide (qmax < 2 \/ is_power_of_two qmax = false) then None
      else Some (Z.min (Z.of_nat ours) qmax)).

(** One buffer for the device, in descriptor 0. *)
Definition rx_desc (skew : option Z) (next : Z) : VirtqDesc := {|
  d_addr := phys skew (RXQ_at + rx_off_buf); d_len := Z.of_nat RX_BUFFER_BYTES;
  d_flags := VIRTQ_DESC_F_WRITE; d_next := next |}.

Definition init_rx (skew : option Z) (q : VirtQ) : rust VirtQ :=
  ds ← wr (desc q) 0 (rx_desc skew 0);
  ring ← wr (avail_ring q) 0 0;
  Ret (q <| desc := ds |> <| avail_flags := 0 |> <| avail_ring := ring |> <| avail_idx := 1 |>
         <| used_flags := 0 |> <| used_idx := 0 |>).

Definition init_tx (q : VirtQ) : rust VirtQ :=
  ds ← wr (desc q) 0 no_desc;
  Ret (q <| desc := ds |> <| avail_flags := 0 |> <| avail_idx := 0 |>
         <| used_flags := 0 |> <| used_idx := 0 |>).

Fixpoint read_mac (device_cfg : Z) (idxs : list Z) (w : W) : W * bytes :=
  match idxs with
  | [] => (w, [])
  | i :: idxs =>
      let '(w, b) := mm_r8 (device_cfg + i) w in
      let '(w, l) := read_mac device_cfg idxs w in (w, b :: l)
  end.

(** The second half of [probe]: the queues, once the features are agreed on. *)
Definition start_queues (bases : Z * Z * Z * Z) (skew : option Z) (p : NetPages) (w : W) :
    W * rust (NetPages * option VirtioNet) :=
  let '(common_base, notify_base, nmul, device_cfg) := bases in
  let '(w, rx_use) := queue_length common_base 0 RX_QSZ w in
  match rx_use, init_rx skew (RXQ p) with
  | None, _ => (w, Ret (p, None))
  | Some _, Panic => (w, Panic)
  | Some rx_use, Ret rxq =>
      let p := p <| RXQ := rxq |> in
      let w := setup_one_queue common_base 0 rx_use (phys skew RXQ_at) (phys skew (RXQ_at + rx_off_avail))
        (phys skew (RXQ_at + rx_off_used)) w in
      let '(w, tx_use) := queue_length common_base 1 TX_QSZ w in
      match tx_use, init_tx (TXQ p) with
      | None, _ => (w, Ret (p, None))
      | Some _, Panic => (w, Panic)
      | Some tx_use, Ret txq =>
          let p := p <| TXQ := txq |> in
          let w := setup_one_queue common_base 1 tx_use (phys skew TXQ_at)
            (phys skew (TXQ_at + tx_off_avail)) (phys skew (TXQ_at + tx_off_used)) w in
          let w := mm_w8 (common_base + 20)
            (Z.lor (Z.lor (Z.lor STATUS_ACK STATUS_DRIVER) STATUS_FEATURES_OK) STATUS_DRIVER_OK) w in
          let net := {|
            common := common_base; notify := notify_base; notify_mul := nmul; device_cfg := device_cfg;
            phys_skew := skew; rx_mask := rx_use - 1; tx_mask := tx_use - 1; mac := replicate 6 0;
            rx_packets := 0; rx_last_used := 0; tx_last_used := 0; tx_inflight := false |} in
          let w := notify_queue net 0 w in
          let '(w, m) := read_mac device_cfg (seqZ 0 6) w in
          (w, Ret (p, Some (net <| mac := m |>)))
      end
  end.

Definition probe (mmio_off : option Z) (p : NetPages) (w : W) : W * rust (NetPages * option VirtioNet) :=
  let '(w, picked) := pick_function VIRTIO_VENDOR VIRTIO_NET w in
  match picked with
  | None => (w, Ret (p, None))
  | Some f =>
      let w := pci_enable_mmio_bm f w in
      let '(w, bars) := read_bars f mmio_off (seqZ 0 6) w in
      let '(w, cap) := read_u8 f 0x34 w in
      let '(c, w) := walk_caps f (Z.land cap 0xFC) w in
      match find_bases bars c with
      | Panic => (w, Panic)
      | Ret None => (w, Ret (p, None))
      | Ret (Some bases) =>
          let '(w, ok) := negotiate bases.1.1.1 w in
          if ok : bool then start_queues bases mmio_off p w else (w, Ret (p, None))
      end
  end.

(** ** Reception *)

Definition virtio_net_hdr_len (pkt : bytes) : nat :=
  let et i := of_be (slice pkt i (i + 2)) in
  if decide ((14 <= length pkt)%nat /\ (et 12%nat = 0x0800 \/ et 12%nat = 0x0806)) then 0
  else if decide ((12 <= length pkt)%nat /\ (et 10%nat = 0x0800 \/ et 10%nat = 0x0806)) then 10
  else Nat.min 12 (length pkt).

(** An entry on an available ring of [mask] + 1 entries. *)
Definition push_avail (mask : Z) (q : VirtQ) : rust VirtQ :=
  ring ← wr (avail_ring q) (Z.to_nat (Z.land (avail_idx q) mask)) 0;
  Ret (q <| avail_ring := ring |> <| avail_idx := wrap16 (avail_idx q + 1) |>).

Definition requeue_rx_only (n : VirtioNet) (w : W) (p : NetPages) : W * rust NetPages :=
  match
    d0 ← rd (desc (RXQ p)) 0;
    ds ← wr (desc (RXQ p)) 0 (rx_desc (phys_skew n) (d_next d0));
    push_avail (rx_mask n) ((RXQ p) <| desc := ds |>)
  with
  | Panic => (w, Panic)
  | Ret q => (notify_queue n 0 w, Ret (p <| RXQ := q |>))
  end.

(** The end of [poll_rx_packet]: the buffer goes back to the device. *)
Definition requeue (n : VirtioNet) (r : option nat) (out : bytes) (w : W) (p : NetPages) :
    W * rust (VirtioNet * NetPages * option nat * bytes) :=
  let '(w, q) := requeue_rx_only n w p in
  (w, p ← q; Ret (n, p, r, out)).

Definition poll_rx_packet (n : VirtioNet) (out : bytes) (w : W) (p : NetPages) :
    W * rust (VirtioNet * NetPages * option nat * bytes) :=
  let '(w, p) := net_spin w p in
  let q := RXQ p in
  if decide (rx_last_used n = used_idx q) then (w, Ret (n, p, None, out))
  else
    match rd (used_ring q) (Z.to_nat (Z.land (rx_last_used n) (rx_mask n))) with
    | Panic => (w, Panic)
    | Ret (_, len) =>
        let total := Z.to_nat len in
        let n := n <| rx_last_used := wrap16 (rx_last_used n + 1) |>
                   <| rx_packets := wrap64 (rx_packets n + 1) |> in
        if decide (total = 0 \/ RX_BUFFER_BYTES < total)%nat then requeue n None out w p
        else
          match
            pkt ← sub (buf q) 0 total;
            let hdr := virtio_net_hdr_len pkt in
            let body := (total - hdr)%nat in
            if decide (body = 0 \/ length out < body)%nat then Ret (None, out)
            else
              src ← sub (buf q) hdr total;
              out ← copy_at out 0 src;
              Ret (Some body, out)
          with
          | Panic => (w, Panic)
          | Ret (r, out) => requeue n r out w p
          end
    end.

(** ** Transmission *)

(** One round of the waits in [transmit]. *)
Definition tx_round (lu : Z) (st : W * NetPages) : (W * NetPages) + (W * NetPages) :=
  let '(w, p) := net_spin st.1 st.2 in
  if decide (used_idx (TXQ p) <> lu) then inr (w, p) else inl (w, p).

(** The wait itself, and whether a packet was completed. *)
Definition wait_tx (n : VirtioNet) (w : W) (p : NetPages) : VirtioNet * W * NetPages * bool :=
  match for_upto (tx_round (tx_last_used n)) 500000 (w, p) with
  | inr (w, p) => (n <| tx_last_used := used_idx (TXQ p) |> <| tx_inflight := false |>, w, p, true)
  | inl (w, p) => (n, w, p, false)
  end.

Definition fill_tx (n : VirtioNet) (pkt : bytes) (q : VirtQ) : rust VirtQ :=
  b ← copy_at (buf q) 0 pkt;
  ds ← wr (desc q) 0 {| d_addr := phys (phys_skew n) (TXQ_at + tx_off_buf);
    d_len := Z.of_nat (length pkt); d_flags := 0; d_next := 0 |};
  push_avail (tx_mask n) (q <| buf := b |> <| desc := ds |>).

Definition transmit (n : VirtioNet) (pkt : bytes) (w : W) (p : NetPages) :
    W * rust (VirtioNet * NetPages * bool) :=
  let '(n, w, p, _) := if tx_inflight n then wait_tx n w p else (n, w, p, false) in
  if decide (length pkt = 0 \/ TX_BUFFER_BYTES < length pkt)%nat then (w, Ret (n, p, false))
  else
    match fill_tx n pkt (TXQ p) with
    | Panic => (w, Panic)
    | Ret q =>
        let n := n <| tx_inflight := true |> in
        let '(n, w, p, ok) := wait_tx n (notify_queue n 1 w) (p <| TXQ := q |>) in
        (w, Ret (n <| tx_inflight := false |>, p, ok))
    end.
End driver.
