(* ===== verification/NicDriver.v ===== *)
(** * What the network drivers have in common

    The calls of a driver, as a sequence of polls and transmissions
    ([run_ops]); [queue_driver], the contract of a driver that refines two
    queues of frames, one in and one out; and the ring of buffers that a driver
    and its card fill and empty in turn ([ring]). *)

From S2P Require Import Prelude.

(** ** Sequences of calls *)

(** A poll with a buffer, or a packet to send. *)
Inductive NetOp := Poll (room : bytes) | Send (pkt : bytes).

Definition packets (ops : list NetOp) : list bytes :=
  omap (fun op => match op with Send pkt => Some pkt | Poll _ => None end) ops.

(** [D] is the driver's state, [W] the machine, [P] the memory they share. *)
Section calls.
Context {D W P : Type}.
Context (poll : D -> bytes -> W -> P -> W * rust (D * P * option nat * bytes)).
Context (transmit : D -> bytes -> W -> P -> W * rust (D * P * bool)).

(** The frames received and the packets accepted. *)
Fixpoint run_ops (ops : list NetOp) (d : D) (w : W) (p : P) : W * rust (D * P * list bytes * list bytes) :=
  match ops with
  | [] => (w, Ret (d, p, [], []))
  | Poll room :: ops =>
      match poll d room w p with
      | (w, Panic) => (w, Panic)
      | (w, Ret (d, p, r, out)) =>
          let '(w, s) := run_ops ops d w p in
          (w, '(d, p, fs, ps) ← s; Ret (d, p, match r with Some l => take l out :: fs | None => fs end, ps))
      end
  | Send pkt :: ops =>
      match transmit d pkt w p with
      | (w, Panic) => (w, Panic)
      | (w, Ret (d, p, ok)) =>
          let '(w, s) := run_ops ops d w p in
          (w, '(d, p, fs, ps) ← s; Ret (d, p, fs, if ok : bool then pkt :: ps else ps))
      end
  end.

(** ** Drivers as queues *)

(** [q_in] are the frames the network has for the caller, [q_out] those sent or
    about to be; [q_got f g] says that the caller may get [g] for the frame
    [f], [q_strip] is what a packet is on the wire, [q_sure] whether the driver
    never refuses one. *)
Record queue_driver := {
  q_inv : D -> W -> P -> Prop;
  q_in : D -> W -> P -> list bytes;
  q_out : D -> W -> P -> list bytes;
  q_frame : bytes -> Prop;
  q_got : bytes -> bytes -> Prop;
  q_room : bytes -> Prop;
  q_packet : bytes -> Prop;
  q_strip : bytes -> bytes;
  q_sure : bool;
  q_poll d room w p : q_inv d w p -> Forall q_frame (q_in d w p) -> q_room room -> exists d' w' p' r out,
    poll d room w p = (w', Ret (d', p', r, out)) /\ q_inv d' w' p' /\
    match r with
    | Some l => exists f, q_in d w p = f :: q_in d' w' p' /\ q_got f (take l out)
    | None => q_in d' w' p' = q_in d w p
    end /\
    q_out d' w' p' = q_out d w p;
  q_send d pkt w p : q_inv d w p -> q_packet pkt -> exists d' w' p' ok,
    transmit d pkt w p = (w', Ret (d', p', ok)) /\ q_inv d' w' p' /\ q_in d' w' p' = q_in d w p /\
    q_out d' w' p' = q_out d w p ++ (if ok : bool then [q_strip pkt] else []) /\
    (q_sure = true -> ok = true);
}.

Definition op_ok (Q : queue_driver) (op : NetOp) : Prop :=
  match op with Poll room => q_room Q room | Send pkt => q_packet Q pkt end.

(** Frames come in once and in order, and packets go out so. *)
Lemma run_ops_ok (Q : queue_driver) ops d w p :
  q_inv Q d w p -> Forall (q_frame Q) (q_in Q d w p) -> Forall (op_ok Q) ops ->
  exists d' w' p' fs gs ps, run_ops ops d w p = (w', Ret (d', p', gs, ps)) /\ q_inv Q d' w' p' /\
    Forall2 (q_got Q) fs gs /\ fs ++ q_in Q d' w' p' = q_in Q d w p /\ q_out Q d' w' p' = q_out Q d w p ++ map (q_strip Q) ps /\
    ps `sublist_of` packets ops /\ (q_sure Q = true -> ps = packets ops).
Proof.
  intros Hi Hf Hops. revert d w p Hi Hf.
  induction Hops as [|[room|pkt] ops Hop _ IH]; intros d w p Hi Hf; cbn [run_ops packets omap list_omap].
  { exists d, w, p, [], [], []. rewrite app_nil_r. by split_and!. }
  - destruct (q_poll Q d room w p Hi Hf Hop) as (d1 & w1 & p1 & r & out & -> & Hi1 & Ein & Eout).
    assert (Forall (q_frame Q) (q_in Q d1 w1 p1)) as Hf1.
    { destruct r; [|congruence]. destruct Ein as (f & E & _). rewrite E in Hf. by apply Forall_cons in Hf as [_ ?]. }
    destruct (IH d1 w1 p1 Hi1 Hf1) as (d' & w' & p' & fs & gs & ps & -> & Hi' & Hg & Ein' & Eout' & Hs & Hsure).
    rewrite bind_ret, <-Eout. destruct r as [l|].
    + destruct Ein as (f & -> & Hf'). exists d', w', p', (f :: fs), (take l out :: gs), ps.
      split_and!; try done; [by constructor|]. cbn. by rewrite Ein'.
    + rewrite <-Ein. by exists d', w', p', fs, gs, ps.
  - destruct (q_send Q d pkt w p Hi Hop) as (d1 & w1 & p1 & ok & -> & Hi1 & Ein & Eout & Hok).
    rewrite <-Ein in Hf |- *.
    destruct (IH d1 w1 p1 Hi1 Hf) as (d' & w' & p' & fs & gs & ps & -> & Hi' & Hg & Ein' & Eout' & Hs & Hsure).
    exists d', w', p', fs, gs, (if ok then pkt :: ps else ps). rewrite bind_ret. cbn [mret option_ret].
    split_and!; [done|done|done|done| | |].
    + rewrite Eout', Eout, <-app_assoc. by destruct ok.
    + destruct ok; [by apply sublist_skip|by apply sublist_cons].
    + intros Hs1. rewrite Hok by done. f_equal. by apply Hsure.
Qed.

(** ** Drivers that always return

    [f_left] bounds what is still to be received. *)
Record finite_driver := {
  f_inv : D -> W -> P -> Prop;
  f_left : D -> W -> P -> nat;
  f_poll d room w p : f_inv d w p -> exists d' w' p' r out,
    poll d room w p = (w', Ret (d', p', r, out)) /\ f_inv d' w' p' /\
    match r with Some n => f_left d' w' p' + n < f_left d w p | None => f_left d' w' p' <= f_left d w p end%nat;
  f_send d pkt w p : f_inv d w p -> exists d' w' p' ok,
    transmit d pkt w p = (w', Ret (d', p', ok)) /\ f_inv d' w' p' /\ (f_left d' w' p' <= f_left d w p)%nat;
}.
End calls.

(** What a poll does to the frames to come: it takes at most the first, which
    may be dropped or cut if it is too long for the buffer. *)
Inductive takes : list bytes -> list bytes -> bytes -> option nat -> bytes -> Prop :=
  | takes_none fs room : takes fs fs room None room
  | takes_dropped f fs room : (length room < length f)%nat -> takes (f :: fs) fs room None room
  | takes_frame f fs room g :
      g `prefix_of` f -> (length g <= length room)%nat -> ((length f <= length room)%nat -> g = f) ->
      takes (f :: fs) fs room (Some (length g)) (g ++ drop (length g) room).

Lemma takes_whole fs fs' room r out : takes fs fs' room r out ->
  Forall (fun f => (length f <= length room)%nat) fs ->
  match r with Some l => exists f, fs = f :: fs' /\ f = take l out | None => fs' = fs end.
Proof.
  intros [|f fs0 room0 Hl|f fs0 room0 g Hg Hl Hf] Hall; [done| |]; apply Forall_cons in Hall as [Hlen _]; [lia|].
  exists f. split; [done|]. rewrite take_app_length. by rewrite Hf.
Qed.

(** A measure of the frames to come: each counts with its length, and one more. *)
Definition traffic (fs : list bytes) : nat := sum_list_with (fun f => S (length f)) fs.

Lemma takes_traffic fs fs' room r out : takes fs fs' room r out ->
  match r with Some n => traffic fs' + n < traffic fs | None => traffic fs' <= traffic fs end%nat.
Proof.
  intros [|f fs0 room0 Hl|f fs0 room0 g Hg Hl Hf]; unfold traffic; cbn; [done|lia|].
  apply prefix_length in Hg. lia.
Qed.

(** ** Rings of buffers *)

(** The cell a free-running [u64] index stands for, and the next. *)
Definition cell_of (N : nat) (c : Z) : nat := Z.to_nat (c mod Z.of_nat N).

Lemma cell_of_lt N c : (0 < N)%nat -> (cell_of N c < N)%nat.
Proof. intros HN. unfold cell_of. pose proof (Z.mod_pos_bound c (Z.of_nat N)). lia. Qed.

Lemma cell_of_next N c : (0 < N)%nat -> (Z.of_nat N | 2 ^ 64) ->
  cell_of N (wrap64 (c + 1)) = (S (cell_of N c) `mod` N)%nat.
Proof.
  intros HN Hd. unfold cell_of, wrap. rewrite Z.mod_mod_divide by done.
  pose proof (Z.mod_pos_bound c (Z.of_nat N) ltac:(lia)) as Hc. rewrite <-Z.add_mod_idemp_l by lia.
  apply Nat2Z.inj. rewrite Nat2Z.inj_mod, Z2Nat.id by (apply Z.mod_pos_bound; lia).
  rewrite Nat2Z.inj_succ, Z2Nat.id by lia. done.
Qed.

(** [ring N c held cells]: of the [N] cells, those from [c] on hold [held], one
    after the other and around the end; the others hold nothing. *)
Definition ring (N c : nat) (held : list bytes) (cells : list (option bytes)) : Prop :=
  length cells = N /\ (length held <= N)%nat /\
  forall i, (i < N)%nat -> cells !! ((c + i) `mod` N)%nat = Some (held !! i).

Lemma mod_cancel N c i j : (i < N)%nat -> (j < N)%nat -> ((c + i) `mod` N = (c + j) `mod` N)%nat -> i = j.
Proof.
  intros Hi Hj E. pose proof (Nat.div_mod_eq (c + i) N) as Ei. pose proof (Nat.div_mod_eq (c + j) N) as Ej.
  assert ((c + i) / N = (c + j) / N)%nat; [|lia].
  destruct (lt_eq_lt_dec ((c + i) / N) ((c + j) / N)) as [[?|?]|?]; [nia|done|nia].
Qed.

Section ring.
Context (N : nat).
Implicit Types (c : nat) (held : list bytes) (cells : list (option bytes)).

Lemma ring_at c held cells i : ring N c held cells -> (i < N)%nat -> cells !! ((c + i) `mod` N)%nat = Some (held !! i).
Proof. intros (_ & _ & H) Hi. by apply H. Qed.

Lemma ring_first c held cells : ring N c held cells -> (0 < N)%nat -> cells !! (c `mod` N)%nat = Some (head held).
Proof. intros H HN. pose proof (ring_at c held cells 0 H HN) as E. rewrite Nat.add_0_r in E. rewrite E. by destruct held. Qed.

Lemma ring_slot_lt c : (0 < N)%nat -> (c `mod` N < N)%nat.
Proof. intros. apply Nat.mod_upper_bound. lia. Qed.

(** Only the place in the ring counts. *)
Lemma ring_mod c held cells : (0 < N)%nat -> ring N (c `mod` N) held cells <-> ring N c held cells.
Proof. intros HN. unfold ring. setoid_rewrite Nat.Div0.add_mod_idemp_l. done. Qed.

Lemma ring_push c held cells f : ring N c held cells -> (length held < N)%nat ->
  ring N c (held ++ [f]) (<[((c + length held) `mod` N)%nat := Some f]> cells).
Proof.
  intros (Hl & Hh & H) HN. split; [by rewrite length_insert|]. split; [rewrite length_app; cbn; lia|].
  intros i Hi. destruct (decide (i = length held)) as [->|Hne].
  - rewrite list_lookup_insert_eq by (rewrite Hl; apply ring_slot_lt; lia). by rewrite list_lookup_middle.
  - rewrite list_lookup_insert_ne by (intros E%mod_cancel; lia). rewrite H by done. f_equal.
    destruct (decide (i < length held)%nat); [by rewrite lookup_app_l|].
    rewrite !lookup_ge_None_2; [done|rewrite length_app; cbn; lia|lia].
Qed.

Lemma ring_pop c f held cells : ring N c (f :: held) cells ->
  ring N (S c) held (<[(c `mod` N)%nat := None]> cells).
Proof.
  intros (Hl & Hh & H). cbn in Hh. split; [by rewrite length_insert|]. split; [lia|].
  intros i Hi. replace (S c + i)%nat with (c + S i)%nat by lia.
  destruct (decide (S i = N)) as [E|Hne].
  - assert ((c + S i) `mod` N = c `mod` N)%nat as ->.
    { rewrite E. rewrite <-(Nat.mul_1_l N) at 1. by rewrite Nat.Div0.mod_add. }
    rewrite list_lookup_insert_eq by (rewrite Hl; apply ring_slot_lt; lia). by rewrite lookup_ge_None_2 by lia.
  - rewrite list_lookup_insert_ne.
    + rewrite H by lia. done.
    + intros E. rewrite <-(Nat.add_0_r c) in E at 1. apply mod_cancel in E; lia.
Qed.

(** The same for a ring that is kept as two lists, of descriptors and of buffers. *)
Lemma ring_push_cells {A B} (cell : A -> B -> option bytes) l k c held f a b i :
  ring N c held (zip_with cell l k) -> (length held < N)%nat -> i = ((c + length held) `mod` N)%nat ->
  cell a b = Some f -> ring N c (held ++ [f]) (zip_with cell (<[i := a]> l) (<[i := b]> k)).
Proof. intros H Hl -> E. rewrite <-insert_zip_with, E. by apply ring_push. Qed.

Lemma ring_pop_cells {A B} (cell : A -> B -> option bytes) l k c held f a b i :
  ring N c (f :: held) (zip_with cell l k) -> i = (c `mod` N)%nat -> k !! i = Some b ->
  cell a b = None -> ring N (S c) held (zip_with cell (<[i := a]> l) k).
Proof.
  intros H -> Hb E. rewrite <-(list_insert_id k _ _ Hb), <-insert_zip_with, E. by eapply ring_pop.
Qed.

(** A full ring has no room, one with room has an empty cell at its end. *)
Lemma ring_room c held cells : ring N c held cells -> (0 < N)%nat ->
  cells !! ((c + length held) `mod` N)%nat = Some None -> (length held < N)%nat.
Proof.
  intros (Hl & Hh & H) HN E. destruct (decide (length held = N)) as [Ef|]; [|lia]. exfalso.
  assert ((c + length held) `mod` N = (c + 0) `mod` N)%nat as Ec.
  { rewrite Ef, Nat.add_0_r. rewrite <-(Nat.mul_1_l N) at 1. by rewrite Nat.Div0.mod_add. }
  rewrite Ec, H in E by done. destruct held; [cbn in Ef; lia|done].
Qed.

(** What a ring holds can be read off it. *)
Fixpoint run_of (cells : list (option bytes)) (c fuel : nat) : list bytes :=
  match fuel with
  | O => []
  | S k => match cells !! (c `mod` N)%nat with Some (Some f) => f :: run_of cells (S c) k | _ => [] end
  end.

Lemma run_of_ring c held cells : ring N c held cells -> run_of cells c N = held.
Proof.
  intros (Hl & Hh & H).
  assert (forall k i, (k + i = N)%nat -> run_of cells (c + i) k = drop i held) as Hrun.
  { induction k as [|k IH]; intros i Hi; cbn [run_of]; [by rewrite drop_ge by lia|].
    rewrite H by lia. destruct (held !! i) as [f|] eqn:E.
    - rewrite <-Nat.add_succ_r, IH by lia. by rewrite (drop_S held f i).
    - apply lookup_ge_None in E. by rewrite drop_ge. }
  rewrite <-(Nat.add_0_r c). by rewrite (Hrun N 0%nat) by lia.
Qed.

Lemma ring_replicate c : ring N c [] (replicate N None).
Proof.
  split; [by rewrite length_replicate|]. split; [cbn; lia|]. intros i Hi.
  rewrite lookup_replicate_2; [done|]. apply ring_slot_lt. lia.
Qed.
End ring.
