(* ===== verification/VirtioNetOk.v ===== *)
(** * What the VirtIO network driver guarantees

    [VirtioNetDevice] is what the VirtIO specification asks of a network
    device: it fills the buffers it is given with a header and a frame, and
    puts on the wire what it finds behind the header of a packet.  Over such a
    device the driver of [VirtioNet.v] refines two queues of frames, however
    polls and transmissions interleave with the device, and is a [Nic] for the
    network stack. *)

From S2P Require Import Prelude Ports Pci VirtioBlk VirtioNet NicDriver.

(** ** The device *)

(** What is outside: the frames still to come, those sent, and how many buffers
    of each queue the device has taken. *)
Record Wire := { incoming : list bytes; sent : list bytes; rx_done : Z; tx_done : Z }.

(** Where a device is: its registers, its masks, the physical buffers. *)
Record NetPlace := {
  at_common : Z; at_notify : Z; at_mul : Z; at_off : Z -> Z;
  at_rx_mask : Z; at_tx_mask : Z; at_rx : Z; at_tx : Z;
}.

Definition notify_addr (d : NetPlace) (q : Z) : Z :=
  wrap64 (d.(at_notify) + wrap32 (d.(at_off) q * d.(at_mul))).

Section protocol.
Context (d : NetPlace).

(** The next entry of a ring is descriptor 0. *)
Definition posted (mask done : Z) (q : VirtQ) : Prop :=
  avail_idx q = wrap16 (done + 1) /\ avail_ring q !! Z.to_nat (Z.land done mask) = Some 0.

Definition rx_posted (done : Z) (q : VirtQ) : Prop :=
  posted (at_rx_mask d) done q /\ exists next, desc q !! 0%nat = Some
    {| d_addr := at_rx d; d_len := Z.of_nat RX_BUFFER_BYTES; d_flags := VIRTQ_DESC_F_WRITE; d_next := next |}.

Definition tx_posted (pkt : bytes) (done : Z) (q : VirtQ) : Prop :=
  posted (at_tx_mask d) done q /\ take (length pkt) (buf q) = pkt /\ desc q !! 0%nat = Some
    {| d_addr := at_tx d; d_len := Z.of_nat (length pkt); d_flags := 0; d_next := 0 |}.

Definition idle (done : Z) (q : VirtQ) : Prop := avail_idx q = done.

(** A header as the specification has it: one buffer. *)
Definition header_ok (h : bytes) : Prop := length h = 12%nat /\ slice h 10 12 = [1; 0].

Definition use (mask : Z) (len : nat) (q : VirtQ) : VirtQ :=
  q <| used_ring := <[Z.to_nat (Z.land (used_idx q) mask) := (0, Z.of_nat len)]> (used_ring q) |>
    <| used_idx := wrap16 (used_idx q + 1) |>.

(** A step of the device on the receive queue. *)
Inductive rx_step : list bytes * Z * VirtQ -> list bytes * Z * VirtQ -> Prop :=
  | rx_quiet s : rx_step s s
  | rx_deliver f fs done q h :
      rx_posted done q -> header_ok h -> (12 + length f <= RX_BUFFER_BYTES)%nat ->
      rx_step (f :: fs, done, q)
        (fs, wrap16 (done + 1),
         use (at_rx_mask d) (12 + length f) (q <| buf := list_inserts 0 (h ++ f) (buf q) |>)).

(** A step of the device on the transmit queue. *)
Inductive tx_step : list bytes * Z * VirtQ -> list bytes * Z * VirtQ -> Prop :=
  | tx_quiet s : tx_step s s
  | tx_take fs done q pkt :
      tx_posted pkt done q ->
      tx_step (fs, done, q) (fs ++ [drop 12 pkt], wrap16 (done + 1), use (at_tx_mask d) 0 q).

(** What the driver owes the device. *)
Definition queues_ok (x : Wire) (p : NetPages) : Prop :=
  (rx_posted (rx_done x) (RXQ p) \/ idle (rx_done x) (RXQ p)) /\
  ((exists pkt, tx_posted pkt (tx_done x) (TXQ p)) \/ idle (tx_done x) (TXQ p)).
End protocol.

(** [j] steps of the device. *)
Fixpoint spins {W} `{NetMachine W} (j : nat) (st : W * NetPages) : W * NetPages :=
  match j with O => st | S j => spins j (net_spin st.1 st.2) end.

Class VirtioNetDevice (W : Type) `{NetMachine W} (d : NetPlace) := {
  wire : W -> Wire;
  (** selecting a queue and reading its notify offset, and notifying it, change nothing outside *)
  select_queue w q : q = 0 \/ q = 1 ->
    let '(w', qn) := mm_r16 (d.(at_common) + 30) (mm_w16 (d.(at_common) + 22) q w) in
    qn = d.(at_off) q /\ wire w' = wire w;
  notified w q : q = 0 \/ q = 1 -> wire (mm_w16 (notify_addr d q) 0 w) = wire w;
  (** the device follows the protocol at each of its steps *)
  steps w p : queues_ok d (wire w) p ->
    let '(w', p') := net_spin w p in
    rx_step d (incoming (wire w), rx_done (wire w), RXQ p) (incoming (wire w'), rx_done (wire w'), RXQ p') /\
    tx_step d (sent (wire w), tx_done (wire w), TXQ p) (sent (wire w'), tx_done (wire w'), TXQ p');
  (** a packet is taken within the driver's patience after a notification *)
  serves w p pkt : queues_ok d (wire w) p -> tx_posted d pkt (tx_done (wire w)) (TXQ p) ->
    exists k, (k < Pos.to_nat 500000)%nat /\
      used_idx (TXQ (spins (S k) (mm_w16 (notify_addr d 1) 0 w, p)).2) <> used_idx (TXQ p);
}.

(** ** The driver between two calls *)

Definition is_u16 (z : Z) : Prop := 0 <= z < 2 ^ 16.

Definition placed {W} `{NetMachine W} (d : NetPlace) (n : VirtioNet) : Prop :=
  common n = d.(at_common) /\ notify n = d.(at_notify) /\ notify_mul n = d.(at_mul) /\
  rx_mask n = d.(at_rx_mask) /\ tx_mask n = d.(at_tx_mask) /\
  1 <= d.(at_rx_mask) < Z.of_nat RX_QSZ /\ 1 <= d.(at_tx_mask) < Z.of_nat TX_QSZ /\
  phys (phys_skew n) (RXQ_at + rx_off_buf) = d.(at_rx) /\
  phys (phys_skew n) (TXQ_at + tx_off_buf) = d.(at_tx).

Section guarantees.
Context {W : Type} `{VirtioNetDevice W d}.
Implicit Types (w : W) (n : VirtioNet) (q : VirtQ) (f : bytes).

Definition queue_shape (qsz : nat) q : Prop :=
  (0 < length (desc q))%nat /\ length (avail_ring q) = qsz /\ length (used_ring q) = qsz /\
  length (buf q) = 4096%nat /\ is_u16 (used_idx q).

(** The frame in the receive buffer that the driver has not looked at yet. *)
Definition held n q : list bytes :=
  if decide (rx_last_used n = used_idx q) then []
  else match used_ring q !! Z.to_nat (Z.land (rx_last_used n) (rx_mask n)) with
       | Some (_, len) => [drop 12 (take (Z.to_nat len) (buf q))]
       | None => []
       end.

(** The buffer is with the device, or holds a frame for the driver. *)
Definition rx_inv n (done : Z) q : Prop :=
  queue_shape RX_QSZ q /\ is_u16 (rx_last_used n) /\ used_idx q = done /\
  (rx_posted d done q /\ rx_last_used n = done \/
   idle done q /\ done = wrap16 (rx_last_used n + 1) /\
   exists h f, header_ok h /\ (12 + length f <= RX_BUFFER_BYTES)%nat /\
     used_ring q !! Z.to_nat (Z.land (rx_last_used n) (rx_mask n)) = Some (0, Z.of_nat (12 + length f)) /\
     take (12 + length f) (buf q) = h ++ f).

Definition tx_shape n (done : Z) q : Prop :=
  queue_shape TX_QSZ q /\ used_idx q = done /\ tx_last_used n = done.

Definition tx_inv n (done : Z) q : Prop := tx_shape n done q /\ idle done q.

(** ** The queues *)

Lemma u16_next u : is_u16 u -> is_u16 (wrap16 (u + 1)) /\ wrap16 (u + 1) <> u.
Proof. intros Hu. destruct (wrap16_next u Hu). by split. Qed.

Lemma slot_lt u mask qsz : is_u16 u -> 1 <= mask < Z.of_nat qsz -> (Z.to_nat (Z.land u mask) < qsz)%nat.
Proof. intros [Hu _] Hm. pose proof (land_bound u mask Hu). lia. Qed.

Lemma use_shape qsz mask len q : queue_shape qsz q -> queue_shape qsz (use mask len q).
Proof.
  intros (H1 & H2 & H3 & H4 & H5). unfold queue_shape, use. cbn. rewrite length_insert.
  split_and!; try done. by apply u16_next.
Qed.

(** The buffer handed back to the device. *)
Lemma push_posted qsz mask q : queue_shape qsz q -> idle (used_idx q) q -> 1 <= mask < Z.of_nat qsz ->
  exists q', push_avail mask q = Ret q' /\ posted mask (used_idx q) q' /\ queue_shape qsz q' /\
    desc q' = desc q /\ used_idx q' = used_idx q /\ used_ring q' = used_ring q /\ buf q' = buf q.
Proof.
  intros (H1 & H2 & H3 & H4 & H5) Hi Hm. unfold idle in Hi. unfold push_avail. rewrite Hi.
  pose proof (slot_lt _ _ _ H5 Hm) as Hs. rewrite wr_ok, bind_ret by lia.
  eexists. split; [reflexivity|]. unfold posted, queue_shape. cbn. rewrite length_insert, list_lookup_insert_eq by lia.
  by split_and!.
Qed.

(** The device's steps keep the receive side, and lose no frame. *)
Lemma rx_inv_step n inc done q inc' done' q' :
  placed d n -> rx_inv n done q -> rx_step d (inc, done, q) (inc', done', q') ->
  rx_inv n done' q' /\ held n q' ++ inc' = held n q ++ inc.
Proof.
  intros Hp Hinv Hstep. inversion Hstep as [|f fs ? ? h Hpost Hh Hf]; subst; [done|].
  destruct Hp as (_ & _ & _ & Em & _ & Hm & _).
  destruct Hinv as (Hsh & Hl & Hu & Hcase). pose proof Hsh as (H1 & H2 & H3 & H4 & H5). subst done.
  destruct (u16_next _ H5) as [H6 H7]. pose proof (slot_lt _ _ _ H5 Hm) as Hs.
  assert (rx_last_used n = used_idx q) as El.
  { destruct Hcase as [[_ ?]|[Hi _]]; [done|]. destruct Hpost as [[Ha _] _]. unfold idle in Hi. congruence. }
  assert (length (h ++ f) = (12 + length f)%nat) as Hlen by (destruct Hh; len).
  assert (take (12 + length f) (list_inserts 0 (h ++ f) (buf q)) = h ++ f) as Ht.
  { rewrite take_as_slice. apply slice_inserts_in; [lia|]. unfold RX_BUFFER_BYTES in Hf. lia. }
  assert (queue_shape RX_QSZ (use (at_rx_mask d) (12 + length f) (q <| buf := list_inserts 0 (h ++ f) (buf q) |>))) as Hsh'.
  { apply use_shape. unfold queue_shape. cbn -[Nat.add]. rewrite length_inserts. by split_and!. }
  split.
  - split; [exact Hsh'|]. unfold use. cbn -[Nat.add]. split; [done|]. split; [done|]. right. rewrite El, Em.
    split; [by destruct Hpost as [[? _] _]|]. split; [done|]. exists h, f. split; [done|]. split; [done|].
    split; [|done]. by rewrite list_lookup_insert_eq by lia.
  - unfold held, use. cbn -[Nat.add]. rewrite El, Em, decide_False, decide_True by done.
    rewrite list_lookup_insert_eq by lia. cbn [Nat.add] in Ht. rewrite Nat2Z.id, Ht, drop_app_ge by (destruct Hh; lia).
    destruct Hh as [-> _]. by rewrite Nat.sub_diag.
Qed.

(** ** Between two calls *)

Definition net_inv n w (p : NetPages) : Prop :=
  placed d n /\ rx_inv n (rx_done (wire w)) (RXQ p) /\ tx_inv n (tx_done (wire w)) (TXQ p).

(** The frames the network has for the driver. *)
Definition backlog n w (p : NetPages) : list bytes := held n (RXQ p) ++ incoming (wire w).

Lemma rx_inv_owed n done q : rx_inv n done q -> rx_posted d done q \/ idle done q.
Proof. intros (_ & _ & _ & [[? _]|[? _]]); auto. Qed.

Lemma net_inv_owed n w p : net_inv n w p -> queues_ok d (wire w) p.
Proof. intros (_ & Hr & [_ Ht]). split; [by eapply rx_inv_owed|by right]. Qed.

Lemma posted_not_idle mask done q : is_u16 done -> posted mask done q -> ~ idle done q.
Proof. intros Hu [E _] Hi. unfold idle in Hi. destruct (u16_next done Hu). congruence. Qed.

Lemma spin_inv n w p w' p' : net_inv n w p -> net_spin w p = (w', p') ->
  net_inv n w' p' /\ backlog n w' p' = backlog n w p /\ sent (wire w') = sent (wire w) /\ TXQ p' = TXQ p.
Proof.
  intros Hi E. pose proof (steps w p (net_inv_owed n w p Hi)) as Hs. rewrite E in Hs. destruct Hs as [Hr Ht].
  destruct Hi as (Hp & Hrx & Htx). destruct (rx_inv_step _ _ _ _ _ _ _ Hp Hrx Hr) as [Hrx' Hb].
  inversion Ht as [|? ? ? pkt Hpost]; subst.
  - split; [|split; [exact Hb|done]]. split; [done|]. split; [done|]. congruence.
  - destruct Htx as [((?&?&?&?&Hu) & E1 & E2) Hidle]. destruct Hpost as [Hpost _].
    destruct (posted_not_idle (at_tx_mask d) (tx_done (wire w)) (TXQ p)); congruence || done.
Qed.

Lemma notify_wire n (i : Z) w : placed d n -> i = 0 \/ i = 1 -> exists w0,
  notify_queue n i w = mm_w16 (notify_addr d i) 0 w0 /\ wire w0 = wire w /\ wire (notify_queue n i w) = wire w.
Proof.
  intros (E1 & E2 & E3 & _) Hi. unfold notify_queue. rewrite E1, E2, E3.
  pose proof (select_queue w i Hi) as Hs. destruct (mm_r16 _ _) as [w0 qn]. destruct Hs as [-> Ew].
  fold (notify_addr d i). exists w0. split_and!; [done|done|]. by rewrite notified.
Qed.

(** ** Reception *)

(** A frame whose destination address starts like an IPv4 or ARP packet: the
    driver takes the start of the VirtIO header for an Ethernet header. *)
Definition ambiguous f : Prop := (2 <= length f)%nat /\ (of_be (take 2 f) = 0x0800 \/ of_be (take 2 f) = 0x0806).
#[export] Instance ambiguous_dec f : Decision (ambiguous f).
Proof. unfold ambiguous. apply _. Defined.

Definition delivered (h f : bytes) : bytes := if decide (ambiguous f) then h ++ f else f.

Lemma hdr_len h f : header_ok h ->
  virtio_net_hdr_len (h ++ f) = if decide (ambiguous f) then 0%nat else 12%nat.
Proof.
  intros [Hl Hb]. unfold virtio_net_hdr_len.
  assert (slice (h ++ f) 12 14 = take 2 f) as E12.
  { rewrite slice_skip, Hl by lia. apply slice_0. }
  assert (slice (h ++ f) 10 12 = [1; 0]) as E10.
  { rewrite <-Hb. unfold slice. rewrite drop_app_le, take_app_le by len. done. }
  cbn [Nat.add]. rewrite E12, E10. rewrite length_app, Hl.
  destruct (decide (ambiguous f)) as [[H1 H2]|Ha]; [by rewrite decide_True by (split; [lia|done])|].
  rewrite decide_False by (intros [? ?]; apply Ha; split; [lia|done]).
  rewrite decide_False by (intros [_ [E|E]]; vm_compute in E; done). lia.
Qed.

Lemma length_delivered h f : header_ok h -> (length f <= length (delivered h f) <= 12 + length f)%nat.
Proof. intros [Hl _]. unfold delivered. case_decide; len. Qed.

(** What a poll does to the frames: it takes at most the first. *)
Inductive polled : list bytes -> list bytes -> bytes -> option nat -> bytes -> Prop :=
  | polled_none fs out : polled fs fs out None out
  | polled_dropped h f fs out :
      header_ok h -> length (delivered h f) = 0%nat \/ (length out < length (delivered h f))%nat ->
      polled (f :: fs) fs out None out
  | polled_frame h f fs out :
      header_ok h -> (length (delivered h f) <= length out)%nat ->
      polled (f :: fs) fs out (Some (length (delivered h f)))
        (delivered h f ++ drop (length (delivered h f)) out).
(** Handing the buffer back, after a frame was taken or dropped. *)
Lemma requeue_ok n r out w p :
  placed d n -> tx_inv n (tx_done (wire w)) (TXQ p) ->
  queue_shape RX_QSZ (RXQ p) -> idle (used_idx (RXQ p)) (RXQ p) ->
  used_idx (RXQ p) = rx_done (wire w) -> rx_last_used n = rx_done (wire w) ->
  exists w' p', requeue n r out w p = (w', Ret (n, p', r, out)) /\ net_inv n w' p' /\
    backlog n w' p' = incoming (wire w) /\ sent (wire w') = sent (wire w).
Proof.
  intros Hp Ht Hsh Hi Eu El. unfold requeue, requeue_rx_only.
  pose proof Hp as (_ & _ & _ & Em & _ & Hm & _ & Ha & _). pose proof Hsh as (Hd & _).
  destruct (desc (RXQ p)) as [|d0 ds] eqn:Ed; [cbn in Hd; lia|].
  change (rd (d0 :: ds) 0) with (Ret d0). rewrite bind_ret, wr_ok, bind_ret by (cbn; lia).
  set (q1 := (RXQ p) <| desc := <[0%nat := rx_desc (phys_skew n) (d_next d0)]> (d0 :: ds) |>).
  destruct (push_posted RX_QSZ (rx_mask n) q1) as (q & -> & Hpost & Hsh' & Eds & Eus & Eur & Ebuf).
  { destruct Hsh as (?&?&?&?&?). unfold queue_shape, q1. cbn. by split_and!. }
  { done. }
  { by rewrite Em. }
  destruct (notify_wire n 0 w Hp ltac:(by left)) as (_ & _ & _ & Ew).
  eexists _, _. split; [rewrite bind_ret; reflexivity|].
  change (used_idx q1) with (used_idx (RXQ p)) in *.
  assert (held n q = []) as Eh by (unfold held; by rewrite decide_True by congruence).
  split; [split; [done|split]|split].
  - cbn. rewrite Ew. split; [done|]. destruct Hsh as (_&_&_&_&Hu). split; [congruence|].
    split; [congruence|]. left. split; [|done]. split; [by rewrite <-Em, <-Eu|].
    exists (d_next d0). rewrite Eds. unfold q1. cbn. unfold rx_desc. by rewrite Ha.
  - cbn. by rewrite Ew.
  - unfold backlog. cbn. by rewrite Eh, Ew.
  - cbn. by rewrite Ew.
Qed.

Lemma poll_ok n out w p : net_inv n w p -> exists n' w' p' r out',
  poll_rx_packet n out w p = (w', Ret (n', p', r, out')) /\ net_inv n' w' p' /\
  polled (backlog n w p) (backlog n' w' p') out r out' /\ sent (wire w') = sent (wire w) /\
  tx_inflight n' = tx_inflight n.
Proof.
  intros Hi. unfold poll_rx_packet. destruct (net_spin w p) as [w1 p1] eqn:E.
  destruct (spin_inv n w p w1 p1 Hi E) as (Hi1 & <- & <- & _). clear Hi E w p.
  pose proof Hi1 as (Hp & (Hsh & Hlast & Eu & Hcase) & Ht).
  case_decide as Hq; [exists n, w1, p1, None, out; split_and!; done || constructor|].
  destruct Hcase as [[_ El]|(Hidle & Edone & h & f & Hh & Hf & Eur & Etake)]; [congruence|].
  assert (backlog n w1 p1 = f :: incoming (wire w1)) as Eb.
  { unfold backlog, held. rewrite decide_False, Eur, Nat2Z.id, Etake by done.
    rewrite drop_app_ge by (destruct Hh; lia). destruct Hh as [-> _]. by rewrite Nat.sub_diag. }
  rewrite (rd_lookup _ _ _ Eur), Nat2Z.id, Eb. cbv zeta.
  set (n1 := n <| rx_last_used := _ |> <| rx_packets := _ |>).
  assert (forall r out', polled (f :: incoming (wire w1)) (incoming (wire w1)) out r out' ->
    exists n' w' p' r' out2, requeue n1 r out' w1 p1 = (w', Ret (n', p', r', out2)) /\ net_inv n' w' p' /\
      polled (f :: incoming (wire w1)) (backlog n' w' p') out r' out2 /\ sent (wire w') = sent (wire w1) /\
      tx_inflight n' = tx_inflight n) as Hback.
  { intros r out' Hpoll. destruct (requeue_ok n1 r out' w1 p1) as (w' & p' & -> & Hi' & Eb' & Es);
      [done|done|done|by rewrite Eu|done|done|]. exists n1, w', p', r, out'. by rewrite Eb'. }
  rewrite decide_False by lia.
  assert (length (buf (RXQ p1)) = RX_BUFFER_BYTES) as Elen by (by destruct Hsh as (_&_&_&?&_)).
  rewrite sub_ok, bind_ret, slice_0, Etake, hdr_len by (done || lia).
  assert ((12 + length f - (if decide (ambiguous f) then 0 else 12))%nat = length (delivered h f)) as Ebody.
  { unfold delivered. destruct Hh. case_decide; [len|lia]. }
  rewrite Ebody.
  destruct (decide (length (delivered h f) = 0 \/ length out < length (delivered h f))%nat) as [Hdrop|Hdrop].
  { apply (Hback None out). by apply (polled_dropped h). }
  assert (sub (buf (RXQ p1)) (if decide (ambiguous f) then 0 else 12) (12 + length f) = Ret (delivered h f)) as ->.
  { rewrite sub_ok by (case_decide; lia).
    f_equal. unfold delivered. case_decide; [by rewrite slice_0, Etake|].
    unfold slice. rewrite <-skipn_firstn_comm, Etake, drop_app_ge by (destruct Hh; lia).
    destruct Hh as [-> _]. by rewrite Nat.sub_diag. }
  rewrite bind_ret, copy_at_ok, bind_ret by lia. apply (Hback (Some _)).
  rewrite inserts_split, take_0 by lia. apply polled_frame; [done|lia].
Qed.

(** ** Transmission *)

(** While a packet waits, the device may fill the receive buffer; once it takes
    the packet, the packet is on the wire. *)
Lemma tx_inv_step n pkt w p w' p' :
  placed d n -> rx_inv n (rx_done (wire w)) (RXQ p) ->
  tx_shape n (tx_done (wire w)) (TXQ p) -> tx_posted d pkt (tx_done (wire w)) (TXQ p) ->
  net_spin w p = (w', p') ->
  rx_inv n (rx_done (wire w')) (RXQ p') /\ backlog n w' p' = backlog n w p /\
  ((TXQ p' = TXQ p /\ tx_done (wire w') = tx_done (wire w) /\ sent (wire w') = sent (wire w)) \/
   (tx_inv (n <| tx_last_used := used_idx (TXQ p') |>) (tx_done (wire w')) (TXQ p') /\
    used_idx (TXQ p') <> tx_last_used n /\ sent (wire w') = sent (wire w) ++ [drop 12 pkt])).
Proof.
  intros Hp Hrx Hsh Hpost E.
  pose proof (steps w p) as Hs. rewrite E in Hs. destruct Hs as [Hr Ht].
  { split; [by eapply rx_inv_owed|eauto]. }
  destruct (rx_inv_step _ _ _ _ _ _ _ Hp Hrx Hr) as [Hrx' Hb].
  split; [done|]. split; [done|]. inversion Ht as [|? ? ? pkt' Hpost']; subst; [by left; split_and!|right].
  assert (pkt' = pkt) as ->.
  { destruct Hpost as (_ & E1 & Ed), Hpost' as (_ & E2 & Ed'). rewrite Ed in Ed'. injection Ed' as El.
    rewrite <-E1, <-E2. f_equal. lia. }
  destruct Hsh as (Hsh & Eu & El). pose proof Hsh as (_&_&_&_&Hu).
  destruct (u16_next _ Hu). split_and!; [split; [split|]| |done]; cbn.
  - by apply use_shape.
  - cbn. split; congruence.
  - destruct Hpost as [[Ea _] _]. unfold idle, use. cbn. congruence.
  - congruence.
Qed.

Lemma wait_tx_ok k n pkt w p :
  placed d n -> rx_inv n (rx_done (wire w)) (RXQ p) ->
  tx_shape n (tx_done (wire w)) (TXQ p) -> tx_posted d pkt (tx_done (wire w)) (TXQ p) ->
  used_idx (TXQ (spins (S k) (w, p)).2) <> used_idx (TXQ p) ->
  exists j w' p', (j <= S k)%nat /\ for_nat (tx_round (tx_last_used n)) j (w, p) = inr (w', p') /\
    net_inv (n <| tx_last_used := used_idx (TXQ p') |>) w' p' /\
    backlog n w' p' = backlog n w p /\ sent (wire w') = sent (wire w) ++ [drop 12 pkt].
Proof.
  revert w p. induction k as [|k IH]; intros w p Hp Hrx Hsh Hpost Hk; cbn [spins fst snd] in Hk;
    destruct (net_spin w p) as [w1 p1] eqn:E;
    destruct (tx_inv_step n pkt w p w1 p1 Hp Hrx Hsh Hpost E) as (Hrx1 & Hb & [(Eq & Ed & Es)|(Htx & Hne & Es)]).
  - cbn [spins snd] in Hk. congruence.
  - exists 1%nat, w1, p1. cbn. unfold tx_round. cbn [fst snd]. rewrite E, decide_True by done. by split_and!.
  - destruct (IH w1 p1) as (j & w' & p' & Hj & El & Hi & Hb' & Es'); rewrite ?Eq, ?Ed; [done..|].
    exists (S j), w', p'. split; [lia|]. rewrite for_nat_S. unfold tx_round at 1. cbn [fst snd].
    destruct Hsh as (_ & Eu & El2). rewrite E, decide_False by (rewrite Eq; intros Hn; apply Hn; congruence).
    cbn [and_then]. split_and!; [done|done|congruence|congruence].
  - exists 1%nat, w1, p1. split; [lia|]. cbn. unfold tx_round. cbn [fst snd]. rewrite E, decide_True by done. by split_and!.
Qed.
Lemma transmit_refused n pkt w p : tx_inflight n = false ->
  (length pkt = 0 \/ TX_BUFFER_BYTES < length pkt)%nat -> transmit n pkt w p = (w, Ret (n, p, false)).
Proof. intros Hn Hl. unfold transmit. by rewrite Hn, decide_True. Qed.

(** A packet in the buffer, posted to the device. *)
Lemma fill_tx_ok n pkt done q : placed d n -> tx_inv n done q ->
  (length pkt <= TX_BUFFER_BYTES)%nat ->
  exists q', fill_tx n pkt q = Ret q' /\ tx_shape n done q' /\ tx_posted d pkt done q' /\ used_idx q' = used_idx q.
Proof.
  intros Hp [(Hsh & Eu & El) Hidle] Hl. unfold fill_tx.
  pose proof Hp as (_ & _ & _ & _ & Em & _ & Hm & _ & Ha). pose proof Hsh as (Hd & Hring & Hused & Hbuf & Hu).
  rewrite copy_at_ok, bind_ret by (unfold TX_BUFFER_BYTES in Hl; lia).
  destruct (desc q) as [|d0 ds] eqn:Ed; [cbn in Hd; lia|]. rewrite wr_ok, bind_ret by (cbn; lia).
  match goal with |- context [push_avail _ ?x] => set (q1 := x) end.
  destruct (push_posted TX_QSZ (tx_mask n) q1) as (q' & -> & Hpost & Hsh' & Eds & Eus & Eur & Ebuf).
  { unfold queue_shape, q1. cbn. rewrite length_inserts. by split_and!. }
  { unfold idle, q1 in *. cbn. congruence. }
  { by rewrite Em. }
  change (used_idx q1) with (used_idx q) in *.
  exists q'. split; [done|]. split; [split_and!; congruence || done|]. split; [|congruence].
  split; [rewrite <-Em, <-Eu; done|]. split.
  - rewrite Ebuf. unfold q1. cbn. rewrite inserts_split, take_0 by (unfold TX_BUFFER_BYTES in Hl; lia).
    rewrite app_nil_l. apply take_app_length.
  - rewrite Eds. unfold q1. cbn. by rewrite Ha.
Qed.

Lemma transmit_ok n pkt w p :
  net_inv n w p -> tx_inflight n = false -> (0 < length pkt <= TX_BUFFER_BYTES)%nat ->
  exists n' w' p', transmit n pkt w p = (w', Ret (n', p', true)) /\ net_inv n' w' p' /\
    tx_inflight n' = false /\ backlog n' w' p' = backlog n w p /\
    sent (wire w') = sent (wire w) ++ [drop 12 pkt].
Proof.
  intros (Hp & Hrx & Htx) Hfl Hl. unfold transmit. rewrite Hfl, decide_False by lia.
  destruct (fill_tx_ok n pkt _ _ Hp Htx) as (q & -> & Hsh & Hpost & Eu); [lia|].
  set (n1 := n <| tx_inflight := true |>).
  destruct (notify_wire n1 1 w Hp) as (w0 & -> & Ew0 & Ew); [by right|].
  set (p1 := p <| TXQ := q |>). rewrite <-Ew0 in *.
  destruct (serves w0 p1 pkt) as (k & Hk & Hserved); [split; [by eapply rx_inv_owed|eauto]|done|].
  assert (wire (mm_w16 (notify_addr d 1) 0 w0) = wire w0) as En by (apply notified; by right).
  destruct (wait_tx_ok k n1 pkt (mm_w16 (notify_addr d 1) 0 w0) p1)
    as (j & w' & p' & Hj & Eloop & Hi & Hb & Hs); rewrite ?En; [done..|].
  unfold wait_tx. rewrite (for_upto_exit _ 500000 j _ (w', p')) by (lia || done).
  eexists _, w', p'. split; [reflexivity|]. split; [exact Hi|]. split; [done|]. rewrite En in Hs.
  split; [|done]. etransitivity; [exact Hb|]. unfold backlog. cbn. by rewrite En, Ew0.
Qed.

(** ** Two queues *)

(** A frame that fits the receive buffer behind the header. *)
Definition fitting_frame f : Prop := f <> [] /\ (length f <= 4084)%nat.
#[export] Instance fitting_frame_dec f : Decision (fitting_frame f).
Proof. unfold fitting_frame. apply _. Defined.

(** What the caller gets for a frame: the frame, or, when the guess at the
    header fails, the header and the frame. *)
Definition received f (g : bytes) : Prop := exists h, header_ok h /\ g = if decide (ambiguous f) then h ++ f else f.

Lemma poll_fitting n room w p : net_inv n w p -> Forall fitting_frame (backlog n w p) ->
  (RX_BUFFER_BYTES <= length room)%nat -> exists n' w' p' r out,
  poll_rx_packet n room w p = (w', Ret (n', p', r, out)) /\ net_inv n' w' p' /\
  sent (wire w') = sent (wire w) /\ tx_inflight n' = tx_inflight n /\
  match r with
  | Some l => exists f, backlog n w p = f :: backlog n' w' p' /\ received f (take l out)
  | None => backlog n' w' p' = backlog n w p
  end.
Proof.
  intros Hi Hf Hr. destruct (poll_ok n room w p Hi) as (n' & w' & p' & r & out & E & Hi' & Hpoll & Hs & Hfl).
  exists n', w', p', r, out. split_and!; [done..|]. unfold RX_BUFFER_BYTES in Hr.
  destruct Hpoll as [|h f fs out Hh Hd|h f fs out Hh Hd]; [done| |]; apply Forall_cons in Hf as [[Hne Hl] _].
  - pose proof (length_delivered h f Hh) as [? ?]. destruct f; [done|]. cbn in *. lia.
  - exists f. split; [done|]. exists h. split; [done|]. by rewrite take_app_length.
Qed.

Definition virtio_queues : queue_driver (W := W) poll_rx_packet transmit.
Proof.
  refine {| q_inv := fun n w p => net_inv n w p /\ tx_inflight n = false; q_in := backlog;
    q_out := fun _ w _ => sent (wire w); q_frame := fitting_frame; q_got := received;
    q_room := fun room => (RX_BUFFER_BYTES <= length room)%nat;
    q_packet := fun pkt => (0 < length pkt <= TX_BUFFER_BYTES)%nat; q_strip := drop 12; q_sure := true |}.
  - intros n room w p [Hi Hfl] Hf Hr.
    destruct (poll_fitting n room w p Hi Hf Hr) as (n' & w' & p' & r & out & E & Hi' & Es & Hfl' & Eb).
    exists n', w', p', r, out. split_and!; congruence || done.
  - intros n pkt w p [Hi Hfl] Hl. destruct (transmit_ok n pkt w p Hi Hfl Hl) as (n' & w' & p' & E & Hi' & Hfl' & Eb & Es).
    exists n', w', p', true. by split_and!.
Defined.
(** A frame counts with its VirtIO header, and one more. *)
Definition virtio_traffic (fs : list bytes) : nat := sum_list_with (fun f => 13 + length f)%nat fs.

Lemma polled_virtio_traffic fs fs' room r out : polled fs fs' room r out ->
  match r with Some n => virtio_traffic fs' + n < virtio_traffic fs | None => virtio_traffic fs' <= virtio_traffic fs end%nat.
Proof.
  intros [|h f fs0 out0 Hh _|h f fs0 out0 Hh _]; unfold virtio_traffic; cbn; [done|lia|]. pose proof (length_delivered h f Hh). lia.
Qed.

Definition virtio_finite : finite_driver (W := W) poll_rx_packet transmit.
Proof.
  refine {| f_inv := fun n w p => net_inv n w p /\ tx_inflight n = false;
    f_left := fun n w p => virtio_traffic (backlog n w p) |}.
  - intros n room w p [Hi Hfl]. destruct (poll_ok n room w p Hi) as (n' & w' & p' & r & out & E & Hi' & Hp & _ & Hfl').
    exists n', w', p', r, out. split; [done|]. split; [by rewrite Hfl'|]. by eapply polled_virtio_traffic.
  - intros n pkt w p [Hi Hfl]. destruct (decide (0 < length pkt <= TX_BUFFER_BYTES)%nat) as [Hl|Hl].
    + destruct (transmit_ok n pkt w p Hi Hfl Hl) as (n' & w' & p' & E & Hi' & Hfl' & Eb & _).
      exists n', w', p', true. by rewrite Eb.
    + exists n, w, p, false. rewrite transmit_refused by (done || lia). by split_and!.
Defined.
End guarantees.

(** ** Start-up *)

(** The place a started device is at, by the driver's own record. *)
Definition place_of {W} `{NetMachine W} (n : VirtioNet) (off : Z -> Z) : NetPlace := {|
  at_common := common n; at_notify := notify n; at_mul := notify_mul n; at_off := off;
  at_rx_mask := rx_mask n; at_tx_mask := tx_mask n;
  at_rx := phys (phys_skew n) (RXQ_at + rx_off_buf); at_tx := phys (phys_skew n) (TXQ_at + tx_off_buf) |}.

Section start.
Context {W : Type} `{NetMachine W}.

(** A started driver: the receive buffer posted, the transmit queue idle. *)
Definition ready (off : Z -> Z) (n : VirtioNet) (p : NetPages) : Prop :=
  placed (place_of n off) n /\ @rx_inv (place_of n off) n 0 (RXQ p) /\ tx_inv n 0 (TXQ p) /\
  held n (RXQ p) = [] /\ tx_inflight n = false /\ length (mac n) = 6%nat.

Lemma queue_length_range base i ours w w' q :
  queue_length base i ours w = (w', Some q) -> (2 <= ours)%nat -> 2 <= q <= Z.of_nat ours.
Proof.
  unfold queue_length. cbv zeta. destruct (mm_r16 _ _) as [w1 qmax]. case_decide; [done|].
  intros [= _ <-]. lia.
Qed.

Lemma length_read_mac cfg idxs w : length (read_mac cfg idxs w).2 = length idxs.
Proof.
  revert w. induction idxs as [|i idxs IH]; intros w; [done|]. cbn. destruct (mm_r8 _ _) as [w1 b].
  specialize (IH w1). destruct (read_mac cfg idxs w1). cbn in *. lia.
Qed.

Lemma init_rx_ok skew q : queue_shape RX_QSZ q -> exists q', init_rx skew q = Ret q' /\
  queue_shape RX_QSZ q' /\ used_idx q' = 0 /\ avail_idx q' = 1 /\ avail_ring q' !! 0%nat = Some 0 /\
  desc q' !! 0%nat = Some (rx_desc skew 0).
Proof.
  destruct q as [ds af ai r uf ui ur b]. intros (R1 & R2 & R3 & R4 & R5). cbn in * |-.
  destruct ds as [|d0 ds]; [cbn in R1; lia|]. destruct r as [|r0 r]; [done|].
  unfold init_rx. cbn [desc avail_ring]. rewrite !wr_ok, !bind_ret by (cbn; lia).
  eexists. split; [reflexivity|]. by split_and!.
Qed.

Lemma init_tx_ok q : queue_shape TX_QSZ q -> exists q', init_tx q = Ret q' /\
  queue_shape TX_QSZ q' /\ used_idx q' = 0 /\ avail_idx q' = 0.
Proof.
  destruct q as [ds af ai r uf ui ur b]. intros (R1 & R2 & R3 & R4 & R5). cbn in * |-.
  destruct ds as [|d0 ds]; [cbn in R1; lia|].
  unfold init_tx. cbn [desc]. rewrite !wr_ok, !bind_ret by (cbn; lia).
  eexists. split; [reflexivity|]. by split_and!.
Qed.

Lemma start_queues_ready off bases skew p w w' p' n :
  queue_shape RX_QSZ (RXQ p) -> queue_shape TX_QSZ (TXQ p) ->
  start_queues bases skew p w = (w', Ret (p', Some n)) -> ready off n p'.
Proof.
  intros Hr Ht. destruct bases as [[[cb nb] mul] cfg]. unfold start_queues.
  destruct (queue_length cb 0 RX_QSZ w) as [w1 [rx|]] eqn:E1; [|done].
  apply queue_length_range in E1; [|unfold RX_QSZ; lia].
  destruct (init_rx_ok skew _ Hr) as (rq & -> & Hrs & Hru & Hra & Hrr & Hrd). cbv zeta.
  destruct (queue_length cb 1 TX_QSZ _) as [w2 [tx|]] eqn:E2; [|done].
  apply queue_length_range in E2; [|unfold TX_QSZ; lia].
  change (TXQ (p <| RXQ := rq |>)) with (TXQ p).
  destruct (init_tx_ok _ Ht) as (tq & -> & Hts & Htu & Hta).
  match goal with |- context [read_mac cfg ?l ?w0] =>
    pose proof (length_read_mac cfg l w0) as Hm; destruct (read_mac cfg l w0) as [w3 m] end.
  intros [= _ <- <-]. cbn in Hm. unfold ready, rx_inv, tx_inv, tx_shape, held. cbn.
  rewrite Hru, Htu. split_and!; try done; try lia; [|left; split_and!; try done].
  - unfold RX_QSZ, TX_QSZ in *. split_and!; try done; cbn; unfold RX_QSZ, TX_QSZ; lia.
  - split; [split; [done|by rewrite Z.land_0_l]|by exists 0].
Qed.

Lemma probe_ready off mmio_off p w w' p' n :
  queue_shape RX_QSZ (RXQ p) -> queue_shape TX_QSZ (TXQ p) ->
  probe mmio_off p w = (w', Ret (p', Some n)) -> ready off n p'.
Proof.
  intros Hr Ht. unfold probe. destruct (pick_function _ _ w) as [w1 [f|]]; [|done]. cbv zeta.
  destruct (read_bars _ _ _ _) as [w2 bars]. destruct (read_u8 _ _ _) as [w3 cap].
  destruct (walk_caps _ _ _) as [c w4]. destruct (find_bases bars c) as [[bases|]|]; [|done..].
  destruct (negotiate _ _) as [w5 [|]]; [|done]. by apply start_queues_ready.
Qed.
End start.

(** ** A device in memory

    It delivers the next frame as soon as a buffer is posted, with the header
    of the specification, and takes a packet as soon as it is posted. *)

Definition mem_net_place : NetPlace := {|
  at_common := 0x1000; at_notify := 0x3000; at_mul := 4; at_off := fun _ => 0; at_rx_mask := 255;
  at_tx_mask := 7; at_rx := 0x100000 + rx_off_buf; at_tx := 0x200000 + tx_off_buf |}.

Definition plain_header : bytes := [0; 0; 0; 0; 0; 0; 0; 0; 0; 0; 1; 0].

Record NetBox := { nb_wire : Wire; nb_pci : PciMem }.

#[export] Instance NetBox_mmio : Mmio NetBox := {|
  mmio_ports := {|
    inb := fun _ w => (w, 0); outb := fun _ _ w => w; inw := fun _ w => (w, 0); outw := fun _ _ w => w;
    in32 := fun p w => (w, (in32 p w.(nb_pci)).2);
    out32 := fun p v w => {| nb_wire := w.(nb_wire); nb_pci := out32 p v w.(nb_pci) |} |};
  mm_r8 := fun _ w => (w, 0x0F);
  mm_r16 := fun a w => (w, if decide (a = 0x1018) then 256 else 0);
  mm_r32 := fun a w => (w, 1);
  mm_w8 := fun _ _ w => w; mm_w16 := fun _ _ w => w; mm_w32 := fun _ _ w => w; mm_w64 := fun _ _ w => w |}.

(** The box looks at its queues as the specification allows. *)
Definition rx_postedb (done : Z) (q : VirtQ) : bool :=
  bool_decide (avail_idx q = wrap16 (done + 1) /\ avail_ring q !! Z.to_nat (Z.land done 255) = Some 0) &&
  match desc q !! 0%nat with
  | Some dsc => bool_decide (d_addr dsc = at_rx mem_net_place /\ d_len dsc = 4096 /\ d_flags dsc = 2)
  | None => false
  end.

Definition tx_packet (done : Z) (q : VirtQ) : option bytes :=
  dsc ← desc q !! 0%nat;
  if decide (avail_idx q = wrap16 (done + 1) /\ avail_ring q !! Z.to_nat (Z.land done 7) = Some 0 /\
    d_addr dsc = at_tx mem_net_place /\ d_flags dsc = 0 /\ d_next dsc = 0 /\
    0 <= d_len dsc <= Z.of_nat (length (buf q)))
  then Some (take (Z.to_nat (d_len dsc)) (buf q)) else None.

Definition box_rx (x : Wire) (q : VirtQ) : Wire * VirtQ :=
  match incoming x with
  | f :: fs =>
      if rx_postedb (rx_done x) q && bool_decide (length f <= 4084)%nat then
        ({| incoming := fs; sent := sent x; rx_done := wrap16 (rx_done x + 1); tx_done := tx_done x |},
         use 255 (12 + length f) (q <| buf := list_inserts 0 (plain_header ++ f) (buf q) |>))
      else (x, q)
  | [] => (x, q)
  end.

Definition box_tx (x : Wire) (q : VirtQ) : Wire * VirtQ :=
  match tx_packet (tx_done x) q with
  | Some pkt =>
      ({| incoming := incoming x; sent := sent x ++ [drop 12 pkt]; rx_done := rx_done x;
          tx_done := wrap16 (tx_done x + 1) |}, use 7 0 q)
  | None => (x, q)
  end.

Definition box_spin (w : NetBox) (p : NetPages) : NetBox * NetPages :=
  let '(x, rq) := box_rx w.(nb_wire) (RXQ p) in
  let '(x, tq) := box_tx x (TXQ p) in
  ({| nb_wire := x; nb_pci := w.(nb_pci) |}, {| RXQ := rq; TXQ := tq |}).

#[export] Instance NetBox_machine : NetMachine NetBox := {|
  RXQ_at := 0x100000; TXQ_at := 0x200000; net_spin := box_spin |}.

Lemma rx_postedb_posted done q : rx_postedb done q = true -> rx_posted mem_net_place done q.
Proof.
  unfold rx_postedb. intros [[Ha Hr]%bool_decide_eq_true Hd]%andb_prop. split; [done|].
  destruct (desc q !! 0%nat) as [[a l f nx]|]; [|done]. apply bool_decide_eq_true in Hd as (E1 & E2 & E3).
  cbn in *. subst. by exists nx.
Qed.

Lemma tx_packet_posted done q pkt : tx_packet done q = Some pkt -> tx_posted mem_net_place pkt done q.
Proof.
  unfold tx_packet. destruct (desc q !! 0%nat) as [[a l f nx]|] eqn:Ed; [|done]. cbn. case_decide as Hc; [|done].
  destruct Hc as (E1 & E2 & -> & -> & -> & Hl). intros [= <-]. split; [done|].
  rewrite length_take_le, Ed by lia. split; [done|]. do 2 f_equal. lia.
Qed.

Lemma posted_tx_packet done q pkt : tx_posted mem_net_place pkt done q -> tx_packet done q = Some pkt.
Proof.
  intros ([Ea Er] & Et & Ed). unfold tx_packet. rewrite Ed. cbn. rewrite decide_True, Nat2Z.id, Et; [done|].
  split_and!; try done; [lia|]. rewrite <-Et at 1. rewrite length_take. lia.
Qed.

Lemma box_rx_step x q x' q' : box_rx x q = (x', q') ->
  rx_step mem_net_place (incoming x, rx_done x, q) (incoming x', rx_done x', q') /\
  sent x' = sent x /\ tx_done x' = tx_done x.
Proof.
  unfold box_rx. destruct (incoming x) as [|f fs] eqn:Ei; [intros [= <- <-]; rewrite Ei; by split; [constructor|]|].
  destruct (rx_postedb _ _ && _) eqn:Eb; intros [= <- <-]; [|rewrite Ei; by split; [constructor|]].
  apply andb_prop in Eb as [Hp%rx_postedb_posted Hl%bool_decide_eq_true]. split; [|done].
  apply (rx_deliver mem_net_place f fs _ q plain_header); [done|done|unfold RX_BUFFER_BYTES; lia].
Qed.

Lemma box_tx_step x q x' q' : box_tx x q = (x', q') ->
  tx_step mem_net_place (sent x, tx_done x, q) (sent x', tx_done x', q') /\
  incoming x' = incoming x /\ rx_done x' = rx_done x.
Proof.
  unfold box_tx. destruct (tx_packet (tx_done x) q) as [pkt|] eqn:Et; intros [= <- <-]; [|by split; [constructor|]].
  split; [|done]. apply (tx_take mem_net_place). by apply tx_packet_posted.
Qed.

#[export, refine] Instance NetBox_device : VirtioNetDevice NetBox mem_net_place := {| wire := nb_wire |}.
Proof.
  - intros w q Hq. cbn. split; [|done]. by rewrite decide_False.
  - done.
  - intros w p _. cbn [net_spin NetBox_machine]. unfold box_spin.
    destruct (box_rx _ _) as [x rq] eqn:Er, (box_tx _ _) as [x' tq] eqn:Et.
    destruct (box_rx_step _ _ _ _ Er) as (Hr & Es & Ed), (box_tx_step _ _ _ _ Et) as (Ht & Ei & Ed').
    cbn [nb_wire RXQ TXQ]. rewrite Ei, Ed', <-Es, <-Ed. by split.
  - intros w p pkt _ Hpost. exists 0%nat. split; [lia|]. cbn [spins net_spin NetBox_machine fst snd].
    change (mm_w16 (notify_addr mem_net_place 1) 0 w) with w. unfold box_spin.
    destruct (box_rx _ _) as [x rq] eqn:Er. destruct (box_rx_step _ _ _ _ Er) as (_ & _ & Ed).
    unfold box_tx. rewrite Ed, (posted_tx_packet _ _ _ Hpost). cbn. unfold wrap.
    intros E. pose proof (Z.mod_pos_bound (used_idx (TXQ p) + 1) (2 ^ 16) ltac:(lia)) as Hb. rewrite E in Hb.
    destruct (wrap16_next _ Hb) as [Hne _]. by apply Hne.
Defined.

(** A network function with its three structures behind one BAR. *)
Definition net_function : PciMem := {| pm_latch := 0; pm_regs := map (fun r => (cfg_addr (0, 3, 0) r.1, r.2))
  [(0x00, 0x10411AF4); (0x04, 0); (0x08, 0x02000001); (0x10, 0x1000); (0x34, 0x40);
   (0x40, 0x01105009); (0x44, 0); (0x48, 0);
   (0x50, 0x02147009); (0x54, 0); (0x58, 0x2000); (0x60, 4);
   (0x70, 0x04100009); (0x74, 0); (0x78, 0x1000)] |}.

Definition cold_box (frames : list bytes) : NetBox := {|
  nb_wire := {| incoming := frames; sent := []; rx_done := 0; tx_done := 0 |}; nb_pci := net_function |}.

Definition started (frames : list bytes) : NetBox * VirtioNet * NetPages :=
  match probe None NetPages_zero (cold_box frames) with
  | (w, Ret (p, Some n)) => (w, n, p)
  | (w, _) => (w, {| common := 0; notify := 0; notify_mul := 0; device_cfg := 0; phys_skew := None;
      rx_mask := 0; tx_mask := 0; mac := []; rx_packets := 0; rx_last_used := 0; tx_last_used := 0;
      tx_inflight := true |}, NetPages_zero)
  end.

(** The second one is to an address that begins 08:00. *)
Definition two_frames : list bytes := [[2; 0; 0; 65]; [8; 0; 0; 66; 67]].
Definition box_n : VirtioNet := (started two_frames).1.2.
Definition box_w : NetBox := (started two_frames).1.1.
Definition box_p : NetPages := (started two_frames).2.

Lemma box_probe : probe None NetPages_zero (cold_box two_frames) = (box_w, Ret (box_p, Some box_n)).
Proof. vm_compute. reflexivity. Qed.

Lemma zero_queue_shape qsz : (0 < qsz)%nat -> queue_shape qsz (zero_queue qsz 4096).
Proof.
  intros Hq. unfold queue_shape, zero_queue, is_u16. cbn. rewrite !length_replicate. split_and!; try done. 
Qed.

Lemma box_inv : net_inv box_n box_w box_p /\ tx_inflight box_n = false.
Proof.
  destruct (probe_ready (fun _ => 0) None NetPages_zero (cold_box two_frames) box_w box_p box_n)
    as (Hp & Hr & Ht & _ & Hfl & _); [by apply zero_queue_shape; unfold RX_QSZ; lia|by apply zero_queue_shape; unfold TX_QSZ; lia|apply box_probe|].
  assert (place_of box_n (fun _ => 0) = mem_net_place) as E by (vm_compute; reflexivity).
  rewrite E in Hp, Hr. assert (wire box_w = wire (cold_box two_frames)) as Ew by (vm_compute; reflexivity).
  split; [|done]. unfold net_inv. rewrite Ew. by split_and!.
Qed.

(** ** Properties *)

Definition op_fits (op : NetOp) : Prop :=
  match op with
  | Poll room => (RX_BUFFER_BYTES <= length room)%nat
  | Send pkt => (0 < length pkt <= TX_BUFFER_BYTES)%nat
  end.


(** C9: Over a device that follows the VirtIO protocol and takes a packet within
    the 500,000 polls the driver waits, however polls and transmissions
    interleave with it: every call returns, each frame of the network (not
    empty, and of at most 4084 bytes, so that it fits the buffer) is received
    once and in order, and each packet is put on the wire once, in order,
    without its header; what was not polled is still to come.  A frame is
    received whole; one whose destination address begins 08:00 or 08:06 is
    received with the VirtIO header in front ([ambiguous_frame_garbled]). *)
Theorem virtio_net_streams {W} `{VirtioNetDevice W d} ops n (w : W) p :
  net_inv n w p -> tx_inflight n = false -> Forall fitting_frame (backlog n w p) -> Forall op_fits ops ->
  exists n' w' p' fs gs, run_ops poll_rx_packet transmit ops n w p = (w', Ret (n', p', gs, packets ops)) /\
    net_inv n' w' p' /\ Forall2 received fs gs /\ fs ++ backlog n' w' p' = backlog n w p /\
    sent (wire w') = sent (wire w) ++ map (drop 12) (packets ops).
Proof.
  intros Hi Hfl Hf Hops. destruct (NicDriver.run_ops_ok _ _ virtio_queues ops n w p (conj Hi Hfl) Hf Hops)
    as (n' & w' & p' & fs & gs & ps & E & [Hi' _] & Hg & Ei & Eo & _ & Hps). specialize (Hps eq_refl) as ->.
  exists n', w', p', fs, gs. by split_and!.
Qed.

(** C39: Whatever the device and the bus answer, if start-up succeeds the driver
    is ready: its queues have between 2 and 256 (and 8) entries, the receive
    buffer is posted with a whole descriptor, nothing is in flight and no frame
    is held. *)
Theorem virtio_net_probe_ready {W} `{NetMachine W} off mmio_off p (w w' : W) p' n :
  queue_shape RX_QSZ (RXQ p) -> queue_shape TX_QSZ (TXQ p) ->
  probe mmio_off p w = (w', Ret (p', Some n)) -> ready off n p'.
Proof. apply probe_ready. Qed.

Lemma virtio_net_probe_ready_witness : ready (fun _ => 0) box_n box_p /\ rx_mask box_n = 255.
Proof.
  split; [|vm_compute; reflexivity].
  apply (virtio_net_probe_ready (fun _ => 0) None NetPages_zero (cold_box two_frames) box_w).
  - apply zero_queue_shape. unfold RX_QSZ. lia.
  - apply zero_queue_shape. unfold TX_QSZ. lia.
  - exact box_probe.
Defined.

Definition some_ops : list NetOp :=
  [Poll (replicate 4096 0); Send (plain_header ++ [70; 71]); Poll (replicate 4096 0); Poll (replicate 4096 0)].

Lemma virtio_net_streams_witness :
  exists n' w' p' fs gs ps, run_ops poll_rx_packet transmit some_ops box_n box_w box_p = (w', Ret (n', p', gs, ps)) /\
    Forall2 received fs gs /\ fs ++ backlog n' w' p' = two_frames /\ sent (wire w') = [[70; 71]].
Proof.
  destruct (virtio_net_streams some_ops box_n box_w box_p) as (n' & w' & p' & fs & gs & E & _ & Hg & Hb & Hs).
  - exact (proj1 box_inv).
  - exact (proj2 box_inv).
  - apply (bool_decide_unpack _). vm_compute. exact I.
  - repeat constructor; apply Nat.leb_le; vm_compute; reflexivity.
  - exists n', w', p', fs, gs, (packets some_ops). split; [exact E|]. split; [exact Hg|].
    split; [rewrite Hb|rewrite Hs]; vm_compute; reflexivity.
Defined.

(** The guess at the length of the VirtIO header fails on a frame whose
    destination address begins like an EtherType (08:00, as in VirtualBox's
    08:00:27): the driver returns the header as the first twelve bytes of the frame. *)
Example ambiguous_frame_garbled :
  let '(w, n, p) := started [[8; 0; 0x27; 1; 2; 3]] in
  match poll_rx_packet n (replicate 4096 0) w p with
  | (_, Ret (_, _, Some len, out)) => take len out = plain_header ++ [8; 0; 0x27; 1; 2; 3]
  | _ => False
  end.
Proof. vm_compute. reflexivity. Qed.
