(* ===== verification/VirtioMmioNet.v ===== *)
(** * The VirtIO network driver of the ARM target ([kernel/src/virtio_mmio_net.rs])

    The protocol of [VirtioNet.v] over the memory-mapped transport: a scan of the
    slots of the emulated board, 32-bit registers at fixed offsets, and an
    acknowledgement of the interrupts at the start of each call.  The queues and
    their pages are declared a second time in this file of the source; the model
    uses those of [VirtioNet.v].  [VirtioMmioNetOk.v] has the theorems. *)

From S2P Require Import Prelude Ports Pci VirtioBlk VirtioNet.

Definition MM_MAGIC : Z := 0x000.
Definition MM_VERSION : Z := 0x004.
Definition MM_DEVICE_ID : Z := 0x008.
Definition MM_VENDOR_ID : Z := 0x00c.
Definition MM_DEVICE_FEATURES : Z := 0x010.
Definition MM_DEVICE_FEATURES_SEL : Z := 0x014.
Definition MM_DRIVER_FEATURES : Z := 0x020.
Definition MM_DRIVER_FEATURES_SEL : Z := 0x024.
Definition MM_QUEUE_SEL : Z := 0x030.
Definition MM_QUEUE_NUM_MAX : Z := 0x034.
Definition MM_QUEUE_NUM : Z := 0x038.
Definition MM_QUEUE_READY : Z := 0x044.
Definition MM_QUEUE_NOTIFY : Z := 0x050.
Definition MM_INTERRUPT_STATUS : Z := 0x060.
Definition MM_INTERRUPT_ACK : Z := 0x064.
Definition MM_STATUS : Z := 0x070.
Definition MM_QUEUE_DESC_LOW : Z := 0x080.
Definition MM_QUEUE_DESC_HIGH : Z := 0x084.
Definition MM_QUEUE_DRIVER_LOW : Z := 0x090.
Definition MM_QUEUE_DRIVER_HIGH : Z := 0x094.
Definition MM_QUEUE_DEVICE_LOW : Z := 0x0a0.
Definition MM_QUEUE_DEVICE_HIGH : Z := 0x0a4.
Definition MM_CONFIG0 : Z := 0x100.
Definition VIRTIO_VENDOR_PCI : Z := 0x1af4.
Definition VIRTIO_VENDOR_QEMU_MMIO : Z := 0x554d4551.
Definition MAGIC : Z := 0x74726976.

Definition mmio_vendor_ok (v : Z) : bool :=
  bool_decide (v = VIRTIO_VENDOR_PCI \/ v = VIRTIO_VENDOR_QEMU_MMIO).

Record VirtioMmioNet := {
  base : Z;
  rx_mask : Z;
  tx_mask : Z;
  mac : bytes;
  rx_packets : Z;
  rx_last_used : Z;
  tx_last_used : Z;
  tx_inflight : bool;
}.
#[export] Instance VirtioMmioNet_eta : Settable VirtioMmioNet := fun n =>
  Build_VirtioMmioNet n.(base) n.(rx_mask) n.(tx_mask) n.(mac) n.(rx_packets) n.(rx_last_used)
    n.(tx_last_used) n.(tx_inflight).

Section driver.
Context {W : Type} `{NetMachine W}.

Definition status_write (b v : Z) (w : W) : W := mm_w32 (b + MM_STATUS) v w.
Definition status_read (b : Z) (w : W) : W * Z := mm_r32 (b + MM_STATUS) w.
Definition notify_queue (b q : Z) (w : W) : W := mm_w32 (b + MM_QUEUE_NOTIFY) q w.
Definition ack_interrupts (b : Z) (w : W) : W :=
  let '(w, st) := mm_r32 (b + MM_INTERRUPT_STATUS) w in mm_w32 (b + MM_INTERRUPT_ACK) st w.

(** ** Start-up *)

Definition negotiate (b : Z) (w : W) : W * bool :=
  let w := mm_w32 (b + MM_STATUS) 0 (ack_interrupts b w) in
  let w := status_write b STATUS_ACK w in
  let w := status_write b (Z.lor STATUS_ACK STATUS_DRIVER) w in
  let w := mm_w32 (b + MM_DEVICE_FEATURES_SEL) 1 w in
  let '(w, dev_f1) := mm_r32 (b + MM_DEVICE_FEATURES) w in
  let w := mm_w32 (b + MM_DRIVER_FEATURES_SEL) 1 w in
  let w := mm_w32 (b + MM_DRIVER_FEATURES) (Z.land dev_f1 1) w in
  let w := mm_w32 (b + MM_DEVICE_FEATURES_SEL) 0 w in
  let '(w, dev_f0) := mm_r32 (b + MM_DEVICE_FEATURES) w in
  let w := mm_w32 (b + MM_DRIVER_FEATURES_SEL) 0 w in
  let w := mm_w32 (b + MM_DRIVER_FEATURES) (Z.land dev_f0 (Z.shiftl 1 5)) w in
  let w := status_write b (Z.lor (Z.lor STATUS_ACK STATUS_DRIVER) STATUS_FEATURES_OK) w in
  let '(w, st) := status_read b w in
  (w, bool_decide (Z.land st STATUS_FEATURES_OK <> 0)).

(** The length of a queue: the device's, if it is usable, and at most ours. *)
Definition queue_length (b q : Z) (ours : nat) (w : W) : W * option Z :=
  let w := mm_w32 (b + MM_QUEUE_SEL) q w in
  let '(w, qmax) := mm_r32 (b + MM_QUEUE_NUM_MAX) w in
  (w, if decide (qmax < 2 \/ is_power_of_two qmax = false) then None
      else Some (Z.min (Z.of_nat ours) qmax)).

(** The registers of the selected queue. *)
Definition program_queue (b len p_desc p_avail p_used : Z) (w : W) : W :=
  let w := mm_w32 (b + MM_QUEUE_NUM) len w in
  let w := mm_w32 (b + MM_QUEUE_DESC_LOW) (wrap32 p_desc) w in
  let w := mm_w32 (b + MM_QUEUE_DESC_HIGH) (wrap32 (Z.shiftr p_desc 32)) w in
  let w := mm_w32 (b + MM_QUEUE_DRIVER_LOW) (wrap32 p_avail) w in
  let w := mm_w32 (b + MM_QUEUE_DRIVER_HIGH) (wrap32 (Z.shiftr p_avail 32)) w in
  let w := mm_w32 (b + MM_QUEUE_DEVICE_LOW) (wrap32 p_used) w in
  let w := mm_w32 (b + MM_QUEUE_DEVICE_HIGH) (wrap32 (Z.shiftr p_used 32)) w in
  mm_w32 (b + MM_QUEUE_READY) 1 w.

Definition init_at (b : Z) (p : NetPages) (w : W) : W * rust (NetPages * option VirtioMmioNet) :=
  let '(w, ok) := negotiate b w in
  if ok : bool then
    let '(w, rx_use) := queue_length b 0 RX_QSZ w in
    match rx_use, init_rx None (RXQ p) with
    | None, _ => (w, Ret (p, None))
    | Some _, Panic => (w, Panic)
    | Some rx_use, Ret rxq =>
        let p := p <| RXQ := rxq |> in
        let w := mm_w32 (b + MM_QUEUE_SEL) 0 w in
        let w := program_queue b rx_use RXQ_at (RXQ_at + rx_off_avail) (RXQ_at + rx_off_used) w in
        let '(w, tx_use) := queue_length b 1 TX_QSZ w in
        match tx_use, init_tx (TXQ p) with
        | None, _ => (w, Ret (p, None))
        | Some _, Panic => (w, Panic)
        | Some tx_use, Ret txq =>
            let p := p <| TXQ := txq |> in
            let w := program_queue b tx_use TXQ_at (TXQ_at + tx_off_avail) (TXQ_at + tx_off_used) w in
            let w := status_write b
              (Z.lor (Z.lor (Z.lor STATUS_ACK STATUS_DRIVER) STATUS_FEATURES_OK) STATUS_DRIVER_OK) w in
            let '(w, m) := read_mac (b + MM_CONFIG0) (seqZ 0 6) (notify_queue b 0 w) in
            (w, Ret (p, Some {|
              base := b; rx_mask := rx_use - 1; tx_mask := tx_use - 1; mac := m; rx_packets := 0;
              rx_last_used := 0; tx_last_used := 0; tx_inflight := false |}))
        end
    end
  else (w, Ret (p, None)).

(** Whether there is a network device in a slot; [&&] reads only as far as it must. *)
Definition slot_matches (b : Z) (w : W) : W * bool :=
  let '(w, ver) := mm_r32 (b + MM_VERSION) w in
  let '(w, magic) := mm_r32 (b + MM_MAGIC) w in
  if decide (magic = MAGIC /\ (ver = 1 \/ ver = 2)) then
    let '(w, id) := mm_r32 (b + MM_DEVICE_ID) w in
    if decide (id = 1) then
      let '(w, vendor) := mm_r32 (b + MM_VENDOR_ID) w in (w, mmio_vendor_ok vendor)
    else (w, false)
  else (w, false).

Fixpoint scan (slots : list Z) (p : NetPages) (w : W) : W * rust (NetPages * option VirtioMmioNet) :=
  match slots with
  | [] => (w, Ret (p, None))
  | b :: slots =>
      let '(w, found) := slot_matches b w in
      if found : bool then init_at b p w else scan slots p w
  end.

(** [SCAN0] to [SCAN1], by [STEP]. *)
Definition slots : list Z := map (fun i => 0x0a000000 + 0x200 * i) (seqZ 0 128).
Definition probe : NetPages -> W -> W * rust (NetPages * option VirtioMmioNet) := scan slots.

(** ** Reception *)

Definition requeue_rx_only (n : VirtioMmioNet) (w : W) (p : NetPages) : W * rust NetPages :=
  match
    d0 ← rd (desc (RXQ p)) 0;
    ds ← wr (desc (RXQ p)) 0 (rx_desc None (d_next d0));
    push_avail (rx_mask n) ((RXQ p) <| desc := ds |>)
  with
  | Panic => (w, Panic)
  | Ret q => (notify_queue (base n) 0 w, Ret (p <| RXQ := q |>))
  end.

Definition requeue (n : VirtioMmioNet) (r : option nat) (out : bytes) (w : W) (p : NetPages) :
    W * rust (VirtioMmioNet * NetPages * option nat * bytes) :=
  let '(w, q) := requeue_rx_only n w p in
  (w, p ← q; Ret (n, p, r, out)).

Definition poll_rx_packet (n : VirtioMmioNet) (out : bytes) (w : W) (p : NetPages) :
    W * rust (VirtioMmioNet * NetPages * option nat * bytes) :=
  let '(w, p) := net_spin (ack_interrupts (base n) w) p in
  let q := RXQ p in
  if decide (rx_last_used n = used_idx q) then (w, Ret (n, p, None, out))
  else
    match rd (used_ring q) (Z.to_nat (Z.land (rx_last_used n) (rx_mask n))) with
    | Panic => (w, Panic)
    | Ret (_, len) =>
        let total := Z.to_nat len in
        let n := n <| rx_last_used := wrap16 (rx_last_used n + 1) |>
                   <| rx_packets := wrap64 (rx_packets n + 1) |> in
        if decide (total = 0 \/ RX_BUFFER_BYTES < total)%nat then requeue n None out w p
        else
          match
            pkt ← sub (buf q) 0 total;
            let hdr := virtio_net_hdr_len pkt in
            let body := (total - hdr)%nat in
            if decide (body = 0 \/ length out < body)%nat then Ret (None, out)
            else
              src ← sub (buf q) hdr total;
              out ← copy_at out 0 src;
              Ret (Some body, out)
          with
          | Panic => (w, Panic)
          | Ret (r, out) => requeue n r out w p
          end
    end.

(** ** Transmission *)

Definition wait_tx (n : VirtioMmioNet) (w : W) (p : NetPages) : VirtioMmioNet * W * NetPages * bool :=
  match for_upto (tx_round (tx_last_used n)) 500000 (w, p) with
  | inr (w, p) => (n <| tx_last_used := used_idx (TXQ p) |> <| tx_inflight := false |>, w, p, true)
  | inl (w, p) => (n, w, p, false)
  end.

Definition fill_tx (n : VirtioMmioNet) (pkt : bytes) (q : VirtQ) : rust VirtQ :=
  b ← copy_at (buf q) 0 pkt;
  ds ← wr (desc q) 0 {| d_addr := TXQ_at + tx_off_buf; d_len := Z.of_nat (length pkt);
    d_flags := 0; d_next := 0 |};
  push_avail (tx_mask n) (q <| buf := b |> <| desc := ds |>).

Definition transmit (n : VirtioMmioNet) (pkt : bytes) (w : W) (p : NetPages) :
    W * rust (VirtioMmioNet * NetPages * bool) :=
  let w := ack_interrupts (base n) w in
  let '(n, w, p, _) := if tx_inflight n then wait_tx n w p else (n, w, p, false) in
  if decide (length pkt = 0 \/ TX_BUFFER_BYTES < length pkt)%nat then (w, Ret (n, p, false))
  else
    match fill_tx n pkt (TXQ p) with
    | Panic => (w, Panic)
    | Ret q =>
        let n := n <| tx_inflight := true |> in
        let '(n, w, p, ok) := wait_tx n (notify_queue (base n) 1 w) (p <| TXQ := q |>) in
        (w, Ret (n <| tx_inflight := false |>, p, ok))
    end.
End driver.
