(* ===== verification/VirtioMmioNetOk.v ===== *)
(** * What the VirtIO driver of the ARM target guarantees

    The driver of [VirtioMmioNet.v] does over its registers what the driver of
    [VirtioNet.v] does over those of the PCI transport: [transport] presents
    the memory-mapped registers as those of a PCI device, and a poll or a
    transmission of the one is, after the acknowledgement of the interrupts, a
    poll or a transmission of the other.  So the theorems of [VirtioNetOk.v]
    carry over. *)

From S2P Require Import Prelude Ports Pci VirtioBlk NicDriver VirtioNet VirtioNetOk VirtioMmioNet.

(** ** The transport as a PCI device *)

(** The driver's record as that of the PCI driver: the common structure at the
    base, and queue [q] notified at address [q]. *)
Definition as_pci (n : VirtioMmioNet) : VirtioNet := {|
  common := base n; notify := 0; notify_mul := 1; device_cfg := base n + MM_CONFIG0; phys_skew := None;
  VirtioNet.rx_mask := rx_mask n; VirtioNet.tx_mask := tx_mask n; VirtioNet.mac := mac n;
  VirtioNet.rx_packets := rx_packets n; VirtioNet.rx_last_used := rx_last_used n;
  VirtioNet.tx_last_used := tx_last_used n; VirtioNet.tx_inflight := tx_inflight n |}.

Definition mmio_place {W} `{NetMachine W} (b rxm txm : Z) : NetPlace := {|
  at_common := b; at_notify := 0; at_mul := 1; at_off := fun q => q; at_rx_mask := rxm; at_tx_mask := txm;
  at_rx := RXQ_at + rx_off_buf; at_tx := TXQ_at + tx_off_buf |}.

Section transport.
Context {W : Type} `{NetMachine W} (b : Z).

(** The registers the PCI driver uses after its start-up, beside the machine the
    number of the selected queue; a notification ends the selection. *)
Definition transport_mmio : Mmio (W * Z) := {|
  mmio_ports := {|
    inb := fun _ w => (w, 0); outb := fun _ _ w => w; inw := fun _ w => (w, 0); outw := fun _ _ w => w;
    in32 := fun _ w => (w, 0); out32 := fun _ _ w => w |};
  mm_r8 := fun _ w => (w, 0); mm_r16 := fun _ w => (w, w.2); mm_r32 := fun _ w => (w, 0);
  mm_w8 := fun _ _ w => w; mm_w32 := fun _ _ w => w; mm_w64 := fun _ _ w => w;
  mm_w16 := fun a v w =>
    if decide (a = 0 \/ a = 1) then (VirtioMmioNet.notify_queue b a w.1, 0) else (w.1, v) |}.

Definition transport : NetMachine (W * Z) := {|
  net_mmio := transport_mmio; RXQ_at := RXQ_at; TXQ_at := TXQ_at;
  net_spin := fun w p => let '(w1, p) := net_spin w.1 p in ((w1, w.2), p) |}.
End transport.

(** Results of the one driver as results of the other. *)
Definition on_poll {W} (r : W * rust (VirtioMmioNet * NetPages * option nat * bytes)) :
    (W * Z) * rust (VirtioNet * NetPages * option nat * bytes) :=
  ((r.1, 0), '(n, p, l, out) ← r.2; Ret (as_pci n, p, l, out)).

Definition on_transmit {W} (r : W * rust (VirtioMmioNet * NetPages * bool)) :
    (W * Z) * rust (VirtioNet * NetPages * bool) :=
  ((r.1, 0), '(n, p, ok) ← r.2; Ret (as_pci n, p, ok)).

(** ** The device *)

Class MmioNetDevice (W : Type) `{NetMachine W} (d : NetPlace) := {
  mm_wire : W -> Wire;
  (** acknowledging interrupts and notifying change nothing outside *)
  mm_acked w : mm_wire (ack_interrupts (at_common d) w) = mm_wire w;
  mm_notified w q : q = 0 \/ q = 1 -> mm_wire (VirtioMmioNet.notify_queue (at_common d) q w) = mm_wire w;
  (** the device follows the protocol at each of its steps *)
  mm_steps w p : queues_ok d (mm_wire w) p ->
    let '(w', p') := net_spin w p in
    rx_step d (incoming (mm_wire w), rx_done (mm_wire w), RXQ p)
      (incoming (mm_wire w'), rx_done (mm_wire w'), RXQ p') /\
    tx_step d (sent (mm_wire w), tx_done (mm_wire w), TXQ p) (sent (mm_wire w'), tx_done (mm_wire w'), TXQ p');
  (** a packet is taken within the driver's patience after a notification *)
  mm_serves w p pkt : queues_ok d (mm_wire w) p -> tx_posted d pkt (tx_done (mm_wire w)) (TXQ p) ->
    exists k, (k < Pos.to_nat 500000)%nat /\
      used_idx (TXQ (spins (S k) (VirtioMmioNet.notify_queue (at_common d) 1 w, p)).2) <> used_idx (TXQ p);
}.

(** The frames the network has for the driver. *)
Definition mmio_backlog {W} `{MmioNetDevice W d} (n : VirtioMmioNet) (w : W) (p : NetPages) : list bytes :=
  held (as_pci n) (RXQ p) ++ incoming (mm_wire w).

(** ** The same calls *)

Section same.
Context {W : Type} `{NetMachine W} (b : Z) (Hb : 0 <= b).
Implicit Types (w : W) (n : VirtioMmioNet).
#[local] Instance over : NetMachine (W * Z) := transport b.

Lemma notify_same n q w : base n = b -> q = 0 \/ q = 1 ->
  VirtioNet.notify_queue (as_pci n) q (w, 0) = (VirtioMmioNet.notify_queue b q w, 0).
Proof.
  intros E Hq. unfold VirtioNet.notify_queue. cbn. rewrite E.
  rewrite (decide_False (P := b + 22 = 0 \/ b + 22 = 1)) by lia. destruct Hq; subst q; reflexivity.
Qed.

Lemma requeue_same n r out w p : base n = b ->
  VirtioNet.requeue (as_pci n) r out (w, 0) p = on_poll (requeue n r out w p).
Proof.
  intros E. unfold VirtioNet.requeue, requeue, VirtioNet.requeue_rx_only, requeue_rx_only, rx_desc.
  cbn [phys_skew as_pci VirtioNet.rx_mask].
  change (@RXQ_at (W * Z) over) with (@RXQ_at W _).
  destruct (d0 ← rd _ _; _) as [q|] eqn:Eq; [|done].
  rewrite notify_same by auto. by rewrite E.
Qed.

(** A poll is the PCI driver's poll, after the acknowledgement. *)
Lemma poll_same n out w p : base n = b ->
  VirtioNet.poll_rx_packet (as_pci n) out (ack_interrupts b w, 0) p = on_poll (poll_rx_packet n out w p).
Proof.
  intros E. unfold VirtioNet.poll_rx_packet, poll_rx_packet. rewrite E.
  cbn [net_spin transport over fst snd]. destruct (net_spin (ack_interrupts b w) p) as [w1 p1].
  cbn [as_pci VirtioNet.rx_last_used VirtioNet.rx_mask]. case_decide; [done|].
  destruct (rd _ _) as [[id len]|]; [|done]. cbv zeta.
  set (n1 := n <| rx_last_used := _ |> <| rx_packets := _ |>).
  change ((as_pci n) <| VirtioNet.rx_last_used := _ |> <| VirtioNet.rx_packets := _ |>) with (as_pci n1).
  case_decide; [by apply requeue_same|].
  destruct (pkt ← sub _ _ _; _) as [[r out1]|]; [by apply requeue_same|done].
Qed.

Lemma tx_round_same lu w p :
  tx_round lu ((w, 0), p) = sum_map (fun st => ((st.1, 0), st.2)) (fun st => ((st.1, 0), st.2)) (tx_round lu (w, p)).
Proof. unfold tx_round. cbn. destruct (net_spin w p) as [w1 p1]. by case_decide. Qed.

Lemma wait_tx_same n w p :
  VirtioNet.wait_tx (as_pci n) (w, 0) p =
  let '(n, w, p, ok) := wait_tx n w p in (as_pci n, (w, 0), p, ok).
Proof.
  unfold VirtioNet.wait_tx, wait_tx. cbn [as_pci VirtioNet.tx_last_used].
  rewrite (for_upto_map (fun st : W * NetPages => ((st.1, 0), st.2)) (fun st : W * NetPages => ((st.1, 0), st.2))
    (tx_round (tx_last_used n)) (tx_round (tx_last_used n)) 500000 (w, p)) by (intros [w0 p0]; apply tx_round_same).
  by destruct (for_upto _ _ _) as [[w1 p1]|[w1 p1]].
Qed.

Lemma wait_tx_base n w p : base (wait_tx n w p).1.1.1 = base n.
Proof. unfold wait_tx. by destruct (for_upto _ _ _) as [[w1 p1]|[w1 p1]]. Qed.

(** A transmission is the PCI driver's, after the acknowledgement. *)
Lemma transmit_same n pkt w p : base n = b ->
  VirtioNet.transmit (as_pci n) pkt (ack_interrupts b w, 0) p = on_transmit (transmit n pkt w p).
Proof.
  intros E. unfold VirtioNet.transmit, transmit. rewrite E. cbn [as_pci VirtioNet.tx_inflight].
  set (w0 := ack_interrupts b w).
  assert ((if tx_inflight n then VirtioNet.wait_tx (as_pci n) (w0, 0) p else (as_pci n, (w0, 0), p, false)) =
    let '(n, w, p, ok) := if tx_inflight n then wait_tx n w0 p else (n, w0, p, false) in
    (as_pci n, (w, 0), p, ok)) as -> by (destruct (tx_inflight n); [apply wait_tx_same|done]).
  assert (base (if tx_inflight n then wait_tx n w0 p else (n, w0, p, false)).1.1.1 = b) as E1
    by (destruct (tx_inflight n); [by rewrite wait_tx_base|done]).
  destruct (if tx_inflight n then _ else _) as [[[n1 w1] p1] ok1]. cbn in E1.
  case_decide; [done|].
  change (VirtioNet.fill_tx (as_pci n1) pkt (TXQ p1)) with (fill_tx n1 pkt (TXQ p1)).
  destruct (fill_tx _ _ _) as [q|]; [|done]. cbv zeta.
  set (n2 := n1 <| tx_inflight := true |>).
  change ((as_pci n1) <| VirtioNet.tx_inflight := true |>) with (as_pci n2).
  rewrite notify_same, wait_tx_same by auto.
  change (base n2) with (base n1). rewrite E1. by destruct (wait_tx _ _ _) as [[[n3 w3] p3] ok3].
Qed.
(** ** Two queues *)

Context (rxm txm : Z) `{!MmioNetDevice W (mmio_place b rxm txm)}.

Lemma spins_same k w (z : Z) p : (spins k ((w, z), p)).2 = (spins k (w, p)).2.
Proof. revert w p. induction k as [|k IH]; intros w p; [done|]. cbn. destruct (net_spin w p). apply IH. Qed.

#[local] Instance transport_device : VirtioNetDevice (W * Z) (mmio_place b rxm txm).
Proof.
  refine {| wire := fun st : W * Z => mm_wire st.1 |}.
  - intros [w z] q _. cbn. by rewrite decide_False by lia.
  - intros [w z] q [->| ->]; [exact (mm_notified w 0 (or_introl eq_refl))|exact (mm_notified w 1 (or_intror eq_refl))].
  - intros [w z] p Hp. pose proof (mm_steps w p Hp) as Hs. cbn in *. by destruct (net_spin w p).
  - intros [w z] p pkt Hp Hpost. destruct (mm_serves w p pkt Hp Hpost) as (k & Hk & Hne).
    exists k. split; [done|]. change (mm_w16 (notify_addr (mmio_place b rxm txm) 1) 0 (w, z))
      with (VirtioMmioNet.notify_queue b 1 w, 0). by rewrite spins_same.
Defined.

(** Between two calls: what the PCI driver keeps, at the base. *)
Definition mmio_inv n w (p : NetPages) : Prop :=
  (placed (mmio_place b rxm txm) (as_pci n) /\ rx_inv (d := mmio_place b rxm txm) (as_pci n) (rx_done (mm_wire w)) (RXQ p) /\
   tx_inv (as_pci n) (tx_done (mm_wire w)) (TXQ p)) /\ tx_inflight n = false.

Lemma mmio_inv_base n w p : mmio_inv n w p -> base n = b.
Proof. by intros [[[E _] _] _]. Qed.

Lemma acked_inv n w p : mmio_inv n w p ->
  net_inv (d := mmio_place b rxm txm) (as_pci n) (ack_interrupts b w, 0) p /\
  backlog (d := mmio_place b rxm txm) (as_pci n) (ack_interrupts b w, 0) p = mmio_backlog n w p /\
  mm_wire (ack_interrupts b w) = mm_wire w.
Proof.
  pose proof (mm_acked w) as Ea. cbn in Ea. intros [Hi _]. unfold mmio_backlog, backlog, net_inv.
  cbn [wire transport_device fst]. rewrite Ea. split; [exact Hi|done].
Qed.

Definition mmio_queues : queue_driver (W := W) poll_rx_packet transmit.
Proof.
  refine {| q_inv := mmio_inv; q_in := mmio_backlog; q_out := fun _ w _ => sent (mm_wire w);
    q_frame := fitting_frame; q_got := received; q_room := fun room => (RX_BUFFER_BYTES <= length room)%nat;
    q_packet := fun pkt => (0 < length pkt <= TX_BUFFER_BYTES)%nat; q_strip := drop 12; q_sure := true |}.
  - intros n room w p Hi Hf Hr. pose proof (mmio_inv_base n w p Hi) as E.
    destruct (acked_inv n w p Hi) as (Ha & Eb & Ew).
    destruct (q_poll _ _ (virtio_queues (d := mmio_place b rxm txm)) (as_pci n) room
      (ack_interrupts b w, 0) p) as (n' & w' & p' & r & out & Ep & Hi' & Ein & Eout).
    { split; [done|]. apply Hi. }
    { cbn. by rewrite Eb. }
    { done. }
    rewrite (poll_same n room w p E) in Ep.
    destruct (poll_rx_packet n room w p) as [w1 [[[[n1 p1] r1] out1]|]]; [|done].
    injection Ep as <- <- <- <- <-. exists n1, w1, p1, r1, out1. cbn in Hi', Ein, Eout.
    split_and!; [done|done|by rewrite <-Eb|congruence].
  - intros n pkt w p Hi Hl. pose proof (mmio_inv_base n w p Hi) as E.
    destruct (acked_inv n w p Hi) as (Ha & Eb & Ew).
    destruct (q_send _ _ (virtio_queues (d := mmio_place b rxm txm)) (as_pci n) pkt
      (ack_interrupts b w, 0) p) as (n' & w' & p' & ok & Ep & Hi' & Ein & Eout & Hok).
    { split; [done|]. apply Hi. }
    { done. }
    rewrite (transmit_same n pkt w p E) in Ep.
    destruct (transmit n pkt w p) as [w1 [[[n1 p1] ok1]|]]; [|done].
    injection Ep as <- <- <- <-. exists n1, w1, p1, ok1. cbn in Hi', Ein, Eout.
    split_and!; [done|done|by rewrite <-Eb|by rewrite Eout, Ew|done].
Defined.

Definition mmio_finite : finite_driver (W := W) poll_rx_packet transmit.
Proof.
  refine {| f_inv := mmio_inv; f_left := fun n w p => virtio_traffic (mmio_backlog n w p) |}.
  - intros n room w p Hi. pose proof (mmio_inv_base n w p Hi) as E.
    destruct (acked_inv n w p Hi) as (Ha & Eb & Ew).
    destruct (f_poll _ _ (virtio_finite (d := mmio_place b rxm txm)) (as_pci n) room
      (ack_interrupts b w, 0) p) as (n' & w' & p' & r & out & Ep & Hi' & Hl); [split; [done|apply Hi]|].
    rewrite (poll_same n room w p E) in Ep.
    destruct (poll_rx_packet n room w p) as [w1 [[[[n1 p1] r1] out1]|]]; [|done].
    injection Ep as <- <- <- <- <-. exists n1, w1, p1, r1, out1. split; [done|]. split; [done|]. by rewrite <-Eb.
  - intros n pkt w p Hi. pose proof (mmio_inv_base n w p Hi) as E.
    destruct (acked_inv n w p Hi) as (Ha & Eb & Ew).
    destruct (f_send _ _ (virtio_finite (d := mmio_place b rxm txm)) (as_pci n) pkt
      (ack_interrupts b w, 0) p) as (n' & w' & p' & ok & Ep & Hi' & Hl); [split; [done|apply Hi]|].
    rewrite (transmit_same n pkt w p E) in Ep.
    destruct (transmit n pkt w p) as [w1 [[[n1 p1] ok1]|]]; [|done].
    injection Ep as <- <- <- <-. exists n1, w1, p1, ok1. split; [done|]. split; [done|]. by rewrite <-Eb.
Defined.
End same.

(** ** Start-up *)

Section start.
Context {W : Type} `{NetMachine W}.
Implicit Types (w : W) (n : VirtioMmioNet).

Lemma mmio_queue_length_range b i ours w w' q :
  queue_length b i ours w = (w', Some q) -> (2 <= ours)%nat -> 2 <= q <= Z.of_nat ours.
Proof.
  unfold queue_length. cbv zeta. destruct (mm_r32 _ _) as [w1 qmax]. case_decide; [done|].
  intros [= _ <-]. lia.
Qed.

Lemma init_at_ready b p w w' p' n : queue_shape RX_QSZ (RXQ p) -> queue_shape TX_QSZ (TXQ p) ->
  init_at b p w = (w', Ret (p', Some n)) -> base n = b /\ ready (fun q => q) (as_pci n) p'.
Proof.
  intros Hr Ht. unfold init_at. destruct (negotiate _ _) as [w0 [|]]; [|done].
  destruct (queue_length b 0 RX_QSZ w0) as [w1 [rx|]] eqn:E1; [|done].
  apply mmio_queue_length_range in E1; [|unfold RX_QSZ; lia].
  destruct (init_rx_ok None _ Hr) as (rq & -> & Hrs & Hru & Hra & Hrr & Hrd). cbv zeta.
  destruct (queue_length b 1 TX_QSZ _) as [w2 [tx|]] eqn:E2; [|done].
  apply mmio_queue_length_range in E2; [|unfold TX_QSZ; lia].
  change (TXQ (p <| RXQ := rq |>)) with (TXQ p).
  destruct (init_tx_ok _ Ht) as (tq & -> & Hts & Htu & Hta).
  match goal with |- context [read_mac ?cfg ?l ?w0] =>
    pose proof (length_read_mac cfg l w0) as Hm; destruct (read_mac cfg l w0) as [w3 m] end.
  intros [= _ <- <-]. cbn in Hm. split; [done|]. unfold ready, rx_inv, tx_inv, tx_shape, held. cbn.
  rewrite Hru, Htu. split_and!; try done; try lia; [|left; split_and!; try done].
  - unfold RX_QSZ, TX_QSZ in *. split_and!; try done; cbn; unfold RX_QSZ, TX_QSZ; lia.
  - split; [split; [done|by rewrite Z.land_0_l]|by exists 0].
Qed.

Lemma scan_ready l p w w' p' n : queue_shape RX_QSZ (RXQ p) -> queue_shape TX_QSZ (TXQ p) ->
  scan l p w = (w', Ret (p', Some n)) -> base n ∈ l /\ ready (fun q => q) (as_pci n) p'.
Proof.
  intros Hr Ht. revert w. induction l as [|b l IH]; intros w; cbn [scan]; [done|].
  destruct (slot_matches b w) as [w1 [|]]; intros E.
  - apply init_at_ready in E as [-> Hrd]; [|done..]. split; [left|done].
  - apply IH in E as [Hin Hrd]. split; [by right|done].
Qed.

Lemma slots_range b : b ∈ slots -> 0x0a000000 <= b < 0x0a010000.
Proof. unfold slots. rewrite list_elem_of_fmap. intros (i & -> & Hi%elem_of_seqZ). lia. Qed.
End start.

(** A started driver keeps its side, and the network still has all its frames. *)
Lemma ready_mmio {W} `{NetMachine W} n (w : W) p
    `{!MmioNetDevice W (mmio_place (base n) (rx_mask n) (tx_mask n))} :
  ready (fun q => q) (as_pci n) p -> rx_done (mm_wire w) = 0 -> tx_done (mm_wire w) = 0 ->
  mmio_inv (base n) (rx_mask n) (tx_mask n) n w p /\
  mmio_backlog n w p = incoming (mm_wire w).
Proof.
  intros (Hp & Hr & Ht & Hh & Hfl & _) Er Et. split; [split; [|done]|].
  - rewrite <-Er in Hr. rewrite <-Et in Ht. split; [exact Hp|split; [exact Hr|exact Ht]].
  - unfold mmio_backlog. rewrite Hh. done.
Qed.

(** ** Properties *)

(** From a successful scan of the slots on, over a device that follows the
    VirtIO protocol and takes a packet within the 500,000 polls the driver waits,
    however polls and transmissions interleave with it: every call returns, each
    frame of the network (not empty, and of at most 4084 bytes) is received once
    and in order - whole, or, when its destination begins 08:00 or 08:06, with
    the VirtIO header in front - and each packet is put on the wire once, in
    order, without its header. *)
Theorem mmio_net_streams {W} `{MmioNetDevice W d} ops p (w w1 : W) p1 n :
  d = mmio_place (base n) (rx_mask n) (tx_mask n) ->
  queue_shape RX_QSZ (RXQ p) -> queue_shape TX_QSZ (TXQ p) -> probe p w = (w1, Ret (p1, Some n)) ->
  rx_done (mm_wire w1) = 0 -> tx_done (mm_wire w1) = 0 ->
  Forall fitting_frame (incoming (mm_wire w1)) -> Forall op_fits ops ->
  exists n' w' p' fs gs, run_ops poll_rx_packet transmit ops n w1 p1 = (w', Ret (n', p', gs, packets ops)) /\
    Forall2 received fs gs /\ fs ++ mmio_backlog n' w' p' = incoming (mm_wire w1) /\
    sent (mm_wire w') = sent (mm_wire w1) ++ map (drop 12) (packets ops).
Proof.
  intros -> Hr Ht E Er Et Hf Hops. apply scan_ready in E as [Hin Hrd]; [|done..].
  assert (0 <= base n) as Hb by (apply slots_range in Hin; lia).
  destruct (ready_mmio n w1 p1 Hrd Er Et) as [Hi Eb]. rewrite <-Eb in Hf |- *.
  destruct (NicDriver.run_ops_ok _ _ (mmio_queues (base n) Hb (rx_mask n) (tx_mask n)) ops n w1 p1 Hi Hf Hops)
    as (n' & w' & p' & fs & gs & ps & Er' & _ & Hg & Ei & Eo & _ & Hps). specialize (Hps eq_refl) as ->.
  by exists n', w', p', fs, gs.
Qed.

(** ** A device in memory: that of [VirtioNetOk.v], in the second slot *)

Definition box_base : Z := 0x0a000200.

Definition box_reg (a : Z) : Z :=
  if decide (a < box_base) then 0
  else match a - box_base with
       | 0x000 => MAGIC | 0x004 => 2 | 0x008 => 1 | 0x00c => VIRTIO_VENDOR_QEMU_MMIO
       | 0x034 => 1024 | 0x070 => 0x0B | _ => 1
       end.

#[local] Instance mmio_box : NetMachine Wire := {|
  net_mmio := {|
    mmio_ports := {|
      inb := fun _ w => (w, 0); outb := fun _ _ w => w; inw := fun _ w => (w, 0); outw := fun _ _ w => w;
      in32 := fun _ w => (w, 0); out32 := fun _ _ w => w |};
    mm_r8 := fun a w => (w, a mod 256); mm_r16 := fun _ w => (w, 0); mm_r32 := fun a w => (w, box_reg a);
    mm_w8 := fun _ _ w => w; mm_w16 := fun _ _ w => w; mm_w32 := fun _ _ w => w; mm_w64 := fun _ _ w => w |};
  RXQ_at := 0x100000; TXQ_at := 0x200000;
  net_spin := fun w p =>
    let '(w, rq) := box_rx w (RXQ p) in
    let '(w, tq) := box_tx w (TXQ p) in (w, {| RXQ := rq; TXQ := tq |}) |}.

(** Only the masks and the buffers of a place matter to the device. *)
Lemma mem_rx_step s s' : rx_step mem_net_place s s' -> rx_step (mmio_place box_base 255 7) s s'.
Proof. intros [t|f fs done q h Hp Hh Hf]; [constructor|]. by apply (rx_deliver (mmio_place box_base 255 7)). Qed.

Lemma mem_tx_step s s' : tx_step mem_net_place s s' -> tx_step (mmio_place box_base 255 7) s s'.
Proof. intros [t|fs done q pkt Hp]; [constructor|]. by apply (tx_take (mmio_place box_base 255 7)). Qed.

#[local, refine] Instance mmio_box_device : MmioNetDevice Wire (mmio_place box_base 255 7) := {| mm_wire := fun w => w |}.
Proof.
  - done.
  - done.
  - intros w p _. cbn [net_spin mmio_box].
    destruct (box_rx _ _) as [x rq] eqn:Er, (box_tx _ _) as [x' tq] eqn:Et.
    destruct (box_rx_step _ _ _ _ Er) as (Hr & Es & Ed), (box_tx_step _ _ _ _ Et) as (Ht & Ei & Ed').
    cbn [RXQ TXQ]. rewrite Ei, Ed', <-Es, <-Ed. split; [by apply mem_rx_step|by apply mem_tx_step].
  - intros w p pkt _ Hpost. exists 0%nat. split; [lia|]. cbn [spins net_spin mmio_box fst snd].
    change (VirtioMmioNet.notify_queue (at_common (mmio_place box_base 255 7)) 1 w) with w.
    destruct (box_rx _ _) as [x rq] eqn:Er. destruct (box_rx_step _ _ _ _ Er) as (_ & _ & Ed).
    unfold box_tx. rewrite Ed, (posted_tx_packet _ _ _ Hpost). cbn. unfold wrap.
    intros E. pose proof (Z.mod_pos_bound (used_idx (TXQ p) + 1) (2 ^ 16) ltac:(lia)) as Hb. rewrite E in Hb.
    destruct (wrap16_next _ Hb) as [Hne _]. by apply Hne.
Defined.

Definition cold_wire (frames : list bytes) : Wire :=
  {| incoming := frames; sent := []; rx_done := 0; tx_done := 0 |}.

Definition mm_started : NetPages * VirtioMmioNet :=
  match probe NetPages_zero (cold_wire two_frames) with
  | (_, Ret (p, Some n)) => (p, n)
  | _ => (NetPages_zero, {| base := 0; rx_mask := 0; tx_mask := 0; mac := []; rx_packets := 0;
      rx_last_used := 0; tx_last_used := 0; tx_inflight := true |})
  end.
Definition mm_n : VirtioMmioNet := mm_started.2.
Definition mm_p : NetPages := mm_started.1.

Lemma mm_probe : probe NetPages_zero (cold_wire two_frames) = (cold_wire two_frames, Ret (mm_p, Some mm_n)).
Proof. vm_compute. reflexivity. Qed.

Lemma mm_place : mmio_place (base mm_n) (rx_mask mm_n) (tx_mask mm_n) = mmio_place box_base 255 7.
Proof. vm_compute. reflexivity. Qed.

Lemma mmio_net_streams_witness :
  exists n' w' p' fs gs, run_ops poll_rx_packet transmit some_ops mm_n (cold_wire two_frames) mm_p =
      (w', Ret (n', p', gs, packets some_ops)) /\ Forall2 received fs gs /\ fs `prefix_of` two_frames /\
    sent w' = [[70; 71]].
Proof.
  destruct (mmio_net_streams some_ops NetPages_zero (cold_wire two_frames) (cold_wire two_frames) mm_p mm_n)
    as (n' & w' & p' & fs & gs & E & Hg & Ef & Es).
  - symmetry. exact mm_place.
  - apply zero_queue_shape. unfold RX_QSZ. lia.
  - apply zero_queue_shape. unfold TX_QSZ. lia.
  - exact mm_probe.
  - done.
  - done.
  - apply (bool_decide_unpack _). vm_compute. exact I.
  - repeat constructor; apply Nat.leb_le; vm_compute; reflexivity.
  - exists n', w', p', fs, gs. split; [exact E|]. split; [exact Hg|]. split; [by eexists|].
    etransitivity; [exact Es|]. vm_compute. reflexivity.
Defined.
