(* ===== verification/Rtl8139.v ===== *)
(** * The RTL8139 network driver ([kernel/src/rtl8139.rs])

    Port I/O, a receive ring of 8 KiB into which the card writes packets behind
    a four-byte header, and four transmit slots.  The card is the class
    [RtlMachine]: its registers are ports, [card_writes] is what it has put into
    the ring when the driver looks.  Port numbers are added without wrap-around:
    an I/O base in the last 256 ports is left out.

    The ring is read correctly up to its end ([rtl8139_frames_delivered]); a
    packet that crosses the end, which the driver has asked the card to write
    past the ring, stops reception for good ([stalls_at_ring_end]). *)

From S2P Require Import Prelude Ports Pci VirtioBlk VirtioNet.

Definition REALTEK_VENDOR : Z := 0x10EC.
Definition RTL8139_DEVICE : Z := 0x8139.
Definition REG_MAC0 : Z := 0x00.
Definition REG_TX_STATUS0 : Z := 0x10.
Definition REG_TX_ADDR0 : Z := 0x20.
Definition REG_RX_BUF : Z := 0x30.
Definition REG_CHIP_CMD : Z := 0x37.
Definition REG_RX_BUF_PTR : Z := 0x38.
Definition REG_INTR_MASK : Z := 0x3C.
Definition REG_INTR_STATUS : Z := 0x3E.
Definition REG_TX_CONFIG : Z := 0x40.
Definition REG_RX_CONFIG : Z := 0x44.
Definition REG_CONFIG1 : Z := 0x52.
Definition CMD_RESET : Z := 0x10.
Definition CMD_RX_EN : Z := 0x08.
Definition CMD_TX_EN : Z := 0x04.
Definition TX_HOST_OWNS : Z := Z.shiftl 1 13.
Definition ISR_RX_OK : Z := 0x0001.
Definition RX_BUF_SIZE : nat := 8 * 1024.
Definition TX_BUF : nat := 2048.
Definition NUM_TX : nat := 4.

Record RtlPages := { rx : bytes; tx : list bytes }.
#[export] Instance RtlPages_eta : Settable RtlPages := fun p => Build_RtlPages p.(rx) p.(tx).

Definition PAGES_zero : RtlPages := {| rx := replicate RX_BUF_SIZE 0; tx := replicate NUM_TX (replicate TX_BUF 0) |}.

Record Rtl8139 := {
  io : Z;
  rtl_skew : option Z;
  rtl_mac : bytes;
  rtl_rx_packets : Z;
  cur_rx : nat;
  tx_slot : Z;
}.
#[export] Instance Rtl8139_eta : Settable Rtl8139 := fun r =>
  Build_Rtl8139 r.(io) r.(rtl_skew) r.(rtl_mac) r.(rtl_rx_packets) r.(cur_rx) r.(tx_slot).

Class RtlMachine (W : Type) := {
  rtl_ports :: Ports W;
  PAGES_at : Z;
  card_writes : W -> bytes -> W * bytes;
}.

Section driver.
Context {W : Type} `{RtlMachine W}.

Definition phys (r : Rtl8139) (virt : Z) : Z := wrap32 (VirtioBlk.phys (rtl_skew r) virt).

Definition bar0_io (f : PciFn) (w : W) : W * option Z :=
  let '(w, raw) := read_u32 f 0x10 w in
  (w, if decide (raw = 0xFFFFFFFF \/ Z.land raw 1 = 0) then None
      else
        let port := wrap16 (Z.land raw 0xFFFC) in
        if decide (port = 0) then None else Some port).

(** The wait for the end of the reset. *)
Definition reset_round (port : Z) (w : W) : W + W :=
  let '(w, c) := inb port w in
  if decide (Z.land c CMD_RESET = 0) then inr w else inl w.

Definition wait_reset (port : Z) (w : W) : W :=
  match for_upto (reset_round port) 500000 w with inl w | inr w => w end.

Fixpoint read_mac (port : Z) (idxs : list Z) (w : W) : W * bytes :=
  match idxs with
  | [] => (w, [])
  | i :: idxs =>
      let '(w, b) := inb (port + REG_MAC0 + i) w in
      let '(w, l) := read_mac port idxs w in (w, b :: l)
  end.

Definition probe (physical_memory_offset : option Z) (p : RtlPages) (w : W) :
    W * (RtlPages * option Rtl8139) :=
  let '(w, picked) := pick_function REALTEK_VENDOR RTL8139_DEVICE w in
  match picked with
  | None => (w, (p, None))
  | Some f =>
      let w := pci_enable_io_bm f w in
      let '(w, port) := bar0_io f w in
      match port with
      | None => (w, (p, None))
      | Some port =>
          let w := outb (port + REG_CONFIG1) 0x00 w in
          let w := wait_reset (port + REG_CHIP_CMD) (outb (port + REG_CHIP_CMD) CMD_RESET w) in
          let '(w, mac) := read_mac port (seqZ 0 6) w in
          let p := p <| rx ::= map (fun _ => 0) |> <| tx ::= map (map (fun _ => 0)) |> in
          let dev := {| io := port; rtl_skew := physical_memory_offset; rtl_mac := mac;
                        rtl_rx_packets := 0; cur_rx := 0; tx_slot := 0 |} in
          let w := out32 (port + REG_RX_BUF) (phys dev PAGES_at) w in
          let w := out32 (port + REG_RX_CONFIG) (Z.lor 0x0000070F (Z.shiftl 1 7)) w in
          let w := out32 (port + REG_TX_CONFIG) 0x03000700 w in
          let w := outw (port + REG_INTR_MASK) 0 w in
          let w := outw (port + REG_INTR_STATUS) 0xFFFF w in
          let w := outw (port + REG_RX_BUF_PTR) (wrap16 (Z.of_nat RX_BUF_SIZE - 16)) w in
          let w := outb (port + REG_CHIP_CMD) (Z.lor CMD_RX_EN CMD_TX_EN) w in
          (w, (p, Some dev))
      end
  end.

(** ** Reception *)

Definition sync_capr (r : Rtl8139) (w : W) : W :=
  outw (io r + REG_RX_BUF_PTR) (Z.land (wrap64 (Z.of_nat (cur_rx r) - 16)) 0xFFFC) w.

(** [(rx_size + 4 + 3) & !3] *)
Definition advance (rx_size : nat) : nat := (rx_size + 4 + 3) / 4 * 4.

Definition skip_packet (r : Rtl8139) (n : nat) (w : W) : W * Rtl8139 :=
  let r := r <| cur_rx := ((cur_rx r + n) `mod` RX_BUF_SIZE)%nat |> in (sync_capr r w, r).

(** What is at the read offset of the ring. *)
Inductive RingEntry :=
  | Nothing                         (** no packet, or none that can be read *)
  | Skip (n : nat)                  (** a packet to leave out, of [n] bytes of the ring *)
  | Frame (data : bytes) (n : nat). (** a frame, and the bytes of the ring it takes *)

Definition ring_entry (ring : bytes) (ring_offset room : nat) : rust RingEntry :=
  if decide (RX_BUF_SIZE < ring_offset + 8)%nat then Ret Nothing
  else
    b0 ← rd ring ring_offset;
    b1 ← rd ring (ring_offset + 1);
    b2 ← rd ring (ring_offset + 2);
    b3 ← rd ring (ring_offset + 3);
    let hdr := of_le [b0; b1; b2; b3] in
    if decide (Z.land hdr 1 = 0) then Ret Nothing
    else
      let rx_size := Z.to_nat (wrap16 (Z.shiftr hdr 16)) in
      if decide (rx_size < 4 + 14 \/ RX_BUF_SIZE < rx_size)%nat then
        Ret (Skip (Nat.min (advance rx_size) RX_BUF_SIZE))
      else
        let copy_len := (rx_size - 4)%nat in
        if decide (room < copy_len \/ TX_BUF < copy_len)%nat then Ret (Skip (advance rx_size))
        else if decide (RX_BUF_SIZE < ring_offset + 4 + copy_len)%nat then Ret Nothing
        else
          data ← sub ring (ring_offset + 4) (ring_offset + 4 + copy_len);
          Ret (Frame data (advance rx_size)).

Definition poll_rx_packet (r : Rtl8139) (out : bytes) (w : W) (p : RtlPages) :
    W * rust (Rtl8139 * RtlPages * option nat * bytes) :=
  let '(w, st) := inw (io r + REG_INTR_STATUS) w in
  let w := if decide (Z.land st ISR_RX_OK <> 0) then outw (io r + REG_INTR_STATUS) ISR_RX_OK w else w in
  let '(w, ring) := card_writes w (rx p) in
  let p := p <| rx := ring |> in
  match ring_entry ring (cur_rx r `mod` RX_BUF_SIZE)%nat (length out) with
  | Panic => (w, Panic)
  | Ret Nothing => (w, Ret (r, p, None, out))
  | Ret (Skip n) => let '(w, r) := skip_packet r n w in (w, Ret (r, p, None, out))
  | Ret (Frame data n) =>
      match copy_at out 0 data with
      | Panic => (w, Panic)
      | Ret out =>
          let '(w, r) := skip_packet r n w in
          (w, Ret (r <| rtl_rx_packets ::= fun k => wrap64 (k + 1) |>, p, Some (length data), out))
      end
  end.

(** ** Transmission *)

(** One round of the wait for a slot that the host owns. *)
Definition owns_round (ts : Z) (w : W) : W + W :=
  let '(w, status) := in32 ts w in
  if decide (Z.land status TX_HOST_OWNS <> 0) then inr w else inl w.

Definition wait_slot (ts : Z) (w : W) : W * bool :=
  let '(w, status) := in32 ts w in
  if decide (Z.land status TX_HOST_OWNS <> 0) then (w, true)
  else match for_upto (owns_round ts) 500000 w with inr w => (w, true) | inl w => (w, false) end.

Definition off_tx (slot : nat) : Z := Z.of_nat (RX_BUF_SIZE + slot * TX_BUF).

Definition transmit (r : Rtl8139) (pkt : bytes) (w : W) (p : RtlPages) :
    W * rust (Rtl8139 * RtlPages * bool) :=
  if decide (length pkt = 0 \/ TX_BUF < length pkt)%nat then (w, Ret (r, p, false))
  else
    let slot := Z.to_nat (tx_slot r mod Z.of_nat NUM_TX) in
    let ts := io r + REG_TX_STATUS0 + Z.of_nat slot * 4 in
    let ta := io r + REG_TX_ADDR0 + Z.of_nat slot * 4 in
    let '(w, owned) := wait_slot ts w in
    if owned : bool then
      match
        b ← rd (tx p) slot;
        b ← copy_at b 0 pkt;
        t ← wr (tx p) slot b;
        Ret (p <| tx := t |>)
      with
      | Panic => (w, Panic)
      | Ret p =>
          let w := out32 ta (phys r (PAGES_at + off_tx slot)) w in
          let w := out32 ts (Z.land (Z.of_nat (length pkt)) 0x1FFF) w in
          (w, Ret (r <| tx_slot := wrap8 (tx_slot r + 1) |>, p, true))
      end
    else (w, Ret (r, p, false)).
End driver.

(** ** Specifications *)

(** A packet in the ring: status with the OK bit, length with the CRC, frame,
    CRC, and padding to four bytes. *)
Definition entry (f e : bytes) : Prop :=
  exists s0 s1 crc pad, e = [s0; s1] ++ to_le 2 (Z.of_nat (length f + 4)) ++ f ++ crc ++ pad /\
    is_byte s0 /\ is_byte s1 /\ Z.land s0 1 = 1 /\ length crc = 4%nat /\
    (length pad < 4)%nat /\ (length e `mod` 4 = 0)%nat.

Definition frame_ok (room : nat) (f : bytes) : Prop :=
  is_bytes f /\ (14 <= length f <= 2048)%nat /\ (length f <= room)%nat.

Definition pages_ok (p : RtlPages) : Prop :=
  length (rx p) = RX_BUF_SIZE /\ is_bytes (rx p) /\ length (tx p) = NUM_TX /\ Forall (fun b => length b = TX_BUF) (tx p).

(** The card fills the ring with bytes, and leaves alone what is not read yet. *)
Class RtlCard (W : Type) `{RtlMachine W} := {
  card_ok w ring : length ring = RX_BUF_SIZE -> is_bytes ring ->
    length (card_writes w ring).2 = RX_BUF_SIZE /\ is_bytes (card_writes w ring).2;
}.

Definition card_keeps {W} `{RtlMachine W} (a b : nat) : Prop :=
  forall (w : W) ring, length ring = RX_BUF_SIZE -> slice (card_writes w ring).2 a b = slice ring a b.

(** [n] polls, and the frames they return. *)
Fixpoint polls {W} `{RtlMachine W} (n : nat) (room : bytes) (r : Rtl8139) (w : W) (p : RtlPages) :
    W * rust (Rtl8139 * RtlPages * list bytes) :=
  match n with
  | O => (w, Ret (r, p, []))
  | S n =>
      match poll_rx_packet r room w p with
      | (w, Panic) => (w, Panic)
      | (w, Ret (r, p, res, out)) =>
          let '(w, s) := polls n room r w p in
          (w, '(r, p, fs) ← s; Ret (r, p, match res with Some l => take l out :: fs | None => fs end))
      end
  end.

(** ** The ring *)

Lemma advance_bounds n : (n + 4 <= advance n <= n + 7)%nat.
Proof. unfold advance. pose proof (Nat.div_mod_eq (n + 4 + 3) 4). pose proof (Nat.mod_upper_bound (n + 4 + 3) 4). lia. Qed.

(** A packet takes as many bytes of the ring as the driver moves on. *)
Lemma entry_length f e : entry f e -> length e = advance (length f + 4).
Proof.
  intros (s0 & s1 & crc & pad & Ee & _ & _ & _ & Hc & Hpad & Hmod). unfold advance.
  apply Nat.Div0.mod_divides in Hmod as [k Hk].
  assert (length e = length f + 8 + length pad)%nat as El by (rewrite Ee; rewrite !length_app, length_to_le; cbn [length]; lia).
  pose proof (Nat.div_mod_eq (length f + 4 + 4 + 3) 4). pose proof (Nat.mod_upper_bound (length f + 4 + 4 + 3) 4). lia.
Qed.

Lemma header_bits s0 s1 len : is_byte s0 -> is_byte s1 -> Z.land s0 1 = 1 -> 0 <= len < 2 ^ 16 ->
  Z.land (of_le ([s0; s1] ++ to_le 2 len)) 1 = 1 /\ wrap16 (Z.shiftr (of_le ([s0; s1] ++ to_le 2 len)) 16) = len.
Proof.
  intros H0 H1 Hb Hl. unfold is_byte in *.
  assert (of_le ([s0; s1] ++ to_le 2 len) = s0 + 256 * s1 + 65536 * len) as ->.
  { pose proof (of_le_to_le_small 2 len ltac:(lia)) as E. cbn [of_le app]. rewrite E. lia. }
  split.
  - assert (forall z, Z.land z 1 = z mod 2) as Hodd by (intros z; by apply (Z.land_ones z 1)).
    rewrite Hodd in *. rewrite <-Hb, <-(Z.mod_add s0 (128 * s1 + 32768 * len) 2) by lia. f_equal. lia.
  - rewrite Z.shiftr_div_pow2 by lia. unfold wrap.
    replace ((s0 + 256 * s1 + 65536 * len) / 2 ^ 16) with len; [by apply Z.mod_small|].
    apply Z.div_unique with (r := s0 + 256 * s1); lia.
Qed.

(** A packet at the read offset is read as its frame. *)
Lemma ring_entry_frame pre e post f room :
  entry f e -> frame_ok room f -> length (pre ++ e ++ post) = RX_BUF_SIZE ->
  ring_entry (pre ++ e ++ post) (length pre) room = Ret (Frame f (length e)).
Proof.
  intros Hentry (Hf & Hl & Hroom) Hring. pose proof (entry_length f e Hentry) as He.
  destruct Hentry as (s0 & s1 & crc & pad & Ee & H0 & H1 & Hb & Hc & _).
  pose proof (advance_bounds (length f + 4)) as Ha. unfold RX_BUF_SIZE in Hring. rewrite !length_app in Hring. rewrite He in Hring.
  unfold ring_entry. rewrite decide_False by (unfold RX_BUF_SIZE; lia).
  rewrite <-(Nat.add_0_r (length pre)) at 1. rewrite !rd_in, !bind_ret by lia.
  assert ([e !!! 0%nat; e !!! 1%nat; e !!! 2%nat; e !!! 3%nat] = [s0; s1] ++ to_le 2 (Z.of_nat (length f + 4))) as ->.
  { rewrite Ee. destruct (to_le 2 (Z.of_nat (length f + 4))) as [|x [|y [|]]] eqn:El; try done; apply (f_equal length) in El; rewrite length_to_le in El; cbn in El; lia. }
  destruct (header_bits s0 s1 (Z.of_nat (length f + 4)) H0 H1 Hb) as [-> ->]; [lia|].
  rewrite decide_False by done. cbv zeta. rewrite Nat2Z.id.
  rewrite decide_False by (unfold RX_BUF_SIZE; lia).
  replace (length f + 4 - 4)%nat with (length f) by lia.
  rewrite decide_False by (unfold TX_BUF; lia). rewrite decide_False by (unfold RX_BUF_SIZE; lia).
  rewrite sub_ok, bind_ret by (rewrite !length_app, He; lia). f_equal. f_equal; [|done].
  rewrite slice_skip by lia. rewrite Ee. rewrite <-!app_assoc, slice_skip, slice_skip by (rewrite ?length_to_le; cbn; lia).
  apply slice_here; rewrite ?length_to_le; cbn; lia.
Qed.

Lemma slice_parts (l e : bytes) a b : slice l a b = e -> b = (a + length e)%nat -> (b <= length l)%nat ->
  exists pre post, l = pre ++ e ++ post /\ length pre = a.
Proof.
  intros E -> Hl. exists (take a l), (drop (a + length e) l). split; [|rewrite length_take; lia].
  rewrite <-E at 1. unfold slice. replace (a + length e - a)%nat with (length e) by lia.
  by rewrite <-drop_drop, take_drop, take_drop.
Qed.

(** Whatever is in the ring, looking at it returns, and frames fit the room. *)
Lemma ring_entry_returns ring off room : length ring = RX_BUF_SIZE -> exists x,
  ring_entry ring off room = Ret x /\ match x with Frame data _ => (length data <= room)%nat | _ => True end.
Proof.
  intros Hl. unfold ring_entry. case_decide as Ho; [by exists Nothing|].
  rewrite !rd_ok, !bind_ret by lia. cbv zeta. case_decide; [by exists Nothing|].
  case_decide; [by eexists|]. case_decide; [by eexists|]. case_decide; [by exists Nothing|].
  rewrite sub_ok, bind_ret by lia. eexists. split; [done|]. cbv beta iota. rewrite length_slice; lia.
Qed.

Section proofs.
Context {W : Type} `{RtlCard W}.
Implicit Types (w : W) (r : Rtl8139).

(** A poll, by what is at the read offset. *)
Lemma poll_returns r out w p : pages_ok p -> (cur_rx r < RX_BUF_SIZE)%nat ->
  exists r' w' p' res out', poll_rx_packet r out w p = (w', Ret (r', p', res, out')) /\
    pages_ok p' /\ (cur_rx r' < RX_BUF_SIZE)%nat /\ length out' = length out /\ tx p' = tx p /\
    exists w0, rx p' = (card_writes w0 (rx p)).2 /\
    match ring_entry (rx p') (cur_rx r) (length out) with
    | Ret (Frame data n) => res = Some (length data) /\ take (length data) out' = data /\
        cur_rx r' = ((cur_rx r + n) `mod` RX_BUF_SIZE)%nat
    | Ret (Skip n) => res = None /\ cur_rx r' = ((cur_rx r + n) `mod` RX_BUF_SIZE)%nat
    | Ret Nothing => res = None /\ r' = r
    | Panic => False
    end.
Proof.
  intros (Hrx & Hb & Ht & Htx) Hc. unfold poll_rx_packet. destruct (inw _ _) as [w1 st].
  set (w2 := if decide _ then _ else _). destruct (card_ok w2 (rx p) Hrx Hb) as [Hl2 Hb2].
  destruct (card_writes w2 (rx p)) as [w3 ring] eqn:E. cbn [fst snd] in Hl2, Hb2.
  assert (pages_ok (p <| rx := ring |>)) as Hp by (by split_and!).
  assert (forall n, (n `mod` RX_BUF_SIZE < RX_BUF_SIZE)%nat) as Hmod by (intros; apply Nat.mod_upper_bound; done).
  rewrite (Nat.mod_small (cur_rx r)) by done.
  destruct (ring_entry_returns ring (cur_rx r) (length out) Hl2) as (x & Ex & Hx).
  rewrite Ex. destruct x as [|n|data n].
  - exists r, w3, (p <| rx := ring |>), None, out. split_and!; try done. exists w2. rewrite E. cbn. by rewrite Ex.
  - eexists _, _, (p <| rx := ring |>), None, out. split; [reflexivity|]. split_and!; try done; [apply Hmod|].
    exists w2. rewrite E. cbn. by rewrite Ex.
  - rewrite copy_at_ok by lia. eexists _, _, (p <| rx := ring |>), _, _. split; [reflexivity|].
    split_and!; try done; [apply Hmod|by rewrite length_inserts|]. exists w2. rewrite E. cbn. rewrite Ex.
    split_and!; try done. rewrite inserts_split, take_0, app_nil_l by lia. apply take_app_length.
Qed.
(** ** Reading the ring *)

Lemma polls_deliver n room fs es r w p :
  pages_ok p -> (cur_rx r + length (concat es) <= RX_BUF_SIZE)%nat -> (cur_rx r < RX_BUF_SIZE)%nat ->
  card_keeps (W := W) (cur_rx r) (cur_rx r + length (concat es)) ->
  Forall2 entry fs es -> Forall (frame_ok (length room)) fs -> n = length fs ->
  slice (rx p) (cur_rx r) (cur_rx r + length (concat es)) = concat es ->
  exists r' w' p', polls n room r w p = (w', Ret (r', p', fs)) /\ pages_ok p' /\
    cur_rx r' = ((cur_rx r + length (concat es)) `mod` RX_BUF_SIZE)%nat.
Proof.
  intros Hp Hfit Hcur Hkeep Hes Hfs -> Hring. revert r w p Hp Hfit Hcur Hkeep Hring Hfs.
  induction Hes as [|f e fs es He Hes IH]; intros r w p Hp Hfit Hcur Hkeep Hring Hfs; cbn [length polls].
  { exists r, w, p. split_and!; [done|done|]. cbn [concat length]. by rewrite Nat.add_0_r, Nat.mod_small. }
  apply Forall_cons in Hfs as [Hf Hfs]. cbn [concat] in *. rewrite length_app in *.
  destruct (poll_returns r room w p Hp Hcur) as (r1 & w1 & p1 & res & out & -> & Hp1 & Hc1 & Hl1 & _ & w0 & Erx & Hent).
  assert (slice (rx p1) (cur_rx r) (cur_rx r + (length e + length (concat es))) = e ++ concat es) as Hr1.
  { rewrite Erx, Hkeep; [done|apply Hp]. }
  destruct (slice_parts _ _ _ _ Hr1) as (pre & post & Eq & Epre); [len|destruct Hp1 as [-> _]; lia|].
  rewrite <-app_assoc in Eq. rewrite Eq, <-Epre in Hent.
  rewrite (ring_entry_frame pre e _ f) in Hent; [|done|done|rewrite <-Eq; apply Hp1].
  destruct Hent as (-> & Hout & Hcur1). rewrite Epre in Hcur1.
  destruct Hes as [|f' e' fs es He' Hes].
  { cbn [length polls]. exists r1, w1, p1. rewrite bind_ret, Hout. split_and!; [done|done|].
    rewrite Hcur1. cbn [concat length]. by rewrite Nat.add_0_r. }
  remember (concat (e' :: es)) as rest eqn:Erest.
  assert (0 < length rest)%nat as Hpos.
  { rewrite Erest. cbn [concat]. rewrite length_app. destruct He' as (? & ? & ? & ? & -> & _). cbn. lia. }
  rewrite Nat.mod_small in Hcur1 by lia.
  destruct (IH r1 w1 p1) as (r' & w' & p' & -> & Hp' & Hcur'); [done|lia|done| | |done|].
  - intros w2 ring Hl. rewrite Hcur1. specialize (Hkeep w2 ring Hl).
    apply (f_equal (fun l => slice l (length e) (length e + length rest))) in Hkeep.
    rewrite !slice_slice in Hkeep by lia. by rewrite !Nat.add_assoc in Hkeep.
  - rewrite Eq, Hcur1, !slice_skip by lia. apply slice_here; lia.
  - exists r', w', p'. rewrite bind_ret, Hout. split_and!; [done|done|].
    rewrite Hcur', Hcur1. f_equal. lia.
Qed.

(** ** The end of the ring *)

(** No packet can be read here: the header says there is one, of an acceptable
    size, that does not end inside the ring; or the offset is in the last eight bytes. *)
Definition blocked (room off : nat) (ring : bytes) : Prop :=
  (RX_BUF_SIZE < off + 8)%nat \/
  exists b0 b1 b2 b3, slice ring off (off + 4) = [b0; b1; b2; b3] /\
    let hdr := of_le [b0; b1; b2; b3] in
    let rx_size := Z.to_nat (wrap16 (Z.shiftr hdr 16)) in
    Z.land hdr 1 <> 0 /\ (18 <= rx_size <= 2052)%nat /\ (rx_size - 4 <= room)%nat /\
    (RX_BUF_SIZE < off + rx_size)%nat.

Lemma blocked_nothing room off ring : length ring = RX_BUF_SIZE -> (off < RX_BUF_SIZE)%nat ->
  blocked room off ring -> ring_entry ring off room = Ret Nothing.
Proof.
  intros Hl Ho [Hend|(b0 & b1 & b2 & b3 & Es & Hb & Hsz & Hroom & Hcross)]; unfold ring_entry; [by rewrite decide_True|].
  case_decide; [done|].
  destruct (slice_parts _ _ _ _ Es) as (pre & post & -> & Epre); [done|lia|].
  subst off. rewrite <-(Nat.add_0_r (length pre)) at 1. rewrite !rd_in, !bind_ret by (cbn; lia).
  change ([b0; b1; b2; b3] !!! 0%nat) with b0. change ([b0; b1; b2; b3] !!! 1%nat) with b1.
  change ([b0; b1; b2; b3] !!! 2%nat) with b2. change ([b0; b1; b2; b3] !!! 3%nat) with b3.
  cbv zeta in *. rewrite decide_False by done.
  rewrite decide_False by (unfold RX_BUF_SIZE; lia). rewrite decide_False by (unfold TX_BUF; lia).
  by rewrite decide_True by lia.
Qed.

(** Reception stops for good. *)
Lemma stalls_at_ring_end n room r w p :
  pages_ok p -> (cur_rx r < RX_BUF_SIZE)%nat -> card_keeps (W := W) (cur_rx r) (cur_rx r + 4) ->
  blocked (length room) (cur_rx r) (rx p) ->
  exists w' p', polls n room r w p = (w', Ret (r, p', [])).
Proof.
  intros Hp Hc Hkeep. revert w p Hp. induction n as [|n IH]; intros w p Hp Hbl; cbn [polls]; [by exists w, p|].
  destruct (poll_returns r room w p Hp Hc) as (r1 & w1 & p1 & res & out & -> & Hp1 & _ & _ & _ & w0 & Erx & Hent).
  assert (blocked (length room) (cur_rx r) (rx p1)) as Hbl1.
  { destruct Hbl as [?|(b0 & b1 & b2 & b3 & Es & Hrest)]; [by left|right]. exists b0, b1, b2, b3.
    split; [|done]. by rewrite Erx, Hkeep by apply Hp. }
  rewrite (blocked_nothing _ _ _ (proj1 Hp1) Hc Hbl1) in Hent. destruct Hent as [-> ->].
  destruct (IH w1 p1 Hp1 Hbl1) as (w' & p' & ->). by exists w', p'.
Qed.
(** ** Transmission *)

Lemma transmit_returns r pkt w p : pages_ok p ->
  exists r' w' p' ok, transmit r pkt w p = (w', Ret (r', p', ok)) /\ pages_ok p' /\ rx p' = rx p /\
    cur_rx r' = cur_rx r /\
    (ok = true -> (0 < length pkt <= TX_BUF)%nat /\
      exists b, tx p' !! Z.to_nat (tx_slot r mod 4) = Some b /\ take (length pkt) b = pkt).
Proof.
  intros (Hrx & Hb & Ht & Htx). unfold transmit. case_decide as Hl; [by exists r, w, p, false; split_and!|].
  cbv zeta. change (Z.of_nat NUM_TX) with 4. set (slot := Z.to_nat (tx_slot r mod 4)).
  assert (slot < NUM_TX)%nat as Hs by (unfold slot, NUM_TX; pose proof (Z.mod_pos_bound (tx_slot r) 4); lia).
  destruct (wait_slot _ w) as [w1 [|]]; [|by exists r, w1, p, false; split_and!].
  destruct (lookup_lt_is_Some_2 (tx p) slot) as [b Eb]; [lia|].
  assert (length b = TX_BUF) as Elb by (by eapply Forall_lookup_1 in Htx).
  rewrite (rd_lookup _ _ _ Eb), bind_ret, copy_at_ok, bind_ret, wr_ok, bind_ret by lia.
  eexists _, _, (p <| tx := <[slot := list_inserts 0 pkt b]> (tx p) |>), true. split; [reflexivity|].
  split; [|split; [done|split; [done|]]].
  - split_and!; try done; cbn; [by rewrite length_insert|].
    apply Forall_insert; [done|by rewrite length_inserts].
  - intros _. split; [lia|]. exists (list_inserts 0 pkt b). cbn. split; [apply list_lookup_insert_eq; lia|].
    rewrite inserts_split, take_0, app_nil_l by lia. apply take_app_length.
Qed.
End proofs.

(** ** Properties *)

(** C23: Frames that lie behind the read offset, one after the other up to the end
    of the ring, are received exactly, in order, one per poll, and the read
    offset moves behind them. *)
Theorem rtl8139_frames_delivered {W} `{RtlCard W} room fs es r (w : W) p :
  pages_ok p -> (cur_rx r < RX_BUF_SIZE)%nat -> (cur_rx r + length (concat es) <= RX_BUF_SIZE)%nat ->
  card_keeps (W := W) (cur_rx r) (cur_rx r + length (concat es)) ->
  Forall2 entry fs es -> Forall (frame_ok (length room)) fs ->
  slice (rx p) (cur_rx r) (cur_rx r + length (concat es)) = concat es ->
  exists r' w' p', polls (length fs) room r w p = (w', Ret (r', p', fs)) /\ pages_ok p' /\
    cur_rx r' = ((cur_rx r + length (concat es)) `mod` RX_BUF_SIZE)%nat.
Proof. intros Hp Hc Hfit Hk He Hf Hr. by apply (polls_deliver _ room fs es). Qed.

(** C24: Whatever the card does and whatever it writes into the ring, polling and
    transmitting return: no access is out of range, the read offset stays
    inside the ring, a received frame fits the caller's buffer, and a packet
    reported as sent is in the buffer of its slot. *)
Theorem rtl8139_safe {W} `{RtlCard W} r out pkt (w : W) p : pages_ok p -> (cur_rx r < RX_BUF_SIZE)%nat ->
  (exists r' w' p' res out', poll_rx_packet r out w p = (w', Ret (r', p', res, out')) /\
    pages_ok p' /\ (cur_rx r' < RX_BUF_SIZE)%nat /\ length out' = length out /\
    forall n, res = Some n -> (n <= length out)%nat) /\
  (exists r' w' p' ok, transmit r pkt w p = (w', Ret (r', p', ok)) /\ pages_ok p' /\
    cur_rx r' = cur_rx r /\
    (ok = true -> exists b, tx p' !! Z.to_nat (tx_slot r mod 4) = Some b /\ take (length pkt) b = pkt)).
Proof.
  intros Hp Hc. split.
  - destruct (poll_returns r out w p Hp Hc) as (r' & w' & p' & res & out' & E & Hp' & Hc' & Hl & _ & w0 & _ & Hent).
    exists r', w', p', res, out'. split_and!; try done. intros n ->.
    destruct (ring_entry_returns (rx p') (cur_rx r) (length out)) as (x & Ex & Hx); [apply Hp'|].
    rewrite Ex in Hent. destruct x; [by destruct Hent..|]. destruct Hent as [[= ->] _]. done.
  - destruct (transmit_returns r pkt w p Hp) as (r' & w' & p' & ok & E & Hp' & _ & Hc' & Hok).
    exists r', w', p', ok. split_and!; try done. intros Ht. by apply Hok.
Qed.

(** ** Witnesses: a card at rest, with two frames in its ring *)

Record RestingCard := { card_io : list (Z * Z) }.
#[export] Instance RestingCard_machine : RtlMachine RestingCard := {|
  rtl_ports := {|
    inb := fun _ w => (w, 0); outb := fun _ _ w => w; inw := fun _ w => (w, 1);
    outw := fun a v w => {| card_io := (a, v) :: card_io w |};
    in32 := fun _ w => (w, TX_HOST_OWNS); out32 := fun a v w => {| card_io := (a, v) :: card_io w |} |};
  PAGES_at := 0x100000;
  card_writes := fun w ring => (w, ring) |}.

#[export] Instance RestingCard_card : RtlCard RestingCard.
Proof. split. by intros w ring Hl Hb. Qed.

Definition ring_frames : list bytes := [replicate 60 65; replicate 61 66].
Definition enc (f : bytes) : bytes :=
  [1; 0] ++ to_le 2 (Z.of_nat (length f + 4)) ++ f ++ [9; 9; 9; 9] ++ replicate ((4 - length f `mod` 4) `mod` 4) 0.

Definition ring_r : Rtl8139 := {|
  io := 0xC000; rtl_skew := None; rtl_mac := [2; 0; 0; 0; 0; 1]; rtl_rx_packets := 0; cur_rx := RX_BUF_SIZE - 140; tx_slot := 0 |}.
Definition ring_p : RtlPages := PAGES_zero <| rx := replicate (RX_BUF_SIZE - 140) 0 ++ concat (map enc ring_frames) |>.

Lemma enc_entry f : entry f (enc f).
Proof.
  exists 1, 0, [9; 9; 9; 9], (replicate ((4 - length f `mod` 4) `mod` 4) 0).
  pose proof (Nat.mod_upper_bound (length f) 4 ltac:(done)) as Hm. pose proof (Nat.div_mod_eq (length f) 4) as Hd.
  assert (exists k, (4 - length f `mod` 4) `mod` 4 + length f = 4 * k)%nat as [k Hk].
  { destruct (decide (length f `mod` 4 = 0)%nat) as [E|E]; [rewrite E|rewrite (Nat.mod_small (4 - _)) by lia].
    - exists (length f / 4)%nat. change ((4 - 0) `mod` 4)%nat with 0%nat. lia.
    - exists (length f / 4 + 1)%nat. lia. }
  split_and!; try done; [rewrite length_replicate; by apply Nat.mod_upper_bound|].
  apply Nat.Div0.mod_divides. exists (k + 2)%nat. unfold enc. rewrite !length_app, length_to_le, length_replicate. cbn [length]. lia.
Qed.

Lemma ring_p_ok : pages_ok ring_p.
Proof.
  split_and!; [vm_compute; reflexivity| |vm_compute; reflexivity|by repeat constructor].
  apply (bool_decide_unpack _). vm_compute. exact I.
Qed.

Lemma rtl8139_frames_delivered_witness :
  exists r' w' p', polls 2 (replicate 2048 0) ring_r {| card_io := [] |} ring_p = (w', Ret (r', p', ring_frames)) /\
    cur_rx r' = 0%nat.
Proof.
  destruct (rtl8139_frames_delivered (replicate 2048 0) ring_frames (map enc ring_frames) ring_r {| card_io := [] |} ring_p)
    as (r' & w' & p' & E & _ & Hc).
  - exact ring_p_ok.
  - apply Nat.ltb_lt. vm_compute. reflexivity.
  - apply Nat.leb_le. vm_compute. reflexivity.
  - intros w ring _. reflexivity.
  - repeat constructor; apply enc_entry.
  - repeat (constructor; [split; [apply (bool_decide_unpack _); vm_compute; exact I|split; [split|]; apply Nat.leb_le; vm_compute; reflexivity]|]). constructor.
  - vm_compute. reflexivity.
  - exists r', w', p'. split; [exact E|]. rewrite Hc. vm_compute. reflexivity.
Defined.

Lemma rtl8139_safe_witness :
  exists r' w' p' ok, transmit ring_r [1; 2; 3] {| card_io := [] |} ring_p = (w', Ret (r', p', ok)) /\
    pages_ok p' /\ (transmit ring_r [1; 2; 3] {| card_io := [] |} ring_p).1 =
      {| card_io := [(0xC010, 3); (0xC020, 0x102000)] |}.
Proof.
  destruct (rtl8139_safe ring_r [] [1; 2; 3] {| card_io := [] |} ring_p) as [_ (r' & w' & p' & ok & E & Hp & _)].
  - exact ring_p_ok.
  - apply Nat.ltb_lt. vm_compute. reflexivity.
  - exists r', w', p', ok. split; [exact E|split; [exact Hp|vm_compute; reflexivity]].
Defined.

(** A frame of 100 bytes 60 bytes before the end of the ring stops reception. *)
Example blocked_at_end : blocked 2048 (RX_BUF_SIZE - 60) (replicate (RX_BUF_SIZE - 60) 0 ++ take 60 (enc (replicate 100 65))).
Proof.
  right. exists 1, 0, 104, 0. split; [vm_compute; reflexivity|]. vm_compute. lia.
Qed.
