(* ===== verification/E1000.v ===== *)
(** * The Intel gigabit driver ([kernel/src/e1000.rs])

    Memory-mapped registers, a ring of 32 receive descriptors and one of 8
    transmit descriptors, each with its buffer, in pages shared with the card:
    [card] is what the card does to them before the driver looks.  Reads of the
    pages are plain loads in the source; the model reads them each time they are
    written down.  [E1000Ok.v] has the theorems. *)

From S2P Require Import Prelude Ports Pci VirtioBlk VirtioNet.

Definition INTEL_VENDOR : Z := 0x8086.
Definition E1000_LEGACY_DIDS : list Z :=
  [0x100E; 0x100F; 0x101E; 0x1008; 0x1004; 0x10D3; 0x15A0; 0x15A2; 0x15A3].

Definition REG_CTRL : Z := 0x0000.
Definition REG_STATUS : Z := 0x0008.
Definition REG_IMC : Z := 0x00D8.
Definition REG_RCTL : Z := 0x0100.
Definition REG_TCTL : Z := 0x0400.
Definition REG_TIPG : Z := 0x0410.
Definition REG_RDBAL : Z := 0x2800.
Definition REG_RDBAH : Z := 0x2804.
Definition REG_RDLEN : Z := 0x2808.
Definition REG_RDH : Z := 0x2810.
Definition REG_RDT : Z := 0x2818.
Definition REG_TDBAL : Z := 0x3800.
Definition REG_TDBAH : Z := 0x3804.
Definition REG_TDLEN : Z := 0x3808.
Definition REG_TDH : Z := 0x3810.
Definition REG_TDT : Z := 0x3818.
Definition REG_RAL0 : Z := 0x5400.
Definition REG_RAH0 : Z := 0x5404.

Definition CTRL_SLU : Z := Z.shiftl 1 5.
Definition RCTL_EN : Z := Z.shiftl 1 1.
Definition RCTL_SBP : Z := Z.shiftl 1 2.
Definition RCTL_MPE : Z := Z.shiftl 1 4.
Definition RCTL_BAM : Z := Z.shiftl 1 15.
Definition RCTL_SECRC : Z := Z.shiftl 1 26.
Definition TCTL_EN : Z := Z.shiftl 1 1.
Definition TCTL_PSP : Z := Z.shiftl 1 3.
Definition TCTL_CT : Z := Z.shiftl 0x10 4.
Definition TCTL_COLD : Z := Z.shiftl 0x40 12.
Definition TX_CMD_EOP : Z := Z.shiftl 1 0.
Definition TX_CMD_IFCS : Z := Z.shiftl 1 1.
Definition TX_CMD_RS : Z := Z.shiftl 1 3.
Definition RX_DD : Z := 1.
Definition TX_DD : Z := 1.
Definition NUM_RX : nat := 32.
Definition NUM_TX : nat := 8.
Definition RX_BUF : nat := 2048.
Definition TX_BUF : nat := 2048.

(** ** The shared pages *)

Record LegacyRxDesc := {
  rx_addr : Z; rx_length : Z; rx_checksum : Z; rx_status : Z; rx_errors : Z; rx_special : Z;
}.
#[export] Instance LegacyRxDesc_eta : Settable LegacyRxDesc := fun d =>
  Build_LegacyRxDesc d.(rx_addr) d.(rx_length) d.(rx_checksum) d.(rx_status) d.(rx_errors) d.(rx_special).
Definition rx_desc_zero : LegacyRxDesc := {|
  rx_addr := 0; rx_length := 0; rx_checksum := 0; rx_status := 0; rx_errors := 0; rx_special := 0 |}.

Record LegacyTxDesc := {
  tx_addr : Z; tx_length : Z; tx_cso : Z; tx_cmd : Z; tx_status : Z; tx_css : Z; tx_special : Z;
}.
#[export] Instance LegacyTxDesc_eta : Settable LegacyTxDesc := fun d =>
  Build_LegacyTxDesc d.(tx_addr) d.(tx_length) d.(tx_cso) d.(tx_cmd) d.(tx_status) d.(tx_css) d.(tx_special).
Definition tx_desc_zero : LegacyTxDesc := {|
  tx_addr := 0; tx_length := 0; tx_cso := 0; tx_cmd := 0; tx_status := 0; tx_css := 0; tx_special := 0 |}.

Record E1000Pages := {
  rx_ring : list LegacyRxDesc;
  tx_ring : list LegacyTxDesc;
  rx_buf : list bytes;
  tx_buf : list bytes;
}.
#[export] Instance E1000Pages_eta : Settable E1000Pages := fun p =>
  Build_E1000Pages p.(rx_ring) p.(tx_ring) p.(rx_buf) p.(tx_buf).

Definition PAGES_zero : E1000Pages := {|
  rx_ring := replicate NUM_RX rx_desc_zero; tx_ring := replicate NUM_TX tx_desc_zero;
  rx_buf := replicate NUM_RX (replicate RX_BUF 0); tx_buf := replicate NUM_TX (replicate TX_BUF 0) |}.

(** Offsets in the [repr(C, align(4096))] layout. *)
Definition off_tx_desc : Z := 512.
Definition off_rx_buf (i : nat) : Z := 640 + Z.of_nat i * Z.of_nat RX_BUF.
Definition off_tx_buf (i : nat) : Z := off_rx_buf NUM_RX + Z.of_nat i * Z.of_nat TX_BUF.

Record E1000 := {
  mmio : Z;
  phys_skew : option Z;
  mac : bytes;
  rx_packets : Z;
  rx_cur : Z;
  tx_wait : option nat;
}.
#[export] Instance E1000_eta : Settable E1000 := fun n =>
  Build_E1000 n.(mmio) n.(phys_skew) n.(mac) n.(rx_packets) n.(rx_cur) n.(tx_wait).

(** [PAGES_at] is the address of the static. *)
Class E1000Machine (W : Type) := {
  e1_mmio :: Mmio W;
  PAGES_at : Z;
  card : W -> E1000Pages -> W * E1000Pages;
}.

Section driver.
Context {W : Type} `{E1000Machine W}.

(** ** Start-up *)

Definition bar0_mem (f : PciFn) (w : W) : W * option Z :=
  let '(w, raw) := read_u32 f 0x10 w in
  if decide (raw = 0 \/ raw = 0xFFFFFFFF \/ Z.land raw 1 <> 0) then (w, None)
  else
    let low := Z.land raw 0xFFFFFFF0 in
    let ty := Z.land (Z.shiftr raw 1) 3 in
    if decide (ty = 2) then
      let '(w, hi) := read_u32 f 0x14 w in (w, Some (Z.lor low (Z.shiftl hi 32)))
    else (w, if decide (ty = 0) then Some low else None).

Definition mac_of (ral rah : Z) : bytes :=
  [Z.land ral 0xFF; Z.land (Z.shiftr ral 8) 0xFF; Z.land (Z.shiftr ral 16) 0xFF; Z.land (Z.shiftr ral 24) 0xFF;
   Z.land rah 0xFF; Z.land (Z.shiftr rah 8) 0xFF].

(** The rings after the three initialising loops. *)
Definition init_rings (skew : option Z) (p : E1000Pages) : E1000Pages :=
  p <| rx_ring ::= imap (fun i _ => rx_desc_zero <| rx_addr := phys skew (PAGES_at + off_rx_buf i) |>) |>
    <| tx_ring ::= imap (fun i _ => tx_desc_zero <| tx_addr := phys skew (PAGES_at + off_tx_buf i) |>) |>.

(** The wait for the link. *)
Definition link_round (base : Z) (w : W) : W + W :=
  let '(w, st) := mm_r32 (base + REG_STATUS) w in
  if decide (Z.land st (Z.shiftl 1 1) <> 0) then inr w else inl w.

Definition wait_link (base : Z) (w : W) : W :=
  match for_upto (link_round base) 500000 w with inl w | inr w => w end.

(** The registers of the two rings. *)
Definition program_rings (base rdbal tdbal : Z) (w : W) : W :=
  let w := mm_w32 (base + REG_RDBAL) (wrap32 rdbal) w in
  let w := mm_w32 (base + REG_RDBAH) (wrap32 (Z.shiftr rdbal 32)) w in
  let w := mm_w32 (base + REG_RDLEN) (Z.of_nat NUM_RX * 16) w in
  let w := mm_w32 (base + REG_RDH) 0 w in
  let w := mm_w32 (base + REG_RDT) (Z.of_nat NUM_RX - 1) w in
  let w := mm_w32 (base + REG_TDBAL) (wrap32 tdbal) w in
  let w := mm_w32 (base + REG_TDBAH) (wrap32 (Z.shiftr tdbal 32)) w in
  let w := mm_w32 (base + REG_TDLEN) (Z.of_nat NUM_TX * 16) w in
  let w := mm_w32 (base + REG_TDH) 0 w in
  mm_w32 (base + REG_TDT) 0 w.

(** Link up, then receiver and transmitter on. *)
Definition switch_on (base : Z) (w : W) : W :=
  let w := mm_w32 (base + REG_TIPG) 0x0060200A w in
  let '(w, ctrl) := mm_r32 (base + REG_CTRL) w in
  let w := wait_link base (mm_w32 (base + REG_CTRL) (Z.lor ctrl CTRL_SLU) w) in
  let w := mm_w32 (base + REG_RCTL)
    (Z.lor (Z.lor (Z.lor (Z.lor RCTL_EN RCTL_SBP) RCTL_MPE) RCTL_BAM) RCTL_SECRC) w in
  let w := mm_w32 (base + REG_TCTL) (Z.lor (Z.lor (Z.lor TCTL_EN TCTL_PSP) TCTL_CT) TCTL_COLD) w in
  (mm_r32 (base + REG_STATUS) w).1.

Definition try_init (f : PciFn) (physical_memory_offset : option Z) (p : E1000Pages) (w : W) :
    W * (E1000Pages * option E1000) :=
  let w := pci_enable_mmio_bm f w in
  let '(w, bar) := bar0_mem f w in
  match bar with
  | None => (w, (p, None))
  | Some bar_phys =>
      let base := pci_mmio_kernel_addr physical_memory_offset bar_phys in
      let '(w, ctrl_probe) := mm_r32 (base + REG_CTRL) w in
      let '(w, status_probe) := mm_r32 (base + REG_STATUS) w in
      if decide (ctrl_probe = 0xFFFFFFFF \/ status_probe = 0xFFFFFFFF) then (w, (p, None))
      else
        let w := mm_w32 (base + REG_RCTL) 0 w in
        let w := mm_w32 (base + REG_TCTL) 0 w in
        let w := pci_enable_mmio_bm f w in
        let w := mm_w32 (base + REG_IMC) 0xFFFFFFFF w in
        let '(w, ral) := mm_r32 (base + REG_RAL0) w in
        let '(w, rah) := mm_r32 (base + REG_RAH0) w in
        let dev := {| mmio := base; phys_skew := physical_memory_offset; mac := mac_of ral rah;
                      rx_packets := 0; rx_cur := 0; tx_wait := None |} in
        let p := init_rings physical_memory_offset p in
        let w := program_rings base (phys physical_memory_offset PAGES_at)
          (phys physical_memory_offset (PAGES_at + off_tx_desc)) w in
        (switch_on base w, (p, Some dev))
  end.

Fixpoint probe_ids (dids : list Z) (physical_memory_offset : option Z) (p : E1000Pages) (w : W) :
    W * (E1000Pages * option E1000) :=
  match dids with
  | [] => (w, (p, None))
  | did :: dids =>
      let '(w, picked) := pick_function INTEL_VENDOR did w in
      match picked with
      | None => probe_ids dids physical_memory_offset p w
      | Some f =>
          let '(w, (p, dev)) := try_init f physical_memory_offset p w in
          match dev with
          | Some dev => (w, (p, Some dev))
          | None => probe_ids dids physical_memory_offset p w
          end
      end
  end.

Definition probe : option Z -> E1000Pages -> W -> W * (E1000Pages * option E1000) :=
  probe_ids E1000_LEGACY_DIDS.

(** ** Reception *)

(** The descriptor goes back to the card. *)
Definition give_back (n : E1000) (i : nat) (w : W) : W * E1000 :=
  (mm_w32 (mmio n + REG_RDT) (Z.of_nat i) w, n <| rx_cur := wrap64 (rx_cur n + 1) |>).

Definition poll_rx_packet (n : E1000) (out : bytes) (w : W) (p : E1000Pages) :
    W * rust (E1000 * E1000Pages * option nat * bytes) :=
  let '(w, p) := card w p in
  let i := Z.to_nat (rx_cur n mod Z.of_nat NUM_RX) in
  match rd (rx_ring p) i with
  | Panic => (w, Panic)
  | Ret d =>
      if decide (Z.land (rx_status d) RX_DD = 0) then (w, Ret (n, p, None, out))
      else
        let len := Nat.min (Z.to_nat (rx_length d)) RX_BUF in
        if decide (len = 0 \/ length out < len)%nat then
          match wr (rx_ring p) i (d <| rx_status := 0 |>) with
          | Panic => (w, Panic)
          | Ret r => let '(w, n) := give_back n i w in (w, Ret (n, p <| rx_ring := r |>, None, out))
          end
        else
          match
            b ← rd (rx_buf p) i;
            src ← sub b 0 len;
            out ← copy_at out 0 src;
            r ← wr (rx_ring p) i (d <| rx_status := 0 |> <| rx_length := 0 |>);
            Ret (out, r)
          with
          | Panic => (w, Panic)
          | Ret (out, r) =>
              let '(w, n) := give_back n i w in
              (w, Ret (n <| rx_packets ::= fun k => wrap64 (k + 1) |>, p <| rx_ring := r |>, Some len, out))
          end
  end.

(** ** Transmission *)

(** One round of a wait for the card to be done with a descriptor. *)
Definition dd_round (slot : nat) (st : W * E1000Pages) : (W * E1000Pages) + (W * rust E1000Pages) :=
  let '(w, p) := card st.1 st.2 in
  match rd (tx_ring p) slot with
  | Panic => inr (w, Panic)
  | Ret d => if decide (Z.land (tx_status d) TX_DD <> 0) then inr (w, Ret p) else inl (w, p)
  end.

Definition wait_dd (slot : nat) (w : W) (p : E1000Pages) : W * rust E1000Pages :=
  match for_upto (dd_round slot) 500000 (w, p) with
  | inl (w, p) => (w, Ret p)
  | inr r => r
  end.

(** A wait that is only entered if the descriptor is [busy]. *)
Definition await (busy : LegacyTxDesc -> bool) (slot : nat) (w : W) (p : E1000Pages) : W * rust E1000Pages :=
  let '(w, p) := card w p in
  match rd (tx_ring p) slot with
  | Panic => (w, Panic)
  | Ret d => if busy d then wait_dd slot w p else (w, Ret p)
  end.

Definition not_done (d : LegacyTxDesc) : bool := bool_decide (Z.land (tx_status d) TX_DD = 0).
Definition in_use (d : LegacyTxDesc) : bool :=
  bool_decide (Z.land (tx_status d) TX_DD = 0 /\ tx_cmd d <> 0).

(** The packet before, if there is one to wait for. *)
Definition reap (n : E1000) (w : W) (p : E1000Pages) : W * rust (E1000 * E1000Pages) :=
  match tx_wait n with
  | None => (w, Ret (n, p))
  | Some slot =>
      let '(w, r) := await not_done slot w p in
      (w, p ← r;
          d ← rd (tx_ring p) slot;
          t ← wr (tx_ring p) slot (d <| tx_status := 0 |>);
          Ret (n <| tx_wait := None |>, p <| tx_ring := t |>))
  end.

Definition tx_desc_of (addr : Z) (len : nat) : LegacyTxDesc := {|
  tx_addr := addr; tx_length := wrap16 (Z.of_nat len); tx_cso := 0;
  tx_cmd := Z.lor (Z.lor TX_CMD_EOP TX_CMD_IFCS) TX_CMD_RS; tx_status := 0; tx_css := 0; tx_special := 0 |}.

Definition fill_tx (n : E1000) (tdt : nat) (pkt : bytes) (p : E1000Pages) : rust E1000Pages :=
  b ← rd (tx_buf p) tdt;
  b ← copy_at b 0 pkt;
  bufs ← wr (tx_buf p) tdt b;
  t ← wr (tx_ring p) tdt (tx_desc_of (phys (phys_skew n) (PAGES_at + off_tx_buf tdt)) (length pkt));
  Ret (p <| tx_buf := bufs |> <| tx_ring := t |>).

Definition transmit (n : E1000) (pkt : bytes) (w : W) (p : E1000Pages) :
    W * rust (E1000 * E1000Pages * bool) :=
  match reap n w p with
  | (w, Panic) => (w, Panic)
  | (w, Ret (n, p)) =>
      if decide (length pkt = 0 \/ TX_BUF < length pkt)%nat then (w, Ret (n, p, false))
      else
        let '(w, tdt) := mm_r32 (mmio n + REG_TDT) w in
        let tdt := Z.to_nat (tdt mod Z.of_nat NUM_TX) in
        match await in_use tdt w p with
        | (w, Panic) => (w, Panic)
        | (w, Ret p) =>
            match fill_tx n tdt pkt p with
            | Panic => (w, Panic)
            | Ret p =>
                let w := mm_w32 (mmio n + REG_TDT) (Z.of_nat ((tdt + 1) `mod` NUM_TX)) w in
                (w, Ret (n <| tx_wait := Some tdt |>, p, true))
            end
        end
  end.
End driver.
