(* ===== verification/E1000Ok.v ===== *)
(** * What the Intel gigabit driver guarantees

    [card_step] is what the data sheet asks of the card: it fills the receive
    descriptors between its head and the tail the driver has set, and sends the
    packets of the transmit descriptors between head and tail.  Over such a card
    the driver of [E1000.v] refines two queues of frames. *)

From stdpp Require Import relations.
From S2P Require Import Prelude Ports Pci VirtioBlk VirtioNet NicDriver E1000.

(** ** The card *)

(** The frames to come, those sent, and the four indices of the card. *)
Record Wire := { incoming : list bytes; sent : list bytes; rdh : nat; rdt : nat; tdh : nat; tdt : nat }.
#[export] Instance Wire_eta : Settable Wire := fun x =>
  Build_Wire x.(incoming) x.(sent) x.(rdh) x.(rdt) x.(tdh) x.(tdt).

(** Where a card is: its registers, and the addresses of the buffers. *)
Record Place := { at_mmio : Z; at_rx : nat -> Z; at_tx : nat -> Z }.

Definition rx_fill (dd : LegacyRxDesc) (st ck er sp : Z) (f : bytes) : LegacyRxDesc := {|
  rx_addr := rx_addr dd; rx_length := Z.of_nat (length f); rx_checksum := ck; rx_status := st;
  rx_errors := er; rx_special := sp |}.

Definition next_of (n i : nat) : nat := (S i `mod` n)%nat.

Inductive card_step (d : Place) : Wire * E1000Pages -> Wire * E1000Pages -> Prop :=
  | receives x p f fs dd b st ck er sp :
      rdh x <> rdt x -> incoming x = f :: fs -> (0 < length f <= RX_BUF)%nat ->
      rx_ring p !! rdh x = Some dd -> rx_addr dd = at_rx d (rdh x) -> rx_buf p !! rdh x = Some b ->
      Z.land st RX_DD <> 0 ->
      card_step d (x, p)
        (x <| incoming := fs |> <| rdh := next_of NUM_RX (rdh x) |>,
         p <| rx_ring ::= <[rdh x := rx_fill dd st ck er sp f]> |>
           <| rx_buf ::= <[rdh x := f ++ drop (length f) b]> |>)
  | sends x p dd b st :
      tdh x <> tdt x -> tx_ring p !! tdh x = Some dd -> tx_addr dd = at_tx d (tdh x) ->
      Z.land (tx_cmd dd) (Z.lor TX_CMD_EOP TX_CMD_RS) = Z.lor TX_CMD_EOP TX_CMD_RS ->
      tx_buf p !! tdh x = Some b -> Z.land st TX_DD <> 0 ->
      card_step d (x, p)
        (x <| sent ::= fun l => l ++ [take (Z.to_nat (tx_length dd)) b] |> <| tdh := next_of NUM_TX (tdh x) |>,
         p <| tx_ring ::= <[tdh x := dd <| tx_status := st |>]> |>).

(** What the driver owes the card: buffers where the descriptors say. *)
Definition rings_ok (d : Place) (x : Wire) (p : E1000Pages) : Prop :=
  (forall i dd, rx_ring p !! i = Some dd -> rx_addr dd = at_rx d i) /\
  (tdh x = tdt x \/ tdt x = next_of NUM_TX (tdh x) /\ exists dd b, tx_ring p !! tdh x = Some dd /\
    tx_buf p !! tdh x = Some b /\ tx_addr dd = at_tx d (tdh x) /\ tx_cmd dd = Z.lor (Z.lor TX_CMD_EOP TX_CMD_IFCS) TX_CMD_RS /\
    0 < tx_length dd <= Z.of_nat TX_BUF).

Fixpoint looks {W} `{E1000Machine W} (j : nat) (st : W * E1000Pages) : W * E1000Pages :=
  match j with O => st | S j => looks j (card st.1 st.2) end.

Class E1000Device (W : Type) `{E1000Machine W} (d : Place) := {
  wire : W -> Wire;
  card_steps w p : rings_ok d (wire w) p -> rtc (card_step d) (wire w, p) (wire (card w p).1, (card w p).2);
  write_rdt w i : (i < NUM_RX)%nat -> wire (mm_w32 (at_mmio d + REG_RDT) (Z.of_nat i) w) = (wire w) <| rdt := i |>;
  write_tdt w i : (i < NUM_TX)%nat -> wire (mm_w32 (at_mmio d + REG_TDT) (Z.of_nat i) w) = (wire w) <| tdt := i |>;
  read_tdt w : wire (mm_r32 (at_mmio d + REG_TDT) w).1 = wire w /\
    (mm_r32 (at_mmio d + REG_TDT) w).2 = Z.of_nat (tdt (wire w));
  (** A posted packet is sent within the driver's patience. *)
  serves w p : rings_ok d (wire w) p -> exists k, (k <= 500 * 1000)%nat /\
    tdh (wire (looks k (w, p)).1) = tdt (wire w);
}.

(** ** The driver's state *)

Definition placed {W} `{E1000Machine W} (d : Place) (n : E1000) : Prop :=
  mmio n = at_mmio d /\
  (forall i, phys (phys_skew n) (PAGES_at + off_rx_buf i) = at_rx d i) /\
  (forall i, phys (phys_skew n) (PAGES_at + off_tx_buf i) = at_tx d i).

Definition pages_shape (p : E1000Pages) : Prop :=
  length (rx_ring p) = NUM_RX /\ length (tx_ring p) = NUM_TX /\
  length (rx_buf p) = NUM_RX /\ Forall (fun b => length b = RX_BUF) (rx_buf p) /\
  length (tx_buf p) = NUM_TX /\ Forall (fun b => length b = TX_BUF) (tx_buf p).

(** A receive descriptor with its buffer: the frame in it, if the card is done. *)
Definition rx_cell (dd : LegacyRxDesc) (b : bytes) : option bytes :=
  if decide (Z.land (rx_status dd) RX_DD = 0) then None else Some (take (Z.to_nat (rx_length dd)) b).

Definition rx_cells (p : E1000Pages) : list (option bytes) := zip_with rx_cell (rx_ring p) (rx_buf p).

Definition rx_at (n : E1000) : nat := cell_of NUM_RX (rx_cur n).

Definition frame_ok (f : bytes) : Prop := (0 < length f <= RX_BUF)%nat.

(** The receive side holds [held]. *)
Definition rx_rep (d : Place) (n : E1000) (x : Wire) (p : E1000Pages) (held : list bytes) : Prop :=
  ring NUM_RX (rx_at n) held (rx_cells p) /\ (length held < NUM_RX)%nat /\ Forall frame_ok held /\
  rdh x = ((rx_at n + length held) `mod` NUM_RX)%nat /\ rdt x = ((rx_at n + (NUM_RX - 1)) `mod` NUM_RX)%nat /\
  (forall i dd, rx_ring p !! i = Some dd -> rx_addr dd = at_rx d i).

(** The descriptor of a packet in flight. *)
Definition posted (d : Place) (p : E1000Pages) (s : nat) (pkt : bytes) : Prop :=
  exists dd b, tx_ring p !! s = Some dd /\ tx_buf p !! s = Some b /\ tx_addr dd = at_tx d s /\
    tx_cmd dd = Z.lor (Z.lor TX_CMD_EOP TX_CMD_IFCS) TX_CMD_RS /\ Z.land (tx_status dd) TX_DD = 0 /\
    tx_length dd = Z.of_nat (length pkt) /\ (0 < length pkt <= TX_BUF)%nat /\ take (length pkt) b = pkt.

Definition finished (p : E1000Pages) (s : nat) : Prop :=
  exists dd, tx_ring p !! s = Some dd /\ Z.land (tx_status dd) TX_DD <> 0.

(** The transmit side has [flight] under way. *)
Definition tx_rep (d : Place) (n : E1000) (x : Wire) (p : E1000Pages) (flight : list bytes) : Prop :=
  (tdt x < NUM_TX)%nat /\
  match tx_wait n with
  | None => tdh x = tdt x /\ flight = []
  | Some s => (s < NUM_TX)%nat /\ tdt x = next_of NUM_TX s /\
      (tdh x = s /\ (exists pkt, posted d p s pkt /\ flight = [pkt]) \/
       tdh x = tdt x /\ finished p s /\ flight = [])
  end.

Definition rep (d : Place) (n : E1000) (x : Wire) (p : E1000Pages) (ins outs : list bytes) : Prop :=
  pages_shape p /\ (exists held, rx_rep d n x p held /\ ins = held ++ incoming x) /\
  (exists flight, tx_rep d n x p flight /\ outs = sent x ++ flight).

(** The two queues, read off the state. *)
Definition ins_of (n : E1000) (x : Wire) (p : E1000Pages) : list bytes :=
  run_of NUM_RX (rx_cells p) (rx_at n) NUM_RX ++ incoming x.

Definition outs_of (x : Wire) (p : E1000Pages) : list bytes :=
  sent x ++
  (if decide (tdh x = tdt x) then []
   else match tx_ring p !! tdh x, tx_buf p !! tdh x with
        | Some dd, Some b => [take (Z.to_nat (tx_length dd)) b]
        | _, _ => []
        end).

Lemma next_of_ne i : (i < NUM_TX)%nat -> next_of NUM_TX i <> i /\ (next_of NUM_TX i < NUM_TX)%nat.
Proof.
  intros Hi. unfold next_of, NUM_TX in *. split; [|by apply Nat.mod_upper_bound].
  destruct (decide (i = 7)%nat) as [->|]; [done|]. rewrite Nat.mod_small; lia.
Qed.

Lemma e1000_rep_queues d n x p ins outs : rep d n x p ins outs -> ins_of n x p = ins /\ outs_of x p = outs.
Proof.
  intros (_ & (held & (Hring & _) & ->) & flight & (Hlt & Htx) & ->). unfold ins_of, outs_of.
  rewrite (run_of_ring _ _ _ _ Hring). split; [done|]. f_equal.
  destruct (tx_wait n) as [s|]; [|destruct Htx as [-> ->]; by rewrite decide_True].
  destruct Htx as (Hs & Et & [(Eh & pkt & (dd & b & Edd & Eb & _ & _ & _ & El & _ & Epkt) & ->)|(Eh & _ & ->)]);
    [|by rewrite decide_True].
  rewrite Eh, decide_False by (rewrite Et; intros E; by apply (next_of_ne s)).
  by rewrite Edd, Eb, El, Nat2Z.id, Epkt.
Qed.

(** ** The card's steps *)

Lemma mod_succ N a : (0 < N)%nat -> next_of N (a `mod` N) = (S a `mod` N)%nat.
Proof. intros HN. unfold next_of. rewrite <-!Nat.add_1_l. by rewrite Nat.Div0.add_mod_idemp_r. Qed.

(** A frame arrives in the next cell. *)
Lemma rx_rep_step d n x p f held dd b st ck er sp :
  pages_shape p -> rx_rep d n x p held -> rdh x <> rdt x -> (0 < length f <= RX_BUF)%nat ->
  rx_ring p !! rdh x = Some dd -> rx_buf p !! rdh x = Some b -> Z.land st RX_DD <> 0 ->
  let p' := p <| rx_ring ::= <[rdh x := rx_fill dd st ck er sp f]> |>
              <| rx_buf ::= <[rdh x := f ++ drop (length f) b]> |> in
  pages_shape p' /\ rx_rep d n (x <| rdh := next_of NUM_RX (rdh x) |>) p' (held ++ [f]).
Proof.
  intros (L1 & L2 & L3 & L4 & L5 & L6) (Hring & Hlen & Hok & Eh & Et & Ha) Hne Hf Edd Eb Hst p'.
  assert (length b = RX_BUF) as Lb by (by eapply Forall_lookup_1 in L4).
  assert (length held < NUM_RX - 1)%nat as Hroom.
  { destruct (decide (length held = NUM_RX - 1)%nat) as [E|]; [|lia]. rewrite E in Eh. congruence. }
  split.
  - split_and!; cbn; rewrite ?length_insert; try done. apply Forall_insert; [done|].
    rewrite length_app, length_drop. lia.
  - unfold rx_rep. cbn [rdh rdt p' incoming]. split_and!; try done.
    + apply ring_push_cells; [done|lia|done|]. unfold rx_cell, rx_fill. cbn.
      rewrite decide_False by done. by rewrite Nat2Z.id, take_app_length.
    + rewrite length_app. cbn [length]. lia.
    + apply Forall_app. split; [done|]. by apply Forall_singleton.
    + rewrite Eh, mod_succ by (unfold NUM_RX; lia). rewrite length_app. cbn [length].
      by replace (rx_at n + (length held + 1))%nat with (S (rx_at n + length held)) by lia.
    + intros i dd'. cbn. destruct (decide (i = rdh x)) as [->|Hi].
      * rewrite list_lookup_insert_eq by (apply lookup_lt_Some in Edd; lia). intros [= <-]. cbn. by apply Ha.
      * rewrite list_lookup_insert_ne by done. apply Ha.
Qed.

Lemma e1000_rep_step d n x p x' p' ins outs :
  rep d n x p ins outs -> card_step d (x, p) (x', p') -> rep d n x' p' ins outs.
Proof.
  intros (Hsh & (held & Hrx & ->) & flight & Htx & ->) Hstep.
  inversion Hstep as [? ? f fs dd b st ck er sp Hne Ein Hf Edd Ea Eb Hst|? ? dd b st Hne Edd Ea Hcmd Eb Hst]; subst.
  - destruct (rx_rep_step d n x p f held dd b st ck er sp Hsh Hrx Hne Hf Edd Eb Hst) as [Hsh' Hrx'].
    split; [done|]. split; [exists (held ++ [f])|exists flight].
    + split; [exact Hrx'|]. by rewrite Ein, <-app_assoc.
    + split; [|done]. exact Htx.
  - destruct Hsh as (L1 & L2 & L3 & L4 & L5 & L6), Htx as [Hlt Htx].
    split; [split_and!; cbn; by rewrite ?length_insert|].
    split; [exists held; split; [exact Hrx|done]|].
    destruct (tx_wait n) as [s|] eqn:Ew; [|by destruct Htx].
    destruct Htx as (Hs & Et & [(Eh & pkt & (dd' & b' & Edd' & Eb' & _ & _ & _ & El & _ & Epkt) & ->)|(Eh & _)]); [|done].
    subst s. rewrite Edd in Edd'. rewrite Eb in Eb'. injection Edd' as <-. injection Eb' as <-.
    exists []. split; [|cbn; by rewrite El, Nat2Z.id, Epkt, app_nil_r]. split; [done|]. rewrite Ew. cbn [tdt tdh tx_ring].
    split; [done|]. split; [done|]. right. split; [by rewrite Et|]. split; [|done].
    exists (dd <| tx_status := st |>). cbn. split; [|done]. rewrite list_lookup_insert_eq; [done|].
    apply lookup_lt_Some in Edd. lia.
Qed.

Lemma rep_owed d n x p ins outs : rep d n x p ins outs -> rings_ok d x p.
Proof.
  intros (_ & (held & (_ & _ & _ & _ & _ & Ha) & _) & flight & (_ & Htx) & _). split; [done|].
  destruct (tx_wait n) as [s|]; [|left; by destruct Htx].
  destruct Htx as (Hs & Et & [(Eh & pkt & (dd & b & Edd & Eb & Ea & Ec & _ & El & Hl & _) & _)|(Eh & _)]); [right|by left].
  rewrite Eh. split; [done|]. exists dd, b. split_and!; [done..|lia|lia].
Qed.

(** What every step keeps, all of them keep. *)
Lemma steps_keep {d} (I : Wire -> E1000Pages -> Prop) x p x' p' :
  (forall x p x' p', I x p -> card_step d (x, p) (x', p') -> I x' p') ->
  rtc (card_step d) (x, p) (x', p') -> I x p -> I x' p'.
Proof.
  intros Hst Hs. remember (x, p) as s eqn:Es. remember (x', p') as s' eqn:Es'. revert x p Es.
  induction Hs as [s|s [x1 p1] s' Hst1 _ IH]; intros x p Es Hi; subst.
  - by injection Es as <- <-.
  - apply (IH eq_refl x1 p1 eq_refl). by apply (Hst x p).
Qed.

Section guarantees.
Context {W : Type} `{E1000Device W d}.
Implicit Types (w : W) (n : E1000) (p : E1000Pages).

Lemma e1000_look_rep n w p ins outs : rep d n (wire w) p ins outs ->
  rep d n (wire (card w p).1) (card w p).2 ins outs.
Proof.
  intros Hr. pose proof (card_steps w p (rep_owed _ _ _ _ _ _ Hr)) as Hs.
  by apply (steps_keep (fun x p => rep d n x p ins outs) _ _ _ _ (fun x p x' p' => e1000_rep_step d n x p x' p' ins outs) Hs).
Qed.

Lemma look_tdt n w p ins outs : rep d n (wire w) p ins outs -> tdt (wire (card w p).1) = tdt (wire w).
Proof.
  intros Hr. pose proof (card_steps w p (rep_owed _ _ _ _ _ _ Hr)) as Hs.
  refine (steps_keep (fun x _ => tdt x = tdt (wire w)) _ _ _ _ _ Hs eq_refl).
  intros x p0 x' p0' Hx Hst. rewrite <-Hx. by inversion Hst.
Qed.

(** ** Reception *)

Lemma e1000_rx_at_next n : rx_at (n <| rx_cur := wrap64 (rx_cur n + 1) |>) = (S (rx_at n) `mod` NUM_RX)%nat.
Proof. apply cell_of_next; [unfold NUM_RX; lia|by exists (2 ^ 59)]. Qed.

(** The first frame leaves the ring. *)
Lemma rx_rep_pop n x p f held dd dd' b :
  pages_shape p -> rx_rep d n x p (f :: held) ->
  rx_ring p !! rx_at n = Some dd -> rx_buf p !! rx_at n = Some b ->
  rx_status dd' = 0 -> rx_addr dd' = rx_addr dd ->
  let p' := p <| rx_ring := <[rx_at n := dd']> (rx_ring p) |> in
  pages_shape p' /\
  rx_rep d (n <| rx_cur := wrap64 (rx_cur n + 1) |>) (x <| rdt := rx_at n |>) p' held.
Proof.
  intros (L1 & L2 & L3 & L4 & L5 & L6) (Hring & Hlen & Hok & Eh & Et & Ha) Edd Eb Hst Hadd p'.
  assert (rx_at n < NUM_RX)%nat as Hlt by (apply lookup_lt_Some in Edd; lia).
  split; [split_and!; cbn; by rewrite ?length_insert|].
  unfold rx_rep. rewrite e1000_rx_at_next. cbn [length rdh rdt p'] in *. apply Forall_cons in Hok as [_ Hok]. split_and!.
  - apply ring_mod; [unfold NUM_RX; lia|].
    eapply ring_pop_cells; [exact Hring|by rewrite Nat.mod_small|exact Eb|]. unfold rx_cell. by rewrite Hst, decide_True.
  - lia.
  - done.
  - rewrite Nat.Div0.add_mod_idemp_l. cbn. rewrite Eh. by rewrite <-Nat.add_succ_comm.
  - rewrite Nat.Div0.add_mod_idemp_l. replace (S (rx_at n) + (NUM_RX - 1))%nat with (rx_at n + 1 * NUM_RX)%nat by (unfold NUM_RX; lia).
    by rewrite Nat.Div0.mod_add, Nat.mod_small.
  - intros i d0. cbn. destruct (decide (i = rx_at n)) as [->|Hi].
    + rewrite list_lookup_insert_eq by lia. intros [= <-]. rewrite Hadd. by apply Ha.
    + rewrite list_lookup_insert_ne by done. apply Ha.
Qed.

(** Handing a descriptor back, after its frame was taken or dropped. *)
Lemma give_back_ok n w p f held dd dd' b outs flight :
  placed d n -> pages_shape p -> rx_rep d n (wire w) p (f :: held) -> tx_rep d n (wire w) p flight ->
  outs = sent (wire w) ++ flight -> rx_ring p !! rx_at n = Some dd -> rx_buf p !! rx_at n = Some b ->
  rx_status dd' = 0 -> rx_addr dd' = rx_addr dd ->
  exists w' n', give_back n (rx_at n) w = (w', n') /\ placed d n' /\ tx_wait n' = tx_wait n /\
    rep d n' (wire w') (p <| rx_ring := <[rx_at n := dd']> (rx_ring p) |>) (held ++ incoming (wire w)) outs.
Proof.
  intros Hp Hsh Hrx Htx -> Edd Eb Hst Hadd. unfold give_back.
  destruct (rx_rep_pop n _ p f held dd dd' b Hsh Hrx Edd Eb Hst Hadd) as [Hsh' Hrx'].
  eexists _, _. split; [reflexivity|]. split; [exact Hp|]. split; [done|].
  assert (rx_at n < NUM_RX)%nat as Hlt by (apply cell_of_lt; unfold NUM_RX; lia).
  rewrite (proj1 Hp), write_rdt by done.
  split; [exact Hsh'|]. split; [by exists held|]. exists flight. split; [exact Htx|done].
Qed.

Lemma e1000_poll_ok n room w p ins outs : placed d n -> rep d n (wire w) p ins outs ->
  exists n' w' p' r out ins', poll_rx_packet n room w p = (w', Ret (n', p', r, out)) /\
    placed d n' /\ rep d n' (wire w') p' ins' outs /\ takes ins ins' room r out /\ tx_wait n' = tx_wait n.
Proof.
  intros Hp Hr. unfold poll_rx_packet. pose proof (e1000_look_rep n w p ins outs Hr) as Hr1.
  destruct (card w p) as [w1 p1]. cbn [fst snd] in Hr1. clear Hr w p. fold (cell_of NUM_RX (rx_cur n)). fold (rx_at n).
  pose proof Hr1 as (Hsh & (held & Hrx & ->) & flight & Htx & Eouts).
  pose proof Hsh as (L1 & _ & L3 & L4 & _). pose proof Hrx as (Hring & Hlen & Hok & _).
  assert (rx_at n < NUM_RX)%nat as Hlt by (apply cell_of_lt; unfold NUM_RX; lia).
  pose proof (ring_first NUM_RX _ _ _ Hring ltac:(unfold NUM_RX; lia)) as Hcell. rewrite Nat.mod_small in Hcell by done.
  apply lookup_zip_with_Some in Hcell as (dd & b & Ecell & Edd & Eb). unfold rx_cell in Ecell.
  rewrite (rd_lookup _ _ _ Edd). case_decide as Hdd.
  { exists n, w1, p1, None, room, (held ++ incoming (wire w1)). split_and!; try done. constructor. }
  destruct held as [|f held]; [done|]. injection Ecell as Ef. apply Forall_cons in Hok as [Hf _].
  assert (length b = RX_BUF) as Lb by (by eapply Forall_lookup_1 in L4).
  assert (Nat.min (Z.to_nat (rx_length dd)) RX_BUF = length f) as Elen by (rewrite Ef, length_take; lia).
  rewrite Elen. cbv zeta. unfold frame_ok in Hf. case_decide as Hroom.
  - rewrite wr_ok by lia.
    edestruct (give_back_ok n w1 p1 f held dd (dd <| rx_status := 0 |>) b) as (w' & n' & -> & Hp' & Hw & Hr');
      [done..|]. eexists n', w', _, None, room, _. split; [reflexivity|]. split_and!; [done|exact Hr'| |done].
    apply takes_dropped. lia.
  - rewrite (rd_lookup _ _ _ Eb), bind_ret, sub_ok, bind_ret, copy_at_ok, bind_ret, wr_ok, bind_ret by (rewrite ?length_slice; lia).
    edestruct (give_back_ok n w1 p1 f held dd (dd <| rx_status := 0 |> <| rx_length := 0 |>) b)
      as (w' & n' & -> & Hp' & Hw & Hr'); [done..|].
    eexists _, w', _, _, _, _. split; [reflexivity|]. split; [exact Hp'|]. split; [exact Hr'|]. split; [|done].
    assert (slice b 0 (length f) = f) as ->.
    { by rewrite slice_0, Ef, length_take, <-take_take, (take_ge b) by lia. }
    rewrite inserts_split, take_0 by lia. apply (takes_frame f _ room f); [done|lia|done].
Qed.

(** ** Transmission *)

Lemma rep_slot n x p ins outs s : rep d n x p ins outs -> (s < NUM_TX)%nat -> exists dd, tx_ring p !! s = Some dd.
Proof. intros ((_ & L & _) & _) Hs. apply lookup_lt_is_Some_2. lia. Qed.

(** A packet in flight is seen to be done. *)
Lemma wait_rounds k n w p ins outs s :
  tx_wait n = Some s -> rep d n (wire w) p ins outs -> ~ finished p s ->
  tdh (wire (looks k (w, p)).1) = next_of NUM_TX s -> exists j w' p', (j <= k)%nat /\
    for_nat (dd_round s) j (w, p) = inr (w', Ret p') /\ rep d n (wire w') p' ins outs /\ finished p' s.
Proof.
  intros Hn. revert w p. induction k as [|k IH]; intros w p Hr Hnf Hk.
  - cbn [looks fst] in Hk. destruct Hr as (_ & _ & flight & (_ & Htx) & _). rewrite Hn in Htx.
    destruct Htx as (Hs & Et & [(Eh & _)|(_ & Hf & _)]); [|done]. exfalso. apply (proj1 (next_of_ne s Hs)). congruence.
  - pose proof (e1000_look_rep n w p ins outs Hr) as Hr1. cbn [looks fst snd] in Hk.
    assert (s < NUM_TX)%nat as Hs.
    { destruct Hr as (_ & _ & flight & (_ & Htx) & _). rewrite Hn in Htx. apply Htx. }
    destruct (card w p) as [w1 p1] eqn:E. cbn [fst snd] in Hr1.
    destruct (rep_slot _ _ _ _ _ s Hr1 Hs) as [dd Edd].
    destruct (decide (Z.land (tx_status dd) TX_DD = 0)) as [Hd|Hd].
    + destruct (IH w1 p1 Hr1) as (j & w' & p' & Hj & El & Hr' & Hf); [|done|].
      { intros (dd' & Edd' & Hd'). rewrite Edd in Edd'. injection Edd' as <-. done. }
      exists (S j), w', p'. split; [lia|]. rewrite for_nat_S. unfold dd_round at 1. cbn [fst snd].
      rewrite E, (rd_lookup _ _ _ Edd), decide_False by (intros Hx; by apply Hx). done.
    + exists 1%nat, w1, p1. split; [lia|]. cbn. unfold dd_round. cbn [fst snd].
      rewrite E, (rd_lookup _ _ _ Edd), decide_True by done. split_and!; try done. by exists dd.
Qed.

Lemma await_done n w p ins outs s : tx_wait n = Some s -> rep d n (wire w) p ins outs ->
  exists w' p', await not_done s w p = (w', Ret p') /\ rep d n (wire w') p' ins outs /\ finished p' s.
Proof.
  intros Hn Hr. unfold await. pose proof (e1000_look_rep n w p ins outs Hr) as Hr1.
  destruct (card w p) as [w1 p1]. cbn [fst snd] in Hr1. clear Hr w p.
  pose proof Hr1 as (_ & _ & flight & (_ & Htx) & _). rewrite Hn in Htx. destruct Htx as (Hs & Et & _).
  destruct (rep_slot _ _ _ _ _ s Hr1 Hs) as [dd Edd]. rewrite (rd_lookup _ _ _ Edd). unfold not_done. case_bool_decide as Hd.
  - destruct (serves w1 p1 (rep_owed _ _ _ _ _ _ Hr1)) as (k & Hk & Hserved). rewrite Et in Hserved.
    destruct (wait_rounds k n w1 p1 ins outs s) as (j & w' & p' & Hj & El & Hr' & Hf); [done|done| |done|].
    { intros (dd' & Edd' & Hd'). rewrite Edd in Edd'. injection Edd' as <-. done. }
    exists w', p'. unfold wait_dd. by rewrite (for_upto_exit _ 500000 j _ _ ltac:(lia) El).
  - exists w1, p1. split_and!; try done. by exists dd.
Qed.

Lemma reap_ok n w p ins outs : placed d n -> rep d n (wire w) p ins outs -> exists n' w' p',
  reap n w p = (w', Ret (n', p')) /\ tx_wait n' = None /\ placed d n' /\ rep d n' (wire w') p' ins outs.
Proof.
  intros Hp Hr. unfold reap. destruct (tx_wait n) as [s|] eqn:Hn; [|by exists n, w, p].
  destruct (await_done n w p ins outs s Hn Hr) as (w1 & p1 & -> & Hr1 & dd & Edd & Hdd). clear Hr w p.
  pose proof Hr1 as ((L1 & L2 & L3 & L4 & L5 & L6) & (held & Hrx & ->) & flight & (Hlt & Htx) & ->).
  rewrite Hn in Htx. destruct Htx as (Hs & Et & Hcase).
  rewrite bind_ret, (rd_lookup _ _ _ Edd), bind_ret, wr_ok, bind_ret by lia.
  eexists _, w1, _. split; [reflexivity|]. split; [done|]. split; [done|].
  split; [split_and!; cbn; by rewrite ?length_insert|]. split; [by exists held|]. exists flight. split; [|done].
  split; [done|]. cbn. destruct Hcase as [(_ & pkt & (dd' & b & Edd' & _ & _ & _ & Hz & _) & _)|(? & _ & ?)]; [|done].
  rewrite Edd in Edd'. injection Edd' as <-. done.
Qed.

(** With nothing in flight a wait changes nothing the driver knows about. *)
Lemma await_idle busy n w p ins outs s : (s < NUM_TX)%nat -> rep d n (wire w) p ins outs ->
  exists w' p', await busy s w p = (w', Ret p') /\ rep d n (wire w') p' ins outs /\ tdt (wire w') = tdt (wire w).
Proof.
  intros Hs Hr. unfold await. pose proof (e1000_look_rep n w p ins outs Hr) as Hr1.
  rewrite <-(look_tdt n w p ins outs Hr). destruct (card w p) as [w1 p1]. cbn [fst snd] in *. clear Hr w p.
  destruct (rep_slot _ _ _ _ _ s Hr1 Hs) as [dd Edd]. rewrite (rd_lookup _ _ _ Edd).
  destruct (busy dd); [|by exists w1, p1]. unfold wait_dd.
  set (I := fun (w : W) p => rep d n (wire w) p ins outs /\ tdt (wire w) = tdt (wire w1)).
  assert (match for_upto (dd_round s) 500000 (w1, p1) with
    | inl st => I st.1 st.2 | inr r => exists p', r.2 = Ret p' /\ I r.1 p' end) as Hpost.
  { apply (for_upto_post _ (fun st => I st.1 st.2)); [|by split].
    intros [w p] [Hr Et]. unfold dd_round. cbn [fst snd] in *.
    pose proof (e1000_look_rep n w p ins outs Hr) as Hr2. pose proof (look_tdt n w p ins outs Hr) as Et2.
    destruct (card w p) as [w2 p2]. cbn [fst snd] in *.
    destruct (rep_slot _ _ _ _ _ s Hr2 Hs) as [d2 Ed2]. rewrite (rd_lookup _ _ _ Ed2).
    case_decide; [exists p2; split; [done|]|]; (split; [exact Hr2|by cbn; rewrite Et2]). }
  destruct (for_upto _ _ _) as [[w' p']|[w' r]]; [by exists w', p'|].
  destruct Hpost as (p' & E & Hr'). cbn in E. subst r. by exists w', p'.
Qed.

(** A packet in its buffer, with its descriptor. *)
Lemma e1000_fill_tx_ok n x pkt p ins outs : placed d n -> rep d n x p ins outs -> tx_wait n = None ->
  (0 < length pkt <= TX_BUF)%nat -> exists p', fill_tx n (tdt x) pkt p = Ret p' /\
  rep d (n <| tx_wait := Some (tdt x) |>) (x <| tdt := next_of NUM_TX (tdt x) |>) p' ins (outs ++ [pkt]).
Proof.
  intros (_ & _ & Ha) ((L1 & L2 & L3 & L4 & L5 & L6) & (held & Hrx & ->) & flight & (Hlt & Htx) & ->) Hn Hl.
  rewrite Hn in Htx. destruct Htx as [Eh ->]. unfold fill_tx.
  destruct (lookup_lt_is_Some_2 (tx_buf p) (tdt x)) as [b Eb]; [lia|].
  assert (length b = TX_BUF) as Lb by (by eapply Forall_lookup_1 in L6).
  rewrite (rd_lookup _ _ _ Eb), bind_ret, copy_at_ok, bind_ret, (wr_ok (tx_buf p)), bind_ret, wr_ok, bind_ret by lia.
  eexists. split; [reflexivity|].
  split; [split_and!; cbn; rewrite ?length_insert; try done; apply Forall_insert; [done|by rewrite length_inserts]|].
  split; [by exists held|]. exists [pkt]. split; [|cbn; by rewrite app_nil_r].
  split; [by apply next_of_ne|]. cbn [tx_wait tdt tdh]. split; [done|]. split; [done|]. left. split; [done|].
  exists pkt. split; [|done]. eexists _, _. cbn [tx_ring tx_buf].
  split; [apply list_lookup_insert_eq; lia|]. split; [apply list_lookup_insert_eq; lia|].
  unfold tx_desc_of. cbn. rewrite Ha. split_and!; try done; try lia.
  - unfold wrap, TX_BUF in *. by rewrite Z.mod_small by lia.
  - rewrite inserts_split, take_0, app_nil_l by lia. apply take_app_length.
Qed.

Lemma e1000_transmit_ok n pkt w p ins outs : placed d n -> rep d n (wire w) p ins outs ->
  exists n' w' p' ok, transmit n pkt w p = (w', Ret (n', p', ok)) /\ placed d n' /\
    rep d n' (wire w') p' ins (outs ++ if ok : bool then [pkt] else []) /\
    (ok = true <-> (0 < length pkt <= TX_BUF)%nat).
Proof.
  intros Hp Hr. unfold transmit.
  destruct (reap_ok n w p ins outs Hp Hr) as (n1 & w1 & p1 & -> & Hn1 & Hp1 & Hr1). clear Hp Hr n w p.
  case_decide as Hl.
  { exists n1, w1, p1, false. rewrite app_nil_r. split_and!; try done; lia. }
  pose proof (read_tdt w1) as [Ew Ev]. rewrite <-(proj1 Hp1) in Ew, Ev. destruct (mm_r32 _ w1) as [w2 v]. cbn [fst snd] in Ew, Ev.
  subst v. rewrite <-Ew in Hr1.
  assert (tdt (wire w1) < NUM_TX)%nat as Hlt by (rewrite <-Ew; by destruct Hr1 as (_ & _ & ? & [? _] & _)).
  assert (Z.to_nat (Z.of_nat (tdt (wire w1)) mod Z.of_nat NUM_TX) = tdt (wire w1)) as -> by (rewrite Z.mod_small; lia).
  destruct (await_idle in_use n1 w2 p1 ins outs (tdt (wire w1)) Hlt Hr1) as (w3 & p3 & -> & Hr3 & Et).
  rewrite <-Ew, <-Et. destruct (e1000_fill_tx_ok n1 (wire w3) pkt p3 ins outs Hp1 Hr3 Hn1) as (p4 & -> & Hr4); [lia|].
  eexists _, _, p4, true. split; [reflexivity|]. split; [exact Hp1|]. split; [|split; [lia|done]].
  replace (tdt (wire w3) + 1)%nat with (S (tdt (wire w3))) by lia. fold (next_of NUM_TX (tdt (wire w3))).
  rewrite (proj1 Hp1), write_tdt; [done|]. apply next_of_ne. by rewrite Et, Ew.
Qed.

(** ** The driver as two queues *)

Definition e1000_inv n w p : Prop :=
  placed d n /\ rep d n (wire w) p (ins_of n (wire w) p) (outs_of (wire w) p).

Lemma e1000_inv_rep n w p ins outs : placed d n -> rep d n (wire w) p ins outs ->
  e1000_inv n w p /\ ins_of n (wire w) p = ins /\ outs_of (wire w) p = outs.
Proof. intros Hp Hr. destruct (e1000_rep_queues _ _ _ _ _ _ Hr) as [Ei Eo]. unfold e1000_inv. by rewrite Ei, Eo. Qed.

Definition e1000_queues : queue_driver (W := W) poll_rx_packet transmit.
Proof.
  refine {| q_inv := e1000_inv; q_in := fun n w p => ins_of n (wire w) p; q_out := fun _ w p => outs_of (wire w) p;
    q_frame := fun f => (length f <= RX_BUF)%nat; q_got := eq; q_room := fun room => (RX_BUF <= length room)%nat;
    q_packet := fun pkt => (0 < length pkt <= TX_BUF)%nat; q_strip := fun pkt => pkt; q_sure := true |}.
  - intros n room w p [Hp Hr] Hf Hroom.
    destruct (e1000_poll_ok n room w p _ _ Hp Hr) as (n' & w' & p' & r & out & ins' & E & Hp' & Hr' & Ht & _).
    destruct (e1000_inv_rep _ _ _ _ _ Hp' Hr') as (Hi & Ei & Eo).
    exists n', w', p', r, out. split; [done|]. split; [done|]. split; [|done]. rewrite Ei.
    apply (takes_whole _ _ _ _ _ Ht). eapply Forall_impl; [exact Hf|]. cbn. lia.
  - intros n pkt w p [Hp Hr] Hl.
    destruct (e1000_transmit_ok n pkt w p _ _ Hp Hr) as (n' & w' & p' & ok & E & Hp' & Hr' & Hok).
    destruct (e1000_inv_rep _ _ _ _ _ Hp' Hr') as (Hi & Ei & Eo).
    exists n', w', p', ok. split_and!; [done|done|done|done|]. intros _. by apply Hok.
Defined.

Definition e1000_finite : finite_driver (W := W) poll_rx_packet transmit.
Proof.
  refine {| f_inv := e1000_inv; f_left := fun n w p => traffic (ins_of n (wire w) p) |}.
  - intros n room w p [Hp Hr].
    destruct (e1000_poll_ok n room w p _ _ Hp Hr) as (n' & w' & p' & r & out & ins' & E & Hp' & Hr' & Ht & _).
    destruct (e1000_inv_rep _ _ _ _ _ Hp' Hr') as (Hi & Ei & Eo).
    exists n', w', p', r, out. split; [done|]. split; [done|]. rewrite Ei. by eapply takes_traffic.
  - intros n pkt w p [Hp Hr].
    destruct (e1000_transmit_ok n pkt w p _ _ Hp Hr) as (n' & w' & p' & ok & E & Hp' & Hr' & Hok).
    destruct (e1000_inv_rep _ _ _ _ _ Hp' Hr') as (Hi & Ei & Eo).
    exists n', w', p', ok. split; [done|]. split; [done|]. by rewrite Ei.
Defined.
End guarantees.

(** ** A wait for nothing *)

(** With nothing in flight the card is not going to finish anything: a wait for
    a descriptor that is not done runs all its rounds. *)
Lemma waits_in_vain {W} `{E1000Device W d} n (w : W) p ins outs s dd k :
  rep d n (wire w) p ins outs -> tx_wait n = None -> tx_ring p !! s = Some dd -> Z.land (tx_status dd) TX_DD = 0 ->
  exists w' p', for_nat (dd_round s) k (w, p) = inl (w', p').
Proof.
  intros Hr Hn Hs Hd. revert w p Hr Hs. induction k as [|k IH]; intros w p Hr Hs; [by exists w, p|].
  pose proof (e1000_look_rep n w p ins outs Hr) as Hr1.
  assert (rep d n (wire (card w p).1) (card w p).2 ins outs /\ tx_ring (card w p).2 !! s = Some dd) as [_ Hs1].
  { refine (steps_keep (fun x p => rep d n x p ins outs /\ tx_ring p !! s = Some dd) _ _ _ _ _
      (card_steps w p (rep_owed _ _ _ _ _ _ Hr)) (conj Hr Hs)).
    intros x p0 x' p0' [Hx Hsx] Hst. split; [by eapply e1000_rep_step|].
    destruct Hx as (_ & _ & flight & (_ & Htx) & _). rewrite Hn in Htx. destruct Htx as [Etx _].
    inversion Hst; subst; done. }
  rewrite for_nat_S. unfold dd_round at 1. cbn [fst snd]. destruct (card w p) as [w1 p1]. cbn [fst snd] in *.
  rewrite (rd_lookup _ _ _ Hs1), decide_False by (intros Hx; by apply Hx). cbn [and_then]. by apply IH.
Qed.

(** ** Start-up *)

Definition place_of {W} `{E1000Machine W} (n : E1000) : Place := {|
  at_mmio := mmio n;
  at_rx := fun i => phys (phys_skew n) (PAGES_at + off_rx_buf i);
  at_tx := fun i => phys (phys_skew n) (PAGES_at + off_tx_buf i) |}.

Lemma placed_place_of {W} `{E1000Machine W} (n : E1000) : placed (place_of n) n.
Proof. by split_and!. Qed.

(** The indices a card has after start-up. *)
Definition fresh (x : Wire) : Prop := rdh x = 0%nat /\ rdt x = (NUM_RX - 1)%nat /\ tdh x = 0%nat /\ tdt x = 0%nat.

Section start.
Context {W : Type} `{E1000Machine W}.

Definition ready (n : E1000) (p : E1000Pages) : Prop :=
  rx_cur n = 0 /\ tx_wait n = None /\ length (mac n) = 6%nat /\
  exists p0, pages_shape p0 /\ p = init_rings (phys_skew n) p0.

Lemma try_init_ready f off p w w' p' n : pages_shape p ->
  try_init f off p w = (w', (p', Some n)) -> ready n p'.
Proof.
  intros Hp. unfold try_init. destruct (bar0_mem _ _) as [w1 [bar|]]; [|done]. cbv zeta.
  destruct (mm_r32 _ w1) as [w2 c]. destruct (mm_r32 _ w2) as [w3 s]. case_decide; [done|].
  destruct (mm_r32 _ _) as [w4 ral]. destruct (mm_r32 _ w4) as [w5 rah].
  intros [= _ <- <-]. split_and!; try done. by exists p.
Qed.

Lemma try_init_none f off p w w' p' : try_init f off p w = (w', (p', None)) -> p' = p.
Proof.
  unfold try_init. destruct (bar0_mem _ _) as [w1 [bar|]]; [|by intros [= _ <-]]. cbv zeta.
  destruct (mm_r32 _ w1) as [w2 c]. destruct (mm_r32 _ w2) as [w3 s]. case_decide; [by intros [= _ <-]|].
  destruct (mm_r32 _ _) as [w4 ral]. by destruct (mm_r32 _ w4) as [w5 rah].
Qed.

Lemma e1000_probe_ready off p w w' p' n : pages_shape p -> probe off p w = (w', (p', Some n)) -> ready n p'.
Proof.
  intros Hp. unfold probe. revert w. induction E1000_LEGACY_DIDS as [|did dids IH]; intros w; [done|]. cbn [probe_ids].
  destruct (pick_function _ _ w) as [w1 [f|]]; [|apply IH].
  destruct (try_init f off p w1) as [w2 [p2 [n2|]]] eqn:E.
  - intros [= _ <- <-]. by apply try_init_ready in E.
  - apply try_init_none in E as ->. apply IH.
Qed.

Lemma e1000_zero_shape : pages_shape PAGES_zero.
Proof.
  unfold pages_shape, PAGES_zero. cbn [rx_ring tx_ring rx_buf tx_buf]. rewrite !length_replicate.
  split_and!; try done; apply Forall_replicate, length_replicate.
Qed.

Lemma init_rings_cells skew p : pages_shape p -> rx_cells (init_rings skew p) = replicate NUM_RX None.
Proof.
  intros (L1 & _ & L3 & _). unfold rx_cells. apply list_eq. intros i.
  destruct (decide (i < NUM_RX)%nat) as [Hi|Hi].
  - rewrite lookup_replicate_2 by done. apply lookup_zip_with_Some.
    destruct (lookup_lt_is_Some_2 (rx_ring p) i) as [dd Edd]; [lia|].
    destruct (lookup_lt_is_Some_2 (rx_buf p) i) as [b Eb]; [lia|].
    eexists _, b. split; [|split; [cbn; by rewrite list_lookup_imap, Edd|done]]. done.
  - rewrite !lookup_ge_None_2; [done|rewrite length_replicate; lia|].
    rewrite length_zip_with. cbn. rewrite length_imap. lia.
Qed.

Lemma e1000_ready_rep n p x : ready n p -> fresh x -> rep (place_of n) n x p (incoming x) (sent x).
Proof.
  intros (Hc & Hw & _ & p0 & Hp & ->) (E1 & E2 & E3 & E4). pose proof Hp as (L1 & L2 & L3 & L4 & L5 & L6).
  assert (rx_at n = 0%nat) as Eat by (unfold rx_at; by rewrite Hc).
  split; [split_and!; cbn; by rewrite ?length_imap|]. split; [exists []|exists []].
  - split; [|done]. unfold rx_rep. rewrite init_rings_cells, Eat by done. split_and!; try done.
    + apply ring_replicate.
    + unfold NUM_RX. cbn. lia.
    + intros i dd. cbn. rewrite list_lookup_imap. destruct (rx_ring p0 !! i); [|done]. by intros [= <-].
  - rewrite app_nil_r. split; [|done]. split; [rewrite E4; unfold NUM_TX; lia|]. by rewrite Hw, E3, E4.
Qed.
End start.

(** ** A card in memory

    It fills a descriptor and sends a packet at every look, and counts the looks. *)

Definition mem_place : Place := {|
  at_mmio := 0xE0000000; at_rx := fun i => 0x100000 + off_rx_buf i; at_tx := fun i => 0x100000 + off_tx_buf i |}.

Record Box := { box_wire : Wire; box_pci : PciMem; box_looks : Z }.
#[export] Instance Box_eta : Settable Box := fun w => Build_Box w.(box_wire) w.(box_pci) w.(box_looks).

Definition box_rx (x : Wire) (p : E1000Pages) : Wire * E1000Pages :=
  match incoming x, rx_ring p !! rdh x, rx_buf p !! rdh x with
  | f :: fs, Some dd, Some b =>
      if decide (rdh x <> rdt x /\ (0 < length f <= RX_BUF)%nat /\ rx_addr dd = at_rx mem_place (rdh x)) then
        (x <| incoming := fs |> <| rdh := next_of NUM_RX (rdh x) |>,
         p <| rx_ring ::= <[rdh x := rx_fill dd 3 0 0 0 f]> |> <| rx_buf ::= <[rdh x := f ++ drop (length f) b]> |>)
      else (x, p)
  | _, _, _ => (x, p)
  end.

Definition box_tx (x : Wire) (p : E1000Pages) : Wire * E1000Pages :=
  match tx_ring p !! tdh x, tx_buf p !! tdh x with
  | Some dd, Some b =>
      if decide (tdh x <> tdt x /\ tx_addr dd = at_tx mem_place (tdh x) /\ Z.land (tx_cmd dd) 9 = 9) then
        (x <| sent ::= fun l => l ++ [take (Z.to_nat (tx_length dd)) b] |> <| tdh := next_of NUM_TX (tdh x) |>,
         p <| tx_ring ::= <[tdh x := dd <| tx_status := 1 |>]> |>)
      else (x, p)
  | _, _ => (x, p)
  end.

Definition box_card (w : Box) (p : E1000Pages) : Box * E1000Pages :=
  let '(x, p) := box_rx (box_wire w) p in
  let '(x, p) := box_tx x p in
  (w <| box_wire := x |> <| box_looks ::= Z.succ |>, p).

Definition box_write (a v : Z) (x : Wire) : Wire :=
  if decide (a = 0xE0000000 + REG_RDH) then x <| rdh := Z.to_nat v |>
  else if decide (a = 0xE0000000 + REG_RDT) then x <| rdt := Z.to_nat v |>
  else if decide (a = 0xE0000000 + REG_TDH) then x <| tdh := Z.to_nat v |>
  else if decide (a = 0xE0000000 + REG_TDT) then x <| tdt := Z.to_nat v |>
  else x.

#[export] Instance Box_machine : E1000Machine Box := {|
  e1_mmio := {|
    mmio_ports := {|
      inb := fun _ w => (w, 0); outb := fun _ _ w => w; inw := fun _ w => (w, 0); outw := fun _ _ w => w;
      in32 := fun p w => (w, (in32 p w.(box_pci)).2);
      out32 := fun p v w => w <| box_pci ::= out32 p v |> |};
    mm_r8 := fun _ w => (w, 0); mm_r16 := fun _ w => (w, 0);
    mm_r32 := fun a w => (w, if decide (a = 0xE0000000 + REG_TDT) then Z.of_nat (tdt (box_wire w))
      else if decide (a = 0xE0000000 + REG_STATUS) then 2 else 0x12005452);
    mm_w8 := fun _ _ w => w; mm_w16 := fun _ _ w => w; mm_w64 := fun _ _ w => w;
    mm_w32 := fun a v w => w <| box_wire ::= box_write a v |> |};
  PAGES_at := 0x100000;
  card := box_card |}.

Lemma e1000_box_rx_steps x p : rtc (card_step mem_place) (x, p) (box_rx x p).
Proof.
  unfold box_rx. destruct (incoming x) as [|f fs] eqn:Ei; [done|]. destruct (rx_ring p !! rdh x) as [dd|] eqn:Ed; [|done].
  destruct (rx_buf p !! rdh x) as [b|] eqn:Eb; [|done]. case_decide as Hc; [|done]. destruct Hc as (H1 & H2 & H3).
  apply rtc_once. by apply receives.
Qed.

Lemma box_rx_tx x p : tdh (box_rx x p).1 = tdh x /\ tdt (box_rx x p).1 = tdt x /\
  tx_ring (box_rx x p).2 = tx_ring p /\ tx_buf (box_rx x p).2 = tx_buf p.
Proof.
  unfold box_rx. destruct (incoming x) as [|f fs]; [done|]. destruct (rx_ring p !! rdh x); [|done].
  destruct (rx_buf p !! rdh x); [|done]. by case_decide.
Qed.

Lemma e1000_box_tx_steps x p : rtc (card_step mem_place) (x, p) (box_tx x p).
Proof.
  unfold box_tx. destruct (tx_ring p !! tdh x) as [dd|] eqn:Ed; [|done].
  destruct (tx_buf p !! tdh x) as [b|] eqn:Eb; [|done]. case_decide as Hc; [|done]. destruct Hc as (H1 & H2 & H3).
  apply rtc_once. by apply sends.
Qed.

#[export, refine] Instance Box_device : E1000Device Box mem_place := {| wire := box_wire |}.
Proof.
  - intros w p _. cbn [card Box_machine]. unfold box_card. pose proof (e1000_box_rx_steps (box_wire w) p) as Hr.
    destruct (box_rx _ _) as [x1 p1]. pose proof (e1000_box_tx_steps x1 p1) as Ht.
    destruct (box_tx _ _) as [x2 p2]. by transitivity (x1, p1).
  - intros w i _. change (box_write (0xE0000000 + REG_RDT) (Z.of_nat i) (box_wire w) = (box_wire w) <| rdt := i |>).
    unfold box_write. by rewrite decide_False, decide_True, Nat2Z.id.
  - intros w i _. change (box_write (0xE0000000 + REG_TDT) (Z.of_nat i) (box_wire w) = (box_wire w) <| tdt := i |>).
    unfold box_write. by rewrite 3!decide_False, decide_True, Nat2Z.id by done.
  - done.
  - intros w p [_ Ht]. exists 1%nat. split; [lia|]. cbn [looks card Box_machine fst snd]. unfold box_card.
    destruct (box_rx_tx (box_wire w) p) as (E1 & E2 & E3 & E4). destruct (box_rx _ _) as [x1 p1]. cbn [fst snd] in *.
    unfold box_tx. destruct Ht as [Eh|(Et & dd & b & Ed & Eb & Ea & Ec & _)].
    + destruct (tx_ring p1 !! tdh x1), (tx_buf p1 !! tdh x1); try (cbn; congruence).
      rewrite decide_False by (intros [Hne _]; congruence). cbn. congruence.
    + rewrite E3, E4, E1, Ed, Eb, E2, Ec, Et. case_decide as Hc; [done|]. cbn. rewrite E1.
      destruct (decide (tdh (box_wire w) = next_of NUM_TX (tdh (box_wire w)))) as [|Hne]; [done|].
      exfalso. apply Hc. split; [exact Hne|]. split; [exact Ea|reflexivity].
Defined.

(** An 82540EM behind a memory BAR. *)
Definition intel_function : PciMem := {| pm_latch := 0; pm_regs := map (fun r => (cfg_addr (0, 4, 0) r.1, r.2))
  [(0x00, 0x100E8086); (0x04, 0); (0x08, 0x02000003); (0x10, 0xE0000000)] |}.

Definition cold_box (frames : list bytes) : Box := {|
  box_wire := {| incoming := frames; sent := []; rdh := 0; rdt := 0; tdh := 0; tdt := 0 |};
  box_pci := intel_function; box_looks := 0 |}.

Definition started (frames : list bytes) : Box * E1000 * E1000Pages :=
  match probe None PAGES_zero (cold_box frames) with
  | (w, (p, Some n)) => (w, n, p)
  | (w, (p, None)) => (w, {| mmio := 0; phys_skew := None; mac := []; rx_packets := 0; rx_cur := 0; tx_wait := None |}, p)
  end.

Definition two_frames : list bytes := [[2; 0; 0; 65]; [2; 0; 0; 66; 67]].
Definition box_n : E1000 := (started two_frames).1.2.
Definition box_w : Box := (started two_frames).1.1.
Definition box_p : E1000Pages := (started two_frames).2.

Lemma e1000_box_probe : probe None PAGES_zero (cold_box two_frames) = (box_w, (box_p, Some box_n)).
Proof. vm_compute. reflexivity. Qed.

Lemma e1000_box_place : place_of box_n = mem_place.
Proof.
  assert (mmio box_n = 0xE0000000 /\ phys_skew box_n = None) as [Em Es] by (vm_compute; done).
  unfold place_of. by rewrite Em, Es.
Qed.

Lemma e1000_started_inv n (w : Box) p : ready n p -> fresh (box_wire w) -> place_of n = mem_place -> e1000_inv n w p.
Proof.
  intros Hr Hf E. pose proof (e1000_ready_rep n p (box_wire w) Hr Hf) as Hrep. pose proof (placed_place_of n) as Hp.
  rewrite E in Hrep, Hp. exact (proj1 (e1000_inv_rep n w p _ _ Hp Hrep)).
Qed.

Lemma e1000_box_inv : e1000_inv box_n box_w box_p.
Proof.
  assert (fresh (box_wire box_w)) as Hf by (vm_compute; split_and!; reflexivity).
  pose proof (e1000_probe_ready None PAGES_zero _ _ _ _ e1000_zero_shape e1000_box_probe) as Hr.
  exact (e1000_started_inv box_n box_w box_p Hr Hf e1000_box_place).
Qed.

(** ** Properties *)

Definition op_fits (op : NetOp) : Prop :=
  match op with
  | Poll room => (RX_BUF <= length room)%nat
  | Send pkt => (0 < length pkt <= TX_BUF)%nat
  end.

(** C11: Over a card that follows the data sheet and sends a posted packet within
    the 500,000 polls the driver waits, however it interleaves with polls and
    transmissions: every call returns, the frames received (at most 2048 bytes
    each) are the network's, each once, whole and in order, across any number of
    laps of the ring, and every packet is accepted and goes out once and in
    order. *)
Theorem e1000_streams {W} `{E1000Device W d} ops n (w : W) p :
  e1000_inv n w p -> Forall (fun f => (length f <= RX_BUF)%nat) (ins_of n (wire w) p) -> Forall op_fits ops ->
  exists n' w' p' fs, run_ops poll_rx_packet transmit ops n w p = (w', Ret (n', p', fs, packets ops)) /\
    e1000_inv n' w' p' /\ fs ++ ins_of n' (wire w') p' = ins_of n (wire w) p /\
    outs_of (wire w') p' = outs_of (wire w) p ++ packets ops.
Proof.
  intros Hi Hf Hops. destruct (run_ops_ok _ _ e1000_queues ops n w p Hi Hf Hops)
    as (n' & w' & p' & fs & gs & ps & E & Hi' & <-%list_eq_Forall2 & Ei & Eo & _ & Hps).
  specialize (Hps eq_refl) as ->.
  exists n', w', p', fs. cbn in Eo. rewrite map_id in Eo. by split_and!.
Qed.

Definition some_ops : list NetOp :=
  [Poll (replicate 2048 0); Send [70; 71]; Poll (replicate 2048 0); Send [72]; Poll (replicate 2048 0)].

Lemma e1000_streams_witness :
  exists n' w' p' fs, run_ops poll_rx_packet transmit some_ops box_n box_w box_p = (w', Ret (n', p', fs, [[70; 71]; [72]])) /\
    fs ++ ins_of n' (wire w') p' = two_frames /\ outs_of (wire w') p' = [[70; 71]; [72]].
Proof.
  destruct (e1000_streams some_ops box_n box_w box_p) as (n' & w' & p' & fs & E & _ & Ei & Eo).
  - exact e1000_box_inv.
  - apply (bool_decide_unpack _). vm_compute. exact I.
  - unfold some_ops. repeat (apply Forall_cons; split;
      [cbn [op_fits]; split_and?; apply Nat.leb_le; vm_compute; reflexivity|]). constructor.
  - exists n', w', p', fs. split; [exact E|]. split; [rewrite Ei|rewrite Eo]; vm_compute; reflexivity.
Defined.

(** From the second lap of the transmit ring on, the driver finds the command of
    the old packet in the descriptor it is about to fill, and a status that it has
    cleared itself: it takes the descriptor for one in use, and waits all its
    rounds for nothing ([waits_in_vain]). *)
Example second_lap_waits :
  match run_ops poll_rx_packet transmit (replicate 8 (Send [70])) box_n box_w box_p with
  | (w, Ret (n, p, _, _)) =>
      match reap n w p with
      | (w, Ret (n, p)) => tx_wait n = None /\ tdh (wire w) = tdt (wire w) /\
          option_map in_use (tx_ring p !! tdt (wire w)) = Some true
      | _ => False
      end
  | _ => False
  end.
Proof. vm_compute. split_and!; reflexivity. Qed.
