(* ===== verification/Rtl8168.v ===== *)
(** * The RTL8168 network driver ([kernel/src/rtl8168.rs])

    Memory-mapped registers, a ring of 64 receive descriptors and one of 16
    transmit descriptors in pages shared with the card.  A descriptor is its
    sixteen bytes, as in the source: the control word, four unused bytes and the
    address of the buffer.  [card] is what the card does to the pages before the
    driver looks.  A counter that the source increments with [+= 1] wraps around,
    as in a release build.  [Rtl8168Ok.v] has the theorems. *)

From S2P Require Import Prelude Ports Pci VirtioBlk VirtioNet.

Definition REALTEK : Z := 0x10EC.
Definition DIDS : list Z := [0x8168; 0x8169; 0x8167].
Definition OWN : Z := Z.shiftl 1 31.
Definition EOR : Z := Z.shiftl 1 30.
Definition FS : Z := Z.shiftl 1 29.
Definition LS : Z := Z.shiftl 1 28.
Definition NUM_RX : nat := 64.
Definition NUM_TX : nat := 16.
Definition RX_PKT : nat := 8 * 1023.
Definition TX_PKT : nat := 8 * 944.

(** ** Descriptors *)

Definition rd_ctrl (d : bytes) : Z := of_le (take 4 d).
Definition rd_set_ctrl (v : Z) (d : bytes) : bytes := to_le 4 v ++ drop 4 d.
Definition rd_set_buf (pa : Z) (d : bytes) : bytes :=
  take 8 d ++ to_le 4 (wrap32 pa) ++ to_le 4 (wrap32 (Z.shiftr pa 32)).

(** [Pages]; the high-priority ring [tx_ring_h] is set up and never used. *)
Record Pages := {
  rx_ring : list bytes;
  tx_ring : list bytes;
  tx_ring_h : list bytes;
  rx_buf : list bytes;
  tx_buf : list bytes;
  tx_buf_h : list bytes;
}.
#[export] Instance Pages_eta : Settable Pages := fun p =>
  Build_Pages p.(rx_ring) p.(tx_ring) p.(tx_ring_h) p.(rx_buf) p.(tx_buf) p.(tx_buf_h).

Definition PAGES_zero : Pages := {|
  rx_ring := replicate NUM_RX (replicate 16 0); tx_ring := replicate NUM_TX (replicate 16 0);
  tx_ring_h := [replicate 16 0]; rx_buf := replicate NUM_RX (replicate RX_PKT 0);
  tx_buf := replicate NUM_TX (replicate TX_PKT 0); tx_buf_h := [replicate TX_PKT 0] |}.

(** Offsets in the [repr(C, align(4096))] layout. *)
Definition off_tx_ring : Z := 1024.
Definition off_tx_ring_h : Z := 1280.
Definition off_rx_buf (i : nat) : Z := 1296 + Z.of_nat i * Z.of_nat RX_PKT.
Definition off_tx_buf (i : nat) : Z := off_rx_buf NUM_RX + Z.of_nat i * Z.of_nat TX_PKT.
Definition off_tx_buf_h : Z := off_tx_buf NUM_TX.

Record Rtl8168 := {
  mmio : Z;
  phys_skew : option Z;
  mac : bytes;
  rx_packets : Z;
  rx_i : Z;
  tx_i : Z;
}.
#[export] Instance Rtl8168_eta : Settable Rtl8168 := fun n =>
  Build_Rtl8168 n.(mmio) n.(phys_skew) n.(mac) n.(rx_packets) n.(rx_i) n.(tx_i).

Class Rtl8168Machine (W : Type) := {
  r68_mmio :: Mmio W;
  PAGES_at : Z;
  card : W -> Pages -> W * Pages;
}.

Section driver.
Context {W : Type} `{Rtl8168Machine W}.

(** ** Start-up *)

(** The walk over the BARs; each round moves on by four at least, so seven
    rounds pass 0x24. *)
Fixpoint mem_bar_loop (fuel : nat) (f : PciFn) (reg : Z) (w : W) : W * option Z :=
  match fuel with
  | O => (w, None)
  | S fuel =>
      if decide (0x24 < reg) then (w, None)
      else
        let '(w, raw) := read_u32 f reg w in
        if decide (raw = 0 \/ raw = 0xFFFFFFFF) then mem_bar_loop fuel f (reg + 4) w
        else if decide (Z.land raw 1 <> 0) then mem_bar_loop fuel f (reg + 4) w
        else
          let low := Z.land raw 0xFFFFFFF0 in
          let ty := Z.land (Z.shiftr raw 1) 3 in
          if decide (ty = 2) then
            if decide (0x24 < reg + 4) then (w, None)
            else let '(w, hi) := read_u32 f (reg + 4) w in (w, Some (Z.lor low (Z.shiftl hi 32)))
          else if decide (ty = 0) then (w, Some low)
          else mem_bar_loop fuel f (reg + 4) w
  end.

Definition first_pci_mem_bar (f : PciFn) (w : W) : W * option Z := mem_bar_loop 7 f 0x10 w.

Definition mac_of (mac_lo mac_hi : Z) : bytes :=
  [wrap8 mac_lo; wrap8 (Z.shiftr mac_lo 8); wrap8 (Z.shiftr mac_lo 16); wrap8 (Z.shiftr mac_lo 24);
   wrap8 mac_hi; wrap8 (Z.shiftr mac_hi 8)].

(** One round of the waits for a bit of a register to clear. *)
Definition clear_round (a bit : Z) (w : W) : W + W :=
  let '(w, v) := mm_r8 a w in
  if decide (Z.land v bit = 0) then inr w else inl w.
Definition wait_clear (a bit : Z) (w : W) : W :=
  match for_upto (clear_round a bit) 500000 w with inl w | inr w => w end.

(** A ring after its loop: buffers and control words, with the end of the ring
    marked in the last descriptor. *)
Definition init_ring (skew : option Z) (off_buf : nat -> Z) (ctrl : Z) (ring : list bytes) : list bytes :=
  let last := (length ring - 1)%nat in
  imap (fun i d =>
    let d := rd_set_ctrl ctrl (rd_set_buf (phys skew (PAGES_at + off_buf i)) d) in
    if decide (i = last) then rd_set_ctrl (Z.lor (rd_ctrl d) EOR) d else d) ring.

Definition init_pages (skew : option Z) (p : Pages) : Pages :=
  p <| rx_buf ::= map (map (fun _ => 0)) |>
    <| tx_buf ::= map (map (fun _ => 0)) |>
    <| tx_buf_h ::= map (map (fun _ => 0)) |>
    <| rx_ring ::= init_ring skew off_rx_buf (Z.lor OWN (Z.of_nat RX_PKT)) |>
    <| tx_ring ::= init_ring skew off_tx_buf 0 |>
    <| tx_ring_h ::= map (fun d => rd_set_ctrl EOR (rd_set_buf (phys skew (PAGES_at + off_tx_buf_h)) d)) |>.

(** The registers of the rings. *)
Definition program_rings (base : Z) (skew : option Z) (w : W) : W :=
  let w := mm_w8 (base + 0x50) (Z.lor (Z.shiftl 1 7) (Z.shiftl 1 6)) w in
  let w := mm_w8 (base + 0x37) (Z.lor (Z.shiftl 1 3) (Z.shiftl 1 2)) w in
  let w := mm_w16 (base + 0xDA) 0x1FF8 w in
  let w := mm_w8 (base + 0xEC) 0x3B w in
  let tnp := phys skew (PAGES_at + off_tx_ring) in
  let w := mm_w32 (base + 0x20) (wrap32 tnp) w in
  let w := mm_w32 (base + 0x24) (wrap32 (Z.shiftr tnp 32)) w in
  let thp := phys skew (PAGES_at + off_tx_ring_h) in
  let w := mm_w32 (base + 0x28) (wrap32 thp) w in
  let w := mm_w32 (base + 0x2C) (wrap32 (Z.shiftr thp 32)) w in
  let rpa := phys skew PAGES_at in
  let w := mm_w32 (base + 0xE4) (wrap32 rpa) w in
  mm_w32 (base + 0xE8) (wrap32 (Z.shiftr rpa 32)) w.

(** Interrupts, configuration, end of the configuration mode. *)
Definition switch_on (base : Z) (w : W) : W :=
  let w := mm_w32 (base + 0xF4) 0 w in
  let '(w, isr) := mm_r16 (base + 0x3E) w in
  let w := mm_w16 (base + 0x3E) isr w in
  let w := mm_w16 (base + 0x3C) 0xC0FF w in
  let w := mm_w32 (base + 0x40) (Z.lor (Z.shiftl 3 24) (Z.shiftl 7 8)) w in
  let w := mm_w32 (base + 0x44) 0xE70E w in
  mm_w8 (base + 0x50) 0 w.

Definition try_init (base : Z) (physical_memory_offset : option Z) (p : Pages) (w : W) :
    W * (Pages * option Rtl8168) :=
  let '(w, id) := mm_r32 base w in
  if decide (id = 0xFFFFFFFF) then (w, (p, None))
  else
    let '(w, mac_lo) := mm_r32 base w in
    let '(w, mac_hi) := mm_r32 (base + 4) w in
    let dev := {| mmio := base; phys_skew := physical_memory_offset; mac := mac_of mac_lo mac_hi;
                  rx_packets := 0; rx_i := 0; tx_i := 0 |} in
    let w := wait_clear (base + 0x37) (Z.shiftl 1 4) (mm_w8 (base + 0x37) (Z.shiftl 1 4) w) in
    let p := init_pages physical_memory_offset p in
    (switch_on base (program_rings base physical_memory_offset w), (p, Some dev)).

Fixpoint probe_ids (dids : list Z) (physical_memory_offset : option Z) (p : Pages) (w : W) :
    W * (Pages * option Rtl8168) :=
  match dids with
  | [] => (w, (p, None))
  | did :: dids =>
      let '(w, picked) := pick_function REALTEK did w in
      match picked with
      | None => probe_ids dids physical_memory_offset p w
      | Some f =>
          let '(w, bar) := first_pci_mem_bar f (pci_enable_mmio_bm f w) in
          match bar with
          | None => (w, (p, None))
          | Some bar =>
              let '(w, (p, dev)) := try_init (pci_mmio_kernel_addr physical_memory_offset bar) physical_memory_offset p w in
              match dev with
              | Some dev => (w, (p, Some dev))
              | None => probe_ids dids physical_memory_offset p w
              end
          end
      end
  end.

Definition probe : option Z -> Pages -> W -> W * (Pages * option Rtl8168) := probe_ids DIDS.

(** ** Reception *)

Definition poll_rx_packet (n : Rtl8168) (out : bytes) (w : W) (p : Pages) :
    W * rust (Rtl8168 * Pages * option nat * bytes) :=
  let '(w, p) := card w p in
  let i := Z.to_nat (rx_i n mod Z.of_nat NUM_RX) in
  (w,
   d ← rd (rx_ring p) i;
   let ctrl := rd_ctrl d in
   if decide (Z.land ctrl OWN <> 0) then Ret (n, p, None, out)
   else
     let len := Z.to_nat (Z.land ctrl 0x3FFF) in
     let n := n <| rx_packets ::= fun k => wrap64 (k + 1) |> in
     let take := Nat.min (Nat.min len (length out)) RX_PKT in
     out ← (if decide (0 < take)%nat then
              b ← rd (rx_buf p) i;
              src ← sub b 0 take;
              copy_at out 0 src
            else Ret out);
     let eor := Z.land ctrl EOR in
     let d := rd_set_buf (phys (phys_skew n) (PAGES_at + off_rx_buf i)) d in
     let d := rd_set_ctrl (Z.lor (Z.lor OWN eor) (Z.of_nat RX_PKT)) d in
     r ← wr (rx_ring p) i d;
     let n := n <| rx_i := wrap64 (rx_i n + 1) |> in
     Ret (n, p <| rx_ring := r |>, if decide (len = 0)%nat then None else Some take, out)).

(** ** Transmission *)

Definition transmit (n : Rtl8168) (pkt : bytes) (w : W) (p : Pages) : W * rust (Rtl8168 * Pages * bool) :=
  if decide (length pkt = 0 \/ TX_PKT < length pkt)%nat then (w, Ret (n, p, false))
  else
    let '(w, p) := card w p in
    let i := Z.to_nat (tx_i n mod Z.of_nat NUM_TX) in
    match rd (tx_ring p) i with
    | Panic => (w, Panic)
    | Ret td =>
        let c := rd_ctrl td in
        if decide (Z.land c OWN <> 0) then (w, Ret (n, p, false))
        else
          match
            b ← rd (tx_buf p) i;
            b ← copy_at b 0 pkt;
            bufs ← wr (tx_buf p) i b;
            let ctrl := Z.lor (Z.lor (Z.lor (Z.lor OWN (Z.land c EOR)) FS) LS) (Z.of_nat (length pkt)) in
            t ← wr (tx_ring p) i (rd_set_ctrl ctrl td);
            Ret (p <| tx_buf := bufs |> <| tx_ring := t |>)
          with
          | Panic => (w, Panic)
          | Ret p =>
              let w := mm_w8 (mmio n + 0x38) (Z.shiftl 1 6) w in
              let w := wait_clear (mmio n + 0x38) (Z.shiftl 1 6) w in
              (w, Ret (n <| tx_i := wrap64 (tx_i n + 1) |>, p, true))
          end
    end.
End driver.
