(* ===== verification/Rtl8168Ok.v ===== *)
(** * What the RTL8168 driver guarantees

    [card_step] is what the data sheet asks of the card: it takes the
    descriptors it owns one after the other, up to the one marked as the end of
    the ring, and gives each back.  Over such a card the driver of [Rtl8168.v]
    refines two queues of frames.  A frame here is what the card stores: its
    checksum is part of it. *)

From stdpp Require Import relations.
From S2P Require Import Prelude Ports Pci VirtioBlk VirtioNet NicDriver Rtl8168.

(** ** Descriptors *)

Lemma take_set_ctrl v d : take 4 (rd_set_ctrl v d) = to_le 4 v.
Proof. unfold rd_set_ctrl. by rewrite take_app_length' by (by rewrite length_to_le). Qed.

Lemma ctrl_set_ctrl v d : 0 <= v < 2 ^ 32 -> rd_ctrl (rd_set_ctrl v d) = v.
Proof. intros Hv. unfold rd_ctrl. rewrite take_set_ctrl. by apply of_le_to_le_small. Qed.

(** The address of the buffer, as the card reads it. *)
Definition rd_buf (d : bytes) : Z := of_le (drop 8 d).

Lemma buf_set_ctrl v d : rd_buf (rd_set_ctrl v d) = rd_buf d.
Proof. unfold rd_buf, rd_set_ctrl. rewrite drop_app_ge, length_to_le, drop_drop by (rewrite length_to_le; lia). done. Qed.

Lemma length_set_ctrl v d : length d = 16%nat -> length (rd_set_ctrl v d) = 16%nat.
Proof. intros Hd. unfold rd_set_ctrl. rewrite length_app, length_to_le, length_drop. lia. Qed.

Lemma length_set_buf pa d : length d = 16%nat -> length (rd_set_buf pa d) = 16%nat.
Proof. intros Hd. unfold rd_set_buf. rewrite !length_app, !length_to_le, length_take. lia. Qed.

Lemma ctrl_set_buf pa d : length d = 16%nat -> rd_ctrl (rd_set_buf pa d) = rd_ctrl d.
Proof.
  intros Hd. unfold rd_ctrl, rd_set_buf. rewrite take_app_le by (rewrite length_take; lia). by rewrite take_take.
Qed.

Lemma of_le_app a b : of_le (a ++ b) = of_le a + 256 ^ Z.of_nat (length a) * of_le b.
Proof.
  induction a as [|x a IH]; [cbn; lia|]. cbn [app of_le length]. rewrite IH, Nat2Z.inj_succ, Z.pow_succ_r by lia. lia.
Qed.

Lemma buf_set_buf pa d : length d = 16%nat -> 0 <= pa < 2 ^ 64 -> rd_buf (rd_set_buf pa d) = pa.
Proof.
  intros Hd Hpa. unfold rd_buf, rd_set_buf. rewrite drop_app_length' by (rewrite length_take; lia).
  rewrite of_le_app, length_to_le, !of_le_to_le_small by (apply Z.mod_pos_bound; lia).
  assert (0 <= pa / 2 ^ 32 < 2 ^ 32) as Hq by (split; [apply Z.div_pos; lia|apply Z.div_lt_upper_bound; lia]).
  unfold wrap. rewrite Z.shiftr_div_pow2, (Z.mod_small (pa / 2 ^ 32)) by lia.
  change (256 ^ Z.of_nat 4) with (2 ^ 32). pose proof (Z.div_mod pa (2 ^ 32)). lia.
Qed.

(** The bits of a control word: a constant above, a length below. *)
Lemma ctrl_bits k len m : 0 <= len < 2 ^ 14 -> Z.land (Z.lor k len) m = Z.lor (Z.land k m) (Z.land len (Z.land 0x3FFF m)).
Proof.
  intros Hl. rewrite Z.land_lor_distr_l. f_equal. rewrite Z.land_assoc. f_equal.
  change 0x3FFF with (Z.ones 14). by rewrite Z.land_ones, Z.mod_small by lia.
Qed.

(** ** The card *)

(** The frames to come, those sent, and the descriptors the card is at. *)
Record Wire := { incoming : list bytes; sent : list bytes; rxh : nat; txh : nat }.
#[export] Instance Wire_eta : Settable Wire := fun x =>
  Build_Wire x.(incoming) x.(sent) x.(rxh) x.(txh).

Record Place := { at_mmio : Z; at_rx : nat -> Z; at_tx : nat -> Z }.

Definition owned (dd : bytes) : Prop := Z.land (rd_ctrl dd) OWN <> 0.
#[export] Instance owned_dec dd : Decision (owned dd).
Proof. unfold owned. apply _. Defined.

(** The descriptor after [i]: the mark decides where the ring ends. *)
Definition after (dd : bytes) (i : nat) : nat := if decide (Z.land (rd_ctrl dd) EOR = 0) then S i else 0%nat.

(** The card gives a descriptor back with control word [c]. *)
Definition released (dd : bytes) (c : Z) : Prop :=
  0 <= c < 2 ^ 32 /\ Z.land c OWN = 0 /\ Z.land c EOR = Z.land (rd_ctrl dd) EOR.

Inductive card_step (d : Place) : Wire * Pages -> Wire * Pages -> Prop :=
  | receives x p f fs dd b c :
      rx_ring p !! rxh x = Some dd -> owned dd -> rd_buf dd = at_rx d (rxh x) -> rx_buf p !! rxh x = Some b ->
      incoming x = f :: fs -> (0 < length f <= RX_PKT)%nat ->
      released dd c -> Z.land c 0x3FFF = Z.of_nat (length f) ->
      card_step d (x, p)
        (x <| incoming := fs |> <| rxh := after dd (rxh x) |>,
         p <| rx_ring ::= <[rxh x := rd_set_ctrl c dd]> |> <| rx_buf ::= <[rxh x := f ++ drop (length f) b]> |>)
  | sends x p dd b c :
      tx_ring p !! txh x = Some dd -> owned dd -> rd_buf dd = at_tx d (txh x) ->
      Z.land (rd_ctrl dd) (Z.lor FS LS) = Z.lor FS LS -> tx_buf p !! txh x = Some b -> released dd c ->
      card_step d (x, p)
        (x <| sent ::= fun l => l ++ [take (Z.to_nat (Z.land (rd_ctrl dd) 0xFFFF)) b] |> <| txh := after dd (txh x) |>,
         p <| tx_ring ::= <[txh x := rd_set_ctrl c dd]> |>).

(** A descriptor in order: the end of the ring is marked, the buffer is ours. *)
Definition desc_ok (n : nat) (at_ : nat -> Z) (i : nat) (dd : bytes) : Prop :=
  length dd = 16%nat /\ rd_buf dd = at_ i /\ Z.land (rd_ctrl dd) EOR = if decide (S i = n) then EOR else 0.

Definition rings_ok (d : Place) (p : Pages) : Prop :=
  (forall i dd, rx_ring p !! i = Some dd -> desc_ok NUM_RX (at_rx d) i dd) /\
  (forall i dd, tx_ring p !! i = Some dd -> desc_ok NUM_TX (at_tx d) i dd /\
     (owned dd -> Z.land (rd_ctrl dd) (Z.lor FS LS) = Z.lor FS LS)).

Class Rtl8168Device (W : Type) `{Rtl8168Machine W} (d : Place) := {
  wire : W -> Wire;
  card_steps w p : rings_ok d p -> rtc (card_step d) (wire w, p) (wire (card w p).1, (card w p).2);
  (** The doorbell has no effect that the driver sees before it looks. *)
  kick w v : wire (mm_w8 (at_mmio d + 0x38) v w) = wire w;
  kicked w : wire (mm_r8 (at_mmio d + 0x38) w).1 = wire w;
}.

(** ** The driver's state *)

Definition pages_shape (p : Pages) : Prop :=
  length (rx_ring p) = NUM_RX /\ length (tx_ring p) = NUM_TX /\
  length (rx_buf p) = NUM_RX /\ Forall (fun b => length b = RX_PKT) (rx_buf p) /\
  length (tx_buf p) = NUM_TX /\ Forall (fun b => length b = TX_PKT) (tx_buf p).

Definition placed {W} `{Rtl8168Machine W} (d : Place) (n : Rtl8168) : Prop :=
  mmio n = at_mmio d /\
  (forall i, (i < NUM_RX)%nat -> phys (phys_skew n) (PAGES_at + off_rx_buf i) = at_rx d i /\ 0 <= at_rx d i < 2 ^ 64).

(** A receive descriptor holds a frame when the card is done with it, a
    transmit descriptor a packet as long as the card is not. *)
Definition rx_cell (dd b : bytes) : option bytes :=
  if decide (owned dd) then None else Some (take (Z.to_nat (Z.land (rd_ctrl dd) 0x3FFF)) b).
Definition tx_cell (dd b : bytes) : option bytes :=
  if decide (owned dd) then Some (take (Z.to_nat (Z.land (rd_ctrl dd) 0xFFFF)) b) else None.

Definition rx_cells (p : Pages) : list (option bytes) := zip_with rx_cell (rx_ring p) (rx_buf p).
Definition tx_cells (p : Pages) : list (option bytes) := zip_with tx_cell (tx_ring p) (tx_buf p).

Definition rx_at (n : Rtl8168) : nat := cell_of NUM_RX (rx_i n).
Definition tx_at (n : Rtl8168) : nat := cell_of NUM_TX (tx_i n).

Definition frame_ok (f : bytes) : Prop := (0 < length f <= RX_PKT)%nat.

Definition rx_rep (n : Rtl8168) (x : Wire) (p : Pages) (held : list bytes) : Prop :=
  ring NUM_RX (rx_at n) held (rx_cells p) /\ Forall frame_ok held /\
  rxh x = ((rx_at n + length held) `mod` NUM_RX)%nat.

Definition tx_rep (n : Rtl8168) (x : Wire) (p : Pages) (pending : list bytes) : Prop :=
  ring NUM_TX (txh x) pending (tx_cells p) /\ (txh x < NUM_TX)%nat /\
  tx_at n = ((txh x + length pending) `mod` NUM_TX)%nat.

Definition rep (d : Place) (n : Rtl8168) (x : Wire) (p : Pages) (ins outs : list bytes) : Prop :=
  pages_shape p /\ rings_ok d p /\
  (exists held, rx_rep n x p held /\ ins = held ++ incoming x) /\
  (exists pending, tx_rep n x p pending /\ outs = sent x ++ pending).

(** The two queues, read off the state. *)
Definition ins_of (n : Rtl8168) (x : Wire) (p : Pages) : list bytes :=
  run_of NUM_RX (rx_cells p) (rx_at n) NUM_RX ++ incoming x.
Definition outs_of (x : Wire) (p : Pages) : list bytes := sent x ++ run_of NUM_TX (tx_cells p) (txh x) NUM_TX.

Lemma r68_rep_queues d n x p ins outs : rep d n x p ins outs -> ins_of n x p = ins /\ outs_of x p = outs.
Proof.
  intros (_ & _ & (held & (Hrx & _) & ->) & pending & (Htx & _) & ->). unfold ins_of, outs_of.
  by rewrite (run_of_ring _ _ _ _ Hrx), (run_of_ring _ _ _ _ Htx).
Qed.

(** ** The card's steps *)

Lemma after_next n at_ i dd : desc_ok n at_ i dd -> (i < n)%nat -> after dd i = (S i `mod` n)%nat.
Proof.
  intros (_ & _ & He) Hi. unfold after. rewrite He. destruct (decide (S i = n)) as [<-|Hne].
  - rewrite decide_False by done. by rewrite Nat.Div0.mod_same.
  - rewrite decide_True by done. rewrite Nat.mod_small; lia.
Qed.

Lemma released_ok n at_ i dd c : desc_ok n at_ i dd -> released dd c -> desc_ok n at_ i (rd_set_ctrl c dd).
Proof.
  intros (Hl & Hb & He) (Hc & _ & Hce). split; [by apply length_set_ctrl|].
  rewrite buf_set_ctrl, ctrl_set_ctrl by done. split; [done|]. by rewrite Hce.
Qed.

Lemma released_free dd c : released dd c -> ~ owned (rd_set_ctrl c dd).
Proof. intros (Hc & Ho & _). unfold owned. rewrite (ctrl_set_ctrl _ _ Hc), Ho. intros Hn. by apply Hn. Qed.

(** Updating one descriptor of a ring. *)
Lemma insert_desc_ok (P : nat -> bytes -> Prop) (l : list bytes) k dd' :
  (forall i dd, l !! i = Some dd -> P i dd) -> P k dd' ->
  forall i dd, <[k := dd']> l !! i = Some dd -> P i dd.
Proof.
  intros Hl Hk i dd. rewrite list_lookup_insert_Some. intros [(-> & -> & _)|[_ ?]]; [done|by apply Hl].
Qed.

Lemma mod_after N c k : (0 < N)%nat -> (S ((c + k) `mod` N) `mod` N = (c + S k) `mod` N)%nat.
Proof. intros HN. rewrite <-!Nat.add_1_l. rewrite Nat.Div0.add_mod_idemp_r. f_equal. lia. Qed.

Lemma step_receives d n x p ins outs f fs dd b c :
  rep d n x p ins outs ->
  rx_ring p !! rxh x = Some dd -> owned dd -> rx_buf p !! rxh x = Some b ->
  incoming x = f :: fs -> (0 < length f <= RX_PKT)%nat -> released dd c -> Z.land c 0x3FFF = Z.of_nat (length f) ->
  rep d n (x <| incoming := fs |> <| rxh := after dd (rxh x) |>)
    (p <| rx_ring ::= <[rxh x := rd_set_ctrl c dd]> |> <| rx_buf ::= <[rxh x := f ++ drop (length f) b]> |>) ins outs.
Proof.
  intros ((L1 & L2 & L3 & L4 & L5 & L6) & [Hrx Htx] & (held & (Hring & Hok & Eh) & ->) & Hp) Edd Hown Eb Ein Hf Hrel Hlen.
  assert (rxh x < NUM_RX)%nat as Hlt by (rewrite Eh; apply Nat.mod_upper_bound; unfold NUM_RX; lia).
  assert (length b = RX_PKT) as Lb by (by eapply Forall_lookup_1 in L4).
  assert (length held < NUM_RX)%nat as Hroom.
  { apply (ring_room _ _ _ _ Hring ltac:(unfold NUM_RX; lia)). rewrite <-Eh. apply lookup_zip_with_Some.
    exists dd, b. split; [unfold rx_cell; by rewrite decide_True|done]. }
  split; [|split; [|split; [|exact Hp]]].
  - split_and!; cbn -[RX_PKT TX_PKT]; rewrite ?length_insert; try done. apply Forall_insert; [done|]. rewrite length_app, length_drop. lia.
  - split; [|exact Htx]. apply insert_desc_ok; [exact Hrx|]. apply released_ok; [by apply Hrx|done].
  - exists (held ++ [f]). split; [|by rewrite Ein, <-app_assoc]. split; [|split].
    + apply ring_push_cells; [done|done|done|]. unfold rx_cell. rewrite decide_False by (by apply released_free).
      rewrite ctrl_set_ctrl by apply Hrel. by rewrite Hlen, Nat2Z.id, take_app_length.
    + apply Forall_app. split; [done|]. by apply Forall_singleton.
    + cbn [rxh]. rewrite (after_next _ _ _ _ (Hrx _ _ Edd) Hlt), Eh, mod_after, length_app by (unfold NUM_RX; lia).
      cbn [length]. by rewrite Nat.add_1_r.
Qed.

Lemma step_sends d n x p ins outs dd b c :
  rep d n x p ins outs -> tx_ring p !! txh x = Some dd -> owned dd -> tx_buf p !! txh x = Some b -> released dd c ->
  rep d n (x <| sent ::= fun l => l ++ [take (Z.to_nat (Z.land (rd_ctrl dd) 0xFFFF)) b] |> <| txh := after dd (txh x) |>)
    (p <| tx_ring ::= <[txh x := rd_set_ctrl c dd]> |>) ins outs.
Proof.
  intros ((L1 & L2 & L3 & L4 & L5 & L6) & [Hrx Htx] & Hh & pending & (Hring & Hlt & Et) & ->) Edd Hown Eb Hrel.
  pose proof (ring_first _ _ _ _ Hring ltac:(unfold NUM_TX; lia)) as Hfirst. rewrite Nat.mod_small in Hfirst by done.
  apply lookup_zip_with_Some in Hfirst as (dd' & b' & Ecell & Edd' & Eb').
  rewrite Edd in Edd'. rewrite Eb in Eb'. injection Edd' as <-. injection Eb' as <-.
  unfold tx_cell in Ecell. rewrite decide_True in Ecell by done.
  destruct pending as [|pkt pending]; [done|]. injection Ecell as ->.
  destruct (Htx _ _ Edd) as [Hdesc _].
  split; [|split; [|split; [exact Hh|]]].
  - split_and!; cbn -[RX_PKT TX_PKT]; by rewrite ?length_insert.
  - split; [exact Hrx|]. apply (insert_desc_ok (fun i dd => desc_ok NUM_TX (at_tx d) i dd /\
      (owned dd -> Z.land (rd_ctrl dd) (Z.lor FS LS) = Z.lor FS LS))); [exact Htx|].
    split; [by apply released_ok|]. intros Hn. by apply released_free in Hn.
  - exists pending. cbn. split; [|by rewrite <-app_assoc]. unfold tx_rep. cbn [txh].
    rewrite (after_next _ _ _ _ Hdesc Hlt). split; [|split].
    + apply ring_mod; [unfold NUM_TX; lia|]. eapply ring_pop_cells; [exact Hring|by rewrite Nat.mod_small|exact Eb|].
      unfold tx_cell. by rewrite decide_False by (by apply released_free).
    + apply Nat.mod_upper_bound. unfold NUM_TX. lia.
    + rewrite Nat.Div0.add_mod_idemp_l, Et. cbn [length]. by rewrite <-Nat.add_succ_comm.
Qed.

Lemma r68_rep_step d n x p x' p' ins outs :
  rep d n x p ins outs -> card_step d (x, p) (x', p') -> rep d n x' p' ins outs.
Proof.
  intros Hr Hstep. inversion Hstep; subst; [by eapply step_receives|by eapply step_sends].
Qed.

Section guarantees.
Context {W : Type} `{Rtl8168Device W d}.
Implicit Types (w : W) (n : Rtl8168) (p : Pages).

Lemma r68_look_rep n w p ins outs : rep d n (wire w) p ins outs ->
  rep d n (wire (card w p).1) (card w p).2 ins outs.
Proof.
  intros Hr. pose proof Hr as (_ & Hok & _). pose proof (card_steps w p Hok) as Hs.
  remember (wire w, p) as s eqn:Es. remember (wire (card w p).1, (card w p).2) as s' eqn:Es'.
  assert (rep d n s.1 s.2 ins outs) as Hr' by (by rewrite Es).
  assert (rep d n s'.1 s'.2 ins outs) as Hr2; [|by rewrite Es' in Hr2].
  clear Es Es' Hr. induction Hs as [s|[x p0] [x1 p1] s' Hst _ IH]; [done|]. apply IH. by eapply r68_rep_step.
Qed.

(** ** Reception *)

Lemma r68_rx_at_next n : rx_at (n <| rx_i := wrap64 (rx_i n + 1) |>) = (S (rx_at n) `mod` NUM_RX)%nat.
Proof. apply cell_of_next; [unfold NUM_RX; lia|by exists (2 ^ 58)]. Qed.

Lemma tx_at_next n : tx_at (n <| tx_i := wrap64 (tx_i n + 1) |>) = (S (tx_at n) `mod` NUM_TX)%nat.
Proof. apply cell_of_next; [unfold NUM_TX; lia|by exists (2 ^ 60)]. Qed.

(** The descriptor that the driver hands back. *)
Definition fresh_rx (n : Rtl8168) (i : nat) (dd : bytes) : bytes :=
  rd_set_ctrl (Z.lor (Z.lor OWN (Z.land (rd_ctrl dd) EOR)) (Z.of_nat RX_PKT))
    (rd_set_buf (phys (phys_skew n) (PAGES_at + off_rx_buf i)) dd).

Lemma rx_ctrl_ok e : e = EOR \/ e = 0 -> let c := Z.lor (Z.lor OWN e) (Z.of_nat RX_PKT) in
  0 <= c < 2 ^ 32 /\ Z.land c OWN <> 0 /\ Z.land c EOR = e.
Proof. intros [->| ->]; vm_compute; split_and!; done. Qed.

Lemma fresh_rx_ok n i dd : placed d n -> (i < NUM_RX)%nat -> desc_ok NUM_RX (at_rx d) i dd ->
  desc_ok NUM_RX (at_rx d) i (fresh_rx n i dd) /\ owned (fresh_rx n i dd).
Proof.
  intros (_ & Ha) Hi (Hl & _ & He). destruct (Ha i Hi) as [Epa Hpa]. unfold fresh_rx. rewrite Epa.
  destruct (rx_ctrl_ok (Z.land (rd_ctrl dd) EOR)) as (Hc & Ho & Hce); [rewrite He; case_decide; auto|].
  unfold desc_ok, owned. rewrite buf_set_ctrl, buf_set_buf, ctrl_set_ctrl by done. split; [|done].
  split; [by apply length_set_ctrl, length_set_buf|]. split; [done|]. by rewrite Hce.
Qed.

Lemma r68_poll_ok n room w p ins outs : placed d n -> rep d n (wire w) p ins outs ->
  exists n' w' p' r out ins', poll_rx_packet n room w p = (w', Ret (n', p', r, out)) /\
    placed d n' /\ rep d n' (wire w') p' ins' outs /\ takes ins ins' room r out.
Proof.
  intros Hp Hr. unfold poll_rx_packet. pose proof (r68_look_rep n w p ins outs Hr) as Hr1.
  destruct (card w p) as [w1 p1]. cbn [fst snd] in Hr1. clear Hr w p. fold (cell_of NUM_RX (rx_i n)). fold (rx_at n).
  pose proof Hr1 as (Hsh & [Hrx Htx] & (held & (Hring & Hok & Eh) & ->) & Hout). pose proof Hsh as (L1 & _ & L3 & L4 & _).
  assert (rx_at n < NUM_RX)%nat as Hlt by (apply cell_of_lt; unfold NUM_RX; lia).
  pose proof (ring_first NUM_RX _ _ _ Hring ltac:(unfold NUM_RX; lia)) as Hcell. rewrite Nat.mod_small in Hcell by done.
  apply lookup_zip_with_Some in Hcell as (dd & b & Ecell & Edd & Eb). unfold rx_cell in Ecell.
  rewrite (rd_lookup _ _ _ Edd), bind_ret. cbv zeta. destruct (decide (owned dd)) as [Hown|Hown].
  { rewrite decide_True by exact Hown. exists n, w1, p1, None, room, (held ++ incoming (wire w1)). split_and!; try done. constructor. }
  rewrite decide_False by exact Hown. destruct held as [|f held]; [done|]. injection Ecell as Ef.
  apply Forall_cons in Hok as [Hf Hok]. unfold frame_ok in Hf.
  assert (length b = RX_PKT) as Lb by (by eapply Forall_lookup_1 in L4).
  set (len := Z.to_nat (Z.land (rd_ctrl dd) 0x3FFF)) in *.
  assert (length f = Nat.min len RX_PKT) as Elen by (rewrite Ef, length_take; lia).
  set (tk := Nat.min (Nat.min len (length room)) RX_PKT).
  assert ((if decide (0 < tk)%nat then b ← rd (rx_buf p1) (rx_at n); src ← sub b 0 tk; copy_at room 0 src else Ret room) =
    Ret (take (length room) f ++ drop (length (take (length room) f)) room)) as ->.
  { assert (forall k, take (Nat.min k (length b)) b = take k b) as Hmin by (intros k; by rewrite <-take_take, (take_ge b)).
    assert (take (length room) f = take tk b) as -> by (rewrite Ef, take_take; unfold tk; rewrite <-Lb, Hmin; f_equal; lia).
    case_decide as Htk.
    - rewrite (rd_lookup _ _ _ Eb), bind_ret, sub_ok, bind_ret, slice_0 by (unfold tk; lia).
      rewrite copy_at_ok by (rewrite length_take; unfold tk; lia).
      by rewrite inserts_split, take_0 by (rewrite length_take; unfold tk; lia).
    - assert (tk = 0%nat) as -> by lia. by rewrite take_0. }
  rewrite bind_ret, wr_ok, bind_ret by lia. fold (fresh_rx n (rx_at n) dd).
  change (phys_skew (n <| rx_packets ::= fun k => wrap64 (k + 1) |>)) with (phys_skew n). fold (fresh_rx n (rx_at n) dd).
  destruct (fresh_rx_ok n (rx_at n) dd Hp Hlt (Hrx _ _ Edd)) as [Hfresh Hfo].
  eexists _, w1, _, _, _, (held ++ incoming (wire w1)). split; [reflexivity|]. split; [exact Hp|]. split.
  - split; [split_and!; cbn -[RX_PKT TX_PKT]; rewrite ?length_insert; apply Hsh|].
    split; [split; [by apply insert_desc_ok|exact Htx]|]. split; [|exact Hout].
    exists held. split; [|done]. unfold rx_rep.
    match goal with |- context [rx_at ?m] => change (rx_at m) with (rx_at (n <| rx_i := wrap64 (rx_i n + 1) |>)) end.
    rewrite r68_rx_at_next. split; [|split; [done|]].
    + apply ring_mod; [unfold NUM_RX; lia|].
      eapply ring_pop_cells; [exact Hring|by rewrite Nat.mod_small|exact Eb|]. unfold rx_cell. by rewrite decide_True.
    + rewrite Nat.Div0.add_mod_idemp_l. cbn [rxh length] in *. rewrite Eh. by rewrite <-Nat.add_succ_comm.
  - rewrite decide_False by lia. replace tk with (length (take (length room) f)) by (rewrite length_take; unfold tk; lia).
    cbn [app]. apply takes_frame; [apply prefix_take|rewrite length_take; lia|]. intros Hroom. by rewrite take_ge.
Qed.

(** ** Transmission *)

(** The control word of a packet. *)
Definition tx_ctrl (e : Z) (len : nat) : Z :=
  Z.lor (Z.lor (Z.lor (Z.lor OWN e) FS) LS) (Z.of_nat len).

Lemma tx_ctrl_ok e len : e = EOR \/ e = 0 -> (len <= TX_PKT)%nat ->
  0 <= tx_ctrl e len < 2 ^ 32 /\ Z.land (tx_ctrl e len) OWN <> 0 /\ Z.land (tx_ctrl e len) EOR = e /\
  Z.land (tx_ctrl e len) (Z.lor FS LS) = Z.lor FS LS /\ Z.land (tx_ctrl e len) 0xFFFF = Z.of_nat len.
Proof.
  intros He Hl. assert (0 <= Z.of_nat len < 2 ^ 14) as Hlen by (unfold TX_PKT in Hl; lia).
  unfold tx_ctrl. set (k := Z.lor (Z.lor (Z.lor OWN e) FS) LS).
  assert (forall m, Z.land 0x3FFF m = 0 -> Z.land (Z.lor k (Z.of_nat len)) m = Z.land k m) as Hhigh.
  { intros m Hm. by rewrite ctrl_bits, Hm, Z.land_0_r, Z.lor_0_r by done. }
  assert (Z.land k (Z.of_nat len) = 0) as Hdis.
  { rewrite Z.land_comm. replace (Z.of_nat len) with (Z.land (Z.of_nat len) (Z.ones 14)) by (by rewrite Z.land_ones, Z.mod_small by lia).
    rewrite <-Z.land_assoc. replace (Z.land (Z.ones 14) k) with 0 by (by destruct He as [->| ->]). apply Z.land_0_r. }
  pose proof (Z.add_lor_land k (Z.of_nat len)) as Hsum. rewrite Hdis, Z.add_0_r in Hsum.
  assert (0 <= k <= 2 ^ 32 - 2 ^ 28 /\ Z.land k OWN <> 0 /\ Z.land k EOR = e /\ Z.land k (Z.lor FS LS) = Z.lor FS LS /\
    Z.land k 0xFFFF = 0) as (Hk & Ho & He' & Hf & Hz) by (destruct He as [->| ->]; vm_compute; split_and!; done).
  split; [lia|]. rewrite !Hhigh by done. split_and!; try done.
  rewrite ctrl_bits, Hz, Z.lor_0_l by done. change (Z.land 0x3FFF 0xFFFF) with (Z.ones 14).
  by rewrite Z.land_ones, Z.mod_small by lia.
Qed.

Lemma doorbell n w : placed d n -> wire (wait_clear (mmio n + 0x38) (Z.shiftl 1 6) (mm_w8 (mmio n + 0x38) (Z.shiftl 1 6) w)) = wire w.
Proof.
  intros (-> & _). unfold wait_clear.
  assert (match for_upto (clear_round (at_mmio d + 0x38) (Z.shiftl 1 6)) 500000 (mm_w8 (at_mmio d + 0x38) (Z.shiftl 1 6) w) with
    | inl w' => wire w' = wire w | inr w' => wire w' = wire w end) as Hpost.
  { apply (for_upto_post _ (fun w' => wire w' = wire w) (fun w' => wire w' = wire w)); [|apply kick].
    intros w' Hw. unfold clear_round. pose proof (kicked w') as Hk. destruct (mm_r8 _ w') as [w2 v]. cbn [fst] in Hk.
    case_decide; by rewrite Hk. }
  by destruct (for_upto _ _ _).
Qed.

(** A packet is put behind those pending, unless it is refused: for its length,
    or because the ring is full. *)
Lemma r68_transmit_ok n pkt w p ins outs : placed d n -> rep d n (wire w) p ins outs ->
  exists n' w' p' ok, transmit n pkt w p = (w', Ret (n', p', ok)) /\ placed d n' /\
    rep d n' (wire w') p' ins (outs ++ if ok : bool then [pkt] else []).
Proof.
  intros Hp Hr. unfold transmit. case_decide as Hl.
  { exists n, w, p, false. rewrite app_nil_r. by split_and!. }
  pose proof (r68_look_rep n w p ins outs Hr) as Hr1. destruct (card w p) as [w1 p1]. cbn [fst snd] in Hr1. clear Hr w p.
  fold (cell_of NUM_TX (tx_i n)). fold (tx_at n).
  pose proof Hr1 as (Hsh & [Hrx Htx] & Hin & pending & (Hring & Hlt & Et) & ->).
  pose proof Hsh as (_ & L2 & _ & _ & L5 & L6).
  assert (tx_at n < NUM_TX)%nat as Hat by (apply cell_of_lt; unfold NUM_TX; lia).
  destruct (lookup_lt_is_Some_2 (tx_ring p1) (tx_at n)) as [dd Edd]; [lia|].
  destruct (lookup_lt_is_Some_2 (tx_buf p1) (tx_at n)) as [b Eb]; [lia|].
  assert (length b = TX_PKT) as Lb by (by eapply Forall_lookup_1 in L6).
  rewrite (rd_lookup _ _ _ Edd). cbv zeta. destruct (decide (owned dd)) as [Hown|Hown].
  { rewrite decide_True by exact Hown. exists n, w1, p1, false. rewrite app_nil_r. by split_and!. }
  rewrite decide_False by exact Hown. destruct (Htx _ _ Edd) as [Hdesc _].
  assert (Z.land (rd_ctrl dd) EOR = EOR \/ Z.land (rd_ctrl dd) EOR = 0) as He
    by (destruct Hdesc as (_ & _ & ->); case_decide; auto).
  fold (tx_ctrl (Z.land (rd_ctrl dd) EOR) (length pkt)).
  destruct (tx_ctrl_ok _ (length pkt) He) as (Hc & Ho & Hce & Hf & Hlen); [lia|].
  rewrite (rd_lookup _ _ _ Eb), bind_ret, copy_at_ok, bind_ret, (wr_ok (tx_buf p1)), bind_ret, wr_ok, bind_ret by lia.
  eexists _, _, _, true. split; [reflexivity|]. split; [exact Hp|]. rewrite (doorbell n w1 Hp).
  assert (length pending < NUM_TX)%nat as Hroom.
  { apply (ring_room _ _ _ _ Hring ltac:(unfold NUM_TX; lia)). rewrite <-Et. apply lookup_zip_with_Some.
    exists dd, b. split; [unfold tx_cell; by rewrite decide_False|done]. }
  set (d2 := rd_set_ctrl (tx_ctrl (Z.land (rd_ctrl dd) EOR) (length pkt)) dd).
  assert (rd_ctrl d2 = tx_ctrl (Z.land (rd_ctrl dd) EOR) (length pkt)) as Ec by (by apply ctrl_set_ctrl).
  assert (owned d2) as Ho2 by (unfold owned; by rewrite Ec).
  split; [|split; [|split; [exact Hin|]]].
  - destruct Hsh as (?&?&?&?&?&?). split_and!; cbn -[RX_PKT TX_PKT]; rewrite ?length_insert; try done.
    apply Forall_insert; [done|by rewrite length_inserts].
  - split; [exact Hrx|]. apply (insert_desc_ok (fun i dd => desc_ok NUM_TX (at_tx d) i dd /\
      (owned dd -> Z.land (rd_ctrl dd) (Z.lor FS LS) = Z.lor FS LS))); [exact Htx|].
    split; [|by rewrite Ec]. destruct Hdesc as (Hl16 & Hb & Hee). unfold desc_ok. rewrite Ec, Hce.
    split; [by apply length_set_ctrl|]. split; [|done]. unfold d2. by rewrite buf_set_ctrl.
  - exists (pending ++ [pkt]). split; [|by rewrite app_assoc]. unfold tx_rep.
    match goal with |- context [tx_at ?m] => change (tx_at m) with (tx_at (n <| tx_i := wrap64 (tx_i n + 1) |>)) end.
    rewrite tx_at_next. split; [|split; [done|]].
    + apply ring_push_cells; [done|done|done|]. unfold tx_cell. rewrite decide_True by done. rewrite Ec, Hlen, Nat2Z.id. f_equal.
      rewrite inserts_split, take_0, app_nil_l by lia. apply take_app_length.
    + cbn [txh]. rewrite Et, mod_after, length_app by (unfold NUM_TX; lia). cbn [length]. by rewrite Nat.add_1_r.
Qed.

(** ** The driver as two queues *)

Definition r68_inv n w p : Prop := placed d n /\ rep d n (wire w) p (ins_of n (wire w) p) (outs_of (wire w) p).

Lemma r68_inv_rep n w p ins outs : placed d n -> rep d n (wire w) p ins outs ->
  r68_inv n w p /\ ins_of n (wire w) p = ins /\ outs_of (wire w) p = outs.
Proof. intros Hp Hr. destruct (r68_rep_queues _ _ _ _ _ _ Hr) as [Ei Eo]. unfold r68_inv. by rewrite Ei, Eo. Qed.

Definition rtl8168_queues : queue_driver (W := W) poll_rx_packet transmit.
Proof.
  refine {| q_inv := r68_inv; q_in := fun n w p => ins_of n (wire w) p; q_out := fun _ w p => outs_of (wire w) p;
    q_frame := fun f => (length f <= RX_PKT)%nat; q_got := eq; q_room := fun room => (RX_PKT <= length room)%nat;
    q_packet := fun _ => True; q_strip := fun pkt => pkt; q_sure := false |}.
  - intros n room w p [Hp Hr] Hf Hroom.
    destruct (r68_poll_ok n room w p _ _ Hp Hr) as (n' & w' & p' & r & out & ins' & E & Hp' & Hr' & Ht).
    destruct (r68_inv_rep _ _ _ _ _ Hp' Hr') as (Hi & Ei & Eo).
    exists n', w', p', r, out. split; [done|]. split; [done|]. split; [|done]. rewrite Ei.
    apply (takes_whole _ _ _ _ _ Ht). eapply Forall_impl; [exact Hf|]. cbn beta. lia.
  - intros n pkt w p [Hp Hr] _.
    destruct (r68_transmit_ok n pkt w p _ _ Hp Hr) as (n' & w' & p' & ok & E & Hp' & Hr').
    destruct (r68_inv_rep _ _ _ _ _ Hp' Hr') as (Hi & Ei & Eo). exists n', w', p', ok. by split_and!.
Defined.

Definition rtl8168_finite : finite_driver (W := W) poll_rx_packet transmit.
Proof.
  refine {| f_inv := r68_inv; f_left := fun n w p => traffic (ins_of n (wire w) p) |}.
  - intros n room w p [Hp Hr].
    destruct (r68_poll_ok n room w p _ _ Hp Hr) as (n' & w' & p' & r & out & ins' & E & Hp' & Hr' & Ht).
    destruct (r68_inv_rep _ _ _ _ _ Hp' Hr') as (Hi & Ei & Eo).
    exists n', w', p', r, out. split; [done|]. split; [done|]. rewrite Ei. by eapply takes_traffic.
  - intros n pkt w p [Hp Hr].
    destruct (r68_transmit_ok n pkt w p _ _ Hp Hr) as (n' & w' & p' & ok & E & Hp' & Hr').
    destruct (r68_inv_rep _ _ _ _ _ Hp' Hr') as (Hi & Ei & Eo).
    exists n', w', p', ok. split; [done|]. split; [done|]. by rewrite Ei.
Defined.
End guarantees.

(** ** Start-up *)

Definition place_of {W} `{Rtl8168Machine W} (n : Rtl8168) : Place := {|
  at_mmio := mmio n;
  at_rx := fun i => phys (phys_skew n) (PAGES_at + off_rx_buf i);
  at_tx := fun i => phys (phys_skew n) (PAGES_at + off_tx_buf i) |}.

Section start.
Context {W : Type} `{Rtl8168Machine W}.

Definition descs_shape (p : Pages) : Prop :=
  Forall (fun d => length d = 16%nat) (rx_ring p) /\ Forall (fun d => length d = 16%nat) (tx_ring p).

Definition ready (n : Rtl8168) (p : Pages) : Prop :=
  rx_i n = 0 /\ tx_i n = 0 /\ length (mac n) = 6%nat /\
  exists p0, pages_shape p0 /\ descs_shape p0 /\ p = init_pages (phys_skew n) p0.

Lemma r68_probe_ready off p w w' p' n : pages_shape p -> descs_shape p ->
  probe off p w = (w', (p', Some n)) -> ready n p'.
Proof.
  intros Hp Hd. unfold probe. revert w. induction DIDS as [|did dids IH]; intros w; [done|]. cbn [probe_ids].
  destruct (pick_function _ _ w) as [w1 [f|]]; [|apply IH].
  destruct (first_pci_mem_bar _ _) as [w2 [bar|]]; [|done]. unfold try_init.
  destruct (mm_r32 _ w2) as [w3 id]. case_decide; [apply IH|].
  destruct (mm_r32 _ w3) as [w4 lo]. destruct (mm_r32 _ w4) as [w5 hi]. cbv zeta.
  intros [= _ <- <-]. split_and!; try done. by exists p.
Qed.

Lemma r68_zero_shape : pages_shape PAGES_zero /\ descs_shape PAGES_zero.
Proof.
  unfold pages_shape, descs_shape, PAGES_zero. cbn [rx_ring tx_ring rx_buf tx_buf]. rewrite !length_replicate.
  split_and!; try done; apply Forall_replicate, length_replicate.
Qed.

(** The addresses of the pages fit the card's registers. *)
Lemma phys_range skew x : 0 <= x < 2 ^ 64 -> 0 <= phys skew x < 2 ^ 64.
Proof. intros Hx. unfold phys. destruct skew; [apply Z.mod_pos_bound; lia|done]. Qed.

Lemma init_ring_ok skew off_buf ctrl l i dd : Forall (fun d => length d = 16%nat) l ->
  0 <= ctrl < 2 ^ 32 -> 0 <= Z.lor ctrl EOR < 2 ^ 32 -> Z.land ctrl EOR = 0 ->
  0 <= phys skew (PAGES_at + off_buf i) < 2 ^ 64 -> init_ring skew off_buf ctrl l !! i = Some dd ->
  desc_ok (length l) (fun i => phys skew (PAGES_at + off_buf i)) i dd /\
  rd_ctrl dd = if decide (S i = length l) then Z.lor ctrl EOR else ctrl.
Proof.
  intros H16 Hc Hce He Hpa. unfold init_ring. rewrite list_lookup_imap. destruct (l !! i) as [d0|] eqn:E0; [|done].
  pose proof (Forall_lookup_1 _ _ _ _ H16 E0) as Hl. cbn [fmap option_fmap option_map].
  set (d1 := rd_set_ctrl ctrl (rd_set_buf (phys skew (PAGES_at + off_buf i)) d0)).
  assert (length d1 = 16%nat) as L1 by (by apply length_set_ctrl, length_set_buf).
  assert (rd_ctrl d1 = ctrl) as C1 by (by apply ctrl_set_ctrl).
  assert (rd_buf d1 = phys skew (PAGES_at + off_buf i)) as B1 by (unfold d1; by rewrite buf_set_ctrl, buf_set_buf).
  unfold desc_ok. apply lookup_lt_Some in E0. intros [= <-].
  destruct (decide (S i = length l)) as [Hlast|Hlast].
  - rewrite decide_True by lia. rewrite C1, ctrl_set_ctrl, buf_set_ctrl by done. split; [|done].
    split; [by apply length_set_ctrl|]. split; [done|]. by rewrite Z.land_lor_distr_l, He, Z.land_diag, Z.lor_0_l.
  - rewrite decide_False by lia. by rewrite C1.
Qed.

Lemma zip_cells (cell : bytes -> bytes -> option bytes) N (l k : list bytes) : length l = N -> length k = N ->
  (forall i dd, l !! i = Some dd -> forall b, cell dd b = None) -> zip_with cell l k = replicate N None.
Proof.
  intros Hl Hk Hc. apply list_eq. intros i. destruct (decide (i < N)%nat) as [Hi|Hi].
  - destruct (lookup_lt_is_Some_2 l i) as [dd Edd]; [lia|]. destruct (lookup_lt_is_Some_2 k i) as [b Eb]; [lia|].
    rewrite lookup_replicate_2 by done. apply lookup_zip_with_Some. exists dd, b. split; [by rewrite (Hc i)|done].
  - rewrite !lookup_ge_None_2; [done|rewrite length_replicate; lia|rewrite length_zip_with; lia].
Qed.

Lemma length_init_ring skew off_buf ctrl l : length (init_ring skew off_buf ctrl l) = length l.
Proof. apply length_imap. Qed.

Lemma map_zero_length n (l : list bytes) : Forall (fun b => length b = n) l ->
  Forall (fun b => length b = n) (map (map (fun _ => 0)) l).
Proof. intros Hl. apply Forall_map. eapply Forall_impl; [exact Hl|]. intros b Hb. cbn. by rewrite length_map. Qed.

Lemma r68_ready_rep n p x : ready n p -> 0 <= PAGES_at (W := W) < 2 ^ 63 -> rxh x = 0%nat -> txh x = 0%nat ->
  placed (place_of n) n /\ rep (place_of n) n x p (incoming x) (sent x).
Proof.
  intros (Hri & Hti & _ & p0 & (L1 & L2 & L3 & L4 & L5 & L6) & [D1 D2] & ->) Hat Eh Et.
  assert (forall i, (i < NUM_RX)%nat -> 0 <= phys (phys_skew n) (PAGES_at + off_rx_buf i) < 2 ^ 64) as Hrx.
  { intros i Hi. apply phys_range. unfold off_rx_buf, NUM_RX, RX_PKT in *. lia. }
  assert (forall i, (i < NUM_TX)%nat -> 0 <= phys (phys_skew n) (PAGES_at + off_tx_buf i) < 2 ^ 64) as Htx.
  { intros i Hi. apply phys_range. unfold off_tx_buf, off_rx_buf, NUM_TX, TX_PKT, NUM_RX, RX_PKT in *. lia. }
  set (p := init_pages (phys_skew n) p0).
  assert (forall i dd, rx_ring p !! i = Some dd -> desc_ok NUM_RX (at_rx (place_of n)) i dd /\ owned dd) as Hr.
  { intros i dd Edd. pose proof (lookup_lt_Some _ _ _ Edd) as Hlt. cbn [p init_pages rx_ring] in Hlt.
    change (rx_ring p) with (init_ring (phys_skew n) off_rx_buf (Z.lor OWN (Z.of_nat RX_PKT)) (rx_ring p0)) in Edd, Hlt.
    rewrite length_init_ring, L1 in Hlt. rewrite <-L1.
    assert (0 <= Z.lor OWN (Z.of_nat RX_PKT) < 2 ^ 32 /\ 0 <= Z.lor (Z.lor OWN (Z.of_nat RX_PKT)) EOR < 2 ^ 32 /\
      Z.land (Z.lor OWN (Z.of_nat RX_PKT)) EOR = 0) as (C1 & C2 & C3) by (vm_compute; split_and!; done).
    destruct (init_ring_ok (phys_skew n) off_rx_buf _ (rx_ring p0) i dd D1 C1 C2 C3 (Hrx i Hlt) Edd) as [Hd Hc].
    split; [exact Hd|]. unfold owned. rewrite Hc. case_decide; vm_compute; done. }
  assert (forall i dd, tx_ring p !! i = Some dd -> desc_ok NUM_TX (at_tx (place_of n)) i dd /\ ~ owned dd) as Ht.
  { intros i dd Edd. pose proof (lookup_lt_Some _ _ _ Edd) as Hlt.
    change (tx_ring p) with (init_ring (phys_skew n) off_tx_buf 0 (tx_ring p0)) in Edd, Hlt.
    rewrite length_init_ring, L2 in Hlt. rewrite <-L2.
    assert (0 <= 0 < 2 ^ 32 /\ 0 <= Z.lor 0 EOR < 2 ^ 32) as [C1 C2] by (vm_compute; split_and!; done).
    destruct (init_ring_ok (phys_skew n) off_tx_buf 0 (tx_ring p0) i dd D2 C1 C2 (Z.land_0_l _) (Htx i Hlt) Edd) as [Hd Hc].
    split; [exact Hd|]. unfold owned. rewrite Hc. intros Hn. apply Hn. by case_decide. }
  assert (pages_shape p) as Hsh.
  { unfold pages_shape, p, init_pages. cbn [rx_ring tx_ring rx_buf tx_buf].
    split; [exact (eq_trans (length_init_ring _ _ _ _) L1)|].
    split; [exact (eq_trans (length_init_ring _ _ _ _) L2)|].
    split; [exact (eq_trans (length_map _ _) L3)|]. split; [exact (map_zero_length _ _ L4)|].
    split; [exact (eq_trans (length_map _ _) L5)|exact (map_zero_length _ _ L6)]. }
  pose proof Hsh as (S1 & S2 & S3 & _ & S5 & _).
  split; [split; [done|]; intros i Hi; split; [done|by apply Hrx]|].
  split; [exact Hsh|]. split; [split|split].
  - intros i dd Edd. by apply Hr.
  - intros i dd Edd. destruct (Ht i dd Edd) as [Hd Ho]. done.
  - exists []. split; [|done]. unfold rx_rep, rx_at. rewrite Hri, Eh. split; [|by split].
    unfold rx_cells. rewrite (zip_cells rx_cell NUM_RX); [apply ring_replicate|done|done|].
    intros i dd Edd b. unfold rx_cell. by rewrite decide_True by (by eapply Hr).
  - exists []. split; [|by rewrite app_nil_r]. unfold tx_rep, tx_at. rewrite Hti, Et. split; [|split; [unfold NUM_TX; lia|done]].
    unfold tx_cells. rewrite (zip_cells tx_cell NUM_TX); [apply ring_replicate|done|done|].
    intros i dd Edd b. unfold tx_cell. by rewrite decide_False by (by eapply Ht).
Qed.
End start.

(** ** A card in memory

    It takes a descriptor of each ring at every look. *)

Definition mem_place : Place := {|
  at_mmio := 0xF0000000; at_rx := fun i => 0x100000 + off_rx_buf i; at_tx := fun i => 0x100000 + off_tx_buf i |}.

Record Box := { box_wire : Wire; box_pci : PciMem }.
#[export] Instance Box_eta : Settable Box := fun w => Build_Box w.(box_wire) w.(box_pci).

#[export] Instance released_dec dd c : Decision (released dd c).
Proof. unfold released. apply _. Defined.

Definition box_rx (x : Wire) (p : Pages) : Wire * Pages :=
  match incoming x, rx_ring p !! rxh x, rx_buf p !! rxh x with
  | f :: fs, Some dd, Some b =>
      let c := Z.lor (Z.land (rd_ctrl dd) EOR) (Z.of_nat (length f)) in
      if decide (owned dd /\ rd_buf dd = at_rx mem_place (rxh x) /\ (0 < length f <= RX_PKT)%nat /\
        released dd c /\ Z.land c 0x3FFF = Z.of_nat (length f)) then
        (x <| incoming := fs |> <| rxh := after dd (rxh x) |>,
         p <| rx_ring ::= <[rxh x := rd_set_ctrl c dd]> |> <| rx_buf ::= <[rxh x := f ++ drop (length f) b]> |>)
      else (x, p)
  | _, _, _ => (x, p)
  end.

Definition box_tx (x : Wire) (p : Pages) : Wire * Pages :=
  match tx_ring p !! txh x, tx_buf p !! txh x with
  | Some dd, Some b =>
      let c := Z.land (rd_ctrl dd) EOR in
      if decide (owned dd /\ rd_buf dd = at_tx mem_place (txh x) /\
        Z.land (rd_ctrl dd) (Z.lor FS LS) = Z.lor FS LS /\ released dd c) then
        (x <| sent ::= fun l => l ++ [take (Z.to_nat (Z.land (rd_ctrl dd) 0xFFFF)) b] |> <| txh := after dd (txh x) |>,
         p <| tx_ring ::= <[txh x := rd_set_ctrl c dd]> |>)
      else (x, p)
  | _, _ => (x, p)
  end.

Definition box_card (w : Box) (p : Pages) : Box * Pages :=
  let '(x, p) := box_rx (box_wire w) p in
  let '(x, p) := box_tx x p in (w <| box_wire := x |>, p).

#[export] Instance Box_machine : Rtl8168Machine Box := {|
  r68_mmio := {|
    mmio_ports := {|
      inb := fun _ w => (w, 0); outb := fun _ _ w => w; inw := fun _ w => (w, 0); outw := fun _ _ w => w;
      in32 := fun p w => (w, (in32 p w.(box_pci)).2);
      out32 := fun p v w => w <| box_pci ::= out32 p v |> |};
    mm_r8 := fun _ w => (w, 0); mm_r16 := fun _ w => (w, 0); mm_r32 := fun _ w => (w, 0x12005452);
    mm_w8 := fun _ _ w => w; mm_w16 := fun _ _ w => w; mm_w32 := fun _ _ w => w; mm_w64 := fun _ _ w => w |};
  PAGES_at := 0x100000;
  card := box_card |}.

Lemma r68_box_rx_steps x p : rtc (card_step mem_place) (x, p) (box_rx x p).
Proof.
  unfold box_rx. destruct (incoming x) as [|f fs] eqn:Ei; [done|]. destruct (rx_ring p !! rxh x) as [dd|] eqn:Ed; [|done].
  destruct (rx_buf p !! rxh x) as [b|] eqn:Eb; [|done]. cbv zeta. case_decide as Hc; [|done].
  destruct Hc as (H1 & H2 & H3 & H4 & H5). apply rtc_once. by eapply receives.
Qed.

Lemma r68_box_tx_steps x p : rtc (card_step mem_place) (x, p) (box_tx x p).
Proof.
  unfold box_tx. destruct (tx_ring p !! txh x) as [dd|] eqn:Ed; [|done].
  destruct (tx_buf p !! txh x) as [b|] eqn:Eb; [|done]. cbv zeta. case_decide as Hc; [|done].
  destruct Hc as (H1 & H2 & H3 & H4). apply rtc_once. by apply sends.
Qed.

#[export, refine] Instance Box_device : Rtl8168Device Box mem_place := {| wire := box_wire |}.
Proof.
  - intros w p _. cbn [card Box_machine]. unfold box_card. pose proof (r68_box_rx_steps (box_wire w) p) as Hr.
    destruct (box_rx _ _) as [x1 p1]. pose proof (r68_box_tx_steps x1 p1) as Ht.
    destruct (box_tx _ _) as [x2 p2]. by transitivity (x1, p1).
  - done.
  - done.
Defined.

(** An RTL8168 behind a 64-bit memory BAR that follows an I/O BAR. *)
Definition realtek_function : PciMem := {| pm_latch := 0; pm_regs := map (fun r => (cfg_addr (0, 5, 0) r.1, r.2))
  [(0x00, 0x816810EC); (0x04, 0); (0x08, 0x02000006); (0x10, 0xC001); (0x14, 0); (0x18, 0xF0000004); (0x1C, 0)] |}.

Definition cold_box (frames : list bytes) : Box := {|
  box_wire := {| incoming := frames; sent := []; rxh := 0; txh := 0 |}; box_pci := realtek_function |}.

Definition started (frames : list bytes) : Box * Rtl8168 * Pages :=
  match probe None PAGES_zero (cold_box frames) with
  | (w, (p, Some n)) => (w, n, p)
  | (w, (p, None)) => (w, {| mmio := 0; phys_skew := None; mac := []; rx_packets := 0; rx_i := 0; tx_i := 0 |}, p)
  end.

Definition two_frames : list bytes := [[2; 0; 0; 65]; [2; 0; 0; 66; 67]].
Definition box_n : Rtl8168 := (started two_frames).1.2.
Definition box_w : Box := (started two_frames).1.1.
Definition box_p : Pages := (started two_frames).2.

Lemma r68_box_probe : probe None PAGES_zero (cold_box two_frames) = (box_w, (box_p, Some box_n)).
Proof. vm_compute. reflexivity. Qed.

Lemma r68_box_place : place_of box_n = mem_place.
Proof.
  assert (mmio box_n = 0xF0000000 /\ phys_skew box_n = None) as [Em Es] by (vm_compute; done).
  unfold place_of. by rewrite Em, Es.
Qed.

Lemma r68_started_inv n (w : Box) p : ready n p -> rxh (box_wire w) = 0%nat -> txh (box_wire w) = 0%nat ->
  place_of n = mem_place -> r68_inv n w p.
Proof.
  intros Hr Eh Et E. destruct (r68_ready_rep n p (box_wire w) Hr) as [Hp Hrep]; [by vm_compute|done|done|].
  rewrite E in Hrep, Hp. exact (proj1 (r68_inv_rep n w p _ _ Hp Hrep)).
Qed.

Lemma r68_box_inv : r68_inv box_n box_w box_p.
Proof.
  assert (rxh (box_wire box_w) = 0%nat /\ txh (box_wire box_w) = 0%nat) as [Eh Et] by (vm_compute; split; reflexivity).
  pose proof (r68_probe_ready None PAGES_zero _ _ _ _ (proj1 r68_zero_shape) (proj2 r68_zero_shape) r68_box_probe) as Hr.
  exact (r68_started_inv box_n box_w box_p Hr Eh Et r68_box_place).
Qed.

(** ** Properties *)

Definition op_fits (op : NetOp) : Prop :=
  match op with Poll room => (RX_PKT <= length room)%nat | Send _ => True end.

(** C13: Over a card that follows the data sheet, however it interleaves with
    polls and transmissions: every call returns, the frames received are what
    the card stored, each once, whole and in order, across any number of laps of
    the ring; every packet the driver accepts is put on the wire once and in
    order, and the end-of-ring marks are never lost. *)
Theorem rtl8168_streams {W} `{Rtl8168Device W d} ops n (w : W) p :
  r68_inv n w p -> Forall (fun f => (length f <= RX_PKT)%nat) (ins_of n (wire w) p) -> Forall op_fits ops ->
  exists n' w' p' fs ps, run_ops poll_rx_packet transmit ops n w p = (w', Ret (n', p', fs, ps)) /\
    r68_inv n' w' p' /\ rings_ok d p' /\ fs ++ ins_of n' (wire w') p' = ins_of n (wire w) p /\
    ps `sublist_of` packets ops /\ outs_of (wire w') p' = outs_of (wire w) p ++ ps.
Proof.
  intros Hi Hf Hops. destruct (run_ops_ok _ _ rtl8168_queues ops n w p Hi Hf Hops)
    as (n' & w' & p' & fs & gs & ps & E & Hi' & <-%list_eq_Forall2 & Ei & Eo & Hs & _).
  exists n', w', p', fs, ps. cbn in Eo. rewrite map_id in Eo. pose proof Hi' as [_ (_ & Hok & _)]. by split_and!.
Qed.

Definition some_ops : list NetOp :=
  [Poll (replicate RX_PKT 0); Send [70; 71]; Poll (replicate RX_PKT 0); Send [72]; Poll (replicate RX_PKT 0)].

Lemma rtl8168_streams_witness :
  exists n' w' p' fs ps, run_ops poll_rx_packet transmit some_ops box_n box_w box_p = (w', Ret (n', p', fs, ps)) /\
    fs ++ ins_of n' (wire w') p' = two_frames /\ outs_of (wire w') p' = ps.
Proof.
  destruct (rtl8168_streams some_ops box_n box_w box_p) as (n' & w' & p' & fs & ps & E & _ & _ & Ei & _ & Eo).
  - exact r68_box_inv.
  - apply (bool_decide_unpack _). vm_compute. exact I.
  - unfold some_ops. repeat (apply Forall_cons; split; [first [exact I|apply Nat.leb_le; vm_compute; reflexivity]|]). constructor.
  - exists n', w', p', fs, ps. split; [exact E|]. split; [rewrite Ei|rewrite Eo]; vm_compute; reflexivity.
Defined.
