(* ===== verification/Gpt.v ===== *)
(** * Boot flags on the install target ([kernel/src/gpt_boot_patch.rs])

    After a sector clone, [patch_install_target_boot] sets the boot attributes of
    the first GPT entry and repairs both CRCs, or marks the first MBR partition
    active.  The functions run in [io], a state monad over the device of
    [BlockDev] whose [None] is the source's [return false] / [return None].
    [u64] and [u32] sums wrap, as in the release build. *)

From S2P Require Import Prelude BlockDev.

Definition SIG_EFI_PART : bytes := Eval vm_compute in bs "EFI PART".
Definition GPT_ATTR_BOOT_MASK : Z := Z.lor (Z.shiftl 1 0) (Z.shiftl 1 2).

(** ** CRC-32 *)

Definition crc32_bit (crc : Z) : Z :=
  if decide (Z.land crc 1 <> 0) then Z.lxor (Z.shiftr crc 1) 0xEDB88320 else Z.shiftr crc 1.

Definition crc32_byte (crc b : Z) : Z := Nat.iter 8 crc32_bit (Z.lxor crc b).
Definition crc32_update (crc : Z) (data : bytes) : Z := fold_left crc32_byte data crc.
Definition crc32_finish (crc : Z) : Z := Z.lxor crc 0xFFFFFFFF.

(** The CRC of a whole buffer. *)
Definition crc32 (data : bytes) : Z := crc32_finish (crc32_update 0xFFFFFFFF data).

(** ** Fields *)

Definition get_range (buf : bytes) (a b : nat) : option bytes :=
  if decide (a <= b <= length buf)%nat then Some (slice buf a b) else None.

Definition read_u32_le (buf : bytes) (off : nat) : option Z := of_le <$> get_range buf off (off + 4).
Definition read_u64_le (buf : bytes) (off : nat) : option Z := of_le <$> get_range buf off (off + 8).

Definition write_u32_le (buf : bytes) (off : nat) (v : Z) : bytes :=
  if decide (off + 4 <= length buf)%nat then list_inserts off (to_le 4 v) buf else buf.
Definition write_u64_le (buf : bytes) (off : nat) (v : Z) : bytes :=
  if decide (off + 8 <= length buf)%nat then list_inserts off (to_le 8 v) buf else buf.

(** ** Device programs *)

Section patch.
Context {D : Type} `{BlockDev D}.

Definition io (A : Type) : Type := D -> D * option A.

#[local] Instance io_ret : MRet io := fun A a d => (d, Some a).
#[local] Instance io_bind : MBind io := fun A B k m d =>
  match m d with
  | (d, Some a) => k a d
  | (d, None) => (d, None)
  end.

Definition fail_if (P : Prop) `{Decision P} : io unit :=
  fun d => if decide P then (d, None) else (d, Some tt).
Definition lift {A} (o : option A) : io A := fun d => (d, o).
Definition read_sector_io (lba : Z) : io bytes := fun d => read_sector d lba.
Definition write_sector_io (lba : Z) (b : bytes) : io unit := fun d =>
  let '(d, ok) := write_sector d lba b in (d, if ok then Some tt else None).
Definition run_io (m : io bool) (d : D) : D * bool :=
  let '(d, r) := m d in (d, default false r).

(** The loop of [crc_partition_bytes]; each round advances [pos] to the next
    sector boundary, so [total_bytes / 512 + 1] rounds are enough. *)
Fixpoint crc_loop (fuel : nat) (entry_lba : Z) (total pos : nat) (crc : Z) : io Z :=
  match fuel with
  | O => lift None
  | S fuel =>
      if decide (pos < total)%nat then
        let o := (pos mod 512)%nat in
        buf ← read_sector_io (wrap64 (entry_lba + Z.of_nat (pos / 512)));
        let chunk := Nat.min (512 - o) (total - pos) in
        crc_loop fuel entry_lba total (pos + chunk) (crc32_update crc (slice buf o (o + chunk)))
      else mret (crc32_finish crc)
  end.

Definition crc_partition_bytes (entry_lba : Z) (total : nat) : io Z :=
  crc_loop (total / 512 + 2) entry_lba total 0 0xFFFFFFFF.

Definition try_patch_gpt (hdr : bytes) : io bool :=
  fail_if (get_range hdr 0 8 <> Some SIG_EFI_PART);;
  hdr_size ← lift (read_u32_le hdr 0x0C);
  fail_if (hdr_size < 92 \/ hdr_size > 512);;
  my_lba ← lift (read_u64_le hdr 0x18);
  fail_if (my_lba <> 1);;
  entry_lba ← lift (read_u64_le hdr 0x48);
  num_entries ← lift (read_u32_le hdr 0x50);
  entry_size ← lift (read_u32_le hdr 0x54);
  fail_if (num_entries = 0 \/ entry_size < 128 \/ entry_size > 4096);;
  fail_if (usize_max < num_entries * entry_size);;
  let total_bytes := num_entries * entry_size in
  fail_if (total_bytes > 2 * 1024 * 1024);;
  ent ← read_sector_io entry_lba;
  fail_if (Forall (fun b => b = 0) (slice ent 0 16));;
  let cur := default 0 (read_u64_le ent 48) in
  let new_attrs := Z.lor cur GPT_ATTR_BOOT_MASK in
  if decide (new_attrs = cur) then mret true
  else
    let ent := write_u64_le ent 48 new_attrs in
    write_sector_io entry_lba ent;;
    part_crc ← crc_partition_bytes entry_lba (Z.to_nat total_bytes);
    hdr ← read_sector_io 1;
    let hdr := write_u32_le hdr 0x58 part_crc in
    let hdr := write_u32_le hdr 0x10 0 in
    fail_if (hdr_size > 128);;
    let n := Z.to_nat hdr_size in
    let tmp := list_inserts 0 (take n hdr) (replicate 128 0) in
    let tmp := list_inserts 0x10 (replicate 4 0) tmp in
    let hc := crc32_finish (crc32_update 0xFFFFFFFF (take n tmp)) in
    let hdr := write_u32_le hdr 0x10 hc in
    write_sector_io 1 hdr;;
    mret true.

(** The four status bytes of the MBR partition table. *)
Definition clear_active (buf : bytes) : bytes :=
  foldl (fun buf i => <[(0x1BE + i * 16)%nat := 0]> buf) buf (seq 0 4).

Definition try_patch_mbr : io bool :=
  buf ← read_sector_io 0;
  fail_if (buf !!! 510%nat <> 0x55 \/ buf !!! 511%nat <> 0xAA);;
  fail_if (buf !!! 0x1C2%nat = 0xEE);;
  let buf := clear_active buf in
  let buf := <[0x1BE%nat := 0x80]> buf in
  write_sector_io 0 buf;;
  mret true.

Definition patch_install_target_boot (blk : D) : D * bool :=
  if decide (sector_size blk <> 512) then (blk, false)
  else
    match read_sector blk 1 with
    | (blk, None) => (blk, false)
    | (blk, Some hdr) =>
        if decide (get_range hdr 0 8 = Some SIG_EFI_PART) then run_io (try_patch_gpt hdr) blk
        else run_io try_patch_mbr blk
    end.
End patch.
Arguments io D A : clear implicits.

(** ** The CRC *)

Lemma lxor_u32 a b : 0 <= a < 2 ^ 32 -> 0 <= b < 2 ^ 32 -> 0 <= Z.lxor a b < 2 ^ 32.
Proof.
  intros Ha Hb. assert (0 <= Z.lxor a b) as H0 by (apply Z.lxor_nonneg; lia).
  split; [done|]. destruct (Z.eq_dec (Z.lxor a b) 0) as [->|]; [lia|].
  apply Z.log2_lt_pow2; [lia|]. pose proof (Z.log2_lxor a b ltac:(lia) ltac:(lia)) as Hl.
  assert (forall x, 0 <= x < 2 ^ 32 -> Z.log2 x < 32) as Hx.
  { intros x Hx. destruct (Z.eq_dec x 0) as [->|]; [cbn; lia|]. apply Z.log2_lt_pow2; lia. }
  pose proof (Hx a Ha). pose proof (Hx b Hb). lia.
Qed.

Lemma crc32_bit_range c : 0 <= c < 2 ^ 32 -> 0 <= crc32_bit c < 2 ^ 32.
Proof.
  intros Hc. assert (0 <= Z.shiftr c 1 < 2 ^ 32) as Hs.
  { rewrite Z.shiftr_div_pow2 by lia. change (2 ^ 1) with 2. split; [apply Z.div_pos; lia|].
    apply Z.div_lt_upper_bound; lia. }
  unfold crc32_bit. case_decide; [|done]. by apply lxor_u32.
Qed.

Lemma crc32_byte_range c b : 0 <= c < 2 ^ 32 -> is_byte b -> 0 <= crc32_byte c b < 2 ^ 32.
Proof.
  intros Hc Hb. unfold crc32_byte. apply Nat.iter_invariant; [intros; by apply crc32_bit_range|].
  apply lxor_u32; [done|]. unfold is_byte in Hb. lia.
Qed.

Lemma crc32_update_range c l : 0 <= c < 2 ^ 32 -> is_bytes l -> 0 <= crc32_update c l < 2 ^ 32.
Proof.
  intros Hc Hl. revert c Hc. induction Hl as [|b l Hb _ IH]; intros c Hc; [done|].
  apply IH. by apply crc32_byte_range.
Qed.

Lemma crc32_range l : is_bytes l -> 0 <= crc32 l < 2 ^ 32.
Proof. intros. apply lxor_u32; [|done]. by apply crc32_update_range. Qed.

(** Feeding chunks one after the other is feeding their concatenation. *)
Lemma crc32_update_app c l1 l2 : crc32_update c (l1 ++ l2) = crc32_update (crc32_update c l1) l2.
Proof. apply fold_left_app. Qed.

(** ** Fields *)

Lemma get_range_ok buf a b :
  (a <= b <= length buf)%nat -> get_range buf a b = Some (slice buf a b).
Proof. intros. unfold get_range. by rewrite decide_True. Qed.

Lemma write_u32_ok buf off v :
  (off + 4 <= length buf)%nat -> write_u32_le buf off v = list_inserts off (to_le 4 v) buf.
Proof. intros. unfold write_u32_le. by rewrite decide_True. Qed.

Lemma write_u64_ok buf off v :
  (off + 8 <= length buf)%nat -> write_u64_le buf off v = list_inserts off (to_le 8 v) buf.
Proof. intros. unfold write_u64_le. by rewrite decide_True. Qed.

(** ** Running a program *)

Section inversion.
Context {D : Type} `{BlockDevOk D}.

(** Two devices with the same contents. *)
Definition same_disk (d d' : D) : Prop :=
  capacity d' = capacity d /\ sector_size d' = sector_size d /\ forall l, sector d' l = sector d l.

#[export] Instance same_disk_equiv : Equivalence same_disk.
Proof.
  split; [intros d; by split_and!|intros d d' (E1 & E2 & E3); by split_and!|].
  intros d d' d'' (E1 & E2 & E3) (F1 & F2 & F3). split_and!; [congruence..|].
  intros l. by rewrite F3.
Qed.

Lemma io_bind_inv {A B} (m : io D A) (k : A -> io D B) d d' r :
  io_bind A B k m d = (d', Some r) -> exists d1 a, m d = (d1, Some a) /\ k a d1 = (d', Some r).
Proof. unfold io_bind. destruct (m d) as [d1 [a|]]; [eauto|done]. Qed.

Lemma fail_if_inv P `{Decision P} (d d' : D) r : fail_if P d = (d', Some r) -> d' = d /\ ~ P.
Proof. unfold fail_if. case_decide; [done|]. by intros [= <-]. Qed.

Lemma lift_inv {A} (o : option A) (d d' : D) r : lift o d = (d', Some r) -> d' = d /\ o = Some r.
Proof. unfold lift. by intros [= -> ->]. Qed.

Lemma read_same d lba : same_disk d (read_sector d lba).1.
Proof. split_and!; [apply read_capacity|apply read_sector_size|intros; apply read_keeps]. Qed.

Lemma read_io_inv lba d d' b :
  read_sector_io lba d = (d', Some b) -> same_disk d d' /\ b = sector d lba /\ 0 <= lba < capacity d.
Proof.
  unfold read_sector_io. intros E. pose proof (read_same d lba) as Hs.
  pose proof (read_returns d lba b) as Hr. rewrite E in Hs, Hr. split; [done|]. by apply Hr.
Qed.

(** [d'] is [d] with the sector [lba] replaced by [b]. *)
Definition disk_upd (d : D) (lba : Z) (b : bytes) (d' : D) : Prop :=
  capacity d' = capacity d /\ sector_size d' = sector_size d /\
  sector d' lba = b /\ forall l, l <> lba -> sector d' l = sector d l.

Lemma write_io_inv lba b d d' r :
  sector_ok b -> write_sector_io lba b d = (d', Some r) -> disk_upd d lba b d'.
Proof.
  intros Hb. unfold write_sector_io. destruct (write_sector d lba b) as [d1 ok] eqn:E.
  destruct ok; [|done]. intros [= <- _].
  pose proof (write_capacity d lba b) as H1. pose proof (write_sector_size d lba b) as H2.
  pose proof (write_stores d lba b Hb) as H3. pose proof (fun l => write_keeps d lba b l) as H4.
  rewrite E in *. cbn in *. split_and!; auto.
Qed.

Lemma disk_upd_same d d1 d' lba b :
  same_disk d d1 -> disk_upd d1 lba b d' -> disk_upd d lba b d'.
Proof.
  intros (E1 & E2 & E3) (F1 & F2 & F3 & F4). split_and!; [congruence..|].
  intros l Hl. by rewrite F4.
Qed.

Lemma same_disk_upd d d1 d' lba b :
  disk_upd d lba b d1 -> same_disk d1 d' -> disk_upd d lba b d'.
Proof.
  intros (F1 & F2 & F3 & F4) (E1 & E2 & E3). split_and!; [congruence..|].
  intros l Hl. by rewrite E3, F4.
Qed.
End inversion.

(** Opens the next step of a program that is known to succeed. *)
Ltac step H :=
  apply io_bind_inv in H as (? & ? & ?Hstep & H);
  first
    [ apply fail_if_inv in Hstep as [-> ?Hok]
    | apply lift_inv in Hstep as [-> ?Hval]
    | apply read_io_inv in Hstep as (?Hsame & -> & ?Hcap)
    | idtac ].

(** ** The partition-array CRC *)

Lemma ret_inv {D A} (d d' : D) (a b : A) : (d, Some a) = (d', Some b) -> d' = d /\ b = a.
Proof. by intros [= -> ->]. Qed.

Section array.
Context {D : Type} `{BlockDevOk D}.

(** [n] consecutive sectors from the [k]-th one after [e]. *)
Definition sectors (d : D) (e : Z) (k n : nat) : bytes :=
  concat ((fun i => sector d (wrap64 (e + Z.of_nat i))) <$> seq k n).

(** The first [total] bytes from sector [e] on. *)
Definition part_array (d : D) (e : Z) (total : nat) : bytes :=
  take total (sectors d e 0 (total / 512 + 1)).

Lemma sectors_S d e k n :
  sectors d e k (S n) = sector d (wrap64 (e + Z.of_nat k)) ++ sectors d e (S k) n.
Proof. reflexivity. Qed.

Lemma sectors_same d d' e k n : same_disk d d' -> sectors d' e k n = sectors d e k n.
Proof.
  intros (_ & _ & E). unfold sectors. f_equal. apply list_fmap_ext. intros. apply E.
Qed.

Lemma length_sector d l : length (sector d l) = 512%nat.
Proof. apply sector_wf. Qed.

Lemma sectors_bytes d e k n : is_bytes (sectors d e k n).
Proof. apply Forall_concat, Forall_fmap, Forall_true. intros i. apply sector_wf. Qed.

(** What one round reads, and where it goes. *)
Lemma crc_loop_step fuel e total k crc (d : D) :
  (512 * k < total)%nat ->
  crc_loop (S fuel) e total (512 * k) crc d =
    match read_sector d (wrap64 (e + Z.of_nat k)) with
    | (d1, Some b) =>
        let chunk := Nat.min 512 (total - 512 * k) in
        crc_loop fuel e total (512 * k + chunk) (crc32_update crc (take chunk b)) d1
    | (d1, None) => (d1, None)
    end.
Proof.
  intros Hk. cbn [crc_loop]. rewrite decide_True by done.
  replace (512 * k / 512)%nat with k by (rewrite Nat.mul_comm, Nat.div_mul; lia).
  replace ((512 * k) mod 512)%nat with 0%nat by (rewrite Nat.mul_comm, Nat.Div0.mod_mul; lia).
  cbn [Nat.sub Nat.add]. unfold mbind, io_bind, read_sector_io.
  destruct (read_sector _ _) as [d1 [b|]]; [|done]. by rewrite slice_0.
Qed.

Lemma crc_loop_end fuel e total pos crc (d : D) :
  (total <= pos)%nat -> crc_loop (S fuel) e total pos crc d = (d, Some (crc32_finish crc)).
Proof. intros Hp. cbn [crc_loop]. by rewrite decide_False by lia. Qed.

(** The loop computes the CRC of the bytes it walks over. *)
Lemma crc_loop_inv fuel e total k m crc (d d' : D) c :
  crc_loop fuel e total (512 * k) crc d = (d', Some c) -> (total <= 512 * (k + m))%nat ->
  same_disk d d' /\
  c = crc32_finish (crc32_update crc (take (total - 512 * k) (sectors d e k m))).
Proof.
  revert k m crc d. induction fuel as [|fuel IH]; intros k m crc d E Hm; [done|].
  destruct (decide (512 * k < total)%nat) as [Hk|Hk].
  2:{ rewrite crc_loop_end in E by lia. apply ret_inv in E as [-> ->]. split; [reflexivity|].
      by replace (total - 512 * k)%nat with 0%nat by lia. }
  rewrite crc_loop_step in E by done. destruct m as [|m]; [lia|].
  destruct (read_sector d _) as [d1 [b|]] eqn:Hr; [|done].
  apply read_io_inv in Hr as (Hs & -> & _).
  rewrite sectors_S, take_app, length_sector, crc32_update_app. cbn zeta in E.
  destruct (decide (512 <= total - 512 * k)%nat) as [Hc|Hc].
  - replace (512 * k + _)%nat with (512 * S k)%nat in E by lia. apply (IH (S k) m) in E as [Hs' ->]; [|lia].
    split; [by etransitivity|]. rewrite (sectors_same d d1) by done.
    replace (total - 512 * k - 512)%nat with (total - 512 * S k)%nat by lia.
    rewrite (take_ge (sector d _) (Nat.min _ _)) by (rewrite length_sector; lia).
    by rewrite (take_ge (sector d _) (total - 512 * k)) by (rewrite length_sector; lia).
  - destruct fuel as [|fuel]; [done|]. rewrite crc_loop_end in E by lia.
    apply ret_inv in E as [-> ->]. split; [done|].
    replace (total - 512 * k - 512)%nat with 0%nat by lia. rewrite take_0.
    by replace (Nat.min 512 (total - 512 * k)) with (total - 512 * k)%nat by lia.
Qed.

Lemma crc_partition_bytes_inv e total (d d' : D) c :
  crc_partition_bytes e total d = (d', Some c) ->
  same_disk d d' /\ c = crc32 (part_array d e total).
Proof.
  intros E. apply (crc_loop_inv _ _ _ 0 (total / 512 + 1)) in E as [Hs ->].
  - split; [done|]. by rewrite Nat.sub_0_r.
  - pose proof (Nat.div_mod_eq total 512). pose proof (Nat.mod_upper_bound total 512). lia.
Qed.

End array.

(** ** Specification *)

(** The header with its own CRC field zeroed has the stored CRC. *)
Definition header_crc_ok (n : nat) (hdr : bytes) : Prop :=
  of_le (slice hdr 16 20) = crc32 (take n (list_inserts 16 (replicate 4 0) hdr)).
Definition part_crc (hdr : bytes) : Z := of_le (slice hdr 88 92).
Definition entry_lba (hdr : bytes) : Z := of_le (slice hdr 72 80).
Definition header_size (hdr : bytes) : Z := of_le (slice hdr 12 16).
Definition array_bytes (hdr : bytes) : Z := of_le (slice hdr 80 84) * of_le (slice hdr 84 88).
(** The attribute word of the first entry. *)
Definition attrs (ent : bytes) : Z := of_le (slice ent 48 56).
Definition boot_attrs (a : Z) : Z := Z.lor a GPT_ATTR_BOOT_MASK.

(** The header rewrite at the end of [try_patch_gpt]. *)
Definition repair (n : nat) (pc : Z) (hdr : bytes) : bytes :=
  let hdr := write_u32_le hdr 0x58 pc in
  let hdr := write_u32_le hdr 0x10 0 in
  let tmp := list_inserts 0 (take n hdr) (replicate 128 0) in
  let tmp := list_inserts 0x10 (replicate 4 0) tmp in
  write_u32_le hdr 0x10 (crc32_finish (crc32_update 0xFFFFFFFF (take n tmp))).

Lemma sector_ok_inserts off src b :
  sector_ok b -> is_bytes src -> sector_ok (list_inserts off src b).
Proof. intros [Hl Hb] Hs. split; [by rewrite length_inserts|by apply Forall_inserts]. Qed.

Lemma inserts_same {A} off (src s : list A) :
  (off + length src <= length s)%nat -> slice s off (off + length src) = src ->
  list_inserts off src s = s.
Proof.
  intros Hl E. rewrite inserts_split by done. unfold slice in E.
  rewrite <-E at 1. replace (off + length src - off)%nat with (length src) by lia.
  rewrite <-drop_drop, (take_drop (length src)). apply take_drop.
Qed.

Lemma inserts_app_l {A} off (src l1 l2 : list A) :
  (off + length src <= length l1)%nat -> list_inserts off src (l1 ++ l2) = list_inserts off src l1 ++ l2.
Proof.
  intros Hl. rewrite (inserts_split off src l1), inserts_split by (rewrite ?length_app; lia).
  rewrite take_app_le, drop_app_le by lia. by rewrite <-!app_assoc.
Qed.

Section repair.
Context (n : nat) (pc : Z) (hdr : bytes).
Context (Hh : sector_ok hdr) (Hn : (92 <= n <= 128)%nat) (Hpc : 0 <= pc < 2 ^ 32).

Let h2 := list_inserts 16 (replicate 4 0) (list_inserts 88 (to_le 4 pc) hdr).

Lemma h2_ok : sector_ok h2.
Proof. repeat apply sector_ok_inserts; [done|apply is_bytes_to_le|by_decide]. Qed.

Lemma length_h2 : length h2 = 512%nat.
Proof. apply h2_ok. Qed.

Lemma repair_eq : repair n pc hdr = list_inserts 16 (to_le 4 (crc32 (take n h2))) h2.
Proof.
  destruct Hh as [Hl _]. pose proof length_h2 as Hl2. unfold repair.
  rewrite (write_u32_ok hdr) by lia.
  rewrite (write_u32_ok (list_inserts _ _ hdr)) by (rewrite length_inserts; lia).
  change (to_le 4 0) with (replicate 4 0). fold h2. rewrite write_u32_ok by lia. do 2 f_equal.
  unfold crc32. do 2 f_equal.
  rewrite (inserts_split 0) by (rewrite length_take, length_replicate; lia).
  rewrite take_0, app_nil_l.
  rewrite inserts_app_l by (rewrite length_replicate, length_take; lia).
  rewrite inserts_same; [|rewrite length_replicate, length_take; lia|].
  - by rewrite take_app_length' by (rewrite length_take; lia).
  - rewrite length_replicate, <-slice_0, slice_slice by lia. unfold h2.
    apply slice_inserts_in; [done|rewrite length_inserts; lia].
Qed.

Lemma repair_ok : sector_ok (repair n pc hdr).
Proof. rewrite repair_eq. apply sector_ok_inserts; [apply h2_ok|apply is_bytes_to_le]. Qed.

Lemma repair_crc : header_crc_ok n (repair n pc hdr).
Proof.
  pose proof length_h2 as Hl. pose proof Hh as [Hlh _]. unfold header_crc_ok. rewrite repair_eq.
  rewrite slice_inserts_in by (rewrite ?length_to_le; lia).
  rewrite of_le_to_le_small by (apply crc32_range, Forall_take, h2_ok).
  rewrite inserts_twice by (rewrite ?length_to_le, ?length_replicate; lia).
  unfold h2. rewrite inserts_twice by (rewrite ?length_inserts, !length_replicate; lia). done.
Qed.

Lemma repair_field a b : (b <= 16 \/ 20 <= a)%nat ->
  slice (repair n pc hdr) a b = slice (list_inserts 88 (to_le 4 pc) hdr) a b.
Proof.
  intros Hab. rewrite repair_eq. unfold h2.
  rewrite !slice_inserts_out by (rewrite ?length_to_le, ?length_replicate; lia). done.
Qed.

Lemma repair_part_crc : part_crc (repair n pc hdr) = pc.
Proof.
  destruct Hh as [Hl _]. unfold part_crc. rewrite repair_field by lia.
  rewrite slice_inserts_in by (rewrite ?length_to_le; lia). by apply of_le_to_le_small.
Qed.

Lemma repair_keeps a b : (b <= 16 \/ (20 <= a /\ b <= 88) \/ 92 <= a)%nat ->
  slice (repair n pc hdr) a b = slice hdr a b.
Proof.
  intros Hab. rewrite repair_field by lia. apply slice_inserts_out. rewrite length_to_le. lia.
Qed.
End repair.

Section correctness.
Context {D : Type} `{BlockDevOk D}.
Implicit Types (d : D).

(** What a successful GPT patch leaves on the disk [d']. *)
Record gpt_patched (d d' : D) : Prop := {
  gp_capacity : capacity d' = capacity d;
  gp_size : sector_size d' = sector_size d;
  gp_frame l : l <> 1 -> l <> entry_lba (sector d 1) -> sector d' l = sector d l;
  gp_entry : let e := entry_lba (sector d 1) in
    sector d' e = list_inserts 48 (to_le 8 (boot_attrs (attrs (sector d e)))) (sector d e);
  gp_header a b : (b <= 16 \/ (20 <= a /\ b <= 88) \/ 92 <= a)%nat ->
    slice (sector d' 1) a b = slice (sector d 1) a b;
  gp_header_crc : header_crc_ok (Z.to_nat (header_size (sector d 1))) (sector d' 1);
  gp_part_crc : part_crc (sector d' 1) =
    crc32 (part_array d' (entry_lba (sector d 1)) (Z.to_nat (array_bytes (sector d 1))));
}.

(** The array lies behind the header and does not wrap around. *)
Definition array_placed (hdr : bytes) : Prop :=
  2 <= entry_lba hdr /\ entry_lba hdr + array_bytes hdr < 2 ^ 64.

Lemma read_field_inv (hdr : bytes) off v :
  read_u32_le hdr off = Some v -> v = of_le (slice hdr off (off + 4)).
Proof. unfold read_u32_le, get_range. case_decide; [|done]. by intros [= <-]. Qed.
Lemma read_field8_inv (hdr : bytes) off v :
  read_u64_le hdr off = Some v -> v = of_le (slice hdr off (off + 8)).
Proof. unfold read_u64_le, get_range. case_decide; [|done]. by intros [= <-]. Qed.

(** The array is read from sectors other than the header's. *)
Lemma part_array_upd d d' e total hdr :
  2 <= e -> e + Z.of_nat total < 2 ^ 64 -> disk_upd d 1 hdr d' ->
  part_array d' e total = part_array d e total.
Proof.
  intros He Ht (_ & _ & _ & E). unfold part_array, sectors. do 2 f_equal.
  apply list_fmap_ext. intros k i [-> Hi]%lookup_seq. apply E.
  assert (total / 512 <= total)%nat by (apply Nat.Div0.div_le_upper_bound; lia).
  unfold wrap. rewrite Z.mod_small by lia. lia.
Qed.

Lemma read_attrs d e : default 0 (read_u64_le (sector d e) 48) = attrs (sector d e).
Proof.
  unfold read_u64_le. rewrite get_range_ok; [done|]. pose proof (length_sector d e). lia.
Qed.

(** The two writes of the patch, seen from the original disk. *)
Lemma gpt_patched_intro d d1 d2 d' n :
  let e := entry_lba (sector d 1) in
  let total := Z.to_nat (array_bytes (sector d 1)) in
  array_placed (sector d 1) -> 0 <= array_bytes (sector d 1) ->
  n = Z.to_nat (header_size (sector d 1)) -> (92 <= n <= 128)%nat ->
  disk_upd d e (list_inserts 48 (to_le 8 (boot_attrs (attrs (sector d e)))) (sector d e)) d1 ->
  same_disk d1 d2 ->
  disk_upd d2 1 (repair n (crc32 (part_array d1 e total)) (sector d2 1)) d' ->
  gpt_patched d d'.
Proof.
  intros e total [He Ht] Ha Hn Hn' Hu1 Hs Hu2.
  pose proof (same_disk_upd _ _ _ _ _ Hu1 Hs) as (C1 & C2 & C3 & C4).
  pose proof Hu2 as (F1 & F2 & F3 & F4).
  assert (sector d2 1 = sector d 1) as E1 by (apply C4; unfold e; lia).
  assert (part_array d' e total = part_array d1 e total) as Hp.
  { rewrite (part_array_upd d2 d') with (hdr := sector d' 1) by (try done; unfold e, total; lia).
    unfold part_array. by rewrite (sectors_same d1 d2) by done. }
  assert (0 <= crc32 (part_array d1 e total) < 2 ^ 32) as Hc
    by (apply crc32_range, Forall_take, sectors_bytes).
  rewrite E1, <-Hp in F3. rewrite <-Hp in Hc. pose proof (sector_wf d 1) as Hw. split.
  - congruence.
  - congruence.
  - intros l Hl Hl'. rewrite F4, C4 by done. done.
  - cbn zeta. fold e. rewrite F4 by (unfold e; lia). done.
  - intros a b Hab. rewrite F3. by apply repair_keeps.
  - rewrite F3, <-Hn. by apply repair_crc.
  - rewrite F3 at 1. by apply repair_part_crc.
Qed.

Lemma array_bytes_nonneg d l : 0 <= array_bytes (sector d l).
Proof.
  destruct (sector_wf d l) as [_ Hb]. unfold array_bytes.
  apply Z.mul_nonneg_nonneg; apply of_le_bound; by apply Forall_slice.
Qed.

Lemma try_patch_gpt_inv d d' :
  array_placed (sector d 1) -> try_patch_gpt (sector d 1) d = (d', Some true) ->
  let e := entry_lba (sector d 1) in
  (boot_attrs (attrs (sector d e)) = attrs (sector d e) /\ same_disk d d') \/ 
  (header_size (sector d 1) <= 128 /\ gpt_patched d d').
Proof.
  intros Hp E. cbn zeta. unfold try_patch_gpt in E.
  do 11 step E. cbv zeta in E. do 2 step E. cbn [Nat.add] in *.
  apply read_field_inv in Hval as ->, Hval2 as ->, Hval3 as ->. apply read_field8_inv in Hval1 as ->.
  cbn [Nat.add] in *.
  fold (header_size (sector d 1)) (entry_lba (sector d 1)) (array_bytes (sector d 1)) in *.
  rewrite read_attrs in E. fold (boot_attrs (attrs (sector d (entry_lba (sector d 1))))) in *.
  destruct (decide (boot_attrs _ = _)) as [Hb|Hb] in E.
  { left. split; [done|]. unfold mret, io_ret in E. by injection E as <-. }
  right. step E. rewrite write_u64_ok in Hstep by (rewrite length_sector; lia).
  apply write_io_inv in Hstep; [rename Hstep into Hu1|].
  2:{ apply sector_ok_inserts; [apply sector_wf|apply is_bytes_to_le]. }
  step E. apply crc_partition_bytes_inv in Hstep as [Hs ->].
  do 3 step E. split; [lia|].
  pose proof (array_bytes_nonneg d 1).
  assert (92 <= Z.to_nat (header_size (sector d 1)) <= 128)%nat as Hn by lia.
  unfold mret, io_ret in E. apply ret_inv in E as [-> _].
  eapply (gpt_patched_intro d _ x6 _ (Z.to_nat (header_size (sector d 1))));
    [done|done|done|done|by eapply disk_upd_same|done|].
  eapply disk_upd_same; [done|]. eapply (write_io_inv 1 (repair _ _ _)); [|exact Hstep].
  apply repair_ok; [apply sector_wf|done].
Qed.
End correctness.

(** ** The MBR path *)

(** The sector with partition 1 active and the others inactive. *)
Definition mbr_active (b : bytes) : bytes := <[0x1BE%nat := 0x80]> (clear_active b).

Lemma mbr_active_ok b : sector_ok b -> sector_ok (mbr_active b).
Proof.
  intros [Hl Hb]. unfold mbr_active, clear_active. cbn [foldl seq]. split; [by rewrite !length_insert|].
  repeat (apply Forall_insert; [|by_decide]). done.
Qed.

Lemma mbr_active_lookup b i :
  length b = 512%nat -> (i < 512)%nat ->
  mbr_active b !!! i =
    if decide (i = 446%nat) then 0x80
    else if decide (i = 462%nat \/ i = 478%nat \/ i = 494%nat) then 0 else b !!! i.
Proof.
  intros Hl Hi. unfold mbr_active, clear_active. cbn [foldl seq].
  change (0x1BE + 0 * 16)%nat with 446%nat. change (0x1BE + 1 * 16)%nat with 462%nat.
  change (0x1BE + 2 * 16)%nat with 478%nat. change (0x1BE + 3 * 16)%nat with 494%nat.
  change 0x1BE%nat with 446%nat.
  repeat match goal with |- context [<[?k:=_]> ?m !!! ?j] =>
    destruct (decide (j = k)) as [->|];
      [rewrite list_lookup_total_insert_eq by (rewrite ?length_insert; lia)
      |rewrite (list_lookup_total_insert_ne _ k j) by lia] end;
  repeat case_decide; try done; lia.
Qed.

Section theorems.
Context {D : Type} `{BlockDevOk D}.
Implicit Types (d : D).

Lemma run_io_true (m : io D bool) d d' : run_io m d = (d', true) -> m d = (d', Some true).
Proof.
  unfold run_io. destruct (m d) as [d1 [[|]|]]; cbn; [by intros [= ->]|done|done].
Qed.

Lemma patch_inv d d' :
  patch_install_target_boot d = (d', true) ->
  sector_size d = 512 /\ exists d1, same_disk d d1 /\
  if decide (get_range (sector d 1) 0 8 = Some SIG_EFI_PART)
  then try_patch_gpt (sector d1 1) d1 = (d', Some true) else try_patch_mbr d1 = (d', Some true).
Proof.
  unfold patch_install_target_boot. destruct (decide _) as [|Hz]; [done|]. apply dec_stable in Hz.
  destruct (read_sector d 1) as [d1 [hdr|]] eqn:E; [|done].
  apply read_io_inv in E as (Hs & -> & _). intros E. split; [done|]. exists d1.
  assert (sector d1 1 = sector d 1) as -> by apply Hs. split; [done|].
  destruct (decide (get_range _ _ _ = _)); by apply run_io_true.
Qed.

Lemma gpt_patched_same d d1 d' : same_disk d d1 -> gpt_patched d1 d' -> gpt_patched d d'.
Proof.
  intros (C1 & C2 & C3) [G1 G2 G3 G4 G5 G6 G7]. cbn zeta in *. rewrite C3 in *.
  split; [congruence|congruence| | |done|done|done].
  - intros l Hl Hl'. by rewrite G3, C3.
  - cbn zeta. by rewrite G4, C3.
Qed.

(** C19: a successful GPT patch leaves a consistent table: the first entry has the
    required and legacy-boot attributes, the header's CRC over its own bytes
    and its CRC over the partition array on the disk are both right, every
    other header byte and every other sector is unchanged - or the
    attributes were already set and nothing was written. *)
Theorem patch_gpt_correct d d' :
  get_range (sector d 1) 0 8 = Some SIG_EFI_PART -> array_placed (sector d 1) ->
  patch_install_target_boot d = (d', true) ->
  let e := entry_lba (sector d 1) in
  (boot_attrs (attrs (sector d e)) = attrs (sector d e) /\ same_disk d d') \/
  (header_size (sector d 1) <= 128 /\ gpt_patched d d').
Proof.
  intros Hsig Hp (_ & d1 & Hs & E)%patch_inv. rewrite decide_True in E by done.
  pose proof Hs as (C1 & C2 & C3). apply try_patch_gpt_inv in E; [|by rewrite C3].
  cbn zeta in *. rewrite !C3 in E.
  destruct E as [[Hb Hs']|[Hn Hg]]; [left|right; split; [done|by apply (gpt_patched_same d d1)]].
  split; [done|]. by etransitivity.
Qed.

(** The MBR path marks exactly the first partition active: on success the
    boot signature was present and the disk not GPT-protective, the four
    status bytes become 80 00 00 00, and no other byte of the disk changes. *)
Theorem patch_mbr_correct d d' :
  get_range (sector d 1) 0 8 <> Some SIG_EFI_PART ->
  patch_install_target_boot d = (d', true) ->
  sector d 0 !!! 510%nat = 0x55 /\ sector d 0 !!! 511%nat = 0xAA /\ sector d 0 !!! 450%nat <> 0xEE /\
  (forall l, l <> 0 -> sector d' l = sector d l) /\
  forall i, (i < 512)%nat -> sector d' 0 !!! i =
    if decide (i = 446%nat) then 0x80
    else if decide (i = 462%nat \/ i = 478%nat \/ i = 494%nat) then 0 else sector d 0 !!! i.
Proof.
  intros Hsig (_ & d1 & Hs & E)%patch_inv. rewrite decide_False in E by done.
  unfold try_patch_mbr in E. do 3 step E. step E. unfold mret, io_ret in E. apply ret_inv in E as [-> _].
  pose proof Hs as (_ & _ & C). pose proof Hsame as (_ & _ & C'). rewrite C in *.
  apply write_io_inv in Hstep as (_ & _ & F & F'); [|apply mbr_active_ok, sector_wf].
  change (0x1C2)%nat with 450%nat in *. split_and!.
  - destruct (decide (sector d 0 !!! 510%nat = 0x55)); [done|]. tauto.
  - destruct (decide (sector d 0 !!! 511%nat = 0xAA)); [done|]. tauto.
  - done.
  - intros l Hl. by rewrite F', C', C.
  - intros i Hi. rewrite F. apply mbr_active_lookup; [apply length_sector|done].
Qed.
End theorems.

(** ** Idempotence, termination and the half-patched disk *)

Section more.
Context {D : Type} `{BlockDevOk D}.
Implicit Types (d : D).

(** The program leaves the contents of the disk alone. *)
Definition stays {A} (m : io D A) d : Prop := same_disk d (m d).1.

Lemma stays_bind {A B} (m : io D A) (k : A -> io D B) d :
  stays m d -> (forall d1 a, m d = (d1, Some a) -> stays (k a) d1) -> stays (io_bind A B k m) d.
Proof.
  unfold stays, io_bind. intros Hm Hk. destruct (m d) as [d1 [a|]] eqn:E; [|done].
  etransitivity; [exact Hm|]. by apply (Hk d1 a).
Qed.

Lemma stays_fail_if P `{Decision P} d : stays (fail_if P) d.
Proof. unfold stays, fail_if. case_decide; reflexivity. Qed.
Lemma stays_lift {A} (o : option A) d : stays (lift o) d.
Proof. unfold stays. reflexivity. Qed.
Lemma stays_read l d : stays (read_sector_io l) d.
Proof. apply read_same. Qed.

(** With the attributes set, nothing is written. *)
Lemma try_patch_gpt_stays d :
  boot_attrs (attrs (sector d (entry_lba (sector d 1)))) = attrs (sector d (entry_lba (sector d 1))) ->
  stays (try_patch_gpt (sector d 1)) d.
Proof.
  intros Hb. unfold try_patch_gpt. cbv zeta.
  assert (forall A B (m : io D A) (k : A -> io D B), stays m d ->
    (forall a, (m d).2 = Some a -> (m d).1 = d) ->
    (forall a, m d = (d, Some a) -> stays (k a) d) -> stays (io_bind A B k m) d) as Hpure.
  { intros A B m k Hs He Hk. apply stays_bind; [done|]. intros d1 a E.
    assert (d1 = d) as -> by (specialize (He a); rewrite E in He; by apply He). by apply Hk. }
  repeat (apply Hpure; [apply stays_fail_if || apply stays_lift
    |intros ?; unfold fail_if, lift; repeat case_decide; done
    |intros ? [_ ?]%fail_if_inv || (intros ? [_ ?]%lift_inv)]).
  apply stays_bind; [apply stays_read|]. intros d1 ent (Hs & -> & _)%read_io_inv.
  apply stays_bind; [apply stays_fail_if|]. intros d2 [] [-> _]%fail_if_inv.
  repeat match goal with H : read_u64_le _ _ = Some _ |- _ => apply read_field8_inv in H; subst end.
  cbn [Nat.add]. fold (entry_lba (sector d 1)). rewrite read_attrs.
  rewrite decide_True by done. unfold stays. reflexivity.
Qed.

Lemma patch_stays d :
  get_range (sector d 1) 0 8 = Some SIG_EFI_PART ->
  boot_attrs (attrs (sector d (entry_lba (sector d 1)))) = attrs (sector d (entry_lba (sector d 1))) ->
  same_disk d (patch_install_target_boot d).1.
Proof.
  intros Hsig Hb. unfold patch_install_target_boot. destruct (decide _); [reflexivity|].
  pose proof (read_same d 1) as Hs. destruct (read_sector d 1) as [d1 [hdr|]] eqn:E; [|done].
  apply read_io_inv in E as (_ & -> & _). rewrite decide_True by done. cbn in Hs.
  pose proof Hs as (_ & _ & C). etransitivity; [exact Hs|].
  assert (stays (try_patch_gpt (sector d1 1)) d1) as Ht by (apply try_patch_gpt_stays; by rewrite !C).
  rewrite C in Ht. unfold run_io, stays in *. by destruct (try_patch_gpt _ _).
Qed.

Lemma boot_attrs_range a : 0 <= a < 2 ^ 64 -> 0 <= boot_attrs a < 2 ^ 64.
Proof.
  intros Ha. unfold boot_attrs. change GPT_ATTR_BOOT_MASK with 5.
  assert (0 <= Z.lor a 5) as H0' by (apply Z.lor_nonneg; lia). split; [done|].
  destruct (Z.eq_dec (Z.lor a 5) 0) as [->|]; [lia|]. apply Z.log2_lt_pow2; [lia|].
  rewrite Z.log2_lor by lia. change (Z.log2 5) with 2.
  destruct (Z.eq_dec a 0) as [->|]; [cbn; lia|]. pose proof (Z.log2_lt_pow2 a 64). lia.
Qed.

Lemma boot_attrs_idem a : boot_attrs (boot_attrs a) = boot_attrs a.
Proof. unfold boot_attrs. by rewrite <-Z.lor_assoc, Z.lor_diag. Qed.

(** The patched entry carries the attributes. *)
Lemma patched_attrs d e :
  attrs (list_inserts 48 (to_le 8 (boot_attrs (attrs (sector d e)))) (sector d e)) =
  boot_attrs (attrs (sector d e)).
Proof.
  destruct (sector_wf d e) as [Hl Hb]. unfold attrs at 1.
  rewrite slice_inserts_in by (rewrite ?length_to_le; lia).
  apply of_le_to_le_small. change (256 ^ Z.of_nat 8) with (2 ^ 64). apply boot_attrs_range.
  pose proof (of_le_bound (slice (sector d e) 48 56)) as Hr. rewrite length_slice in Hr by lia.
  apply Hr. by apply Forall_slice.
Qed.

(** Patching is idempotent: once a GPT disk has been patched, running the
    patch again writes nothing, whatever its reads return. *)
Theorem patch_gpt_idempotent d d' :
  get_range (sector d 1) 0 8 = Some SIG_EFI_PART -> array_placed (sector d 1) ->
  patch_install_target_boot d = (d', true) ->
  same_disk d' (patch_install_target_boot d').1.
Proof.
  intros Hsig Hp (_ & d1 & Hs & E)%patch_inv. rewrite decide_True in E by done.
  pose proof Hs as (C1 & C2 & C3). apply try_patch_gpt_inv in E; [|by rewrite C3]. cbn zeta in E.
  destruct E as [[Hb Hs']|[_ Hg]].
  - assert (same_disk d d') as (_ & _ & C) by (by etransitivity).
    rewrite !C3 in Hb. apply patch_stays; by rewrite !C.
  - apply (gpt_patched_same d) in Hg; [|done]. destruct Hg as [_ _ _ G4 G5 _ _]. cbn zeta in G4.
    assert (entry_lba (sector d' 1) = entry_lba (sector d 1)) as He
      by (unfold entry_lba; by rewrite G5 by lia).
    apply patch_stays.
    + rewrite <-Hsig, !get_range_ok by (rewrite length_sector; lia). by rewrite G5 by lia.
    + by rewrite He, G4, patched_attrs, boot_attrs_idem.
Qed.

Lemma crc_loop_total (ok : D -> Prop) (lim : Z) fuel e total k crc d :
  (forall d l, ok d -> 0 <= l < lim -> exists d1 b, read_sector d l = (d1, Some b) /\ ok d1) ->
  ok d -> 0 <= e -> e + Z.of_nat (total / 512) < lim -> lim <= 2 ^ 64 ->
  (k <= total / 512 + 1)%nat -> (k + fuel = total / 512 + 2)%nat ->
  exists d' c, crc_loop fuel e total (512 * k) crc d = (d', Some c).
Proof.
  intros Hok Hd He Hr Hlim. revert k crc d Hd.
  pose proof (Nat.div_mod_eq total 512) as Hdm. pose proof (Nat.mod_upper_bound total 512) as Hmb.
  induction fuel as [|fuel IH]; intros k crc d Hd Hk Hf; [lia|].
  destruct (decide (512 * k < total)%nat) as [Hlt|Hlt].
  2:{ rewrite crc_loop_end by lia. eauto. }
  rewrite crc_loop_step by done.
  destruct (Hok d (wrap64 (e + Z.of_nat k)) Hd) as (d1 & b & -> & Hd1).
  { unfold wrap. rewrite Z.mod_small by lia. lia. }
  cbn zeta. destruct (decide (512 <= total - 512 * k)%nat) as [Hc|Hc].
  - replace (512 * k + _)%nat with (512 * S k)%nat by lia. apply IH; [done|lia|lia].
  - destruct fuel as [|fuel]; [lia|]. rewrite crc_loop_end by lia. eauto.
Qed.

(** The partition-array CRC: on a device whose reads in [0, lim) succeed, the
    loop of [crc_partition_bytes] terminates within its fuel and returns the
    CRC-32 of the first [total] bytes from sector [e] on, reading sector by
    sector what one pass over the whole array would compute. *)
Theorem crc_partition_bytes_spec (ok : D -> Prop) (lim : Z) e total d :
  (forall d l, ok d -> 0 <= l < lim -> exists d1 b, read_sector d l = (d1, Some b) /\ ok d1) ->
  ok d -> 0 <= e -> e + Z.of_nat (total / 512) < lim -> lim <= 2 ^ 64 ->
  exists d', crc_partition_bytes e total d = (d', Some (crc32 (part_array d e total))) /\ same_disk d d'.
Proof.
  intros Hok Hd He Hr Hlim.
  destruct (crc_loop_total ok lim (total / 512 + 2) e total 0 0xFFFFFFFF d) as (d' & c & E); try done; [lia|].
  exists d'. pose proof (crc_partition_bytes_inv e total d d' c E) as [Hs ->]. done.
Qed.
End more.

(** ** Sample disks *)

(** A disk of 512-byte sectors in memory on which every call succeeds. *)
Definition disk_of (secs : list bytes) : MemDisk :=
  {| md_sectors := secs; md_size := 512; md_broken := fun _ => false |}.

Definition put (off : nat) (src buf : bytes) : bytes := list_inserts off src buf.

(** One 128-byte entry at LBA 2, its CRC in the header. *)
Definition sample_entry : bytes := put 0 (replicate 16 7) (replicate 512 0).
Definition sample_header (hsize : Z) : bytes :=
  put 0 SIG_EFI_PART (put 12 (to_le 4 hsize) (put 24 (to_le 8 1) (put 72 (to_le 8 2)
    (put 80 (to_le 4 1) (put 84 (to_le 4 128)
      (put 88 (to_le 4 (crc32 (take 128 sample_entry))) (replicate 512 0))))))).
Definition sample_gpt (hsize : Z) : MemDisk :=
  disk_of [replicate 512 0; sample_header hsize; sample_entry].

Lemma patch_gpt_correct_witness :
  let d := sample_gpt 92 in
  let e := entry_lba (sector d 1) in
  (boot_attrs (attrs (sector d e)) = attrs (sector d e) /\ same_disk d (patch_install_target_boot d).1) \/
  (header_size (sector d 1) <= 128 /\ gpt_patched d (patch_install_target_boot d).1).
Proof.
  apply (patch_gpt_correct (sample_gpt 92) (patch_install_target_boot (sample_gpt 92)).1);
    [vm_compute; reflexivity|split; vm_compute; [discriminate|reflexivity]|vm_compute; reflexivity].
Defined.

Lemma patch_gpt_idempotent_witness :
  let d := (patch_install_target_boot (sample_gpt 92)).1 in same_disk d (patch_install_target_boot d).1.
Proof.
  apply (patch_gpt_idempotent (sample_gpt 92) (patch_install_target_boot (sample_gpt 92)).1);
    [vm_compute; reflexivity|split; vm_compute; [discriminate|reflexivity]|vm_compute; reflexivity].
Defined.

Lemma crc_partition_bytes_spec_witness :
  exists d', crc_partition_bytes 1 1000 (sample_gpt 92) =
    (d', Some (crc32 (part_array (sample_gpt 92) 1 1000))) /\ same_disk (sample_gpt 92) d'.
Proof.
  apply (crc_partition_bytes_spec (fun d => d = sample_gpt 92) 3 1 1000); [|done|lia|vm_compute; reflexivity|lia].
  intros d l -> Hl. exists (sample_gpt 92). exists (md_sector (sample_gpt 92) l). split; [|done].
  cbn [read_sector MemDisk_dev]. rewrite decide_True; [done|]. split; [|done].
  change (md_capacity _) with 3. lia.
Defined.

(** A bootable MBR with partition 2 marked active. *)
Definition sample_mbr : MemDisk :=
  disk_of [put 462 [128] (put 510 [0x55; 0xAA] (replicate 512 0)); replicate 512 0].

Lemma patch_mbr_correct_witness :
  let d := sample_mbr in let d' := (patch_install_target_boot d).1 in
  sector d 0 !!! 510%nat = 0x55 /\ sector d 0 !!! 511%nat = 0xAA /\ sector d 0 !!! 450%nat <> 0xEE /\
  (forall l, l <> 0 -> sector d' l = sector d l) /\
  forall i, (i < 512)%nat -> sector d' 0 !!! i =
    if decide (i = 446%nat) then 0x80
    else if decide (i = 462%nat \/ i = 478%nat \/ i = 494%nat) then 0 else sector d 0 !!! i.
Proof.
  apply (patch_mbr_correct sample_mbr (patch_install_target_boot sample_mbr).1); [vm_compute; discriminate|vm_compute; reflexivity].
Defined.

(** The size test comes after the first write: a header of more than 128 bytes,
    which the checks at the top accept, makes the patch fail with the entry
    already changed, so a partition-array CRC that was right becomes wrong. *)
Lemma large_header_half_patched :
  let d := sample_gpt 512 in let '(d', ok) := patch_install_target_boot d in
  ok = false /\ part_crc (sector d 1) = crc32 (part_array d 2 128) /\
  part_crc (sector d' 1) <> crc32 (part_array d' 2 128).
Proof. vm_compute. split_and!; [reflexivity|reflexivity|discriminate]. Qed.
