(* ===== verification/Log.v ===== *)
(** * The kernel log ([kernel/src/log_buffer.rs], [kernel/src/diag_log.rs])

    [log_buffer]: the 512-line ring behind the LOG tab.  [diag_log]: the
    prefixed lines written to COM1 and stored in the ring.  The statics of the
    two files are the record [Log]; [com1] is the sequence of bytes handed to
    [serial::put_byte] (the UART itself is not modelled). *)

From S2P Require Import Prelude Url.

Definition CAP : nat := 512.
Definition LINE : nat := 120.

Record Log := {
  LINES : list bytes;
  LENS : list Z;
  BEGIN : nat;
  LEN : nat;
  DIRTY : bool;
  com1 : bytes;
}.

Definition log_new : Log := {|
  LINES := replicate CAP (replicate LINE 0); LENS := replicate CAP 0;
  BEGIN := 0; LEN := 0; DIRTY := false; com1 := [] |}.

(** Control characters become spaces. *)
Definition clean (c : Z) : Z := if decide (c = 10 \/ c = 13 \/ c < 32) then 32 else c.

Definition push_line (msg : bytes) (s : Log) : Log :=
  let n := Nat.min (length msg) LINE in
  let buf := list_inserts 0 (clean <$> take n msg) (replicate LINE 0) in
  let '(pos, b, l) :=
    if decide (s.(LEN) < CAP)%nat then (((s.(BEGIN) + s.(LEN)) mod CAP)%nat, s.(BEGIN), S s.(LEN))
    else (s.(BEGIN), ((s.(BEGIN) + 1) mod CAP)%nat, s.(LEN)) in
  {| LINES := <[pos := buf]> s.(LINES); LENS := <[pos := Z.of_nat n]> s.(LENS);
     BEGIN := b; LEN := l; DIRTY := true; com1 := s.(com1) |}.

Definition count (s : Log) : nat := s.(LEN).

Definition line_at (s : Log) (i : nat) : option bytes :=
  if decide (s.(LEN) <= i)%nat then None
  else
    let idx := ((s.(BEGIN) + i) mod CAP)%nat in
    Some (take (Z.to_nat (s.(LENS) !!! idx)) (s.(LINES) !!! idx)).

Definition take_dirty (s : Log) : Log * bool :=
  ({| LINES := s.(LINES); LENS := s.(LENS); BEGIN := s.(BEGIN); LEN := s.(LEN);
      DIRTY := false; com1 := s.(com1) |}, s.(DIRTY)).

(** ** Serial output *)

Definition put_byte (b : Z) (s : Log) : Log :=
  {| LINES := s.(LINES); LENS := s.(LENS); BEGIN := s.(BEGIN); LEN := s.(LEN);
     DIRTY := s.(DIRTY); com1 := s.(com1) ++ [b] |}.

Definition puts (l : bytes) (s : Log) : Log :=
  fold_left (fun s b => put_byte b (if decide (b = 10) then put_byte 13 s else s)) l s.

(** ** The line under construction: [store] and the cursor [n] *)

Definition PREFIX : bytes := Eval vm_compute in bs "[EVE] ".

Definition line_buf : Type := bytes * nat.
Definition line_new : line_buf := (replicate 120 0, 0%nat).

Definition append_store (b : Z) (st : line_buf) : line_buf :=
  let '(store, n) := st in
  if decide (n < length store)%nat then (<[n := b]> store, S n) else (store, n).

Definition append_store_slice (s : bytes) (st : line_buf) : line_buf :=
  fold_left (fun st b => append_store (clean b) st) s st.

(** [loop { n -= 1; buf[n] = b'0' + v % 10; v /= 10; if v == 0 { break } }] *)
Fixpoint dec_do (fuel : nat) (v : Z) (acc : bytes) : bytes :=
  match fuel with
  | O => acc
  | S fuel =>
      let acc := (48 + v mod 10) :: acc in
      if decide (v / 10 = 0) then acc else dec_do fuel (v / 10) acc
  end.
Definition u8_dec (v : Z) : bytes := dec_do 3 v [].
Definition u32_dec (v : Z) : bytes := if decide (v = 0) then [48] else dec_loop 10 v [].

Definition put_u8_dec (v : Z) (s : Log) : Log := puts (u8_dec v) s.
Definition put_u32_dec (v : Z) (s : Log) : Log := if decide (v = 0) then put_byte 48 s else puts (u32_dec v) s.
Definition append_u8_dec (v : Z) (st : line_buf) : line_buf := append_store_slice (u8_dec v) st.
Definition append_u32_dec (v : Z) (st : line_buf) : line_buf :=
  if decide (v = 0) then append_store 48 st else append_store_slice (u32_dec v) st.

(** [log_buffer::push_line(&s[..n])] *)
Definition push_store (st : line_buf) (s : Log) : Log := push_line (take st.2 st.1) s.

(** ** The entry points *)

Definition line (msg : bytes) (s : Log) : Log :=
  let s := puts PREFIX s in
  let s := puts msg s in
  let s := puts [10] s in
  let st := append_store_slice PREFIX line_new in
  let st := append_store_slice msg st in
  push_store st s.

Definition line2 (a b : bytes) (s : Log) : Log :=
  let s := puts PREFIX s in
  let s := puts a s in
  let s := puts b s in
  let s := puts [10] s in
  let st := append_store_slice PREFIX line_new in
  let st := append_store_slice a st in
  let st := append_store_slice b st in
  push_store st s.

Definition T_err : bytes := Eval vm_compute in bs "err ".
Definition err_msg (msg : bytes) (s : Log) : Log :=
  let s := puts PREFIX s in
  let s := puts T_err s in
  let n := Nat.min (length msg) 120 in
  let s := puts (take n msg) s in
  let s := puts [10] s in
  let st := append_store_slice PREFIX line_new in
  let st := append_store_slice T_err st in
  let st := append_store_slice (take n msg) st in
  push_store st s.

Definition T_mac : bytes := Eval vm_compute in bs "mac ".
Definition HEX : bytes := Eval vm_compute in bs "0123456789ABCDEF".

(** One octet of the loop: the separator, then the two hex digits. *)
Definition mac_octet (acc : Log * line_buf * bool) (b : Z) : Log * line_buf * bool :=
  let '(s, st, sep) := acc in
  let s := if sep : bool then put_byte 58 s else s in
  let st := if sep then append_store 58 st else st in
  let hi := HEX !!! Z.to_nat (Z.shiftr b 4) in
  let lo := HEX !!! Z.to_nat (Z.land b 15) in
  let s := put_byte lo (put_byte hi s) in
  let st := append_store lo (append_store hi st) in
  (s, st, true).

Definition mac (m : bytes) (s : Log) : Log :=
  let s := puts PREFIX s in
  let s := puts T_mac s in
  let st := append_store_slice PREFIX line_new in
  let st := append_store_slice T_mac st in
  let '(s, st, _) := fold_left mac_octet m (s, st, false) in
  let s := puts [10] s in
  push_store st s.

Definition ipv4_octet (acc : line_buf * bool) (oct : Z) : line_buf * bool :=
  let '(st, sep) := acc in
  let st := if sep : bool then append_store 46 st else st in
  (append_u8_dec oct st, true).

Definition ipv4 (label a : bytes) (s : Log) : Log :=
  let s := puts PREFIX s in
  let s := puts label s in
  let s := put_u8_dec (a !!! 0%nat) s in
  let s := put_byte 46 s in
  let s := put_u8_dec (a !!! 1%nat) s in
  let s := put_byte 46 s in
  let s := put_u8_dec (a !!! 2%nat) s in
  let s := put_byte 46 s in
  let s := put_u8_dec (a !!! 3%nat) s in
  let s := puts [10] s in
  let st := append_store_slice PREFIX line_new in
  let st := append_store_slice label st in
  let '(st, _) := fold_left ipv4_octet a (st, false) in
  push_store st s.

Definition T_fb : bytes := Eval vm_compute in bs "fb ".
Definition fb_wh (w h : Z) (s : Log) : Log :=
  let s := puts PREFIX s in
  let s := puts T_fb s in
  let s := put_u32_dec w s in
  let s := put_byte 120 s in
  let s := put_u32_dec h s in
  let s := puts [10] s in
  let st := append_store_slice PREFIX line_new in
  let st := append_store_slice T_fb st in
  let st := append_u32_dec w st in
  let st := append_store 120 st in
  let st := append_u32_dec h st in
  push_store st s.

Definition T_fetch_https : bytes := Eval vm_compute in bs "fetch https://".
Definition T_fetch_http : bytes := Eval vm_compute in bs "fetch http://".
Definition fetch_host (host : bytes) (https : bool) (s : Log) : Log :=
  let s := puts PREFIX s in
  let s := puts (if https then T_fetch_https else T_fetch_http) s in
  let n := Nat.min (length host) 80 in
  let s := puts (take n host) s in
  let s := puts [10] s in
  let st := append_store_slice PREFIX line_new in
  let st := append_store_slice (if https then T_fetch_https else T_fetch_http) st in
  let st := append_store_slice (take n host) st in
  push_store st s.

(** ** The ring *)

Definition lastn {A} (k : nat) (l : list A) : list A := drop (length l - k) l.

Lemma lastn_ge {A} k (l : list A) : (length l <= k)%nat -> lastn k l = l.
Proof. intros. unfold lastn. replace (length l - k)%nat with 0%nat by lia. done. Qed.

Lemma length_lastn {A} k (l : list A) : length (lastn k l) = Nat.min k (length l).
Proof. unfold lastn. rewrite length_drop. lia. Qed.

Lemma take_min_length (l : bytes) k : take (Nat.min (length l) k) l = take k l.
Proof.
  destruct (Nat.le_ge_cases (length l) k).
  - rewrite !take_ge by lia. done.
  - by rewrite Nat.min_r by lia.
Qed.

(** What a stored line holds. *)
Definition trunc (msg : bytes) : bytes := clean <$> take LINE msg.

Record log_wf (s : Log) : Prop := {
  lw_lines : length s.(LINES) = CAP /\ Forall (fun l => length l = LINE) s.(LINES);
  lw_lens : length s.(LENS) = CAP /\ Forall (fun n => 0 <= n <= 120) s.(LENS);
  lw_begin : (s.(BEGIN) < CAP)%nat;
  lw_len : (s.(LEN) <= CAP)%nat;
}.

(** The abstract state: the retained lines, oldest first. *)
Definition slot (s : Log) (idx : nat) : bytes :=
  take (Z.to_nat (s.(LENS) !!! idx)) (s.(LINES) !!! idx).
Definition history (s : Log) : list bytes :=
  (fun i => slot s ((s.(BEGIN) + i) mod CAP)) <$> seq 0 s.(LEN).

Lemma line_at_history s i : line_at s i = history s !! i.
Proof.
  unfold line_at, history. destruct (decide _) as [Hi|Hi].
  - symmetry. apply lookup_ge_None_2. rewrite length_fmap, length_seq. lia.
  - rewrite list_lookup_fmap, lookup_seq_lt by lia. done.
Qed.

Lemma length_history s : length (history s) = s.(LEN).
Proof. unfold history. by rewrite length_fmap, length_seq. Qed.

Lemma length_trunc m : length (trunc m) = Nat.min (length m) LINE.
Proof. unfold trunc. rewrite length_fmap, length_take. lia. Qed.

Lemma log_new_wf : log_wf log_new.
Proof. split; cbn; [split; [done|by_decide]|split; [done|by_decide]|unfold CAP; lia|lia]. Qed.

(** The write position, the new bounds of the ring. *)
Lemma push_line_eq msg s :
  let pos := if decide (s.(LEN) < CAP)%nat then ((s.(BEGIN) + s.(LEN)) mod CAP)%nat else s.(BEGIN) in
  push_line msg s = {|
    LINES := <[pos := trunc msg ++ replicate (LINE - length (trunc msg)) 0]> s.(LINES);
    LENS := <[pos := Z.of_nat (length (trunc msg))]> s.(LENS);
    BEGIN := if decide (s.(LEN) < CAP)%nat then s.(BEGIN) else ((s.(BEGIN) + 1) mod CAP)%nat;
    LEN := if decide (s.(LEN) < CAP)%nat then S s.(LEN) else s.(LEN);
    DIRTY := true; com1 := s.(com1) |}.
Proof.
  cbn zeta. unfold push_line.
  assert (list_inserts 0 (clean <$> take (Nat.min (length msg) LINE) msg) (replicate LINE 0) =
          trunc msg ++ replicate (LINE - length (trunc msg)) 0) as ->.
  { assert (clean <$> take (Nat.min (length msg) LINE) msg = trunc msg) as ->.
    { unfold trunc. by rewrite take_min_length. }
    rewrite inserts_split by (rewrite length_replicate, length_trunc; lia).
    rewrite take_0, app_nil_l, drop_replicate. done. }
  rewrite length_trunc. by destruct (decide _).
Qed.

Lemma slot_insert msg s pos i :
  log_wf s -> (pos < CAP)%nat ->
  take (Z.to_nat (<[pos := Z.of_nat (length (trunc msg))]> s.(LENS) !!! i))
    (<[pos := trunc msg ++ replicate (LINE - length (trunc msg)) 0]> s.(LINES) !!! i) =
  if decide (i = pos) then trunc msg else slot s i.
Proof.
  intros [[H1 _] [H2 _] _ _] Hp. destruct (decide (i = pos)) as [->|].
  - rewrite !list_lookup_total_insert_eq by lia. rewrite Nat2Z.id. apply take_app_length.
  - by rewrite !list_lookup_total_insert_ne by done.
Qed.

Lemma mod_CAP n : (n mod CAP < CAP)%nat.
Proof. apply Nat.mod_upper_bound. unfold CAP. lia. Qed.

Lemma mod_small_or n : (n < 2 * CAP)%nat -> (n mod CAP = if decide (n < CAP) then n else n - CAP)%nat.
Proof.
  intros H. destruct (decide _); [by apply Nat.mod_small|].
  replace n with ((n - CAP) + 1 * CAP)%nat at 1 by lia. rewrite Nat.Div0.mod_add. apply Nat.mod_small. lia.
Qed.

Lemma push_line_wf msg s : log_wf s -> log_wf (push_line msg s).
Proof.
  intros Hw. pose proof (length_trunc msg) as Hn. rewrite push_line_eq.
  destruct Hw as [[H1 H2] [H3 H4] Hb Hl]. split; cbn [LINES LENS BEGIN LEN].
  - split; [by rewrite length_insert|]. apply Forall_insert; [done|].
    rewrite length_app, length_replicate. unfold LINE in *. lia.
  - split; [by rewrite length_insert|]. apply Forall_insert; [done|]. unfold LINE in Hn. lia.
  - destruct (decide _); [done|]. apply mod_CAP.
  - destruct (decide _); lia.
Qed.

Lemma push_line_history msg s :
  log_wf s -> history (push_line msg s) = lastn CAP (history s ++ [trunc msg]).
Proof.
  intros Hw. pose proof Hw as [_ _ Hb Hl].
  rewrite push_line_eq. unfold history at 1, slot at 1. cbn [BEGIN LEN LINES LENS].
  apply list_eq_same_length with (n := Nat.min CAP (S s.(LEN))).
  { rewrite length_lastn, length_app, length_history. cbn [length]. lia. }
  { rewrite length_fmap, length_seq. destruct (decide _); lia. }
  intros i x y Hi Hx Hy. rewrite list_lookup_fmap, lookup_seq_lt in Hx by (destruct (decide _); lia).
  apply (inj Some) in Hx as <-. rewrite slot_insert;
    [|done|destruct (decide _); [apply mod_CAP|done]].
  unfold lastn in Hy. rewrite lookup_drop, length_app, length_history in Hy. cbn [length] in Hy.
  destruct (decide (s.(LEN) < CAP)%nat) as [Hc|Hc].
  - replace (s.(LEN) + 1 - CAP + i)%nat with i in Hy by lia.
    destruct (decide (i = s.(LEN))) as [->|Hne].
    + rewrite lookup_app_r, length_history, Nat.sub_diag in Hy by (rewrite length_history; lia).
      apply (inj Some) in Hy as <-. by rewrite decide_True by done.
    + rewrite lookup_app_l in Hy by (rewrite length_history; lia). unfold history in Hy.
      rewrite list_lookup_fmap, lookup_seq_lt in Hy by lia. apply (inj Some) in Hy as <-.
      rewrite !mod_small_or by lia. rewrite decide_False; [done|].
      repeat destruct (decide (_ < _)%nat); lia.
  - replace (s.(LEN) + 1 - CAP + i)%nat with (S i) in Hy by lia.
    rewrite Nat.Div0.add_mod_idemp_l, <-Nat.add_assoc. change (1 + i)%nat with (S i).
    destruct (decide (S i = s.(LEN))) as [He|Hne].
    + rewrite lookup_app_r, length_history, He, Nat.sub_diag in Hy by (rewrite length_history; lia).
      apply (inj Some) in Hy as <-. rewrite decide_True; [done|].
      rewrite mod_small_or by lia. destruct (decide _); lia.
    + rewrite lookup_app_l in Hy by (rewrite length_history; lia). unfold history in Hy.
      rewrite list_lookup_fmap, lookup_seq_lt in Hy by lia. apply (inj Some) in Hy as <-.
      rewrite decide_False; [done|].
      rewrite mod_small_or by lia. repeat destruct (decide (_ < _)%nat); lia.
Qed.

(** ** The line under construction *)

(** The buffer after the bytes [c] were offered to it. *)
Definition store_of (c : bytes) : line_buf :=
  (take LINE c ++ replicate (LINE - length c) 0, Nat.min (length c) LINE).

Lemma append_store_spec c b : append_store b (store_of c) = store_of (c ++ [b]).
Proof.
  unfold append_store, store_of.
  assert (length (take LINE c ++ replicate (LINE - length c) 0) = LINE) as ->
    by (rewrite length_app, length_take, length_replicate; lia).
  rewrite length_app. cbn [length]. destruct (decide (_ < _)%nat) as [Hc|Hc].
  - f_equal; [|lia]. rewrite !take_ge by (rewrite ?length_app; cbn [length]; lia).
    replace (Nat.min (length c) LINE) with (length c + 0)%nat by lia. rewrite insert_app_r.
    replace (LINE - length c)%nat with (S (LINE - (length c + 1))) by lia.
    cbn [replicate]. cbn. by rewrite <-app_assoc.
  - f_equal; [|lia]. rewrite take_app_le by lia. do 2 f_equal. lia.
Qed.

Lemma append_store_slice_spec l c : append_store_slice l (store_of c) = store_of (c ++ (clean <$> l)).
Proof.
  unfold append_store_slice. revert c. induction l as [|b l IH]; intros c; cbn [fold_left].
  { by rewrite app_nil_r. }
  rewrite append_store_spec, IH, <-app_assoc. done.
Qed.

Lemma line_new_spec : line_new = store_of [].
Proof. reflexivity. Qed.

Lemma clean_idem c : clean (clean c) = clean c.
Proof. unfold clean. repeat case_decide; lia. Qed.

Lemma clean_ok c : 32 <= c -> clean c = c.
Proof. intros. unfold clean. case_decide; lia. Qed.

Lemma clean_all l : Forall (fun c => 32 <= c) l -> clean <$> l = l.
Proof. induction 1; cbn; [done|]. f_equal; [by apply clean_ok|done]. Qed.

Lemma push_store_spec c s :
  push_store (store_of c) s = push_line c s.
Proof.
  unfold push_store, store_of. cbn [fst snd].
  assert (take (Nat.min (length c) LINE) (take LINE c ++ replicate (LINE - length c) 0) = take LINE c) as ->.
  { rewrite take_app_le by (rewrite length_take; lia). rewrite take_take.
    rewrite <-Nat.min_assoc, Nat.min_id. apply take_min_length. }
  rewrite !push_line_eq. unfold trunc. by rewrite take_take, Nat.min_id.
Qed.

(** ** Serial output *)

(** [puts] expands line feeds. *)
Definition crlf (l : bytes) : bytes := l ≫= fun b => if decide (b = 10) then [13; 10] else [b].

Definition ring_eq (s t : Log) : Prop :=
  t.(LINES) = s.(LINES) /\ t.(LENS) = s.(LENS) /\ t.(BEGIN) = s.(BEGIN) /\ t.(LEN) = s.(LEN).

(** [s] with [out] added to the serial output. *)
Definition emit (out : bytes) (s : Log) : Log :=
  {| LINES := s.(LINES); LENS := s.(LENS); BEGIN := s.(BEGIN); LEN := s.(LEN);
     DIRTY := s.(DIRTY); com1 := s.(com1) ++ out |}.

Lemma put_byte_emit b s : put_byte b s = emit [b] s.
Proof. reflexivity. Qed.

Lemma emit_emit a b s : emit b (emit a s) = emit (a ++ b) s.
Proof. unfold emit. cbn. by rewrite app_assoc. Qed.

Lemma emit_nil s : emit [] s = s.
Proof. unfold emit. rewrite app_nil_r. by destruct s. Qed.

Lemma puts_emit l s : puts l s = emit (crlf l) s.
Proof.
  unfold puts. revert s. induction l as [|b l IH]; intros s; [by rewrite emit_nil|].
  cbn [fold_left]. rewrite IH, put_byte_emit. unfold crlf at 2. cbn [mbind list_bind]. fold (crlf l).
  destruct (decide (b = 10)) as [->|]; rewrite ?put_byte_emit, !emit_emit; done.
Qed.

Lemma crlf_app l1 l2 : crlf (l1 ++ l2) = crlf l1 ++ crlf l2.
Proof. apply bind_app. Qed.

Lemma crlf_id l : Forall (fun c => 32 <= c) l -> crlf l = l.
Proof.
  induction 1 as [|c l Hc _ IH]; [done|]. unfold crlf in *. cbn. rewrite decide_False by lia. cbn. by f_equal.
Qed.

Lemma emit_wf out s : log_wf s -> log_wf (emit out s).
Proof. intros []. by split. Qed.

(** The effect every entry point has: [txt] on the wire (line feeds expanded, one
    added), and its cleaned first 120 bytes as the newest line of the ring. *)
Definition logged (txt : bytes) (s t : Log) : Prop :=
  log_wf t /\ t.(com1) = s.(com1) ++ crlf (txt ++ [10]) /\
  history t = lastn CAP (history s ++ [trunc txt]).

Lemma logged_intro txt out c s :
  log_wf s -> out = crlf (txt ++ [10]) -> trunc c = trunc txt ->
  logged txt s (push_store (store_of c) (emit out s)).
Proof.
  intros Hw -> Hc. rewrite push_store_spec. split_and!.
  - by apply push_line_wf, emit_wf.
  - by rewrite push_line_eq.
  - rewrite push_line_history by (by apply emit_wf). by rewrite Hc.
Qed.

Lemma trunc_clean c : trunc (clean <$> c) = trunc c.
Proof.
  unfold trunc. rewrite <-fmap_take, <-list_fmap_compose. apply list_fmap_ext. intros. apply clean_idem.
Qed.

(** ** Decimal numbers *)

Lemma u8_dec_vals : Forall (fun v =>
  Forall (fun c => 48 <= c <= 57) (u8_dec v) /\ parse_u8 (u8_dec v) = Some v) (seqZ 0 256).
Proof. by_decide. Qed.

Lemma u8_dec_spec v : is_byte v -> Forall (fun c => 48 <= c <= 57) (u8_dec v) /\ parse_u8 (u8_dec v) = Some v.
Proof.
  intros Hv. pose proof u8_dec_vals as H. rewrite Forall_forall in H. apply H.
  apply elem_of_seqZ. unfold is_byte in Hv. lia.
Qed.

Lemma u32_dec_spec v :
  0 <= v < 2 ^ 32 -> digits (u32_dec v) /\ dec_value 0 (u32_dec v) = v /\ u32_dec v <> [].
Proof.
  intros Hv. unfold u32_dec. destruct (decide (v = 0)) as [->|Hn].
  { split_and!; [by_decide|done|done]. }
  destruct (dec_loop_spec 10 v []) as (ds & -> & Hd & Hval & Hz & _); [lia|].
  rewrite app_nil_r. split_and!; [done|done|]. rewrite Hz. lia.
Qed.

Lemma lastn_app {A} k (l1 l2 : list A) :
  (0 < k)%nat -> lastn k (lastn k l1 ++ l2) = lastn k (l1 ++ l2).
Proof.
  intros Hk. unfold lastn. rewrite !length_app, length_drop.
  destruct (decide (length l1 <= k)%nat) as [Hl|Hl].
  { replace (length l1 - k)%nat with 0%nat by lia. rewrite drop_0. f_equal. lia. }
  replace (length l1 - (length l1 - k))%nat with k by lia.
  replace (length l1 + length l2 - k)%nat with ((k + length l2 - k) + (length l1 - k))%nat by lia.
  rewrite !drop_app, !length_drop, drop_drop. f_equal; f_equal; lia.
Qed.

Lemma lastn_lastn {A} k (l : list A) : (0 < k)%nat -> lastn k (lastn k l) = lastn k l.
Proof. intros Hk. pose proof (lastn_app k l [] Hk) as E. by rewrite !app_nil_r in E. Qed.

Lemma split_on_app c l1 l2 :
  Forall (fun x => x <> c) l1 -> split_on c (l1 ++ c :: l2) = l1 :: split_on c l2.
Proof.
  induction 1 as [|x l1 Hx _ IH]; cbn.
  - by rewrite decide_True.
  - by rewrite decide_False, IH.
Qed.

Lemma split_on_none c l : Forall (fun x => x <> c) l -> split_on c l = [l].
Proof. induction 1 as [|x l Hx _ IH]; cbn; [done|]. by rewrite decide_False, IH. Qed.

(** ** Properties *)

(** C35: the log keeps exactly the newest 512 lines: after any sequence of
    [push_line] calls on the empty ring, [line_at] reads the cleaned, 120-byte
    truncations of the last 512 messages, oldest first, and nothing else. *)
Theorem log_keeps_last ms i :
  line_at (fold_left (fun s m => push_line m s) ms log_new) i = lastn CAP (trunc <$> ms) !! i.
Proof.
  rewrite line_at_history. f_equal.
  assert (forall ms s, log_wf s -> history s = lastn CAP (history s) ->
    history (fold_left (fun s m => push_line m s) ms s) = lastn CAP (history s ++ (trunc <$> ms))) as Hg.
  { clear ms i. induction ms as [|m ms IH]; intros s Hw Hs; cbn [fold_left fmap list_fmap].
    { by rewrite app_nil_r. }
    assert (history (push_line m s) = lastn CAP (history s ++ [trunc m])) as E by by apply push_line_history.
    assert (0 < CAP)%nat by (unfold CAP; lia).
    rewrite IH; [|by apply push_line_wf|by rewrite E, lastn_lastn].
    rewrite E, lastn_app by done. by rewrite <-app_assoc. }
  rewrite Hg; [done|apply log_new_wf|done].
Qed.

Definition dotted (a : bytes) : bytes :=
  u8_dec (a !!! 0%nat) ++ [46] ++ u8_dec (a !!! 1%nat) ++ [46] ++ u8_dec (a !!! 2%nat) ++ [46] ++
  u8_dec (a !!! 3%nat).

(** [diag_log::ipv4] reports the address it was given: the wire and the LOG tab
    get the prefix, the label and the same dotted quad, and [parse_ipv4_host]
    reads that quad back as the address. *)
Theorem ipv4_logs label a s :
  log_wf s -> length a = 4%nat -> is_bytes a ->
  logged (PREFIX ++ label ++ dotted a) s (ipv4 label a s) /\ parse_ipv4_host (dotted a) = Some a.
Proof.
  intros Hw Hl Hb. apply list4_eq in Hl as (x & y & z & w & ->).
  repeat (apply Forall_cons in Hb as [?%u8_dec_spec Hb]). destruct_and!.
  unfold dotted. cbn [lookup_total list_lookup_total]. split.
  - unfold ipv4, put_u8_dec, append_u8_dec. cbn [fold_left ipv4_octet lookup_total list_lookup_total].
    unfold append_u8_dec. rewrite !line_new_spec.
    repeat (rewrite append_store_slice_spec || rewrite append_store_spec).
    rewrite !puts_emit, !put_byte_emit, !emit_emit.
    apply logged_intro; [done| |].
    + by rewrite !crlf_app, <-!app_assoc.
    + rewrite <-(trunc_clean (PREFIX ++ _)). f_equal. by rewrite !fmap_app, <-!app_assoc.
  - assert (forall d, Forall (fun c => 48 <= c <= 57) d -> Forall (fun c => c <> 46) d) as Hn
      by (intros d Hd; eapply Forall_impl; [exact Hd|intros c; cbn; lia]).
    rewrite parse_ipv4_host_eq. unfold ipv4_spec. cbn [app].
    rewrite !split_on_app, split_on_none by (by apply Hn). cbv zeta.
    rewrite decide_True by done. apply mapM_Some. repeat constructor; done.
Qed.

Lemma ipv4_logs_witness :
  logged (PREFIX ++ [105; 112; 32] ++ dotted [10; 0; 2; 15]) log_new (ipv4 [105; 112; 32] [10; 0; 2; 15] log_new) /\
  parse_ipv4_host (dotted [10; 0; 2; 15]) = Some [10; 0; 2; 15].
Proof. apply ipv4_logs; [apply log_new_wf|done|by_decide]. Defined.

(** The remaining entry points log their text. *)
Ltac logs := intros Hw; rewrite ?line_new_spec;
  repeat (rewrite append_store_slice_spec || rewrite append_store_spec);
  rewrite ?puts_emit, ?put_byte_emit, ?emit_emit;
  apply logged_intro;
    [done|by rewrite ?crlf_app, <-?app_assoc
    |etransitivity; [|apply trunc_clean]; f_equal; by rewrite ?fmap_app, <-?app_assoc].

Lemma line_logs msg s : log_wf s -> logged (PREFIX ++ msg) s (line msg s).
Proof. unfold line. logs. Qed.

Lemma line2_logs a b s : log_wf s -> logged (PREFIX ++ a ++ b) s (line2 a b s).
Proof. unfold line2. logs. Qed.

Lemma err_msg_logs (msg : bytes) s : log_wf s -> logged (PREFIX ++ T_err ++ take 120 msg) s (err_msg msg s).
Proof. unfold err_msg. rewrite take_min_length. logs. Qed.

Lemma fetch_host_logs (host : bytes) (tls : bool) s : log_wf s ->
  logged (PREFIX ++ (if tls then T_fetch_https else T_fetch_http) ++ take 80 host) s (fetch_host host tls s).
Proof. unfold fetch_host. rewrite take_min_length. logs. Qed.

Lemma put_u32_dec_emit v s : put_u32_dec v s = emit (crlf (u32_dec v)) s.
Proof.
  unfold put_u32_dec. destruct (decide (v = 0)) as [->|]; [reflexivity|]. apply puts_emit.
Qed.

Lemma append_u32_dec_spec v c : append_u32_dec v (store_of c) = store_of (c ++ (clean <$> u32_dec v)).
Proof.
  unfold append_u32_dec. destruct (decide (v = 0)) as [->|]; [apply append_store_spec|].
  apply append_store_slice_spec.
Qed.

Lemma fb_wh_logs w h s : log_wf s ->
  logged (PREFIX ++ T_fb ++ u32_dec w ++ [120] ++ u32_dec h) s (fb_wh w h s).
Proof.
  unfold fb_wh. intros Hw. rewrite line_new_spec, !append_store_slice_spec, append_u32_dec_spec,
    append_store_spec, append_u32_dec_spec, !puts_emit, !put_u32_dec_emit, put_byte_emit, !emit_emit.
  apply logged_intro; [done|by rewrite ?crlf_app, <-?app_assoc|].
  etransitivity; [|apply trunc_clean]. f_equal. by rewrite ?fmap_app, <-?app_assoc.
Qed.

Definition hex2 (b : Z) : bytes := [HEX !!! Z.to_nat (Z.shiftr b 4); HEX !!! Z.to_nat (Z.land b 15)].
(** The octets in hexadecimal, joined with colons. *)
Fixpoint mac_text (m : bytes) : bytes :=
  match m with
  | [] => []
  | [b] => hex2 b
  | b :: m' => hex2 b ++ [58] ++ mac_text m'
  end.

Lemma hex2_printable : Forall (fun b => Forall (fun c => 32 <= c) (hex2 b)) (seqZ 0 256).
Proof. by_decide. Qed.

Lemma mac_text_printable m : is_bytes m -> Forall (fun c => 32 <= c) (mac_text m).
Proof.
  induction 1 as [|b m Hb _ IH]; [constructor|].
  assert (Forall (fun c => 32 <= c) (hex2 b)) as Hh.
  { pose proof hex2_printable as H. rewrite Forall_forall in H. apply H, elem_of_seqZ.
    unfold is_byte in Hb. lia. }
  destruct m; [done|]. apply Forall_app_2; [done|]. apply Forall_cons_2; [lia|done].
Qed.

Lemma mac_octets m s c sep :
  is_bytes m -> m <> [] ->
  fold_left mac_octet m (s, store_of c, sep) =
    (let t := (if sep : bool then [58] else []) ++ mac_text m in (emit t s, store_of (c ++ t), true)).
Proof.
  intros Hm. revert s c sep. induction Hm as [|b m Hb _ IH]; intros s c sep Hne; [done|].
  cbn [fold_left mac_octet].
  assert ((if sep then append_store 58 (store_of c) else store_of c) =
          store_of (c ++ (if sep then [58] else []))) as ->
    by (destruct sep; [apply append_store_spec|by rewrite app_nil_r]).
  assert ((if sep then put_byte 58 s else s) = emit (if sep then [58] else []) s) as ->
    by (destruct sep; [done|by rewrite emit_nil]).
  rewrite !append_store_spec, !put_byte_emit, !emit_emit. destruct m as [|b' m].
  - cbn [fold_left mac_text]. unfold hex2. by rewrite <-!app_assoc.
  - rewrite IH by done. cbv zeta. rewrite !emit_emit. unfold mac_text at 3 4. fold mac_text.
    unfold hex2. by rewrite <-!app_assoc.
Qed.

Lemma mac_logs m s : log_wf s -> is_bytes m -> m <> [] -> logged (PREFIX ++ T_mac ++ mac_text m) s (mac m s).
Proof.
  intros Hw Hm Hne. unfold mac. rewrite line_new_spec, !append_store_slice_spec, mac_octets by done.
  cbv zeta. pose proof (mac_text_printable m Hm) as Hp.
  rewrite !puts_emit, !emit_emit. apply logged_intro; [done| |].
  - rewrite !crlf_app, (crlf_id (mac_text m)) by done. by rewrite <-!app_assoc.
  - etransitivity; [|apply trunc_clean]. f_equal.
    rewrite !fmap_app, (clean_all (mac_text m)) by done. by rewrite <-?app_assoc.
Qed.
