(* ===== verification/Dom.v ===== *)
(** * The text DOM ([kernel/src/dom.rs])

    [build_text_dom]: a root with one text node per non-empty line, the node
    texts being ranges of a shared arena.  The node array and the arena are
    fixed; indexing goes through the panic monad, and the walk to the last
    sibling has as much fuel as there are nodes, so that [Ret] also says that
    the walk ends. *)

From S2P Require Import Prelude.

Inductive NodeKind := Element | Text.

Record StyleHints := { display_none : bool; indent_spaces : Z }.
Definition StyleHints_new : StyleHints := {| display_none := false; indent_spaces := 0 |}.

Record DomNode := {
  kind : NodeKind;
  parent : option Z;
  first_child : option Z;
  next_sibling : option Z;
  text_start : Z;
  text_len : Z;
  style : StyleHints;
}.

Definition DomNode_empty : DomNode := {|
  kind := Element; parent := None; first_child := None; next_sibling := None;
  text_start := 0; text_len := 0; style := StyleHints_new |}.

Definition DOM_MAX_NODES : nat := 512.
Definition DOM_TEXT_ARENA : nat := Z.to_nat 8192.

Record DomTree := {
  nodes : list DomNode;
  node_count : nat;
  text : bytes;
  dom_text_len : nat;
}.

Definition DomTree_new : DomTree := {|
  nodes := replicate DOM_MAX_NODES DomNode_empty; node_count := 0;
  text := replicate DOM_TEXT_ARENA 0; dom_text_len := 0 |}.

Definition reset (t : DomTree) : DomTree :=
  {| nodes := t.(nodes); node_count := 0; text := t.(text); dom_text_len := 0 |}.

Definition with_nodes (t : DomTree) (n : list DomNode) (c : nat) : DomTree :=
  {| nodes := n; node_count := c; text := t.(text); dom_text_len := t.(dom_text_len) |}.

Definition set_first_child (n : DomNode) (i : option Z) : DomNode := {|
  kind := n.(kind); parent := n.(parent); first_child := i; next_sibling := n.(next_sibling);
  text_start := n.(text_start); text_len := n.(text_len); style := n.(style) |}.
Definition set_next_sibling (n : DomNode) (i : option Z) : DomNode := {|
  kind := n.(kind); parent := n.(parent); first_child := n.(first_child); next_sibling := i;
  text_start := n.(text_start); text_len := n.(text_len); style := n.(style) |}.

(** [while let Some(nx) = out.nodes[n].next_sibling { n = nx as usize }] *)
Fixpoint last_sibling (fuel : nat) (ns : list DomNode) (n : nat) : rust nat :=
  match fuel with
  | O => Panic
  | S fuel =>
      node ← rd ns n;
      match node.(next_sibling) with
      | Some nx => last_sibling fuel ns (Z.to_nat nx)
      | None => Ret n
      end
  end.

Definition push_text_node (t : DomTree) (start len : nat) : rust DomTree :=
  if decide (length t.(nodes) <= t.(node_count))%nat then Ret t
  else
    let idx := t.(node_count) in
    ns ← wr t.(nodes) idx {|
      kind := Text; parent := Some 0; first_child := None; next_sibling := None;
      text_start := Z.of_nat (Nat.min start (Z.to_nat 65535)); text_len := Z.of_nat (Nat.min len (Z.to_nat 65535));
      style := StyleHints_new |};
    let t := with_nodes t ns (S idx) in
    root ← rd ns 0;
    match root.(first_child) with
    | None =>
        ns ← wr ns 0 (set_first_child root (Some (wrap16 (Z.of_nat idx))));
        Ret (with_nodes t ns (S idx))
    | Some fc =>
        n ← last_sibling (length ns) ns (Z.to_nat fc);
        node ← rd ns n;
        ns ← wr ns n (set_next_sibling node (Some (wrap16 (Z.of_nat idx))));
        Ret (with_nodes t ns (S idx))
    end.

Definition flush_line (t : DomTree) (cur_text_start : nat) : rust DomTree :=
  if decide (cur_text_start < t.(dom_text_len))%nat
  then push_text_node t cur_text_start (t.(dom_text_len) - cur_text_start) else Ret t.

(** The loop over [raw]; it ends with the flush of the last line. *)
Fixpoint dom_loop (raw : bytes) (t : DomTree) (cur_text_start : nat) : rust DomTree :=
  match raw with
  | [] => flush_line t cur_text_start
  | b :: raw =>
      if decide (b = 60 \/ b = 13) then dom_loop raw t cur_text_start
      else if decide (b = 10) then
        t ← flush_line t cur_text_start;
        dom_loop raw t t.(dom_text_len)
      else if decide (t.(dom_text_len) < length t.(text))%nat then
        txt ← wr t.(text) t.(dom_text_len) b;
        dom_loop raw {| nodes := t.(nodes); node_count := t.(node_count); text := txt;
                        dom_text_len := S t.(dom_text_len) |} cur_text_start
      else dom_loop raw t cur_text_start
  end.

Definition build_text_dom (raw : bytes) (out : DomTree) : rust DomTree :=
  let t := reset out in
  t ← (if decide (t.(node_count) < length t.(nodes))%nat then
         ns ← wr t.(nodes) 0 DomNode_empty;
         Ret (with_nodes t ns 1)
       else Ret t);
  dom_loop raw t t.(dom_text_len).

(** ** Specification *)

(** The bytes the builder looks at. *)
Definition keep (raw : bytes) : bytes := base.filter (fun b => b <> 60 /\ b <> 13) raw.

(** Lines cut to the room left in the arena. *)
Fixpoint cap_lines (room : nat) (ls : list bytes) : list bytes :=
  match ls with
  | [] => []
  | l :: ls => take room l :: cap_lines (room - length l) ls
  end.

Definition nonempty (ls : list bytes) : list bytes := base.filter (fun l => l <> []) ls.

(** The text of every node of the tree. *)
Definition dom_lines (raw : bytes) : list bytes :=
  take (DOM_MAX_NODES - 1) (nonempty (cap_lines DOM_TEXT_ARENA (split_on 10 (keep raw)))).

(** The node with text [l] at [start], followed by sibling [nx]. *)
Definition text_node (start : nat) (l : bytes) (nx : option Z) : DomNode := {|
  kind := Text; parent := Some 0; first_child := None; next_sibling := nx;
  text_start := Z.of_nat start; text_len := Z.of_nat (length l); style := StyleHints_new |}.

(** [t] holds exactly the lines [ls], node [i + 1] being line [i] and pointing to
    node [i + 2] unless it is the last one. *)
Record dom_holds (t : DomTree) (ls : list bytes) : Prop := {
  dh_nodes : length t.(nodes) = DOM_MAX_NODES;
  dh_text : length t.(text) = DOM_TEXT_ARENA;
  dh_len : (t.(dom_text_len) <= DOM_TEXT_ARENA)%nat;
  dh_count : t.(node_count) = S (length ls);
  dh_room : (S (length ls) <= DOM_MAX_NODES)%nat;
  dh_root : t.(nodes) !! 0%nat =
    Some (set_first_child DomNode_empty (if decide (ls = []) then None else Some 1));
  dh_line i l : ls !! i = Some l -> exists start,
    (start + length l <= t.(dom_text_len))%nat /\ slice t.(text) start (start + length l) = l /\
    t.(nodes) !! S i = Some (text_node start l
      (if decide (S i = length ls) then None else Some (Z.of_nat (i + 2))));
}.

(** ** Properties *)

Lemma arena_small : (DOM_TEXT_ARENA < Z.to_nat 65535)%nat.
Proof. unfold DOM_TEXT_ARENA. lia. Qed.

#[local] Opaque DOM_TEXT_ARENA.

Lemma dom_child t ls j :
  dom_holds t ls -> (1 <= j <= length ls)%nat -> exists node,
    t.(nodes) !! j = Some node /\
    node.(next_sibling) = if decide (j = length ls) then None else Some (Z.of_nat (S j)).
Proof.
  intros Hh Hj. destruct j as [|i]; [lia|].
  destruct (lookup_lt_is_Some_2 ls i) as [l Hl]; [lia|].
  destruct (dh_line _ _ Hh i l Hl) as (start & _ & _ & Hn). eexists. split; [exact Hn|].
  cbn. destruct (decide _); [done|]. f_equal. lia.
Qed.

(** The walk along the siblings ends at the last line's node. *)
Lemma last_sibling_spec t ls ns j fuel :
  dom_holds t ls -> (forall i, (i <= length ls)%nat -> ns !! i = t.(nodes) !! i) ->
  (1 <= j <= length ls)%nat -> (length ls < j + fuel)%nat ->
  last_sibling fuel ns j = Ret (length ls).
Proof.
  intros Hh Hns. revert j. induction fuel as [|fuel IH]; intros j Hj Hf; [lia|].
  destruct (dom_child t ls j Hh Hj) as (node & Hn & Hnx). cbn [last_sibling].
  rewrite (rd_lookup ns j node) by (by rewrite Hns by lia). rewrite bind_ret, Hnx.
  destruct (decide (j = length ls)) as [->|]; [done|].
  rewrite Nat2Z.id. apply IH; lia.
Qed.

Lemma wrap16_small n : (n < Z.to_nat 65536)%nat -> wrap16 (Z.of_nat n) = Z.of_nat n.
Proof. intros. unfold wrap. apply Z.mod_small. lia. Qed.

Lemma push_text_node_full t start len :
  node_count t = DOM_MAX_NODES -> length (nodes t) = DOM_MAX_NODES -> push_text_node t start len = Ret t.
Proof. intros H1 H2. unfold push_text_node. rewrite decide_True by lia. done. Qed.

(** What the new node changes, once the last sibling is known. *)
Lemma dom_holds_snoc t ls ns start len :
  dom_holds t ls -> (S (length ls) < DOM_MAX_NODES)%nat -> (0 < len)%nat ->
  (start + len <= t.(dom_text_len))%nat -> length ns = DOM_MAX_NODES ->
  let l := slice t.(text) start (start + len) in
  (forall i node, (1 <= i < length ls)%nat -> t.(nodes) !! i = Some node -> ns !! i = Some node) ->
  (forall node, ls <> [] -> t.(nodes) !! length ls = Some node ->
     ns !! length ls = Some (set_next_sibling node (Some (Z.of_nat (S (length ls)))))) ->
  ns !! 0%nat = Some (set_first_child DomNode_empty (Some 1)) ->
  ns !! S (length ls) = Some (text_node start l None) ->
  dom_holds (with_nodes t ns (S (S (length ls)))) (ls ++ [l]).
Proof.
  intros Hh Hroom Hlen Hend Hns l Hold Hlast Hroot Hnew.
  assert (length l = len) as Hl.
  { unfold l. rewrite length_slice; [lia|]. rewrite (dh_text _ _ Hh). pose proof (dh_len _ _ Hh). lia. }
  split; cbn [nodes text dom_text_len node_count with_nodes]; try apply Hh; rewrite ?length_app; cbn [length]; try lia.
  - rewrite Hroot. rewrite decide_False; [done|]. by destruct ls.
  - intros i x Hi. apply lookup_snoc_Some in Hi as [[Hi Hx]|[-> <-]].
    + destruct (dh_line _ _ Hh i x Hx) as (st & Hb & Hs & Hn). exists st. split_and!; [done|done|].
      rewrite (decide_False (P := S i = _)) by lia. destruct (decide (S i = length ls)) as [He|He].
      * rewrite He in Hn. apply Hlast in Hn; [|by intros ->]. rewrite He, Hn.
        by replace (Z.of_nat (i + 2)) with (Z.of_nat (S (length ls))) by lia.
      * apply Hold in Hn; [done|lia].
    + exists start. rewrite Hl. split_and!; [done|done|]. rewrite decide_True by lia. done.
Qed.

Lemma push_text_node_spec t ls start len :
  dom_holds t ls -> (S (length ls) < DOM_MAX_NODES)%nat -> (0 < len)%nat ->
  (start + len <= t.(dom_text_len))%nat ->
  exists t', push_text_node t start len = Ret t' /\ t'.(text) = t.(text) /\
    t'.(dom_text_len) = t.(dom_text_len) /\
    dom_holds t' (ls ++ [slice t.(text) start (start + len)]).
Proof.
  intros Hh Hroom Hlen Hend. pose proof Hh as [H1 H2 H3 H4 _ H5 _].
  assert (DOM_MAX_NODES < Z.to_nat 65536)%nat as Hbig by (unfold DOM_MAX_NODES; lia).
  pose proof arena_small as Hbig'.
  unfold push_text_node. rewrite decide_False, !Nat.min_l, wr_ok, bind_ret, H4 by lia.
  set (l := slice _ _ _). assert (length l = len) as Hl by (unfold l; rewrite length_slice; lia).
  set (node := Build_DomNode _ _ _ _ _ _ _).
  assert (node = text_node start l None) as Hnode by (unfold node, text_node; by rewrite Hl).
  clearbody node. subst node. set (ns1 := <[S (length ls) := _]> (nodes t)).
  assert (length ns1 = DOM_MAX_NODES) as Hns1 by (unfold ns1; by rewrite length_insert).
  assert (forall i, (i <= length ls)%nat -> ns1 !! i = nodes t !! i) as Hold
    by (intros; apply list_lookup_insert_ne; lia).
  assert (ns1 !! S (length ls) = Some (text_node start l None)) as Hnew
    by (apply list_lookup_insert_eq; lia).
  clearbody ns1. rewrite (rd_lookup ns1 0 _) by (rewrite Hold by lia; exact H5). rewrite bind_ret.
  cbn [first_child set_first_child]. rewrite wrap16_small by lia.
  destruct (decide (ls = [])) as [->|Hne].
  - rewrite wr_ok, bind_ret by lia. eexists. split_and!; [done|done|done|].
    eapply (dom_holds_snoc t []); try done; cbn [length] in *; rewrite ?length_insert; try done; try lia.
    + apply list_lookup_insert_eq. lia.
    + rewrite list_lookup_insert_ne by lia. done.
  - assert (0 < length ls)%nat as Hpos by (destruct ls; [done|cbn; lia]).
    rewrite (last_sibling_spec t ls) by (try done; cbn; lia). rewrite bind_ret.
    destruct (lookup_lt_is_Some_2 ns1 (length ls)) as [nd Hnd]; [lia|].
    rewrite (rd_lookup _ _ _ Hnd), bind_ret, wr_ok, bind_ret by lia.
    eexists. split_and!; [done|done|done|].
    eapply (dom_holds_snoc t ls); try done; rewrite ?length_insert; try done.
    + intros i n Hi Hn. rewrite list_lookup_insert_ne, Hold by lia. done.
    + intros n _ Hn. rewrite list_lookup_insert_eq by lia. rewrite Hold, Hn in Hnd by lia. by injection Hnd as ->.
    + by rewrite list_lookup_insert_ne, Hold, H5 by lia.
    + by rewrite list_lookup_insert_ne by lia.
Qed.

(** ** The whole builder *)

(** The lines still to come: [p] is the part of the current line already in the
    arena, [room] the space left. *)
Definition pending (p : bytes) (room : nat) (raw : bytes) : list bytes :=
  match split_on 10 (keep raw) with
  | f :: fs => nonempty ((p ++ take room f) :: cap_lines (room - length f) fs)
  | [] => []
  end.

Lemma keep_cons b raw :
  keep (b :: raw) = if decide (b = 60 \/ b = 13) then keep raw else b :: keep raw.
Proof.
  unfold keep. rewrite filter_cons. destruct (decide (b <> 60 /\ _)), (decide _); done || lia.
Qed.

Lemma nonempty_cons l ls : nonempty (l :: ls) = (if decide (l = []) then [] else [l]) ++ nonempty ls.
Proof. unfold nonempty. rewrite filter_cons. destruct (decide (l <> [])), (decide _); done. Qed.

Lemma pending_nl p room raw :
  pending p room (10 :: raw) = (if decide (p = []) then [] else [p]) ++ pending [] room raw.
Proof.
  unfold pending. rewrite keep_cons, decide_False by lia. cbn [split_on]. rewrite decide_True by done.
  cbn [length]. rewrite take_nil, app_nil_r, Nat.sub_0_r, nonempty_cons. f_equal.
  destruct (split_on_cons 10 (keep raw)) as (f & fs & ->). done.
Qed.

Lemma pending_byte p room b raw :
  b <> 60 -> b <> 13 -> b <> 10 ->
  pending p room (b :: raw) =
    if decide (0 < room)%nat then pending (p ++ [b]) (room - 1) raw else pending p 0 raw.
Proof.
  intros H1 H2 H3. unfold pending. rewrite keep_cons, decide_False by tauto. cbn [split_on].
  rewrite decide_False by done. destruct (split_on_cons 10 (keep raw)) as (f & fs & ->).
  destruct (decide _) as [Hr|Hr].
  - destruct room as [|room]; [lia|]. cbn [take length]. rewrite <-app_assoc. cbn [app].
    replace (S room - 1)%nat with room by lia. do 2 f_equal.
  - replace room with 0%nat by lia. by rewrite !take_0.
Qed.

Lemma cap_lines_room0 ls : nonempty (cap_lines 0 ls) = [].
Proof. induction ls as [|l ls IH]; [done|]. cbn [cap_lines]. by rewrite nonempty_cons, take_0. Qed.

Definition cap_nodes (ls : list bytes) : list bytes := take (DOM_MAX_NODES - 1) ls.

Lemma flush_line_spec t ls cur :
  dom_holds t ls -> (cur <= t.(dom_text_len))%nat ->
  let p := slice t.(text) cur t.(dom_text_len) in
  exists t', flush_line t cur = Ret t' /\ t'.(text) = t.(text) /\
    t'.(dom_text_len) = t.(dom_text_len) /\
    dom_holds t' (cap_nodes (ls ++ if decide (p = []) then [] else [p])).
Proof.
  intros Hh Hcur p. unfold flush_line.
  assert (length p = t.(dom_text_len) - cur)%nat as Hp.
  { unfold p. rewrite length_slice; [done|]. rewrite (dh_text _ _ Hh). pose proof (dh_len _ _ Hh). lia. }
  assert (length ls <= DOM_MAX_NODES - 1)%nat as Hle by (pose proof (dh_room _ _ Hh); lia).
  destruct (decide (p = [])) as [E|E].
  { rewrite E in Hp. cbn in Hp. rewrite decide_False by lia. exists t. split_and!; try done.
    rewrite app_nil_r. unfold cap_nodes. by rewrite take_ge. }
  assert (0 < length p)%nat by (destruct p; [done|cbn; lia]). rewrite decide_True by lia.
  destruct (decide (S (length ls) < DOM_MAX_NODES)%nat) as [Hr|Hr].
  - destruct (push_text_node_spec t ls cur (dom_text_len t - cur)) as (t' & E' & E1 & E2 & Hh');
      [done|done|lia|lia|].
    exists t'. split_and!; try done. replace (cur + (dom_text_len t - cur))%nat with (dom_text_len t) in Hh' by lia.
    unfold cap_nodes. rewrite take_ge; [done|]. rewrite length_app. cbn [length]. lia.
  - pose proof (dh_count _ _ Hh). pose proof (dh_room _ _ Hh).
    rewrite push_text_node_full by (try apply Hh; lia). exists t. split_and!; try done.
    unfold cap_nodes. rewrite take_app_le, take_ge by lia. done.
Qed.

Lemma cap_nodes_app l1 l2 : cap_nodes (cap_nodes l1 ++ l2) = cap_nodes (l1 ++ l2).
Proof.
  unfold cap_nodes. rewrite !take_app, take_take, Nat.min_id, length_take. f_equal. f_equal. lia.
Qed.

Lemma dom_loop_spec raw t ls cur :
  dom_holds t ls -> (cur <= t.(dom_text_len))%nat ->
  exists t', dom_loop raw t cur = Ret t' /\
    dom_holds t' (cap_nodes (ls ++ pending (slice t.(text) cur t.(dom_text_len))
                                    (DOM_TEXT_ARENA - t.(dom_text_len)) raw)).
Proof.
  revert t ls cur. induction raw as [|b raw IH]; intros t ls cur Hh Hcur; cbn [dom_loop].
  { destruct (flush_line_spec t ls cur Hh Hcur) as (t' & E & _ & _ & Hh'). exists t'. split; [done|].
    unfold pending. cbn [keep base.filter list_filter split_on cap_lines].
    by rewrite take_nil, app_nil_r, nonempty_cons, app_nil_r. }
  destruct (decide (b = 60 \/ b = 13)) as [Hs|Hs].
  { destruct (IH t ls cur Hh Hcur) as (t' & E & Hh'). exists t'. split; [done|].
    unfold pending in *. by rewrite keep_cons, decide_True. }
  destruct (decide (b = 10)) as [->|Hnl].
  { destruct (flush_line_spec t ls cur Hh Hcur) as (t1 & -> & E1 & E2 & Hh1). rewrite bind_ret.
    destruct (IH t1 _ (dom_text_len t1) Hh1) as (t' & E & Hh'); [lia|]. exists t'. split; [done|].
    rewrite pending_nl, app_assoc, <-cap_nodes_app.
    assert (slice (text t1) (dom_text_len t1) (dom_text_len t1) = []) as En
      by (unfold slice; by rewrite Nat.sub_diag, take_0).
    by rewrite En, E2 in Hh'. }
  pose proof (dh_text _ _ Hh) as Ht. pose proof (dh_len _ _ Hh) as Hl.
  rewrite pending_byte by (try tauto; done). destruct (decide (dom_text_len t < length (text t))%nat) as [Hr|Hr].
  - rewrite wr_ok, bind_ret, decide_True by lia.
    set (t1 := Build_DomTree _ _ _ _).
    assert (dom_holds t1 ls) as Hh1.
    { destruct Hh as [G1 G2 G3 G4 G5 G6 G7]. split; cbn; try done; [by rewrite length_insert|lia|].
      intros i l Hi. destruct (G7 i l Hi) as (st & Hb & Hsl & Hn). exists st. split_and!; [lia| |done].
      rewrite slice_insert_out by lia. done. }
    destruct (IH t1 ls cur Hh1) as (t' & E & Hh'); [cbn; lia|]. exists t'. split; [done|].
    cbn [text dom_text_len t1] in Hh'.
    assert (slice (<[dom_text_len t:=b]> (text t)) cur (S (dom_text_len t)) =
            slice (text t) cur (dom_text_len t) ++ [b]) as Esl.
    { unfold slice. rewrite Nat.sub_succ_l, drop_insert_ge by lia. apply take_insert_snoc.
      rewrite length_drop. lia. }
    rewrite Esl in Hh'. by replace (DOM_TEXT_ARENA - dom_text_len t - 1)%nat
      with (DOM_TEXT_ARENA - S (dom_text_len t))%nat by lia.
  - rewrite decide_False by lia. destruct (IH t ls cur Hh Hcur) as (t' & E & Hh'). exists t'. split; [done|].
    by replace (DOM_TEXT_ARENA - dom_text_len t)%nat with 0%nat in Hh' by lia.
Qed.

Lemma build_text_dom_eq raw out :
  length out.(nodes) = DOM_MAX_NODES -> length out.(text) = DOM_TEXT_ARENA ->
  exists t, build_text_dom raw out = Ret t /\ dom_holds t (dom_lines raw).
Proof.
  intros H1 H2. unfold build_text_dom. cbn [reset node_count nodes].
  assert (0 < DOM_MAX_NODES)%nat by (unfold DOM_MAX_NODES; lia).
  rewrite decide_True, wr_ok, bind_ret, bind_ret by lia.
  match goal with |- context [dom_loop raw ?t _] =>
    destruct (dom_loop_spec raw t [] 0) as (t' & E & Hh); [|cbn; lia|] end.
  - split; cbn [with_nodes reset nodes text dom_text_len node_count]; rewrite ?length_insert; try done; try lia.
    + by rewrite list_lookup_insert_eq by lia.
  - exists t'. split; [exact E|]. clear E. cbn [with_nodes reset text dom_text_len] in Hh.
    rewrite slice_0, take_0, Nat.sub_0_r in Hh. unfold dom_lines, pending, cap_nodes in *.
    destruct (split_on_cons 10 (keep raw)) as (f & fs & E). rewrite E in *.
    cbn [cap_lines app] in *. exact Hh.
Qed.

(** C36: whatever the input and whatever the (reused) tree held before, the builder
    returns without an out-of-range index, and the tree holds exactly the
    non-empty lines of the text without '<' and CR - as many bytes as the arena
    and as many lines as the node array have room for - in order, as one chain
    of siblings under the root. *)
Theorem build_text_dom_spec raw out :
  length out.(nodes) = DOM_MAX_NODES -> length out.(text) = DOM_TEXT_ARENA ->
  exists t, build_text_dom raw out = Ret t /\ dom_holds t (dom_lines raw).
Proof. apply build_text_dom_eq. Qed.

Lemma build_text_dom_spec_witness :
  exists t, build_text_dom [104; 105; 10; 10; 60; 98] DomTree_new = Ret t /\
    dom_holds t (dom_lines [104; 105; 10; 10; 60; 98]).
Proof. apply build_text_dom_spec; [reflexivity|vm_compute; reflexivity]. Defined.

Example dom_lines_ex : dom_lines [104; 105; 10; 10; 60; 98] = [[104; 105]; [98]].
Proof. vm_compute. reflexivity. Qed.
