(* ===== verification/Frame.v ===== *)
(** * The framebuffer ([kernel/src/gfx.rs], [kernel/src/cursor_emoji.rs])

    Pixels, rectangles and saved rectangles of the frame buffer, and the
    blending of cursor sprites into it.  The frame is a list of bytes; each
    access is checked as Rust checks it.  The sizes of a screen are below [2 ^ 31],
    so that no product of them overflows and their casts to [i32] keep them.
    [FrameOk.v] has the theorems, [Cursors.v] the pointers drawn with it. *)

From S2P Require Import Prelude.

(** ** The layout of a frame ([fb_info.rs]) *)

Inductive PixelFormat := Rgb | Bgr | U8 | Unknown.
#[export] Instance PixelFormat_eq : EqDecision PixelFormat.
Proof. solve_decision. Defined.

Record FrameBufferInfo := {
  width : nat;
  height : nat;
  stride : nat;
  pixel_format : PixelFormat;
  bytes_per_pixel : nat;
}.

Definition pixel_format_no_writes (fmt : PixelFormat) : bool := bool_decide (fmt = Unknown).

(** ** Pixels *)

(** The bytes of one pixel, at [i]. *)
Definition put_rgb (fmt : PixelFormat) (bpp i : nat) (r g b : Z) (buf : bytes) : rust bytes :=
  match fmt with
  | Rgb =>
      buf ← wr buf i r; buf ← wr buf (i + 1) g; buf ← wr buf (i + 2) b;
      if decide (4 <= bpp)%nat then wr buf (i + 3) 0xff else Ret buf
  | Bgr =>
      buf ← wr buf i b; buf ← wr buf (i + 1) g; buf ← wr buf (i + 2) r;
      if decide (4 <= bpp)%nat then wr buf (i + 3) 0xff else Ret buf
  | U8 => wr buf i ((r + g + b) / 3)
  | Unknown => Ret buf
  end.

(** [gfx::pixel]; [cursor_emoji::write_rgb] and [emoji_glyph::put_pixel] are the same. *)
Definition pixel (buf : bytes) (info : FrameBufferInfo) (x y : nat) (r g b : Z) : rust bytes :=
  if decide (width info <= x \/ height info <= y)%nat then Ret buf
  else
    let bpp := bytes_per_pixel info in
    let i := (y * stride info * bpp + x * bpp)%nat in
    if decide (length buf < i + bpp)%nat then Ret buf
    else put_rgb (pixel_format info) bpp i r g b buf.

(** ** Rectangles *)

(** The layouts with a fast path, and a pixel in them. *)
Definition pattern (fmt : PixelFormat) (bpp : nat) (r g b : Z) : option bytes :=
  match fmt, bpp with
  | Bgr, 4%nat => Some [b; g; r; 0xff]
  | Rgb, 4%nat => Some [r; g; b; 0xff]
  | Bgr, 3%nat => Some [b; g; r]
  | Rgb, 3%nat => Some [r; g; b]
  | U8, 1%nat => Some [(r + g + b) / 3]
  | _, _ => None
  end.

(** The rows [ys] of a rectangle: [n] pixels from column [x0] on; the first row
    that is not inside the buffer ends the loop. *)
Fixpoint fill_rows (pat : bytes) (stride_b x0 n : nat) (ys : list nat) (buf : bytes) : bytes :=
  match ys with
  | [] => buf
  | y :: ys =>
      let base := (y * stride_b + x0 * length pat)%nat in
      if decide (length buf < base + n * length pat)%nat then buf
      else fill_rows pat stride_b x0 n ys (list_inserts base (concat (replicate n pat)) buf)
  end.

(** Pixel by pixel: columns [xs] of row [y], then all rows [ys]. *)
Fixpoint pixel_row (info : FrameBufferInfo) (r g b : Z) (y : nat) (xs : list nat) (buf : bytes) : rust bytes :=
  match xs with
  | [] => Ret buf
  | x :: xs => buf ← pixel buf info x y r g b; pixel_row info r g b y xs buf
  end.
Fixpoint pixel_rows (info : FrameBufferInfo) (r g b : Z) (xs ys : list nat) (buf : bytes) : rust bytes :=
  match ys with
  | [] => Ret buf
  | y :: ys => buf ← pixel_row info r g b y xs buf; pixel_rows info r g b xs ys buf
  end.

Definition clear (buf : bytes) (info : FrameBufferInfo) (r g b : Z) : rust bytes :=
  let bpp := bytes_per_pixel info in
  if decide (bpp = 0 \/ width info = 0 \/ height info = 0 \/ stride info < width info)%nat then Ret buf
  else if pixel_format_no_writes (pixel_format info) then Ret buf
  else
    match pattern (pixel_format info) bpp r g b with
    | Some pat => Ret (fill_rows pat (stride info * bpp) 0 (width info) (seq 0 (height info)) buf)
    | None => pixel_rows info r g b (seq 0 (width info)) (seq 0 (height info)) buf
    end.

Definition fill_rect (buf : bytes) (info : FrameBufferInfo) (x0 y0 rw rh : nat) (r g b : Z) : rust bytes :=
  let x1 := Nat.min (x0 + rw) (width info) in
  let y1 := Nat.min (y0 + rh) (height info) in
  let y0c := Nat.min y0 (height info) in
  let x0c := Nat.min x0 (width info) in
  if decide (x1 <= x0c \/ y1 <= y0c)%nat then Ret buf
  else
    let bpp := bytes_per_pixel info in
    if decide (bpp = 0 \/ stride info < width info)%nat then Ret buf
    else if pixel_format_no_writes (pixel_format info) then Ret buf
    else
      let ys := seq y0c (y1 - y0c) in
      match pattern (pixel_format info) bpp r g b with
      | Some pat => Ret (fill_rows pat (stride info * bpp) x0c (x1 - x0c) ys buf)
      | None => pixel_rows info r g b (seq x0c (x1 - x0c)) ys buf
      end.

(** ** Saved rectangles *)

(** Where row [y] of a rectangle from column [x0] on begins. *)
Definition row_base (info : FrameBufferInfo) (x0 y : nat) : nat :=
  (y * stride info * bytes_per_pixel info + x0 * bytes_per_pixel info)%nat.

(** The loop over the rows; [o] bytes of [dst] are used. *)
Fixpoint save_rows (buf : bytes) (info : FrameBufferInfo) (x0 row_bytes : nat) (ys : list nat)
    (dst : bytes) (o : nat) : bytes * nat :=
  match ys with
  | [] => (dst, o)
  | y :: ys =>
      if decide (height info <= y)%nat then (dst, o)
      else
        let base := row_base info x0 y in
        if decide (length buf < base + row_bytes \/ length dst < o + row_bytes)%nat then (dst, o)
        else save_rows buf info x0 row_bytes ys
               (list_inserts o (slice buf base (base + row_bytes)) dst) (o + row_bytes)
  end.

Definition blit_save_rect (buf : bytes) (info : FrameBufferInfo) (x0 y0 w h : nat) (dst : bytes) : bytes * nat :=
  let bpp := bytes_per_pixel info in
  if decide (bpp = 0 \/ w = 0 \/ h = 0)%nat then (dst, 0%nat)
  else save_rows buf info x0 (w * bpp) (seq y0 h) dst 0.

Fixpoint restore_rows (info : FrameBufferInfo) (x0 row_bytes : nat) (ys : list nat) (src : bytes) (o : nat)
    (buf : bytes) : bytes :=
  match ys with
  | [] => buf
  | y :: ys =>
      if decide (height info <= y)%nat then buf
      else
        let base := row_base info x0 y in
        if decide (length buf < base + row_bytes \/ length src < o + row_bytes)%nat then buf
        else restore_rows info x0 row_bytes ys src (o + row_bytes)
               (list_inserts base (slice src o (o + row_bytes)) buf)
  end.

Definition blit_restore_rect (buf : bytes) (info : FrameBufferInfo) (x0 y0 w h : nat) (src : bytes) : bytes :=
  let bpp := bytes_per_pixel info in
  if decide (bpp = 0 \/ w = 0 \/ h = 0)%nat then buf
  else restore_rows info x0 (w * bpp) (seq y0 h) src 0 buf.

(** [i32::clamp] and [usize::clamp] panic when the bounds cross. *)
Definition clamp (v lo hi : Z) : rust Z := if decide (hi < lo) then Panic else Ret (Z.max lo (Z.min v hi)).

Lemma clamp_ok v lo hi : lo <= hi -> clamp v lo hi = Ret (Z.max lo (Z.min v hi)).
Proof. intros. unfold clamp. by rewrite decide_False by lia. Qed.

(** ** Cursor sprites *)

Definition MAX_CURSORS : nat := 12.

Definition CUR_HALF : Z := 8.
Definition SPRITE_STYLES : nat := 8.
Definition SPRITE : Z := 16.
Definition CUR : nat := 16.

Definition read_rgb (buf : bytes) (info : FrameBufferInfo) (x y : nat) : rust (option (Z * Z * Z)) :=
  if decide (width info <= x \/ height info <= y)%nat then Ret None
  else
    let bpp := bytes_per_pixel info in
    let i := (y * stride info * bpp + x * bpp)%nat in
    if decide (length buf < i + Nat.min bpp 3)%nat then Ret None
    else
      match pixel_format info with
      | Rgb =>
          if decide (3 <= bpp)%nat then
            r ← rd buf i; g ← rd buf (i + 1); b ← rd buf (i + 2); Ret (Some (r, g, b))
          else Ret None
      | Bgr =>
          if decide (3 <= bpp)%nat then
            r ← rd buf (i + 2); g ← rd buf (i + 1); b ← rd buf i; Ret (Some (r, g, b))
          else Ret None
      | U8 => v ← rd buf i; Ret (Some (v, v, v))
      | Unknown => Ret None
      end.

Definition blend_channel (s d sa : Z) : Z := wrap8 ((s * sa + d * (255 - sa)) / 255).

Definition blend_over (buf : bytes) (info : FrameBufferInfo) (x y : nat) (sr sg sb sa : Z) : rust bytes :=
  if decide (sa = 0) then Ret buf
  else if decide (sa = 255) then pixel buf info x y sr sg sb
  else
    under ← read_rgb buf info x y;
    match under with
    | None => Ret buf
    | Some (dr, dg, db) =>
        pixel buf info x y (blend_channel sr dr sa) (blend_channel sg dg sa) (blend_channel sb db sa)
    end.

Section sprite.
Context (data : bytes) (info : FrameBufferInfo) (ox oy : Z).

(** One row of the sprite; a row that is not in the data ends here. *)
Fixpoint sprite_row (py : nat) (pxs : list nat) (buf : bytes) : rust bytes :=
  match pxs with
  | [] => Ret buf
  | px :: pxs =>
      let o := ((py * CUR + px) * 4)%nat in
      if decide (length data < o + 4)%nat then Ret buf
      else
        sr ← rd data o; sg ← rd data (o + 1); sb ← rd data (o + 2); sa ← rd data (o + 3);
        if decide (sa = 0) then sprite_row py pxs buf
        else
          let sx := ox + Z.of_nat px in
          let sy := oy + Z.of_nat py in
          buf ← (if decide (0 <= sx /\ 0 <= sy /\ sx < Z.of_nat (width info) /\ sy < Z.of_nat (height info))
                 then blend_over buf info (Z.to_nat sx) (Z.to_nat sy) sr sg sb sa
                 else Ret buf);
          sprite_row py pxs buf
  end.

Fixpoint sprite_rows (pys : list nat) (buf : bytes) : rust bytes :=
  match pys with
  | [] => Ret buf
  | py :: pys => buf ← sprite_row py (seq 0 CUR) buf; sprite_rows pys buf
  end.
End sprite.

(** [PRESETS] are the sprites of [kernel/assets/cursor_noto]. *)
Definition draw_sprite (PRESETS : list bytes) (buf : bytes) (info : FrameBufferInfo) (cx cy preset : Z)
    (pointer_idx : nat) : rust bytes :=
  let w := Z.of_nat (width info) in
  let h := Z.of_nat (height info) in
  if decide (cx < 0 \/ cy < 0 \/ w <= cx \/ h <= cy) then Ret buf
  else
    data ← rd PRESETS ((Z.to_nat preset + pointer_idx) mod SPRITE_STYLES)%nat;
    sprite_rows data info (cx - SPRITE / 2) (cy - SPRITE / 2) (seq 0 CUR) buf.
