(* ===== verification/FrameOk.v ===== *)
(** * What the drawing primitives guarantee

    The fast paths of [fill_rect] and [clear] write what a loop over the pixels
    would; a saved rectangle comes back exactly; a sprite stays within a rectangle
    that has its part of the screen.  [Cursors.v] puts the last two together. *)

From S2P Require Import Prelude Frame.

(** ** Frames that fit *)

(** The buffer holds the whole screen, and a pixel the components of its format. *)
Definition format_ok (info : FrameBufferInfo) : Prop :=
  match pixel_format info with
  | Rgb | Bgr => (3 <= bytes_per_pixel info)%nat
  | U8 => (1 <= bytes_per_pixel info)%nat
  | Unknown => True
  end.

#[export] Instance format_ok_dec info : Decision (format_ok info).
Proof. unfold format_ok. destruct (pixel_format info); apply _. Defined.

Definition fits (info : FrameBufferInfo) (buf : bytes) : Prop :=
  (width info <= stride info)%nat /\
  (height info * stride info * bytes_per_pixel info <= length buf)%nat /\ format_ok info.

Lemma fits_length info buf buf' : fits info buf -> length buf' = length buf -> fits info buf'.
Proof. intros (? & ? & ?) E. unfold fits. rewrite E. by split_and!. Qed.

(** A stretch of a row of the screen is inside the buffer. *)
Lemma row_in info buf x n y : fits info buf -> (x + n <= width info)%nat -> (y < height info)%nat ->
  (row_base info x y + n * bytes_per_pixel info <= length buf)%nat.
Proof.
  intros (Hs & Hb & _) Hx Hy. unfold row_base.
  assert (x + n <= stride info)%nat as Hn by lia.
  assert (S y * stride info <= height info * stride info)%nat as Hr by (apply Nat.mul_le_mono_r; lia).
  apply (Nat.mul_le_mono_r _ _ (bytes_per_pixel info)) in Hr, Hn. lia.
Qed.

(** ** One pixel *)

Definition pixel_bytes (fmt : PixelFormat) (bpp : nat) (r g b : Z) : bytes :=
  match fmt with
  | Rgb => [r; g; b] ++ (if decide (4 <= bpp)%nat then [0xff] else [])
  | Bgr => [b; g; r] ++ (if decide (4 <= bpp)%nat then [0xff] else [])
  | U8 => [(r + g + b) / 3]
  | Unknown => []
  end.

Lemma pixel_bytes_short info r g b : format_ok info ->
  (length (pixel_bytes (pixel_format info) (bytes_per_pixel info) r g b) <= bytes_per_pixel info)%nat.
Proof. unfold format_ok, pixel_bytes. destruct (pixel_format info); repeat case_decide; cbn; lia. Qed.

Lemma pattern_bytes fmt bpp r g b pat : pattern fmt bpp r g b = Some pat ->
  pixel_bytes fmt bpp r g b = pat /\ length pat = bpp.
Proof.
  unfold pattern. destruct fmt, bpp as [|[|[|[|[|]]]]]; intros E; try discriminate E; injection E as <-; done.
Qed.

Lemma put_rgb_ok fmt bpp i r g b buf :
  (i + length (pixel_bytes fmt bpp r g b) <= length buf)%nat ->
  put_rgb fmt bpp i r g b buf = Ret (list_inserts i (pixel_bytes fmt bpp r g b) buf).
Proof.
  intros Hi. unfold put_rgb, pixel_bytes in *. destruct fmt; repeat case_decide; cbn [length app] in Hi;
    repeat (rewrite wr_ok, ?bind_ret by len); cbn [app list_inserts]; rewrite ?Nat.add_1_r; try done;
    f_equal; apply list_eq; intros k; rewrite !list_lookup_insert; repeat case_decide; first [done|len].
Qed.

Lemma pixel_ok info buf x y r g b : fits info buf -> (x < width info)%nat -> (y < height info)%nat ->
  pixel buf info x y r g b =
  Ret (list_inserts (row_base info x y) (pixel_bytes (pixel_format info) (bytes_per_pixel info) r g b) buf).
Proof.
  intros Hf Hx Hy. pose proof (row_in info buf x 1 y Hf ltac:(lia) Hy) as Hr.
  pose proof (pixel_bytes_short info r g b (proj2 (proj2 Hf))) as Hp.
  unfold pixel. rewrite decide_False by lia. cbv zeta. fold (row_base info x y).
  rewrite decide_False by lia. apply put_rgb_ok. lia.
Qed.

(** ** Filled rectangles *)

Section fill.
Context (info : FrameBufferInfo) (r g b : Z) (pat : bytes).
Context (Hpat : pattern (pixel_format info) (bytes_per_pixel info) r g b = Some pat).

Lemma pixel_row_fill x n y buf : fits info buf -> (x + n <= width info)%nat -> (y < height info)%nat ->
  pixel_row info r g b y (seq x n) buf = Ret (list_inserts (row_base info x y) (concat (replicate n pat)) buf).
Proof.
  intros Hf Hx Hy. destruct (pattern_bytes _ _ _ _ _ _ Hpat) as [Ep El].
  revert x buf Hf Hx. induction n as [|n IH]; intros x buf Hf Hx; [done|].
  cbn [seq pixel_row replicate concat]. rewrite pixel_ok, bind_ret, Ep by (done || lia).
  rewrite IH by (lia || (eapply fits_length; [exact Hf|apply length_inserts])).
  rewrite list_inserts_app_l. do 3 f_equal. unfold row_base. rewrite El. lia.
Qed.

Lemma fill_rows_pixels x n y m buf : fits info buf -> (x + n <= width info)%nat -> (y + m <= height info)%nat ->
  pixel_rows info r g b (seq x n) (seq y m) buf =
  Ret (fill_rows pat (stride info * bytes_per_pixel info) x n (seq y m) buf).
Proof.
  intros Hf Hx Hy. destruct (pattern_bytes _ _ _ _ _ _ Hpat) as [Ep El].
  revert y buf Hf Hy. induction m as [|m IH]; intros y buf Hf Hy; [done|].
  pose proof (row_in info buf x n y Hf ltac:(lia) ltac:(lia)) as Hr.
  cbn [seq pixel_rows fill_rows]. rewrite pixel_row_fill, bind_ret, El by (done || lia).
  replace (y * (stride info * bytes_per_pixel info) + x * bytes_per_pixel info)%nat with (row_base info x y)
    by (unfold row_base; lia).
  rewrite decide_False by lia. apply IH; [|lia]. eapply fits_length; [exact Hf|apply length_inserts].
Qed.
End fill.

(** ** Saved rectangles *)

Section saved.
Context (info : FrameBufferInfo).
Implicit Types (buf src dst : bytes).

(** The bytes of a rectangle, row by row. *)
Definition rect_bytes (F : bytes) (x0 w y0 h : nat) : bytes :=
  concat (map (fun y => slice F (row_base info x0 y) (row_base info x0 y + w * bytes_per_pixel info)) (seq y0 h)).

Definition in_rect (x0 w y0 h k : nat) : Prop :=
  exists y, (y0 <= y < y0 + h)%nat /\
    (row_base info x0 y <= k < row_base info x0 y + w * bytes_per_pixel info)%nat.

Lemma length_rect_bytes F x0 w y0 h : fits info F -> (x0 + w <= width info)%nat -> (y0 + h <= height info)%nat ->
  length (rect_bytes F x0 w y0 h) = (h * (w * bytes_per_pixel info))%nat.
Proof.
  intros Hf Hx. unfold rect_bytes. revert y0. induction h as [|h IH]; intros y0 Hy; [done|].
  cbn [seq map concat]. pose proof (row_in info F x0 w y0 Hf Hx ltac:(lia)).
  rewrite length_app, length_slice, IH by lia. lia.
Qed.

Lemma save_rows_ok F x0 w y0 h dst o : fits info F -> (x0 + w <= width info)%nat -> (y0 + h <= height info)%nat ->
  (o + h * (w * bytes_per_pixel info) <= length dst)%nat ->
  save_rows F info x0 (w * bytes_per_pixel info) (seq y0 h) dst o =
  (list_inserts o (rect_bytes F x0 w y0 h) dst, o + h * (w * bytes_per_pixel info))%nat.
Proof.
  intros Hf Hx. revert y0 dst o. induction h as [|h IH]; intros y0 dst o Hy Hd.
  { cbn. f_equal. lia. }
  pose proof (row_in info F x0 w y0 Hf Hx ltac:(lia)) as Hr.
  cbn [seq save_rows]. rewrite decide_False, decide_False by lia.
  rewrite IH by (rewrite ?length_inserts; lia). f_equal; [|lia].
  unfold rect_bytes. cbn [seq map concat]. rewrite list_inserts_app_l, length_slice by lia. f_equal. lia.
Qed.

(** Bringing a rectangle of [F] back: what agrees with [F] still does, and the
    rectangle does. *)
Lemma restore_rows_ok F x0 w y0 h pre buf : fits info F -> (x0 + w <= width info)%nat -> (y0 + h <= height info)%nat ->
  length buf = length F ->
  let buf' := restore_rows info x0 (w * bytes_per_pixel info) (seq y0 h) (pre ++ rect_bytes F x0 w y0 h) (length pre) buf in
  length buf' = length F /\
  forall k, (buf !! k = F !! k \/ in_rect x0 w y0 h k) -> buf' !! k = F !! k.
Proof.
  intros Hf Hx. cbv zeta. revert y0 pre buf. induction h as [|h IH]; intros y0 pre buf Hy Hl.
  { split; [done|]. intros k [E|(y & ? & _)]; [done|lia]. }
  pose proof (row_in info F x0 w y0 Hf Hx ltac:(lia)) as Hr.
  cbn [seq restore_rows]. rewrite decide_False by lia.
  set (row := slice F (row_base info x0 y0) (row_base info x0 y0 + w * bytes_per_pixel info)).
  assert (length row = (w * bytes_per_pixel info)%nat) as Hrow by (unfold row; rewrite length_slice; lia).
  change (rect_bytes F x0 w y0 (S h)) with (row ++ rect_bytes F x0 w (S y0) h).
  rewrite decide_False by (rewrite !length_app; lia).
  rewrite slice_skip, slice_here by (rewrite ?Hrow; lia).
  rewrite app_assoc. replace (length pre + w * bytes_per_pixel info)%nat with (length (pre ++ row)) by (rewrite length_app; lia).
  destruct (IH (S y0) (pre ++ row) (list_inserts (row_base info x0 y0) row buf)) as [Hl' Hk];
    [lia|by rewrite length_inserts|]. split; [exact Hl'|].
  intros k Hc. apply Hk.
  destruct (decide (row_base info x0 y0 <= k < row_base info x0 y0 + w * bytes_per_pixel info)%nat) as [Hin|Hout].
  - left. rewrite list_lookup_inserts by lia. unfold row, slice.
    rewrite lookup_take_lt, lookup_drop by lia. f_equal. lia.
  - destruct Hc as [E|(y & Hy' & Hk')].
    + left. destruct (decide (k < row_base info x0 y0)%nat).
      * by rewrite list_lookup_inserts_lt by lia.
      * by rewrite list_lookup_inserts_ge by lia.
    + right. exists y. split; [|done]. destruct (decide (y = y0)) as [->|]; lia.
Qed.
End saved.

(** ** Drawing inside a rectangle *)

(** [m] draws on [buf], and only where [R] holds. *)
Definition draws (R : nat -> Prop) (buf : bytes) (m : rust bytes) : Prop :=
  exists buf', m = Ret buf' /\ length buf' = length buf /\ forall k, ~ R k -> buf' !! k = buf !! k.

Lemma draws_nothing R buf : draws R buf (Ret buf).
Proof. by exists buf. Qed.

Lemma draws_bind R buf m k : draws R buf m ->
  (forall buf', length buf' = length buf -> draws R buf' (k buf')) -> draws R buf (m ≫= k).
Proof.
  intros (b1 & -> & L1 & E1) Hk. destruct (Hk b1 L1) as (b2 & E & L2 & E2). exists b2.
  rewrite bind_ret. split; [done|]. split; [congruence|]. intros j Hj. by rewrite E2, E1.
Qed.

Lemma draws_weaken (R R' : nat -> Prop) buf m : draws R buf m -> (forall k, R k -> R' k) -> draws R' buf m.
Proof. intros (b & -> & L & E) H. exists b. split_and!; auto. Qed.

Section inside.
Context (info : FrameBufferInfo) (x0 w y0 h : nat).
Implicit Types (buf : bytes).
Let R := in_rect info x0 w y0 h.

Lemma pixel_draws buf x y r g b : fits info buf -> (x0 <= x < x0 + w)%nat -> (y0 <= y < y0 + h)%nat ->
  draws R buf (pixel buf info x y r g b).
Proof.
  intros Hf Hx Hy. destruct (decide (width info <= x \/ height info <= y)%nat) as [Ho|Ho].
  { unfold pixel. rewrite decide_True by done. apply draws_nothing. }
  rewrite pixel_ok by (done || lia). eexists. split; [done|]. split; [apply length_inserts|].
  pose proof (pixel_bytes_short info r g b (proj2 (proj2 Hf))) as Hs.
  set (px := pixel_bytes _ _ _ _ _) in *. intros k Hk.
  destruct (decide (k < row_base info x y)%nat); [by apply list_lookup_inserts_lt|].
  apply list_lookup_inserts_ge. destruct (decide (row_base info x y + length px <= k)%nat); [done|].
  exfalso. apply Hk. exists y. split; [done|]. unfold row_base in *. nia.
Qed.

Lemma read_rgb_ok buf x y : fits info buf -> exists v, read_rgb buf info x y = Ret v.
Proof.
  intros (_ & _ & Hf). unfold read_rgb. case_decide; [eauto|]. cbv zeta. case_decide; [eauto|].
  unfold format_ok in Hf. destruct (pixel_format info); [| | |eauto].
  - rewrite decide_True by done. rewrite !rd_ok, !bind_ret by lia. eauto.
  - rewrite decide_True by done. rewrite !rd_ok, !bind_ret by lia. eauto.
  - rewrite rd_ok, bind_ret by lia. eauto.
Qed.

Lemma blend_over_draws buf x y r g b a : fits info buf -> (x0 <= x < x0 + w)%nat -> (y0 <= y < y0 + h)%nat ->
  draws R buf (blend_over buf info x y r g b a).
Proof.
  intros Hf Hx Hy. unfold blend_over. case_decide; [apply draws_nothing|]. case_decide; [by apply pixel_draws|].
  destruct (read_rgb_ok buf x y Hf) as [[[[dr dg] db]|] ->]; rewrite bind_ret; [by apply pixel_draws|apply draws_nothing].
Qed.

Section sprite_inside.
Context (data : bytes) (ox oy : Z).
(** What of the sprite is on the screen is in the rectangle. *)
Context (Hcols : forall px, (px < CUR)%nat -> 0 <= ox + Z.of_nat px < Z.of_nat (width info) ->
  Z.of_nat x0 <= ox + Z.of_nat px < Z.of_nat (x0 + w)).
Context (Hrows : forall py, (py < CUR)%nat -> 0 <= oy + Z.of_nat py < Z.of_nat (height info) ->
  Z.of_nat y0 <= oy + Z.of_nat py < Z.of_nat (y0 + h)).

Lemma sprite_row_draws py pxs buf : fits info buf -> (py < CUR)%nat -> Forall (fun px => px < CUR)%nat pxs ->
  draws R buf (sprite_row data info ox oy py pxs buf).
Proof.
  intros Hf Hpy Hpx. revert buf Hf. induction Hpx as [|px pxs Hpx _ IH]; intros buf Hf; [apply draws_nothing|].
  cbn [sprite_row]. case_decide as Ho; [apply draws_nothing|].
  rewrite !rd_ok, !bind_ret by lia. case_decide; [by apply IH|]. apply draws_bind.
  - case_decide as Hs; [|apply draws_nothing].
    pose proof (Hcols px Hpx ltac:(lia)). pose proof (Hrows py Hpy ltac:(lia)). apply blend_over_draws; [done|lia|lia].
  - intros buf' Hl. apply IH. by eapply fits_length.
Qed.

Lemma sprite_rows_draws pys buf : fits info buf -> Forall (fun py => py < CUR)%nat pys ->
  draws R buf (sprite_rows data info ox oy pys buf).
Proof.
  intros Hf Hpy. revert buf Hf. induction Hpy as [|py pys Hpy _ IH]; intros buf Hf; [apply draws_nothing|].
  cbn [sprite_rows]. apply draws_bind.
  - apply sprite_row_draws; [done|done|]. apply Forall_forall. intros px Hin%elem_of_seq. lia.
  - intros buf' Hl. apply IH. by eapply fits_length.
Qed.
End sprite_inside.
End inside.

(** ** Properties *)

(** The loop over the pixels of a rectangle, cut to the screen. *)
Definition fill_reference (buf : bytes) (info : FrameBufferInfo) (x0 y0 rw rh : nat) (r g b : Z) : rust bytes :=
  pixel_rows info r g b (seq x0 (Nat.min (x0 + rw) (width info) - x0)) (seq y0 (Nat.min (y0 + rh) (height info) - y0)) buf.

Lemma pixel_rows_empty info r g b ys buf : pixel_rows info r g b [] ys buf = Ret buf.
Proof. by induction ys. Qed.

Lemma pixel_rows_unknown info r g b xs ys buf : pixel_format info = Unknown -> pixel_rows info r g b xs ys buf = Ret buf.
Proof.
  intros E. assert (forall y, pixel_row info r g b y xs buf = Ret buf) as Hrow.
  { intros y. induction xs as [|x xs IH]; [done|]. cbn. unfold pixel. rewrite E. cbn. by repeat case_decide. }
  induction ys as [|y ys IH]; [done|]. cbn. by rewrite Hrow.
Qed.

(** On a buffer that holds the screen, [fill_rect] with its fast paths writes
    exactly what a loop of [pixel] over the rectangle, cut to the screen, writes;
    and [clear] is [fill_rect] of the whole screen. *)
Theorem fill_rect_pixelwise info buf x0 y0 rw rh r g b :
  fits info buf -> (1 <= bytes_per_pixel info)%nat ->
  fill_rect buf info x0 y0 rw rh r g b = fill_reference buf info x0 y0 rw rh r g b /\
  clear buf info r g b = fill_rect buf info 0 0 (width info) (height info) r g b.
Proof.
  intros Hf Hbpp. pose proof Hf as (Hs & _). split.
  - unfold fill_rect, fill_reference. cbv zeta. case_decide as He.
    { destruct He as [He|He].
      - replace (Nat.min (x0 + rw) (width info) - x0)%nat with 0%nat by lia. by rewrite pixel_rows_empty.
      - replace (Nat.min (y0 + rh) (height info) - y0)%nat with 0%nat by lia. done. }
    rewrite decide_False by lia. unfold pixel_format_no_writes. case_bool_decide as Hu; [by rewrite pixel_rows_unknown|].
    rewrite !(Nat.min_l x0), !(Nat.min_l y0) by lia.
    destruct (pattern _ _ _ _ _) as [pat|] eqn:Ep; [|done].
    symmetry. apply fill_rows_pixels; [done|done|lia|lia].
  - unfold clear, fill_rect. cbv zeta. rewrite !Nat.add_0_l, !Nat.min_id, !Nat.min_0_l, !Nat.sub_0_r.
    destruct (decide (width info = 0 \/ height info = 0)%nat) as [Hz|Hz].
    + rewrite decide_True by lia. by rewrite decide_True by lia.
    + rewrite decide_False by lia. rewrite decide_False by lia. by rewrite decide_False by lia.
Qed.

Definition small_screen : FrameBufferInfo :=
  {| width := 3; height := 2; stride := 4; pixel_format := Bgr; bytes_per_pixel := 3 |}.

Lemma fill_rect_pixelwise_witness :
  fill_rect (replicate 24 0) small_screen 1 0 9 1 7 8 9 = Ret ([0; 0; 0] ++ [9; 8; 7; 9; 8; 7] ++ replicate 15 0) /\
  clear (replicate 24 0) small_screen 7 8 9 = fill_rect (replicate 24 0) small_screen 0 0 3 2 7 8 9.
Proof.
  destruct (fill_rect_pixelwise small_screen (replicate 24 0) 1 0 9 1 7 8 9) as [E1 E2].
  - apply (bool_decide_unpack _). vm_compute. exact I.
  - cbn. lia.
  - split; [rewrite E1; vm_compute; reflexivity|exact E2].
Defined.
