(* ===== verification/Cursors.v ===== *)
(** * The pointers on the screen ([CursorEngine] of [kernel/src/gfx.rs])

    Up to twelve pointers are drawn over the frame.  The engine saves what is
    under each, draws them all, and at the next movement brings the saved
    squares back, the last first.  The theorem: whatever sequence of movements,
    what is on the screen is always the frame with the pointers drawn once. *)

From S2P Require Import Prelude Frame FrameOk.

Definition SLOT_BYTES : nat := 22 * 22 * 4.

(** Entry [i] of the arrays of [CursorEngine]; [saved] is its slot of the bytes. *)
Record Cursor := {
  last_x : Z;
  last_y : Z;
  last_active : bool;
  sx : nat;
  sy : nat;
  sw : nat;
  sh : nat;
  saved : bytes;
  save_len : nat;
  save_valid : bool;
}.
#[export] Instance Cursor_eta : Settable Cursor := fun c =>
  Build_Cursor c.(last_x) c.(last_y) c.(last_active) c.(sx) c.(sy) c.(sw) c.(sh) c.(saved)
    c.(save_len) c.(save_valid).

Record CursorEngine := { cursors : list Cursor; initialized : bool }.
#[export] Instance CursorEngine_eta : Settable CursorEngine := fun e =>
  Build_CursorEngine e.(cursors) e.(initialized).

(** Entry [i] of [cursor_x], [cursor_y] and [cursor_active] of [UiState]. *)
Record Pointer := { cursor_x : Z; cursor_y : Z; cursor_active : bool }.

Definition no_cursor : Cursor := {|
  last_x := 0; last_y := 0; last_active := false; sx := 0; sy := 0; sw := 0; sh := 0;
  saved := replicate SLOT_BYTES 0; save_len := 0; save_valid := false |}.
Definition static_initial : CursorEngine :=
  {| cursors := replicate MAX_CURSORS no_cursor; initialized := false |}.

(** ** The engine *)

(** Positions are far from the ends of [i32]. *)
Definition cursor_clip_rect (cx cy : Z) (screen_w screen_h : nat) : rust (nat * nat * nat * nat) :=
  let w := Z.of_nat screen_w in
  let h := Z.of_nat screen_h in
  x0 ← clamp (cx - CUR_HALF) 0 (w - 1);
  y0 ← clamp (cy - CUR_HALF) 0 (h - 1);
  x1 ← clamp (cx + CUR_HALF + 1) 0 w;
  y1 ← clamp (cy + CUR_HALF + 1) 0 h;
  Ret (Z.to_nat x0, Z.to_nat y0, Z.to_nat (x1 - x0), Z.to_nat (y1 - y0)).

Definition invalidate_all_saves (e : CursorEngine) : CursorEngine :=
  e <| cursors := map (fun c => c <| save_valid := false |>) (cursors e) |>.

Definition cursor_moved (c : Cursor) (p : Pointer) : bool :=
  bool_decide (cursor_active p <> last_active c \/
    (cursor_active p = true /\ (cursor_x p <> last_x c \/ cursor_y p <> last_y c))).
Definition any_cursor_moved (e : CursorEngine) (ps : list Pointer) : bool :=
  existsb (fun '(c, p) => cursor_moved c p) (zip (cursors e) ps).

Section engine.
Context (PRESETS : list bytes) (info : FrameBufferInfo).

Definition restore_one (buf : bytes) (c : Cursor) : rust (bytes * Cursor) :=
  if decide (save_valid c = false \/ save_len c = 0%nat) then Ret (buf, c)
  else
    slot ← sub (saved c) 0 (save_len c);
    Ret (blit_restore_rect buf info (sx c) (sy c) (sw c) (sh c) slot, c <| save_valid := false |>).

Definition save_one (buf : bytes) (cx cy : Z) (c : Cursor) : rust Cursor :=
  '(x0, y0, rw, rh) ← cursor_clip_rect cx cy (width info) (height info);
  if decide (rw = 0 \/ rh = 0)%nat then Ret (c <| save_valid := false |> <| save_len := 0%nat |>)
  else
    let '(slot, n) := blit_save_rect buf info x0 y0 rw rh (saved c) in
    Ret (c <| sx := x0 |> <| sy := y0 |> <| sw := rw |> <| sh := rh |> <| saved := slot |>
           <| save_len := n |> <| save_valid := bool_decide (0 < n)%nat |>).

(** The loop from the last pointer down. *)
Fixpoint restore_all (buf : bytes) (cs : list Cursor) : rust (bytes * list Cursor) :=
  match cs with
  | [] => Ret (buf, [])
  | c :: cs =>
      '(buf, cs) ← restore_all buf cs;
      '(buf, c) ← (if last_active c then restore_one buf c else Ret (buf, c));
      Ret (buf, c :: cs)
  end.

Fixpoint save_all (buf : bytes) (cs : list Cursor) (ps : list Pointer) : rust (list Cursor) :=
  match cs, ps with
  | c :: cs, p :: ps =>
      c ← (if cursor_active p then save_one buf (cursor_x p) (cursor_y p) c else Ret c);
      cs ← save_all buf cs ps;
      Ret (c :: cs)
  | _, _ => Ret []
  end.

(** Pointer [i] is the head of [ps]. *)
Fixpoint draw_all_cursors (preset : Z) (i : nat) (ps : list Pointer) (buf : bytes) : rust bytes :=
  match ps with
  | [] => Ret buf
  | p :: ps =>
      buf ← (if cursor_active p then draw_sprite PRESETS buf info (cursor_x p) (cursor_y p) preset i
             else Ret buf);
      draw_all_cursors preset (S i) ps buf
  end.

Definition sync_last_from_state (cs : list Cursor) (ps : list Pointer) : list Cursor :=
  zip_with (fun c p => c <| last_active := cursor_active p |> <| last_x := cursor_x p |>
    <| last_y := cursor_y p |>) cs ps.

Definition prime_cursors (preset : Z) (ps : list Pointer) (buf : bytes) (e : CursorEngine) :
    rust (bytes * CursorEngine) :=
  cs ← save_all buf (cursors e) ps;
  buf ← draw_all_cursors preset 0 ps buf;
  Ret (buf, e <| cursors := sync_last_from_state cs ps |>).

Definition patch_cursors_only (preset : Z) (ps : list Pointer) (buf : bytes) (e : CursorEngine) :
    rust (bytes * CursorEngine) :=
  '(buf, cs) ← restore_all buf (cursors e);
  cs ← save_all buf cs ps;
  buf ← draw_all_cursors preset 0 ps buf;
  Ret (buf, e <| cursors := sync_last_from_state cs ps |>).
End engine.

(** ** What is saved *)

#[export] Instance in_rect_dec info x0 w y0 h k : Decision (in_rect info x0 w y0 h k).
Proof.
  destruct (decide (Exists (fun y => row_base info x0 y <= k < row_base info x0 y + w * bytes_per_pixel info)%nat
    (seq y0 h))) as [H|H]; [left|right].
  - apply Exists_exists in H as (y & Hy%elem_of_seq & Hk). by exists y.
  - intros (y & Hy & Hk). apply H, Exists_exists. exists y. split; [by apply elem_of_seq|done].
Defined.

Lemma clip_ok cx cy w h : (0 < w)%nat -> (0 < h)%nat ->
  exists x0 y0 rw rh, cursor_clip_rect cx cy w h = Ret (x0, y0, rw, rh) /\
    (x0 + rw <= w)%nat /\ (y0 + rh <= h)%nat /\ (rw <= 17)%nat /\ (rh <= 17)%nat /\
    (forall x, 0 <= x < Z.of_nat w -> cx - 8 <= x < cx + 8 -> Z.of_nat x0 <= x < Z.of_nat (x0 + rw)) /\
    (forall y, 0 <= y < Z.of_nat h -> cy - 8 <= y < cy + 8 -> Z.of_nat y0 <= y < Z.of_nat (y0 + rh)).
Proof.
  intros Hw Hh. unfold cursor_clip_rect, CUR_HALF. cbv zeta.
  rewrite !clamp_ok, !bind_ret by lia. do 4 eexists. split; [reflexivity|]. split_and!; lia.
Qed.

Section clean.
Context (PRESETS : list bytes) (info : FrameBufferInfo) (F : bytes).
Context (Hfits : fits info F) (Hw : (0 < width info)%nat) (Hh : (0 < height info)%nat).
Context (Hbpp : (1 <= bytes_per_pixel info <= 4)%nat) (Hpre : length PRESETS = SPRITE_STYLES).

Definition slot_fits (c : Cursor) : Prop := length (saved c) = SLOT_BYTES.

(** The slot has the rectangle of the clean frame. *)
Definition slot_clean (c : Cursor) : Prop :=
  (sx c + sw c <= width info)%nat /\ (sy c + sh c <= height info)%nat /\ (0 < save_len c <= SLOT_BYTES)%nat /\
  slice (saved c) 0 (save_len c) = rect_bytes info F (sx c) (sw c) (sy c) (sh c).

Definition covered (k : nat) (c : Cursor) : Prop :=
  last_active c = true /\ save_valid c = true /\ in_rect info (sx c) (sw c) (sy c) (sh c) k.

#[local] Instance covered_dec k c : Decision (covered k c).
Proof. unfold covered. apply _. Defined.

Definition holds (c : Cursor) : Prop :=
  slot_fits c /\ (last_active c = true -> save_valid c = true -> slot_clean c).

(** The frame is the clean one but under the pointers, and they can be taken away. *)
Definition under (buf : bytes) (cs : list Cursor) : Prop :=
  length buf = length F /\ Forall holds cs /\ forall k, buf !! k = F !! k \/ Exists (covered k) cs.

Lemma restore_one_ok buf c : length buf = length F -> holds c -> last_active c = true ->
  exists buf' c', restore_one info buf c = Ret (buf', c') /\ length buf' = length F /\ slot_fits c' /\
    forall k, buf !! k = F !! k \/ covered k c -> buf' !! k = F !! k.
Proof.
  intros Hl [Hs Hc] Ha. unfold restore_one. destruct (decide _) as [Hv|Hv].
  { exists buf, c. split_and!; [done..|]. intros k [E|(_ & Ev & _)]; [done|]. destruct Hv as [Hv|Hv]; [congruence|].
    destruct (Hc Ha Ev) as (_ & _ & Hn & _). lia. }
  destruct (save_valid c) eqn:Ev; [|tauto]. destruct (Hc Ha eq_refl) as (Hx & Hy & Hn & E).
  rewrite sub_ok, bind_ret, E by (rewrite Hs; lia).
  destruct (restore_rows_ok info F (sx c) (sw c) (sy c) (sh c) [] buf Hfits Hx Hy Hl) as [El Ek].
  eexists _, _. split; [reflexivity|]. unfold blit_restore_rect. split_and!.
  - by case_decide.
  - exact Hs.
  - intros k Hk. case_decide as Hz.
    + destruct Hk as [Hk|(_ & _ & y & Hy' & Hk)]; [done|]. destruct Hz as [Hz|[Hz|Hz]]; [lia| |lia].
      rewrite Hz in Hk. lia.
    + apply Ek. destruct Hk as [Hk|(_ & _ & Hk)]; [by left|by right].
Qed.

Lemma restore_all_ok buf cs : length buf = length F -> Forall holds cs ->
  exists buf' cs', restore_all info buf cs = Ret (buf', cs') /\ length buf' = length F /\ Forall slot_fits cs' /\
    length cs' = length cs /\ forall k, buf !! k = F !! k \/ Exists (covered k) cs -> buf' !! k = F !! k.
Proof.
  intros Hl Hcs. induction Hcs as [|c cs Hc _ IH]; cbn [restore_all].
  { exists buf, []. split_and!; [done..|]. intros k [E|H%Exists_nil]; done. }
  destruct IH as (b1 & cs1 & -> & L1 & S1 & N1 & E1). rewrite bind_ret.
  destruct (last_active c) eqn:Ea.
  - destruct (restore_one_ok b1 c L1 Hc Ea) as (b2 & c2 & -> & L2 & S2 & E2). rewrite !bind_ret.
    exists b2, (c2 :: cs1). split_and!; [done..|by constructor|cbn; lia|].
    intros k [H|[H|H]%Exists_cons]; apply E2; auto.
  - rewrite !bind_ret. exists b1, (c :: cs1). split_and!; [done..|by constructor; [apply Hc|]|cbn; lia|].
    intros k [H|[[H _]|H]%Exists_cons]; [auto|congruence|auto].
Qed.

(** Taking the pointers away leaves the clean frame. *)
Lemma restore_all_clean buf cs : under buf cs ->
  exists cs', restore_all info buf cs = Ret (F, cs') /\ Forall slot_fits cs' /\ length cs' = length cs.
Proof.
  intros (Hl & Hcs & Hk). destruct (restore_all_ok buf cs Hl Hcs) as (b & cs' & E & _ & S & N & Eb).
  exists cs'. rewrite E. split_and!; [|done..]. do 2 f_equal. apply list_eq. intros k. by apply Eb.
Qed.

(** The part on the screen of the square a sprite is drawn in. *)
Definition in_square (p : Pointer) (x y : Z) : Prop :=
  0 <= x < Z.of_nat (width info) /\ 0 <= y < Z.of_nat (height info) /\
  cursor_x p - 8 <= x < cursor_x p + 8 /\ cursor_y p - 8 <= y < cursor_y p + 8.

Definition saved_for (c : Cursor) (p : Pointer) : Prop :=
  slot_fits c /\ (cursor_active p = true ->
    (save_valid c = true -> slot_clean c) /\
    forall x y, in_square p x y -> save_valid c = true /\
      Z.of_nat (sx c) <= x < Z.of_nat (sx c + sw c) /\ Z.of_nat (sy c) <= y < Z.of_nat (sy c + sh c)).

Lemma save_one_ok c p : slot_fits c -> exists c', save_one info F (cursor_x p) (cursor_y p) c = Ret c' /\ saved_for c' p.
Proof.
  intros Hs. unfold save_one.
  destruct (clip_ok (cursor_x p) (cursor_y p) (width info) (height info) Hw Hh)
    as (x0 & y0 & rw & rh & -> & Hx & Hy & Hrw & Hrh & Cx & Cy). rewrite bind_ret.
  case_decide as Hz.
  { eexists. split; [reflexivity|]. split; [exact Hs|]. intros _. split; [done|].
    intros x y (Bx & By & Sx & Sy). specialize (Cx x Bx Sx). specialize (Cy y By Sy). lia. }
  unfold blit_save_rect. rewrite decide_False by lia.
  assert (rw * bytes_per_pixel info <= 17 * 4)%nat as H1' by (apply Nat.mul_le_mono; lia).
  assert (rh * (rw * bytes_per_pixel info) <= 17 * (17 * 4))%nat as H2' by (apply Nat.mul_le_mono; lia).
  assert (0 < rh * (rw * bytes_per_pixel info))%nat as H3' by (apply Nat.mul_pos_pos; [lia|apply Nat.mul_pos_pos; lia]).
  assert (length (saved c) = 1936)%nat as Hs' by exact Hs.
  rewrite save_rows_ok by (done || rewrite ?Hs'; lia). eexists. split; [reflexivity|]. split.
  { unfold slot_fits. cbn. by rewrite length_inserts. }
  intros _. split.
  - intros _. unfold slot_clean. cbn -[rect_bytes Nat.mul]. split; [lia|]. split; [lia|]. split.
    + change SLOT_BYTES with 1936%nat. lia.
    + apply slice_inserts_in; rewrite ?length_rect_bytes by done; lia.
  - intros x y (Bx & By & Sx & Sy). cbn -[Nat.mul Z.of_nat Nat.add]. split_and!.
    + apply bool_decide_eq_true. lia.
    + apply (Cx x Bx Sx).
    + apply (Cx x Bx Sx).
    + apply (Cy y By Sy).
    + apply (Cy y By Sy).
Qed.

Lemma save_all_ok cs ps : Forall slot_fits cs -> length cs = length ps ->
  exists cs', save_all info F cs ps = Ret cs' /\ Forall2 saved_for cs' ps.
Proof.
  intros Hcs. revert ps. induction Hcs as [|c cs Hc _ IH]; intros [|p ps] Hl; try discriminate Hl.
  { exists []. split; [done|constructor]. }
  cbn [save_all]. injection Hl as Hl. destruct (IH ps Hl) as (cs1 & E1 & S1).
  destruct (cursor_active p) eqn:Ea.
  - destruct (save_one_ok c p Hc) as (c1 & -> & Sc). rewrite bind_ret, E1, bind_ret. eexists. split; [done|]. by constructor.
  - rewrite bind_ret, E1, bind_ret. eexists. split; [done|]. constructor; [|done]. split; [done|congruence].
Qed.

Definition marks (c : Cursor) (p : Pointer) (k : nat) : Prop :=
  cursor_active p = true /\ save_valid c = true /\ in_rect info (sx c) (sw c) (sy c) (sh c) k.

Lemma draw_sprite_draws c p preset i buf : saved_for c p -> cursor_active p = true -> fits info buf ->
  draws (marks c p) buf (draw_sprite PRESETS buf info (cursor_x p) (cursor_y p) preset i).
Proof.
  intros [_ Hc] Ha Hf. destruct (Hc Ha) as [_ Hsq]. unfold draw_sprite. cbv zeta. case_decide as Ho; [apply draws_nothing|].
  destruct (Hsq (cursor_x p) (cursor_y p)) as [Hv _]; [unfold in_square; lia|].
  destruct (lookup_lt_is_Some_2 PRESETS ((Z.to_nat preset + i) mod SPRITE_STYLES)%nat) as [data Hdata];
    [rewrite Hpre; by apply Nat.mod_upper_bound|].
  rewrite (rd_lookup _ _ _ Hdata), bind_ret.
  eapply draws_weaken; [apply (sprite_rows_draws info (sx c) (sw c) (sy c) (sh c))|].
  - intros px Hp Hx. change CUR with 16%nat in Hp. change (SPRITE / 2) with 8 in *.
    apply (Hsq (cursor_x p - 8 + Z.of_nat px) (cursor_y p)). unfold in_square. lia.
  - intros py Hp Hy. change CUR with 16%nat in Hp. change (SPRITE / 2) with 8 in *.
    apply (Hsq (cursor_x p) (cursor_y p - 8 + Z.of_nat py)). unfold in_square. lia.
  - done.
  - apply Forall_forall. intros py Hin%elem_of_seq. lia.
  - by intros k Hk.
Qed.

Lemma draw_all_draws cs ps preset : Forall2 saved_for cs ps -> forall i buf, fits info buf ->
  draws (fun k => Exists (fun cp => marks cp.1 cp.2 k) (zip cs ps)) buf (draw_all_cursors PRESETS info preset i ps buf).
Proof.
  induction 1 as [|c p cs ps Hc _ IH]; intros i buf Hf; cbn [draw_all_cursors zip]; [apply draws_nothing|].
  apply draws_bind.
  - destruct (cursor_active p) eqn:Ea; [|apply draws_nothing].
    eapply draws_weaken; [by apply (draw_sprite_draws c)|]. intros k Hk. by constructor.
  - intros buf' Hl. eapply draws_weaken; [apply IH; by eapply fits_length|]. intros k Hk. by constructor 2.
Qed.

Lemma sync_marks cs ps k : length cs = length ps ->
  Exists (fun cp => marks cp.1 cp.2 k) (zip cs ps) -> Exists (covered k) (sync_last_from_state cs ps).
Proof.
  revert ps. induction cs as [|c cs IH]; intros [|p ps] Hl; try discriminate Hl; cbn; [by intros ?%Exists_nil|].
  injection Hl as Hl. intros [H|H]%Exists_cons; [by constructor|constructor 2; by apply IH].
Qed.

Lemma sync_holds cs ps : Forall2 saved_for cs ps -> Forall holds (sync_last_from_state cs ps).
Proof.
  induction 1 as [|c p cs ps [Hs Hc] _ IH]; [constructor|]. constructor; [|exact IH].
  split; [exact Hs|]. cbn. intros Ha Hv. by apply (Hc Ha).
Qed.

(** Saving and drawing on the clean frame. *)
Lemma save_and_draw preset ps cs : Forall slot_fits cs -> length cs = length ps ->
  exists cs' buf', save_all info F cs ps = Ret cs' /\ draw_all_cursors PRESETS info preset 0 ps F = Ret buf' /\
    under buf' (sync_last_from_state cs' ps) /\ length (sync_last_from_state cs' ps) = length cs.
Proof.
  intros Hs Hl. destruct (save_all_ok cs ps Hs Hl) as (cs' & E & Hf2).
  destruct (draw_all_draws cs' ps preset Hf2 0 F Hfits) as (buf' & Ed & Lb & Hb).
  pose proof (Forall2_length _ _ _ Hf2) as Hn.
  exists cs', buf'. split_and!; [done|done| |unfold sync_last_from_state; rewrite length_zip_with; lia].
  split_and!; [done|by apply sync_holds|]. intros k.
  destruct (decide (Exists (covered k) (sync_last_from_state cs' ps))) as [?|Hno]; [by right|left].
  apply Hb. intros Hm. apply Hno. by apply sync_marks.
Qed.
End clean.

(** ** The pointers never smear *)

(** Movements: the preset and the pointers of each frame. *)
Fixpoint follow PRESETS info (moves : list (Z * list Pointer)) (buf : bytes) (e : CursorEngine) :
    rust (bytes * CursorEngine) :=
  match moves with
  | [] => Ret (buf, e)
  | (preset, ps) :: moves =>
      '(buf, e) ← patch_cursors_only PRESETS info preset ps buf e; follow PRESETS info moves buf e
  end.

Definition engine_ok (e : CursorEngine) : Prop := length (cursors e) = MAX_CURSORS /\ Forall slot_fits (cursors e).

Lemma last_from {A} (l : list A) x d : List.last (x :: l) d = List.last l x.
Proof. revert x d. induction l as [|y l IH]; intros x d; [done|]. exact (eq_trans (IH y d) (eq_sym (IH y x))). Qed.

Section follow.
Context (PRESETS : list bytes) (info : FrameBufferInfo) (F : bytes).
Context (Hfits : fits info F) (Hw : (0 < width info)%nat) (Hh : (0 < height info)%nat).
Context (Hbpp : (1 <= bytes_per_pixel info <= 4)%nat) (Hpre : length PRESETS = SPRITE_STYLES).

(** The screen shows the clean frame with the pointers [m], and can be put back. *)
Definition shows (m : Z * list Pointer) (buf : bytes) (e : CursorEngine) : Prop :=
  length (cursors e) = MAX_CURSORS /\ under info F buf (cursors e) /\
  draw_all_cursors PRESETS info m.1 0 m.2 F = Ret buf.

Lemma prime_shows m e : engine_ok e -> length m.2 = MAX_CURSORS ->
  exists buf e', prime_cursors PRESETS info m.1 m.2 F e = Ret (buf, e') /\ shows m buf e'.
Proof.
  intros [Hn Hs] Hm. unfold prime_cursors.
  destruct (save_and_draw PRESETS info F Hfits Hw Hh Hbpp Hpre m.1 m.2 (cursors e) Hs ltac:(congruence))
    as (cs & buf & -> & Ed & Hu & Hl).
  rewrite bind_ret, Ed, bind_ret. eexists _, _. split; [reflexivity|]. split_and!; cbn; [congruence|done|done].
Qed.

Lemma patch_shows m0 m buf e : shows m0 buf e -> length m.2 = MAX_CURSORS ->
  exists buf' e', patch_cursors_only PRESETS info m.1 m.2 buf e = Ret (buf', e') /\ shows m buf' e'.
Proof.
  intros (Hn & Hu & _) Hm. unfold patch_cursors_only.
  destruct (restore_all_clean PRESETS info F Hfits Hw Hh Hbpp Hpre buf (cursors e) Hu) as (cs & -> & Hs & Hl). rewrite bind_ret.
  destruct (save_and_draw PRESETS info F Hfits Hw Hh Hbpp Hpre m.1 m.2 cs Hs ltac:(congruence))
    as (cs' & buf' & -> & Ed & Hu' & Hl').
  rewrite bind_ret, Ed, bind_ret. eexists _, _. split; [reflexivity|]. split_and!; cbn; [congruence|done|done].
Qed.

Lemma follow_shows moves m0 buf e : Forall (fun m => length m.2 = MAX_CURSORS) moves -> shows m0 buf e ->
  exists buf' e', follow PRESETS info moves buf e = Ret (buf', e') /\ shows (List.last moves m0) buf' e'.
Proof.
  intros Hm. revert m0 buf e. induction Hm as [|m moves Hm _ IH]; intros m0 buf e Hs; [by exists buf, e|].
  destruct (patch_shows m0 m buf e Hs Hm) as (b1 & e1 & E1 & S1).
  destruct (IH m b1 e1 S1) as (b2 & e2 & E2 & S2). exists b2, e2. split.
  - destruct m as [preset ps]. cbn in E1 |- *. by rewrite E1, bind_ret.
  - by rewrite last_from.
Qed.
End follow.

(** On a clean frame, draw the pointers and then follow any movements: at each
    moment the screen is what drawing the present pointers once on the clean
    frame gives.  Nothing of an earlier position remains, also where pointers
    overlap. *)
Theorem pointers_never_smear PRESETS info F m0 moves e :
  fits info F -> (0 < width info)%nat -> (0 < height info)%nat -> (1 <= bytes_per_pixel info <= 4)%nat ->
  length PRESETS = SPRITE_STYLES -> engine_ok e -> Forall (fun m => length m.2 = MAX_CURSORS) (m0 :: moves) ->
  exists buf e1 buf' e', prime_cursors PRESETS info m0.1 m0.2 F e = Ret (buf, e1) /\
    follow PRESETS info moves buf e1 = Ret (buf', e') /\
    draw_all_cursors PRESETS info (List.last moves m0).1 0 (List.last moves m0).2 F = Ret buf'.
Proof.
  intros Hf Hw Hh Hb Hp He [Hm0 Hm]%Forall_cons.
  destruct (prime_shows PRESETS info F Hf Hw Hh Hb Hp m0 e He Hm0) as (buf & e1 & E1 & S1).
  destruct (follow_shows PRESETS info F Hf Hw Hh Hb Hp moves m0 buf e1 Hm S1) as (buf' & e' & E' & _ & _ & D).
  by exists buf, e1, buf', e'.
Qed.

Lemma static_initial_ok : engine_ok static_initial.
Proof. split; [reflexivity|]. apply Forall_replicate. vm_compute. reflexivity. Qed.

Definition tiny_screen : FrameBufferInfo :=
  {| width := 6; height := 4; stride := 7; pixel_format := Bgr; bytes_per_pixel := 3 |}.
Definition half_clear : bytes := concat (replicate 256 [200; 100; 50; 128]).
Definition away : list Pointer := replicate 12 {| cursor_x := 0; cursor_y := 0; cursor_active := false |}.
Definition two_at (x y : Z) : list Pointer :=
  [{| cursor_x := x; cursor_y := y; cursor_active := true |};
   {| cursor_x := x + 1; cursor_y := y; cursor_active := true |}] ++ drop 2 away.

Lemma pointers_never_smear_witness :
  exists buf e1 e', prime_cursors (replicate 8 half_clear) tiny_screen 0 (two_at 1 1) (replicate 84 9) static_initial
      = Ret (buf, e1) /\
    follow (replicate 8 half_clear) tiny_screen [(3, two_at 2 2); (3, away)] buf e1 = Ret (replicate 84 9, e').
Proof.
  destruct (pointers_never_smear (replicate 8 half_clear) tiny_screen (replicate 84 9) (0, two_at 1 1)
    [(3, two_at 2 2); (3, away)] static_initial) as (buf & e1 & buf' & e' & E1 & E2 & E3).
  - apply (bool_decide_unpack _). vm_compute. exact I.
  - cbn. lia.
  - cbn. lia.
  - cbn. lia.
  - reflexivity.
  - exact static_initial_ok.
  - repeat constructor.
  - exists buf, e1, e'. split; [exact E1|]. rewrite E2. injection E3 as <-. reflexivity.
Defined.

(** The pointers do mark the frame. *)
Example two_pointers_seen :
  draw_all_cursors (replicate 8 half_clear) tiny_screen 3 0 (two_at 2 2) (replicate 84 9) <> Ret (replicate 84 9).
Proof. intros E. apply (f_equal (fun r => match r with Ret b => nth 0 b 0 | Panic => 0 end)) in E. vm_compute in E. discriminate E. Qed.
