(* ===== verification/HtmlCss.v ===== *)
(** * HTML scanning and the CSS subset ([kernel/src/html.rs], [kernel/src/emoji_glyph.rs])

    The scanners of the renderer: case-insensitive search, colours, box styles,
    style rules, attributes, entities, UTF-8 sequences.  A parser that advances
    [*i] returns the new position with its result, also when it fails.  The
    idiom [*i < s.len() && s[*i] == c] is [at_byte]; an index without such a
    guard goes through the panic monad. *)

From S2P Require Import Prelude.

(** [i < s.len() && s[i] == c] *)
Definition at_byte (s : bytes) (i : nat) (c : Z) : bool := bool_decide (s !! i = Some c).

Definition starts_ci (s : bytes) (i : nat) (pat : bytes) : bool :=
  if decide (length s < i + length pat)%nat then false
  else bool_decide (to_lower <$> take (length pat) (drop i s) = pat).

Fixpoint find_sub_from (hay needle : bytes) (start : nat) : option nat :=
  if starts_ci hay 0 needle then Some start
  else match hay with [] => None | _ :: hay => find_sub_from hay needle (S start) end.

Definition find_sub_ci (hay needle : bytes) : option nat :=
  if decide (needle = [] \/ length hay < length needle)%nat then None else find_sub_from hay needle 0.

Definition is_ws (c : Z) : bool := (c =? 32) || (c =? 9) || (c =? 10) || (c =? 13).
Definition skip_ws (s : bytes) (i : nat) : nat := scan_while is_ws s i.

Definition is_alpha (c : Z) : bool := ((97 <=? c) && (c <=? 122)) || ((65 <=? c) && (c <=? 90)).
Definition is_alnum (c : Z) : bool := is_alpha c || is_digit c.
Definition is_name_byte (c : Z) : bool := is_alnum c || (c =? 45) || (c =? 95).

(** ** Colours *)

Definition rgb : Type := Z * Z * Z.

Definition hex_val (c : Z) : option Z :=
  if is_digit c then Some (c - 48)
  else if (97 <=? c) && (c <=? 102) then Some (c - 97 + 10)
  else if (65 <=? c) && (c <=? 70) then Some (c - 65 + 10)
  else None.
Definition is_hex (c : Z) : bool := bool_decide (is_Some (hex_val c)).

Definition hex_at (s : bytes) (i : nat) : option Z := c ← s !! i; hex_val c.
Definition hex2_at (s : bytes) (i : nat) : option Z := a ← hex_at s i; b ← hex_at s (i + 1); Some (a * 16 + b).
Definition hex1_at (s : bytes) (i : nat) : option Z := a ← hex_at s i; Some (a * 17).

Definition parse_hex_color (s : bytes) (i : nat) : nat * option rgb :=
  if negb (at_byte s i 35) then (i, None)
  else
    let start := (i + 1)%nat in
    let i := scan_while is_hex s start in
    let n := (i - start)%nat in
    (i, if decide (n = 6)%nat then
          r ← hex2_at s start; g ← hex2_at s (start + 2); b ← hex2_at s (start + 4); Some (r, g, b)
        else if decide (n = 3)%nat then
          r ← hex1_at s start; g ← hex1_at s (start + 1); b ← hex1_at s (start + 2); Some (r, g, b)
        else None).

Definition NAMES : list (bytes * rgb) := Eval vm_compute in
  [(bs "red", (0xcc, 0x22, 0x22)); (bs "blue", (0x22, 0x44, 0xcc)); (bs "green", (0x22, 0x88, 0x33));
   (bs "black", (0x11, 0x11, 0x11)); (bs "white", (0xf0, 0xf0, 0xf0)); (bs "gray", (0x66, 0x66, 0x66));
   (bs "grey", (0x66, 0x66, 0x66)); (bs "purple", (0x66, 0x22, 0xaa)); (bs "orange", (0xee, 0x66, 0x22));
   (bs "navy", (0x00, 0x00, 0x80)); (bs "teal", (0x00, 0x80, 0x80)); (bs "aqua", (0x00, 0xff, 0xff));
   (bs "cyan", (0x00, 0xcc, 0xee)); (bs "magenta", (0xcc, 0x00, 0xcc)); (bs "lime", (0x66, 0xdd, 0x22));
   (bs "olive", (0x80, 0x80, 0x00)); (bs "maroon", (0x80, 0x00, 0x00)); (bs "silver", (0xc0, 0xc0, 0xc0));
   (bs "gold", (0xff, 0xd7, 0x00)); (bs "coral", (0xff, 0x7f, 0x50))].

Fixpoint named_color (names : list (bytes * rgb)) (s : bytes) (i : nat) : nat * option rgb :=
  match names with
  | [] => (i, None)
  | (name, c) :: names =>
      let last := (i + length name)%nat in
      if starts_ci s i name && bool_decide (last <= length s)%nat &&
         match s !! last with Some x => negb (is_alnum x) | None => true end
      then (last, Some c)
      else named_color names s i
  end.
Definition parse_named_color (s : bytes) (i : nat) : nat * option rgb := named_color NAMES s i.

(** Saturating [u16] decimals: [v.saturating_mul(10).saturating_add(digit)]. *)
Definition sat16 (z : Z) : Z := Z.min z 65535.
Fixpoint dec_sat (l : bytes) (v : Z) : Z :=
  match l with
  | c :: l => if is_digit c then dec_sat l (sat16 (sat16 (v * 10) + (c - 48))) else v
  | [] => v
  end.
Definition number (s : bytes) (i : nat) : nat * option Z :=
  let j := scan_while is_digit s i in
  (j, if decide (j = i) then None else Some (dec_sat (drop i s) 0)).

Definition clamp255 (z : Z) : Z := Z.min z 255.

(** A component, then a comma. *)
Definition component_comma (s : bytes) (i : nat) : nat * option Z :=
  let i := skip_ws s i in
  match number s i with
  | (i, None) => (i, None)
  | (i, Some v) =>
      let i := skip_ws s i in
      if at_byte s i 44 then ((i + 1)%nat, Some v) else (i, None)
  end.

Definition rgb_tail (rgba : bool) (s : bytes) (i : nat) : nat :=
  let i := skip_ws s i in
  let i := if rgba && at_byte s i 44 then scan_while (fun c => negb (c =? 41)) s (i + 1) else i in
  if at_byte s i 41 then (i + 1)%nat else i.

Definition S_rgba : bytes := Eval vm_compute in bs "rgba(".
Definition S_rgb : bytes := Eval vm_compute in bs "rgb(".

Definition parse_rgb_rgba (s : bytes) (i : nat) : nat * option rgb :=
  let rgba := starts_ci s i S_rgba in
  if negb rgba && negb (starts_ci s i S_rgb) then (i, None)
  else
    let i := if rgba then (i + 6)%nat else (i + 4)%nat in
    match component_comma s i with
    | (i, None) => (i, None)
    | (i, Some r) =>
        match component_comma s i with
        | (i, None) => (i, None)
        | (i, Some g) =>
            match number s (skip_ws s i) with
            | (i, None) => (i, None)
            | (i, Some b) => (rgb_tail rgba s i, Some (clamp255 r, clamp255 g, clamp255 b))
            end
        end
    end.

Definition parse_color_after_colon (s : bytes) (i : nat) : nat * option rgb :=
  let i := skip_ws s i in
  match parse_rgb_rgba s i with
  | (i, Some c) => (i, Some c)
  | (i, None) => if at_byte s i 35 then parse_hex_color s i else parse_named_color s i
  end.

Record CssHints := {
  h_body : rgb; h_h1 : rgb; h_h2 : rgb; h_link : rgb;
  has_body : bool; has_h1 : bool; has_h2 : bool;
}.
#[export] Instance CssHints_eta : Settable CssHints := fun h =>
  Build_CssHints h.(h_body) h.(h_h1) h.(h_h2) h.(h_link) h.(has_body) h.(has_h1) h.(has_h2).

Definition S_h1 : bytes := Eval vm_compute in bs "h1".
Definition S_h2 : bytes := Eval vm_compute in bs "h2".
Definition S_body : bytes := Eval vm_compute in bs "body".
Definition S_a : bytes := Eval vm_compute in bs "a".
Definition S_a_blank : bytes := Eval vm_compute in bs "a ".
Definition S_color : bytes := Eval vm_compute in bs "color".

Definition contains_ci (s pat : bytes) : bool := bool_decide (is_Some (find_sub_ci s pat)).

(** The selector words of the window decide which hint the colour sets. *)
Definition set_hint (win : bytes) (c : rgb) (h : CssHints) : CssHints :=
  if contains_ci win S_h1 then h <| h_h1 := c |> <| has_h1 := true |>
  else if contains_ci win S_h2 then h <| h_h2 := c |> <| has_h2 := true |>
  else if contains_ci win S_body then h <| h_body := c |> <| has_body := true |>
  else if contains_ci win S_a || contains_ci win S_a_blank then h <| h_link := c |>
  else h.

(** One window of 192 bytes at [i]. *)
Definition scan_window (css : bytes) (i : nat) (h : CssHints) : rust CssHints :=
  win ← sub css i (Nat.min (i + 192) (length css));
  Ret (match find_sub_ci win S_color with
       | None => h
       | Some ci =>
           let j := skip_ws css (i + ci + 5) in
           if at_byte css j 58 then
             match parse_color_after_colon css (j + 1) with
             | (_, Some c) => set_hint win c h
             | (_, None) => h
             end
           else h
       end).

Fixpoint scan_colors_loop (fuel : nat) (css : bytes) (i : nat) (h : CssHints) : rust CssHints :=
  match fuel with
  | O => Panic
  | S fuel =>
      if decide (i < length css)%nat then
        h ← scan_window css i h; scan_colors_loop fuel css (i + 32) h
      else Ret h
  end.
Definition scan_style_for_colors (css : bytes) (h : CssHints) : rust CssHints :=
  scan_colors_loop (S (length css)) css 0 h.

(** ** Box styles *)

Inductive DisplayHint := Inherit | Block | Inline | DisplayNone.
#[export] Instance DisplayHint_eq_dec : EqDecision DisplayHint.
Proof. solve_decision. Defined.

Record BoxStyle := {
  bx_color : option rgb;
  display : DisplayHint;
  margin_left : Z; padding_left : Z;
  margin_top : Z; margin_bottom : Z;
  padding_top : Z; padding_bottom : Z;
  width_chars : option Z;
}.
#[export] Instance BoxStyle_eta : Settable BoxStyle := fun b =>
  Build_BoxStyle b.(bx_color) b.(display) b.(margin_left) b.(padding_left) b.(margin_top)
    b.(margin_bottom) b.(padding_top) b.(padding_bottom) b.(width_chars).

Definition BoxStyle_empty : BoxStyle := {|
  bx_color := None; display := Inherit; margin_left := 0; padding_left := 0; margin_top := 0;
  margin_bottom := 0; padding_top := 0; padding_bottom := 0; width_chars := None |}.

Inductive css_unit := Upx | Uch | Upercent | Unone.

Definition S_px : bytes := Eval vm_compute in bs "px".
Definition S_ch : bytes := Eval vm_compute in bs "ch".

Definition parse_css_number_unit (s : bytes) (i : nat) : nat * option (Z * css_unit) :=
  match number s (skip_ws s i) with
  | (i, None) => (i, None)
  | (i, Some v) =>
      if starts_ci s i S_px then ((i + 2)%nat, Some (v, Upx))
      else if starts_ci s i S_ch then ((i + 2)%nat, Some (v, Uch))
      else if at_byte s i 37 then ((i + 1)%nat, Some (v, Upercent))
      else (i, Some (v, Unone))
  end.

Definition px_to_spaces (px : Z) : Z :=
  if 64 <=? px then 8 else if 48 <=? px then 6 else if 32 <=? px then 4 else if 16 <=? px then 2 else 0.
Definition px_to_blank_lines (px : Z) : Z := if 40 <=? px then 2 else if 16 <=? px then 1 else 0.

Definition BROWSER_LINE_CAP : nat := 96.
Definition BROWSER_MAX_LINES : nat := 128.

(** [width]: characters, percent of the line, or pixels at six per character. *)
Definition width_of (line_cap : nat) (v : Z) (u : css_unit) : Z :=
  let w := match u with
           | Uch => v
           | Upercent => Z.max (sat16 (wrap16 (Z.of_nat line_cap) * v) / 100) 8
           | _ => Z.max (v / 6) 8
           end in
  wrap8 (Z.min w (Z.of_nat BROWSER_LINE_CAP)).

Definition K_display : bytes := Eval vm_compute in bs "display".
Definition K_none : bytes := Eval vm_compute in bs "none".
Definition K_block : bytes := Eval vm_compute in bs "block".
Definition K_inline : bytes := Eval vm_compute in bs "inline".
Definition K_margin_left : bytes := Eval vm_compute in bs "margin-left".
Definition K_padding_left : bytes := Eval vm_compute in bs "padding-left".
Definition K_margin_top : bytes := Eval vm_compute in bs "margin-top".
Definition K_margin_bottom : bytes := Eval vm_compute in bs "margin-bottom".
Definition K_padding_top : bytes := Eval vm_compute in bs "padding-top".
Definition K_padding_bottom : bytes := Eval vm_compute in bs "padding-bottom".
Definition K_width : bytes := Eval vm_compute in bs "width".

(** [if let Some((v, unit)) = parse_css_number_unit(style, &mut i) { .. }] *)
Definition with_number (style : bytes) (i : nat) (f : Z -> css_unit -> BoxStyle) (out : BoxStyle) : nat * BoxStyle :=
  match parse_css_number_unit style i with
  | (i, Some (v, u)) => (i, f v u)
  | (i, None) => (i, out)
  end.

(** The value of the property [key], at [i]. *)
Definition box_property (line_cap : nat) (style key : bytes) (i : nat) (out : BoxStyle) : nat * BoxStyle :=
  if bool_decide (length key = 5)%nat && starts_ci key 0 S_color then
    let '(i, c) := parse_color_after_colon style i in (i, out <| bx_color := c |>)
  else if bool_decide (length key = 7)%nat && starts_ci key 0 K_display then
    if starts_ci style i K_none then ((i + 4)%nat, out <| display := DisplayNone |>)
    else if starts_ci style i K_block then ((i + 5)%nat, out <| display := Block |>)
    else if starts_ci style i K_inline then ((i + 6)%nat, out <| display := Inline |>)
    else (i, out)
  else if starts_ci key 0 K_margin_left then
    with_number style i (fun v _ => out <| margin_left := px_to_spaces v |>) out
  else if starts_ci key 0 K_padding_left then
    with_number style i (fun v _ => out <| padding_left := px_to_spaces v |>) out
  else if starts_ci key 0 K_margin_top then
    with_number style i (fun v _ => out <| margin_top := px_to_blank_lines v |>) out
  else if starts_ci key 0 K_margin_bottom then
    with_number style i (fun v _ => out <| margin_bottom := px_to_blank_lines v |>) out
  else if starts_ci key 0 K_padding_top then
    with_number style i (fun v _ => out <| padding_top := px_to_blank_lines v |>) out
  else if starts_ci key 0 K_padding_bottom then
    with_number style i (fun v _ => out <| padding_bottom := px_to_blank_lines v |>) out
  else if bool_decide (length key = 5)%nat && starts_ci key 0 K_width then
    with_number style i (fun v u => out <| width_chars := Some (width_of line_cap v u) |>) out
  else (i, out).

Definition is_key_byte (c : Z) : bool := is_alpha c || (c =? 45).
Definition not_byte (q c : Z) : bool := negb (c =? q).

(** One declaration, up to and past its semicolon. *)
Definition box_round (line_cap : nat) (style : bytes) (i : nat) (out : BoxStyle) : rust (nat * BoxStyle) :=
  let i := skip_ws style i in
  let key_start := i in
  let i := scan_while is_key_byte style i in
  key ← sub style key_start i;
  let i := skip_ws style i in
  let '(i, out) :=
    if negb (at_byte style i 58) then (i, out)
    else box_property line_cap style key (skip_ws style (i + 1)) out in
  Ret ((scan_while (not_byte 59) style i + 1)%nat, out).

Fixpoint box_loop (fuel : nat) (line_cap : nat) (style : bytes) (i : nat) (out : BoxStyle) : rust BoxStyle :=
  match fuel with
  | O => Panic
  | S fuel =>
      if decide (i < length style)%nat then
        '(i, out) ← box_round line_cap style i out; box_loop fuel line_cap style i out
      else Ret out
  end.
Definition parse_inline_box_style (style : bytes) (line_cap : nat) : rust BoxStyle :=
  box_loop (S (length style)) line_cap style 0 BoxStyle_empty.

(** ** Tags and attributes *)

Definition HTML_MARKS : list bytes := Eval vm_compute in
  (bs <$> ["<!doctype html"; "<html"; "<head"; "<body"; "<div"; "<section"; "<article"; "<main";
           "<canvas"; "<p>"; "<br"]%string).
Definition looks_like_html (raw : bytes) : bool :=
  let head := take 512 raw in existsb (contains_ci head) HTML_MARKS.

Definition is_value_end (c : Z) : bool := is_ws c || (c =? 62).

(** The value behind [=] at [j]: quoted, or up to a blank or [>]. *)
Definition attr_value (tag : bytes) (j : nat) : rust bytes :=
  q ← rd tag j;
  if decide (q = 34 \/ q = 39) then
    sub tag (j + 1) (scan_while (not_byte q) tag (j + 1))
  else sub tag j (scan_while (fun c => negb (is_value_end c)) tag j).

(** From the end of the attribute's name on. *)
Definition attr_after (tag : bytes) (j : nat) : rust (option bytes) :=
  let j := skip_ws tag j in
  if negb (at_byte tag j 61) then Ret None
  else
    let j := skip_ws tag (j + 1) in
    if decide (length tag <= j)%nat then Ret None
    else v ← attr_value tag j; Ret (Some v).

Definition extract_attr_value (tag key : bytes) : rust (option bytes) :=
  match find_sub_ci tag key with
  | None => Ret None
  | Some pos => attr_after tag (pos + length key)
  end.

Fixpoint trim_left (p : Z -> bool) (l : bytes) : bytes :=
  match l with x :: l' => if p x then trim_left p l' else l | [] => [] end.
Definition trim_ascii_attr (val : bytes) : bytes := rev (trim_left is_ws (rev (trim_left is_ws val))).

Definition JS_TYPES : list bytes := Eval vm_compute in (bs <$> ["application/javascript"; "text/javascript"]%string).
Definition DATA_TYPES : list bytes := Eval vm_compute in
  (bs <$> ["application/ld+json"; "application/json"; "application/importmap+json";
           "application/speculationrules+json"; "text/plain"; "text/markdown"; "text/template"; "text/css";
           "text/html"; "application/graphql"]%string).
Definition K_type : bytes := Eval vm_compute in bs "type".
Definition S_application : bytes := Eval vm_compute in bs "application/".
Definition S_text : bytes := Eval vm_compute in bs "text/".
Definition S_json : bytes := Eval vm_compute in bs "+json".

Definition script_mime_is_non_javascript (tag : bytes) : rust bool :=
  o ← extract_attr_value tag K_type;
  Ret (match o with
       | None => false
       | Some typ =>
           let t := trim_ascii_attr typ in
           if decide (t = []) then false
           else if existsb (starts_ci t 0) JS_TYPES then false
           else existsb (starts_ci t 0) DATA_TYPES
                || (starts_ci t 0 S_application && contains_ci t S_json)
                || (starts_ci t 0 S_text && contains_ci t S_json)
       end).

Definition K_href : bytes := Eval vm_compute in bs "href".
Definition BAD_SCHEMES : list bytes := Eval vm_compute in (bs <$> ["javascript:"; "vbscript:"; "data:"]%string).

Definition tag_href_value_dangerous (tag : bytes) : rust bool :=
  match find_sub_ci tag K_href with
  | None => Ret false
  | Some hi =>
      let after := (hi + 4)%nat in
      if match tag !! after with Some c => is_name_byte c | None => false end then Ret false
      else
        o ← attr_after tag after;
        Ret (match o with None => false | Some val => existsb (starts_ci val 0) BAD_SCHEMES end)
  end.

(** ** Style rules *)

Inductive SelectorKind := Tag | Class_ | Id.

Record StyleRule := { r_kind : SelectorKind; r_name : bytes; name_len : Z; r_style : BoxStyle }.
Definition StyleRule_empty : StyleRule := {|
  r_kind := Tag; r_name := replicate 24 0; name_len := 0; r_style := BoxStyle_empty |}.

Definition copy_name_lower (dst src : bytes) : bytes * nat :=
  let n := Nat.min (length src) (length dst) in
  (list_inserts 0 (to_lower <$> take n src) dst, n).

(** The selector's kind and the position of its name. *)
Definition selector_kind (selector : bytes) (i : nat) : SelectorKind * nat :=
  if at_byte selector i 46 then (Class_, (i + 1)%nat)
  else if at_byte selector i 35 then (Id, (i + 1)%nat)
  else (Tag, i).

(** A rule from its selector and declarations; none for a selector without a name. *)
Definition parse_rule (selector decl : bytes) (line_cap : nat) : rust (option StyleRule) :=
  let sel_i := skip_ws selector 0 in
  if decide (length selector <= sel_i)%nat then Ret None
  else
    let '(k, name_start) := selector_kind selector sel_i in
    name ← sub selector name_start (scan_while is_name_byte selector name_start);
    if decide (name = []) then Ret None
    else
      let '(n, nl) := copy_name_lower (replicate 24 0) name in
      st ← parse_inline_box_style decl line_cap;
      Ret (Some {| r_kind := k; r_name := n; name_len := wrap8 (Z.of_nat nl); r_style := st |}).

Fixpoint rules_loop (fuel : nat) (css : bytes) (i : nat) (rules : list StyleRule) (rule_count line_cap : nat)
    : rust (list StyleRule * nat) :=
  match fuel with
  | O => Panic
  | S fuel =>
      if decide (i < length css /\ rule_count < length rules)%nat then
        let i := skip_ws css i in
        if decide (length css <= i)%nat then Ret (rules, rule_count)
        else
          let selector_start := i in
          let i := scan_while (not_byte 123) css i in
          if decide (length css <= i)%nat then Ret (rules, rule_count)
          else
            selector ← sub css selector_start i;
            let decl_start := (i + 1)%nat in
            let i := scan_while (not_byte 125) css decl_start in
            decl ← sub css decl_start (Nat.min i (length css));
            let i := if decide (i < length css)%nat then (i + 1)%nat else i in
            o ← parse_rule selector decl line_cap;
            match o with
            | None => rules_loop fuel css i rules rule_count line_cap
            | Some rule =>
                rules ← wr rules rule_count rule;
                rules_loop fuel css i rules (rule_count + 1) line_cap
            end
      else Ret (rules, rule_count)
  end.
Definition scan_style_rules (css : bytes) (rules : list StyleRule) (rule_count line_cap : nat)
    : rust (list StyleRule * nat) :=
  rules_loop (S (length css)) css 0 rules rule_count line_cap.

(** [u8::is_ascii_whitespace] *)
Definition is_ascii_whitespace (c : Z) : bool := is_ws c || (c =? 12).

(** The words of a class attribute, compared with a lower-case name. *)
Fixpoint class_loop (fuel : nat) (class_attr : bytes) (i : nat) (name : bytes) : rust bool :=
  match fuel with
  | O => Panic
  | S fuel =>
      if decide (i < length class_attr)%nat then
        let start := scan_while is_ascii_whitespace class_attr i in
        let i := scan_while (fun c => negb (is_ascii_whitespace c)) class_attr start in
        token ← sub class_attr start i;
        if decide (to_lower <$> token = name) then Ret true else class_loop fuel class_attr i name
      else Ret false
  end.
Definition class_matches (class_attr name : bytes) : rust bool :=
  class_loop (S (length class_attr)) class_attr 0 name.

(** ** Characters *)

(** [utf8_lead_len] and [utf8_seq_valid] of [emoji_glyph.rs]. *)
Definition utf8_lead_len (b : Z) : option nat :=
  if (0 <=? b) && (b <=? 127) then Some 1%nat
  else if (194 <=? b) && (b <=? 223) then Some 2%nat
  else if (224 <=? b) && (b <=? 239) then Some 3%nat
  else if (240 <=? b) && (b <=? 244) then Some 4%nat
  else None.

Definition utf8_cont (b : Z) : bool := Z.land b 0xC0 =? 0x80.

Definition utf8_seq_valid (s : bytes) : bool :=
  match s with
  | [] => false
  | b :: rest =>
      match utf8_lead_len b with
      | Some n => bool_decide (n <= length s)%nat && forallb utf8_cont (take (n - 1) rest)
      | None => false
      end
  end.

(** [checked_mul(base)?.checked_add(d)?] on [u32] *)
Definition checked_u32 (z : Z) : option Z := if decide (z < 2 ^ 32) then Some z else None.
Fixpoint entity_value (base : Z) (l : bytes) (v : Z) : option Z :=
  match l with
  | [] => Some v
  | c :: l => d ← hex_val c; m ← checked_u32 (v * base); v ← checked_u32 (m + d); entity_value base l v
  end.

(** [s] starts with [&]: the code point, and the length of the reference. *)
Definition parse_numeric_entity (s : bytes) : option (Z * nat) :=
  if decide (length s < 4)%nat then None
  else if negb (at_byte s 0 38) || negb (at_byte s 1 35) then None
  else
    let is_x := at_byte s 2 120 || at_byte s 2 88 in
    let base := if is_x then 16 else 10 in
    let start := if is_x then 3%nat else 2%nat in
    let j := scan_while (if is_x then is_hex else is_digit) s start in
    if negb (at_byte s j 59) || bool_decide (j = start) then None
    else
      v ← entity_value base (slice s start j) 0;
      if decide (0x10FFFF < v) then None else Some (v, (j + 1)%nat).

(** [char::from_u32(cp).unwrap_or(REPLACEMENT CHARACTER)] *)
Definition char_of (cp : Z) : Z := if (0xD800 <=? cp) && (cp <=? 0xDFFF) then 0xFFFD else cp.

(** [char::encode_utf8] *)
Definition encode_utf8 (c : Z) : bytes :=
  if c <? 0x80 then [c]
  else if c <? 0x800 then [192 + c / 64; 128 + c mod 64]
  else if c <? 0x10000 then [224 + c / 4096; 128 + c / 64 mod 64; 128 + c mod 64]
  else [240 + c / 262144; 128 + c / 4096 mod 64; 128 + c / 64 mod 64; 128 + c mod 64].
