(* ===== verification/Html.v ===== *)
(** * The HTML renderer ([kernel/src/html.rs])

    [format_document] turns a page into at most 128 lines of 96 bytes.  The
    static line table and the line being built are [View]; the renderer's local
    variables are [Doc].  One round of the source's loop is [round]: [Next i d] is
    [continue] at position [i], [Break d] is [break]. *)

From S2P Require Import Prelude Dom HtmlCss.

(** ** Lines *)

Record BrowserLine := { data : bytes; line_len : nat; fg : rgb }.
#[export] Instance BrowserLine_eta : Settable BrowserLine := fun l =>
  Build_BrowserLine l.(data) l.(line_len) l.(fg).

Definition BrowserLine_new (c : rgb) : BrowserLine := {|
  data := replicate BROWSER_LINE_CAP 0; line_len := 0; fg := c |}.
Definition clear_with (c : rgb) (l : BrowserLine) : BrowserLine := l <| line_len := 0%nat |> <| fg := c |>.

Record View := { lines : list BrowserLine; line_count : nat; truncated : bool; cur : BrowserLine }.
#[export] Instance View_eta : Settable View := fun v =>
  Build_View v.(lines) v.(line_count) v.(truncated) v.(cur).

Definition HTML_RENDER_LINES : list BrowserLine := replicate BROWSER_MAX_LINES (BrowserLine_new (0, 0, 0)).

Definition browser_line (ls : list BrowserLine) (i : nat) : rust (option BrowserLine) :=
  if decide (BROWSER_MAX_LINES <= i)%nat then Ret None else l ← rd ls i; Ret (Some l).

Definition full (v : View) : bool := bool_decide (BROWSER_MAX_LINES <= v.(line_count))%nat.

(** [lines[*count] = l; *count += 1] *)
Definition put_line (l : BrowserLine) (v : View) : rust View :=
  ls ← wr v.(lines) v.(line_count) l;
  Ret (v <| lines := ls |> <| line_count ::= S |>).

Definition flush_line (v : View) : rust View :=
  if full v then Ret (v <| truncated := true |> <| cur ::= fun l => l <| line_len := 0%nat |> |>)
  else v ← put_line v.(cur) v; Ret (v <| cur ::= fun l => l <| line_len := 0%nat |> |>).

Definition clear_cur (c : rgb) (v : View) : View := v <| cur ::= clear_with c |>.

Definition emit_break (blank_after : bool) (c : rgb) (v : View) : rust View :=
  v ← (if decide (0 < v.(cur).(line_len))%nat then flush_line v else Ret v);
  v ← (if blank_after && negb (full v) then put_line (BrowserLine_new c) v else Ret v);
  Ret (clear_cur c v).

(** [cur.data[cur.len] = c; cur.len += 1] *)
Definition push_byte (c : Z) (v : View) : rust View :=
  d ← wr v.(cur).(data) v.(cur).(line_len) c;
  Ret (v <| cur ::= fun l => l <| data := d |> <| line_len ::= S |> |>).

Definition emit_char (c : Z) (fg : rgb) (v : View) : rust View :=
  v ← (if decide (BROWSER_LINE_CAP <= v.(cur).(line_len))%nat
       then v ← flush_line v; Ret (clear_cur fg v) else Ret v);
  if full v && bool_decide (BROWSER_LINE_CAP <= v.(cur).(line_len))%nat
  then Ret (v <| truncated := true |>)
  else if decide (v.(cur).(line_len) < BROWSER_LINE_CAP)%nat then push_byte c v
  else Ret v.

(** [cap.clamp(1, BROWSER_LINE_CAP)] *)
Definition limit_of (cap : nat) : nat := Nat.min (Nat.max cap 1) BROWSER_LINE_CAP.

Definition emit_char_cap (c : Z) (fg : rgb) (cap : nat) (v : View) : rust View :=
  let limit := limit_of cap in
  v ← (if decide (limit <= v.(cur).(line_len))%nat
       then v ← flush_line v; Ret (clear_cur fg v) else Ret v);
  if decide (v.(cur).(line_len) < limit)%nat then push_byte c v else Ret v.

(** [while cur.len + slice.len() > limit]: a flush, then [None] is the early return. *)
Fixpoint make_room (fuel : nat) (n limit : nat) (fg : rgb) (v : View) : rust (View * bool) :=
  match fuel with
  | O => Panic
  | S fuel =>
      if decide (limit < v.(cur).(line_len) + n)%nat then
        v ← flush_line v;
        let v := clear_cur fg v in
        if full v then Ret (v <| truncated := true |>, false) else make_room fuel n limit fg v
      else Ret (v, true)
  end.

Definition emit_slice_cap (s : bytes) (fg : rgb) (cap : nat) (v : View) : rust View :=
  let limit := limit_of cap in
  if decide (s = []) then Ret v
  else if decide (BROWSER_LINE_CAP < length s)%nat then Ret (v <| truncated := true |>)
  else if decide (limit < length s)%nat then Ret (v <| truncated := true |>)
  else
    '(v, room) ← make_room 2 (length s) limit fg v;
    if negb room then Ret v
    else if decide (BROWSER_LINE_CAP < v.(cur).(line_len) + length s)%nat then Ret (v <| truncated := true |>)
    else
      d ← copy_at v.(cur).(data) v.(cur).(line_len) s;
      Ret (v <| cur ::= fun l => l <| data := d |> <| line_len ::= fun n => (n + length s)%nat |> |>).

(** ** Plain text *)

Definition Q : Z := 63.

(** One character at [i]; the position behind it. *)
Definition plain_char (raw : bytes) (i : nat) (b : Z) (fg : rgb) (v : View) : rust (nat * View) :=
  if b <? 0x80 then v ← emit_char b fg v; Ret ((i + 1)%nat, v)
  else
    match utf8_lead_len b with
    | None => v ← emit_char Q fg v; Ret ((i + 1)%nat, v)
    | Some n =>
        if decide (length raw < i + n)%nat then v ← emit_char Q fg v; Ret ((i + 1)%nat, v)
        else
          seq ← sub raw i (i + n);
          if negb (utf8_seq_valid seq) then v ← emit_char Q fg v; Ret ((i + 1)%nat, v)
          else v ← emit_slice_cap seq fg BROWSER_LINE_CAP v; Ret ((i + n)%nat, v)
    end.

Fixpoint plain_loop (fuel : nat) (raw : bytes) (i : nat) (fg : rgb) (v : View) : rust View :=
  match fuel with
  | O => Panic
  | S fuel =>
      if decide (i < length raw)%nat then
        b ← rd raw i;
        if decide (b = 10 \/ b = 13) then
          v ← (if decide (0 < v.(cur).(line_len))%nat then flush_line v else Ret v);
          plain_loop fuel raw (i + 1) fg (clear_cur fg v)
        else if v.(truncated) then Ret v
        else '(i, v) ← plain_char raw i b fg v; plain_loop fuel raw i fg v
      else Ret v
  end.

Definition plain_lines (raw : bytes) (fg : rgb) (v : View) : rust View :=
  v ← plain_loop (S (length raw)) raw 0 fg (v <| cur := BrowserLine_new fg |>);
  if decide (0 < v.(cur).(line_len))%nat then (if v.(truncated) then Ret v else flush_line v) else Ret v.

(** ** The renderer's state *)

Record Doc := {
  view : View;
  scripts_stripped : bool;
  hints : CssHints;
  in_script : bool; in_template : bool; in_iframe : bool; in_object : bool; in_title : bool; in_style : bool;
  a_styled : bool;
  list_depth : Z;
  style_buf : bytes; style_len : nat;
  style_rules : list StyleRule; style_rule_count : nat;
  block_indent_stack : list Z; block_width_stack : list Z; block_sp : nat;
  default_fg : rgb;
  fg_stack : list rgb; fg_sp : nat;
  cur_fg : rgb;
  active_indent : Z; active_width : Z;
}.
#[export] Instance Doc_eta : Settable Doc := fun d => Build_Doc
  d.(view) d.(scripts_stripped) d.(hints) d.(in_script) d.(in_template) d.(in_iframe) d.(in_object)
  d.(in_title) d.(in_style) d.(a_styled) d.(list_depth) d.(style_buf) d.(style_len) d.(style_rules)
  d.(style_rule_count) d.(block_indent_stack) d.(block_width_stack) d.(block_sp) d.(default_fg)
  d.(fg_stack) d.(fg_sp) d.(cur_fg) d.(active_indent) d.(active_width).

Definition H1_FG : rgb := (0x00, 0x40, 0x90).
Definition H2_FG : rgb := (0x10, 0x60, 0x70).
Definition H3_FG : rgb := (0x44, 0x44, 0x88).
Definition WIDTH0 : Z := Z.of_nat BROWSER_LINE_CAP.

Definition Doc_new (body : rgb) (style_scratch : bytes) (v : View) : Doc := {|
  view := v <| cur := BrowserLine_new body |>;
  scripts_stripped := false;
  hints := {| h_body := body; h_h1 := H1_FG; h_h2 := H2_FG; h_link := (0x22, 0x22, 0xcc);
              has_body := false; has_h1 := false; has_h2 := false |};
  in_script := false; in_template := false; in_iframe := false; in_object := false; in_title := false;
  in_style := false; a_styled := false; list_depth := 0;
  style_buf := style_scratch; style_len := 0;
  style_rules := replicate 32 StyleRule_empty; style_rule_count := 0;
  block_indent_stack := replicate 16 0; block_width_stack := replicate 16 WIDTH0; block_sp := 0;
  default_fg := body;
  fg_stack := replicate 12 (0, 0, 0); fg_sp := 0;
  cur_fg := body; active_indent := 0; active_width := WIDTH0 |}.

(** The macro [set_fg!]. *)
Definition set_fg (c : rgb) (d : Doc) : Doc :=
  d <| cur_fg := c |> <| view ::= fun v => v <| cur ::= fun l => l <| fg := c |> |> |>.

(** An operation on the lines. *)
Definition on_view (f : View -> rust View) (d : Doc) : rust Doc := v ← f d.(view); Ret (d <| view := v |>).

Definition width_cap (d : Doc) : nat := Z.to_nat d.(active_width).
Definition emit (c : Z) (d : Doc) : rust Doc := on_view (emit_char_cap c d.(cur_fg) (width_cap d)) d.
Definition emit_slice (s : bytes) (d : Doc) : rust Doc := on_view (emit_slice_cap s d.(cur_fg) (width_cap d)) d.
Definition brk (blank_after : bool) (c : rgb) (d : Doc) : rust Doc := on_view (emit_break blank_after c) d.

(** [for _ in 0..n { f }] *)
Fixpoint times (n : nat) (f : Doc -> rust Doc) (d : Doc) : rust Doc :=
  match n with O => Ret d | S n => d ← f d; times n f d end.

(** The indent at the start of a line. *)
Definition indent (d : Doc) : rust Doc :=
  if decide (d.(view).(cur).(line_len) = 0)%nat
  then times (Nat.min (Z.to_nat d.(active_indent)) 24) (emit 32) d else Ret d.

Inductive flow := Next (i : nat) (d : Doc) | Break (d : Doc).

(** ** Skipped elements *)

Definition C_script : bytes := Eval vm_compute in bs "</script>".
Definition C_template : bytes := Eval vm_compute in bs "</template>".
Definition C_iframe : bytes := Eval vm_compute in bs "</iframe>".
Definition C_object : bytes := Eval vm_compute in bs "</object>".
Definition C_title : bytes := Eval vm_compute in bs "</title>".
Definition C_style : bytes := Eval vm_compute in bs "</style>".

(** Inside an element whose content is skipped: go on behind its closing tag. *)
Definition skip_to (close : bytes) (leave : Doc -> Doc) (raw : bytes) (i : nat) (d : Doc) : rust flow :=
  rest ← sub raw i (length raw);
  Ret (match find_sub_ci rest close with
       | Some rel => Next (i + (rel + length close)) (leave d)
       | None => Break d
       end).

(** The style sheet in [style_buf] is read when its closing tag is found. *)
Definition apply_styles (d : Doc) : rust Doc :=
  if decide (0 < d.(style_len))%nat then
    css ← sub d.(style_buf) 0 d.(style_len);
    h ← scan_style_for_colors css d.(hints);
    '(rules, n) ← scan_style_rules css d.(style_rules) 0 BROWSER_LINE_CAP;
    let d := d <| hints := h |> <| style_rules := rules |> <| style_rule_count := n |> in
    Ret (if h.(has_body) then
           let d := d <| default_fg := h.(h_body) |> in
           if decide (d.(fg_sp) = 0)%nat then set_fg d.(default_fg) d else d
         else d)
  else Ret d.

Definition style_round (raw : bytes) (i : nat) (d : Doc) : rust flow :=
  rest ← sub raw i (length raw);
  match find_sub_ci rest C_style with
  | Some rel =>
      d ← apply_styles d;
      Ret (Next (i + (rel + 8)) (d <| style_len := 0%nat |> <| in_style := false |>))
  | None =>
      let n := Nat.min (length raw - i) (length d.(style_buf) - d.(style_len)) in
      if decide (0 < n)%nat then
        part ← sub raw i (i + n);
        b ← copy_at d.(style_buf) d.(style_len) part;
        Ret (Next (i + n) (d <| style_buf := b |> <| style_len ::= Nat.add n |>))
      else Ret (Next (length raw) d)
  end.

(** ** Text *)

Definition E_nbsp : bytes := Eval vm_compute in bs "&nbsp;".
Definition E_amp : bytes := Eval vm_compute in bs "&amp;".
Definition E_lt : bytes := Eval vm_compute in bs "&lt;".
Definition E_gt : bytes := Eval vm_compute in bs "&gt;".
Definition E_quot : bytes := Eval vm_compute in bs "&quot;".

(** A reference at [i]; [None] when the ampersand is ordinary text. *)
Definition entity_round (raw : bytes) (i : nat) (d : Doc) : rust (option flow) :=
  rest ← sub raw i (length raw);
  if starts_ci rest 0 E_nbsp then d ← indent d; d ← emit 32 d; Ret (Some (Next (i + 6) d))
  else if starts_ci rest 0 E_amp then d ← emit 38 d; Ret (Some (Next (i + 5) d))
  else if starts_ci rest 0 E_lt then d ← emit 60 d; Ret (Some (Next (i + 4) d))
  else if starts_ci rest 0 E_gt then d ← emit 62 d; Ret (Some (Next (i + 4) d))
  else if starts_ci rest 0 E_quot then d ← emit 34 d; Ret (Some (Next (i + 6) d))
  else
    match parse_numeric_entity rest with
    | Some (cp, consumed) =>
        d ← emit_slice (encode_utf8 (char_of cp)) d; Ret (Some (Next (i + consumed) d))
    | None => Ret None
    end.

(** A blank: one space, never at the start of a line or after another one. *)
Definition blank_round (i : nat) (d : Doc) : rust flow :=
  let l := d.(view).(cur) in
  if decide (0 < l.(line_len))%nat then
    c ← rd l.(data) (l.(line_len) - 1);
    d ← (if decide (c <> 32) then emit 32 d else Ret d);
    Ret (Next (i + 1) d)
  else Ret (Next (i + 1) d).

(** A character that is shown. *)
Definition char_round (raw : bytes) (i : nat) (ch : Z) (d : Doc) : rust flow :=
  d ← indent d;
  if ch <? 0x80 then d ← emit ch d; Ret (Next (i + 1) d)
  else
    match utf8_lead_len ch with
    | None => d ← emit Q d; Ret (Next (i + 1) d)
    | Some n =>
        if decide (length raw < i + n)%nat then d ← emit Q d; Ret (Next (i + 1) d)
        else
          seq ← sub raw i (i + n);
          if negb (utf8_seq_valid seq) then d ← emit Q d; Ret (Next (i + 1) d)
          else d ← emit_slice seq d; Ret (Next (i + n) d)
    end.

Definition text_round (raw : bytes) (i : nat) (ch : Z) (d : Doc) : rust flow :=
  o ← (if decide (ch = 38) then entity_round raw i d else Ret None);
  match o with
  | Some f => Ret f
  | None =>
      if decide (ch = 10 \/ ch = 13) then Ret (Next (i + 1) d)
      else if decide (ch = 9 \/ ch = 32) then blank_round i d
      else char_round raw i ch d
  end.

(** ** Tags *)

Definition skip_until_gt (s : bytes) (i : nat) : nat :=
  let i := scan_while (not_byte 62) s i in if decide (i < length s)%nat then (i + 1)%nat else i.

(** [while i + 2 < raw.len() && !(raw[i..i + 3] is the end of a comment) { i += 1 }] *)
Fixpoint comment_end (fuel : nat) (raw : bytes) (i : nat) : nat :=
  match fuel with
  | O => i
  | S fuel =>
      if bool_decide (i + 2 < length raw)%nat &&
         negb (at_byte raw i 45 && at_byte raw (i + 1) 45 && at_byte raw (i + 2) 62)
      then comment_end fuel raw (i + 1) else i
  end.

Definition name_is (name n : bytes) : bool := bool_decide (length name = length n) && starts_ci name 0 n.
Definition name_in (name : bytes) (ns : list bytes) : bool := existsb (name_is name) ns.

Definition N_list : list bytes := Eval vm_compute in (bs <$> ["ul"; "ol"]%string).
Definition N_close_block : list bytes := Eval vm_compute in
  (bs <$> ["p"; "div"; "li"; "tr"; "h1"; "h2"; "h3"; "section"; "article"; "main"; "nav"; "header"; "footer";
           "blockquote"; "aside"; "figure"; "figcaption"; "details"; "summary"; "pre"]%string).
Definition N_blank_after : list bytes := Eval vm_compute in (bs <$> ["p"; "div"; "pre"]%string).
Definition N_a : bytes := Eval vm_compute in bs "a".
Definition N_styled : list bytes := Eval vm_compute in
  (bs <$> ["b"; "strong"; "i"; "em"; "code"; "kbd"; "samp"; "mark"]%string).
Definition N_break : list bytes := Eval vm_compute in (bs <$> ["br"; "hr"]%string).
Definition N_h1 : bytes := Eval vm_compute in bs "h1".
Definition N_h2 : bytes := Eval vm_compute in bs "h2".
Definition N_h3 : bytes := Eval vm_compute in bs "h3".
Definition N_bold : list bytes := Eval vm_compute in (bs <$> ["b"; "strong"]%string).
Definition N_italic : list bytes := Eval vm_compute in (bs <$> ["i"; "em"]%string).
Definition N_code : list bytes := Eval vm_compute in (bs <$> ["code"; "kbd"; "samp"]%string).
Definition N_mark : bytes := Eval vm_compute in bs "mark".
Definition N_block : list bytes := Eval vm_compute in
  (bs <$> ["p"; "div"; "tr"; "section"; "article"; "main"; "nav"; "header"; "footer"; "blockquote"; "aside";
           "figure"; "figcaption"; "details"; "summary"; "pre"]%string).
Definition N_li : bytes := Eval vm_compute in bs "li".

(** Saturating [u8] arithmetic. *)
Definition sat8 (z : Z) : Z := Z.min z 255.

(** The fields of [s] over those of [c], as for a matched rule and the inline style. *)
Definition cascade (c s : BoxStyle) : BoxStyle := {|
  bx_color := match s.(bx_color) with Some x => Some x | None => c.(bx_color) end;
  display := if decide (s.(display) = Inherit) then c.(display) else s.(display);
  margin_left := Z.max c.(margin_left) s.(margin_left);
  padding_left := Z.max c.(padding_left) s.(padding_left);
  margin_top := Z.max c.(margin_top) s.(margin_top);
  margin_bottom := Z.max c.(margin_bottom) s.(margin_bottom);
  padding_top := Z.max c.(padding_top) s.(padding_top);
  padding_bottom := Z.max c.(padding_bottom) s.(padding_bottom);
  width_chars := match s.(width_chars) with Some w => Some w | None => c.(width_chars) end |}.

Definition rule_matches (name : bytes) (class_attr id_attr : option bytes) (r : StyleRule) : rust bool :=
  rn ← sub r.(r_name) 0 (Z.to_nat r.(name_len));
  match r.(r_kind) with
  | Tag => Ret (name_is name rn)
  | Class_ => match class_attr with Some c => class_matches c rn | None => Ret false end
  | Id => Ret (match id_attr with Some id => name_is id rn | None => false end)
  end.

Fixpoint apply_rules (rules : list StyleRule) (name : bytes) (class_attr id_attr : option bytes) (c : BoxStyle)
    : rust BoxStyle :=
  match rules with
  | [] => Ret c
  | r :: rules =>
      m ← rule_matches name class_attr id_attr r;
      apply_rules rules name class_attr id_attr (if m : bool then cascade c r.(r_style) else c)
  end.

Definition K_class : bytes := Eval vm_compute in bs "class".
Definition K_id : bytes := Eval vm_compute in bs "id".
Definition K_style : bytes := Eval vm_compute in bs "style".

(** The style of an opening tag. *)
Definition computed_style (tag name : bytes) (d : Doc) : rust BoxStyle :=
  class_attr ← extract_attr_value tag K_class;
  id_attr ← extract_attr_value tag K_id;
  inline_style ← extract_attr_value tag K_style;
  c ← apply_rules (take d.(style_rule_count) d.(style_rules)) name class_attr id_attr BoxStyle_empty;
  match inline_style with
  | None => Ret c
  | Some st => inl ← parse_inline_box_style st BROWSER_LINE_CAP; Ret (cascade c inl)
  end.

(** ** Closing tags *)

Definition pop_block (d : Doc) : rust Doc :=
  if decide (0 < d.(block_sp))%nat then
    let sp := (d.(block_sp) - 1)%nat in
    i ← rd d.(block_indent_stack) sp;
    w ← rd d.(block_width_stack) sp;
    Ret (d <| block_sp := sp |> <| active_indent := i |> <| active_width := w |>)
  else Ret (d <| active_indent := 0 |> <| active_width := WIDTH0 |>).

Definition pop_fg (d : Doc) : rust Doc :=
  if decide (0 < d.(fg_sp))%nat then
    let sp := (d.(fg_sp) - 1)%nat in
    c ← rd d.(fg_stack) sp; Ret (set_fg c (d <| fg_sp := sp |>))
  else Ret (set_fg d.(default_fg) d).

Definition close_tag (name : bytes) (d : Doc) : rust Doc :=
  let d := if name_in name N_list then d <| list_depth ::= fun n => Z.max (n - 1) 0 |> else d in
  d ← (if name_in name N_close_block then pop_block d else Ret d);
  if name_is name N_a then
    if d.(a_styled) then d ← pop_fg d; Ret (d <| a_styled := false |>) else Ret d
  else
    d ← (if name_in name N_styled then pop_fg d else Ret d);
    if name_in name N_close_block then
      d ← brk (name_in name N_blank_after) d.(default_fg) d; Ret (set_fg d.(default_fg) d)
    else Ret d.

(** ** Opening tags *)

Definition push_fg (d : Doc) : rust Doc :=
  if decide (d.(fg_sp) < length d.(fg_stack))%nat then
    st ← wr d.(fg_stack) d.(fg_sp) d.(cur_fg); Ret (d <| fg_stack := st |> <| fg_sp ::= S |>)
  else Ret d.

Definition styled (c : rgb) (d : Doc) : rust Doc := d ← push_fg d; Ret (set_fg c d).

Definition heading (h : rgb) (inline_color : option rgb) (d : Doc) : rust Doc :=
  d ← brk true h d; Ret (set_fg (default h inline_color) d).

Definition open_block (c : BoxStyle) (d : Doc) : rust Doc :=
  d ← times (Nat.min (Z.to_nat (sat8 (c.(margin_top) + c.(padding_top)))) 3) (fun d => brk true d.(default_fg) d) d;
  d ← brk true d.(default_fg) d;
  d ← (if decide (d.(block_sp) < length d.(block_indent_stack))%nat then
         bi ← wr d.(block_indent_stack) d.(block_sp) d.(active_indent);
         bw ← wr d.(block_width_stack) d.(block_sp) d.(active_width);
         Ret (d <| block_indent_stack := bi |> <| block_width_stack := bw |> <| block_sp ::= S |>)
       else Ret d);
  let inline_indent := sat8 (c.(margin_left) + c.(padding_left)) in
  let d := d <| active_indent ::= fun i => sat8 (sat8 (i + inline_indent) + sat8 (d.(list_depth) * 2)) |> in
  let d := match c.(width_chars) with
           | Some w => d <| active_width ::= fun a => Z.min a (Z.max w 8) |>
           | None => d
           end in
  Ret (set_fg d.(default_fg) d).

Definition open_li (c : BoxStyle) (d : Doc) : rust Doc :=
  d ← times (Nat.min (Z.to_nat (sat8 (c.(margin_top) + c.(padding_top)))) 2) (fun d => brk false d.(default_fg) d) d;
  let ind := (Z.to_nat (sat8 (d.(list_depth) * 2)) + Z.to_nat (sat8 (c.(margin_left) + c.(padding_left))))%nat in
  d ← times (Nat.min ind 16) (emit 32) d;
  d ← emit 45 d;
  emit 32 d.

Definition open_tag (tag name : bytes) (c : BoxStyle) (d : Doc) : rust Doc :=
  if decide (c.(display) = DisplayNone) then Ret d
  else if name_in name N_list then brk false d.(default_fg) (d <| list_depth ::= fun n => sat8 (n + 1) |>)
  else if name_in name N_break then d ← brk false d.(default_fg) d; Ret (set_fg d.(default_fg) d)
  else if name_is name N_h1 then
    heading (if d.(hints).(has_h1) then d.(hints).(h_h1) else H1_FG) c.(bx_color) d
  else if name_is name N_h2 then
    heading (if d.(hints).(has_h2) then d.(hints).(h_h2) else H2_FG) c.(bx_color) d
  else if name_is name N_h3 then heading H3_FG c.(bx_color) d
  else if name_in name N_bold then styled (0x11, 0x11, 0x11) d
  else if name_in name N_italic then styled (0x55, 0x44, 0x77) d
  else if name_in name N_code then styled (0x1a, 0x55, 0x33) d
  else if name_is name N_mark then styled (0xaa, 0x66, 0x00) d
  else if name_is name N_a then
    bad ← tag_href_value_dangerous tag;
    if bad : bool then Ret d
    else styled (default d.(hints).(h_link) c.(bx_color)) (d <| a_styled := true |>)
  else if name_in name N_block then open_block c d
  else if name_is name N_li then open_li c d
  else Ret d.

(** A tag between [<] and [>]. *)
Definition tag_element (tag : bytes) (d : Doc) : rust Doc :=
  if decide (length tag < 2)%nat then Ret d
  else
    c1 ← rd tag 1;
    let is_close := bool_decide (c1 = 47) in
    let name_start := scan_while (fun c => (c =? 32) || (c =? 9) || (c =? 10) || (c =? 47)) tag
                        (if is_close then 2 else 1) in
    let name_end := scan_while is_alnum tag name_start in
    name ← sub tag name_start name_end;
    if is_close then close_tag name d
    else c ← computed_style tag name d; open_tag tag name c d.

Definition O_comment : bytes := Eval vm_compute in bs "<!--".
Definition O_dropped : list bytes := Eval vm_compute in (bs <$> ["<meta"; "<link"; "<base"]%string).
Definition O_script : bytes := Eval vm_compute in bs "<script".
Definition O_iframe : bytes := Eval vm_compute in bs "<iframe".
Definition O_object : bytes := Eval vm_compute in bs "<object".
Definition O_embed : bytes := Eval vm_compute in bs "<embed".
Definition O_style : bytes := Eval vm_compute in bs "<style".
Definition O_template : bytes := Eval vm_compute in bs "<template".
Definition O_title : bytes := Eval vm_compute in bs "<title".

Definition script_open (raw : bytes) (i : nat) (d : Doc) : rust flow :=
  let te := scan_while (not_byte 62) raw (i + 1) in
  if decide (length raw <= te)%nat then Ret (Break d)
  else
    tag ← sub raw i (te + 1);
    data ← script_mime_is_non_javascript tag;
    Ret (Next (te + 1) ((if data : bool then d else d <| scripts_stripped := true |>) <| in_script := true |>)).

(** At a [<]. *)
Definition markup_round (raw : bytes) (i : nat) (d : Doc) : rust flow :=
  if starts_ci raw i O_comment then
    Ret (Next (Nat.min (comment_end (length raw) raw (i + 4) + 3) (length raw)) d)
  else if existsb (starts_ci raw i) O_dropped then Ret (Next (skip_until_gt raw i) d)
  else if starts_ci raw i O_script then script_open raw i d
  else if starts_ci raw i O_iframe then Ret (Next (skip_until_gt raw i) (d <| in_iframe := true |>))
  else if starts_ci raw i O_object then Ret (Next (skip_until_gt raw i) (d <| in_object := true |>))
  else if starts_ci raw i O_embed then Ret (Next (skip_until_gt raw i) d)
  else if starts_ci raw i O_style then
    Ret (Next (skip_until_gt raw i) (d <| in_style := true |> <| style_len := 0%nat |>))
  else if starts_ci raw i O_template then Ret (Next (skip_until_gt raw i) (d <| in_template := true |>))
  else if starts_ci raw i O_title then Ret (Next (skip_until_gt raw i) (d <| in_title := true |>))
  else
    let tag_end := scan_while (not_byte 62) raw (i + 1) in
    if decide (length raw <= tag_end)%nat then Ret (Break d)
    else
      tag ← sub raw i tag_end;
      d ← tag_element tag d;
      Ret (Next (tag_end + 1) d).

(** ** The document *)

Definition round (raw : bytes) (i : nat) (d : Doc) : rust flow :=
  if full d.(view) then Ret (Break (d <| view ::= fun v => v <| truncated := true |> |>))
  else if d.(in_script) then skip_to C_script (fun d => d <| in_script := false |>) raw i d
  else if d.(in_template) then skip_to C_template (fun d => d <| in_template := false |>) raw i d
  else if d.(in_iframe) then skip_to C_iframe (fun d => d <| in_iframe := false |>) raw i d
  else if d.(in_object) then skip_to C_object (fun d => d <| in_object := false |>) raw i d
  else if d.(in_title) then skip_to C_title (fun d => d <| in_title := false |>) raw i d
  else if d.(in_style) then style_round raw i d
  else
    ch ← rd raw i;
    if decide (ch = 60) then markup_round raw i d else text_round raw i ch d.

Fixpoint doc_loop (fuel : nat) (raw : bytes) (i : nat) (d : Doc) : rust Doc :=
  match fuel with
  | O => Panic
  | S fuel =>
      if decide (i < length raw)%nat then
        f ← round raw i d;
        match f with Next i d => doc_loop fuel raw i d | Break d => Ret d end
      else Ret d
  end.

Definition NOTE : bytes := Eval vm_compute in bs "[NO REACT/JS VM; CSS3 LAYOUT N/I--STATIC HTML OR SSR FOR EVE]".

(** The last line, and the note about scripts. *)
Definition finish_doc (d : Doc) : rust Doc :=
  d ← on_view (fun v => if bool_decide (0 < v.(cur).(line_len))%nat && negb (full v) then flush_line v else Ret v) d;
  if d.(scripts_stripped) then
    on_view (fun v =>
      if full v then Ret v
      else
        let n := Nat.min (length NOTE) BROWSER_LINE_CAP in
        dt ← copy_at (replicate BROWSER_LINE_CAP 0) 0 (take n NOTE);
        put_line {| data := dt; line_len := n; fg := (0x88, 0x55, 0x22) |} v) d
  else Ret d.

(** The statics of the file. *)
Record HtmlStatics := { st_lines : list BrowserLine; st_style_scratch : bytes; st_dom : DomTree }.
Definition HtmlStatics_initial : HtmlStatics := {|
  st_lines := HTML_RENDER_LINES; st_style_scratch := replicate (Z.to_nat 2048) 0; st_dom := DomTree_new |}.

Record Rendered := { rd_statics : HtmlStatics; rd_line_count : nat; rd_truncated : bool; rd_stripped : bool }.

Definition render_html (raw : bytes) (body : rgb) (style_scratch : bytes) (v : View) : rust Doc :=
  d ← doc_loop (S (length raw)) raw 0 (Doc_new body style_scratch v);
  finish_doc d.

Definition format_document (raw : bytes) (body : rgb) (st : HtmlStatics) : rust Rendered :=
  let v := {| lines := st.(st_lines); line_count := 0; truncated := false; cur := BrowserLine_new body |} in
  dom ← build_text_dom raw st.(st_dom);
  if negb (looks_like_html raw) then
    v ← plain_lines raw body v;
    Ret {| rd_statics := {| st_lines := v.(lines); st_style_scratch := st.(st_style_scratch); st_dom := dom |};
           rd_line_count := v.(line_count); rd_truncated := v.(truncated); rd_stripped := false |}
  else
    d ← render_html raw body st.(st_style_scratch) v;
    Ret {| rd_statics := {| st_lines := d.(view).(lines); st_style_scratch := d.(style_buf); st_dom := dom |};
           rd_line_count := d.(view).(line_count); rd_truncated := d.(view).(truncated);
           rd_stripped := d.(scripts_stripped) |}.
