(* ===== verification/HtmlSafe.v ===== *)
(** * Safety and termination of the HTML renderer

    The parsers only move forward, so their loops end within the page's length;
    the invariant [doc_wf] of the renderer keeps every index in range; the text
    of every line is whole UTF-8 sequences.  A style sheet never takes effect:
    its text is collected only when its closing tag is missing. *)

From S2P Require Import Prelude Dom HtmlCss Html.

(** ** Positions *)

Create HintDb html.

Lemma skip_ws_ge s i : (i <= skip_ws s i)%nat.
Proof. apply scan_while_ge. Qed.
Lemma skip_ws_le s i : (i <= length s)%nat -> (skip_ws s i <= length s)%nat.
Proof. apply scan_while_le. Qed.
#[export] Hint Resolve skip_ws_ge scan_while_ge : html.

Lemma at_byte_lt s i c : at_byte s i c = true -> (i < length s)%nat.
Proof. unfold at_byte. intros H%bool_decide_eq_true. by apply lookup_lt_Some in H. Qed.

Lemma number_ge s i : (i <= (number s i).1)%nat.
Proof. apply scan_while_ge. Qed.


Lemma component_comma_ge s i : (i <= (component_comma s i).1)%nat.
Proof.
  unfold component_comma. pose proof (number_ge s (skip_ws s i)). pose proof (skip_ws_ge s i).
  destruct (number _ _) as [j [v|]]; cbn [fst] in *; [|lia].
  pose proof (skip_ws_ge s j). destruct (at_byte _ _ _); cbn; lia.
Qed.

Lemma rgb_tail_ge a s i : (i <= rgb_tail a s i)%nat.
Proof.
  unfold rgb_tail. pose proof (skip_ws_ge s i).
  pose proof (scan_while_ge (fun c => negb (c =? 41)) s (skip_ws s i + 1)).
  destruct (a && _), (at_byte _ _ _); lia.
Qed.

Lemma parse_rgb_rgba_ge s i : (i <= (parse_rgb_rgba s i).1)%nat.
Proof.
  unfold parse_rgb_rgba. destruct (negb _ && _); [done|]. set (i0 := if starts_ci s i S_rgba then _ else _).
  assert (i <= i0)%nat as H0 by (unfold i0; destruct (starts_ci _ _ _); lia). clearbody i0.
  pose proof (component_comma_ge s i0) as H1. destruct (component_comma s i0) as [i1 [r|]]; cbn [fst] in *; [|lia].
  pose proof (component_comma_ge s i1) as H2. destruct (component_comma s i1) as [i2 [g|]]; cbn [fst] in *; [|lia].
  pose proof (number_ge s (skip_ws s i2)) as H3. pose proof (skip_ws_ge s i2).
  destruct (number _ _) as [i3 [b|]]; cbn [fst] in *; [|lia].
  pose proof (rgb_tail_ge (starts_ci s i S_rgba) s i3). lia.
Qed.

Lemma parse_hex_color_ge s i : (i <= (parse_hex_color s i).1)%nat.
Proof.
  unfold parse_hex_color. destruct (negb _); cbn; [lia|]. pose proof (scan_while_ge is_hex s (i + 1)). lia.
Qed.

Lemma named_color_ge ns s i : (i <= (named_color ns s i).1)%nat.
Proof.
  induction ns as [|[n c] ns IH]; cbn [named_color fst]; [lia|]. destruct (_ && _); cbn; [lia|done].
Qed.

Lemma parse_color_ge s i : (i <= (parse_color_after_colon s i).1)%nat.
Proof.
  unfold parse_color_after_colon. pose proof (skip_ws_ge s i) as H0.
  pose proof (parse_rgb_rgba_ge s (skip_ws s i)) as H1. destruct (parse_rgb_rgba _ _) as [j [c|]]; cbn [fst] in *; [lia|].
  destruct (at_byte _ _ _).
  - pose proof (parse_hex_color_ge s j). lia.
  - pose proof (named_color_ge NAMES s j). unfold parse_named_color. lia.
Qed.

Lemma with_number_ge s i f out : (i <= (with_number s i f out).1)%nat.
Proof.
  unfold with_number, parse_css_number_unit. pose proof (number_ge s (skip_ws s i)). pose proof (skip_ws_ge s i).
  destruct (number _ _) as [j [v|]]; cbn [fst] in *; [|lia].
  destruct (starts_ci _ _ S_px); cbn; [lia|]. destruct (starts_ci _ _ S_ch); cbn; [lia|].
  destruct (at_byte _ _ _); cbn; lia.
Qed.

Lemma box_property_ge cap s key i out : (i <= (box_property cap s key i out).1)%nat.
Proof.
  unfold box_property. destruct (_ && _).
  { pose proof (parse_color_ge s i). by destruct (parse_color_after_colon s i). }
  destruct (_ && _).
  { destruct (starts_ci s i K_none); [cbn; lia|]. destruct (starts_ci s i K_block); [cbn; lia|].
    destruct (starts_ci s i K_inline); cbn; lia. }
  repeat (match goal with |- context [if starts_ci key 0 ?k then _ else _] => destruct (starts_ci key 0 k) end;
          [apply with_number_ge|]).
  destruct (_ && _); [apply with_number_ge|done].
Qed.

Lemma box_round_ok cap s i out :
  (i < length s)%nat -> returns (fun p => (i < p.1)%nat) (box_round cap s i out).
Proof.
  intros Hi. unfold box_round. pose proof (skip_ws_ge s i) as H0. pose proof (skip_ws_le s i ltac:(lia)) as H1.
  set (k := skip_ws s i) in *. pose proof (scan_while_ge is_key_byte s k) as H2.
  pose proof (scan_while_le is_key_byte s k H1) as H3. set (e := scan_while is_key_byte s k) in *.
  rewrite sub_ok, bind_ret by lia. pose proof (skip_ws_ge s e) as H4.
  pose proof (skip_ws_ge s (skip_ws s e + 1)) as H5.
  pose proof (box_property_ge cap s (slice s k e) (skip_ws s (skip_ws s e + 1)) out) as H6.
  destruct (negb _); [|destruct (box_property _ _ _ _ _) as [j o]]; cbn [returns fst] in *;
    match goal with |- context [scan_while ?p ?s ?j] => pose proof (scan_while_ge p s j) end; lia.
Qed.

Lemma box_loop_ok fuel cap s i out :
  (length s - i < fuel)%nat -> returns (fun _ => True) (box_loop fuel cap s i out).
Proof.
  revert i out. induction fuel as [|fuel IH]; intros i out Hf; [lia|]. cbn [box_loop].
  destruct (decide (i < length s)%nat) as [Hi|]; [|done].
  eapply returns_bind; [by apply box_round_ok|]. intros [j o] Hj. cbn in Hj. apply IH. lia.
Qed.

Lemma parse_inline_box_style_ok s cap : returns (fun _ => True) (parse_inline_box_style s cap).
Proof. apply box_loop_ok. lia. Qed.

Lemma scan_colors_loop_ok fuel css i h :
  (length css - i < fuel)%nat -> returns (fun _ => True) (scan_colors_loop fuel css i h).
Proof.
  revert i h. induction fuel as [|fuel IH]; intros i h Hf; [lia|]. cbn [scan_colors_loop].
  destruct (decide (i < length css)%nat); [|done]. unfold scan_window.
  rewrite sub_ok, bind_ret by lia. rewrite bind_ret. apply IH. lia.
Qed.

(** ** Attributes *)

Lemma attr_value_ok tag j : (j < length tag)%nat -> returns (fun _ => True) (attr_value tag j).
Proof.
  intros Hj. unfold attr_value. rewrite rd_ok, bind_ret by done. destruct (decide _).
  - rewrite sub_ok; [done|]. split; [apply scan_while_ge|apply scan_while_le; lia].
  - rewrite sub_ok; [done|]. split; [apply scan_while_ge|apply scan_while_le; lia].
Qed.

Lemma attr_after_ok tag j : returns (fun _ => True) (attr_after tag j).
Proof.
  unfold attr_after. destruct (negb _); [done|]. destruct (decide _); [done|].
  eapply returns_bind; [apply attr_value_ok; lia|done].
Qed.

Lemma extract_attr_value_ok tag key : returns (fun _ => True) (extract_attr_value tag key).
Proof. unfold extract_attr_value. destruct (find_sub_ci _ _); [apply attr_after_ok|done]. Qed.

Lemma script_mime_ok tag : returns (fun _ => True) (script_mime_is_non_javascript tag).
Proof. unfold script_mime_is_non_javascript. eapply returns_bind; [apply extract_attr_value_ok|done]. Qed.

Lemma tag_href_ok tag : returns (fun _ => True) (tag_href_value_dangerous tag).
Proof.
  unfold tag_href_value_dangerous. destruct (find_sub_ci _ _) as [hi|]; [|done].
  destruct (match _ with Some _ => _ | None => _ end); [done|].
  eapply returns_bind; [apply attr_after_ok|done].
Qed.

Lemma class_loop_ok fuel c i name :
  (length c - i < fuel)%nat -> returns (fun _ => True) (class_loop fuel c i name).
Proof.
  revert i. induction fuel as [|fuel IH]; intros i Hf; [lia|]. cbn [class_loop].
  destruct (decide (i < length c)%nat) as [Hi|]; [|done]. cbv zeta.
  set (st := scan_while is_ascii_whitespace c i).
  pose proof (scan_while_ge is_ascii_whitespace c i). pose proof (scan_while_le is_ascii_whitespace c i ltac:(lia)).
  set (p := fun b => negb (is_ascii_whitespace b)).
  pose proof (scan_while_ge p c st). pose proof (scan_while_le p c st ltac:(done)).
  fold p. rewrite sub_ok, bind_ret by lia. destruct (decide _); [done|]. apply IH.
  (* a word or a blank is consumed *)
  destruct (decide (i < scan_while p c st)%nat); [lia|].
  assert (st = i /\ scan_while p c st = st) as [E1 E2] by lia. exfalso.
  destruct (lookup_lt_is_Some_2 c i Hi) as [x Hx].
  assert (is_ascii_whitespace x = false) as W.
  { apply (scan_while_stop is_ascii_whitespace c i). fold st. by rewrite E1. }
  assert (p x = false) as W'. { apply (scan_while_stop p c st). by rewrite E2, E1. }
  unfold p in W'. by rewrite W in W'.
Qed.

Lemma class_matches_ok c name : returns (fun _ => True) (class_matches c name).
Proof. apply class_loop_ok. lia. Qed.

(** ** Rules *)

Definition rule_wf (r : StyleRule) : Prop := length r.(r_name) = 24%nat /\ 0 <= r.(name_len) <= 24.
Definition rules_wf (rs : list StyleRule) : Prop := length rs = 32%nat /\ Forall rule_wf rs.

Lemma parse_rule_ok sel decl cap : returns (fun o => from_option rule_wf True o) (parse_rule sel decl cap).
Proof.
  unfold parse_rule. cbv zeta. destruct (decide _); [done|].
  destruct (selector_kind sel (skip_ws sel 0)) as [k st] eqn:Ek.
  assert (st <= length sel)%nat.
  { revert Ek. unfold selector_kind. destruct (at_byte sel _ 46) eqn:E1; [apply at_byte_lt in E1; intros [= <- <-]; lia|].
    destruct (at_byte sel _ 35) eqn:E2; [apply at_byte_lt in E2; intros [= <- <-]; lia|]. intros [= <- <-]. lia. }
  rewrite sub_ok, bind_ret by (split; [apply scan_while_ge|by apply scan_while_le]).
  destruct (decide _); [done|]. unfold copy_name_lower. rewrite length_replicate.
  eapply returns_bind; [apply parse_inline_box_style_ok|]. intros bx _. cbn [returns from_option].
  split; cbn [r_name name_len].
  - by rewrite length_inserts.
  - set (m := Nat.min _ _). assert (m <= 24)%nat by lia. unfold wrap. rewrite Z.mod_small; lia.
Qed.

Lemma rules_loop_ok fuel css i rules n cap :
  (length css - i < fuel)%nat -> rules_wf rules -> (n <= 32)%nat ->
  returns (fun p => rules_wf p.1 /\ (p.2 <= 32)%nat) (rules_loop fuel css i rules n cap).
Proof.
  revert i rules n. induction fuel as [|fuel IH]; intros i rules n Hf Hr Hn; [lia|]. cbn [rules_loop].
  destruct (decide _) as [[Hi Hl]|]; [|done]. cbv zeta.
  pose proof (skip_ws_ge css i). set (k := skip_ws css i) in *.
  destruct (decide _); [done|].
  pose proof (scan_while_ge (not_byte 123) css k). set (e := scan_while (not_byte 123) css k) in *.
  destruct (decide (length css <= e)%nat); [done|].
  rewrite (sub_ok css k e) by lia. rewrite bind_ret.
  pose proof (scan_while_ge (not_byte 125) css (e + 1)). set (f := scan_while (not_byte 125) css (e + 1)) in *.
  rewrite sub_ok, bind_ret by lia.
  eapply returns_bind; [apply parse_rule_ok|]. intros o Ho.
  destruct o as [rule|]; cbn [from_option] in Ho.
  - rewrite wr_ok, bind_ret by lia. destruct Hr as [Hlen Hall]. apply IH.
    + destruct (decide _); lia.
    + split; [by rewrite length_insert|by apply Forall_insert].
    + lia.
  - apply IH; [destruct (decide _); lia|done|done].
Qed.

Lemma scan_style_rules_ok css rules n cap :
  rules_wf rules -> (n <= 32)%nat ->
  returns (fun p => rules_wf p.1 /\ (p.2 <= 32)%nat) (scan_style_rules css rules n cap).
Proof. intros. apply rules_loop_ok; [lia|done|done]. Qed.

(** ** Lines hold whole UTF-8 sequences *)

Definition is_ascii (c : Z) : Prop := 0 <= c < 128.

Definition utf8_unit (u : bytes) : Prop :=
  utf8_seq_valid u = true /\ (b ← head u; utf8_lead_len b) = Some (length u).

Inductive utf8_text : bytes -> Prop :=
  | utf8_nil : utf8_text []
  | utf8_snoc l u : utf8_text l -> utf8_unit u -> utf8_text (l ++ u).

Lemma ascii_unit c : is_ascii c -> utf8_unit [c].
Proof.
  intros Hc. unfold utf8_unit, utf8_seq_valid. cbn.
  assert (utf8_lead_len c = Some 1%nat) as ->; [|done].
  unfold utf8_lead_len. unfold is_ascii in Hc. by replace ((0 <=? c) && (c <=? 127)) with true by lia.
Qed.

Lemma slice_unit raw i n b :
  raw !! i = Some b -> utf8_lead_len b = Some n -> (i + n <= length raw)%nat ->
  utf8_seq_valid (slice raw i (i + n)) = true -> utf8_unit (slice raw i (i + n)).
Proof.
  intros Hb Hn Hl Hv. split; [done|]. rewrite length_slice by lia. unfold slice. rewrite (drop_S raw b i) by done.
  replace (i + n - i)%nat with n by lia. destruct n; [|done].
  unfold utf8_lead_len in Hn. repeat (case_match; try congruence).
Qed.

Lemma cont_byte x : 0 <= x < 64 -> utf8_cont (128 + x) = true.
Proof.
  intros Hx. assert (forall k, (k < 64)%nat -> utf8_cont (128 + Z.of_nat k) = true) as H.
  { intros k Hk. do 64 (destruct k as [|k]; [reflexivity|]). lia. }
  rewrite <-(Z2Nat.id x) by lia. apply H. lia.
Qed.

Lemma lead_len_range a :
  (194 <= a <= 223 -> utf8_lead_len a = Some 2%nat) /\
  (224 <= a <= 239 -> utf8_lead_len a = Some 3%nat) /\
  (240 <= a <= 244 -> utf8_lead_len a = Some 4%nat).
Proof.
  unfold utf8_lead_len. split_and!; intros Ha; repeat (case_match; try done); exfalso; lia.
Qed.

(** Scalar values encode to whole sequences. *)
Lemma encode_utf8_unit c : 0 <= c <= 0x10FFFF -> utf8_unit (encode_utf8 c).
Proof.
  intros Hc. unfold encode_utf8.
  pose proof (Z.mod_pos_bound c 64 ltac:(lia)). pose proof (Z.mod_pos_bound (c / 64) 64 ltac:(lia)).
  pose proof (Z.mod_pos_bound (c / 4096) 64 ltac:(lia)).
  destruct (c <? 0x80) eqn:E1; [apply ascii_unit; unfold is_ascii; lia|].
  destruct (c <? 0x800) eqn:E2; [|destruct (c <? 0x10000) eqn:E3].
  - assert (2 <= c / 64 < 32) by (split; [apply Z.div_le_lower_bound|apply Z.div_lt_upper_bound]; lia).
    unfold utf8_unit, utf8_seq_valid; cbn [head mbind option_bind].
    rewrite (proj1 (lead_len_range _)) by lia. cbn. by rewrite cont_byte.
  - assert (0 <= c / 4096 < 16) by (split; [apply Z.div_pos|apply Z.div_lt_upper_bound]; lia).
    unfold utf8_unit, utf8_seq_valid; cbn [head mbind option_bind].
    rewrite (proj1 (proj2 (lead_len_range _))) by lia. cbn. by rewrite !cont_byte.
  - assert (0 <= c / 262144 < 5) by (split; [apply Z.div_pos|apply Z.div_lt_upper_bound]; lia).
    unfold utf8_unit, utf8_seq_valid; cbn [head mbind option_bind].
    rewrite (proj2 (proj2 (lead_len_range _))) by lia. cbn. by rewrite !cont_byte.
Qed.

(** ** The line table *)

Record line_wf (l : BrowserLine) : Prop := {
  lw_data : length l.(data) = BROWSER_LINE_CAP;
  lw_len : (l.(line_len) <= BROWSER_LINE_CAP)%nat;
  lw_text : utf8_text (take l.(line_len) l.(data));
}.

Record view_wf (v : View) : Prop := {
  vw_lines : length v.(lines) = BROWSER_MAX_LINES;
  vw_all : Forall line_wf v.(lines);
  vw_count : (v.(line_count) <= BROWSER_MAX_LINES)%nat;
  vw_cur : line_wf v.(cur);
}.

Lemma line_new_wf c : line_wf (BrowserLine_new c).
Proof. split; [done|cbn; lia|constructor]. Qed.

Lemma line_reset_wf l c : line_wf l -> line_wf (clear_with c l) /\ line_wf (l <| line_len := 0%nat |>).
Proof. intros [H1 H2 H3]. split; split; (done || (cbn; lia) || constructor). Qed.

(** A unit written behind the text of a line. *)
Lemma line_push_wf l u :
  line_wf l -> utf8_unit u -> (l.(line_len) + length u <= BROWSER_LINE_CAP)%nat ->
  line_wf (l <| data := list_inserts l.(line_len) u l.(data) |> <| line_len := (l.(line_len) + length u)%nat |>).
Proof.
  intros [H1 H2 H3] Hu Hl. split; cbn; [by rewrite length_inserts|done|].
  rewrite inserts_split by (rewrite H1; lia).
  rewrite app_assoc, take_app_le by (rewrite length_app, length_take; lia).
  rewrite take_ge by (rewrite length_app, length_take; lia). by constructor.
Qed.

Lemma full_spec v : full v = true <-> (BROWSER_MAX_LINES <= v.(line_count))%nat.
Proof. unfold full. apply bool_decide_eq_true. Qed.

Lemma full_false v : full v = false <-> (v.(line_count) < BROWSER_MAX_LINES)%nat.
Proof. unfold full. rewrite bool_decide_eq_false. lia. Qed.

Lemma put_line_wf l v :
  view_wf v -> line_wf l -> (v.(line_count) < BROWSER_MAX_LINES)%nat ->
  returns (fun v' => view_wf v' /\ v'.(cur) = v.(cur)) (put_line l v).
Proof.
  intros [H1 H2 H3 H4] Hl Hc. unfold put_line. rewrite wr_ok, bind_ret by lia. cbn. split; [|done].
  split; cbn; [by rewrite length_insert|by apply Forall_insert|lia|done].
Qed.

Lemma with_cur_wf v l : view_wf v -> line_wf l -> view_wf (v <| cur := l |>).
Proof. intros [H1 H2 H3 H4] Hl. by split. Qed.

Lemma flush_line_wf v :
  view_wf v -> returns (fun v' => view_wf v' /\ v'.(cur) = v.(cur) <| line_len := 0%nat |>) (flush_line v).
Proof.
  intros Hv. unfold flush_line. destruct (line_reset_wf v.(cur) (0, 0, 0) (vw_cur v Hv)) as [_ Hl].
  destruct (full v) eqn:E.
  - cbn. split; [|done]. destruct Hv. by split.
  - eapply returns_bind; [apply put_line_wf; [done|apply Hv|by apply full_false]|].
    intros v' [Hv' Ec]. cbn [returns]. rewrite <-Ec in *. by split; [apply (with_cur_wf v')|].
Qed.

Lemma clear_cur_wf c v : view_wf v -> view_wf (clear_cur c v).
Proof. intros Hv. destruct (line_reset_wf v.(cur) c (vw_cur v Hv)). by apply (with_cur_wf v (clear_with c v.(cur))). Qed.

Lemma emit_break_wf b c v : view_wf v -> returns view_wf (emit_break b c v).
Proof.
  intros Hv. unfold emit_break. apply (returns_bind view_wf).
  { destruct (decide _); [|done]. eapply returns_weaken; [by apply flush_line_wf|by intros ? []]. }
  intros v1 H1. apply (returns_bind view_wf).
  { destruct (b && negb (full v1)) eqn:E; [|done]. apply andb_true_iff in E as [_ E%negb_true_iff].
    eapply returns_weaken; [apply put_line_wf; [done|apply line_new_wf|by apply full_false]|by intros ? []]. }
  intros v2 H2. by apply clear_cur_wf.
Qed.

(** [flush_line] and a cleared line, as before a character that does not fit. *)
Lemma flush_clear_wf c v :
  view_wf v -> returns (fun v' => view_wf v' /\ v'.(cur).(line_len) = 0%nat) (v ← flush_line v; Ret (clear_cur c v)).
Proof.
  intros Hv. eapply returns_bind; [by apply flush_line_wf|]. intros v' [Hv' _]. split; [by apply clear_cur_wf|done].
Qed.

Lemma push_byte_wf c v :
  view_wf v -> is_ascii c -> (v.(cur).(line_len) < BROWSER_LINE_CAP)%nat -> returns view_wf (push_byte c v).
Proof.
  intros Hv Hc Hl. unfold push_byte. pose proof (vw_cur v Hv) as Hcur. pose proof (lw_data _ Hcur) as Hd.
  rewrite wr_ok, bind_ret by lia. cbn [returns].
  pose proof (line_push_wf _ [c] Hcur (ascii_unit c Hc) ltac:(cbn [length]; lia)) as Hw.
  rewrite Nat.add_1_r in Hw. by apply (with_cur_wf v _ Hv Hw).
Qed.

Lemma emit_char_wf c fg v : view_wf v -> is_ascii c -> returns view_wf (emit_char c fg v).
Proof.
  intros Hv Hc. unfold emit_char. apply (returns_bind view_wf).
  { destruct (decide _); [|done]. eapply returns_weaken; [by apply flush_clear_wf|by intros ? []]. }
  intros v1 H1. destruct (_ && _).
  { destruct H1. by split. }
  destruct (decide _); [by apply push_byte_wf|done].
Qed.

Lemma limit_of_range cap : (1 <= limit_of cap <= BROWSER_LINE_CAP)%nat.
Proof. unfold limit_of, BROWSER_LINE_CAP. lia. Qed.

Lemma emit_char_cap_wf c fg cap v : view_wf v -> is_ascii c -> returns view_wf (emit_char_cap c fg cap v).
Proof.
  intros Hv Hc. unfold emit_char_cap. pose proof (limit_of_range cap). apply (returns_bind view_wf).
  { destruct (decide _); [|done]. eapply returns_weaken; [by apply flush_clear_wf|by intros ? []]. }
  intros v1 H1. destruct (decide _); [apply push_byte_wf; [done|done|lia]|done].
Qed.

Lemma make_room_wf n limit fg v :
  view_wf v -> (n <= limit)%nat ->
  returns (fun p => view_wf p.1 /\ (p.2 = true -> p.1.(cur).(line_len) + n <= limit)%nat) (make_room 2 n limit fg v).
Proof.
  intros Hv Hn. cbn [make_room]. destruct (decide _); [|cbn; split; [done|lia]].
  eapply returns_bind; [by apply flush_line_wf|]. intros v1 [H1 E1]. cbv zeta.
  pose proof (clear_cur_wf fg v1 H1) as H2. destruct (full _).
  { destruct H2. by split. }
  assert ((clear_cur fg v1).(cur).(line_len) = 0%nat) as E2 by done.
  destruct (decide _); [lia|]. cbn. split; [done|lia].
Qed.

Lemma emit_slice_cap_wf s fg cap v :
  view_wf v -> utf8_unit s -> returns view_wf (emit_slice_cap s fg cap v).
Proof.
  intros Hv Hs. unfold emit_slice_cap. pose proof (limit_of_range cap). cbv zeta.
  destruct (decide (s = [])); [done|].
  destruct (decide _); [by destruct Hv; split|]. destruct (decide _); [by destruct Hv; split|].
  eapply returns_bind; [apply make_room_wf; [done|lia]|]. intros [v1 room] [H1 Hr]. cbn [fst snd] in *.
  destruct room; cbn [negb]; [|done]. specialize (Hr eq_refl).
  destruct (decide _); [by destruct H1; split|].
  pose proof (vw_cur v1 H1) as Hcur. pose proof (lw_data _ Hcur).
  rewrite copy_at_ok, bind_ret by lia. cbn [returns].
  apply (with_cur_wf v1 _ H1 (line_push_wf _ s Hcur Hs ltac:(lia))).
Qed.

(** ** The renderer's state *)

Record doc_wf (d : Doc) : Prop := {
  dw_view : view_wf d.(view);
  dw_style : (d.(style_len) <= length d.(style_buf))%nat;
  dw_rules : rules_wf d.(style_rules);
  dw_rule_count : (d.(style_rule_count) <= 32)%nat;
  dw_indents : length d.(block_indent_stack) = 16%nat;
  dw_widths : length d.(block_width_stack) = 16%nat;
  dw_block_sp : (d.(block_sp) <= 16)%nat;
  dw_fgs : length d.(fg_stack) = 12%nat;
  dw_fg_sp : (d.(fg_sp) <= 12)%nat;
}.

(** What text and tags leave alone: the modes, the style sheet and its effects. *)
Definition frame (d : Doc) :=
  (d.(scripts_stripped), d.(hints), (d.(in_script), d.(in_template), d.(in_iframe), d.(in_object), d.(in_title),
   d.(in_style)), (d.(style_buf), d.(style_len), d.(style_rules), d.(style_rule_count)), d.(default_fg)).

Definition op_ok (d : Doc) (m : rust Doc) : Prop := returns (fun d' => doc_wf d' /\ frame d' = frame d) m.

Lemma op_ret d d' : doc_wf d' -> frame d' = frame d -> op_ok d (Ret d').
Proof. by split. Qed.

Lemma op_bind d m k :
  op_ok d m -> (forall d', doc_wf d' -> frame d' = frame d -> op_ok d' (k d')) -> op_ok d (m ≫= k).
Proof.
  intros Hm Hk. eapply returns_bind; [exact Hm|]. intros d' [Hw Hf].
  eapply returns_weaken; [by apply Hk|]. intros d'' [Hw' Hf']. split; [done|congruence].
Qed.

(** Changing the state outside the frame first. *)
Lemma op_from d0 d m : frame d0 = frame d -> op_ok d0 m -> op_ok d m.
Proof. unfold op_ok. by intros <-. Qed.

Lemma op_if (b : bool) d m1 m2 : (b = true -> op_ok d m1) -> (b = false -> op_ok d m2) -> op_ok d (if b then m1 else m2).
Proof. destruct b; auto. Qed.

Lemma op_decide (P : Prop) `{Decision P} d m1 m2 :
  (P -> op_ok d m1) -> (~ P -> op_ok d m2) -> op_ok d (if decide P then m1 else m2).
Proof. destruct (decide P); auto. Qed.

Lemma set_view_wf d v : doc_wf d -> view_wf v -> doc_wf (d <| view := v |>).
Proof. intros [] Hv. by split. Qed.

Lemma on_view_ok f d : doc_wf d -> (view_wf d.(view) -> returns view_wf (f d.(view))) -> op_ok d (on_view f d).
Proof.
  intros Hd Hf. unfold on_view. eapply returns_bind; [apply Hf, Hd|]. intros v Hv.
  split; [by apply set_view_wf|done].
Qed.

Lemma set_fg_wf c d : doc_wf d -> doc_wf (set_fg c d).
Proof.
  intros Hd. pose proof (dw_view d Hd) as Hv. destruct Hd. split; try done.
  assert (view_wf (d.(view) <| cur := d.(view).(cur) <| fg := c |> |>)) as H; [|exact H].
  apply with_cur_wf; [done|]. by destruct (vw_cur _ Hv).
Qed.

Lemma set_fg_ok c d : doc_wf d -> op_ok d (Ret (set_fg c d)).
Proof. intros. by apply op_ret; [apply set_fg_wf|]. Qed.

Lemma emit_ok c d : doc_wf d -> is_ascii c -> op_ok d (emit c d).
Proof. intros Hd Hc. apply on_view_ok; [done|]. intros. by apply emit_char_cap_wf. Qed.

Lemma emit_slice_ok s d : doc_wf d -> utf8_unit s -> op_ok d (emit_slice s d).
Proof. intros Hd Hs. apply on_view_ok; [done|]. intros. by apply emit_slice_cap_wf. Qed.

Lemma brk_ok b c d : doc_wf d -> op_ok d (brk b c d).
Proof. intros Hd. apply on_view_ok; [done|]. intros. by apply emit_break_wf. Qed.

Lemma times_ok n f d : doc_wf d -> (forall d, doc_wf d -> op_ok d (f d)) -> op_ok d (times n f d).
Proof.
  intros Hd Hf. revert d Hd. induction n as [|n IH]; intros d Hd; cbn [times]; [by apply op_ret|].
  apply op_bind; auto.
Qed.

#[export] Hint Resolve op_ret set_fg_ok emit_ok emit_slice_ok brk_ok : html.

Ltac ascii := unfold is_ascii, Q; lia.

Lemma indent_ok d : doc_wf d -> op_ok d (indent d).
Proof.
  intros Hd. unfold indent. apply op_decide; intros _; [|by apply op_ret].
  apply times_ok; [done|]. intros. apply emit_ok; [done|ascii].
Qed.

(** ** Tags *)

Ltac frozen d := destruct d; done.

Lemma pop_block_ok d : doc_wf d -> op_ok d (pop_block d).
Proof.
  intros Hd. unfold pop_block. apply op_decide; intros Hsp.
  - pose proof (dw_block_sp d Hd). pose proof (dw_indents d Hd). pose proof (dw_widths d Hd).
    cbv zeta. rewrite !rd_ok, !bind_ret by lia.
    apply op_ret; [|done]. destruct Hd. split; (done || (cbn; lia)).
  - apply op_ret; [|done]. by destruct Hd; split.
Qed.

Lemma rd_lt {A} (l : list A) i : (i < length l)%nat -> exists x, rd l i = Ret x.
Proof. intros [x Hx]%lookup_lt_is_Some. exists x. by apply rd_lookup. Qed.

Lemma pop_fg_ok d : doc_wf d -> op_ok d (pop_fg d).
Proof.
  intros Hd. unfold pop_fg. apply op_decide; intros Hsp.
  - pose proof (dw_fg_sp d Hd). pose proof (dw_fgs d Hd). cbv zeta.
    destruct (rd_lt d.(fg_stack) (d.(fg_sp) - 1)) as [c ->]; [lia|]. rewrite bind_ret.
    apply op_ret; [|done]. apply set_fg_wf. destruct Hd. split; (done || (cbn; lia)).
  - by apply set_fg_ok.
Qed.

Lemma close_tag_ok name d : doc_wf d -> op_ok d (close_tag name d).
Proof.
  intros Hd. unfold close_tag.
  set (d0 := if name_in name N_list then _ else d).
  assert (doc_wf d0 /\ frame d0 = frame d) as [H0 F0].
  { unfold d0. destruct (name_in name N_list); [|done]. split; [|done]. by destruct Hd; split. }
  clearbody d0. apply (op_from d0); [done|].
  apply op_bind; [destruct (name_in name N_close_block); [by apply pop_block_ok|by apply op_ret]|].
  intros d1 H1 _. destruct (name_is name N_a).
  - destruct (a_styled d1); [|by apply op_ret]. apply op_bind; [by apply pop_fg_ok|].
    intros d2 H2 _. apply op_ret; [|done]. by destruct H2; split.
  - apply op_bind; [destruct (name_in name N_styled); [by apply pop_fg_ok|by apply op_ret]|].
    intros d2 H2 _. destruct (name_in name N_close_block); [|by apply op_ret].
    apply op_bind; [by apply brk_ok|]. intros d3 H3 F3. by apply op_ret; [apply set_fg_wf|].
Qed.

Lemma push_fg_ok d : doc_wf d -> op_ok d (push_fg d).
Proof.
  intros Hd. unfold push_fg. apply op_decide; intros Hsp; [|by apply op_ret].
  rewrite wr_ok, bind_ret by done. pose proof (dw_fgs d Hd). apply op_ret; [|done].
  destruct Hd. split; try done; cbn; [by rewrite length_insert|lia].
Qed.

Lemma styled_ok c d : doc_wf d -> op_ok d (styled c d).
Proof. intros. apply op_bind; [by apply push_fg_ok|]. intros. by apply set_fg_ok. Qed.

Lemma heading_ok h c d : doc_wf d -> op_ok d (heading h c d).
Proof. intros. apply op_bind; [by apply brk_ok|]. intros. by apply set_fg_ok. Qed.

Lemma open_block_ok c d : doc_wf d -> op_ok d (open_block c d).
Proof.
  intros Hd. unfold open_block. apply op_bind; [apply times_ok; [done|]; intros; by apply brk_ok|].
  intros d1 H1 _. apply op_bind; [by apply brk_ok|]. intros d2 H2 _.
  apply op_bind.
  { apply op_decide; intros Hsp; [|by apply op_ret]. pose proof (dw_indents _ H2). pose proof (dw_widths _ H2).
    rewrite !wr_ok, !bind_ret by lia. apply op_ret; [|done].
    destruct H2. split; try done; cbn; rewrite ?length_insert; lia. }
  intros d3 H3 _. cbv zeta. apply op_ret; [|by destruct (width_chars c)].
  apply set_fg_wf. destruct (width_chars c); destruct H3; by split.
Qed.

Lemma open_li_ok c d : doc_wf d -> op_ok d (open_li c d).
Proof.
  intros Hd. unfold open_li. apply op_bind; [apply times_ok; [done|]; intros; by apply brk_ok|].
  intros d1 H1 _. apply op_bind; [apply times_ok; [done|]; intros; apply emit_ok; [done|ascii]|].
  intros d2 H2 _. apply op_bind; [apply emit_ok; [done|ascii]|]. intros d3 H3 _. apply emit_ok; [done|ascii].
Qed.

Lemma open_tag_ok tag name c d : doc_wf d -> op_ok d (open_tag tag name c d).
Proof.
  intros Hd. unfold open_tag. apply op_decide; intros _; [by apply op_ret|].
  apply op_if; intros _.
  { apply (op_from (d <| list_depth ::= fun n => sat8 (n + 1) |>)); [done|]. apply brk_ok. by destruct Hd; split. }
  apply op_if; intros _; [apply op_bind; [by apply brk_ok|]; intros; by apply set_fg_ok|].
  do 2 (apply op_if; intros _; [by apply heading_ok|]). apply op_if; intros _; [by apply heading_ok|].
  do 4 (apply op_if; intros _; [by apply styled_ok|]).
  apply op_if; intros _.
  { eapply returns_bind; [apply tag_href_ok|]. intros bad _. fold (op_ok d). apply op_if; intros _; [by apply op_ret|].
    apply (op_from (d <| a_styled := true |>)); [done|]. apply styled_ok. by destruct Hd; split. }
  apply op_if; intros _; [by apply open_block_ok|]. apply op_if; intros _; [by apply open_li_ok|by apply op_ret].
Qed.

Lemma rule_matches_ok name c i r : rule_wf r -> returns (fun _ => True) (rule_matches name c i r).
Proof.
  intros [H1 H2]. unfold rule_matches. rewrite sub_ok, bind_ret by lia.
  destruct (r_kind r); [done| |done]. destruct c; [apply class_matches_ok|done].
Qed.

Lemma apply_rules_ok rules name c i b : Forall rule_wf rules -> returns (fun _ => True) (apply_rules rules name c i b).
Proof.
  intros H. revert b. induction H as [|r rules Hr _ IH]; intros b; cbn [apply_rules]; [done|].
  eapply returns_bind; [by apply rule_matches_ok|]. intros m _. apply IH.
Qed.

Lemma computed_style_ok tag name d : doc_wf d -> returns (fun _ => True) (computed_style tag name d).
Proof.
  intros Hd. unfold computed_style. do 3 (eapply returns_bind; [apply extract_attr_value_ok|]; intros ? _).
  eapply returns_bind; [apply apply_rules_ok, Forall_take, (dw_rules d Hd)|]. intros b _.
  destruct a1; [|done]. eapply returns_bind; [apply parse_inline_box_style_ok|done].
Qed.

Lemma tag_element_ok tag d : doc_wf d -> op_ok d (tag_element tag d).
Proof.
  intros Hd. unfold tag_element. apply op_decide; intros Hl; [by apply op_ret|].
  rewrite rd_ok, bind_ret by lia. cbv zeta. set (b := bool_decide _).
  set (p := fun c => (c =? 32) || (c =? 9) || (c =? 10) || (c =? 47)). set (st := if b then 2%nat else 1%nat).
  assert (st <= length tag)%nat as Hst by (unfold st; destruct b; lia).
  rewrite sub_ok, bind_ret by (split; [apply scan_while_ge|by apply scan_while_le, scan_while_le]).
  apply op_if; intros _; [by apply close_tag_ok|].
  eapply returns_bind; [by apply computed_style_ok|]. intros c _. by apply open_tag_ok.
Qed.

(** ** A round *)

(** Forward, or out of the loop. *)
Definition round_ok (i : nat) (P : nat -> Doc -> Prop) (m : rust flow) : Prop :=
  returns (fun f => match f with Next i' d' => (i < i')%nat /\ P i' d' | Break d' => P i d' end) m.

Lemma round_next i P j d : (i < j)%nat -> P j d -> round_ok i P (Ret (Next j d)).
Proof. by split. Qed.

(** An operation within the frame, then on. *)
Lemma round_op i (P : nat -> Doc -> Prop) d m j :
  op_ok d m -> (i < j)%nat -> (forall d', doc_wf d' -> frame d' = frame d -> P j d') ->
  round_ok i P (d ← m; Ret (Next j d)).
Proof. intros Hm Hj HP. eapply returns_bind; [exact Hm|]. intros d' [Hw Hf]. split; [done|by apply HP]. Qed.

Section text.
Context (raw : bytes) (Hraw : is_bytes raw).
Implicit Types (P : nat -> Doc -> Prop).

Lemma byte_at i ch : raw !! i = Some ch -> is_byte ch.
Proof. intros H. by eapply Forall_lookup_1 in H; [|apply Hraw]. Qed.

Lemma entity_value_range base l v cp :
  0 <= v -> 0 <= base -> entity_value base l v = Some cp -> 0 <= cp.
Proof.
  intros Hv Hb. revert v Hv. induction l as [|c l IH]; intros v Hv; cbn [entity_value]; [congruence|].
  destruct (hex_val c) as [x|] eqn:Ex; [|done]. cbn [mbind option_bind]. unfold checked_u32.
  assert (0 <= x).
  { revert Ex. unfold hex_val, is_digit. repeat case_match; intros [= <-]; lia. }
  do 2 (case_decide; [|done]; cbn [mbind option_bind]). apply IH. lia.
Qed.

Lemma parse_numeric_entity_ok s cp n :
  parse_numeric_entity s = Some (cp, n) -> 0 <= cp <= 0x10FFFF /\ (0 < n)%nat.
Proof.
  unfold parse_numeric_entity. destruct (decide _); [done|]. destruct (negb _ || negb _); [done|]. cbv zeta.
  set (x := at_byte s 2 120 || at_byte s 2 88). destruct (negb _ || _); [done|].
  destruct (entity_value _ _ _) as [v|] eqn:E; [|done]. cbn [mbind option_bind].
  apply entity_value_range in E; [|lia|destruct x; lia]. destruct (decide _); [done|]. intros [= <- <-]. lia.
Qed.

Lemma char_of_range cp : 0 <= cp <= 0x10FFFF -> 0 <= char_of cp <= 0x10FFFF.
Proof. unfold char_of. destruct (_ && _); lia. Qed.

(** What may follow a round of text: the frame is kept. *)
Definition stays (P : nat -> Doc -> Prop) (i : nat) (d : Doc) : Prop :=
  forall j d', (i < j)%nat -> doc_wf d' -> frame d' = frame d -> P j d'.

Lemma entity_round_ok P i d :
  (i <= length raw)%nat -> doc_wf d -> stays P i d ->
  returns (fun o => match o with Some f => round_ok i P (Ret f) | None => True end) (entity_round raw i d).
Proof.
  intros Hi Hd HP. unfold entity_round. rewrite sub_ok, bind_ret by lia.
  assert (forall m j, op_ok d m -> (i < j)%nat ->
    returns (fun o => match o with Some f => round_ok i P (Ret f) | None => True end) (d ← m; Ret (Some (Next j d)))) as Hop.
  { intros m j Hm Hj. eapply returns_bind; [exact Hm|]. intros d' [Hw Hf]. cbn. split; [done|by apply HP]. }
  destruct (starts_ci _ 0 E_nbsp).
  { eapply returns_bind; [by apply indent_ok|]. intros d1 [H1 F1].
    eapply returns_bind; [by apply (emit_ok 32 d1)|]. intros d2 [H2 F2]. cbn. split; [lia|apply HP; [lia|done|congruence]]. }
  do 4 (destruct (starts_ci _ 0 _); [apply Hop; [apply emit_ok; [done|ascii]|lia]|]).
  destruct (parse_numeric_entity _) as [[cp n]|] eqn:E; [|done].
  apply parse_numeric_entity_ok in E as [Hcp Hn]. apply Hop; [|lia].
  by apply emit_slice_ok, encode_utf8_unit, char_of_range.
Qed.

Lemma blank_round_ok P i d : doc_wf d -> stays P i d -> round_ok i P (blank_round i d).
Proof.
  intros Hd HP. unfold blank_round. cbv zeta. destruct (decide (0 < _)%nat) as [Hl|].
  - pose proof (vw_cur _ (dw_view d Hd)) as [H1 H2 _]. rewrite rd_ok, bind_ret by lia.
    apply (round_op i P d); [|lia|intros; apply HP; (done || lia)]. apply op_decide; intros _; [apply emit_ok; [done|ascii]|by apply op_ret].
  - apply round_next; [lia|]. apply HP; (done || lia).
Qed.

Lemma char_round_ok P i ch d :
  raw !! i = Some ch -> doc_wf d -> stays P i d -> round_ok i P (char_round raw i ch d).
Proof.
  intros Hch Hd HP. pose proof (byte_at i ch Hch) as Hb. unfold is_byte in Hb. unfold char_round.
  eapply returns_bind; [by apply indent_ok|]. intros d1 [H1 F1].
  assert (stays P i d1) as HP1. { intros j d' Hj Hw Hf. apply HP; [done|done|congruence]. }
  assert (forall c, is_ascii c -> round_ok i P (d ← emit c d1; Ret (Next (i + 1) d))) as Hc.
  { intros c Hc. apply (round_op i P d1); [by apply emit_ok|lia|]. intros. apply HP1; (done || lia). }
  destruct (ch <? 0x80) eqn:E; [apply Hc; ascii|].
  destruct (utf8_lead_len ch) as [n|] eqn:En; [|apply Hc; ascii].
  destruct (decide _); [apply Hc; ascii|]. rewrite sub_ok, bind_ret by lia.
  destruct (utf8_seq_valid _) eqn:Ev; cbn [negb]; [|apply Hc; ascii].
  apply (round_op i P d1).
  - apply emit_slice_ok; [done|]. eapply slice_unit; [done|done|lia|done].
  - destruct n; [|lia]. unfold utf8_lead_len in En. repeat (case_match; try congruence).
  - intros. apply HP1; [|done|done]. destruct n; [|lia]. unfold utf8_lead_len in En. repeat (case_match; try congruence).
Qed.

Lemma text_round_ok P i ch d :
  raw !! i = Some ch -> doc_wf d -> stays P i d -> round_ok i P (text_round raw i ch d).
Proof.
  intros Hch Hd HP. pose proof (lookup_lt_Some _ _ _ Hch). unfold text_round.
  eapply (returns_bind (fun o => match o with Some f => round_ok i P (Ret f) | None => True end)).
  { destruct (decide _); [|done]. by apply entity_round_ok; [lia| |]. }
  intros [f|] Hf; [exact Hf|]. destruct (decide _).
  { apply round_next; [lia|apply HP; (done || lia)]. }
  destruct (decide _); [by apply blank_round_ok|by apply char_round_ok].
Qed.
End text.

(** ** The style sheet *)

Lemma find_sub_from_tail hay needle s x s' :
  find_sub_from (x :: hay) needle s = None -> find_sub_from hay needle s' = None.
Proof.
  assert (forall hay s s', find_sub_from hay needle s = None -> find_sub_from hay needle s' = None) as H.
  { clear. induction hay as [|y hay IH]; intros s s'; cbn [find_sub_from]; (destruct (starts_ci _ _ _); [done|]); [done|].
    apply IH. }
  cbn [find_sub_from]. destruct (starts_ci _ _ _); [done|]. apply H.
Qed.

Lemma find_sub_from_bound hay needle s p :
  find_sub_from hay needle s = Some p -> (s <= p /\ p + length needle <= s + length hay)%nat.
Proof.
  revert s. induction hay as [|y hay IH]; intros s; cbn [find_sub_from].
  - unfold starts_ci. destruct (decide _) as [|Hl]; [done|]. case_bool_decide; [|done]. intros [= <-].
    cbn in *. lia.
  - destruct (starts_ci _ _ _) eqn:E.
    + intros [= <-]. unfold starts_ci in E. destruct (decide _) as [|Hl]; [done|]. cbn in *. lia.
    + intros [H1 H2]%IH. cbn. lia.
Qed.

(** A needle that is nowhere is in no suffix. *)
Lemma find_sub_ci_drop hay needle n : find_sub_ci hay needle = None -> find_sub_ci (drop n hay) needle = None.
Proof.
  unfold find_sub_ci. destruct (decide (_ \/ _)) as [H|H]; intros Hf.
  { rewrite decide_True; [done|]. destruct H as [|H]; [by left|right; rewrite length_drop; lia]. }
  destruct (decide _); [done|]. clear H. revert hay Hf n0.
  induction n as [|n IH]; intros hay Hf Hn; [by rewrite drop_0|].
  destruct hay as [|x hay]; [done|]. cbn [drop] in *. apply IH; [|done].
  by apply (find_sub_from_tail hay needle 0 x 0).
Qed.

Lemma find_sub_ci_bound hay needle p :
  find_sub_ci hay needle = Some p -> (p + length needle <= length hay)%nat.
Proof. unfold find_sub_ci. destruct (decide _); [done|]. intros [_ H]%find_sub_from_bound. lia. Qed.

Definition hints0 (body : rgb) : CssHints := {|
  h_body := body; h_h1 := H1_FG; h_h2 := H2_FG; h_link := (0x22, 0x22, 0xcc);
  has_body := false; has_h1 := false; has_h2 := false |}.

(** No rule and no colour of a style sheet is in effect; while its text is being
    collected, its closing tag does not follow. *)
Record styles_off (raw : bytes) (body : rgb) (i : nat) (d : Doc) : Prop := {
  so_rules : d.(style_rule_count) = 0%nat;
  so_hints : d.(hints) = hints0 body;
  so_fg : d.(default_fg) = body;
  so_pending : d.(in_style) = true -> (0 < d.(style_len))%nat -> find_sub_ci (drop i raw) C_style = None;
}.

Section rounds.
Context (raw : bytes) (Hraw : is_bytes raw) (body : rgb).

Definition doc_inv (i : nat) (d : Doc) : Prop := doc_wf d /\ styles_off raw body i d.

(** What decides about style sheets. *)
Definition sheet (d : Doc) := (d.(style_rule_count), d.(hints), d.(default_fg), d.(in_style), d.(style_len)).

Lemma inv_forward i j d d' :
  doc_inv i d -> (i <= j)%nat -> doc_wf d' -> sheet d' = sheet d -> doc_inv j d'.
Proof.
  intros [Hd [H1 H2 H3 H4]] Hj Hw Hs. unfold sheet in Hs. split; [done|]. split; try (simplify_eq; congruence).
  intros Hi Hl. replace j with (i + (j - i))%nat by lia. rewrite <-drop_drop. apply find_sub_ci_drop, H4; simplify_eq; congruence.
Qed.

Lemma inv_stays i d : doc_inv i d -> stays doc_inv i d.
Proof.
  intros Hd j d' Hj Hw Hf. apply (inv_forward i j d); [done|lia|done|].
  unfold frame, sheet in *. simplify_eq. congruence.
Qed.

Lemma slice_tail i : (i <= length raw)%nat -> sub raw i (length raw) = Ret (drop i raw).
Proof. intros. by rewrite sub_ok, slice_full by lia. Qed.

(** A style sheet begins or ends. *)
Lemma inv_sheet i j d d' :
  doc_inv i d -> doc_wf d' -> (d'.(style_rule_count), d'.(hints), d'.(default_fg)) = (d.(style_rule_count), d.(hints), d.(default_fg)) ->
  d'.(style_len) = 0%nat -> doc_inv j d'.
Proof. intros [Hd [H1 H2 H3 H4]] Hw [= E1 E2 E3] Hs. split; [done|]. split; try congruence. lia. Qed.

Lemma skip_to_ok close leave i d :
  (i < length raw)%nat -> doc_inv i d -> (0 < length close)%nat ->
  (doc_wf d -> doc_wf (leave d)) -> sheet (leave d) = sheet d -> round_ok i doc_inv (skip_to close leave raw i d).
Proof.
  intros Hi Hd Hc Hw Hl. unfold skip_to. rewrite slice_tail, bind_ret by lia.
  destruct (find_sub_ci _ _) as [p|]; [|exact Hd]. split; [lia|].
  apply (inv_forward i _ d); [done|lia|apply Hw, Hd|done].
Qed.

Lemma style_round_ok i d :
  (i < length raw)%nat -> d.(in_style) = true -> doc_inv i d -> round_ok i doc_inv (style_round raw i d).
Proof.
  intros Hi Hs Hinv. pose proof Hinv as [Hd [H1 H2 H3 H4]]. unfold style_round. rewrite slice_tail, bind_ret by lia.
  destruct (find_sub_ci _ _) as [p|] eqn:E.
  - assert (style_len d = 0)%nat as Hz. { destruct (decide (style_len d = 0)%nat) as [|Hz]; [done|]. discriminate (H4 Hs ltac:(lia)). }
    unfold apply_styles. rewrite decide_False by lia. rewrite bind_ret. split; [lia|].
    apply (inv_sheet i _ d); [done|by destruct Hd; split; (done || (cbn; lia))|done|done].
  - pose proof (dw_style d Hd). set (n := Nat.min _ _). destruct (decide (0 < n)%nat) as [Hn|Hn].
    + rewrite sub_ok, bind_ret by lia.
      rewrite copy_at_ok, bind_ret by (rewrite length_slice by lia; lia). split; [lia|]. split.
      * destruct Hd. split; try done. cbn. rewrite length_inserts. lia.
      * split; try done. intros _ _. rewrite <-drop_drop. by apply find_sub_ci_drop.
    + split; [lia|]. split; [done|]. split; try done. intros _ _. rewrite drop_all. done.
Qed.

Lemma skip_until_gt_gt i : (i < length raw)%nat -> raw !! i = Some 60 -> (i < skip_until_gt raw i)%nat.
Proof.
  intros Hi H60. unfold skip_until_gt. pose proof (scan_while_ge (not_byte 62) raw i) as Hge.
  set (e := scan_while _ _ _) in *.
  assert (e <> i)%nat. { intros E. assert (raw !! e = Some 60) as H by (by rewrite E). by apply scan_while_stop in H. }
  destruct (decide _); lia.
Qed.

Lemma comment_end_ge fuel i : (i <= comment_end fuel raw i)%nat.
Proof.
  revert i. induction fuel as [|fuel IH]; intros i; cbn [comment_end]; [done|].
  destruct (_ && _); [|done]. specialize (IH (i + 1)%nat). lia.
Qed.

Lemma script_open_ok i d : raw !! i = Some 60 -> doc_inv i d -> round_ok i doc_inv (script_open raw i d).
Proof.
  intros H60 Hd. pose proof (lookup_lt_Some _ _ _ H60). unfold script_open.
  pose proof (scan_while_ge (not_byte 62) raw (i + 1)). set (te := scan_while _ _ _) in *.
  destruct (decide _); [exact Hd|]. rewrite sub_ok, bind_ret by lia.
  eapply returns_bind; [apply script_mime_ok|]. intros js _. split; [lia|].
  apply (inv_forward i _ d); [done|lia| |by destruct js]. destruct Hd as [[] _]. destruct js; by split.
Qed.

Lemma markup_round_ok i d : raw !! i = Some 60 -> doc_inv i d -> round_ok i doc_inv (markup_round raw i d).
Proof.
  intros H60 Hd. pose proof (lookup_lt_Some _ _ _ H60). pose proof (inv_stays i d Hd) as Hst.
  pose proof (skip_until_gt_gt i ltac:(done) H60). unfold markup_round.
  destruct (starts_ci raw i O_comment).
  { pose proof (comment_end_ge (length raw) (i + 4)). apply round_next; [lia|]. apply Hst; [lia|apply Hd|done]. }
  assert (forall d', doc_wf d' -> sheet d' = sheet d -> round_ok i doc_inv (Ret (Next (skip_until_gt raw i) d'))) as Hm.
  { intros d' Hw Hs. apply round_next; [done|]. by apply (inv_forward i _ d); [|lia| |]. }
  assert (doc_wf d) as Hw by apply Hd.
  destruct (existsb _ _); [by apply Hm|]. destruct (starts_ci raw i O_script); [by apply script_open_ok|].
  destruct (starts_ci raw i O_iframe); [apply Hm; [by destruct Hw; split|done]|].
  destruct (starts_ci raw i O_object); [apply Hm; [by destruct Hw; split|done]|].
  destruct (starts_ci raw i O_embed); [by apply Hm|].
  destruct (starts_ci raw i O_style).
  { apply round_next; [done|]. apply (inv_sheet i _ d); [done| |done|done]. destruct Hw; split; (done || (cbn; lia)). }
  destruct (starts_ci raw i O_template); [apply Hm; [by destruct Hw; split|done]|].
  destruct (starts_ci raw i O_title); [apply Hm; [by destruct Hw; split|done]|]. clear Hm.
  pose proof (scan_while_ge (not_byte 62) raw (i + 1)). cbv zeta. set (te := scan_while _ _ _) in *.
  destruct (decide _); [exact Hd|]. rewrite sub_ok, bind_ret by lia.
  apply (round_op i _ d); [by apply tag_element_ok|lia|]. intros. apply Hst; (done || lia).
Qed.

Lemma round_inv i d : (i < length raw)%nat -> doc_inv i d -> round_ok i doc_inv (round raw i d).
Proof.
  intros Hi Hd. destruct (lookup_lt_is_Some_2 raw i Hi) as [ch Hch]. unfold round.
  destruct (full _).
  { apply (inv_forward i i d); [done|lia| |done]. destruct Hd as [Hw _].
    assert (view_wf (d.(view) <| truncated := true |>)) as Hv by (destruct (dw_view d Hw); by split).
    exact (set_view_wf d _ Hw Hv). }
  destruct (in_script d); [apply skip_to_ok; (done || (cbn; lia) || (by intros []; split))|].
  destruct (in_template d); [apply skip_to_ok; (done || (cbn; lia) || (by intros []; split))|].
  destruct (in_iframe d); [apply skip_to_ok; (done || (cbn; lia) || (by intros []; split))|].
  destruct (in_object d); [apply skip_to_ok; (done || (cbn; lia) || (by intros []; split))|].
  destruct (in_title d); [apply skip_to_ok; (done || (cbn; lia) || (by intros []; split))|].
  destruct (in_style d) eqn:Es; [by apply style_round_ok|].
  rewrite (rd_lookup _ _ _ Hch), bind_ret. destruct (decide (ch = 60)) as [->|]; [by apply markup_round_ok|].
  apply text_round_ok; [done|done|apply Hd|by apply inv_stays].
Qed.

Lemma doc_loop_inv fuel i d :
  (length raw - i < fuel)%nat -> doc_inv i d -> returns (fun d' => exists j, doc_inv j d') (doc_loop fuel raw i d).
Proof.
  revert i d. induction fuel as [|fuel IH]; intros i d Hf Hd; [lia|]. cbn [doc_loop].
  destruct (decide (i < length raw)%nat) as [Hi|]; [|by exists i].
  eapply returns_bind; [by apply round_inv|]. intros [j d'|d'].
  - intros [Hj Hd']. apply IH; [lia|done].
  - intros Hd'. by exists i.
Qed.
End rounds.

Lemma note_fits : (length NOTE <= BROWSER_LINE_CAP)%nat.
Proof. vm_compute. lia. Qed.

Lemma ascii_text l : Forall is_ascii l -> utf8_text l.
Proof.
  induction l as [|c l IH] using rev_ind; intros H; [constructor|].
  apply Forall_app in H as [Hl Hc]. constructor; [auto|]. apply ascii_unit. by inversion Hc.
Qed.

Lemma note_line_wf : line_wf {| data := list_inserts 0 (take (length NOTE) NOTE) (replicate BROWSER_LINE_CAP 0);
  line_len := length NOTE; fg := (0x88, 0x55, 0x22) |}.
Proof.
  split; cbn [data line_len]; [done|apply note_fits|].
  rewrite firstn_all. rewrite inserts_split by (rewrite length_replicate; apply note_fits).
  rewrite take_0, app_nil_l, take_app_length. apply ascii_text.
  apply (bool_decide_unpack (Forall (fun c => 0 <= c < 128) NOTE)). by vm_compute.
Qed.

Lemma finish_doc_ok d : doc_wf d -> returns (fun d' => doc_wf d' /\
  (d'.(style_rule_count), d'.(hints), d'.(default_fg)) = (d.(style_rule_count), d.(hints), d.(default_fg))) (finish_doc d).
Proof.
  intros Hd. eapply (returns_weaken (fun d' => doc_wf d' /\ frame d' = frame d)).
  2:{ intros d' [Hw Hf]. split; [done|]. unfold frame in Hf. congruence. }
  fold (op_ok d (finish_doc d)). unfold finish_doc. apply op_bind.
  { apply on_view_ok; [done|]. intros Hv. destruct (_ && _); [|done].
    eapply returns_weaken; [by apply flush_line_wf|by intros ? []]. }
  intros d1 H1 _. destruct (scripts_stripped d1); [|by apply op_ret].
  apply on_view_ok; [done|]. intros Hv. destruct (full _) eqn:E; [done|].
  pose proof note_fits. rewrite Nat.min_l by done. rewrite copy_at_ok, bind_ret by (rewrite length_take, length_replicate; lia).
  eapply returns_weaken; [apply put_line_wf; [done|apply note_line_wf|by apply full_false]|by intros ? []].
Qed.

(** ** Plain text *)

Section plain.
Context (raw : bytes) (Hraw : is_bytes raw).

Lemma lead_len_pos b n : utf8_lead_len b = Some n -> (0 < n)%nat.
Proof. unfold utf8_lead_len. repeat (case_match; [intros [= <-]; lia|]). done. Qed.

Lemma plain_char_ok i b c v :
  raw !! i = Some b -> view_wf v -> returns (fun p => (i < p.1)%nat /\ view_wf p.2) (plain_char raw i b c v).
Proof.
  intros Hb Hv. pose proof (byte_at raw Hraw i b Hb) as Hbyte. unfold is_byte in Hbyte. unfold plain_char.
  assert (forall x, is_ascii x -> returns (fun p => (i < p.1)%nat /\ view_wf p.2) (v ← emit_char x c v; Ret ((i + 1)%nat, v))) as Hc.
  { intros x Hx. eapply returns_bind; [by apply emit_char_wf|]. intros v' Hv'. cbn. split; [lia|done]. }
  destruct (b <? 0x80) eqn:E; [apply Hc; ascii|].
  destruct (utf8_lead_len b) as [n|] eqn:En; [|apply Hc; ascii]. destruct (decide _); [apply Hc; ascii|].
  rewrite sub_ok, bind_ret by lia. destruct (utf8_seq_valid _) eqn:Ev; cbn [negb]; [|apply Hc; ascii].
  eapply returns_bind; [apply emit_slice_cap_wf; [done|eapply slice_unit; [done|done|lia|done]]|].
  intros v' Hv'. pose proof (lead_len_pos b n En). cbn. split; [lia|done].
Qed.

Lemma plain_loop_ok fuel i c v :
  (length raw - i < fuel)%nat -> view_wf v -> returns view_wf (plain_loop fuel raw i c v).
Proof.
  revert i v. induction fuel as [|fuel IH]; intros i v Hf Hv; [lia|]. cbn [plain_loop].
  destruct (decide (i < length raw)%nat) as [Hi|]; [|done].
  destruct (lookup_lt_is_Some_2 raw i Hi) as [b Hb]. rewrite (rd_lookup _ _ _ Hb), bind_ret. destruct (decide _).
  - apply (returns_bind view_wf).
    { destruct (decide _); [|done]. eapply returns_weaken; [by apply flush_line_wf|by intros ? []]. }
    intros v' Hv'. apply IH; [lia|by apply clear_cur_wf].
  - destruct (truncated v); [done|]. eapply returns_bind; [by apply plain_char_ok|].
    intros [j v'] [Hj Hv']. cbn [fst snd] in *. apply IH; [lia|done].
Qed.

Lemma plain_lines_ok c v : view_wf v -> returns view_wf (plain_lines raw c v).
Proof.
  intros Hv. unfold plain_lines. apply (returns_bind view_wf).
  { apply plain_loop_ok; [lia|]. by apply with_cur_wf; [|apply line_new_wf]. }
  intros v' Hv'. destruct (decide _); [|done]. destruct (truncated v'); [done|].
  eapply returns_weaken; [by apply flush_line_wf|by intros ? []].
Qed.
End plain.

(** ** Whole documents *)

Lemma doc_new_inv raw body scratch v :
  view_wf v -> doc_inv raw body 0 (Doc_new body scratch v).
Proof.
  intros Hv. split; [|by split]. split; try (done || (cbn; lia)).
  - cbn. by apply (with_cur_wf v); [|apply line_new_wf].
  - split; [done|]. apply Forall_replicate. split; [done|cbn; lia].
Qed.

Lemma render_html_ok raw body scratch v :
  is_bytes raw -> view_wf v ->
  returns (fun d => doc_wf d /\ d.(style_rule_count) = 0%nat /\ d.(hints) = hints0 body /\ d.(default_fg) = body)
    (render_html raw body scratch v).
Proof.
  intros Hraw Hv. unfold render_html. eapply returns_bind.
  { apply (doc_loop_inv raw Hraw body); [lia|by apply doc_new_inv]. }
  intros d (j & Hd & [H1 H2 H3 _]). eapply returns_weaken; [by apply finish_doc_ok|].
  intros d' [Hw [= E1 E2 E3]]. split_and!; [done|congruence..].
Qed.

(** The statics of the renderer between two pages. *)
Record statics_wf (st : HtmlStatics) : Prop := {
  sw_lines : length st.(st_lines) = BROWSER_MAX_LINES;
  sw_all : Forall line_wf st.(st_lines);
  sw_nodes : length st.(st_dom).(nodes) = DOM_MAX_NODES;
  sw_text : length st.(st_dom).(text) = DOM_TEXT_ARENA;
}.

Lemma statics_view st c :
  statics_wf st -> view_wf {| lines := st.(st_lines); line_count := 0; truncated := false; cur := BrowserLine_new c |}.
Proof. intros []. split; cbn; [done|done|lia|apply line_new_wf]. Qed.

Lemma format_document_ok raw body st : is_bytes raw -> statics_wf st ->
  returns (fun r => statics_wf r.(rd_statics) /\ (r.(rd_line_count) <= BROWSER_MAX_LINES)%nat /\
    dom_holds r.(rd_statics).(st_dom) (dom_lines raw)) (format_document raw body st).
Proof.
  intros Hraw Hst. pose proof (statics_view st body Hst) as Hv. pose proof Hst as [S1 S2 S3 S4].
  destruct (build_text_dom_eq raw _ S3 S4) as (dom & Ed & Hd). pose proof Hd as [D1 D2 _ _ _ _ _].
  unfold format_document. rewrite Ed, bind_ret. destruct (looks_like_html raw); cbn [negb].
  - eapply returns_bind; [by apply render_html_ok|]. intros d ([[V1 V2 V3 V4] _ _ _ _ _ _ _ _] & _).
    cbn. split_and!; [by split|done|done].
  - eapply returns_bind; [by apply plain_lines_ok|]. intros v' [V1 V2 V3 V4]. cbn. split_and!; [by split|done|done].
Qed.

(** C5: whatever bytes a server sends as a page, [format_document] returns: no index
    is out of range, no loop runs for ever, the line table holds at most 128
    lines, and the text of every line is at most 96 bytes of whole UTF-8
    sequences - a character is never cut at a line's end.  The statics are as
    good for the next page, and the text DOM holds the page's lines. *)
Theorem format_document_safe raw body st :
  is_bytes raw -> statics_wf st ->
  exists r, format_document raw body st = Ret r /\ statics_wf r.(rd_statics) /\
    (r.(rd_line_count) <= BROWSER_MAX_LINES)%nat /\ dom_holds r.(rd_statics).(st_dom) (dom_lines raw).
Proof. intros Hraw Hst. by apply returns_ex, format_document_ok. Qed.

Lemma statics_initial_wf : statics_wf HtmlStatics_initial.
Proof. split; [reflexivity|apply Forall_replicate, line_new_wf|reflexivity|vm_compute; reflexivity]. Qed.

Lemma format_document_safe_witness :
  exists r, format_document (bs "<html><p>&#955;<li>x") (1, 2, 3) HtmlStatics_initial = Ret r /\
    statics_wf r.(rd_statics) /\ (r.(rd_line_count) <= BROWSER_MAX_LINES)%nat /\
    dom_holds r.(rd_statics).(st_dom) (dom_lines (bs "<html><p>&#955;<li>x")).
Proof.
  apply format_document_safe; [apply (bool_decide_unpack (is_bytes _)); by vm_compute|apply statics_initial_wf].
Defined.

(** No style sheet is ever applied: whatever a page's [<style>] elements contain,
    the renderer ends with no rule, the default colours and the default text
    colour - the text of a sheet is collected only when its closing tag is
    missing, and read only when it is there. *)
Theorem style_sheets_ignored raw body scratch v :
  is_bytes raw -> view_wf v ->
  exists d, render_html raw body scratch v = Ret d /\
    d.(style_rule_count) = 0%nat /\ d.(hints) = hints0 body /\ d.(default_fg) = body.
Proof.
  intros Hraw Hv. destruct (proj1 (returns_ex _ _) (render_html_ok raw body scratch v Hraw Hv)) as (d & E & _ & H). eauto.
Qed.

Lemma style_sheets_ignored_witness :
  exists d, render_html (bs "<html><style>p{color:red}</style><p>x") (1, 2, 3) [] {|
      lines := HTML_RENDER_LINES; line_count := 0; truncated := false; cur := BrowserLine_new (1, 2, 3) |} = Ret d /\
    d.(style_rule_count) = 0%nat /\ d.(hints) = hints0 (1, 2, 3) /\ d.(default_fg) = (1, 2, 3).
Proof.
  apply style_sheets_ignored; [apply (bool_decide_unpack (is_bytes _)); by vm_compute|].
  apply (statics_view HtmlStatics_initial), statics_initial_wf.
Defined.
