(* ===== verification/HtmlText.v ===== *)
(** * What the HTML renderer shows

    Pages as a sequence of characters, references, hidden elements, comments and
    inline tags: the renderer shows exactly the characters, wrapped at 96
    columns; what a script, a template or a comment contains has no effect.
    Plain text is wrapped line by line. *)

From S2P Require Import Prelude Dom HtmlCss Html HtmlSafe.

(** ** Rows of 96 *)

Definition line_text (l : BrowserLine) : bytes := take l.(line_len) l.(data).

Fixpoint rows_loop (fuel : nat) (p : bytes) : list bytes :=
  match fuel with
  | O => []
  | S fuel => match p with [] => [] | _ => take BROWSER_LINE_CAP p :: rows_loop fuel (drop BROWSER_LINE_CAP p) end
  end.
Definition rows (p : bytes) : list bytes := rows_loop (length p) p.

Lemma rows_loop_fuel n m p : (length p <= n)%nat -> (length p <= m)%nat -> rows_loop n p = rows_loop m p.
Proof.
  revert m p. induction n as [|n IH]; intros m p Hn Hm; [destruct p; [by destruct m|cbn in Hn; lia]|].
  destruct m as [|m]; [destruct p; [done|cbn in Hm; lia]|]. cbn [rows_loop]. destruct p as [|x p]; [done|].
  f_equal. apply IH; rewrite length_drop; cbn in *; unfold BROWSER_LINE_CAP; lia.
Qed.

Lemma rows_step p : p <> [] -> rows p = take BROWSER_LINE_CAP p :: rows (drop BROWSER_LINE_CAP p).
Proof.
  intros Hp. unfold rows. destruct p as [|x p]; [done|]. cbn [length rows_loop]. f_equal.
  apply rows_loop_fuel; rewrite length_drop; cbn; unfold BROWSER_LINE_CAP; lia.
Qed.

Lemma rows_cons l p : length l = BROWSER_LINE_CAP -> rows (l ++ p) = l :: rows p.
Proof.
  intros Hl. rewrite rows_step by (intros [-> _]%app_nil; done). by rewrite <-Hl, take_app_length, drop_app_length.
Qed.

Lemma rows_short p : p <> [] -> (length p <= BROWSER_LINE_CAP)%nat -> rows p = [p].
Proof. intros Hp Hl. by rewrite rows_step, take_ge, drop_ge. Qed.

(** Full rows and a last one. *)
Lemma rows_full ls l :
  Forall (fun l => length l = BROWSER_LINE_CAP) ls -> l <> [] -> (length l <= BROWSER_LINE_CAP)%nat ->
  rows (concat ls ++ l) = ls ++ [l].
Proof.
  intros H Hl Hn. induction H as [|x ls Hx _ IH]; cbn [concat app]; [by apply rows_short|].
  by rewrite <-app_assoc, rows_cons, IH.
Qed.

Lemma length_concat_rows ls :
  Forall (fun l : bytes => length l = BROWSER_LINE_CAP) ls -> length (concat ls) = (BROWSER_LINE_CAP * length ls)%nat.
Proof. induction 1 as [|x ls Hx _ IH]; cbn [concat length]; [lia|]. rewrite length_app, Hx, IH. lia. Qed.

(** ** Lines that show a text *)

Definition VIEW_CAP : nat := BROWSER_LINE_CAP * BROWSER_MAX_LINES.

(** The lines of [v] and the one being built are [p], cut into rows. *)
Record view_shows (before : list bytes) (p : bytes) (v : View) : Prop := {
  vs_lines : length v.(lines) = BROWSER_MAX_LINES;
  vs_data : length v.(cur).(data) = BROWSER_LINE_CAP;
  vs_len : (v.(cur).(line_len) <= BROWSER_LINE_CAP)%nat;
  vs_count : (v.(line_count) <= BROWSER_MAX_LINES)%nat;
  vs_text : exists full, line_text <$> take v.(line_count) v.(lines) = before ++ full /\
    Forall (fun l => length l = BROWSER_LINE_CAP) full /\ p = concat full ++ line_text v.(cur) /\
    (v.(cur).(line_len) = 0%nat -> p = []);
}.

(** A byte behind the text of the current line, when it has room. *)
Lemma push_byte_shows before p c v :
  view_shows before p v -> (v.(cur).(line_len) < BROWSER_LINE_CAP)%nat ->
  exists v', push_byte c v = Ret v' /\ view_shows before (p ++ [c]) v' /\
    v'.(line_count) = v.(line_count) /\ v'.(truncated) = v.(truncated) /\ (0 < v'.(cur).(line_len))%nat.
Proof.
  intros [H1 H2 H3 H4 (full & F1 & F2 & F3 & F4)] Hl. unfold push_byte. rewrite wr_ok, bind_ret by lia.
  eexists. split; [done|]. split_and!; [|done|done|cbn; lia]. split; cbn; [done|by rewrite length_insert|lia|done|].
  exists full. split_and!; [done|done| |lia].
  rewrite take_insert_snoc by lia. by rewrite F3, <-app_assoc.
Qed.

(** A full current line goes to the table. *)
Lemma flush_shows before p c v :
  view_shows before p v -> v.(cur).(line_len) = BROWSER_LINE_CAP -> (v.(line_count) < BROWSER_MAX_LINES)%nat ->
  exists v', (v ← flush_line v; Ret (clear_cur c v)) = Ret v' /\ v'.(line_count) = S v.(line_count) /\
    v'.(truncated) = v.(truncated) /\
    length v'.(lines) = BROWSER_MAX_LINES /\ length v'.(cur).(data) = BROWSER_LINE_CAP /\ v'.(cur).(line_len) = 0%nat /\
    exists full, line_text <$> take v'.(line_count) v'.(lines) = before ++ full /\
      Forall (fun l => length l = BROWSER_LINE_CAP) full /\ p = concat full.
Proof.
  intros [H1 H2 H3 H4 (full & F1 & F2 & F3 & F4)] Hl Hc. unfold flush_line.
  rewrite (proj2 (full_false v)) by done. unfold put_line. rewrite wr_ok, !bind_ret by lia.
  eexists. split; [done|]. cbn. rewrite length_insert. split_and!; try done.
  exists (full ++ [line_text v.(cur)]). rewrite take_insert_snoc, fmap_app, F1 by lia. split_and!.
  - by rewrite <-app_assoc.
  - apply Forall_app_2; [done|]. constructor; [|done]. unfold line_text. rewrite length_take. lia.
  - rewrite concat_app. cbn. by rewrite app_nil_r.
Qed.

(** After a flush the first byte of the next line. *)
Lemma push_first before full c v :
  length v.(lines) = BROWSER_MAX_LINES -> length v.(cur).(data) = BROWSER_LINE_CAP -> v.(cur).(line_len) = 0%nat ->
  (v.(line_count) <= BROWSER_MAX_LINES)%nat ->
  line_text <$> take v.(line_count) v.(lines) = before ++ full ->
  Forall (fun l => length l = BROWSER_LINE_CAP) full ->
  exists v', push_byte c v = Ret v' /\ view_shows before (concat full ++ [c]) v' /\
    v'.(line_count) = v.(line_count) /\ v'.(truncated) = v.(truncated) /\ (0 < v'.(cur).(line_len))%nat.
Proof.
  intros H1 H2 H3 H4 F1 F2. unfold push_byte. assert (0 < BROWSER_LINE_CAP)%nat by (unfold BROWSER_LINE_CAP; lia).
  rewrite wr_ok, bind_ret by lia. eexists. split; [done|]. split_and!; [|done|done|cbn; lia].
  split; cbn; [done|by rewrite length_insert|lia|done|]. exists full. split_and!; [done|done| |lia].
  rewrite take_insert_snoc by lia. by rewrite H3, take_0.
Qed.

Lemma emit_char_shows before p c g v :
  view_shows before p v -> (v.(line_count) < BROWSER_MAX_LINES)%nat ->
  exists v', emit_char_cap c g BROWSER_LINE_CAP v = Ret v' /\ view_shows before (p ++ [c]) v' /\
    v'.(truncated) = v.(truncated) /\ (0 < v'.(cur).(line_len))%nat.
Proof.
  intros Hv Hc. unfold emit_char_cap. change (limit_of BROWSER_LINE_CAP) with BROWSER_LINE_CAP. cbv zeta.
  destruct (decide (BROWSER_LINE_CAP <= v.(cur).(line_len))%nat) as [Hl|Hl].
  - pose proof (vs_len _ _ _ Hv). destruct (flush_shows before p g v Hv) as (v1 & E & C1 & T1 & L1 & D1 & Z1 & full & F1 & F2 & F3); [lia|done|].
    rewrite E, bind_ret. rewrite decide_True by (rewrite Z1; unfold BROWSER_LINE_CAP; lia).
    destruct (push_first before full c v1) as (v2 & E2 & S2 & C2 & T2 & L2); [done|done|done|lia|done|done|].
    exists v2. rewrite F3. split_and!; [done|done|congruence|done].
  - rewrite bind_ret, decide_True by lia.
    destruct (push_byte_shows before p c v Hv ltac:(lia)) as (v2 & E2 & S2 & C2 & T2 & L2). eauto.
Qed.

(** [emit_char] of plain text does the same. *)
Lemma emit_char_cap_eq c g v : emit_char c g v = emit_char_cap c g BROWSER_LINE_CAP v.
Proof.
  unfold emit_char, emit_char_cap. change (limit_of BROWSER_LINE_CAP) with BROWSER_LINE_CAP. cbv zeta.
  destruct (decide _) as [Hl|Hl].
  - unfold flush_line. destruct (full v) eqn:E.
    + cbn. by rewrite andb_false_r.
    + destruct (put_line _ _) as [v'|]; [|done]. cbn. by rewrite andb_false_r.
  - cbn. rewrite bool_decide_eq_false_2 by done. by rewrite andb_false_r.
Qed.

(** The room left, from the length of the text. *)
Lemma view_shows_count p v :
  view_shows [] p v -> (length p = BROWSER_LINE_CAP * v.(line_count) + v.(cur).(line_len))%nat.
Proof.
  intros [H1 H2 H3 H4 (full & F1 & F2 & F3 & F4)]. apply (f_equal length) in F1.
  rewrite length_fmap, length_take in F1. cbn in F1.
  assert (v.(line_count) = length full) as -> by lia.
  rewrite F3, length_app, length_concat_rows by done. unfold line_text. rewrite length_take. lia.
Qed.

(** There is room for another character: no line is beyond the table. *)
Lemma view_shows_room p v :
  view_shows [] p v -> (length p < VIEW_CAP)%nat ->
  (v.(line_count) < BROWSER_MAX_LINES)%nat /\
  (v.(cur).(line_len) = BROWSER_LINE_CAP -> S v.(line_count) < BROWSER_MAX_LINES)%nat.
Proof.
  intros Hv Hp. rewrite (view_shows_count p v Hv) in Hp. pose proof (vs_len _ _ _ Hv).
  unfold VIEW_CAP, BROWSER_LINE_CAP, BROWSER_MAX_LINES in *. lia.
Qed.

Lemma not_full p v : view_shows [] p v -> (length p <= VIEW_CAP)%nat -> full v = false.
Proof.
  intros Hv Hp. apply full_false. pose proof (view_shows_count p v Hv) as Hc. destruct (vs_text _ _ _ Hv) as (f & _ & _ & _ & F4).
  destruct (decide (v.(cur).(line_len) = 0)%nat) as [Hz|Hz].
  - rewrite (F4 Hz) in Hc. cbn [length] in Hc. unfold BROWSER_LINE_CAP, BROWSER_MAX_LINES in *. lia.
  - unfold VIEW_CAP, BROWSER_LINE_CAP, BROWSER_MAX_LINES in *. lia.
Qed.

(** A one-byte slice is a character. *)
Lemma emit_slice_single p c g v :
  view_shows [] p v -> (length p < VIEW_CAP)%nat ->
  emit_slice_cap [c] g BROWSER_LINE_CAP v = emit_char_cap c g BROWSER_LINE_CAP v.
Proof.
  intros Hv Hp. destruct (view_shows_room p v Hv Hp) as [Hc1 Hc2]. pose proof (vs_len _ _ _ Hv). pose proof (vs_data _ _ _ Hv).
  unfold emit_slice_cap, emit_char_cap. change (limit_of BROWSER_LINE_CAP) with BROWSER_LINE_CAP. cbv zeta.
  assert (1 < BROWSER_LINE_CAP)%nat by (unfold BROWSER_LINE_CAP; lia).
  rewrite !decide_False by (done || (cbn; lia)). cbn [make_room length].
  destruct (decide (v.(cur).(line_len) < BROWSER_LINE_CAP)%nat) as [Hl|Hl].
  - rewrite !(decide_False (P := (BROWSER_LINE_CAP < _)%nat)), !bind_ret by lia. cbn [negb].
    rewrite (decide_False (P := (BROWSER_LINE_CAP < _)%nat)) by lia.
    rewrite (decide_False (P := (BROWSER_LINE_CAP <= _)%nat)), !bind_ret, decide_True by lia.
    unfold push_byte. rewrite wr_ok, copy_at_ok, !bind_ret by (cbn; lia). cbn. by rewrite Nat.add_1_r.
  - rewrite (decide_True (P := (BROWSER_LINE_CAP < _)%nat)), (decide_True (P := (BROWSER_LINE_CAP <= _)%nat)) by lia.
    destruct (flush_shows [] p g v Hv) as (v1 & E & C1 & T1 & L1 & D1 & Z1 & _); [lia|done|].
    rewrite E, bind_ret. destruct (flush_line v) as [v0|] eqn:E0; [|done]. cbn in E. injection E as <-. cbn [mbind rust_bind].
    rewrite (proj2 (full_false _)) by (rewrite C1; specialize (Hc2 ltac:(lia)); lia).
    rewrite (decide_False (P := (BROWSER_LINE_CAP < _)%nat)), bind_ret by (rewrite Z1; lia). cbn [negb].
    rewrite (decide_False (P := (BROWSER_LINE_CAP < _)%nat)) by (rewrite Z1; lia).
    rewrite decide_True by (rewrite Z1; lia). unfold push_byte.
    rewrite wr_ok, copy_at_ok, !bind_ret by (rewrite Z1; cbn in *; lia). done.
Qed.

(** ** The renderer's state between two items *)

Record showing (p : bytes) (stripped : bool) (d : Doc) : Prop := {
  sh_view : view_shows [] p d.(view);
  sh_trunc : d.(view).(truncated) = false;
  sh_stripped : d.(scripts_stripped) = stripped;
  sh_modes : (d.(in_script), d.(in_template), d.(in_iframe), d.(in_object), d.(in_title), d.(in_style)) =
             (false, false, false, false, false, false);
  sh_rules : d.(style_rule_count) = 0%nat;
  sh_box : (d.(active_indent), d.(active_width)) = (0, WIDTH0);
  sh_fgs : length d.(fg_stack) = 12%nat;
  sh_fg_sp : (d.(fg_sp) <= 12)%nat;
}.

(** What [showing] depends on, apart from the lines. *)
Lemma showing_view p q b d v :
  showing p b d -> view_shows [] q v -> v.(truncated) = false -> showing q b (d <| view := v |>).
Proof. intros [] Hv Ht. by split. Qed.

Lemma emit_shows p b c d :
  showing p b d -> (length p < VIEW_CAP)%nat -> exists d', emit c d = Ret d' /\ showing (p ++ [c]) b d'.
Proof.
  intros Hd Hp. destruct (view_shows_room p _ (sh_view _ _ _ Hd) Hp) as [Hc _].
  destruct (emit_char_shows [] p c d.(cur_fg) d.(view) (sh_view _ _ _ Hd) Hc) as (v' & E & Hv & Ht & _).
  unfold emit, on_view, width_cap. pose proof (sh_box _ _ _ Hd) as [= _ ->]. change (Z.to_nat WIDTH0) with BROWSER_LINE_CAP.
  rewrite E, bind_ret. eexists. split; [done|]. apply (showing_view p); [done|done|]. by rewrite Ht, (sh_trunc _ _ _ Hd).
Qed.

Lemma emit_slice_shows p b c d :
  showing p b d -> (length p < VIEW_CAP)%nat -> exists d', emit_slice [c] d = Ret d' /\ showing (p ++ [c]) b d'.
Proof.
  intros Hd Hp. destruct (emit_shows p b c d Hd Hp) as (d' & E & Hd'). exists d'. split; [|done]. rewrite <-E.
  unfold emit_slice, emit, on_view, width_cap. pose proof (sh_box _ _ _ Hd) as [= _ ->].
  change (Z.to_nat WIDTH0) with BROWSER_LINE_CAP. by rewrite (emit_slice_single p) by (try apply Hd; done).
Qed.

(** There is no indent. *)
Lemma indent_shows p b d : showing p b d -> indent d = Ret d.
Proof.
  intros Hd. unfold indent. pose proof (sh_box _ _ _ Hd) as [= -> _]. by destruct (decide _).
Qed.

(** ** Literals *)

Lemma starts_ci_nil s : starts_ci s 0 [] = true.
Proof. done. Qed.

Lemma starts_ci_cons x s c pat : starts_ci (x :: s) 0 (c :: pat) = (to_lower x =? c) && starts_ci s 0 pat.
Proof.
  unfold starts_ci. cbn [length drop take fmap list_fmap]. rewrite !drop_0.
  destruct (decide (length s < length pat)%nat) as [Hl|Hl].
  - rewrite decide_True, (decide_True (P := (length s < 0 + _)%nat)) by lia. by rewrite andb_false_r.
  - rewrite decide_False, (decide_False (P := (length s < 0 + _)%nat)) by lia.
    destruct (to_lower x =? c) eqn:E; cbn [andb].
    + apply Z.eqb_eq in E. rewrite E. apply bool_decide_ext. split; [by intros [= ->]|by intros ->].
    + apply bool_decide_eq_false. intros [= H _]. lia.
Qed.

Lemma starts_ci_end c pat : starts_ci [] 0 (c :: pat) = false.
Proof. done. Qed.

Lemma starts_ci_at s i pat : (i <= length s)%nat -> starts_ci s i pat = starts_ci (drop i s) 0 pat.
Proof.
  intros Hi. unfold starts_ci. rewrite length_drop, drop_0.
  destruct (decide (length s < i + length pat)%nat); [by rewrite decide_True by lia|by rewrite decide_False by lia].
Qed.

Lemma starts_ci_app s t pat : starts_ci s 0 pat = true -> starts_ci (s ++ t) 0 pat = true.
Proof.
  revert s. induction pat as [|c pat IH]; intros s; [done|]. destruct s as [|x s]; [done|].
  cbn [app]. rewrite !starts_ci_cons, !andb_true_iff. intros [? ?]. auto.
Qed.

Lemma starts_ci_app_false s t pat :
  starts_ci s 0 pat = false -> (length pat <= length s)%nat -> starts_ci (s ++ t) 0 pat = false.
Proof.
  revert s. induction pat as [|c pat IH]; intros s; [done|]. destruct s as [|x s]; [cbn; lia|].
  cbn [app length]. rewrite !starts_ci_cons, !andb_false_iff. intros [?|?] ?; [by left|right; apply IH; [done|lia]].
Qed.

(** A mismatch in the known part decides. *)
Lemma lit_mismatch s t pat : starts_ci s 0 (take (length s) pat) = false -> starts_ci (s ++ t) 0 pat = false.
Proof.
  revert pat. induction s as [|x s IH]; intros pat; [by rewrite take_0|]. destruct pat as [|c pat]; [done|].
  cbn [length take app]. rewrite !starts_ci_cons, !andb_false_iff. intros [?|?]; [by left|right; by apply IH].
Qed.

(** The first occurrence stays the first one whatever follows. *)
Lemma find_sub_from_app s t pat k p :
  find_sub_from s pat k = Some p -> find_sub_from (s ++ t) pat k = Some p.
Proof.
  revert k. induction s as [|x s IH]; intros k H.
  - cbn [find_sub_from] in H. destruct (starts_ci [] 0 pat) eqn:E; [|done].
    destruct pat; [|done]. injection H as <-. by destruct t.
  - pose proof (find_sub_from_bound _ _ _ _ H) as [Hk Hb]. cbn [find_sub_from app] in *.
    change (x :: s ++ t) with ((x :: s) ++ t). destruct (starts_ci (x :: s) 0 pat) eqn:E.
    + by rewrite (starts_ci_app (x :: s) t pat E).
    + rewrite (starts_ci_app_false (x :: s) t pat E) by (cbn in *; lia). by apply IH.
Qed.

Lemma find_sub_ci_app s t pat p : find_sub_ci s pat = Some p -> find_sub_ci (s ++ t) pat = Some p.
Proof.
  unfold find_sub_ci. destruct (decide _) as [|H]; [done|]. intros Hf.
  rewrite decide_False by (rewrite length_app; intros [?|?]; apply H; [by left|lia]). by apply find_sub_from_app.
Qed.

(** ** Pages *)

(** Elements whose contents are not part of the page. *)
Inductive hidden := HScript | HTemplate | HIframe | HObject | HTitle.

#[export] Instance hidden_eq_dec : EqDecision hidden.
Proof. solve_decision. Defined.

Definition hidden_open (h : hidden) : bytes :=
  match h with
  | HScript => O_script | HTemplate => O_template | HIframe => O_iframe | HObject => O_object
  | HTitle => O_title
  end.
Definition hidden_close (h : hidden) : bytes :=
  match h with
  | HScript => C_script | HTemplate => C_template | HIframe => C_iframe | HObject => C_object
  | HTitle => C_title
  end.

(** [Txt c enc]: the character [c], written [enc]; [Blank]: a space or a tab. *)
Inductive item :=
  | Txt (c : Z) (enc : bytes)
  | Blank (b : Z)
  | Hidden (h : hidden) (attrs body : bytes)
  | Dropped (name attrs : bytes)
  | Comment (body : bytes)
  | Open (name : bytes)
  | Close (name : bytes).

Definition GT : Z := 62.
Definition S_comment_end : bytes := [45; 45; 62].

Definition enc_item (x : item) : bytes :=
  match x with
  | Txt _ enc => enc
  | Blank b => [b]
  | Hidden h attrs body => hidden_open h ++ attrs ++ GT :: body ++ hidden_close h
  | Dropped name attrs => name ++ attrs ++ [GT]
  | Comment body => O_comment ++ body ++ S_comment_end
  | Open name => 60 :: name ++ [GT]
  | Close name => 60 :: 47 :: name ++ [GT]
  end.
Definition enc_items (xs : list item) : bytes := xs ≫= enc_item.

(** The text with an item behind it: blanks collapse into one space, and there
    is none at the start. *)
Definition item_after (p : bytes) (x : item) : bytes :=
  match x with
  | Txt c _ => p ++ [c]
  | Blank _ => if decide (p = [] \/ last p = Some 32) then p else p ++ [32]
  | _ => p
  end.
Definition items_after (p : bytes) (xs : list item) : bytes := fold_left item_after xs p.
Definition items_text (xs : list item) : bytes := items_after [] xs.

Lemma items_after_length xs p : (length p <= length (items_after p xs))%nat.
Proof.
  revert p. induction xs as [|x xs IH]; intros p; [done|]. cbn [items_after fold_left].
  transitivity (length (item_after p x)); [|apply IH].
  destruct x; cbn [item_after]; try case_decide; rewrite ?length_app; lia.
Qed.

(** The value of a string of digits. *)
Definition num_value (base : Z) (l : bytes) (v : Z) : Z := fold_left (fun v c => v * base + default 0 (hex_val c)) l v.

(** Printable characters, and the ways to write them. *)
Inductive char_ref (c : Z) : bytes -> Prop :=
  | ref_plain : 33 <= c < 127 -> c <> 38 -> c <> 60 -> char_ref c [c]
  | ref_named name : (c, name) ∈ [(32, E_nbsp); (38, E_amp); (60, E_lt); (62, E_gt); (34, E_quot)] -> char_ref c name
  | ref_dec ds : 32 <= c < 127 -> ds <> [] -> Forall (fun x => is_digit x = true) ds -> num_value 10 ds 0 = c ->
      char_ref c ([38; 35] ++ ds ++ [59])
  | ref_hex x hs : 32 <= c < 127 -> x = 120 \/ x = 88 -> hs <> [] -> Forall (fun x => is_hex x = true) hs ->
      num_value 16 hs 0 = c -> char_ref c ([38; 35; x] ++ hs ++ [59]).

Definition no_gt (l : bytes) : Prop := Forall (fun c => not_byte GT c = true) l.

Definition DROPPED : list bytes := Eval vm_compute in (bs <$> ["<meta"; "<link"; "<base"; "<embed"]%string).

Definition item_ok (x : item) : Prop :=
  match x with
  | Txt c enc => char_ref c enc
  | Blank b => b = 9 \/ b = 32
  | Hidden h attrs body => no_gt attrs /\ find_sub_ci (body ++ hidden_close h) (hidden_close h) = Some (length body)
  | Dropped name attrs => name ∈ DROPPED /\ no_gt attrs
  | Comment body => forall k, (k < length body)%nat -> take 3 (drop k (body ++ S_comment_end)) <> S_comment_end
  | Open name | Close name => name ∈ N_styled
  end.

(** A script that counts as one: not data. *)
Definition strips (x : item) : bool :=
  match x with
  | Hidden HScript attrs _ =>
      match script_mime_is_non_javascript (O_script ++ attrs ++ [GT]) with Ret b => negb b | Panic => false end
  | _ => false
  end.

(** ** Runs of the loop *)

Section runs.
Context (raw : bytes).

(** [i] and [d] lead to [j] and [d'], in at most as many rounds as bytes. *)
Definition run (i : nat) (d : Doc) (j : nat) (d' : Doc) : Prop :=
  (i <= j)%nat /\ exists n, (n <= j - i)%nat /\ forall f, doc_loop (n + f) raw i d = doc_loop f raw j d'.

Lemma run_refl i d : run i d i d.
Proof. split; [lia|]. exists 0%nat. split; [lia|done]. Qed.

Lemma run_trans i d j d1 k d2 : run i d j d1 -> run j d1 k d2 -> run i d k d2.
Proof.
  intros (H1 & n & Hn & En) (H2 & m & Hm & Em). split; [lia|]. exists (n + m)%nat. split; [lia|].
  intros f. by rewrite <-Nat.add_assoc, En.
Qed.

Lemma run_round i d j d' : (i < length raw)%nat -> (i < j)%nat -> round raw i d = Ret (Next j d') -> run i d j d'.
Proof.
  intros Hi Hj E. split; [lia|]. exists 1%nat. split; [lia|]. intros f. cbn [Nat.add doc_loop].
  by rewrite decide_True, E, bind_ret by done.
Qed.

Lemma drop_lt i x rest : drop i raw = x :: rest -> (i < length raw)%nat /\ raw !! i = Some x.
Proof.
  intros H. split.
  - destruct (decide (i < length raw)%nat); [done|]. by rewrite drop_ge in H by lia.
  - rewrite <-(Nat.add_0_r i), <-lookup_drop, H. done.
Qed.

Lemma drop_step i l rest : drop i raw = l ++ rest -> drop (i + length l) raw = rest.
Proof. intros H. by rewrite <-drop_drop, H, drop_app_length. Qed.

(** A round of text or markup between two items. *)
Lemma round_showing p b d i x rest :
  showing p b d -> (length p <= VIEW_CAP)%nat -> drop i raw = x :: rest ->
  round raw i d = (if decide (x = 60) then markup_round raw i d else text_round raw i x d).
Proof.
  intros Hd Hp Hr. apply drop_lt in Hr as [Hi Hx]. unfold round.
  rewrite (not_full p _ (sh_view _ _ _ Hd) Hp). pose proof (sh_modes _ _ _ Hd) as [= -> -> -> -> -> ->].
  by rewrite (rd_lookup _ _ _ Hx), bind_ret.
Qed.

Lemma at_drop i l pat : drop i raw = l -> l <> [] -> starts_ci raw i pat = starts_ci l 0 pat.
Proof.
  intros H Hl. rewrite starts_ci_at, H; [done|]. destruct (decide (i <= length raw)%nat); [done|].
  rewrite drop_ge in H by lia. by subst.
Qed.

Lemma sub_drop i l : drop i raw = l -> l <> [] -> sub raw i (length raw) = Ret l.
Proof.
  intros H Hl. rewrite sub_ok, slice_full, H; [done|]. split; [|done]. destruct (decide (i <= length raw)%nat); [done|].
  rewrite drop_ge in H by lia. by subst.
Qed.

(** ** Characters *)

Lemma plain_run p b d i c rest :
  showing p b d -> (length p < VIEW_CAP)%nat -> drop i raw = c :: rest -> 33 <= c < 127 -> c <> 38 -> c <> 60 ->
  exists d', run i d (i + 1) d' /\ showing (p ++ [c]) b d'.
Proof.
  intros Hd Hp Hr Hc H38 H60. destruct (emit_shows p b c d Hd Hp) as (d' & E & Hd'). exists d'. split; [|done].
  pose proof (drop_lt _ _ _ Hr) as [Hi _]. apply run_round; [done|lia|].
  rewrite (round_showing p b d i c rest) by (done || lia). rewrite decide_False by done.
  unfold text_round. rewrite (decide_False (P := (c = 38))) by done. rewrite bind_ret, !decide_False by lia.
  unfold char_round. rewrite (indent_shows p b d Hd), bind_ret. replace (c <? 128) with true by lia. by rewrite E.
Qed.

(** A blank. *)
Lemma blank_run p b d i c rest :
  showing p b d -> (length (item_after p (Blank c)) <= VIEW_CAP)%nat -> drop i raw = c :: rest -> c = 9 \/ c = 32 ->
  exists d', run i d (i + 1) d' /\ showing (item_after p (Blank c)) b d'.
Proof.
  intros Hd Hp Hr Hc. pose proof (drop_lt _ _ _ Hr) as [Hi _].
  assert (length p <= VIEW_CAP)%nat as Hp'.
  { pose proof (items_after_length [Blank c] p) as Hl. cbn [items_after fold_left] in Hl. lia. }
  assert (exists d', blank_round i d = Ret (Next (i + 1) d') /\ showing (item_after p (Blank c)) b d')
    as (d' & E & Hd').
  2:{ exists d'. split; [|done]. apply run_round; [done|lia|].
      rewrite (round_showing p b d i c rest) by done. rewrite decide_False by lia. unfold text_round.
      rewrite (decide_False (P := (c = 38))), bind_ret, decide_False, decide_True by lia. exact E. }
  unfold blank_round. pose proof (sh_view _ _ _ Hd) as [H1 H2 H3 H4 (full & F1 & F2 & F3 & F4)].
  cbv zeta. cbn [item_after] in *. destruct (decide (0 < line_len (cur (view d)))%nat) as [Hl|Hl].
  - destruct (lookup_lt_is_Some_2 (data (cur (view d))) (line_len (cur (view d)) - 1)) as [x Hx]; [lia|].
    assert (last p = Some x) as Ex.
    { rewrite F3. unfold line_text. replace (line_len (cur (view d))) with (S (line_len (cur (view d)) - 1)) by lia.
      by rewrite (take_S_r _ _ x Hx), app_assoc, last_snoc. }
    rewrite (rd_lookup _ _ _ Hx), bind_ret. rewrite Ex in *. destruct (decide (x = 32)) as [->|Hne].
    + rewrite (decide_True (P := p = [] \/ _)) by (by right). rewrite decide_False, bind_ret by tauto. by exists d.
    + assert (~ (p = [] \/ Some x = Some 32)) as Hno by (intros [->|E]; [done|congruence]).
      rewrite decide_False in Hp by exact Hno. rewrite (decide_False (P := p = [] \/ _)) by exact Hno.
      rewrite length_app in Hp. cbn [length] in Hp.
      rewrite decide_True by done. destruct (emit_shows p b 32 d Hd ltac:(lia)) as (d' & -> & Hd'). by exists d'.
  - rewrite decide_True by (left; apply F4; lia). by exists d.
Qed.

(** A reference that the entity round reads as [c]. *)
Lemma ref_run p b d i c (enc : bytes) rest :
  showing p b d -> (length p < VIEW_CAP)%nat -> drop i raw = 38 :: rest ->
  (entity_round raw i d = (d' ← emit c d; Ret (Some (Next (i + length enc) d'))) \/
   entity_round raw i d = (d' ← emit_slice [c] d; Ret (Some (Next (i + length enc) d')))) -> (0 < length enc)%nat ->
  exists d', run i d (i + length enc) d' /\ showing (p ++ [c]) b d'.
Proof.
  intros Hd Hp Hr He Hl. pose proof (drop_lt _ _ _ Hr) as [Hi _].
  assert (exists d', entity_round raw i d = Ret (Some (Next (i + length enc) d')) /\ showing (p ++ [c]) b d') as (d' & E & Hd').
  { destruct He as [E|E].
    - destruct (emit_shows p b c d Hd Hp) as (d' & E' & Hd'). exists d'. by rewrite E, E'.
    - destruct (emit_slice_shows p b c d Hd Hp) as (d' & E' & Hd'). exists d'. by rewrite E, E'. }
  exists d'. split; [|done]. apply run_round; [done|lia|].
  rewrite (round_showing p b d i 38 rest) by (done || lia). rewrite (decide_False (P := (38 = 60))) by done.
  unfold text_round. rewrite (decide_True (P := (38 = 38))) by done. by rewrite E.
Qed.

Ltac lits := repeat first
  [ rewrite starts_ci_app by (vm_compute; reflexivity)
  | rewrite lit_mismatch by (vm_compute; reflexivity) ].

Lemma named_entity p b d i c name rest :
  showing p b d -> (c, name) ∈ [(32, E_nbsp); (38, E_amp); (60, E_lt); (62, E_gt); (34, E_quot)] ->
  drop i raw = name ++ rest ->
  entity_round raw i d = (d' ← emit c d; Ret (Some (Next (i + length name) d'))) /\ exists l, name = 38 :: l.
Proof.
  intros Hd Hn Hr.
  repeat (apply elem_of_cons in Hn as [[= -> ->]|Hn];
    [split; [|by eexists]; unfold entity_round; rewrite (sub_drop i _ Hr), bind_ret by done; lits;
     rewrite ?(indent_shows p b d Hd), ?bind_ret; reflexivity|]).
  by apply elem_of_nil in Hn.
Qed.

(** ** Numeric references *)

Lemma hex_val_digit x : is_digit x = true -> is_hex x = true.
Proof. intros H. unfold is_hex. apply bool_decide_eq_true. unfold hex_val. rewrite H. by eexists. Qed.

Lemma hex_val_range x : is_hex x = true -> exists v, hex_val x = Some v /\ 0 <= v < 16.
Proof.
  unfold is_hex. intros [v Hv]%bool_decide_eq_true. exists v. split; [done|]. revert Hv.
  unfold hex_val, is_digit. repeat case_match; intros [= <-]; lia.
Qed.

Lemma num_value_ge base l v :
  1 <= base -> 0 <= v -> Forall (fun x => is_hex x = true) l -> v <= num_value base l v.
Proof.
  intros Hb Hv H. revert v Hv. induction H as [|x l Hx _ IH]; intros v Hv; [cbn; lia|].
  destruct (hex_val_range x Hx) as (d & E & Hd). unfold num_value. cbn [fold_left]. rewrite E. cbn [default].
  specialize (IH (v * base + d) ltac:(nia)). unfold num_value in IH. etrans; [|exact IH]. cbn. nia.
Qed.

Lemma entity_value_spec base l v :
  1 <= base -> 0 <= v -> Forall (fun x => is_hex x = true) l -> num_value base l v < 2 ^ 32 ->
  entity_value base l v = Some (num_value base l v).
Proof.
  intros Hb Hv H. revert v Hv. induction H as [|x l Hx Hl IH]; intros v Hv Hn; [done|].
  destruct (hex_val_range x Hx) as (d & E & Hd). cbn [entity_value]. rewrite E. cbn [mbind option_bind].
  assert (num_value base (x :: l) v = num_value base l (v * base + d)) as En by (unfold num_value; cbn [fold_left]; by rewrite E).
  rewrite En in *. pose proof (num_value_ge base l (v * base + d) Hb ltac:(nia) Hl).
  unfold checked_u32. rewrite (decide_True (P := (v * base < 2 ^ 32))) by lia. cbn [mbind option_bind].
  rewrite decide_True by lia. cbn [mbind option_bind]. apply IH; [nia|done].
Qed.

Lemma scan_lit (q : Z -> bool) l1 l2 x rest i :
  i = length l1 -> Forall (fun y => q y = true) l2 -> q x = false ->
  scan_while q (l1 ++ l2 ++ x :: rest) i = (i + length l2)%nat.
Proof. intros -> H Hx. unfold scan_while. by rewrite drop_app_length, span_len_stop. Qed.

Lemma slice_lit {A} (l1 l2 l3 : list A) i j :
  i = length l1 -> j = (i + length l2)%nat -> slice (l1 ++ l2 ++ l3) i j = l2.
Proof. intros -> ->. apply slice_app_mid. Qed.

(** Digits between a prefix and the semicolon. *)
Lemma numeric_entity (hex : bool) pre ds rest c :
  pre = (if hex then [38; 35; 120] else [38; 35]) \/ hex = true /\ pre = [38; 35; 88] ->
  ds <> [] -> Forall (fun x => (if hex then is_hex else is_digit) x = true) ds ->
  num_value (if hex then 16 else 10) ds 0 = c -> 0 <= c <= 0x10FFFF ->
  parse_numeric_entity ((pre ++ ds ++ [59]) ++ rest) = Some (c, length (pre ++ ds ++ [59])).
Proof.
  intros Hpre Hds Hall Hv Hc.
  assert (Forall (fun x => is_hex x = true) ds) as Hhex.
  { destruct hex; [done|]. eapply Forall_impl; [exact Hall|]. apply hex_val_digit. }
  destruct ds as [|y ds0] eqn:Ed; [done|]. rewrite <-Ed in *.
  assert (length ds <> 0)%nat as Hlen by (rewrite Ed; cbn; lia).
  assert (is_hex y = true) as Hy by (rewrite Ed in Hhex; by inversion Hhex).
  assert (hex = false -> is_digit y = true) as Hy10 by (intros ->; rewrite Ed in Hall; by inversion Hall).
  rewrite <-!app_assoc. set (s := pre ++ ds ++ [59] ++ rest).
  assert (length pre = if hex then 3 else 2)%nat as Hpl by (destruct Hpre as [->|[-> ->]]; [by destruct hex|done]).
  assert (at_byte s 0 38 = true /\ at_byte s 1 35 = true /\ (at_byte s 2 120 || at_byte s 2 88) = hex) as (A0 & A1 & A2).
  { unfold s. destruct Hpre as [->|[-> ->]]; [destruct hex|]; split_and!; try done.
    rewrite Ed. unfold at_byte. cbn. specialize (Hy10 eq_refl). apply is_digit_spec in Hy10.
    rewrite !bool_decide_eq_false_2 by congruence || (intros [= ->]; lia). done. }
  unfold parse_numeric_entity. rewrite decide_False.
  2:{ unfold s. rewrite !length_app, Hpl. cbn. destruct hex; lia. }
  rewrite A0, A1, A2. cbn [negb orb].
  assert ((if hex then 3 else 2)%nat = length pre) as Hst by done. cbv zeta. rewrite Hst.
  assert (scan_while (if hex then is_hex else is_digit) s (length pre) = (length pre + length ds)%nat) as Hsc.
  { unfold s. apply (scan_lit _ pre ds 59 rest); [done| |by destruct hex]. by destruct hex. }
  rewrite Hsc. assert (at_byte s (length pre + length ds) 59 = true) as A3.
  { unfold at_byte, s. apply bool_decide_eq_true. rewrite lookup_app_r by lia. rewrite lookup_app_r by lia.
    by replace (length pre + length ds - length pre - length ds)%nat with 0%nat by lia. }
  rewrite A3, bool_decide_eq_false_2 by lia. cbn [negb orb].
  unfold s at 1. rewrite (slice_lit pre ds) by done.
  rewrite entity_value_spec by (done || (destruct hex; lia) || (rewrite Hv; lia)). cbn [mbind option_bind].
  rewrite Hv, decide_False by lia. do 2 f_equal. rewrite !length_app. cbn. lia.
Qed.

Lemma encode_ascii c : 32 <= c < 127 -> encode_utf8 (char_of c) = [c].
Proof. intros Hc. unfold char_of. replace ((0xD800 <=? c) && _) with false by lia. unfold encode_utf8. by replace (c <? 128) with true by lia. Qed.

Lemma numeric_round p b d i c (hex : bool) pre ds rest :
  showing p b d -> pre = (if hex then [38; 35; 120] else [38; 35]) \/ hex = true /\ pre = [38; 35; 88] ->
  ds <> [] -> Forall (fun x => (if hex then is_hex else is_digit) x = true) ds ->
  num_value (if hex then 16 else 10) ds 0 = c -> 32 <= c < 127 ->
  drop i raw = (pre ++ ds ++ [59]) ++ rest ->
  entity_round raw i d = (d' ← emit_slice [c] d; Ret (Some (Next (i + length (pre ++ ds ++ [59])) d'))).
Proof.
  intros Hd Hpre Hds Hall Hv Hc Hr. unfold entity_round.
  assert (exists l, (pre ++ ds ++ [59]) ++ rest = [38; 35] ++ l) as [l El].
  { destruct Hpre as [->|[_ ->]]; [destruct hex|]; by eexists. }
  rewrite (sub_drop i _ Hr), bind_ret by (by rewrite El). rewrite El. lits. rewrite <-El.
  rewrite (numeric_entity hex pre ds rest c) by (done || lia). by rewrite encode_ascii.
Qed.

Lemma char_run p b d i c enc rest :
  showing p b d -> (length p < VIEW_CAP)%nat -> drop i raw = enc ++ rest -> char_ref c enc ->
  exists d', run i d (i + length enc) d' /\ showing (p ++ [c]) b d'.
Proof.
  intros Hd Hp Hr Hc. destruct Hc as [H1 H2 H3|name Hn|ds H1 H2 H3 H4|x hs H1 Hx H2 H3 H4].
  - cbn [length]. by apply (plain_run p b d i c rest).
  - destruct (named_entity p b d i c name rest Hd Hn Hr) as [E [l ->]].
    apply (ref_run p b d i c (38 :: l) (l ++ rest)); [done|done|done|by left|cbn; lia].
  - apply (ref_run p b d i c _ ([35] ++ (ds ++ [59]) ++ rest)); [done|done|by rewrite Hr, <-!app_assoc| |cbn; lia].
    right. by apply (numeric_round p b d i c false [38; 35] ds rest); try done; left.
  - apply (ref_run p b d i c _ ([35; x] ++ (hs ++ [59]) ++ rest)); [done|done|by rewrite Hr, <-!app_assoc| |cbn; lia].
    right. apply (numeric_round p b d i c true [38; 35; x] hs rest); try done.
    destruct Hx as [->| ->]; [by left|by right].
Qed.

(** ** Markup *)

Lemma markup_next p b d i x rest j d' :
  showing p b d -> (length p <= VIEW_CAP)%nat -> drop i raw = 60 :: rest -> (i < j)%nat ->
  x = 60 -> markup_round raw i d = Ret (Next j d') -> run i d j d'.
Proof.
  intros Hd Hp Hr Hj -> E. pose proof (drop_lt _ _ _ Hr) as [Hi _]. apply run_round; [done|done|].
  by rewrite (round_showing p b d i 60 rest), decide_True.
Qed.

Lemma not_full_mode p b d : showing p b d -> (length p <= VIEW_CAP)%nat -> full d.(view) = false.
Proof. intros Hd. apply not_full, Hd. Qed.

Lemma no_gt_app l1 l2 : no_gt l1 -> no_gt l2 -> no_gt (l1 ++ l2).
Proof. apply Forall_app_2. Qed.

(** The first [>] behind [l]. *)
Lemma skip_until_gt_at i l rest : drop i raw = l ++ GT :: rest -> no_gt l -> skip_until_gt raw i = (i + length l + 1)%nat.
Proof.
  intros Hr Hl. unfold skip_until_gt, scan_while. rewrite Hr, (span_len_stop _ _ _ _ Hl) by done.
  rewrite decide_True; [done|]. apply (f_equal length) in Hr. rewrite length_drop, length_app in Hr. cbn in Hr. lia.
Qed.

Lemma gt_scan i x l rest :
  drop i raw = (x :: l) ++ GT :: rest -> no_gt (x :: l) -> scan_while (not_byte 62) raw (i + 1) = (i + length (x :: l))%nat.
Proof.
  intros Hr Hl. unfold scan_while. rewrite <-drop_drop, Hr. cbn [app drop length].
  inversion Hl; subst. rewrite drop_0, (span_len_stop _ l GT) by done. lia.
Qed.

Lemma sub_lit i x l rest : drop i raw = (x :: l) ++ rest -> sub raw i (i + length (x :: l)) = Ret (x :: l).
Proof.
  intros Hr. pose proof (f_equal length Hr) as Hlen. rewrite length_drop, length_app in Hlen. cbn [length] in *.
  rewrite sub_ok by lia. unfold slice. rewrite Hr. replace (i + S (length l) - i)%nat with (length (x :: l)) by (cbn; lia).
  by rewrite take_app_length.
Qed.

(** Names as literals in front of what follows. *)
Lemma starts_at i l rest pat : drop i raw = l ++ rest -> l <> [] -> starts_ci raw i pat = starts_ci (l ++ rest) 0 pat.
Proof. intros Hr Hl. apply at_drop; [done|]. by intros [-> _]%app_nil. Qed.

Lemma dropped_run p b d i name attrs rest :
  showing p b d -> (length p <= VIEW_CAP)%nat -> name ∈ DROPPED -> no_gt attrs ->
  drop i raw = enc_item (Dropped name attrs) ++ rest ->
  run i d (i + length (enc_item (Dropped name attrs))) d.
Proof.
  intros Hd Hp Hn Ha Hr. cbn [enc_item] in *. rewrite <-!app_assoc in Hr.
  assert (no_gt name /\ exists l, name = 60 :: l) as [Hng [l Hl]].
  { repeat (apply elem_of_cons in Hn as [->|Hn]; [split; [|by eexists]; apply (bool_decide_unpack (no_gt _)); by vm_compute|]).
    by apply elem_of_nil in Hn. }
  assert (skip_until_gt raw i = i + length (name ++ attrs ++ [GT]))%nat as Hs.
  { rewrite (skip_until_gt_at i (name ++ attrs) rest) by (by rewrite <-?app_assoc || by apply no_gt_app).
    rewrite !length_app. cbn. lia. }
  apply (markup_next p b d i 60 (l ++ attrs ++ [GT] ++ rest)); [done|done|by rewrite Hr, Hl| |done|].
  { rewrite !length_app. cbn. lia. }
  unfold markup_round. unfold O_dropped; cbn [existsb]. rewrite !(starts_at i name _ _ Hr) by (by rewrite Hl). rewrite <-Hs.
  repeat (apply elem_of_cons in Hn as [->|Hn]; [by lits|]). by apply elem_of_nil in Hn.
Qed.

(** *** Hidden elements *)

Definition enter (h : hidden) (d : Doc) : Doc :=
  match h with
  | HScript => d <| in_script := true |>
  | HTemplate => d <| in_template := true |>
  | HIframe => d <| in_iframe := true |>
  | HObject => d <| in_object := true |>
  | HTitle => d <| in_title := true |>
  end.
Definition leave (h : hidden) (d : Doc) : Doc :=
  match h with
  | HScript => d <| in_script := false |>
  | HTemplate => d <| in_template := false |>
  | HIframe => d <| in_iframe := false |>
  | HObject => d <| in_object := false |>
  | HTitle => d <| in_title := false |>
  end.

Lemma leave_enter h p b d : showing p b d -> showing p b (leave h (enter h d)).
Proof. intros [H1 H2 H3 H4 H5 H6 H7 H8]. injection H4 as G1 G2 G3 G4 G5 G6. split; destruct h; cbn in *; congruence. Qed.

(** What is inside is skipped. *)
Lemma hidden_inside h p b d j body rest :
  showing p b d -> (length p <= VIEW_CAP)%nat -> drop j raw = body ++ hidden_close h ++ rest ->
  find_sub_ci (body ++ hidden_close h) (hidden_close h) = Some (length body) ->
  run j (enter h d) (j + length (body ++ hidden_close h)) (leave h (enter h d)).
Proof.
  intros Hd Hp Hr Hf. apply (find_sub_ci_app _ rest) in Hf. rewrite <-app_assoc in Hf.
  assert (0 < length (hidden_close h))%nat by (destruct h; cbn; lia).
  assert (body ++ hidden_close h ++ rest <> []) as Hne. { intros [_ [E _]%app_nil]%app_nil. by rewrite E in *. }
  assert (j < length raw)%nat as Hj. { destruct (decide (j < length raw)%nat); [done|]. by rewrite drop_ge in Hr by lia. }
  pose proof (not_full_mode p b d Hd Hp) as Hfull. pose proof (sh_modes _ _ _ Hd) as [= M1 M2 M3 M4 M5 M6].
  apply run_round; [done|rewrite length_app; lia|]. rewrite length_app.
  assert (forall c l d', c = hidden_close h -> skip_to c l raw j d' = Ret (Next (j + (length body + length c)) (l d'))) as Hsk.
  { intros c l d' ->. unfold skip_to. by rewrite (sub_drop j _ Hr Hne), bind_ret, Hf. }
  unfold round.
  destruct h; cbn [enter leave hidden_close view in_script in_template in_iframe in_object in_title in_style] in *;
    cbn; rewrite ?Hfull, ?M1, ?M2, ?M3, ?M4, ?M5; by rewrite Hsk.
Qed.

Lemma hidden_open_shape h : no_gt (hidden_open h) /\ exists l, hidden_open h = 60 :: l.
Proof. destruct h; (split; [apply (bool_decide_unpack (no_gt _)); by vm_compute|by eexists]). Qed.

Definition strip_flag (h : hidden) (attrs : bytes) : bool := strips (Hidden h attrs []).

(** The opening tag. *)
Lemma hidden_begin h p b d i attrs rest :
  showing p b d -> (length p <= VIEW_CAP)%nat -> no_gt attrs ->
  drop i raw = hidden_open h ++ attrs ++ GT :: rest ->
  exists d1, showing p (b || strip_flag h attrs) d1 /\
    run i d (i + length (hidden_open h ++ attrs ++ [GT])) (enter h d1).
Proof.
  intros Hd Hp Ha Hr. destruct (hidden_open_shape h) as [Hng [l Hl]].
  assert (no_gt (hidden_open h ++ attrs)) as Hoa by by apply no_gt_app.
  assert (skip_until_gt raw i = i + length (hidden_open h ++ attrs ++ [GT]))%nat as Hs.
  { rewrite (skip_until_gt_at i (hidden_open h ++ attrs) rest) by (by rewrite <-?app_assoc). rewrite !length_app. cbn. lia. }
  assert (forall d1, markup_round raw i d = Ret (Next (i + length (hidden_open h ++ attrs ++ [GT])) (enter h d1)) ->
    run i d (i + length (hidden_open h ++ attrs ++ [GT])) (enter h d1)) as Hrun.
  { intros d1 E. apply (markup_next p b d i 60 (l ++ attrs ++ GT :: rest)); [done|done|by rewrite Hr, Hl| |done|done].
    rewrite !length_app. cbn. lia. }
  assert (markup_round raw i d = if decide (h = HScript) then script_open raw i d
                                 else Ret (Next (skip_until_gt raw i) (enter h d))) as Em.
  { unfold markup_round, O_dropped; cbn [existsb]. rewrite !(starts_at i (hidden_open h) _ _ Hr) by (by rewrite Hl).
    destruct h; cbn [hidden_open]; by lits. }
  destruct (decide (h = HScript)) as [->|Hh].
  - set (js := script_mime_is_non_javascript (O_script ++ attrs ++ [GT])) in *.
    destruct (proj1 (returns_ex _ _) (script_mime_ok (O_script ++ attrs ++ [GT]))) as (dt & Edt & _).
    exists (if dt then d else d <| scripts_stripped := true |>). split.
    + unfold strip_flag, strips. rewrite Edt. destruct dt; cbn [negb]; [by rewrite orb_false_r|].
      rewrite orb_true_r. by destruct Hd; split.
    + apply Hrun. rewrite Em. unfold script_open. cbn [hidden_open] in *.
      destruct (O_script ++ attrs) as [|x l0] eqn:El; [done|].
      assert (drop i raw = (x :: l0) ++ GT :: rest) as Hr' by (by rewrite <-El, <-app_assoc).
      rewrite (gt_scan i x l0 rest Hr' Hoa). rewrite decide_False.
      2:{ apply (f_equal length) in Hr'. rewrite length_drop, length_app in Hr'. cbn in *. lia. }
      assert (drop i raw = (x :: l0 ++ [GT]) ++ rest) as Hr'' by (rewrite Hr'; cbn; by rewrite <-app_assoc).
      assert (O_script ++ attrs ++ [GT] = x :: l0 ++ [GT]) as Ea by (by rewrite app_assoc, El).
      rewrite Ea in *. replace (i + length (x :: l0) + 1)%nat with (i + length (x :: l0 ++ [GT]))%nat
        by (cbn; rewrite length_app; cbn; lia).
      rewrite (sub_lit i x (l0 ++ [GT]) rest Hr''), bind_ret, Edt, bind_ret. by destruct dt.
  - exists d. split; [|apply Hrun; rewrite Em, Hs; done].
    unfold strip_flag, strips. destruct h; by rewrite ?orb_false_r.
Qed.

Lemma hidden_run h p b d i attrs body rest :
  showing p b d -> (length p <= VIEW_CAP)%nat -> item_ok (Hidden h attrs body) ->
  drop i raw = enc_item (Hidden h attrs body) ++ rest ->
  exists d', run i d (i + length (enc_item (Hidden h attrs body))) d' /\ showing p (b || strips (Hidden h attrs body)) d'.
Proof.
  intros Hd Hp [Ha Hf] Hr. cbn [enc_item] in *. rewrite <-!app_assoc in Hr. cbn [app] in Hr. rewrite <-app_assoc in Hr.
  destruct (hidden_begin h p b d i attrs (body ++ hidden_close h ++ rest)) as (d1 & H1 & R1); [done..|].
  eexists. split; [|apply (leave_enter h), H1].
  eapply run_trans; [exact R1|]. set (j := (i + length (hidden_open h ++ attrs ++ [GT]))%nat).
  assert (drop j raw = body ++ hidden_close h ++ rest) as Hj.
  { apply drop_step. by rewrite Hr, <-!app_assoc. }
  pose proof (hidden_inside h p _ d1 j body rest H1 Hp Hj Hf) as R2.
  replace (i + length (hidden_open h ++ attrs ++ GT :: body ++ hidden_close h))%nat
    with (j + length (body ++ hidden_close h))%nat; [exact R2|].
  unfold j. rewrite !length_app. cbn [length]. rewrite !length_app. lia.
Qed.

(** *** Comments *)

Lemma at_comment_end j l :
  drop j raw = l -> (at_byte raw j 45 && at_byte raw (j + 1) 45 && at_byte raw (j + 2) 62) = bool_decide (take 3 l = S_comment_end).
Proof.
  intros <-. unfold at_byte. rewrite <-!lookup_drop.
  assert (raw !! j = drop j raw !! 0%nat) as -> by (rewrite lookup_drop; f_equal; lia).
  destruct (drop j raw) as [|x [|y [|z l]]]; cbn; unfold S_comment_end; rewrite ?take_0;
    repeat case_bool_decide; cbn; congruence.
Qed.

Lemma comment_end_spec fuel j body rest :
  drop j raw = body ++ S_comment_end ++ rest -> (length body < fuel)%nat ->
  (forall k, (k < length body)%nat -> take 3 (drop k (body ++ S_comment_end)) <> S_comment_end) ->
  comment_end fuel raw j = (j + length body)%nat.
Proof.
  revert j body. induction fuel as [|fuel IH]; intros j body Hr Hf Hb; [lia|]. cbn [comment_end].
  rewrite (at_comment_end j _ Hr). destruct body as [|x body].
  - cbn [app]. assert (take 3 (S_comment_end ++ rest) = S_comment_end) as -> by apply (take_app_length S_comment_end).
    rewrite (bool_decide_eq_true_2 (S_comment_end = _)) by done. cbn [negb length]. by rewrite andb_false_r, Nat.add_0_r.
  - pose proof (f_equal length Hr) as Hl. rewrite length_drop, !length_app in Hl. cbn in Hl.
    rewrite bool_decide_eq_true_2 by lia. rewrite bool_decide_eq_false_2.
    2:{ specialize (Hb 0%nat ltac:(cbn; lia)). rewrite drop_0 in Hb. rewrite app_assoc, take_app_le; [done|].
        rewrite length_app. cbn. lia. }
    cbn [andb negb length]. rewrite (IH (j + 1)%nat body); [lia| |cbn in Hf; lia|].
    + rewrite <-drop_drop, Hr. cbn. by rewrite drop_0.
    + intros k Hk. apply (Hb (S k)). cbn. lia.
Qed.

Lemma comment_run p b d i body rest :
  showing p b d -> (length p <= VIEW_CAP)%nat -> item_ok (Comment body) ->
  drop i raw = enc_item (Comment body) ++ rest -> run i d (i + length (enc_item (Comment body))) d.
Proof.
  intros Hd Hp Hb Hr. cbn [enc_item item_ok] in *. rewrite <-!app_assoc in Hr.
  apply (markup_next p b d i 60 ([33; 45; 45] ++ body ++ S_comment_end ++ rest)); [done|done|by rewrite Hr| |done|].
  { rewrite !length_app. cbn. lia. }
  unfold markup_round. rewrite (starts_at i O_comment _ _ Hr) by done. lits.
  pose proof (f_equal length Hr) as Hl. rewrite length_drop, !length_app in Hl. cbn in Hl.
  rewrite (comment_end_spec _ (i + 4) body rest); [|by apply (drop_step i O_comment)|lia|done].
  do 2 f_equal. rewrite !length_app. cbn. lia.
Qed.

(** *** Inline tags *)

Lemma showing_set_fg p b c d : showing p b d -> showing p b (set_fg c d).
Proof.
  intros [H1 H2 H3 H4 H5 H6 H7 H8]. split; try done. destruct H1 as [G1 G2 G3 G4 G5]. by split.
Qed.

Lemma push_fg_shows p b d : showing p b d -> exists d', push_fg d = Ret d' /\ showing p b d'.
Proof.
  intros Hd. unfold push_fg. destruct (decide _) as [Hl|]; [|by exists d]. rewrite wr_ok, bind_ret by done.
  eexists. split; [done|]. pose proof (sh_fgs _ _ _ Hd). destruct Hd. split; try done; cbn; [by rewrite length_insert|lia].
Qed.

Lemma styled_shows p b c d : showing p b d -> exists d', styled c d = Ret d' /\ showing p b d'.
Proof.
  intros Hd. unfold styled. destruct (push_fg_shows p b d Hd) as (d' & -> & Hd'). rewrite bind_ret.
  eexists. split; [done|]. by apply showing_set_fg.
Qed.

Lemma pop_fg_shows p b d : showing p b d -> exists d', pop_fg d = Ret d' /\ showing p b d'.
Proof.
  intros Hd. unfold pop_fg. destruct (decide _) as [Hl|]; cbv zeta.
  - pose proof (sh_fg_sp _ _ _ Hd). pose proof (sh_fgs _ _ _ Hd).
    destruct (rd_lt d.(fg_stack) (d.(fg_sp) - 1)) as [c ->]; [lia|]. rewrite bind_ret. eexists. split; [done|].
    apply showing_set_fg. destruct Hd. split; try done. cbn. lia.
  - eexists. split; [done|]. by apply showing_set_fg.
Qed.

(** Evaluates the tests on a concrete tag name. *)
Ltac names := repeat match goal with
  | |- context [name_in ?a ?b] => let v := eval vm_compute in (name_in a b) in change (name_in a b) with v
  | |- context [name_is ?a ?b] => let v := eval vm_compute in (name_is a b) in change (name_is a b) with v
  end; cbv iota.

Ltac each_name H := repeat (apply elem_of_cons in H as [->|H]; [|]); [..|by apply elem_of_nil in H].

(** A tag that is just [<name] or [</name]. *)
Lemma tag_element_open name d :
  name ∈ N_styled -> tag_element (60 :: name) d = (c ← computed_style (60 :: name) name d; open_tag (60 :: name) name c d).
Proof. intros Hn. each_name Hn; reflexivity. Qed.

Lemma tag_element_close name d : name ∈ N_styled -> tag_element (60 :: 47 :: name) d = close_tag name d.
Proof. intros Hn. each_name Hn; reflexivity. Qed.

Lemma computed_style_plain name d :
  name ∈ N_styled -> d.(style_rule_count) = 0%nat -> computed_style (60 :: name) name d = Ret BoxStyle_empty.
Proof. intros Hn Hr. unfold computed_style. rewrite Hr. cbn [take]. each_name Hn; reflexivity. Qed.

Lemma open_tag_styled tag name d : name ∈ N_styled -> exists c, open_tag tag name BoxStyle_empty d = styled c d.
Proof.
  intros Hn. unfold open_tag. rewrite (decide_False (P := (display BoxStyle_empty = DisplayNone))) by done.
  each_name Hn; names; by eexists.
Qed.

Lemma close_tag_styled name d : name ∈ N_styled -> close_tag name d = (d ← pop_fg d; Ret d).
Proof. intros Hn. unfold close_tag. each_name Hn; names; reflexivity. Qed.

Lemma inline_element_shows (close : bool) name p b d :
  name ∈ N_styled -> showing p b d ->
  exists d', tag_element (if close then 60 :: 47 :: name else 60 :: name) d = Ret d' /\ showing p b d'.
Proof.
  intros Hn Hd. destruct close.
  - rewrite tag_element_close, close_tag_styled by done. destruct (pop_fg_shows p b d Hd) as (d' & -> & Hd'). by exists d'.
  - rewrite tag_element_open, computed_style_plain, bind_ret by (try apply Hd; done).
    destruct (open_tag_styled (60 :: name) name d Hn) as [c ->]. by apply styled_shows.
Qed.

Lemma styled_no_gt name : name ∈ N_styled -> no_gt name.
Proof. intros Hn. each_name Hn; apply (bool_decide_unpack (no_gt _)); by vm_compute. Qed.

(** The tags that [markup_round] recognises before it looks for the tag's end. *)
Definition MARKUP : list bytes :=
  O_comment :: O_script :: O_iframe :: O_object :: O_embed :: O_style :: O_template :: O_title :: O_dropped.

Definition plain_tag (tag : bytes) : Prop :=
  head tag = Some 60 /\ no_gt tag /\
  Forall (fun pat => starts_ci (tag ++ [GT]) 0 (take (length (tag ++ [GT])) pat) = false) MARKUP.
#[local] Instance plain_tag_dec tag : Decision (plain_tag tag).
Proof. unfold plain_tag, no_gt. apply _. Defined.

Lemma tag_run p b d i tag rest d' :
  showing p b d -> (length p <= VIEW_CAP)%nat -> plain_tag tag -> drop i raw = tag ++ GT :: rest ->
  tag_element tag d = Ret d' -> run i d (i + S (length tag)) d'.
Proof.
  intros Hd Hp (Hh & Hg & Hm) Hr E. destruct tag as [|x l]; [done|]. injection Hh as ->.
  assert (forall pat, pat ∈ MARKUP -> starts_ci raw i pat = false) as Hno.
  { intros pat Hpat. rewrite (starts_at i (60 :: l) _ _ Hr) by done.
    change (GT :: rest) with ([GT] ++ rest). rewrite app_assoc. apply lit_mismatch.
    by apply (proj1 (Forall_forall _ _) Hm). }
  apply (markup_next p b d i 60 (l ++ GT :: rest)); [done|done|done|cbn; lia|done|].
  unfold markup_round, O_dropped; cbn [existsb]. rewrite !Hno by (apply (bool_decide_unpack (_ ∈ _)); by vm_compute).
  cbn [orb]. rewrite (gt_scan i 60 l rest Hr Hg). rewrite decide_False.
  2:{ apply (f_equal length) in Hr. rewrite length_drop, length_app in Hr. cbn in *. lia. }
  rewrite (sub_lit i 60 l (GT :: rest) Hr), bind_ret, E, bind_ret. do 2 f_equal. lia.
Qed.

Lemma inline_plain (close : bool) name : name ∈ N_styled -> plain_tag (if close then 60 :: 47 :: name else 60 :: name).
Proof.
  intros Hn. assert (Forall (fun n => plain_tag (if close then 60 :: 47 :: n else 60 :: n)) N_styled) as H.
  { apply (bool_decide_unpack (Forall _ _)). destruct close; vm_compute; exact I. }
  by apply (proj1 (Forall_forall _ _) H).
Qed.

Lemma inline_run (close : bool) name p b d i rest :
  showing p b d -> (length p <= VIEW_CAP)%nat -> name ∈ N_styled ->
  drop i raw = (if close then 60 :: 47 :: name else 60 :: name) ++ GT :: rest ->
  exists d', run i d (i + S (length (if close then 60 :: 47 :: name else 60 :: name))) d' /\ showing p b d'.
Proof.
  intros Hd Hp Hn Hr. destruct (inline_element_shows close name p b d Hn Hd) as (d' & E & Hd'). exists d'. split; [|done].
  by apply (tag_run p b d i _ rest); [| |apply inline_plain| |].
Qed.

(** *** All items *)

Lemma item_run x p b d i rest :
  showing p b d -> (length (item_after p x) <= VIEW_CAP)%nat -> item_ok x -> drop i raw = enc_item x ++ rest ->
  exists d', run i d (i + length (enc_item x)) d' /\ showing (item_after p x) (b || strips x) d'.
Proof.
  intros Hd Hp Hx Hr.
  destruct x as [c enc|c|h attrs body|name attrs|body|name|name]; cbn [strips]; rewrite ?orb_false_r;
    [|by apply (blank_run p b d i c rest)|..]; cbn [item_after] in *.
  - rewrite length_app in Hp. cbn [length] in Hp. by apply (char_run p b d i c enc rest); [|lia| |].
  - apply hidden_run with rest; [done|lia|done|done].
  - destruct Hx as [Hn Ha]. exists d. split; [|done]. by apply (dropped_run p b d i name attrs rest); [|lia| | |].
  - exists d. split; [|done]. by apply (comment_run p b d i body rest); [|lia| |].
  - cbn [enc_item app] in Hr. rewrite <-app_assoc in Hr.
    destruct (inline_run false name p b d i rest) as (d' & R & Hd'); [done|lia|done|done|]. exists d'. split; [|done].
    cbn [enc_item length] in *. rewrite length_app, Nat.add_1_r. exact R.
  - cbn [enc_item app] in Hr. rewrite <-app_assoc in Hr.
    destruct (inline_run true name p b d i rest) as (d' & R & Hd'); [done|lia|done|done|]. exists d'. split; [|done].
    cbn [enc_item length] in *. rewrite length_app, Nat.add_1_r. exact R.
Qed.

Lemma items_run xs p b d i rest :
  showing p b d -> (length (items_after p xs) <= VIEW_CAP)%nat -> Forall item_ok xs -> drop i raw = enc_items xs ++ rest ->
  exists d', run i d (i + length (enc_items xs)) d' /\ showing (items_after p xs) (b || existsb strips xs) d'.
Proof.
  intros Hd Hp Hx. revert p b d i Hd Hp. induction Hx as [|x xs Hx _ IH]; intros p b d i Hd Hp Hr.
  { exists d. cbn. rewrite Nat.add_0_r, orb_false_r. split; [apply run_refl|done]. }
  change (enc_items (x :: xs)) with (enc_item x ++ enc_items xs) in *.
  change (items_after p (x :: xs)) with (items_after (item_after p x) xs) in *. rewrite <-app_assoc in Hr.
  pose proof (items_after_length xs (item_after p x)) as Hl.
  destruct (item_run x p b d i _ Hd ltac:(lia) Hx Hr) as (d1 & R1 & H1).
  destruct (IH _ _ d1 (i + length (enc_item x))%nat H1 Hp) as (d2 & R2 & H2); [by apply drop_step|].
  exists d2. cbn [existsb]. rewrite orb_assoc. split; [|done].
  eapply run_trans; [exact R1|]. by rewrite length_app, Nat.add_assoc.
Qed.

(** At the end of the page. *)
Lemma run_end i d d' : run i d (length raw) d' -> (i = 0)%nat -> doc_loop (S (length raw)) raw i d = Ret d'.
Proof.
  intros (_ & n & Hn & E) ->. replace (S (length raw)) with (n + S (length raw - n))%nat by lia. rewrite E.
  cbn [doc_loop]. by rewrite decide_False by lia.
Qed.
End runs.

(** ** Whole pages *)

Definition HTML : bytes := [60; 104; 116; 109; 108].
Definition html_page (xs : list item) : bytes := HTML ++ GT :: enc_items xs.

Definition shown (r : Rendered) : list bytes := line_text <$> take r.(rd_line_count) r.(rd_statics).(st_lines).

(** The note about scripts, when there is a line left. *)
Definition note_lines (stripped : bool) (n : nat) : list bytes :=
  if stripped && bool_decide (n < BROWSER_MAX_LINES)%nat then [NOTE] else [].

Lemma flush_rows p v :
  view_shows [] p v -> (length p <= VIEW_CAP)%nat -> v.(truncated) = false ->
  exists v', (if bool_decide (0 < v.(cur).(line_len))%nat && negb (full v) then flush_line v else Ret v) = Ret v' /\
    length v'.(lines) = BROWSER_MAX_LINES /\ (v'.(line_count) <= BROWSER_MAX_LINES)%nat /\ v'.(truncated) = false /\
    line_text <$> take v'.(line_count) v'.(lines) = rows p.
Proof.
  intros Hv Hp Ht. pose proof (not_full p v Hv Hp) as Hf. rewrite Hf.
  pose proof Hv as [H1 H2 H3 H4 (fl & F1 & F2 & F3 & F4)]. cbn [app] in F1.
  case_bool_decide as Hl; cbn [andb negb].
  - unfold flush_line, put_line. rewrite Hf. apply full_false in Hf. rewrite wr_ok, !bind_ret by lia.
    eexists. split; [done|]. cbn. rewrite length_insert. split_and!; [done|lia|done|].
    rewrite take_insert_snoc, fmap_app, F1, F3 by lia. symmetry. apply rows_full; [done| |].
    + intros E. apply (f_equal length) in E. unfold line_text in E. rewrite length_take in E. cbn in E. lia.
    + unfold line_text. rewrite length_take. lia.
  - exists v. split_and!; try done. rewrite F1. rewrite F4 by lia.
    specialize (F4 ltac:(lia)). subst p. apply app_nil in F4 as [F4 _].
    destruct fl as [|l fl]; [done|]. exfalso. apply Forall_cons in F2 as [F2 _]. cbn in F4.
    apply app_nil in F4 as [-> _]. done.
Qed.

Lemma finish_shows p b d :
  showing p b d -> (length p <= VIEW_CAP)%nat ->
  exists d', finish_doc d = Ret d' /\ d'.(view).(truncated) = false /\ d'.(scripts_stripped) = b /\
    line_text <$> take d'.(view).(line_count) d'.(view).(lines) = rows p ++ note_lines b (length (rows p)).
Proof.
  intros Hd Hp. destruct (flush_rows p d.(view)) as (v' & E & L & C & T & R); [apply Hd|done|apply Hd|].
  unfold finish_doc, on_view. rewrite E, !bind_ret. cbn [scripts_stripped over]. rewrite (sh_stripped _ _ _ Hd).
  assert (length (rows p) = v'.(line_count)) as Hn.
  { rewrite <-R, length_fmap, length_take. lia. }
  destruct b.
  2:{ eexists. split; [done|]. cbn. split_and!; [done|try apply Hd; done|]. unfold note_lines. cbn. by rewrite app_nil_r. }
  cbn [view]. unfold note_lines. cbn [andb]. rewrite Hn.
  destruct (full v') eqn:Ef.
  - apply full_spec in Ef. rewrite bool_decide_eq_false_2 by lia. eexists. split; [done|]. cbn.
    split_and!; [done|try apply Hd; done|by rewrite app_nil_r].
  - apply full_false in Ef. rewrite bool_decide_eq_true_2 by lia. pose proof note_fits.
    rewrite Nat.min_l by done. rewrite copy_at_ok, bind_ret by (rewrite length_take, length_replicate; lia).
    unfold put_line. rewrite wr_ok, !bind_ret by lia. eexists. split; [done|]. cbn.
    split_and!; [done|try apply Hd; done|]. rewrite take_insert_snoc, fmap_app, R by lia. f_equal.
Qed.

Lemma doc_new_showing body scratch v :
  length v.(lines) = BROWSER_MAX_LINES -> v.(line_count) = 0%nat -> v.(truncated) = false ->
  showing [] false (Doc_new body scratch v).
Proof.
  intros Hl Hc Ht. split; try (done || (cbn; lia)). split; cbn; try (done || lia).
  exists []. rewrite Hc. by split_and!.
Qed.

Lemma html_tag_plain : plain_tag HTML.
Proof. apply (bool_decide_unpack _). vm_compute. exact I. Qed.

Lemma html_tag_element d : d.(style_rule_count) = 0%nat -> tag_element HTML d = Ret d.
Proof.
  intros Hr. assert (computed_style HTML [104; 116; 109; 108] d = Ret BoxStyle_empty) as Hc.
  { unfold computed_style. rewrite Hr. reflexivity. }
  change (tag_element HTML d) with (c ← computed_style HTML [104; 116; 109; 108] d; open_tag HTML [104; 116; 109; 108] c d).
  rewrite Hc, bind_ret. reflexivity.
Qed.

(** The whole page, from any line table. *)
Lemma render_page xs body scratch v :
  length v.(lines) = BROWSER_MAX_LINES -> v.(line_count) = 0%nat -> v.(truncated) = false ->
  Forall item_ok xs -> (length (items_text xs) <= VIEW_CAP)%nat ->
  exists d, render_html (html_page xs) body scratch v = Ret d /\ d.(view).(truncated) = false /\
    d.(scripts_stripped) = existsb strips xs /\
    line_text <$> take d.(view).(line_count) d.(view).(lines) =
      rows (items_text xs) ++ note_lines (existsb strips xs) (length (rows (items_text xs))).
Proof.
  intros Hl Hc Ht Hx Hp. pose proof (doc_new_showing body scratch v Hl Hc Ht) as H0.
  set (raw := html_page xs). set (d0 := Doc_new body scratch v) in *.
  assert (run raw 0 d0 6 d0) as R1.
  { apply (tag_run raw [] false d0 0 HTML (enc_items xs)); [done|cbn; lia|apply html_tag_plain|done|].
    by apply html_tag_element, H0. }
  destruct (items_run raw xs [] false d0 6 [] H0 Hp Hx) as (d1 & R2 & H1); [by rewrite app_nil_r|].
  destruct (finish_shows _ _ d1 H1 Hp) as (d2 & E & T & S & L). exists d2. split; [|done].
  unfold render_html. fold raw d0. rewrite (run_end raw 0 d0 d1), bind_ret; [done| |done].
  eapply run_trans; [exact R1|exact R2].
Qed.

Lemma html_page_is_html xs : looks_like_html (html_page xs) = true.
Proof.
  unfold looks_like_html. apply existsb_exists. exists HTML. split; [vm_compute; tauto|].
  unfold contains_ci. apply bool_decide_eq_true. exists 0%nat. unfold html_page.
  rewrite take_app_ge by (cbn; lia). by apply find_sub_ci_app.
Qed.

(** C4: a page shows its text, and nothing else.  The page: characters 33 to 126 -
    written plainly, as named references, or as decimal or hexadecimal ones, so
    that a space may be written too - and spaces and tabs, with comments, inline
    tags without attributes, dropped tags ([meta], [link], [base], [embed]) and
    the elements that are hidden (scripts, templates, frames, objects and titles)
    in between; no style sheets, no line breaks.  The renderer shows exactly the
    characters, with runs of blanks collapsed into one space, wrapped at 96
    columns, whatever the hidden elements and comments contain; if there is a
    script that is not data, the line [NOTE] is added behind the text, where a
    line is left.  The text fits the 128 lines of the table. *)
Theorem page_text_shown xs body st :
  statics_wf st -> Forall item_ok xs -> (length (items_text xs) <= VIEW_CAP)%nat ->
  exists r, format_document (html_page xs) body st = Ret r /\
    shown r = rows (items_text xs) ++ note_lines (existsb strips xs) (length (rows (items_text xs))) /\
    r.(rd_truncated) = false /\ r.(rd_stripped) = existsb strips xs.
Proof.
  intros [S1 S2 S3 S4] Hx Hp. unfold format_document. rewrite html_page_is_html.
  destruct (build_text_dom_eq (html_page xs) _ S3 S4) as (dom & Ed & _). rewrite Ed, bind_ret. cbn [negb].
  match goal with |- context [render_html _ _ _ ?v] =>
    destruct (render_page xs body (st_style_scratch st) v S1 eq_refl eq_refl Hx Hp) as (d & E & T & S & L) end.
  rewrite E, bind_ret. eexists. split; [done|]. cbn. split_and!; [exact L|exact T|exact S].
Qed.

(** ** Plain text *)

(** The lines of a text, cut at line feeds and carriage returns, empty ones left out. *)
Fixpoint text_lines (acc raw : bytes) : list bytes :=
  match raw with
  | [] => match acc with [] => [] | _ => [acc] end
  | b :: raw =>
      if decide (b = 10 \/ b = 13) then
        match acc with [] => text_lines [] raw | _ => acc :: text_lines [] raw end
      else text_lines (acc ++ [b]) raw
  end.

Definition all_rows (ls : list bytes) : list bytes := ls ≫= rows.

Lemma rows_length_mono p q : (length (rows p) <= length (rows (p ++ q)))%nat.
Proof.
  remember (length p) as n eqn:En. revert p En. induction (lt_wf n) as [n _ IH]; intros p ->.
  destruct (decide (p = [])) as [->|Hp]; [cbn; lia|].
  destruct (decide (length p <= BROWSER_LINE_CAP)%nat) as [Hl|Hl].
  - rewrite (rows_short p) by done. rewrite rows_step; [cbn; lia|]. by intros [-> _]%app_nil.
  - rewrite (rows_step p), (rows_step (p ++ q)) by (done || by intros [-> _]%app_nil). cbn [length].
    rewrite drop_app_le by lia. apply le_n_S. eapply IH; [|done]. rewrite length_drop. unfold BROWSER_LINE_CAP in *.
    destruct p; [done|]. cbn in *. lia.
Qed.

Lemma text_lines_nonempty acc raw : Forall (fun l => l <> []) (text_lines acc raw).
Proof.
  revert acc. induction raw as [|b raw IH]; intros acc; cbn [text_lines].
  - destruct acc; constructor; done.
  - destruct (decide _); [|done]. destruct acc; [done|]. by constructor.
Qed.

(** The current text is a prefix of the first line. *)
Lemma text_lines_acc acc raw : acc <> [] -> exists q ls, text_lines acc raw = (acc ++ q) :: ls.
Proof.
  revert acc. induction raw as [|b raw IH]; intros acc Ha; cbn [text_lines].
  - destruct acc; [done|]. exists [], []. by rewrite app_nil_r.
  - destruct (decide _).
    + destruct acc; [done|]. exists []. rewrite app_nil_r. by eexists.
    + destruct (IH (acc ++ [b])) as (q & ls & ->); [by intros [_ ?]%app_nil|].
      rewrite <-app_assoc. by eexists _, _.
Qed.

Lemma rows_app_full ls l :
  Forall (fun l => length l = BROWSER_LINE_CAP) ls -> rows (concat ls ++ l) = ls ++ rows l.
Proof.
  intros H. induction H as [|x ls Hx _ IH]; cbn [concat app]; [done|]. by rewrite <-app_assoc, rows_cons, IH.
Qed.

Lemma rows_nonempty l : l <> [] -> (0 < length (rows l))%nat.
Proof. intros. rewrite rows_step by done. cbn. lia. Qed.

Lemma plain_shows_count before acc v :
  view_shows before acc v -> exists full, v.(line_count) = (length before + length full)%nat /\
    Forall (fun l => length l = BROWSER_LINE_CAP) full /\ acc = concat full ++ line_text v.(cur) /\
    line_text <$> take v.(line_count) v.(lines) = before ++ full.
Proof.
  intros [H1 H2 H3 H4 (fl & F1 & F2 & F3 & F4)]. exists fl. split_and!; try done.
  apply (f_equal length) in F1. rewrite length_fmap, length_take, length_app in F1. lia.
Qed.

Lemma plain_emit before acc c g v :
  view_shows before acc v -> (length (before ++ rows (acc ++ [c])) <= BROWSER_MAX_LINES)%nat ->
  exists v', emit_char c g v = Ret v' /\ view_shows before (acc ++ [c]) v' /\ v'.(truncated) = v.(truncated).
Proof.
  intros Hv Hr. destruct (plain_shows_count before acc v Hv) as (fl & Hc & F2 & F3 & _).
  rewrite F3, <-app_assoc, rows_app_full, !length_app in Hr by done.
  pose proof (rows_nonempty (line_text v.(cur) ++ [c]) ltac:(by intros [_ ?]%app_nil)).
  rewrite emit_char_cap_eq. destruct (emit_char_shows before acc c g v Hv) as (v' & E & S & T & _); [lia|eauto].
Qed.

(** The end of a line: its rows are in the table. *)
Lemma plain_flush before acc v :
  view_shows before acc v -> (length (before ++ rows acc) <= BROWSER_MAX_LINES)%nat ->
  exists v', (if decide (0 < v.(cur).(line_len))%nat then flush_line v else Ret v) = Ret v' /\
    v'.(truncated) = v.(truncated) /\ length v'.(lines) = BROWSER_MAX_LINES /\
    length v'.(cur).(data) = BROWSER_LINE_CAP /\ (v'.(line_count) <= BROWSER_MAX_LINES)%nat /\
    line_text <$> take v'.(line_count) v'.(lines) = before ++ rows acc.
Proof.
  intros Hv Hr. destruct (plain_shows_count before acc v Hv) as (fl & Hc & F2 & F3 & F1).
  pose proof Hv as [H1 H2 H3 H4 (_ & _ & _ & _ & F4)]. destruct (decide _) as [Hl|Hl].
  - assert (rows acc = fl ++ [line_text v.(cur)]) as Er.
    { rewrite F3. apply rows_full; [done| |].
      - intros E. apply (f_equal length) in E. unfold line_text in E. rewrite length_take in E. cbn in E. lia.
      - unfold line_text. rewrite length_take. lia. }
    rewrite Er, !length_app in Hr. cbn in Hr. unfold flush_line.
    rewrite (proj2 (full_false v)) by lia. unfold put_line. rewrite wr_ok, !bind_ret by lia.
    eexists. split; [done|]. cbn. rewrite length_insert. split_and!; [done..|lia|].
    rewrite take_insert_snoc, fmap_app, F1, Er by lia. by rewrite <-app_assoc.
  - exists v. split_and!; try done. rewrite F1, (F4 ltac:(lia)). rewrite (F4 ltac:(lia)) in F3.
    symmetry in F3. apply app_nil in F3 as [F3 _]. destruct fl as [|x fl]; [done|].
    apply Forall_cons in F2 as [F2 _]. cbn in F3. by apply app_nil in F3 as [-> _].
Qed.

(** The start of a line. *)
Lemma plain_fresh before c v :
  length v.(lines) = BROWSER_MAX_LINES -> length v.(cur).(data) = BROWSER_LINE_CAP ->
  (v.(line_count) <= BROWSER_MAX_LINES)%nat -> line_text <$> take v.(line_count) v.(lines) = before ->
  view_shows before [] (clear_cur c v).
Proof.
  intros H1 H2 H3 H4. split; cbn; try (done || lia). exists []. rewrite app_nil_r. by split_and!.
Qed.

Lemma plain_loop_spec raw before acc c fuel i rest v :
  drop i raw = rest -> (length rest < fuel)%nat -> Forall is_ascii rest -> view_shows before acc v -> v.(truncated) = false ->
  (length (before ++ all_rows (text_lines acc rest)) <= BROWSER_MAX_LINES)%nat ->
  exists v' before' acc', plain_loop fuel raw i c v = Ret v' /\ view_shows before' acc' v' /\ v'.(truncated) = false /\
    before' ++ rows acc' = before ++ all_rows (text_lines acc rest).
Proof.
  revert before acc i rest v. induction fuel as [|fuel IH]; intros before acc i rest v Hr Hf Ha Hv Ht Hn; [lia|].
  cbn [plain_loop]. destruct rest as [|b rest].
  { destruct (decide _) as [Hi|]. { apply (f_equal length) in Hr. rewrite length_drop in Hr. cbn in Hr. lia. }
    exists v, before, acc. split_and!; try done. cbn [text_lines]. unfold all_rows.
    destruct acc; [by cbn|]. cbn. by rewrite app_nil_r. }
  destruct (drop_lt raw i b rest Hr) as [Hi Hb]. rewrite decide_True by done. rewrite (rd_lookup _ _ _ Hb), bind_ret.
  inversion Ha as [|? ? Hb1 Ha1]; subst. apply (drop_step raw i [b] rest) in Hr. cbn [length] in *.
  cbn [text_lines] in Hn. destruct (decide (b = 10 \/ b = 13)) as [Hnl|Hnl].
  - assert (before ++ all_rows (text_lines acc (b :: rest)) = (before ++ rows acc) ++ all_rows (text_lines [] rest)) as El.
    { cbn [text_lines]. rewrite decide_True by done. destruct acc as [|x acc]; [by rewrite app_nil_r|].
      unfold all_rows. cbn [mbind list_bind]. by rewrite app_assoc. }
    rewrite El. assert (length ((before ++ rows acc) ++ all_rows (text_lines [] rest)) <= BROWSER_MAX_LINES)%nat as Hn'.
    { rewrite <-El. cbn [text_lines]. by rewrite decide_True. }
    destruct (plain_flush before acc v Hv) as (v1 & E1 & T1 & L1 & D1 & C1 & S1); [rewrite length_app in Hn'; lia|].
    rewrite E1, bind_ret. apply (IH _ [] (i + 1)%nat rest); try done; [lia|by apply plain_fresh|cbn; by rewrite T1].
  - rewrite Ht. unfold plain_char. unfold is_ascii in Hb1. replace (b <? 128) with true by lia.
    assert (text_lines acc (b :: rest) = text_lines (acc ++ [b]) rest) as El by (cbn [text_lines]; by rewrite decide_False).
    rewrite El. destruct (text_lines_acc (acc ++ [b]) rest) as (q & ls & Eq); [by intros [_ ?]%app_nil|].
    destruct (plain_emit before acc b c v Hv) as (v1 & E1 & S1 & T1).
    { rewrite Eq in Hn. unfold all_rows in Hn. cbn [mbind list_bind] in Hn. rewrite !length_app in Hn.
      pose proof (rows_length_mono (acc ++ [b]) q). rewrite length_app. lia. }
    rewrite E1, !bind_ret. apply (IH before (acc ++ [b]) (i + 1)%nat rest); try done; [lia|congruence].
Qed.

(** Plain text is shown line by line: a page without markup, in ASCII, is shown
    as its non-empty lines in order, each cut into rows of 96 bytes and none of it
    lost, when the rows fit the table. *)
Theorem plain_text_shown raw body st :
  statics_wf st -> Forall is_ascii raw -> looks_like_html raw = false ->
  (length (all_rows (text_lines [] raw)) <= BROWSER_MAX_LINES)%nat ->
  exists r, format_document raw body st = Ret r /\ shown r = all_rows (text_lines [] raw) /\
    r.(rd_truncated) = false /\ r.(rd_stripped) = false.
Proof.
  intros [S1 S2 S3 S4] Ha Hh Hn. unfold format_document. rewrite Hh.
  destruct (build_text_dom_eq raw _ S3 S4) as (dom & Ed & _). rewrite Ed, bind_ret. cbn [negb]. unfold plain_lines.
  match goal with |- context [plain_loop _ _ _ _ ?v] =>
    destruct (plain_loop_spec raw [] [] body (S (length raw)) 0 raw v) as (v' & bf & acc & E & Hv & T & Er); try done; [lia|..] end.
  { by apply (plain_fresh [] body {| lines := st_lines st; line_count := 0; truncated := false; cur := BrowserLine_new body |}); [|done|cbn; lia|]. }
  cbn [app] in Er. rewrite E, bind_ret.
  destruct (plain_flush bf acc v' Hv) as (v2 & E2 & T2 & L2 & D2 & C2 & R2); [by rewrite Er|].
  assert ((if decide (0 < line_len (cur v'))%nat then if truncated v' then Ret v' else flush_line v' else Ret v') = Ret v2) as E3.
  { rewrite T. destruct (decide _); [exact E2|exact E2]. }
  rewrite E3, bind_ret. eexists. split; [done|]. cbn. rewrite T2. split_and!; [by rewrite R2|done|done].
Qed.

(** ** Witnesses *)

(** [<html> <b>A</b>&lt; ], a tab, [<script>x</script><!--y-->&#x42;] *)
Definition sample : list item :=
  [Blank 32; Open [98]; Txt 65 [65]; Close [98]; Txt 60 E_lt; Blank 32; Blank 9; Hidden HScript [] [120]; Comment [121];
   Txt 66 ([38; 35; 120] ++ [52; 50] ++ [59])].

Ltac by_mem := apply (bool_decide_unpack (_ ∈ _)); vm_compute; exact I.

Lemma sample_ok : Forall item_ok sample.
Proof.
  repeat (apply Forall_cons; split; [|]); [by right|by_mem| |by_mem| |by right|by left| | | |apply Forall_nil_2].
  - apply ref_plain; lia.
  - apply ref_named. by_mem.
  - split; [constructor|by vm_compute].
  - intros k Hk. cbn in Hk. by destruct k; [|lia].
  - apply (ref_hex 66 120 [52; 50]); [lia|by left|done|by repeat constructor|done].
Qed.

Lemma page_text_shown_witness :
  exists r, format_document (html_page sample) (1, 2, 3) HtmlStatics_initial = Ret r /\
    shown r = rows (items_text sample) ++ note_lines (existsb strips sample) (length (rows (items_text sample))) /\
    r.(rd_truncated) = false /\ r.(rd_stripped) = existsb strips sample.
Proof. apply page_text_shown; [apply statics_initial_wf|apply sample_ok|apply Nat.leb_le; vm_compute; reflexivity]. Defined.

Example sample_shown : rows (items_text sample) ++ note_lines (existsb strips sample) 1 = [bs "A< B"; NOTE].
Proof. vm_compute. reflexivity. Qed.

Lemma plain_text_shown_witness :
  exists r, format_document [104; 105; 13; 10; 120] (1, 2, 3) HtmlStatics_initial = Ret r /\
    shown r = all_rows (text_lines [] [104; 105; 13; 10; 120]) /\ r.(rd_truncated) = false /\ r.(rd_stripped) = false.
Proof.
  apply plain_text_shown; [apply statics_initial_wf| |vm_compute; reflexivity|vm_compute; lia].
  apply (bool_decide_unpack (Forall (fun c => 0 <= c < 128) _)). vm_compute. exact I.
Defined.

(** ** Where the code does not do what it means to *)

Definition shows (s : string) : rust (list bytes) :=
  r ← format_document (bs s) (1, 2, 3) HtmlStatics_initial; Ret (shown r).

(** [rgba(] is five bytes, and six are skipped: the first digit of the red
    component is lost, and a one-digit red component makes the colour invalid. *)
Example rgba_first_digit :
  (parse_rgb_rgba (bs "rgba(255,0,0,1)") 0).2 = Some (55, 0, 0) /\ (parse_rgb_rgba (bs "rgba(9,0,0,1)") 0).2 = None.
Proof. by vm_compute. Qed.

(** The text of an element with [display:none] is shown. *)
Example hidden_text_shown : shows "<html><p style='display:none'>secret</p>" = Ret [bs "secret"; []].
Proof. vm_compute. reflexivity. Qed.

(** An earlier attribute that ends in [href] hides a dangerous one. *)
Example dangerous_href_missed :
  tag_href_value_dangerous (bs "<a data-href=x href=javascript:y") = Ret false /\
  tag_href_value_dangerous (bs "<a href=javascript:y") = Ret true.
Proof. by vm_compute. Qed.

(** A closing [li] pops the indent that an enclosing block pushed: [b] is not indented. *)
Example li_pops_block :
  shows "<html><div style='margin-left:64px'>x<li>a</li>b</div>" = Ret [[]; bs "        x- a"; bs "b"; []].
Proof. vm_compute. reflexivity. Qed.

(** A line break in the source is no blank: the words on both sides run together. *)
Example line_break_joins_words :
  (r ← format_document (bs "<html>one" ++ [10] ++ bs "two") (1, 2, 3) HtmlStatics_initial; Ret (shown r))
    = Ret [bs "onetwo"].
Proof. vm_compute. reflexivity. Qed.
