(* ===== verification/NetWire.v ===== *)
(** * Packets on the wire ([kernel/src/net.rs], the free functions; [net_ipv4.rs])

    The Internet checksum, the frame builders (ARP, TCP, DHCP, DNS) and the DNS
    reply parser.  A builder gets the transmit buffer and returns the buffer it
    wrote and the frame length, 0 when the buffer is too small; its slice
    assignments go through the panic monad. *)

From S2P Require Import Prelude.

(** ** [net_ipv4.rs] *)

Record NetIpv4Addrs := { our : bytes; gw : bytes; dns : bytes }.
Definition SLIRP : NetIpv4Addrs :=
  {| our := [10; 0; 2; 15]; gw := [10; 0; 2; 2]; dns := [10; 0; 2; 3] |}.
Definition ZERO : NetIpv4Addrs :=
  {| our := [0; 0; 0; 0]; gw := [0; 0; 0; 0]; dns := [0; 0; 0; 0] |}.
Definition is_our_zero (a : NetIpv4Addrs) : bool := bool_decide (a.(our) = [0; 0; 0; 0]).

(** ** Constants *)

Definition VIRTIO_NET_HDR : nat := 12.
Definition LOCAL_PORT : Z := 49152.
Definition DNS_LOCAL_PORT : Z := 53000.
Definition DHCP_CLIENT_PORT : Z := 68.
Definition DHCP_SERVER_PORT : Z := 67.
Definition DHCP_MAGIC : bytes := [99; 130; 83; 99].
Definition OPT_ROUTER : Z := 3.
Definition OPT_DNS : Z := 6.
Definition OPT_REQUESTED_IP : Z := 50.
Definition OPT_MSG_TYPE : Z := 53.
Definition OPT_SERVER_ID : Z := 54.
Definition OPT_END : Z := 255.
Definition DHCP_DISCOVER : Z := 1.
Definition DHCP_OFFER : Z := 2.
Definition DHCP_REQUEST : Z := 3.
Definition DHCP_ACK : Z := 5.
Definition ETH_P_IP : Z := 0x0800.
Definition ETH_P_ARP : Z := 0x0806.
Definition ARP_OP_REQ : Z := 1.
Definition ARP_OP_REPLY : Z := 2.
Definition ARP_HTYPE_ETH : Z := 1.
Definition ARP_PTYPE_IP : Z := 0x0800.

(** ** The Internet checksum *)

(** [while data.len() >= 2 { .. }], then the odd byte. *)
Fixpoint sum_words (data : bytes) (sum : Z) : Z :=
  match data with
  | a :: b :: data => sum_words data (wrap32 (sum + (256 * a + b)))
  | [a] => wrap32 (sum + Z.shiftl a 8)
  | [] => sum
  end.

(** [while (sum >> 16) != 0 { sum = (sum & 0xffff) + (sum >> 16) }]; a [u32] is
    folded after two rounds. *)
Fixpoint fold16 (fuel : nat) (sum : Z) : Z :=
  match fuel with
  | O => sum
  | S fuel =>
      if decide (Z.shiftr sum 16 <> 0)
      then fold16 fuel (Z.land sum 0xffff + Z.shiftr sum 16) else sum
  end.

Definition sum16 (data : bytes) (sum : Z) : Z := wrap16 (Z.lnot (wrap16 (fold16 3 (sum_words data sum)))).

Definition be16 (a b : Z) : Z := 256 * a + b.

Definition pseudo_sum (src dst : bytes) (proto len : Z) : Z :=
  be16 (src !!! 0%nat) (src !!! 1%nat) + be16 (src !!! 2%nat) (src !!! 3%nat) +
  be16 (dst !!! 0%nat) (dst !!! 1%nat) + be16 (dst !!! 2%nat) (dst !!! 3%nat) + proto + len.

(** ** Frame builders *)

(** A run of [out[off..off + src.len()].copy_from_slice(src)] statements. *)
Fixpoint writes (ws : list (nat * bytes)) (out : bytes) : rust bytes :=
  match ws with
  | [] => Ret out
  | (off, src) :: ws => out ← copy_at out off src; writes ws out
  end.

(** The VirtIO header is zeroed, the Ethernet header filled in. *)
Definition eth_writes (dst src : bytes) (ethertype : Z) : list (nat * bytes) :=
  let e := VIRTIO_NET_HDR in
  [(0%nat, replicate VIRTIO_NET_HDR 0); (e, dst); ((e + 6)%nat, src); ((e + 12)%nat, to_be 2 ethertype)].

(** The IPv4 header at [ip], its checksum field zero. *)
Definition ip_writes (ip : nat) (ip_len : nat) (ident proto : Z) (src dst : bytes) : list (nat * bytes) :=
  [(ip, [0x45]); ((ip + 1)%nat, [0]); ((ip + 2)%nat, to_be 2 (wrap16 (Z.of_nat ip_len)));
   ((ip + 4)%nat, to_be 2 ident); ((ip + 6)%nat, to_be 2 0); ((ip + 8)%nat, [64]);
   ((ip + 9)%nat, [proto]); ((ip + 10)%nat, to_be 2 0); ((ip + 12)%nat, src); ((ip + 16)%nat, dst)].

(** [out[at..at + 2] = sum16(&out[lo..hi], init)] *)
Definition put_checksum (lo hi pos : nat) (init : Z) (out : bytes) : rust bytes :=
  d ← sub out lo hi;
  copy_at out pos (to_be 2 (sum16 d init)).

Definition build_arp_request (our_mac : bytes) (addrs : NetIpv4Addrs) (out : bytes) : rust (bytes * nat) :=
  let total := (VIRTIO_NET_HDR + 42)%nat in
  if decide (length out < total)%nat then Ret (out, 0%nat)
  else
    let o := VIRTIO_NET_HDR in
    out ← writes (eth_writes [255; 255; 255; 255; 255; 255] our_mac ETH_P_ARP ++
      [((o + 14)%nat, to_be 2 ARP_HTYPE_ETH); ((o + 16)%nat, to_be 2 ARP_PTYPE_IP);
       ((o + 18)%nat, [6]); ((o + 19)%nat, [4]); ((o + 20)%nat, to_be 2 ARP_OP_REQ);
       ((o + 22)%nat, our_mac); ((o + 28)%nat, addrs.(our)); ((o + 32)%nat, replicate 6 0);
       ((o + 38)%nat, addrs.(gw))]) out;
    Ret (out, total).

(** The statements that [build_tcp_syn], [build_tcp_ack_psh] and
    [build_tcp_ack_only] share, with their different constants as arguments. *)
Definition build_tcp (our_mac gw_mac src dst : bytes) (sport dport seq ack flags window : Z)
    (payload : bytes) (ip_ident : Z) (out : bytes) : rust (bytes * nat) :=
  let tcp_len := (20 + length payload)%nat in
  let ip_len := (20 + tcp_len)%nat in
  let eth_len := (14 + ip_len)%nat in
  let total := (VIRTIO_NET_HDR + eth_len)%nat in
  if decide (length out < total)%nat then Ret (out, 0%nat)
  else
    let ip := (VIRTIO_NET_HDR + 14)%nat in
    out ← writes (eth_writes gw_mac our_mac ETH_P_IP ++ ip_writes ip ip_len ip_ident 6 src dst) out;
    out ← put_checksum ip (ip + 20) (ip + 10) 0 out;
    let t := (ip + 20)%nat in
    out ← writes
      [(t, to_be 2 sport); ((t + 2)%nat, to_be 2 dport); ((t + 4)%nat, to_be 4 seq);
       ((t + 8)%nat, to_be 4 ack); ((t + 12)%nat, [0x50]); ((t + 13)%nat, [flags]);
       ((t + 14)%nat, to_be 2 window); ((t + 16)%nat, to_be 2 0); ((t + 18)%nat, to_be 2 0);
       ((t + 20)%nat, payload)] out;
    let ph := pseudo_sum src dst 6 (wrap16 (Z.of_nat tcp_len)) in
    out ← put_checksum t (t + tcp_len) (t + 16) ph out;
    Ret (out, total).

Definition build_tcp_syn (our_mac gw_mac : bytes) (addrs : NetIpv4Addrs) (seq : Z)
    (remote_ip : bytes) (remote_port : Z) (out : bytes) : rust (bytes * nat) :=
  build_tcp our_mac gw_mac addrs.(our) remote_ip LOCAL_PORT remote_port seq 0 0x02 0x2000 [] 0 out.

Definition build_tcp_ack_psh (our_mac gw_mac : bytes) (addrs : NetIpv4Addrs) (remote_ip : bytes)
    (sport dport seq ack : Z) (payload : bytes) (ip_ident : Z) (out : bytes) : rust (bytes * nat) :=
  build_tcp our_mac gw_mac addrs.(our) remote_ip sport dport seq ack 0x18 0x8000 payload ip_ident out.

Definition build_tcp_ack_only (our_mac gw_mac : bytes) (addrs : NetIpv4Addrs) (remote_ip : bytes)
    (sport dport seq ack : Z) (ip_ident : Z) (out : bytes) : rust (bytes * nat) :=
  build_tcp our_mac gw_mac addrs.(our) remote_ip sport dport seq ack 0x10 0x8000 [] ip_ident out.

(** The same for the two UDP builders. *)
Definition build_udp (dst_mac our_mac src dst : bytes) (sport dport ip_ident : Z)
    (payload : bytes) (out : bytes) : rust (bytes * nat) :=
  let udp_len := (8 + length payload)%nat in
  let ip_len := (20 + udp_len)%nat in
  let eth_len := (14 + ip_len)%nat in
  let total := (VIRTIO_NET_HDR + eth_len)%nat in
  if decide (length out < total)%nat then Ret (out, 0%nat)
  else
    let ip := (VIRTIO_NET_HDR + 14)%nat in
    out ← writes (eth_writes dst_mac our_mac ETH_P_IP ++ ip_writes ip ip_len ip_ident 17 src dst) out;
    out ← put_checksum ip (ip + 20) (ip + 10) 0 out;
    let u := (ip + 20)%nat in
    out ← writes
      [(u, to_be 2 sport); ((u + 2)%nat, to_be 2 dport);
       ((u + 4)%nat, to_be 2 (wrap16 (Z.of_nat udp_len))); ((u + 6)%nat, to_be 2 0);
       ((u + 8)%nat, payload)] out;
    let ph := pseudo_sum src dst 17 (wrap16 (Z.of_nat udp_len)) in
    out ← put_checksum u (u + udp_len) (u + 6) ph out;
    Ret (out, total).

(** [Ret None] is [return false]; otherwise the buffer and the new position. *)
Definition dhcp_push_opt (buf : bytes) (pos : nat) (tag : Z) (data : bytes) : rust (option (bytes * nat)) :=
  if decide (length buf < pos + 2 + length data)%nat then Ret None
  else
    buf ← wr buf pos tag;
    buf ← wr buf (pos + 1) (wrap8 (Z.of_nat (length data)));
    buf ← copy_at buf (pos + 2) data;
    Ret (Some (buf, (pos + 2 + length data)%nat)).

Definition push_opt_if (o : option bytes) (tag : Z) (st : option (bytes * nat)) : rust (option (bytes * nat)) :=
  match st, o with
  | Some (bp, pos), Some data => dhcp_push_opt bp pos tag data
  | _, _ => Ret st
  end.

(** The BOOTP message in its 576-byte buffer, up to and with the end option. *)
Definition dhcp_message (xid : Z) (client_mac : bytes) (msg_type : Z)
    (server_id requested_ip : option bytes) : rust (option (bytes * nat)) :=
  bp ← writes [(0%nat, [1]); (1%nat, [1]); (2%nat, [6]); (4%nat, to_be 4 xid); (10%nat, to_be 2 0x8000);
      (28%nat, take 6 client_mac); (236%nat, DHCP_MAGIC)] (replicate 576 0);
  st ← dhcp_push_opt bp 240 OPT_MSG_TYPE [msg_type];
  st ← push_opt_if requested_ip OPT_REQUESTED_IP st;
  st ← push_opt_if server_id OPT_SERVER_ID st;
  match st with
  | None => Ret None
  | Some (bp, o) =>
      if decide (length bp <= o)%nat then Ret None
      else bp ← wr bp o OPT_END; Ret (Some (bp, S o))
  end.

Definition build_dhcp_packet (our_mac : bytes) (ip_src : NetIpv4Addrs) (xid : Z) (client_mac : bytes)
    (msg_type : Z) (server_id requested_ip : option bytes) (out : bytes) : rust (bytes * nat) :=
  m ← dhcp_message xid client_mac msg_type server_id requested_ip;
  match m with
  | None => Ret (out, 0%nat)
  | Some (bp, plen) =>
      p ← sub bp 0 plen;
      build_udp [255; 255; 255; 255; 255; 255] our_mac ip_src.(our) [255; 255; 255; 255]
        DHCP_CLIENT_PORT DHCP_SERVER_PORT 0 p out
  end.

(** The loop of [encode_dns_qname]: [i] is the index of the head of [l];
    [Ret None] is [return None]. *)
Fixpoint qname_loop (hostname l : bytes) (i pos start : nat) (out : bytes)
  : rust (option (nat * nat * bytes)) :=
  match l with
  | [] => Ret (Some (pos, start, out))
  | c :: l =>
      if decide (c = 46 (* '.' *)) then
        let lab := (i - start)%nat in
        if decide (lab = 0 \/ 63 < lab \/ length out < pos + 1 + lab)%nat then Ret None
        else
          out ← wr out pos (wrap8 (Z.of_nat lab));
          s ← sub hostname start i;
          out ← copy_at out (pos + 1) s;
          qname_loop hostname l (S i) (pos + 1 + lab) (S i) out
      else qname_loop hostname l (S i) pos start out
  end.

Definition encode_dns_qname (hostname out : bytes) : rust (option (bytes * nat)) :=
  if decide (hostname = [] \/ (200 < length hostname)%nat) then Ret None
  else
    r ← qname_loop hostname hostname 0 0 0 out;
    match r with
    | None => Ret None
    | Some (pos, start, out) =>
        let lab := (length hostname - start)%nat in
        if decide (lab = 0 \/ 63 < lab \/ length out < pos + 1 + lab + 1)%nat then Ret None
        else
          out ← wr out pos (wrap8 (Z.of_nat lab));
          s ← sub hostname start (length hostname);
          out ← copy_at out (pos + 1) s;
          out ← wr out (pos + 1 + lab) 0;
          Ret (Some (out, (pos + 1 + lab + 1)%nat))
    end.

(** The DNS query in its 512-byte buffer. *)
Definition dns_query (hostname : bytes) (tx_id : Z) : rust (option (bytes * nat)) :=
  d ← writes [(0%nat, to_be 2 tx_id); (2%nat, to_be 2 0x0100); (4%nat, to_be 2 1); (6%nat, replicate 6 0)]
        (replicate 512 0);
  q ← encode_dns_qname hostname (drop 12 d);
  match q with
  | None => Ret None
  | Some (tl, nq) =>
      let d := take 12 d ++ tl in
      let dp := (12 + nq)%nat in
      d ← writes [(dp, to_be 2 1); ((dp + 2)%nat, to_be 2 1)] d;
      Ret (Some (d, (dp + 4)%nat))
  end.

Definition build_dns_udp_packet (our_mac gw_mac : bytes) (addrs : NetIpv4Addrs) (sport dport : Z)
    (hostname : bytes) (tx_id ip_ident : Z) (out : bytes) : rust (bytes * nat) :=
  q ← dns_query hostname tx_id;
  match q with
  | None => Ret (out, 0%nat)
  | Some (d, dp) =>
      p ← sub d 0 dp;
      build_udp gw_mac our_mac addrs.(our) addrs.(dns) sport dport ip_ident p out
  end.

(** ** The DNS reply *)

(** The loop advances by at least one byte, so the length of the message bounds
    the rounds; running out of fuel counts as a panic. *)
Fixpoint skip_dns_name (fuel : nat) (buf : bytes) (i : nat) : rust (option nat) :=
  match fuel with
  | O => Panic
  | S fuel =>
      if decide (length buf <= i)%nat then Ret None
      else
        len ← rd buf i;
        if decide (len = 0) then Ret (Some (i + 1)%nat)
        else if decide (Z.land len 0xC0 = 0xC0) then Ret (Some (i + 2)%nat)
        else
          let i := (i + 1 + Z.to_nat len)%nat in
          if decide (length buf < i)%nat then Ret None else skip_dns_name fuel buf i
  end.

Definition skip_name (buf : bytes) (i : nat) : rust (option nat) := skip_dns_name (S (length buf)) buf i.

Definition rd16 (buf : bytes) (i : nat) : rust Z :=
  a ← rd buf i; b ← rd buf (i + 1); Ret (be16 a b).

Fixpoint skip_questions (qd : nat) (buf : bytes) (off : nat) : rust (option nat) :=
  match qd with
  | O => Ret (Some off)
  | S qd =>
      o ← skip_name buf off;
      match o with
      | None => Ret None
      | Some off =>
          if decide (length buf < off + 4)%nat then Ret None else skip_questions qd buf (off + 4)
      end
  end.

Fixpoint scan_answers (an : nat) (buf : bytes) (off : nat) : rust (option bytes) :=
  match an with
  | O => Ret None
  | S an =>
      o ← skip_name buf off;
      match o with
      | None => Ret None
      | Some off =>
          if decide (length buf < off + 10)%nat then Ret None
          else
            typ ← rd16 buf off;
            rdlen ← rd16 buf (off + 8);
            let off := (off + 10)%nat in
            if decide (length buf < off + Z.to_nat rdlen)%nat then Ret None
            else if decide (typ = 1 /\ rdlen = 4) then
              a ← rd buf off; b ← rd buf (off + 1); c ← rd buf (off + 2); d ← rd buf (off + 3);
              Ret (Some [a; b; c; d])
            else scan_answers an buf (off + Z.to_nat rdlen)
      end
  end.

Definition parse_dns_a (buf : bytes) (expected_id : Z) : rust (option bytes) :=
  if decide (length buf < 12)%nat then Ret None
  else
    id ← rd16 buf 0;
    if decide (id <> expected_id) then Ret None
    else
      qd ← rd16 buf 4;
      an ← rd16 buf 6;
      o ← skip_questions (Z.to_nat qd) buf 12;
      match o with
      | None => Ret None
      | Some off => scan_answers (Z.to_nat an) buf off
      end.

(** ** The checksum *)

(** The sum of the 16-bit words, without wrap-around. *)
Fixpoint words (data : bytes) : Z :=
  match data with
  | a :: b :: data => 256 * a + b + words data
  | [a] => 256 * a
  | [] => 0
  end.

(** Induction two bytes at a time. *)
Lemma bytes_ind2 (P : bytes -> Prop) :
  P [] -> (forall a, P [a]) -> (forall a b l, P l -> P (a :: b :: l)) -> forall l, P l.
Proof.
  intros H0 H1 H2 l. assert (P l /\ forall a, P (a :: l)) as [H _]; [|exact H].
  induction l as [|x l [IH1 IH2]]; [by split|]. split; [apply IH2|]. intros a. by apply H2.
Qed.

Lemma words_bound l : is_bytes l -> 0 <= words l <= 65535 * Z.of_nat (length l).
Proof.
  induction l as [|a|a b l IH] using bytes_ind2; intros Hl; [cbn; lia| |].
  - apply Forall_cons in Hl as [Ha _]. unfold is_byte in Ha. cbn. lia.
  - apply Forall_cons in Hl as [Ha [Hb Hl]%Forall_cons]. specialize (IH Hl). unfold is_byte in *.
    cbn [words length]. lia.
Qed.

Lemma sum_words_eq l s :
  is_bytes l -> 0 <= s -> s + words l < 2 ^ 32 -> sum_words l s = s + words l.
Proof.
  revert s. induction l as [|a|a b l IH] using bytes_ind2; intros s Hl Hs Hb; [cbn; lia| |].
  - cbn [sum_words words] in *. rewrite Z.shiftl_mul_pow2 by lia. change (2 ^ 8) with 256.
    apply Forall_cons in Hl as [Ha _]. unfold is_byte in Ha. unfold wrap. rewrite Z.mod_small; lia.
  - apply Forall_cons in Hl as [Ha [Hb' Hl]%Forall_cons]. unfold is_byte in *.
    pose proof (words_bound l Hl). cbn [sum_words words] in *. unfold wrap.
    rewrite Z.mod_small by lia. rewrite IH by (try done; lia). lia.
Qed.

Lemma words_app l1 l2 : Nat.Even (length l1) -> words (l1 ++ l2) = words l1 + words l2.
Proof.
  induction l1 as [|a|a b l IH] using bytes_ind2; intros He; [done| |].
  - destruct He as [k Hk]. cbn in Hk. lia.
  - cbn [app words]. rewrite IH; [lia|]. destruct He as [k Hk]. exists (k - 1)%nat. cbn in Hk. lia.
Qed.

(** One's complement reduction to 16 bits. *)
Definition reduce (s : Z) : Z := if decide (s = 0) then 0 else 1 + (s - 1) mod 65535.

Lemma fold_step s : 0 <= s ->
  Z.land s 0xffff + Z.shiftr s 16 = s mod 65536 + s / 65536.
Proof.
  intros Hs. change 0xffff with (Z.ones 16). rewrite Z.land_ones, Z.shiftr_div_pow2 by lia. done.
Qed.

Lemma reduce_step s : 0 <= s -> reduce (s mod 65536 + s / 65536) = reduce s.
Proof.
  intros Hs. pose proof (Z.mod_pos_bound s 65536). pose proof (Z.div_pos s 65536).
  pose proof (Z.div_mod s 65536). unfold reduce.
  destruct (decide (s = 0)) as [->|]; [done|]. rewrite decide_False by lia. f_equal.
  rewrite <-(Z.mod_add _ (s / 65536) 65535) by lia. f_equal. lia.
Qed.

Lemma reduce_small s : 0 <= s < 65536 -> reduce s = s.
Proof. intros Hs. unfold reduce. case_decide; [done|]. rewrite Z.mod_small; lia. Qed.

Lemma fold16_eq s : 0 <= s < 2 ^ 32 -> fold16 3 s = reduce s.
Proof.
  assert (forall fuel s, 0 <= s -> s < 65536 -> fold16 fuel s = reduce s) as Hsmall.
  { intros fuel s0 H0 H1. rewrite reduce_small by lia. destruct fuel; [done|]. cbn [fold16].
    rewrite Z.shiftr_div_pow2 by lia. change (2 ^ 16) with 65536. by rewrite Z.div_small. }
  intros Hs. cbn [fold16]. rewrite !fold_step by lia.
  pose proof (Z.mod_pos_bound s 65536). pose proof (Z.div_pos s 65536).
  assert (s / 65536 < 65536) by (apply Z.div_lt_upper_bound; lia).
  set (t := s mod 65536 + s / 65536) in *.
  assert (0 <= t < 131072) as Ht by lia.
  assert (t / 65536 < 2) by (apply Z.div_lt_upper_bound; lia).
  pose proof (Z.div_pos t 65536). pose proof (Z.div_mod t 65536). pose proof (Z.mod_pos_bound t 65536).
  destruct (decide (Z.shiftr s 16 <> 0)) as [E1|E1].
  - rewrite <-reduce_step by lia. fold t. destruct (decide (Z.shiftr t 16 <> 0)) as [E2|E2].
    + rewrite fold_step by lia. rewrite <-(reduce_step t) by lia. set (u := t mod 65536 + t / 65536).
      assert (0 <= u < 65536) as Hu by lia.
      rewrite decide_False; [by rewrite reduce_small by lia|].
      rewrite Z.shiftr_div_pow2 by lia. change (2 ^ 16) with 65536. rewrite Z.div_small by lia. lia.
    + apply dec_stable in E2. rewrite Z.shiftr_div_pow2 in E2 by lia. change (2 ^ 16) with 65536 in E2.
      rewrite reduce_small; lia.
  - apply dec_stable in E1. rewrite Z.shiftr_div_pow2 in E1 by lia. change (2 ^ 16) with 65536 in E1.
    pose proof (Z.div_mod s 65536). rewrite reduce_small; lia.
Qed.

Lemma reduce_range s : 0 <= s -> 0 <= reduce s <= 65535.
Proof. intros. unfold reduce. case_decide; [lia|]. pose proof (Z.mod_pos_bound (s - 1) 65535). lia. Qed.

Lemma sum16_eq l s :
  is_bytes l -> 0 <= s -> s + words l < 2 ^ 32 -> sum16 l s = 65535 - reduce (s + words l).
Proof.
  intros Hl Hs Hb. pose proof (words_bound l Hl). unfold sum16.
  rewrite sum_words_eq, fold16_eq by (try done; lia).
  pose proof (reduce_range (s + words l)) as Hr. unfold wrap, Z.lnot.
  change (2 ^ 16) with 65536. rewrite (Z.mod_small (reduce _)) by lia.
  rewrite <-(Z.mod_add _ 1) by lia. rewrite Z.mod_small; lia.
Qed.

(** Filling the zeroed checksum field makes the whole sum verify. *)
Lemma checksum_verifies pre post s :
  Nat.Even (length pre) -> is_bytes (pre ++ post) -> 0 <= s ->
  s + 65535 * (Z.of_nat (length (pre ++ post)) + 2) < 2 ^ 32 ->
  let c := sum16 (pre ++ [0; 0] ++ post) s in
  0 <= c < 2 ^ 16 /\ sum16 (pre ++ to_be 2 c ++ post) s = 0.
Proof.
  intros He Hb Hs Hlen c. apply Forall_app in Hb as [Hp Hq]. rewrite length_app in Hlen.
  pose proof (words_bound pre Hp). pose proof (words_bound post Hq).
  assert (is_bytes (pre ++ [0; 0] ++ post)) as Hz.
  { apply Forall_app_2; [done|]. apply Forall_app_2; [by_decide|done]. }
  assert (words (pre ++ [0; 0] ++ post) = words pre + words post) as Hw.
  { rewrite words_app by done. cbn [app words]. lia. }
  assert (c = 65535 - reduce (s + (words pre + words post))) as Hc.
  { unfold c. rewrite sum16_eq, Hw by (rewrite ?Hw; try done; lia). done. }
  pose proof (reduce_range (s + (words pre + words post))) as Hr. split; [lia|].
  assert (words (pre ++ to_be 2 c ++ post) = words pre + c + words post) as Hw'.
  { rewrite words_app by done. cbn [to_be to_le rev app words].
    rewrite (Z.mod_small (c / 256)) by (split; [apply Z.div_pos; lia|apply Z.div_lt_upper_bound; lia]).
    pose proof (Z.div_mod c 256). unfold to_be. cbn [to_le rev app words].
    lia. }
  rewrite sum16_eq, Hw'.
  - enough (reduce (s + (words pre + c + words post)) = 65535) by lia. unfold reduce at 1.
    rewrite decide_False by (unfold reduce in *; case_decide; lia). rewrite Hc.
    unfold reduce. case_decide as E.
    + replace (s + (words pre + (65535 - 0) + words post) - 1) with 65534 by lia. done.
    + set (t := s + (words pre + words post) - 1).
      replace (s + (words pre + (65535 - (1 + t mod 65535)) + words post) - 1)
        with (65534 + (t / 65535) * 65535) by (pose proof (Z.div_mod t 65535); lia).
      rewrite Z.mod_add by lia. done.
  - apply Forall_app_2; [done|]. apply Forall_app_2; [apply is_bytes_to_be|done].
  - done.
  - rewrite Hw'. lia.
Qed.

(** ** Writing fields side by side *)

Fixpoint layout (off : nat) (fs : list bytes) : list (nat * bytes) :=
  match fs with
  | [] => []
  | f :: fs => (off, f) :: layout (off + length f) fs
  end.

Lemma writes_layout fs pre old rest :
  length old = length (concat fs) ->
  writes (layout (length pre) fs) (pre ++ old ++ rest) = Ret (pre ++ concat fs ++ rest).
Proof.
  revert pre old. induction fs as [|f fs IH]; intros pre old Hl; cbn [layout writes concat] in *.
  { by destruct old. }
  rewrite length_app in Hl.
  rewrite copy_at_ok by (rewrite !length_app; lia). rewrite bind_ret.
  rewrite <-(take_drop (length f) old), <-(app_assoc (take _ _)).
  rewrite inserts_mid by (rewrite length_take; lia).
  rewrite <-app_assoc, (app_assoc pre f), <-length_app.
  rewrite IH by (rewrite length_drop; lia). by rewrite <-!app_assoc.
Qed.

(** Writing from the start of a buffer. *)
Lemma writes_at pre fs out :
  (length pre + length (concat fs) <= length out)%nat -> take (length pre) out = pre ->
  writes (layout (length pre) fs) out = Ret (pre ++ concat fs ++ drop (length pre + length (concat fs)) out).
Proof.
  intros Hl Hp. rewrite <-(take_drop (length pre) out) at 1. rewrite Hp.
  rewrite <-(take_drop (length (concat fs)) (drop (length pre) out)) at 1.
  rewrite writes_layout by (rewrite length_take, length_drop; lia). by rewrite drop_drop.
Qed.

Lemma writes_app ws1 ws2 out out' :
  writes ws1 out = Ret out' -> writes (ws1 ++ ws2) out = writes ws2 out'.
Proof.
  revert out. induction ws1 as [|[off src] ws1 IH]; intros out; cbn [writes app]; [by intros [= ->]|].
  destruct (copy_at out off src); [apply IH|done].
Qed.

(** The checksum slot [pre ++ [0;0] ++ post] at [lo], inside [out]. *)
Lemma put_checksum_spec (before pre post rest : bytes) lo hi pos init :
  lo = length before -> hi = (lo + length (pre ++ [0; 0]%Z ++ post))%nat -> pos = (lo + length pre)%nat ->
  put_checksum lo hi pos init (before ++ (pre ++ [0; 0] ++ post) ++ rest) =
  Ret (before ++ (pre ++ to_be 2 (sum16 (pre ++ [0; 0] ++ post) init) ++ post) ++ rest).
Proof.
  intros -> -> ->. unfold put_checksum.
  rewrite sub_ok by (rewrite !length_app; lia). rewrite bind_ret, slice_app_mid.
  rewrite copy_at_ok by (rewrite !length_app, length_to_be; cbn [length]; lia).
  f_equal. rewrite list_inserts_app_r. f_equal. rewrite <-!app_assoc. by rewrite inserts_mid.
Qed.

(** ** The frames *)

Definition eth_header (dst src : bytes) (ethertype : Z) : bytes := dst ++ src ++ to_be 2 ethertype.

Definition ip_pre (len : nat) (ident proto : Z) : bytes :=
  [0x45; 0] ++ to_be 2 (wrap16 (Z.of_nat len)) ++ to_be 2 ident ++ [0; 0; 64; proto].
Definition ip_header (len : nat) (ident proto csum : Z) (src dst : bytes) : bytes :=
  ip_pre len ident proto ++ to_be 2 csum ++ src ++ dst.

Definition tcp_pre (sport dport seq ack flags window : Z) : bytes :=
  to_be 2 sport ++ to_be 2 dport ++ to_be 4 seq ++ to_be 4 ack ++ [0x50; flags] ++ to_be 2 window.
Definition tcp_segment (sport dport seq ack flags window csum : Z) (payload : bytes) : bytes :=
  tcp_pre sport dport seq ack flags window ++ to_be 2 csum ++ [0; 0] ++ payload.

Definition udp_pre (sport dport : Z) (len : nat) : bytes :=
  to_be 2 sport ++ to_be 2 dport ++ to_be 2 (wrap16 (Z.of_nat len)).
Definition udp_datagram (sport dport csum : Z) (payload : bytes) : bytes :=
  udp_pre sport dport (8 + length payload) ++ to_be 2 csum ++ payload.

(** The whole buffer: VirtIO header, Ethernet, IPv4, transport. *)
Definition ip_frame (dst_mac src_mac : bytes) (ident proto ip_csum : Z) (src dst seg rest : bytes) : bytes :=
  replicate 12 0 ++ eth_header dst_mac src_mac ETH_P_IP ++
  ip_header (20 + length seg) ident proto ip_csum src dst ++ seg ++ rest.

(** Verification as a receiver does it. *)
Definition ip_header_ok (len : nat) (ident proto csum : Z) (src dst : bytes) : Prop :=
  0 <= csum < 2 ^ 16 /\ sum16 (ip_header len ident proto csum src dst) 0 = 0.
Definition segment_ok (src dst : bytes) (proto : Z) (seg : bytes) : Prop :=
  sum16 seg (pseudo_sum src dst proto (wrap16 (Z.of_nat (length seg)))) = 0.

Lemma list6_eq (l : bytes) : length l = 6%nat -> exists a b c d e f, l = [a; b; c; d; e; f].
Proof.
  intros H. destruct l as [|a [|b [|c [|d [|e [|f [|]]]]]]]; cbn in H; try lia. eauto 10.
Qed.

(** A typed address. *)
Definition mac_ok (m : bytes) : Prop := length m = 6%nat /\ is_bytes m.
Definition ip_ok (a : bytes) : Prop := length a = 4%nat /\ is_bytes a.

Lemma pseudo_sum_range src dst proto len :
  ip_ok src -> ip_ok dst -> is_byte proto -> 0 <= len < 2 ^ 16 ->
  0 <= pseudo_sum src dst proto len < 2 ^ 19.
Proof.
  intros [(a & b & c & d & ->)%list4_eq Hs] [(a' & b' & c' & d' & ->)%list4_eq Hd] Hp Hl.
  do 4 (apply Forall_cons in Hs as [? Hs]; apply Forall_cons in Hd as [? Hd]).
  unfold is_byte in *. unfold pseudo_sum, be16. cbn. lia.
Qed.

Lemma ip_pre_bytes len ident proto : is_byte proto -> is_bytes (ip_pre len ident proto).
Proof.
  intros Hp. unfold ip_pre. apply Forall_app_2; [by_decide|].
  do 2 (apply Forall_app_2; [apply is_bytes_to_be|]).
  do 3 (apply Forall_cons_2; [by_decide|]). by apply Forall_cons_2; [|constructor].
Qed.

(** The IPv4 header's checksum verifies. *)
Lemma ip_checksum_ok len ident proto src dst :
  ip_ok src -> ip_ok dst -> is_byte proto ->
  ip_header_ok len ident proto (sum16 (ip_header len ident proto 0 src dst) 0) src dst.
Proof.
  intros [Hs Hs'] [Hd Hd'] Hp. unfold ip_header_ok, ip_header.
  change (to_be 2 0) with [0; 0]. apply (checksum_verifies (ip_pre len ident proto)).
  - unfold ip_pre. rewrite !length_app, !length_to_be. by exists 5%nat.
  - apply Forall_app_2; [by apply ip_pre_bytes|by apply Forall_app_2].
  - lia.
  - unfold ip_pre. rewrite !length_app, !length_to_be, Hs, Hd. cbn. lia.
Qed.

(** ** The builders *)

(** Ethernet and IPv4 headers, written and checksummed, then the segment. *)
Section ip_packet.
Context (dst_mac src_mac src dst out : bytes) (ident proto : Z) (n : nat).
Context (Hdm : mac_ok dst_mac) (Hsm : mac_ok src_mac) (Hsrc : ip_ok src) (Hdst : ip_ok dst).
Context (Hlen : (46 <= length out)%nat).

Definition headers (csum : Z) : bytes :=
  replicate 12 0 ++ eth_header dst_mac src_mac ETH_P_IP ++ ip_header n ident proto csum src dst.

Lemma length_headers c : length (headers c) = 46%nat.
Proof.
  clear Hlen.
  unfold headers, eth_header, ip_header, ip_pre.
  rewrite !length_app, length_replicate, !length_to_be. cbn [length].
  destruct Hdm, Hsm, Hsrc, Hdst. lia.
Qed.

Lemma write_headers :
  (out' ← writes (eth_writes dst_mac src_mac ETH_P_IP ++ ip_writes 26 n ident proto src dst) out;
   put_checksum 26 46 36 0 out') =
  Ret (headers (sum16 (ip_header n ident proto 0 src dst) 0) ++ drop 46 out).
Proof.
  set (fs := [replicate 12 0; dst_mac; src_mac; to_be 2 ETH_P_IP; [0x45]; [0];
    to_be 2 (wrap16 (Z.of_nat n)); to_be 2 ident; to_be 2 0; [64]; [proto]; to_be 2 0; src; dst]).
  assert (eth_writes dst_mac src_mac ETH_P_IP ++ ip_writes 26 n ident proto src dst = layout 0 fs) as ->.
  { unfold fs. cbn [layout]. destruct Hdm as [-> _], Hsm as [-> _], Hsrc as [-> _].
    rewrite length_replicate, !length_to_be. reflexivity. }
  assert (concat fs = headers 0) as Hf.
  { unfold fs, headers, eth_header, ip_header, ip_pre. cbn [concat]. by rewrite app_nil_r, <-!app_assoc. }
  rewrite (writes_at [] fs) by (rewrite ?Hf, ?length_headers; try done; cbn; lia).
  rewrite Hf, length_headers. cbn [app length Nat.add].
  rewrite bind_ret. unfold headers, ip_header. change (to_be 2 0) with [0; 0].
  rewrite (app_assoc (replicate 12 0)), <-(app_assoc _ _ (drop 46 out)).
  rewrite (put_checksum_spec _ (ip_pre n ident proto) (src ++ dst)); [by rewrite <-!app_assoc|..].
  - unfold eth_header. rewrite !length_app, length_replicate, length_to_be. destruct Hdm, Hsm. lia.
  - unfold ip_pre. rewrite !length_app, !length_to_be. cbn [length]. destruct Hsrc, Hdst. lia.
  - unfold ip_pre. rewrite !length_app, !length_to_be. cbn [length]. lia.
Qed.
End ip_packet.

(** A transport segment, written behind the headers and checksummed. *)
Lemma write_segment fs (hd out pre post : bytes) (lo hi pos : nat) init :
  length hd = lo -> concat fs = pre ++ [0; 0] ++ post ->
  hi = (lo + length (concat fs))%nat -> pos = (lo + length pre)%nat ->
  (length (concat fs) <= length out)%nat ->
  (o ← writes (layout lo fs) (hd ++ out); put_checksum lo hi pos init o) =
  Ret (hd ++ (pre ++ to_be 2 (sum16 (pre ++ [0; 0] ++ post) init) ++ post) ++
       drop (length (concat fs)) out).
Proof.
  intros <- E -> -> Hl. rewrite (writes_at hd fs) by (rewrite ?length_app, ?take_app_length; try done; lia).
  rewrite bind_ret, drop_app_ge by lia. rewrite E.
  replace (length hd + _ - length hd)%nat with (length (pre ++ [0; 0] ++ post)) by lia.
  by apply put_checksum_spec.
Qed.

Lemma length_tcp_pre sport dport seq ack flags window :
  length (tcp_pre sport dport seq ack flags window) = 16%nat.
Proof. unfold tcp_pre. rewrite !length_app, !length_to_be. done. Qed.

Lemma length_tcp_segment sport dport seq ack flags window c payload :
  length (tcp_segment sport dport seq ack flags window c payload) = (20 + length payload)%nat.
Proof. unfold tcp_segment. rewrite !length_app, length_tcp_pre, length_to_be. cbn. lia. Qed.

Lemma tcp_pre_bytes sport dport seq ack flags window :
  is_byte flags -> is_bytes (tcp_pre sport dport seq ack flags window).
Proof.
  intros Hf. unfold tcp_pre. do 4 (apply Forall_app_2; [apply is_bytes_to_be|]).
  apply Forall_app_2; [|apply is_bytes_to_be]. apply Forall_cons_2; [by_decide|]. by apply Forall_cons_2; [|constructor].
Qed.

Lemma length_udp_pre sport dport n : length (udp_pre sport dport n) = 6%nat.
Proof. unfold udp_pre. rewrite !length_app, !length_to_be. done. Qed.

Lemma udp_pre_bytes sport dport n : is_bytes (udp_pre sport dport n).
Proof. unfold udp_pre. do 2 (apply Forall_app_2; [apply is_bytes_to_be|]). apply is_bytes_to_be. Qed.

Lemma wrap16_range z : 0 <= wrap16 z < 2 ^ 16.
Proof. unfold wrap. apply Z.mod_pos_bound. lia. Qed.

(** The two transport checksums, as the builders compute them. *)
Definition tcp_csum (src dst : bytes) (sport dport seq ack flags window : Z) (payload : bytes) : Z :=
  sum16 (tcp_segment sport dport seq ack flags window 0 payload)
    (pseudo_sum src dst 6 (wrap16 (Z.of_nat (20 + length payload)))).
Definition udp_csum (src dst : bytes) (sport dport : Z) (payload : bytes) : Z :=
  sum16 (udp_datagram sport dport 0 payload)
    (pseudo_sum src dst 17 (wrap16 (Z.of_nat (8 + length payload)))).
Definition ip_csum (n : nat) (ident proto : Z) (src dst : bytes) : Z :=
  sum16 (ip_header n ident proto 0 src dst) 0.

Section builders.
Context (dst_mac src_mac src dst out payload : bytes) (ident : Z).
Context (Hdm : mac_ok dst_mac) (Hsm : mac_ok src_mac) (Hsrc : ip_ok src) (Hdst : ip_ok dst).
Context (Hpay : is_bytes payload) (Hplen : (length payload <= 2000)%nat).

Lemma tcp_checksum_ok sport dport seq ack flags window :
  is_byte flags ->
  segment_ok src dst 6 (tcp_segment sport dport seq ack flags window
    (tcp_csum src dst sport dport seq ack flags window payload) payload).
Proof.
  intros Hf. unfold segment_ok. rewrite length_tcp_segment.
  unfold tcp_csum, tcp_segment. change (to_be 2 0) with [0; 0].
  pose proof (length_tcp_pre sport dport seq ack flags window) as Hl.
  pose proof (pseudo_sum_range src dst 6 (wrap16 (Z.of_nat (20 + length payload))) Hsrc Hdst
    ltac:(by_decide) (wrap16_range _)) as Hr.
  apply checksum_verifies.
  - rewrite Hl. by exists 8%nat.
  - apply Forall_app_2; [by apply tcp_pre_bytes|]. apply Forall_app_2; [by_decide|done].
  - lia.
  - rewrite !length_app, Hl. cbn [length]. lia.
Qed.

Lemma udp_checksum_ok sport dport :
  segment_ok src dst 17 (udp_datagram sport dport (udp_csum src dst sport dport payload) payload).
Proof.
  pose proof (length_udp_pre sport dport (8 + length payload)) as Hl. unfold segment_ok.
  assert (length (udp_datagram sport dport (udp_csum src dst sport dport payload) payload) =
          8 + length payload)%nat as -> by (unfold udp_datagram; rewrite !length_app, Hl, length_to_be; lia).
  unfold udp_csum, udp_datagram. change (to_be 2 0) with [0; 0].
  pose proof (pseudo_sum_range src dst 17 (wrap16 (Z.of_nat (8 + length payload))) Hsrc Hdst
    ltac:(by_decide) (wrap16_range _)) as Hr.
  apply checksum_verifies.
  - rewrite Hl. by exists 3%nat.
  - apply Forall_app_2; [apply udp_pre_bytes|done].
  - lia.
  - rewrite !length_app, Hl. lia.
Qed.

(** [hd] followed by a written segment is a frame. *)
Lemma frame_eq n proto c seg rest :
  n = (20 + length seg)%nat ->
  headers dst_mac src_mac src dst ident proto n c ++ seg ++ rest =
  ip_frame dst_mac src_mac ident proto c src dst seg rest.
Proof. intros ->. unfold headers, ip_frame. by rewrite <-!app_assoc. Qed.

Lemma build_tcp_spec sport dport seq ack flags window :
  (66 + length payload <= length out)%nat ->
  build_tcp src_mac dst_mac src dst sport dport seq ack flags window payload ident out =
  Ret (ip_frame dst_mac src_mac ident 6 (ip_csum (40 + length payload) ident 6 src dst) src dst
         (tcp_segment sport dport seq ack flags window
           (tcp_csum src dst sport dport seq ack flags window payload) payload)
         (drop (66 + length payload) out),
       (66 + length payload)%nat).
Proof.
  intros Hlen. set (n := (20 + (20 + length payload))%nat).
  pose proof (write_headers dst_mac src_mac src dst out ident 6 n Hdm Hsm Hsrc Hdst ltac:(lia)) as Hw.
  unfold build_tcp. rewrite decide_False by (unfold VIRTIO_NET_HDR; lia). cbv zeta.
  change (VIRTIO_NET_HDR + 14)%nat with 26%nat. change (26 + 20)%nat with 46%nat.
  change (26 + 10)%nat with 36%nat. fold n.
  destruct (writes (eth_writes dst_mac src_mac ETH_P_IP ++ _) out) as [o1|]; [|done].
  rewrite !bind_ret in *. rewrite Hw, bind_ret. clear Hw.
  set (hd := headers _ _ _ _ _ _ _ _). assert (length hd = 46%nat) as Hhd by (by apply length_headers).
  set (fs := [to_be 2 sport; to_be 2 dport; to_be 4 seq; to_be 4 ack; [0x50]; [flags]; to_be 2 window;
    to_be 2 0; to_be 2 0; payload]).
  assert (concat fs = tcp_pre sport dport seq ack flags window ++ [0; 0] ++ [0; 0] ++ payload) as Hf.
  { unfold fs, tcp_pre. cbn [concat]. rewrite app_nil_r, <-!app_assoc. done. }
  assert (length (concat fs) = 20 + length payload)%nat as Hn
    by (rewrite Hf, !length_app, length_tcp_pre; cbn [length]; lia).
  pose proof (write_segment fs hd (drop 46 out) _ ([0; 0] ++ payload) 46 (46 + (20 + length payload)) (46 + 16)
    (pseudo_sum src dst 6 (wrap16 (Z.of_nat (20 + length payload)))) Hhd Hf) as Hs.
  rewrite Hn, length_tcp_pre in Hs. specialize (Hs eq_refl eq_refl).
  rewrite length_drop, drop_drop in Hs. specialize (Hs ltac:(lia)).
  change (layout 46 fs) with
    [(46, to_be 2 sport); (46 + 2, to_be 2 dport); (46 + 4, to_be 4 seq); (46 + 8, to_be 4 ack);
     (46 + 12, [0x50]%Z); (46 + 13, [flags]); (46 + 14, to_be 2 window); (46 + 16, to_be 2 0%Z);
     (46 + 18, to_be 2 0%Z); (46 + 20, payload)]%nat in Hs.
  destruct (writes _ (hd ++ drop 46 out)) as [o2|]; [|done].
  rewrite !bind_ret in *. rewrite Hs, bind_ret. unfold hd. rewrite frame_eq.
  - unfold ip_csum, tcp_csum, tcp_segment. change (to_be 2 0) with [0; 0].
    apply f_equal, f_equal2; [|unfold VIRTIO_NET_HDR; lia].
    replace (46 + (20 + length payload))%nat with (66 + length payload)%nat by lia. done.
  - rewrite !length_app, length_tcp_pre, length_to_be. unfold n. cbn [length]. lia.
Qed.

Lemma build_udp_spec sport dport :
  (54 + length payload <= length out)%nat ->
  build_udp dst_mac src_mac src dst sport dport ident payload out =
  Ret (ip_frame dst_mac src_mac ident 17 (ip_csum (28 + length payload) ident 17 src dst) src dst
         (udp_datagram sport dport (udp_csum src dst sport dport payload) payload)
         (drop (54 + length payload) out),
       (54 + length payload)%nat).
Proof.
  intros Hlen. set (n := (20 + (8 + length payload))%nat).
  pose proof (write_headers dst_mac src_mac src dst out ident 17 n Hdm Hsm Hsrc Hdst ltac:(lia)) as Hw.
  unfold build_udp. rewrite decide_False by (unfold VIRTIO_NET_HDR; lia). cbv zeta.
  change (VIRTIO_NET_HDR + 14)%nat with 26%nat. change (26 + 20)%nat with 46%nat.
  change (26 + 10)%nat with 36%nat. fold n.
  destruct (writes (eth_writes dst_mac src_mac ETH_P_IP ++ _) out) as [o1|]; [|done].
  rewrite !bind_ret in *. rewrite Hw, bind_ret. clear Hw.
  set (hd := headers _ _ _ _ _ _ _ _). assert (length hd = 46%nat) as Hhd by (by apply length_headers).
  set (fs := [to_be 2 sport; to_be 2 dport; to_be 2 (wrap16 (Z.of_nat (8 + length payload)));
    to_be 2 0; payload]).
  assert (concat fs = udp_pre sport dport (8 + length payload) ++ [0; 0] ++ payload) as Hf.
  { unfold fs, udp_pre. cbn [concat]. rewrite app_nil_r, <-!app_assoc. done. }
  assert (length (concat fs) = 8 + length payload)%nat as Hn
    by (rewrite Hf, !length_app, length_udp_pre; cbn [length]; lia).
  pose proof (write_segment fs hd (drop 46 out) _ payload 46 (46 + (8 + length payload)) (46 + 6)
    (pseudo_sum src dst 17 (wrap16 (Z.of_nat (8 + length payload)))) Hhd Hf) as Hs.
  rewrite Hn, length_udp_pre in Hs. specialize (Hs eq_refl eq_refl).
  rewrite length_drop, drop_drop in Hs. specialize (Hs ltac:(lia)).
  change (layout 46 fs) with
    [(46, to_be 2 sport); (46 + 2, to_be 2 dport);
     (46 + 4, to_be 2 (wrap16 (Z.of_nat (8 + length payload)))); (46 + 6, to_be 2 0%Z);
     (46 + 8, payload)]%nat in Hs.
  destruct (writes _ (hd ++ drop 46 out)) as [o2|]; [|done].
  rewrite !bind_ret in *. rewrite Hs, bind_ret. unfold hd. rewrite frame_eq.
  - unfold ip_csum, udp_csum, udp_datagram. change (to_be 2 0) with [0; 0].
    apply f_equal, f_equal2; [|unfold VIRTIO_NET_HDR; lia].
    replace (46 + (8 + length payload))%nat with (54 + length payload)%nat by lia. done.
  - rewrite !length_app, length_udp_pre, length_to_be. unfold n. lia.
Qed.
End builders.

(** ** Properties of the builders *)

(** C18: every TCP frame the stack sends (SYN, ACK, data) is well formed: with typed
    arguments and a payload that fits the transmit buffer no slice is out of
    range, the buffer holds VirtIO header, Ethernet, IPv4 and TCP headers with
    the given ports, sequence numbers and flags, then the payload; both
    checksums verify at the receiver; a buffer that is too small is left alone
    and 0 is returned. *)
Theorem build_tcp_correct our_mac gw_mac src dst sport dport seq ack flags window payload ident out :
  mac_ok our_mac -> mac_ok gw_mac -> ip_ok src -> ip_ok dst -> is_byte flags ->
  is_bytes payload -> (length payload <= 2000)%nat ->
  let total := (66 + length payload)%nat in
  build_tcp our_mac gw_mac src dst sport dport seq ack flags window payload ident out =
    (if decide (length out < total)%nat then Ret (out, 0%nat)
     else
       let seg := tcp_segment sport dport seq ack flags window
                    (tcp_csum src dst sport dport seq ack flags window payload) payload in
       Ret (ip_frame gw_mac our_mac ident 6 (ip_csum (20 + length seg) ident 6 src dst) src dst seg
              (drop total out), total)) /\
  ip_header_ok (40 + length payload) ident 6 (ip_csum (40 + length payload) ident 6 src dst) src dst /\
  segment_ok src dst 6 (tcp_segment sport dport seq ack flags window
    (tcp_csum src dst sport dport seq ack flags window payload) payload).
Proof.
  intros Ho Hg Hs Hd Hf Hp Hpl. cbv zeta. split_and!.
  - destruct (decide (length out < 66 + length payload)%nat) as [Hl|Hl].
    + unfold build_tcp. rewrite decide_True; [done|]. unfold VIRTIO_NET_HDR. lia.
    + rewrite build_tcp_spec by (done || lia). rewrite length_tcp_segment. done.
  - apply ip_checksum_ok; [done|done|by_decide].
  - by apply tcp_checksum_ok.
Qed.

Lemma build_tcp_correct_witness :
  let seg := tcp_segment LOCAL_PORT 80 7 9 0x18 0x8000
    (tcp_csum [10; 0; 2; 15] [1; 2; 3; 4] LOCAL_PORT 80 7 9 0x18 0x8000 [71; 69; 84]) [71; 69; 84] in
  build_tcp (replicate 6 1) (replicate 6 2) [10; 0; 2; 15] [1; 2; 3; 4] LOCAL_PORT 80 7 9 0x18 0x8000
    [71; 69; 84] 5 (replicate 100 0) =
    Ret (ip_frame (replicate 6 2) (replicate 6 1) 5 6 (ip_csum 43 5 6 [10; 0; 2; 15] [1; 2; 3; 4])
           [10; 0; 2; 15] [1; 2; 3; 4] seg (replicate 31 0), 69%nat) /\
  ip_header_ok 43 5 6 (ip_csum 43 5 6 [10; 0; 2; 15] [1; 2; 3; 4]) [10; 0; 2; 15] [1; 2; 3; 4] /\
  segment_ok [10; 0; 2; 15] [1; 2; 3; 4] 6 seg.
Proof.
  apply (build_tcp_correct (replicate 6 1) (replicate 6 2) [10; 0; 2; 15] [1; 2; 3; 4] LOCAL_PORT 80 7 9
    0x18 0x8000 [71; 69; 84] 5 (replicate 100 0)); try by_decide; cbn; lia.
Defined.

(** ** DNS names *)

Definition label_ok (l : bytes) : Prop := (1 <= length l <= 63)%nat.
Definition enc_label (l : bytes) : bytes := Z.of_nat (length l) :: l.
Definition enc_labels (ls : list bytes) : bytes := ls ≫= enc_label.
(** The encoding of a host name: its labels, each after its length, and a zero. *)
Definition qname (host : bytes) : bytes := enc_labels (split_on 46 host) ++ [0].

Lemma enc_labels_cons l ls : enc_labels (l :: ls) = enc_label l ++ enc_labels ls.
Proof. reflexivity. Qed.

(** One label written over the unused part of the buffer. *)
Lemma put_label enc l junk :
  label_ok l -> (1 + length l <= length junk)%nat ->
  (o ← wr (enc ++ junk) (length enc) (wrap8 (Z.of_nat (length l)));
   copy_at o (length enc + 1) l) = Ret (enc ++ enc_label l ++ drop (1 + length l) junk).
Proof.
  intros [H1 H2] Hj. rewrite wr_ok by (rewrite length_app; lia). rewrite bind_ret.
  unfold wrap. rewrite Z.mod_small by lia.
  rewrite copy_at_ok by (rewrite length_insert, length_app; lia). f_equal.
  rewrite insert_app_r_alt, Nat.sub_diag, list_inserts_app_r by lia.
  f_equal. destruct junk as [|x junk]; [cbn in Hj; lia|]. cbn [insert list_insert].
  rewrite inserts_split by (cbn [length] in *; lia). done.
Qed.

Lemma split_len c l : exists f fs, split_on c l = f :: fs /\ (length f <= length l)%nat.
Proof.
  induction l as [|x l (f & fs & E & Hl)]; cbn [split_on]; [by exists [], []|].
  destruct (decide (x = c)); [exists [], (split_on c l); cbn; split; [done|lia]|].
  rewrite E. exists (x :: f), fs. cbn. split; [done|lia].
Qed.

(** What follows the loop. *)
Definition qname_finish (hostname : bytes) (r : option (nat * nat * bytes)) : rust (option (bytes * nat)) :=
  match r with
  | None => Ret None
  | Some (pos, start, out) =>
      let lab := (length hostname - start)%nat in
      if decide (lab = 0 \/ 63 < lab \/ length out < pos + 1 + lab + 1)%nat then Ret None
      else
        out ← wr out pos (wrap8 (Z.of_nat lab));
        s ← sub hostname start (length hostname);
        out ← copy_at out (pos + 1) s;
        out ← wr out (pos + 1 + lab) 0;
        Ret (Some (out, (pos + 1 + lab + 1)%nat))
  end.

Lemma bind_assoc3 {A B C} (m : rust A) (f : A -> rust B) (g : B -> rust C) :
  (x ← m; y ← f x; g y) = (y ← (x ← m; f x); g y).
Proof. by destruct m. Qed.

Lemma qname_finish_spec pre seg enc junk :
  (length seg + 2 <= length junk)%nat ->
  qname_finish (pre ++ seg) (Some (length enc, length pre, enc ++ junk)) =
  Ret (if decide (label_ok seg)
       then Some (enc ++ enc_label seg ++ [0] ++ drop (length seg + 2) junk, (length enc + length seg + 2)%nat)
       else None).
Proof.
  intros Hj. unfold qname_finish. rewrite length_app.
  replace (length pre + length seg - length pre)%nat with (length seg) by lia.
  unfold label_ok. destruct (decide (1 <= length seg <= 63)%nat) as [Hok|Hok].
  2:{ rewrite decide_True by lia. done. }
  rewrite decide_False by (rewrite length_app; lia).
  assert (sub (pre ++ seg) (length pre) (length pre + length seg) = Ret seg) as Hs.
  { rewrite sub_ok by (rewrite length_app; lia). f_equal. rewrite <-(app_nil_r seg) at 1.
    apply slice_app_mid. }
  pose proof (put_label enc seg junk Hok ltac:(lia)) as Hp.
  destruct (wr (enc ++ junk) _ _) as [o1|]; [|done]. rewrite !bind_ret, Hs, bind_ret in *.
  rewrite Hp, bind_ret.
  rewrite wr_ok by (rewrite !length_app, length_drop; cbn [length enc_label]; lia). rewrite bind_ret.
  do 2 f_equal. f_equal; [|lia].
  replace (length enc + 1 + length seg)%nat with (length enc + (length (enc_label seg) + 0))%nat
    by (cbn [length enc_label]; lia).
  rewrite insert_app_r. f_equal. rewrite insert_app_r. f_equal.
  destruct (drop (1 + length seg) junk) as [|x j] eqn:E.
  { apply (f_equal length) in E. rewrite length_drop in E. cbn in E. lia. }
  replace (length seg + 2)%nat with (1 + length seg + 1)%nat by lia.
  rewrite <-drop_drop, E. done.
Qed.

Lemma qname_loop_spec pre seg l enc junk :
  (length seg + length l + 2 <= length junk)%nat ->
  let host := pre ++ seg ++ l in
  (r ← qname_loop host l (length pre + length seg) (length enc) (length pre) (enc ++ junk);
   qname_finish host r) =
  Ret (match split_on 46 l with
       | f :: fs =>
           let ls := (seg ++ f) :: fs in
           if decide (Forall label_ok ls)
           then Some (enc ++ enc_labels ls ++ [0] ++ drop (length (enc_labels ls) + 1) junk,
                      (length enc + length (enc_labels ls) + 1)%nat)
           else None
       | [] => None
       end).
Proof.
  revert pre seg enc junk. induction l as [|c l IH]; intros pre seg enc junk Hj host; cbn [qname_loop split_on].
  { rewrite bind_ret. unfold host. rewrite app_nil_r, qname_finish_spec by (cbn in Hj; lia).
    cbn zeta. destruct (decide (label_ok seg)) as [Hok|Hok].
    2:{ rewrite decide_False; [done|]. by rewrite Forall_singleton. }
    rewrite decide_True by (by apply Forall_singleton).
    rewrite enc_labels_cons. cbn [enc_labels mbind list_bind]. rewrite app_nil_r.
    cbn [enc_label length]. do 3 f_equal; [|lia]. do 3 f_equal. f_equal. lia. }
  cbn [length] in Hj. destruct (decide (c = 46)) as [->|Hc].
  - replace (length pre + length seg - length pre)%nat with (length seg) by lia.
    destruct (split_len 46 l) as (f & fs & E & Hf). rewrite E. cbn zeta. rewrite app_nil_r.
    destruct (decide (label_ok seg)) as [Hok|Hok].
    2:{ rewrite decide_True by (unfold label_ok in Hok; lia). rewrite decide_False; [done|].
        by intros [? _]%Forall_cons. }
    rewrite decide_False by (rewrite length_app; unfold label_ok in Hok; lia).
    assert (sub host (length pre) (length pre + length seg) = Ret seg) as Hs.
    { unfold host. rewrite sub_ok by (rewrite !length_app; lia). f_equal. apply slice_app_mid. }
    pose proof (put_label enc seg junk Hok ltac:(lia)) as Hp.
    destruct (wr (enc ++ junk) _ _) as [o1|]; [|done]. rewrite !bind_ret, Hs, bind_ret in *.
    rewrite Hp, bind_ret. unfold host.
    specialize (IH (pre ++ seg ++ [46]) [] (enc ++ enc_label seg) (drop (1 + length seg) junk)).
    rewrite !length_app, length_drop in IH. specialize (IH ltac:(cbn; lia)).
    rewrite <-!app_assoc in IH. cbn [app length] in IH. rewrite E in IH.
    replace (length pre + (length seg + 1) + 0)%nat with (S (length pre + length seg)) in IH by lia.
    replace (length pre + (length seg + 1))%nat with (S (length pre + length seg)) in IH by lia.
    replace (length enc + length (enc_label seg))%nat with (length enc + 1 + length seg)%nat in IH
      by (cbn [enc_label length]; lia).
    cbn zeta in IH. rewrite IH.
    destruct (decide (Forall label_ok (f :: fs))) as [Hfs|Hfs].
    + rewrite (decide_True (P := Forall label_ok (seg :: _))) by (by apply Forall_cons).
      rewrite (enc_labels_cons seg), length_app.
      rewrite drop_drop, <-!app_assoc. do 3 f_equal; [|cbn [enc_label length]; lia].
      do 5 f_equal. cbn [enc_label length]. lia.
    + rewrite (decide_False (P := Forall label_ok (seg :: _))); [done|]. by intros [_ ?]%Forall_cons.
  - specialize (IH pre (seg ++ [c]) enc junk). rewrite length_app, <-app_assoc in IH.
    cbn [app length] in IH. specialize (IH ltac:(lia)).
    replace (length pre + (length seg + 1))%nat with (S (length pre + length seg)) in IH by lia.
    unfold host. cbn zeta in IH. rewrite IH. destruct (split_len 46 l) as (f & fs & E & _). rewrite E.
    by rewrite <-app_assoc.
Qed.

Lemma length_enc_labels l : length (enc_labels (split_on 46 l)) = S (length l).
Proof.
  induction l as [|c l IH]; [done|]. cbn [split_on]. destruct (decide (c = 46)).
  - rewrite enc_labels_cons, length_app, IH. done.
  - destruct (split_on 46 l) as [|f fs]; [done|].
    rewrite enc_labels_cons, length_app in *. cbn [enc_label length] in *. lia.
Qed.

Lemma length_qname host : length (qname host) = (length host + 2)%nat.
Proof. unfold qname. rewrite length_app, length_enc_labels. cbn. lia. Qed.

(** ** Skipping names *)

(** A name in a message: labels, then the root or a compression pointer. *)
Record dname := { dn_labels : list bytes; dn_ptr : option (Z * Z) }.
Definition dname_tail (n : dname) : bytes :=
  match n.(dn_ptr) with None => [0] | Some (p, q) => [p; q] end.
Definition enc_dname (n : dname) : bytes := enc_labels n.(dn_labels) ++ dname_tail n.
Definition dname_ok (n : dname) : Prop :=
  Forall label_ok n.(dn_labels) /\
  match n.(dn_ptr) with None => True | Some (p, _) => Z.land p 0xC0 = 0xC0 end.

Lemma label_len_bits : Forall (fun z => Z.land z 0xC0 <> 0xC0) (seqZ 0 64).
Proof. by_decide. Qed.

Lemma skip_dns_name_step pre l post fuel :
  label_ok l ->
  skip_dns_name (S fuel) (pre ++ enc_label l ++ post) (length pre) =
  skip_dns_name fuel (pre ++ enc_label l ++ post) (length (pre ++ enc_label l)).
Proof.
  intros Hl. pose proof label_len_bits as Hb. rewrite Forall_forall in Hb.
  specialize (Hb (Z.of_nat (length l))). rewrite elem_of_seqZ in Hb.
  unfold label_ok in Hl. cbn [skip_dns_name].
  change (enc_label l ++ post) with (Z.of_nat (length l) :: l ++ post).
  rewrite decide_False by (rewrite !length_app; cbn [length]; lia).
  rewrite rd_mid by done. rewrite bind_ret.
  rewrite decide_False by lia. rewrite decide_False by (apply Hb; lia). rewrite Nat2Z.id.
  rewrite decide_False by (rewrite !length_app; cbn [length]; rewrite length_app; lia).
  rewrite length_app. cbn [enc_label length]. f_equal. lia.
Qed.

Lemma skip_dns_name_spec n pre post fuel :
  dname_ok n -> (length n.(dn_labels) < fuel)%nat ->
  skip_dns_name fuel (pre ++ enc_dname n ++ post) (length pre) =
  Ret (Some (length (pre ++ enc_dname n))).
Proof.
  destruct n as [ls p]. unfold dname_ok, enc_dname, dname_tail. cbn [dn_labels dn_ptr]. intros [Hls Hp].
  revert pre fuel. induction Hls as [|l ls Hl _ IH]; intros pre fuel Hf.
  { cbn [enc_labels mbind list_bind app]. destruct fuel as [|fuel]; [cbn in Hf; lia|]. cbn [skip_dns_name].
    rewrite decide_False by (rewrite length_app; destruct p as [[]|]; cbn [app length]; lia).
    destruct p as [[p q]|]; cbn [app].
    - rewrite rd_mid by done. rewrite bind_ret, decide_False by (intros ->; discriminate Hp).
      rewrite decide_True by done. rewrite length_app. done.
    - rewrite rd_mid by done. rewrite bind_ret, decide_True by done. rewrite length_app. done. }
  destruct fuel as [|fuel]; [cbn in Hf; lia|]. rewrite enc_labels_cons, <-!app_assoc.
  rewrite skip_dns_name_step by done.
  specialize (IH (pre ++ enc_label l) fuel ltac:(cbn [length] in Hf; lia)).
  rewrite <-!app_assoc in IH. rewrite IH. by rewrite !length_app.
Qed.

Lemma enc_labels_length ls : (length ls <= length (enc_labels ls))%nat.
Proof.
  induction ls as [|l ls IH]; [done|]. rewrite enc_labels_cons, length_app. cbn [enc_label length]. lia.
Qed.

Lemma skip_name_spec n pre post i :
  dname_ok n -> i = length pre ->
  skip_name (pre ++ enc_dname n ++ post) i = Ret (Some (i + length (enc_dname n))%nat).
Proof.
  intros Hn ->. unfold skip_name. rewrite skip_dns_name_spec; [by rewrite length_app|done|].
  rewrite !length_app. pose proof (enc_labels_length (dn_labels n)). unfold enc_dname.
  rewrite !length_app. lia.
Qed.

(** The walk never leaves the message and always ends. *)
Lemma skip_dns_name_total fuel buf i :
  (length buf < i + fuel)%nat -> (0 < fuel)%nat -> exists r, skip_dns_name fuel buf i = Ret r.
Proof.
  revert i. induction fuel as [|fuel IH]; intros i Hf Hp; [lia|]. cbn [skip_dns_name].
  destruct (decide _); [eauto|]. rewrite rd_ok by lia. rewrite bind_ret.
  destruct (decide _); [eauto|]. destruct (decide _); [eauto|].
  destruct (decide (length buf < i + 1 + _)%nat); [eauto|].
  apply IH; lia.
Qed.

Lemma skip_name_total buf i : exists r, skip_name buf i = Ret r.
Proof. apply skip_dns_name_total; lia. Qed.

Lemma rd16_ok buf i : (i + 2 <= length buf)%nat -> exists v, rd16 buf i = Ret v.
Proof. intros H. unfold rd16. no_panic. eauto. Qed.

Lemma skip_questions_total qd buf off : exists r, skip_questions qd buf off = Ret r.
Proof.
  revert off. induction qd as [|qd IH]; intros off; cbn [skip_questions]; [eauto|].
  destruct (skip_name_total buf off) as [[o|] ->]; rewrite bind_ret; [|eauto].
  destruct (decide _); [eauto|apply IH].
Qed.

Lemma scan_answers_total an buf off :
  exists r, scan_answers an buf off = Ret r /\ from_option (fun ip => length ip = 4%nat) True r.
Proof.
  revert off. induction an as [|an IH]; intros off; cbn [scan_answers]; [by exists None|].
  destruct (skip_name_total buf off) as [[o|] ->]; rewrite bind_ret; [|by exists None].
  destruct (decide _) as [|Ho]; [by exists None|].
  destruct (rd16_ok buf o) as [typ ->]; [lia|]. destruct (rd16_ok buf (o + 8)) as [rl ->]; [lia|].
  rewrite !bind_ret. destruct (decide (length buf < o + 10 + _)%nat) as [|Hr]; [by exists None|].
  destruct (decide (typ = 1 /\ rl = 4)) as [[_ ->]|]; [|apply IH].
  change (Z.to_nat 4) with 4%nat in Hr. no_panic. by eexists.
Qed.

(** No DNS reply can crash or hang the kernel: on any byte string the parser
    returns - it never indexes out of range, and compression pointers or label
    lengths cannot make the name walk loop - and an accepted answer is a
    four-byte address. *)
Theorem parse_dns_a_total buf id :
  exists r, parse_dns_a buf id = Ret r /\ from_option (fun ip => length ip = 4%nat) True r.
Proof.
  unfold parse_dns_a. destruct (decide _) as [|Hl]; [by exists None|].
  destruct (rd16_ok buf 0) as [v ->]; [lia|]. rewrite bind_ret.
  destruct (decide _); [by exists None|].
  destruct (rd16_ok buf 4) as [qd ->]; [lia|]. destruct (rd16_ok buf 6) as [an ->]; [lia|].
  rewrite !bind_ret. destruct (skip_questions_total (Z.to_nat qd) buf 12) as [[off|] ->];
    rewrite bind_ret; [apply scan_answers_total|by exists None].
Qed.

(** The names the encoder accepts. *)
Definition name_valid (host : bytes) : Prop :=
  host <> [] /\ (length host <= 200)%nat /\ Forall label_ok (split_on 46 host).
#[export] Instance name_valid_dec host : Decision (name_valid host).
Proof. unfold name_valid. apply _. Defined.

Lemma encode_dns_qname_eq host out :
  (length host + 2 <= length out)%nat ->
  encode_dns_qname host out =
    Ret (if decide (name_valid host)
         then Some (qname host ++ drop (length host + 2) out, (length host + 2)%nat) else None).
Proof.
  intros Hl. unfold encode_dns_qname. destruct (decide (host = [] \/ _)) as [Hc|Hc].
  { rewrite decide_False; [done|]. intros (? & ? & ?). destruct Hc; [done|lia]. }
  pose proof (qname_loop_spec [] [] host [] out ltac:(cbn; lia)) as Hq. cbn [app length] in Hq.
  cbn [Nat.add] in Hq. unfold qname_finish in Hq. rewrite Hq. clear Hq.
  pose proof (length_enc_labels host) as He.
  destruct (decide (name_valid host)) as [(Hne & Hh & Hv)|Hv]; unfold name_valid, qname in *;
    destruct (split_on_cons 46 host) as (f & fs & E); rewrite E in *; cbn [app Nat.add]; cbn zeta.
  - rewrite decide_True by done. rewrite He, <-app_assoc. cbn [app]. do 3 f_equal; [|lia]. do 3 f_equal. lia.
  - rewrite decide_False; [done|]. intros Hf. apply Hv. split; [tauto|]. split; [lia|done].
Qed.

Lemma dns_query_total host tx_id :
  (length host <= 200)%nat ->
  exists r, dns_query host tx_id = Ret r /\
    match r with Some (d, dp) => (dp <= length d)%nat | None => True end.
Proof.
  intros Hh. unfold dns_query. cbn [writes]. no_panic.
  rewrite encode_dns_qname_eq, bind_ret by (rewrite length_drop, !length_inserts, length_replicate; lia).
  destruct (decide (name_valid host)) as [_|_]; [|by eexists]. cbv zeta.
  pose proof (length_qname host) as Hq. no_panic. eexists. split; [reflexivity|].
  cbv beta iota. rewrite !length_inserts. len.
Qed.

(** DNS names: for a buffer with room for it the encoder succeeds exactly on
    non-empty names of at most 200 bytes whose labels have 1 to 63 bytes; it
    writes every label after its length and the root, touches nothing else, and
    the reply parser skips the name in one piece. *)
Theorem encode_dns_qname_spec host out rest :
  (length host + 2 <= length out)%nat ->
  encode_dns_qname host out =
    Ret (if decide (name_valid host)
         then Some (qname host ++ drop (length host + 2) out, (length host + 2)%nat) else None) /\
  (name_valid host -> skip_name (qname host ++ rest) 0 = Ret (Some (length host + 2)%nat)).
Proof.
  intros Hl. split; [by apply encode_dns_qname_eq|]. intros (Hne & _ & Hf).
  pose proof (skip_name_spec {| dn_labels := split_on 46 host; dn_ptr := None |} [] rest 0) as Hs.
  cbn [app length] in Hs. unfold enc_dname in Hs. cbn [dn_labels dname_tail dn_ptr] in Hs.
  fold (qname host) in Hs. rewrite length_qname in Hs. by apply Hs.
Qed.

Lemma encode_dns_qname_spec_witness :
  let host := [97; 46; 98; 99] in
  encode_dns_qname host (replicate 10 7) =
    Ret (if decide (name_valid host) then Some (qname host ++ drop (length host + 2) (replicate 10 7), (length host + 2)%nat) else None) /\
  (name_valid host -> skip_name (qname host ++ []) 0 = Ret (Some (length host + 2)%nat)).
Proof. apply (encode_dns_qname_spec [97; 46; 98; 99] (replicate 10 7) []). cbn. lia. Defined.

Example qname_ex : qname [97; 46; 98; 99] = [1; 97; 2; 98; 99; 0].
Proof. reflexivity. Qed.

(** ** DNS replies *)

Record drecord := { dr_name : dname; dr_type : Z; dr_meta : bytes; dr_data : bytes }.
Definition enc_record (r : drecord) : bytes :=
  enc_dname r.(dr_name) ++ to_be 2 r.(dr_type) ++ r.(dr_meta) ++
  to_be 2 (Z.of_nat (length r.(dr_data))) ++ r.(dr_data).
(** Class and TTL take six bytes. *)
Definition record_ok (r : drecord) : Prop :=
  dname_ok r.(dr_name) /\ 0 <= r.(dr_type) < 2 ^ 16 /\ length r.(dr_meta) = 6%nat /\
  Z.of_nat (length r.(dr_data)) < 2 ^ 16.

(** A question: name, type and class. *)
Definition enc_question (q : dname * bytes) : bytes := enc_dname q.1 ++ q.2.
Definition question_ok (q : dname * bytes) : Prop := dname_ok q.1 /\ length q.2 = 4%nat.

Record dmessage := {
  dm_id : Z; dm_flags : bytes; dm_counts : bytes;
  dm_questions : list (dname * bytes); dm_answers : list drecord; dm_rest : bytes;
}.
Definition enc_message (m : dmessage) : bytes :=
  to_be 2 m.(dm_id) ++ m.(dm_flags) ++ to_be 2 (Z.of_nat (length m.(dm_questions))) ++
  to_be 2 (Z.of_nat (length m.(dm_answers))) ++ m.(dm_counts) ++
  (m.(dm_questions) ≫= enc_question) ++ (m.(dm_answers) ≫= enc_record) ++ m.(dm_rest).
Definition message_ok (m : dmessage) : Prop :=
  0 <= m.(dm_id) < 2 ^ 16 /\ length m.(dm_flags) = 2%nat /\ length m.(dm_counts) = 4%nat /\
  Z.of_nat (length m.(dm_questions)) < 2 ^ 16 /\ Z.of_nat (length m.(dm_answers)) < 2 ^ 16 /\
  Forall question_ok m.(dm_questions) /\ Forall record_ok m.(dm_answers).

(** The data of the first A record of four bytes. *)
Definition is_a (r : drecord) : Prop := r.(dr_type) = 1 /\ length r.(dr_data) = 4%nat.
#[export] Instance is_a_dec r : Decision (is_a r).
Proof. unfold is_a. apply _. Defined.
Fixpoint first_a (rs : list drecord) : option bytes :=
  match rs with
  | [] => None
  | r :: rs => if decide (is_a r) then Some r.(dr_data) else first_a rs
  end.

Lemma rd16_be pre v post i :
  i = length pre -> 0 <= v < 2 ^ 16 -> rd16 (pre ++ to_be 2 v ++ post) i = Ret v.
Proof.
  intros -> Hv. unfold rd16, to_be, be16. cbn [to_le rev app].
  rewrite (rd_mid pre _ _ (length pre)), bind_ret by done.
  change (pre ++ v / 256 mod 256 :: v mod 256 :: post) with (pre ++ [v / 256 mod 256] ++ v mod 256 :: post).
  rewrite app_assoc, (rd_mid (pre ++ _) _ _ (length pre + 1)), bind_ret by (rewrite length_app; done). f_equal.
  rewrite (Z.mod_small (v / 256)) by (split; [apply Z.div_pos; lia|apply Z.div_lt_upper_bound; lia]).
  pose proof (Z.div_mod v 256). lia.
Qed.

Lemma skip_questions_spec qs pre post :
  Forall question_ok qs ->
  skip_questions (length qs) (pre ++ (qs ≫= enc_question) ++ post) (length pre) =
  Ret (Some (length (pre ++ (qs ≫= enc_question)))).
Proof.
  intros Hq. revert pre. induction Hq as [|[n tc] qs [Hn Htc] _ IH]; intros pre.
  { cbn [skip_questions length mbind list_bind]. by rewrite app_nil_r. }
  cbn [skip_questions length mbind list_bind]. cbn in Hn, Htc.
  change (enc_question (n, tc)) with (enc_dname n ++ tc). rewrite <-!app_assoc.
  rewrite skip_name_spec by done. rewrite bind_ret.
  rewrite decide_False by (rewrite !length_app; lia).
  specialize (IH (pre ++ enc_dname n ++ tc)). rewrite <-!app_assoc in IH.
  rewrite !length_app, Htc in *. rewrite Nat.add_assoc in IH. rewrite IH. do 2 f_equal; lia.
Qed.

Lemma rd_seq4 (pre d post : bytes) i : i = length pre -> length d = 4%nat ->
  (a ← rd (pre ++ d ++ post) i; b ← rd (pre ++ d ++ post) (i + 1); c ← rd (pre ++ d ++ post) (i + 2);
   e ← rd (pre ++ d ++ post) (i + 3); Ret (Some [a; b; c; e])) = Ret (Some d).
Proof.
  intros -> (a & b & c & e & ->)%list4_eq. cbn [app].
  rewrite (rd_mid pre _ _ (length pre)), bind_ret by done.
  rewrite (rd_lookup _ (length pre + 1) b), bind_ret by (rewrite lookup_app_r by lia;
    replace (length pre + 1 - length pre)%nat with 1%nat by lia; done).
  rewrite (rd_lookup _ (length pre + 2) c), bind_ret by (rewrite lookup_app_r by lia;
    replace (length pre + 2 - length pre)%nat with 2%nat by lia; done).
  rewrite (rd_lookup _ (length pre + 3) e), bind_ret by (rewrite lookup_app_r by lia;
    replace (length pre + 3 - length pre)%nat with 3%nat by lia; done).
  done.
Qed.

Lemma scan_answers_spec rs pre post :
  Forall record_ok rs ->
  scan_answers (length rs) (pre ++ (rs ≫= enc_record) ++ post) (length pre) = Ret (first_a rs).
Proof.
  intros Hr. revert pre. induction Hr as [|r rs (Hn & Ht & Hm & Hd) _ IH]; intros pre; [done|].
  cbn [scan_answers length mbind list_bind first_a].
  set (buf := pre ++ (enc_record r ++ (rs ≫= enc_record)) ++ post).
  assert (buf = pre ++ enc_dname (dr_name r) ++ to_be 2 (dr_type r) ++ dr_meta r ++
    to_be 2 (Z.of_nat (length (dr_data r))) ++ dr_data r ++ (rs ≫= enc_record) ++ post) as Hbuf
    by (unfold buf, enc_record; by rewrite <-!app_assoc).
  rewrite Hbuf at 1. rewrite skip_name_spec by done. rewrite bind_ret.
  set (o := (length pre + length (enc_dname (dr_name r)))%nat).
  assert (o = length (pre ++ enc_dname (dr_name r))) as Ho by (by rewrite length_app).
  assert (length buf = o + 10 + length (dr_data r) + length ((rs ≫= enc_record) ++ post))%nat as Hb.
  { rewrite Hbuf. unfold o. rewrite !length_app, !length_to_be. lia. }
  rewrite decide_False by lia.
  assert (rd16 buf o = Ret (dr_type r)) as ->.
  { rewrite Hbuf, app_assoc. by apply rd16_be. }
  assert (rd16 buf (o + 8) = Ret (Z.of_nat (length (dr_data r)))) as ->.
  { rewrite Hbuf, (app_assoc pre), (app_assoc (pre ++ _)), (app_assoc ((pre ++ _) ++ _)).
    apply rd16_be; [|lia]. rewrite !length_app, length_to_be. unfold o. lia. }
  rewrite !bind_ret, Nat2Z.id, decide_False by lia.
  destruct (decide (is_a r)) as [[Ha Hl]|Ha].
  - rewrite decide_True by (rewrite Ha, Hl; done).
    assert (buf = (pre ++ enc_dname (dr_name r) ++ to_be 2 (dr_type r) ++ dr_meta r ++
      to_be 2 (Z.of_nat (length (dr_data r)))) ++ dr_data r ++ ((rs ≫= enc_record) ++ post)) as ->
      by (rewrite Hbuf; by rewrite <-!app_assoc).
    apply rd_seq4; [|done]. rewrite !length_app, !length_to_be. unfold o. lia.
  - rewrite decide_False by (unfold is_a in Ha; lia).
    specialize (IH (pre ++ enc_record r)). rewrite <-app_assoc, (app_assoc (enc_record r)) in IH.
    fold buf in IH. rewrite <-IH. f_equal. unfold enc_record. rewrite !length_app, !length_to_be. unfold o. lia.
Qed.

(** C21: on a well-formed reply - any number of questions, names with labels or
    compression pointers, records of any type - the parser returns the data of
    the first four-byte A record, and it ignores a reply to another query. *)
Theorem parse_dns_a_correct m id :
  message_ok m ->
  parse_dns_a (enc_message m) id = Ret (if decide (m.(dm_id) = id) then first_a m.(dm_answers) else None).
Proof.
  intros (Hid & Hf & Hc & Hq & Ha & Hqs & Has). unfold parse_dns_a. set (buf := enc_message m).
  assert (12 <= length buf)%nat as Hl.
  { unfold buf, enc_message. rewrite !length_app, !length_to_be. lia. }
  rewrite decide_False by lia.
  assert (rd16 buf 0 = Ret (dm_id m)) as -> by (by apply (rd16_be [])).
  assert (rd16 buf 4 = Ret (Z.of_nat (length (dm_questions m)))) as ->.
  { unfold buf, enc_message. rewrite (app_assoc (to_be 2 _)). apply rd16_be; [|lia].
    by rewrite length_app, length_to_be, Hf. }
  assert (rd16 buf 6 = Ret (Z.of_nat (length (dm_answers m)))) as ->.
  { unfold buf, enc_message. rewrite (app_assoc (to_be 2 _)), (app_assoc (_ ++ _)).
    apply rd16_be; [|lia]. by rewrite !length_app, !length_to_be, Hf. }
  rewrite !bind_ret. destruct (decide (dm_id m = id)) as [E|E].
  2:{ by rewrite decide_True. }
  rewrite decide_False by (by intros ?). rewrite !Nat2Z.id.
  assert (buf = (to_be 2 (dm_id m) ++ dm_flags m ++ to_be 2 (Z.of_nat (length (dm_questions m))) ++
    to_be 2 (Z.of_nat (length (dm_answers m))) ++ dm_counts m) ++
    (dm_questions m ≫= enc_question) ++ ((dm_answers m ≫= enc_record) ++ dm_rest m)) as ->
    by (unfold buf, enc_message; by rewrite <-!app_assoc).
  set (h := to_be 2 (dm_id m) ++ _).
  assert (length h = 12%nat) as Hh by (unfold h; rewrite !length_app, !length_to_be; lia).
  rewrite <-Hh at 1. rewrite skip_questions_spec, bind_ret by done.
  rewrite app_assoc. by rewrite scan_answers_spec.
Qed.

(** A reply with one question, a CNAME and an A record behind pointers. *)
Definition sample_reply : dmessage :=
  let n := {| dn_labels := [[97]; [98; 99]]; dn_ptr := None |} in
  let p := {| dn_labels := []; dn_ptr := Some (0xC0, 12) |} in
  {| dm_id := 7; dm_flags := [0x81; 0x80]; dm_counts := [0; 0; 0; 0];
     dm_questions := [(n, [0; 1; 0; 1])];
     dm_answers := [{| dr_name := p; dr_type := 5; dr_meta := replicate 6 0; dr_data := enc_dname n |};
                    {| dr_name := p; dr_type := 1; dr_meta := replicate 6 0; dr_data := [1; 2; 3; 4] |}];
     dm_rest := [] |}.

Lemma parse_dns_a_correct_witness :
  parse_dns_a (enc_message sample_reply) 7 =
  Ret (if decide (sample_reply.(dm_id) = 7) then first_a sample_reply.(dm_answers) else None).
Proof.
  apply parse_dns_a_correct. unfold message_ok, question_ok, record_ok, dname_ok, label_ok. cbn.
  split_and!; try lia; repeat (constructor; cbn; split_and!; try lia; try done).
  all: repeat (constructor; cbn; try lia).
Defined.
