(* ===== verification/Http.v ===== *)
(** * HTTP responses ([kernel/src/net.rs], the header and framing parsers)

    The end-of-header search, [Transfer-Encoding], [Content-Length] and
    [Content-Encoding], chunk sizes, the gzip member header and the GET request.
    The three header scans of the source walk the same lines; [header_lines] is
    that walk and the parsers fold over it. *)

From S2P Require Import Prelude.

(** [buf.windows(pat.len()).position(|w| w == pat)] *)
Fixpoint find_sub (pat buf : bytes) : option nat :=
  if decide (take (length pat) buf = pat) then Some 0%nat
  else match buf with
       | [] => None
       | _ :: buf => S <$> find_sub pat buf
       end.

Definition find_http_header_end (buf : bytes) : option (nat * nat) :=
  match find_sub [13; 10; 13; 10] buf with
  | Some pos => Some (pos, 4%nat)
  | None =>
      match find_sub [10; 10] buf with
      | Some pos => Some (pos, 2%nat)
      | None => None
      end
  end.

Definition line_starts_with_ci (line prefix : bytes) : bool :=
  bool_decide (length prefix <= length line)%nat &&
  bool_decide (to_lower <$> take (length prefix) line = prefix).

Definition is_ws (c : Z) : bool := (c =? 32) || (c =? 9).
(** [while p.first() == Some(&b' ') || .. { p = &p[1..] }], and the same at the end. *)
Definition trim_front (p : bytes) : bytes := drop (span_len is_ws p) p.
Definition trim_back (p : bytes) : bytes := take (length p - span_len is_ws (rev p)) p.

Definition trim_http_line_prefix (line prefix : bytes) : option bytes :=
  if line_starts_with_ci line prefix then Some (trim_front (drop (length prefix) line)) else None.

(** A trailing CR is not part of the line. *)
Definition strip_cr (line : bytes) : bytes :=
  if decide (last line = Some 13) then take (length line - 1) line else line.

(** The lines the scans visit; each round consumes a byte, so the length of the
    headers is fuel enough. *)
Fixpoint header_lines (fuel : nat) (rest : bytes) : list bytes :=
  match fuel, rest with
  | S fuel, _ :: _ =>
      let p := span_len (fun b => negb (b =? 10)) rest in
      strip_cr (take p rest) :: header_lines fuel (drop (p + 1) rest)
  | _, _ => []
  end.
Definition lines_of (headers : bytes) : list bytes := header_lines (length headers) headers.

Definition H_transfer_encoding : bytes := Eval vm_compute in bs "transfer-encoding:".
Definition H_content_length : bytes := Eval vm_compute in bs "content-length:".
Definition H_content_encoding : bytes := Eval vm_compute in bs "content-encoding:".
Definition T_chunked : bytes := Eval vm_compute in bs "chunked".
Definition T_gzip : bytes := Eval vm_compute in bs "gzip".
Definition T_x_gzip : bytes := Eval vm_compute in bs "x-gzip".
Definition T_deflate : bytes := Eval vm_compute in bs "deflate".
Definition T_br : bytes := Eval vm_compute in bs "br".
Definition T_identity : bytes := Eval vm_compute in bs "identity".
Definition T_compress : bytes := Eval vm_compute in bs "compress".

Definition line_chunked (line : bytes) : bool :=
  match trim_http_line_prefix line H_transfer_encoding with
  | None => false
  | Some te => existsb (fun part => line_starts_with_ci (trim_back (trim_front part)) T_chunked) (split_on 44 te)
  end.
Definition response_headers_chunked (headers : bytes) : bool := existsb line_chunked (lines_of headers).

(** [checked_mul] and [checked_add] on [usize]. *)
Definition checked (v : Z) : option Z := if decide (v <= usize_max) then Some v else None.

Fixpoint decimal_loop (v : Z) (s : bytes) : option Z :=
  match s with
  | [] => Some v
  | c :: s =>
      if is_ws c then Some v
      else if negb (is_digit c) then None
      else
        m ← checked (v * 10);
        v ← checked (m + (c - 48));
        decimal_loop v s
  end.

Definition parse_usize_decimal (s : bytes) : option Z :=
  match trim_front s with
  | [] => None
  | s => decimal_loop 0 s
  end.

Definition hex_digit (b : Z) : option Z :=
  if (48 <=? b) && (b <=? 57) then Some (b - 48)
  else if (97 <=? b) && (b <=? 102) then Some (b - 97 + 10)
  else if (65 <=? b) && (b <=? 70) then Some (b - 65 + 10)
  else None.

Fixpoint chunk_size_loop (size : Z) (line : bytes) : option Z :=
  match line with
  | [] => Some size
  | b :: line =>
      if (b =? 59) || is_ws b then Some size
      else
        d ← hex_digit b;
        m ← checked (size * 16);
        size ← checked (m + d);
        chunk_size_loop size line
  end.

Definition parse_chunk_size_line (line : bytes) : option Z := chunk_size_loop 0 (strip_cr line).

Definition line_content_length (line : bytes) : option Z :=
  match trim_http_line_prefix line H_content_length with
  | Some v => parse_usize_decimal v
  | None => None
  end.
(** The first line that gives a number. *)
Fixpoint first_some {A B} (f : A -> option B) (l : list A) : option B :=
  match l with
  | [] => None
  | x :: l => match f x with Some y => Some y | None => first_some f l end
  end.
Definition parse_content_length (headers : bytes) : option Z :=
  first_some line_content_length (lines_of headers).

Inductive BodyLayer := Identity | Gzip | DeflateZlib | Brotli.
#[export] Instance BodyLayer_eq : EqDecision BodyLayer.
Proof. solve_decision. Defined.

Definition token_bytes_ci_eq (token expect : bytes) : bool :=
  bool_decide (length token = length expect) && bool_decide (to_lower <$> token = expect).

(** The coding name of one list element: parameters and blanks removed. *)
Definition coding_token (raw_part : bytes) : bytes :=
  let p := trim_back (trim_front raw_part) in
  let p := take (span_len (fun x => negb (x =? 59)) p) p in
  trim_back (trim_front p).

(** [None] is the source's [Err]. *)
Definition push_coding (acc : option (list BodyLayer * nat)) (raw_part : bytes)
  : option (list BodyLayer * nat) :=
  '(layers, count) ← acc;
  let p := coding_token raw_part in
  if decide (p = []) then Some (layers, count)
  else
    let push l := if decide (length layers <= count)%nat then None else Some (<[count := l]> layers, S count) in
    if token_bytes_ci_eq p T_gzip || token_bytes_ci_eq p T_x_gzip then push Gzip
    else if token_bytes_ci_eq p T_deflate then push DeflateZlib
    else if token_bytes_ci_eq p T_br then push Brotli
    else if token_bytes_ci_eq p T_identity || token_bytes_ci_eq p T_compress then Some (layers, count)
    else None.

Definition line_codings (acc : option (list BodyLayer * nat)) (line : bytes) : option (list BodyLayer * nat) :=
  match trim_http_line_prefix line H_content_encoding with
  | Some v => fold_left push_coding (split_on 44 v) acc
  | None => acc
  end.

Definition parse_content_encoding_layers (headers : bytes) : option (list BodyLayer * nat) :=
  fold_left line_codings (lines_of headers) (Some (replicate 4 Identity, 0%nat)).

Definition is_html_ws (b : Z) : bool := (b =? 32) || (b =? 9) || (b =? 13) || (b =? 10).
Definition body_starts_like_html (buf : bytes) : bool :=
  bool_decide (head (drop (span_len is_html_ws buf) buf) = Some 60).

(** ** The gzip member header *)

Definition zero_stop (b : Z) : bool := negb (b =? 0).

(** [while i < gzip.len() && gzip[i] != 0 { i += 1 }]; past the end: [None]. *)
Definition skip_zstring (gzip : bytes) (i : nat) : option nat :=
  let i := scan_while zero_stop gzip i in
  if decide (length gzip <= i)%nat then None else Some (i + 1)%nat.

Definition flag_set (flg m : Z) : bool := negb (Z.land flg m =? 0).

Definition gzip_extra (gzip : bytes) (flg : Z) (i : nat) : rust (option nat) :=
  if flag_set flg 4 then
    if decide (length gzip < i + 2)%nat then Ret None
    else
      lo ← rd gzip i; hi ← rd gzip (i + 1);
      let i := (i + 2 + Z.to_nat (lo + 256 * hi))%nat in
      if decide (length gzip < i)%nat then Ret None else Ret (Some i)
  else Ret (Some i).

Definition gzip_after_extra (gzip : bytes) (flg : Z) (i : nat) : option nat :=
  i ← (if flag_set flg 8 then skip_zstring gzip i else Some i);
  i ← (if flag_set flg 16 then skip_zstring gzip i else Some i);
  if flag_set flg 2 then if decide (length gzip < i + 2)%nat then None else Some (i + 2)%nat
  else Some i.

Definition gzip_deflate_payload (gzip : bytes) : rust (option bytes) :=
  if decide (length gzip < 10 + 8)%nat then Ret None
  else
    a ← rd gzip 0; b ← rd gzip 1; c ← rd gzip 2;
    if decide (a <> 0x1f \/ b <> 0x8b \/ c <> 8) then Ret None
    else
      flg ← rd gzip 3;
      if flag_set flg 0xE0 then Ret None
      else
        i ← gzip_extra gzip flg 10;
        match i ≫= gzip_after_extra gzip flg with
        | None => Ret None
        | Some i =>
            let body_end := (length gzip - 8)%nat in
            if decide (body_end < i)%nat then Ret None
            else s ← sub gzip i body_end; Ret (Some s)
        end.

(** ** The request *)

Definition P1 : bytes := Eval vm_compute in bs "GET ".
Definition P2 : bytes := Eval vm_compute in (bs " HTTP/1.0" ++ [13; 10] ++ bs "Host: ").
Definition P3 : bytes := Eval vm_compute in
  ([13; 10] ++ bs "User-Agent: EveOS/0.1" ++ [13; 10] ++ bs "Accept-Encoding: gzip, identity" ++
   [13; 10] ++ bs "Connection: close" ++ [13; 10; 13; 10]).

Definition build_http_get (path host out : bytes) : rust (option (bytes * nat)) :=
  let need := (length P1 + length path + length P2 + length host + length P3)%nat in
  if decide (length out < need)%nat then Ret None
  else
    let i := 0%nat in
    out ← copy_at out i P1;
    let i := (i + length P1)%nat in
    out ← copy_at out i path;
    let i := (i + length path)%nat in
    out ← copy_at out i P2;
    let i := (i + length P2)%nat in
    out ← copy_at out i host;
    let i := (i + length host)%nat in
    out ← copy_at out i P3;
    let i := (i + length P3)%nat in
    Ret (Some (out, i)).

(** ** Chunk sizes *)

Definition hex_val (v : Z) (ds : bytes) : Z := fold_left (fun v c => v * 16 + default 0 (hex_digit c)) ds v.
Definition hex_string (ds : bytes) : Prop := Forall (fun c => is_Some (hex_digit c)) ds.
(** What may follow the size: nothing, a blank or an extension. *)
Definition size_end (ext : bytes) : Prop :=
  match ext with [] => True | b :: _ => (b =? 59) || is_ws b = true end.

Lemma hex_digit_range c d : hex_digit c = Some d -> 0 <= d < 16 /\ c <> 59 /\ is_ws c = false /\ c <> 13.
Proof.
  unfold hex_digit, is_ws.
  destruct ((48 <=? c) && (c <=? 57)) eqn:E1; [intros [= <-]; lia|].
  destruct ((97 <=? c) && (c <=? 102)) eqn:E2; [intros [= <-]; lia|].
  destruct ((65 <=? c) && (c <=? 70)) eqn:E3; [intros [= <-]; lia|]. done.
Qed.

Lemma hex_val_ge ds v : hex_string ds -> 0 <= v -> v <= hex_val v ds.
Proof.
  intros H. revert v. induction H as [|c ds [d Hd] _ IH]; intros v Hv; [cbn; lia|].
  apply hex_digit_range in Hd as Hr. unfold hex_val in *. cbn [fold_left]. rewrite Hd. cbn [from_option id].
  specialize (IH (v * 16 + d)). lia.
Qed.

Lemma checked_ok v : v <= usize_max -> checked v = Some v.
Proof. intros. unfold checked. by rewrite decide_True. Qed.

Lemma chunk_size_loop_spec ds ext v :
  hex_string ds -> size_end ext -> 0 <= v <= usize_max ->
  chunk_size_loop v (ds ++ ext) = checked (hex_val v ds).
Proof.
  intros H Hext. revert v. induction H as [|c ds [d Hd] Hds IH]; intros v Hv.
  { change (hex_val v []) with v. cbn [app]. unfold checked. rewrite decide_True by lia.
    destruct ext as [|b ext]; [done|]. cbn in Hext. cbn [chunk_size_loop]. by rewrite Hext. }
  apply hex_digit_range in Hd as Hr. cbn [app chunk_size_loop].
  destruct Hr as (Hr & Hc & Hw & _). rewrite Hw, (proj2 (Z.eqb_neq _ _) Hc). cbn [orb].
  rewrite Hd. cbn [mbind option_bind]. unfold hex_val. cbn [fold_left]. rewrite Hd. cbn [from_option id].
  fold (hex_val (v * 16 + d) ds).
  pose proof (hex_val_ge ds (v * 16 + d) Hds ltac:(lia)) as Hge.
  destruct (Z.le_gt_cases (v * 16) usize_max) as [H1|H1].
  2:{ unfold checked. by rewrite !decide_False by lia. }
  rewrite (checked_ok (v * 16)) by done. cbn [mbind option_bind].
  destruct (Z.le_gt_cases (v * 16 + d) usize_max) as [H2|H2].
  2:{ unfold checked. by rewrite !decide_False by lia. }
  rewrite (checked_ok (v * 16 + d)) by done. cbn [mbind option_bind].
  apply IH. lia.
Qed.

Lemma strip_cr_no line : last line <> Some 13 -> strip_cr line = line.
Proof. intros. unfold strip_cr. by rewrite decide_False. Qed.

Lemma strip_cr_snoc line : strip_cr (line ++ [13]) = line.
Proof.
  unfold strip_cr. rewrite last_snoc, decide_True, length_app by done. cbn [length].
  rewrite Nat.add_sub. apply take_app_length.
Qed.

Lemma size_line_strip ds ext :
  hex_string ds -> size_end ext -> exists ext', strip_cr (ds ++ ext) = ds ++ ext' /\ size_end ext'.
Proof.
  intros Hds Hext. destruct (decide (last (ds ++ ext) = Some 13)) as [H|H].
  2:{ exists ext. by rewrite strip_cr_no. }
  destruct ext as [|b ext] using rev_ind.
  - exfalso. rewrite app_nil_r in H. apply last_Some in H as [ds' ->].
    apply Forall_app in Hds as [_ [[d Hd] _]%Forall_cons]. by apply hex_digit_range in Hd as (_ & _ & _ & ?).
  - rewrite app_assoc, last_snoc in H. injection H as ->. exists ext.
    rewrite app_assoc, strip_cr_snoc. split; [done|]. by destruct ext.
Qed.

Lemma parse_chunk_size_line_eq ds ext :
  hex_string ds -> size_end ext -> parse_chunk_size_line (ds ++ ext) = checked (hex_val 0 ds).
Proof.
  intros Hds Hext. unfold parse_chunk_size_line.
  destruct (size_line_strip ds ext Hds Hext) as (ext' & -> & He).
  apply chunk_size_loop_spec; [done|done|]. unfold usize_max. lia.
Qed.

(** C34: chunk sizes: a string of hexadecimal digits, alone or followed by blanks
    or an extension, is read as its value, and rejected exactly when the value
    does not fit [usize] - no wrap-around on an attacker's size line. *)
Theorem parse_chunk_size_line_spec ds ext :
  hex_string ds -> size_end ext ->
  parse_chunk_size_line (ds ++ ext) =
    if decide (hex_val 0 ds <= usize_max) then Some (hex_val 0 ds) else None.
Proof. apply parse_chunk_size_line_eq. Qed.

Lemma parse_chunk_size_line_spec_witness :
  parse_chunk_size_line ([49; 97; 70] ++ [59; 120]) =
    if decide (hex_val 0 [49; 97; 70] <= usize_max) then Some (hex_val 0 [49; 97; 70]) else None.
Proof.
  apply parse_chunk_size_line_spec; [|reflexivity]. repeat constructor; vm_compute; eauto.
Defined.

(** ** Header lines *)

(** A header line: no CR or LF inside. *)
Definition plain_line (l : bytes) : Prop := Forall (fun c => c <> 13 /\ c <> 10) l.
Definition crlf_line (l : bytes) : bytes := l ++ [13; 10].
Definition render_lines (ls : list bytes) : bytes := ls ≫= crlf_line.

Lemma plain_span l rest :
  plain_line l -> span_len (fun b => negb (b =? 10)) (l ++ 13 :: 10 :: rest) = S (length l).
Proof.
  intros Hl. rewrite (app_assoc l [13] (10 :: rest)) || idtac.
  change (l ++ 13 :: 10 :: rest) with (l ++ [13] ++ 10 :: rest). rewrite app_assoc.
  rewrite span_len_stop; [rewrite length_app; cbn; lia| |done].
  apply Forall_app_2; [|by repeat constructor]. eapply Forall_impl; [exact Hl|]. intros c. cbn. lia.
Qed.

Lemma header_lines_render ls fuel :
  Forall plain_line ls -> (length (render_lines ls) <= fuel)%nat ->
  header_lines fuel (render_lines ls) = ls.
Proof.
  intros H. revert fuel. induction H as [|l ls Hl _ IH]; intros fuel Hf; [by destruct fuel|].
  change (render_lines (l :: ls)) with (crlf_line l ++ render_lines ls) in *.
  unfold crlf_line in *. rewrite <-app_assoc in *. cbn [app] in *. rewrite length_app in Hf. cbn [length] in Hf.
  assert (exists b r, l ++ 13 :: 10 :: render_lines ls = b :: r) as (b & r & E) by (destruct l; cbn; eauto).
  destruct fuel as [|fuel]; [lia|]. rewrite E. cbn [header_lines]. rewrite <-E, plain_span by done.
  f_equal.
  - change (l ++ 13 :: 10 :: render_lines ls) with (l ++ [13] ++ 10 :: render_lines ls).
    rewrite app_assoc, take_app_length' by (rewrite length_app; cbn; lia). apply strip_cr_snoc.
  - change (l ++ 13 :: 10 :: render_lines ls) with (l ++ [13; 10] ++ render_lines ls).
    rewrite app_assoc, drop_app_length' by (rewrite length_app; cbn; lia). apply IH. lia.
Qed.

Lemma render_lines_snoc ls : render_lines (ls ++ [[]]) = render_lines ls ++ [13; 10].
Proof. unfold render_lines. rewrite bind_app. done. Qed.

(** The search passes over text without the first byte of the pattern. *)
Lemma find_sub_skip a p l rest :
  Forall (fun c => c <> a) l ->
  find_sub (a :: p) (l ++ rest) = Nat.add (length l) <$> find_sub (a :: p) rest.
Proof.
  induction 1 as [|c l Hc _ IH]; cbn [app length].
  { by destruct (find_sub (a :: p) rest). }
  cbn [find_sub]. rewrite decide_False by (cbn; congruence). rewrite IH.
  by destruct (find_sub (a :: p) rest).
Qed.

Lemma find_sub_le pat buf pos : find_sub pat buf = Some pos -> (pos + length pat <= length buf)%nat.
Proof.
  revert pos. induction buf as [|b buf IH]; intros pos; cbn [find_sub].
  all: destruct (decide _) as [E|].
  - intros H%(inj Some). apply (f_equal length) in E. rewrite length_take in E. lia.
  - done.
  - intros H%(inj Some). apply (f_equal length) in E. rewrite length_take in E. lia.
  - intros (p & Hp & ->)%fmap_Some. apply IH in Hp. cbn [length]. lia.
Qed.

(** What is found stays found when more text follows. *)
Lemma find_sub_app pat x y pos : find_sub pat x = Some pos -> find_sub pat (x ++ y) = Some pos.
Proof.
  assert (forall z : bytes, take (length pat) z = pat -> (length pat <= length z)%nat) as Hlen
    by (intros z E; apply (f_equal length) in E; rewrite length_take in E; lia).
  revert pos. induction x as [|c x IH]; intros pos; cbn [app find_sub].
  - destruct (decide _) as [E|]; [|done]. specialize (Hlen _ E). cbn in Hlen.
    assert (pat = []) as -> by (destruct pat; [done|cbn in Hlen; lia]). intros [= <-]. by destruct y.
  - destruct (decide _) as [E|Hn].
    + intros [= <-]. rewrite decide_True; [done|]. change (c :: x ++ y) with ((c :: x) ++ y).
      rewrite take_app_le; [done|]. by apply Hlen.
    + intros (p & Hp & ->)%fmap_Some. rewrite (IH _ Hp). rewrite decide_False; [done|]. intros E. apply Hn.
      change (c :: x ++ y) with ((c :: x) ++ y) in E.
      destruct (decide (length pat <= length (c :: x))%nat) as [Hle|Hgt].
      * by rewrite take_app_le in E by done.
      * apply find_sub_le in Hp. cbn in Hgt. lia.
Qed.

Lemma find_header_end ls body :
  Forall (fun l => l <> [] /\ plain_line l) ls -> ls <> [] ->
  find_sub [13; 10; 13; 10] (render_lines ls ++ [13; 10] ++ body) = Some (length (render_lines ls) - 2)%nat.
Proof.
  induction 1 as [|l ls [Hne Hl] Hls IH]; [done|]. intros _.
  change (render_lines (l :: ls)) with (crlf_line l ++ render_lines ls). unfold crlf_line.
  rewrite <-!app_assoc, find_sub_skip, !length_app
    by (eapply Forall_impl; [exact Hl|]; by intros c [? _]).
  cbn [app length]. destruct ls as [|l' ls].
  { cbn [render_lines mbind list_bind app find_sub]. rewrite decide_True by done. cbn. f_equal. lia. }
  inversion_clear Hls as [|? ? [Hne' Hl'] _]. specialize (IH ltac:(done)).
  destruct l' as [|c l']; [done|]. inversion_clear Hl' as [|? ? [Hc1 Hc2] _].
  set (rest := render_lines ((c :: l') :: ls) ++ 13 :: 10 :: body) in *.
  assert (exists r, rest = c :: r) as [r Hr] by (unfold rest; cbn; eauto).
  cbn [find_sub]. rewrite Hr. rewrite !decide_False by (cbn; congruence). rewrite <-Hr.
  change (13 :: 10 :: body) with ([13; 10] ++ body) in rest. unfold rest. rewrite IH. cbn. f_equal.
  assert (2 <= length (render_lines ((c :: l') :: ls)))%nat.
  { change (render_lines ((c :: l') :: ls)) with (crlf_line (c :: l') ++ render_lines ls).
    unfold crlf_line. rewrite !length_app. cbn [length]. lia. }
  cbn in *. lia.
Qed.

(** Every LF of a head follows a CR. *)
Lemma find_lf_lf ls :
  Forall (fun l => l <> [] /\ plain_line l) ls -> find_sub [10; 10] (render_lines ls ++ [13; 10]) = None.
Proof.
  induction 1 as [|l ls [Hne Hl] Hls IH]; [done|].
  change (render_lines (l :: ls)) with (crlf_line l ++ render_lines ls). unfold crlf_line.
  replace ((l ++ [13; 10]) ++ render_lines ls) with ((l ++ [13]) ++ 10 :: render_lines ls)
    by (by rewrite <-!app_assoc).
  rewrite <-app_assoc, find_sub_skip.
  2: { apply Forall_app_2; [|by constructor]. eapply Forall_impl; [exact Hl|]. by intros c [_ ?]. }
  cbn [app find_sub]. rewrite IH. rewrite decide_False; [done|].
  destruct Hls as [|l' ls [Hne' Hl'] _]; [done|]. destruct l' as [|c l']; [done|].
  inversion_clear Hl' as [|? ? [_ Hc] _]. cbn. congruence.
Qed.

(** The end of a head is found when its last byte is there, and not before. *)
Definition head_end (head : bytes) : Prop :=
  (forall y, exists pos n, find_http_header_end (head ++ y) = Some (pos, n) /\ (pos + n)%nat = length head) /\
  (forall x y, head = x ++ y -> y <> [] -> find_http_header_end x = None).

Lemma render_head_end ls :
  Forall (fun l => l <> [] /\ plain_line l) ls -> ls <> [] -> head_end (render_lines ls ++ [13; 10]).
Proof.
  intros Hls Hne. assert (2 <= length (render_lines ls))%nat as H2.
  { destruct ls as [|l ls]; [done|]. change (render_lines (l :: ls)) with (crlf_line l ++ render_lines ls).
    unfold crlf_line. rewrite !length_app. cbn [length]. lia. }
  split.
  - intros y. unfold find_http_header_end. rewrite <-app_assoc, find_header_end by done.
    eexists _, _. split; [reflexivity|]. rewrite length_app. cbn. lia.
  - intros x y E Hy. unfold find_http_header_end.
    destruct (find_sub [13; 10; 13; 10] x) as [pos|] eqn:E1.
    + exfalso. apply find_sub_le in E1 as Hle. cbn [length] in Hle.
      apply (find_sub_app _ _ y) in E1. rewrite <-E in E1.
      pose proof (find_header_end ls [] Hls Hne) as E2. rewrite app_nil_r in E2. rewrite E1 in E2.
      apply (inj Some) in E2. apply (f_equal length) in E. rewrite !length_app in E. cbn in E.
      destruct y; [done|]. cbn in E. lia.
    + destruct (find_sub [10; 10] x) as [pos|] eqn:E3; [|done]. exfalso.
      apply (find_sub_app _ _ y) in E3. rewrite <-E, find_lf_lf in E3; done.
Qed.

(** C33: response heads are framed as sent: for a head of non-empty lines without CR
    or LF, each ended by CRLF, then an empty line, the end of the header is
    found exactly behind it whatever body follows, and the header scans see
    those lines, in order, and the empty one. *)
Theorem response_head_framed ls body :
  Forall (fun l => l <> [] /\ plain_line l) ls -> ls <> [] ->
  let head := render_lines ls ++ [13; 10] in
  exists pos, find_http_header_end (head ++ body) = Some (pos, 4%nat) /\
    (pos + 4)%nat = length head /\ lines_of (take (pos + 4) (head ++ body)) = ls ++ [[]].
Proof.
  intros Hls Hne head. exists (length (render_lines ls) - 2)%nat.
  assert (2 <= length (render_lines ls))%nat.
  { destruct ls as [|l ls]; [done|]. change (render_lines (l :: ls)) with (crlf_line l ++ render_lines ls).
    unfold crlf_line. rewrite !length_app. cbn [length]. lia. }
  assert (length (render_lines ls) - 2 + 4 = length head)%nat as Hl by (unfold head; rewrite length_app; cbn; lia).
  split_and!; [|done|].
  - unfold find_http_header_end, head. rewrite <-app_assoc, find_header_end by done. done.
  - rewrite Hl, take_app_length. unfold head, lines_of. rewrite <-render_lines_snoc.
    apply header_lines_render; [|done]. apply Forall_app_2; [|by repeat constructor].
    eapply Forall_impl; [exact Hls|]. by intros l [_ ?].
Qed.

Lemma response_head_framed_witness :
  let ls := [[72; 84; 84; 80]; [97; 58; 32; 49]] in
  let head := render_lines ls ++ [13; 10] in
  exists pos, find_http_header_end (head ++ [60; 13; 10; 13; 10]) = Some (pos, 4%nat) /\
    (pos + 4)%nat = length head /\ lines_of (take (pos + 4) (head ++ [60; 13; 10; 13; 10])) = ls ++ [[]].
Proof.
  apply response_head_framed; [|done]. repeat constructor; try done; lia.
Defined.

(** ** The gzip member *)

(** An optional field. *)
Definition opt (b : bool) (l : bytes) : bytes := if b then l else [].

Record gzip_member := {
  gm_flags : Z; gm_mid : bytes; gm_extra : bytes; gm_name : bytes; gm_comment : bytes;
  gm_hcrc : bytes; gm_deflate : bytes; gm_trailer : bytes;
}.
(** RFC 1952: the header with the fields its flags announce, data, CRC and size. *)
Definition enc_gzip (m : gzip_member) : bytes :=
  [0x1f; 0x8b; 8; m.(gm_flags)] ++ m.(gm_mid) ++
  opt (flag_set m.(gm_flags) 4) (to_le 2 (Z.of_nat (length m.(gm_extra))) ++ m.(gm_extra)) ++
  opt (flag_set m.(gm_flags) 8) (m.(gm_name) ++ [0]) ++
  opt (flag_set m.(gm_flags) 16) (m.(gm_comment) ++ [0]) ++
  opt (flag_set m.(gm_flags) 2) m.(gm_hcrc) ++ m.(gm_deflate) ++ m.(gm_trailer).
Definition gzip_ok (m : gzip_member) : Prop :=
  flag_set m.(gm_flags) 0xE0 = false /\ length m.(gm_mid) = 6%nat /\
  Z.of_nat (length m.(gm_extra)) < 2 ^ 16 /\ Forall (fun b => b <> 0) m.(gm_name) /\
  Forall (fun b => b <> 0) m.(gm_comment) /\ length m.(gm_hcrc) = 2%nat /\ length m.(gm_trailer) = 8%nat.

Lemma skip_zstring_spec pre s rest :
  Forall (fun b => b <> 0) s ->
  skip_zstring (pre ++ (s ++ [0]) ++ rest) (length pre) = Some (length (pre ++ (s ++ [0]))).
Proof.
  intros Hs. unfold skip_zstring, scan_while. rewrite drop_app_length.
  assert (span_len zero_stop ((s ++ [0]) ++ rest) = length s) as ->.
  { rewrite <-app_assoc. apply span_len_stop; [|done].
    eapply Forall_impl; [exact Hs|]. intros b; cbv beta; unfold zero_stop; lia. }
  rewrite decide_False by (rewrite !length_app; cbn [length]; lia). rewrite !length_app. cbn. f_equal. lia.
Qed.

Lemma skip_opt_zstring (b : bool) pre s rest :
  Forall (fun b => b <> 0) s ->
  (if b then skip_zstring (pre ++ opt b (s ++ [0]) ++ rest) (length pre) else Some (length pre)) =
  Some (length (pre ++ opt b (s ++ [0]))).
Proof.
  intros Hs. destruct b; cbn [opt]; [by apply skip_zstring_spec|]. by rewrite app_nil_r.
Qed.

Lemma gzip_after_extra_spec m pre rest :
  gzip_ok m ->
  let tl := opt (flag_set m.(gm_flags) 8) (m.(gm_name) ++ [0]) ++
            opt (flag_set m.(gm_flags) 16) (m.(gm_comment) ++ [0]) ++
            opt (flag_set m.(gm_flags) 2) m.(gm_hcrc) in
  gzip_after_extra (pre ++ tl ++ rest) m.(gm_flags) (length pre) = Some (length (pre ++ tl)).
Proof.
  intros (_ & _ & _ & Hn & Hc & Hh & _) tl. unfold gzip_after_extra, tl. clear tl.
  rewrite <-!app_assoc. rewrite skip_opt_zstring by done. cbn [mbind option_bind].
  rewrite (app_assoc pre). rewrite skip_opt_zstring by done. cbn [mbind option_bind].
  rewrite <-!app_assoc. destruct (flag_set (gm_flags m) 2); cbn [opt].
  - rewrite decide_False by (rewrite !length_app; lia). rewrite !length_app. f_equal. lia.
  - by rewrite !app_nil_r.
Qed.

Lemma gzip_extra_spec m pre rest :
  gzip_ok m ->
  let ex := opt (flag_set m.(gm_flags) 4) (to_le 2 (Z.of_nat (length m.(gm_extra))) ++ m.(gm_extra)) in
  gzip_extra (pre ++ ex ++ rest) m.(gm_flags) (length pre) = Ret (Some (length (pre ++ ex))).
Proof.
  intros (_ & _ & He & _) ex. unfold gzip_extra, ex. clear ex.
  destruct (flag_set (gm_flags m) 4); cbn [opt]; [|by rewrite app_nil_r].
  rewrite decide_False by (rewrite !length_app, length_to_le; lia).
  cbn [to_le app]. set (n := Z.of_nat (length (gm_extra m))).
  assert (0 <= n / 256 < 256) as Hd by (split; [apply Z.div_pos; lia|apply Z.div_lt_upper_bound; lia]).
  rewrite (rd_lookup _ (length pre) (n mod 256)) by (by apply list_lookup_middle). rewrite bind_ret.
  rewrite (rd_lookup _ (length pre + 1) (n / 256 mod 256)).
  2:{ rewrite lookup_app_r by lia. by replace (length pre + 1 - length pre)%nat with 1%nat by lia. }
  rewrite bind_ret. rewrite (Z.mod_small (n / 256)) by lia.
  replace (n mod 256 + 256 * (n / 256)) with n by (pose proof (Z.div_mod n 256); lia).
  unfold n. rewrite Nat2Z.id. rewrite decide_False by (rewrite length_app; cbn [length]; rewrite length_app; lia).
  rewrite length_app. cbn [length]. do 2 f_equal. lia.
Qed.

(** Gzip members are unwrapped exactly: for every well-formed member - any
    combination of extra field, name, comment and header CRC - the parser
    returns the DEFLATE data between header and trailer. *)
Theorem gzip_deflate_payload_correct m :
  gzip_ok m -> gzip_deflate_payload (enc_gzip m) = Ret (Some m.(gm_deflate)).
Proof.
  intros Hok. pose proof Hok as (Hf & Hmid & _ & _ & _ & _ & Htr).
  set (pre := [0x1f; 0x8b; 8; gm_flags m] ++ gm_mid m).
  set (ex := opt (flag_set (gm_flags m) 4) (to_le 2 (Z.of_nat (length (gm_extra m))) ++ gm_extra m)).
  set (tl := opt (flag_set (gm_flags m) 8) (gm_name m ++ [0]) ++
             opt (flag_set (gm_flags m) 16) (gm_comment m ++ [0]) ++
             opt (flag_set (gm_flags m) 2) (gm_hcrc m)).
  assert (enc_gzip m = pre ++ ex ++ tl ++ gm_deflate m ++ gm_trailer m) as E
    by (unfold enc_gzip, pre, ex, tl; by rewrite <-!app_assoc).
  assert (length pre = 10%nat) as Hp by (unfold pre; rewrite length_app, Hmid; done).
  assert (length (enc_gzip m) = 10 + length ex + length tl + length (gm_deflate m) + 8)%nat as Hl
    by (rewrite E, !length_app; lia).
  unfold gzip_deflate_payload. rewrite decide_False by lia.
  rewrite (rd_lookup _ 0 0x1f), (rd_lookup _ 1 0x8b), (rd_lookup _ 2 8), (rd_lookup _ 3 (gm_flags m)) by done.
  rewrite !bind_ret, decide_False by lia. rewrite Hf. rewrite E at 1.
  pose proof (gzip_extra_spec m pre (tl ++ gm_deflate m ++ gm_trailer m) Hok) as He. cbn zeta in He.
  fold ex in He. rewrite Hp in He. rewrite He, bind_ret. cbn [mbind option_bind].
  pose proof (gzip_after_extra_spec m (pre ++ ex) (gm_deflate m ++ gm_trailer m) Hok) as Ha. cbn zeta in Ha.
  fold tl in Ha. rewrite <-app_assoc, <-E in Ha. rewrite Ha. cbv zeta. rewrite Hl, !length_app, Hp.
  rewrite decide_False by lia. rewrite sub_ok by (rewrite Hl; lia). rewrite bind_ret. do 2 f_equal.
  rewrite E, !app_assoc. rewrite <-(app_assoc (_ ++ tl)). unfold slice.
  rewrite drop_app_length' by (rewrite !length_app, Hp; lia). apply take_app_length'. lia.
Qed.

Definition sample_gzip : gzip_member := {|
  gm_flags := 12; gm_mid := replicate 6 0; gm_extra := [9; 9; 9]; gm_name := [97; 46; 116];
  gm_comment := []; gm_hcrc := [0; 0]; gm_deflate := [75; 4; 0]; gm_trailer := replicate 8 1 |}.

Lemma gzip_deflate_payload_correct_witness :
  gzip_deflate_payload (enc_gzip sample_gzip) = Ret (Some [75; 4; 0]).
Proof.
  apply (gzip_deflate_payload_correct sample_gzip). unfold gzip_ok. cbn.
  split_and!; try done; repeat constructor; lia.
Defined.

Lemma skip_zstring_le gzip i j : skip_zstring gzip i = Some j -> (i < j <= length gzip)%nat.
Proof.
  unfold skip_zstring. pose proof (scan_while_ge zero_stop gzip i). case_decide; [done|]. intros [= <-]. lia.
Qed.

Lemma gzip_extra_total gzip flg :
  (18 <= length gzip)%nat -> exists r, gzip_extra gzip flg 10 = Ret r /\ from_option (fun i => (10 <= i <= length gzip)%nat) True r.
Proof.
  intros Hl. unfold gzip_extra. destruct (flag_set flg 4).
  - rewrite decide_False by lia. no_panic. cbv zeta.
    set (n := (10 + 2 + _)%nat). destruct (decide (length gzip < n)%nat); [by exists None|].
    exists (Some n). split; [done|]. cbn [from_option]. unfold n in *. lia.
  - exists (Some 10%nat). split; [done|]. cbn [from_option]. lia.
Qed.

Lemma gzip_after_extra_le gzip flg i j : gzip_after_extra gzip flg i = Some j -> (i <= j)%nat.
Proof.
  unfold gzip_after_extra. intros H.
  destruct (if flag_set flg 8 then _ else _) as [i1|] eqn:E1; [|done].
  assert (i <= i1)%nat by (destruct (flag_set flg 8); [apply skip_zstring_le in E1; lia|by injection E1 as ->]).
  cbn [mbind option_bind] in H. destruct (if flag_set flg 16 then _ else _) as [i2|] eqn:E2; [|done].
  assert (i1 <= i2)%nat by (destruct (flag_set flg 16); [apply skip_zstring_le in E2; lia|by injection E2 as ->]).
  cbn [mbind option_bind] in H. destruct (flag_set flg 2); [case_decide; [done|]|]; injection H as <-; lia.
Qed.

(** No compressed body can crash the kernel in the gzip header: on any bytes
    the parser returns, and what it returns is the part of the input between
    some point behind the fixed header and the eight-byte trailer. *)
Theorem gzip_deflate_payload_total gzip :
  exists r, gzip_deflate_payload gzip = Ret r /\
    from_option (fun p => exists i, (10 <= i <= length gzip - 8)%nat /\ p = slice gzip i (length gzip - 8)) True r.
Proof.
  unfold gzip_deflate_payload. destruct (decide _) as [|Hl]; [by exists None|]. no_panic.
  destruct (decide _); [by exists None|]. destruct (flag_set _ _); [by exists None|].
  destruct (gzip_extra_total gzip (gzip !!! 3%nat)) as (r & -> & Hr); [lia|]. rewrite bind_ret.
  destruct r as [i|]; [|by exists None]. cbn [mbind option_bind]. cbn in Hr.
  destruct (gzip_after_extra _ _ i) as [j|] eqn:E; [|by exists None]. apply gzip_after_extra_le in E.
  destruct (decide _) as [|Hj]; [by exists None|]. rewrite sub_ok, bind_ret by lia.
  eexists. split; [done|]. cbn. exists j. split; [lia|done].
Qed.
