(* ===== verification/NetStack.v ===== *)
(** * The network stack's state and receive path ([kernel/src/net.rs], [NetStack])

    The struct, its resets, fetch start and completion, HTTP ingestion (headers,
    bodies, chunked transfer), the TLS cipher queues, and every receive handler
    (ARP, DHCP, DNS, TCP).  A method is a function [NetStack -> rust NetStack];
    one that sends also takes and returns the NIC and the transmit scratch, as a
    [World].  [klog] is the kernel log of [Log.v], a static of the source.

    Left out of the struct: the TLS session and its record buffers (third-party),
    the raw poll pointers, and scratch memory of the decompressors.  The
    decompressors and the NIC are parameters. *)

From S2P Require Import Prelude Url Log Settings NetWire Http.

(** ** State *)

Inductive DhcpPhase := Idle | WaitOffer | WaitAck | Bound.
#[export] Instance DhcpPhase_eq : EqDecision DhcpPhase.
Proof. solve_decision. Defined.

Inductive NetPhase := POff | PArp | PDns | PTcp | PHttp | PDone.
#[export] Instance NetPhase_eq : EqDecision NetPhase.
Proof. solve_decision. Defined.

(** [SizeLine], [Data(n)], [AfterData(step)], [Trailers]. *)
Inductive ChunkDecodePhase := SizeLine | Data (remaining : nat) | AfterData (step : Z) | Trailers.

Definition PAGE_CAP : nat := Z.to_nat 65536.
Definition STREAM_CAP : nat := 4096.
Definition CHUNK_LINE_CAP : nat := 24.
Definition TLS_CIPHER_RX_CAP : nat := Z.to_nat 49152.
Definition TLS_TX_CAP : nat := Z.to_nat 24576.

Record NetStack := {
  addrs : NetIpv4Addrs;
  settings_tag : Z;
  dhcp_phase : DhcpPhase;
  dhcp_xid : Z;
  dhcp_server_id : bytes;
  dhcp_offer_yi : bytes;
  dhcp_phase_start_tick : Z;
  dhcp_last_tx_tick : Z;
  gw_mac : bytes;
  gw_known : bool;
  tick : Z;
  ip_id : Z;
  tcp_seq : Z;
  tcp_ack : Z;
  syn_sent : bool;
  get_sent : bool;
  syn_retries : Z;
  fetch_progress_tick : Z;
  phase : NetPhase;
  http_bytes : Z;
  page : bytes;
  page_len : nat;
  page_gen : Z;
  fetch_err : bytes;
  fetch_err_len : nat;
  fetch_armed : bool;
  fetch_done : bool;
  dns_needed : bool;
  dns_done : bool;
  dns_tx_id : Z;
  dns_name : bytes;
  dns_name_len : nat;
  dns_xmit_phase : Z;
  remote_ip : bytes;
  remote_port : Z;
  host_hdr : bytes;
  host_hdr_len : nat;
  req_path : bytes;
  req_path_len : nat;
  https_mode : bool;
  tls_handshake_done : bool;
  https_handshake_queued : bool;
  tls_live : bool;
  tls_tcp_eof : bool;
  tls_tx_flush_pending : bool;
  tls_cipher_in : bytes;
  tls_cipher_off : nat;
  tls_cipher_len : nat;
  tls_tx_buf : bytes;
  tls_tx_len : nat;
  tls_server_name : bytes;
  tls_server_name_len : nat;
  stream : bytes;
  stream_len : nat;
  header_found : bool;
  http_body_remaining : option Z;
  http_chunked : bool;
  chunk_phase : ChunkDecodePhase;
  chunk_line : bytes;
  chunk_line_len : nat;
  tcp_connect_start_tick : Z;
  page_truncated : bool;
  body_layers : list BodyLayer;
  body_layer_count : nat;
  klog : Log;
}.

#[export] Instance NetStack_eta : Settable NetStack := fun s => Build_NetStack
  s.(addrs) s.(settings_tag) s.(dhcp_phase) s.(dhcp_xid) s.(dhcp_server_id) s.(dhcp_offer_yi)
  s.(dhcp_phase_start_tick) s.(dhcp_last_tx_tick) s.(gw_mac) s.(gw_known) s.(tick) s.(ip_id)
  s.(tcp_seq) s.(tcp_ack) s.(syn_sent) s.(get_sent) s.(syn_retries) s.(fetch_progress_tick)
  s.(phase) s.(http_bytes) s.(page) s.(page_len) s.(page_gen) s.(fetch_err) s.(fetch_err_len)
  s.(fetch_armed) s.(fetch_done) s.(dns_needed) s.(dns_done) s.(dns_tx_id) s.(dns_name)
  s.(dns_name_len) s.(dns_xmit_phase) s.(remote_ip) s.(remote_port) s.(host_hdr) s.(host_hdr_len)
  s.(req_path) s.(req_path_len) s.(https_mode) s.(tls_handshake_done) s.(https_handshake_queued)
  s.(tls_live) s.(tls_tcp_eof) s.(tls_tx_flush_pending) s.(tls_cipher_in) s.(tls_cipher_off)
  s.(tls_cipher_len) s.(tls_tx_buf) s.(tls_tx_len) s.(tls_server_name) s.(tls_server_name_len)
  s.(stream) s.(stream_len) s.(header_found) s.(http_body_remaining) s.(http_chunked)
  s.(chunk_phase) s.(chunk_line) s.(chunk_line_len) s.(tcp_connect_start_tick) s.(page_truncated)
  s.(body_layers) s.(body_layer_count) s.(klog).

(** [static_initial] with the given log. *)
Definition static_initial (l : Log) : NetStack := {|
  addrs := SLIRP; settings_tag := 2 ^ 32 - 1; dhcp_phase := Idle; dhcp_xid := 0;
  dhcp_server_id := replicate 4 0; dhcp_offer_yi := replicate 4 0; dhcp_phase_start_tick := 0;
  dhcp_last_tx_tick := 0; gw_mac := replicate 6 0; gw_known := false; tick := 0; ip_id := 0x4000;
  tcp_seq := 0; tcp_ack := 0; syn_sent := false; get_sent := false; syn_retries := 0;
  fetch_progress_tick := 0; phase := POff; http_bytes := 0; page := replicate PAGE_CAP 0; page_len := 0;
  page_gen := 0; fetch_err := replicate 80 0; fetch_err_len := 0; fetch_armed := false;
  fetch_done := false; dns_needed := false; dns_done := false; dns_tx_id := 0;
  dns_name := replicate 96 0; dns_name_len := 0; dns_xmit_phase := 0; remote_ip := replicate 4 0;
  remote_port := 80; host_hdr := replicate 96 0; host_hdr_len := 0; req_path := replicate 160 0;
  req_path_len := 0; https_mode := false; tls_handshake_done := false;
  https_handshake_queued := false; tls_live := false; tls_tcp_eof := false;
  tls_tx_flush_pending := false; tls_cipher_in := replicate TLS_CIPHER_RX_CAP 0; tls_cipher_off := 0;
  tls_cipher_len := 0; tls_tx_buf := replicate TLS_TX_CAP 0; tls_tx_len := 0;
  tls_server_name := replicate 96 0; tls_server_name_len := 0; stream := replicate STREAM_CAP 0;
  stream_len := 0; header_found := false; http_body_remaining := None; http_chunked := false;
  chunk_phase := SizeLine; chunk_line := replicate CHUNK_LINE_CAP 0; chunk_line_len := 0;
  tcp_connect_start_tick := 0; page_truncated := false; body_layers := replicate 4 Identity;
  body_layer_count := 0; klog := l;
|}.

Definition seed_from_mac (mac : bytes) (s : NetStack) : NetStack :=
  s <| tcp_seq := fold_left (fun s b => wrap32 (wrap32 (s * 0x01000193) + b)) mac 0x12345678 |>.

Definition dhcp_active (s : NetStack) : bool :=
  match s.(dhcp_phase) with WaitOffer | WaitAck => true | _ => false end.

(** ** Resets *)

Definition clear_fetch_inner (s : NetStack) : NetStack :=
  s <| tls_live := false |> <| tls_handshake_done := false |> <| https_handshake_queued := false |>
    <| https_mode := false |> <| tls_cipher_off := 0%nat |> <| tls_cipher_len := 0%nat |>
    <| tls_tx_len := 0%nat |> <| tls_tcp_eof := false |> <| tls_tx_flush_pending := false |>
    <| tls_server_name_len := 0%nat |>
    <| fetch_armed := false |> <| fetch_done := false |> <| syn_sent := false |> <| get_sent := false |>
    <| syn_retries := 0 |> <| fetch_progress_tick := s.(tick) |> <| http_bytes := 0 |>
    <| stream_len := 0%nat |> <| header_found := false |> <| http_body_remaining := None |>
    <| http_chunked := false |> <| chunk_phase := SizeLine |> <| chunk_line_len := 0%nat |>
    <| tcp_connect_start_tick := 0 |> <| page_len := 0%nat |>
    <| page := replicate (length s.(page)) 0 |> <| stream := replicate (length s.(stream)) 0 |>
    <| fetch_err_len := 0%nat |> <| fetch_err := replicate (length s.(fetch_err)) 0 |>
    <| dns_needed := false |> <| dns_done := false |> <| dns_xmit_phase := 0 |>
    <| page_truncated := false |> <| body_layers := replicate 4 Identity |> <| body_layer_count := 0%nat |>.

Definition reset_demo (s : NetStack) : NetStack := (clear_fetch_inner s) <| phase := POff |>.

Definition reset_tcp_for_new_fetch (s : NetStack) : NetStack :=
  s <| syn_sent := false |> <| get_sent := false |> <| syn_retries := 0 |>
    <| tcp_connect_start_tick := s.(tick) |> <| http_bytes := 0 |> <| stream_len := 0%nat |>
    <| header_found := false |> <| http_body_remaining := None |> <| http_chunked := false |>
    <| chunk_phase := SizeLine |> <| chunk_line_len := 0%nat |> <| page_len := 0%nat |>
    <| page := replicate (length s.(page)) 0 |> <| stream := replicate (length s.(stream)) 0 |>
    <| fetch_done := false |> <| fetch_err_len := 0%nat |>
    <| fetch_err := replicate (length s.(fetch_err)) 0 |> <| page_truncated := false |>
    <| body_layers := replicate 4 Identity |> <| body_layer_count := 0%nat |>.

Definition bump_gen (s : NetStack) : NetStack := s <| page_gen ::= fun g => wrap32 (g + 1) |>.

Definition set_err (msg : bytes) (s : NetStack) : NetStack :=
  let s := s <| klog ::= err_msg msg |> in
  let n := Nat.min (length msg) (length s.(fetch_err)) in
  bump_gen (s <| fetch_err ::= list_inserts 0 (take n msg) |> <| fetch_err_len := n |>
              <| fetch_armed := false |> <| fetch_done := true |>).

(** [a[..n].copy_from_slice(&b[..n])] *)
Definition copy_prefix (dst src : bytes) (n : nat) : rust bytes := d ← sub src 0 n; copy_at dst 0 d.

Definition E_BAD_URL : bytes := Eval vm_compute in bs "BAD URL".

(** [if p.needs_dns]: a query to send, or the address itself. *)
Definition fetch_resolve (p : ParsedHttpUrl) (s : NetStack) : rust NetStack :=
  if p.(needs_dns) then
    dn ← copy_prefix s.(dns_name) p.(host_for_dns) p.(host_for_dns_len);
    let id := Z.lxor (wrap16 s.(tick)) 0xACE1 in
    Ret (s <| dns_needed := true |> <| dns_done := false |> <| dns_name_len := p.(host_for_dns_len) |>
           <| dns_name := dn |> <| dns_tx_id := if decide (id = 0) then 0xB00F else id |>)
  else Ret (s <| dns_needed := false |> <| dns_done := true |> <| remote_ip := p.(ip) |>).

Definition start_fetch (url : bytes) (s : NetStack) : rust NetStack :=
  let s := clear_fetch_inner s in
  r ← parse_fetch_url url;
  match r with
  | None => Ret (set_err E_BAD_URL s)
  | Some p =>
      h ← sub p.(host_for_dns) 0 p.(host_for_dns_len);
      let s := s <| klog ::= fetch_host h p.(https) |> <| https_mode := p.(https) |>
                 <| tls_server_name_len := p.(host_for_dns_len) |> in
      sn ← copy_prefix s.(tls_server_name) p.(host_for_dns) p.(host_for_dns_len);
      hh ← copy_prefix s.(host_hdr) p.(host_header) p.(host_header_len);
      pa ← copy_prefix s.(req_path) p.(Url.path) p.(path_len);
      let s := s <| tls_server_name := sn |> <| remote_port := p.(port) |>
                 <| host_hdr_len := p.(host_header_len) |> <| host_hdr := hh |>
                 <| req_path_len := p.(path_len) |> <| req_path := pa |> in
      s ← fetch_resolve p s;
      Ret (bump_gen ((reset_tcp_for_new_fetch s) <| fetch_armed := true |>))
  end.

Definition T_ipcfg_slirp : bytes := Eval vm_compute in bs "net ipcfg slirp".
Definition T_ipcfg_static : bytes := Eval vm_compute in bs "net ipcfg static".
Definition T_ipcfg_dhcp : bytes := Eval vm_compute in bs "net ipcfg dhcp".

Definition sync_ip_from_settings (cfg : DeviceSettings) (tag : Z) (s : NetStack) : NetStack :=
  if decide (tag = s.(settings_tag)) then s
  else
    let s := s <| settings_tag := tag |> <| gw_known := false |> <| dhcp_phase_start_tick := 0 |>
               <| dhcp_last_tx_tick := 0 |> in
    reset_demo
      match cfg.(ip_config) with
      | Slirp => s <| klog ::= line T_ipcfg_slirp |> <| addrs := SLIRP |> <| dhcp_phase := Idle |>
      | Static =>
          s <| klog ::= line T_ipcfg_static |>
            <| addrs := {| our := cfg.(static_ip); gw := cfg.(static_gw); dns := cfg.(static_dns) |} |>
            <| dhcp_phase := Idle |>
      | Dhcp =>
          let xid := Z.lxor (wrap32 (s.(tick) * 0x9E3779B1)) s.(tcp_seq) in
          s <| klog ::= line T_ipcfg_dhcp |> <| addrs := ZERO |> <| dhcp_phase := WaitOffer |>
            <| dhcp_xid := if decide (xid = 0) then 0x01020304 else xid |>
            <| dhcp_server_id := replicate 4 0 |> <| dhcp_offer_yi := replicate 4 0 |>
            <| fetch_err_len := 0%nat |> <| dhcp_phase_start_tick := 0 |> <| dhcp_last_tx_tick := 0 |>
      end.

(** ** Body decoding and completion *)

Inductive inflate_result := Inflated (out : bytes) | HasMoreOutput | InflateErr.

Definition E_GZIP_SHORT : bytes := Eval vm_compute in bs "GZIP SHORT".
Definition E_GZIP_HDR : bytes := Eval vm_compute in bs "GZIP HDR".
Definition E_GZIP_INT : bytes := Eval vm_compute in bs "GZIP INT".
Definition E_GZIP_BIG : bytes := Eval vm_compute in bs "GZIP BIG".
Definition E_GZIP_BAD : bytes := Eval vm_compute in bs "GZIP BAD".
Definition E_ZLIB_INT : bytes := Eval vm_compute in bs "ZLIB INT".
Definition E_ZLIB_BIG : bytes := Eval vm_compute in bs "ZLIB BIG".
Definition E_ZLIB_BAD : bytes := Eval vm_compute in bs "ZLIB BAD".
Definition E_BR_BAD : bytes := Eval vm_compute in bs "BR BAD".
Definition E_BR_INT : bytes := Eval vm_compute in bs "BR INT".
Definition E_CHUNK_EOF : bytes := Eval vm_compute in bs "HTTP CHUNK EOF".
Definition E_CHUNK_SZ : bytes := Eval vm_compute in bs "HTTP CHUNK SZ".
Definition E_CHUNK_CRLF : bytes := Eval vm_compute in bs "HTTP CHUNK CRLF".
Definition E_HDR_TOO_BIG : bytes := Eval vm_compute in bs "HTTP HDR TOO BIG".
Definition E_HTTP_ENC : bytes := Eval vm_compute in bs "HTTP ENC".

Definition page_bytes (s : NetStack) : bytes := take s.(page_len) s.(page).

Section stack.
(** [miniz_oxide] with its zlib-header flag, and [brotli_decompressor]. *)
Context (inflate : bool -> bytes -> inflate_result) (brotli : bytes -> option bytes).

(** The decoded bytes replace the page; [Some msg] is [Err(msg)]. *)
Definition put_page (out msg_int : bytes) (s : NetStack) : NetStack * option bytes :=
  let n := length out in
  if decide (length s.(page) < n)%nat then (s, Some msg_int)
  else (s <| page ::= list_inserts 0 out |> <| page_len := n |>, None).

Definition decompress_gzip_once (s : NetStack) : rust (NetStack * option bytes) :=
  if decide (s.(page_len) < 18)%nat then Ret (s, Some E_GZIP_SHORT)
  else
    comp ← sub s.(page) 0 s.(page_len);
    d ← gzip_deflate_payload comp;
    match d with
    | None => Ret (s, Some E_GZIP_HDR)
    | Some deflate =>
        match inflate false deflate with
        | Inflated out => Ret (put_page out E_GZIP_INT s)
        | HasMoreOutput => Ret (s, Some E_GZIP_BIG)
        | InflateErr => Ret (s, Some E_GZIP_BAD)
        end
    end.

Definition decompress_zlib_once (s : NetStack) : rust (NetStack * option bytes) :=
  inp ← sub s.(page) 0 s.(page_len);
  match inflate true inp with
  | Inflated out => Ret (put_page out E_ZLIB_INT s)
  | HasMoreOutput => Ret (s, Some E_ZLIB_BIG)
  | InflateErr => Ret (s, Some E_ZLIB_BAD)
  end.

Definition decompress_brotli_once (s : NetStack) : rust (NetStack * option bytes) :=
  input ← sub s.(page) 0 s.(page_len);
  match brotli input with
  | None => Ret (s, Some E_BR_BAD)
  | Some out => Ret (put_page out E_BR_INT s)
  end.

Definition decompress_layer (l : BodyLayer) (s : NetStack) : rust (NetStack * option bytes) :=
  match l with
  | Identity => Ret (s, None)
  | Gzip => decompress_gzip_once s
  | DeflateZlib => decompress_zlib_once s
  | Brotli => decompress_brotli_once s
  end.

(** Outermost (last listed) coding first, stopping at the first error. *)
Fixpoint decompress_layers (ls : list BodyLayer) (s : NetStack) : rust (NetStack * option bytes) :=
  match ls with
  | [] => Ret (s, None)
  | l :: ls =>
      r ← decompress_layer l s;
      match r with
      | (s, Some msg) => Ret (s, Some msg)
      | (s, None) => decompress_layers ls s
      end
  end.

Definition decompress_body_layers (s : NetStack) : rust (NetStack * option bytes) :=
  ls ← sub s.(body_layers) 0 s.(body_layer_count);
  decompress_layers (rev ls) s.

Definition fetch_complete (s : NetStack) : NetStack :=
  bump_gen (s <| fetch_done := true |> <| fetch_armed := false |>).

Definition finish_fetch (s : NetStack) : rust NetStack :=
  if s.(fetch_done) then Ret s
  else if decide (0 < s.(body_layer_count))%nat then
    r ← decompress_body_layers s;
    match r with
    | (s, None) => Ret (fetch_complete s)
    | (s, Some msg) =>
        p ← sub s.(page) 0 s.(page_len);
        if body_starts_like_html p
        then Ret (fetch_complete (s <| body_layer_count := 0%nat |> <| body_layers := replicate 4 Identity |>))
        else Ret (set_err msg s)
    end
  else if decide (2 <= s.(page_len) /\ s.(page) !! 0 = Some 0x1f%Z /\ s.(page) !! 1 = Some 0x8b%Z)%nat then
    r ← decompress_gzip_once s;
    match r with
    | (s, Some msg) => Ret (set_err msg s)
    | (s, None) => Ret (fetch_complete s)
    end
  else Ret (fetch_complete s).

Definition finish_plain_http_on_tcp_eof (s : NetStack) : rust NetStack :=
  if s.(http_chunked) && negb s.(fetch_done) then Ret (set_err E_CHUNK_EOF s) else finish_fetch s.

(** ** Body bytes *)

Definition page_push_byte (b : Z) (s : NetStack) : rust NetStack :=
  if decide (s.(page_len) < length s.(page))%nat then
    p ← wr s.(page) s.(page_len) b;
    Ret (s <| page := p |> <| page_len ::= S |>)
  else Ret (s <| page_truncated := true |>).

Fixpoint page_push_bytes (l : bytes) (s : NetStack) : rust NetStack :=
  match l with
  | [] => Ret s
  | b :: l => s ← page_push_byte b s; page_push_bytes l s
  end.

Definition append_to_page (data : bytes) (s : NetStack) : rust NetStack :=
  let room := (length s.(page) - s.(page_len))%nat in
  let n := Nat.min (length data) room in
  s ← (if decide (0 < n)%nat then
         p ← copy_at s.(page) s.(page_len) (take n data);
         Ret (s <| page := p |> <| page_len ::= Nat.add n |>)
       else Ret s);
  let s := if decide (n < length data)%nat then s <| page_truncated := true |> else s in
  match s.(http_body_remaining) with
  | Some rem =>
      let rem := rem - Z.min rem (Z.of_nat n) in
      let s := s <| http_body_remaining := Some rem |> in
      if decide (rem = 0) then finish_fetch s else Ret s
  | None => Ret s
  end.

(** ** Chunked transfer

    The loop of [ingest_chunked_bytes] with its four inner loops.  An inner
    loop returns the bytes left, the state, and whether the source returned. *)

Definition chunk_ret : Type := bytes * NetStack * bool.

Definition push_line_byte (b : Z) (s : NetStack) : rust NetStack :=
  if decide (b <> 13 /\ (s.(chunk_line_len) < CHUNK_LINE_CAP)%nat) then
    l ← wr s.(chunk_line) s.(chunk_line_len) b;
    Ret (s <| chunk_line := l |> <| chunk_line_len ::= S |>)
  else Ret s.

Fixpoint size_line_loop (data : bytes) (s : NetStack) : rust chunk_ret :=
  match data with
  | [] => Ret ([], s, false)
  | b :: data =>
      if decide (b = 10) then
        l ← sub s.(chunk_line) 0 s.(chunk_line_len);
        match parse_chunk_size_line l with
        | None => Ret (data, set_err E_CHUNK_SZ s, true)
        | Some size =>
            let s := s <| chunk_line_len := 0%nat |> in
            Ret (data, s <| chunk_phase := if decide (size = 0) then Trailers else Data (Z.to_nat size) |>, false)
        end
      else s ← push_line_byte b s; size_line_loop data s
  end.

Definition chunk_data (remaining : nat) (data : bytes) (s : NetStack) : rust chunk_ret :=
  let n := Nat.min remaining (length data) in
  s ← page_push_bytes (take n data) s;
  let rem := (remaining - n)%nat in
  Ret (drop n data,
       s <| chunk_phase := if decide (rem = 0)%nat then AfterData 0 else Data rem |>, false).

(** Its [while] runs at most once: every path breaks or returns. *)
Definition after_data (step : Z) (data : bytes) (s : NetStack) : rust chunk_ret :=
  match data with
  | [] => Ret ([], s, false)
  | b :: data =>
      if decide (step = 0) then
        if decide (b = 13) then Ret (data, s <| chunk_phase := AfterData 1 |>, false)
        else if decide (b = 10) then Ret (data, s <| chunk_phase := SizeLine |>, false)
        else Ret (data, set_err E_CHUNK_CRLF s, true)
      else if decide (step = 1) then
        if decide (b = 10) then Ret (data, s <| chunk_phase := SizeLine |>, false)
        else Ret (data, set_err E_CHUNK_CRLF s, true)
      else Ret (data, s, true)
  end.

Fixpoint trailers_loop (data : bytes) (s : NetStack) : rust chunk_ret :=
  match data with
  | [] => Ret ([], s, false)
  | b :: data =>
      if decide (b = 10) then
        if decide (s.(chunk_line_len) = 0)%nat then s ← finish_fetch s; Ret (data, s, true)
        else trailers_loop data (s <| chunk_line_len := 0%nat |>)
      else s ← push_line_byte b s; trailers_loop data s
  end.

Definition chunk_round (data : bytes) (s : NetStack) : rust chunk_ret :=
  match s.(chunk_phase) with
  | SizeLine => size_line_loop data s
  | Data remaining => chunk_data remaining data s
  | AfterData step => after_data step data s
  | Trailers => trailers_loop data s
  end.

(** Two rounds consume at least a byte: only [Data 0] consumes none. *)
Fixpoint chunk_loop (fuel : nat) (data : bytes) (s : NetStack) : rust NetStack :=
  match fuel with
  | O => Panic
  | S fuel =>
      if decide (data = []) then Ret s
      else
        '(data, s, stop) ← chunk_round data s;
        if stop : bool then Ret s else chunk_loop fuel data s
  end.

Definition ingest_chunked_bytes (data : bytes) (s : NetStack) : rust NetStack :=
  chunk_loop (2 * length data + 2) data s.

(** The part of the body behind the header goes in pieces of 256 bytes. *)
Fixpoint ingest_pieces (fuel : nat) (off last : nat) (s : NetStack) : rust NetStack :=
  match fuel with
  | O => Panic
  | S fuel =>
      if decide (off < last)%nat then
        let n := Nat.min (last - off) 256 in
        tmp ← sub s.(stream) off (off + n);
        s ← ingest_chunked_bytes tmp s;
        ingest_pieces fuel (off + n) last s
      else Ret s
  end.

(** What [ingest_tcp_payload] does once the header has ended at [hdr_end]. *)
Definition ingest_head (hdr_end : nat) (s : NetStack) : rust NetStack :=
  let s := s <| header_found := true |> in
  headers ← sub s.(stream) 0 hdr_end;
  let body_off := hdr_end in
  let last := s.(stream_len) in
  let body_in_header_buf := (last - body_off)%nat in
  if response_headers_chunked headers then
    let s := s <| http_chunked := true |> <| chunk_phase := SizeLine |> <| chunk_line_len := 0%nat |> in
    s ← ingest_pieces (S last) body_off last s;
    Ret (bump_gen (s <| stream_len := 0%nat |>))
  else
    match parse_content_encoding_layers headers with
    | None => Ret (set_err E_HTTP_ENC s)
    | Some (layers, count) =>
        let s := s <| body_layers := layers |> <| body_layer_count := count |> in
        let s := s <| http_body_remaining :=
          match parse_content_length headers with
          | Some cl => Some (cl - Z.min (Z.of_nat body_in_header_buf) cl)
          | None => None
          end |> in
        body ← sub s.(stream) body_off last;
        s ← page_push_bytes body s;
        s ← (if decide (s.(http_body_remaining) = Some 0) then finish_fetch s else Ret s);
        Ret (bump_gen (s <| stream_len := 0%nat |>))
    end.

Definition ingest_tcp_payload (data : bytes) (s : NetStack) : rust NetStack :=
  if negb s.(header_found) then
    let room := (length s.(stream) - s.(stream_len))%nat in
    let n := Nat.min (length data) room in
    st ← copy_at s.(stream) s.(stream_len) (take n data);
    let s := s <| stream := st |> <| stream_len ::= Nat.add n |> in
    seen ← sub s.(stream) 0 s.(stream_len);
    let e := find_http_header_end seen in
    if decide (length s.(stream) <= s.(stream_len) /\ e = None)%nat then Ret (set_err E_HDR_TOO_BIG s)
    else
      match e with
      | Some (pos, sep_len) => ingest_head (pos + sep_len) s
      | None => Ret s
      end
  else if s.(http_chunked) then ingest_chunked_bytes data s
  else append_to_page data s.
End stack.

(** ** The TLS cipher queues *)

Definition tls_cipher_compact (s : NetStack) : rust NetStack :=
  if decide (s.(tls_cipher_off) = 0)%nat then Ret s
  else
    let rem := (s.(tls_cipher_len) - s.(tls_cipher_off))%nat in
    q ← (if decide (0 < rem)%nat then
           d ← sub s.(tls_cipher_in) s.(tls_cipher_off) s.(tls_cipher_len);
           copy_at s.(tls_cipher_in) 0 d
         else Ret s.(tls_cipher_in));
    Ret (s <| tls_cipher_in := q |> <| tls_cipher_len := rem |> <| tls_cipher_off := 0%nat |>).

Definition tls_cipher_append (data : bytes) (s : NetStack) : rust (NetStack * bool) :=
  s ← (if decide (length s.(tls_cipher_in) < s.(tls_cipher_len) + length data)%nat
       then tls_cipher_compact s else Ret s);
  if decide (length s.(tls_cipher_in) < s.(tls_cipher_len) + length data)%nat then Ret (s, false)
  else
    q ← copy_at s.(tls_cipher_in) s.(tls_cipher_len) data;
    Ret (s <| tls_cipher_in := q |> <| tls_cipher_len ::= fun l => (l + length data)%nat |>, true).

(** [buf] has [cap] bytes; the result is what was copied into it. *)
Definition tls_cipher_pop (cap : nat) (s : NetStack) : rust (NetStack * bytes) :=
  let avail := (s.(tls_cipher_len) - s.(tls_cipher_off))%nat in
  if decide (avail = 0)%nat then Ret (s, [])
  else
    let n := Nat.min avail cap in
    d ← sub s.(tls_cipher_in) s.(tls_cipher_off) (s.(tls_cipher_off) + n);
    let s := s <| tls_cipher_off ::= Nat.add n |> in
    if decide (s.(tls_cipher_len) <= s.(tls_cipher_off))%nat
    then Ret (s <| tls_cipher_off := 0%nat |> <| tls_cipher_len := 0%nat |>, d)
    else if decide (Z.to_nat 24576 < s.(tls_cipher_off))%nat then s ← tls_cipher_compact s; Ret (s, d)
    else Ret (s, d).

Definition tls_cipher_tx_append (data : bytes) (s : NetStack) : rust (NetStack * bool) :=
  if decide (length s.(tls_tx_buf) < s.(tls_tx_len) + length data)%nat then Ret (s, false)
  else
    q ← copy_at s.(tls_tx_buf) s.(tls_tx_len) data;
    Ret (s <| tls_tx_buf := q |> <| tls_tx_len ::= fun l => (l + length data)%nat |>, true).

Definition tls_eof_from_tcp (s : NetStack) : bool := s.(tls_tcp_eof).
Definition tls_note_flush_pending (s : NetStack) : NetStack := s <| tls_tx_flush_pending := true |>.

(** ** The NIC and the receive handlers *)

(** [AnyNic]: send one frame; fetch one received frame into a buffer. *)
Class Nic (N : Type) := {
  transmit : N -> bytes -> N * bool;
  poll_rx_packet : N -> bytes -> N * option nat * bytes;
}.

Definition E_TCP_RST : bytes := Eval vm_compute in bs "TCP RST".
Definition E_GET_TOO_LONG : bytes := Eval vm_compute in bs "GET TOO LONG".
Definition E_TLS_RX_OVFL : bytes := Eval vm_compute in bs "TLS RX OVFL".
Definition T_dhcp_bound : bytes := Eval vm_compute in bs "net dhcp bound".
Definition T_ip : bytes := Eval vm_compute in bs "ip ".
Definition T_gw : bytes := Eval vm_compute in bs "gw ".

Record World (N : Type) := { net : NetStack; nicd : N; scratch : bytes }.
Arguments net {N} _.
Arguments nicd {N} _.
Arguments scratch {N} _.
Arguments Build_World {N} _ _ _.

Record dhcp_opts := {
  do_msg : Z; do_sid : option bytes; do_router : option bytes; do_dns : option bytes;
}.
Definition dhcp_opts_none : dhcp_opts := {| do_msg := 0; do_sid := None; do_router := None; do_dns := None |}.
#[export] Instance dhcp_opts_eta : Settable dhcp_opts :=
  fun s => Build_dhcp_opts s.(do_msg) s.(do_sid) s.(do_router) s.(do_dns).

(** One option: [tag] with the [ln] bytes at [v0]. *)
Definition dhcp_option (bootp : bytes) (tag : Z) (ln v0 : nat) (o : dhcp_opts) : rust dhcp_opts :=
  if decide (tag = OPT_MSG_TYPE /\ 1 <= ln)%nat then m ← rd bootp v0; Ret (o <| do_msg := m |>)
  else if decide (tag = OPT_SERVER_ID /\ 4 <= ln)%nat then
    d ← sub bootp v0 (v0 + 4); Ret (o <| do_sid := Some d |>)
  else if decide (tag = OPT_ROUTER /\ 4 <= ln)%nat then
    d ← sub bootp v0 (v0 + 4); Ret (o <| do_router := Some d |>)
  else if decide (tag = OPT_DNS /\ 4 <= ln)%nat then
    d ← sub bootp v0 (v0 + 4); Ret (o <| do_dns := Some d |>)
  else Ret o.

(** The option loop; [i] advances by at least one byte a round. *)
Fixpoint dhcp_options (fuel : nat) (bootp : bytes) (i : nat) (o : dhcp_opts) : rust dhcp_opts :=
  match fuel with
  | O => Panic
  | S fuel =>
      if decide (length bootp <= i)%nat then Ret o
      else
        tag ← rd bootp i;
        if decide (tag = OPT_END) then Ret o
        else if decide (tag = 0) then dhcp_options fuel bootp (i + 1) o
        else if decide (length bootp <= i + 1)%nat then Ret o
        else
          l ← rd bootp (i + 1);
          let ln := Z.to_nat l in
          let v0 := (i + 2)%nat in
          if decide (length bootp < v0 + ln)%nat then Ret o
          else o ← dhcp_option bootp tag ln v0 o; dhcp_options fuel bootp (v0 + ln) o
  end.

Definition rd32 (buf : bytes) (i : nat) : rust Z := d ← sub buf i (i + 4); Ret (of_be d).

(** [reply] opcode, transaction and client address, then the options. *)
Definition dhcp_parse (bootp our_mac : bytes) (xid : Z) : rust (option dhcp_opts) :=
  if decide (length bootp < 240)%nat then Ret None
  else
    op ← rd bootp 0;
    if decide (op <> 2) then Ret None
    else
      x ← rd32 bootp 4;
      if decide (x <> xid) then Ret None
      else
        ch ← sub bootp 28 34;
        if decide (ch <> take 6 our_mac) then Ret None
        else
          magic ← sub bootp 236 240;
          if decide (244 <= length bootp /\ magic = DHCP_MAGIC)%nat then
            o ← dhcp_options (S (length bootp)) bootp 240 dhcp_opts_none; Ret (Some o)
          else Ret (Some dhcp_opts_none).

Section handlers.
Context (inflate : bool -> bytes -> inflate_result) (brotli : bytes -> option bytes).
Context {N : Type} `{Nic N}.
Implicit Types (w : World N).

Definition upd (f : NetStack -> NetStack) (w : World N) : World N :=
  {| net := f w.(net); nicd := w.(nicd); scratch := w.(scratch) |}.
Definition lift_net (f : NetStack -> rust NetStack) (w : World N) : rust (World N) :=
  s ← f w.(net); Ret {| net := s; nicd := w.(nicd); scratch := w.(scratch) |}.

(** [let n = build(.., scratch); if n > 0 { vio.transmit(&scratch[..n]) }]: the
    flag says whether a frame was accepted. *)
Definition send (build : bytes -> rust (bytes * nat)) (w : World N) : rust (World N * bool) :=
  '(out, n) ← build w.(scratch);
  if decide (0 < n)%nat then
    f ← sub out 0 n;
    let '(d, ok) := transmit w.(nicd) f in
    Ret ({| net := w.(net); nicd := d; scratch := out |}, ok)
  else Ret ({| net := w.(net); nicd := w.(nicd); scratch := out |}, false).

Definition dhcp_send_discover (our_mac : bytes) (w : World N) : rust (World N) :=
  '(w, _) ← send (build_dhcp_packet our_mac ZERO w.(net).(dhcp_xid) our_mac DHCP_DISCOVER None None) w;
  Ret w.

Definition dhcp_send_request (our_mac : bytes) (w : World N) : rust (World N) :=
  '(w, _) ← send (build_dhcp_packet our_mac ZERO w.(net).(dhcp_xid) our_mac DHCP_REQUEST
                    (Some w.(net).(dhcp_server_id)) (Some w.(net).(dhcp_offer_yi))) w;
  Ret w.

(** The lease of an ACK: router and DNS options with their fallbacks. *)
Definition lease (yi si : bytes) (o : dhcp_opts) : NetIpv4Addrs :=
  let g := default si o.(do_router) in
  let g := if decide (g = [0; 0; 0; 0]) then yi else g in
  {| our := yi; gw := g; dns := default g o.(do_dns) |}.

Definition dhcp_bind (a : NetIpv4Addrs) (s : NetStack) : NetStack :=
  s <| addrs := a |> <| dhcp_phase := Bound |> <| gw_known := false |> <| fetch_err_len := 0%nat |>
    <| klog ::= line T_dhcp_bound |> <| klog ::= ipv4 T_ip a.(our) |> <| klog ::= ipv4 T_gw a.(gw) |>.

Definition handle_dhcp_reply (bootp our_mac : bytes) (w : World N) : rust (World N) :=
  p ← dhcp_parse bootp our_mac w.(net).(dhcp_xid);
  match p with
  | None => Ret w
  | Some o =>
      yi ← sub bootp 16 20;
      match w.(net).(dhcp_phase) with
      | WaitOffer =>
          if decide (o.(do_msg) = DHCP_OFFER) then
            match o.(do_sid) with
            | None => Ret w
            | Some sid =>
                dhcp_send_request our_mac (upd (fun s => s <| dhcp_server_id := sid |>
                  <| dhcp_offer_yi := yi |> <| dhcp_phase := WaitAck |>
                  <| dhcp_phase_start_tick := s.(tick) |> <| dhcp_last_tx_tick := s.(tick) |>) w)
            end
          else Ret w
      | WaitAck =>
          if decide (o.(do_msg) = DHCP_ACK) then
            si ← sub bootp 20 24;
            Ret (upd (dhcp_bind (lease yi si o)) w)
          else Ret w
      | _ => Ret w
      end
  end.

Definition handle_arp (frame : bytes) (s : NetStack) : rust NetStack :=
  if decide (length frame < 14 + 28)%nat then Ret s
  else
    let a := 14%nat in
    op ← rd16 frame (a + 6);
    if decide (op <> ARP_OP_REPLY) then Ret s
    else
      tpa ← sub frame (a + 24) (a + 28);
      if decide (tpa <> s.(addrs).(our)) then Ret s
      else
        spa ← sub frame (a + 14) (a + 18);
        if decide (spa <> s.(addrs).(gw)) then Ret s
        else
          m ← sub frame (a + 8) (a + 14);
          Ret (s <| gw_mac := m |> <| gw_known := true |>).

Definition handle_udp_rx (frame sip : bytes) (ihl : nat) (s : NetStack) : rust NetStack :=
  if bool_decide (sip <> s.(addrs).(dns)) || negb s.(fetch_armed) || negb s.(dns_needed) || s.(dns_done)
  then Ret s
  else
    let u0 := (14 + ihl)%nat in
    if decide (length frame < u0 + 8)%nat then Ret s
    else
      dport ← rd16 frame (u0 + 2);
      if decide (dport <> DNS_LOCAL_PORT) then Ret s
      else
        ul ← rd16 frame (u0 + 4);
        let udp_len := Z.to_nat ul in
        if decide (udp_len < 8 \/ length frame < u0 + udp_len)%nat then Ret s
        else
          d ← sub frame (u0 + 8) (u0 + udp_len);
          r ← parse_dns_a d s.(dns_tx_id);
          match r with
          | None => Ret s
          | Some ip =>
              Ret (s <| remote_ip := ip |> <| dns_done := true |> <| dns_needed := false |>
                     <| dns_xmit_phase := 0 |> <| syn_sent := false |> <| syn_retries := 0 |>)
          end.

(** Bump the IP identification, then send a bare ACK. *)
Definition send_ack (our_mac sip : bytes) (w : World N) : rust (World N) :=
  let s := w.(net) in
  let id := wrap16 (s.(ip_id) + 1) in
  '(w, _) ← send (build_tcp_ack_only our_mac s.(gw_mac) s.(addrs) sip LOCAL_PORT s.(remote_port)
                    s.(tcp_seq) s.(tcp_ack) id) w;
  Ret (upd (fun s => s <| ip_id := id |>) w).

(** The SYN-ACK branch. *)
Definition tcp_connected (our_mac sip : bytes) (seq : Z) (w : World N) : rust (World N) :=
  let w := upd (fun s => s <| tcp_ack := wrap32 (seq + 1) |> <| tcp_seq ::= fun q => wrap32 (q + 1) |>) w in
  if w.(net).(https_mode) then
    w ← send_ack our_mac sip w;
    Ret (if w.(net).(tls_handshake_done) then w else upd (fun s => s <| https_handshake_queued := true |>) w)
  else
    let s := w.(net) in
    pth ← sub s.(req_path) 0 s.(req_path_len);
    hst ← sub s.(host_hdr) 0 s.(host_hdr_len);
    g ← build_http_get pth hst (replicate 512 0);
    match g with
    | None => Ret (upd (set_err E_GET_TOO_LONG) w)
    | Some (pay, plen) =>
        pl ← sub pay 0 plen;
        let id := wrap16 (s.(ip_id) + 1) in
        '(w, ok) ← send (build_tcp_ack_psh our_mac s.(gw_mac) s.(addrs) sip LOCAL_PORT s.(remote_port)
                           s.(tcp_seq) s.(tcp_ack) pl id) w;
        let w := upd (fun s => s <| ip_id := id |>) w in
        Ret (if ok : bool then
               upd (fun s => s <| get_sent := true |> <| tcp_seq ::= fun q => wrap32 (q + Z.of_nat plen) |>) w
             else w)
    end.

Definition on_fin (w : World N) : rust (World N) :=
  if w.(net).(https_mode) then Ret (upd (fun s => s <| tls_tcp_eof := true |>) w)
  else lift_net (finish_plain_http_on_tcp_eof inflate brotli) w.

(** The data branch: [Ret (w, false)] is the early return on a full queue. *)
Definition tcp_deliver (pay : bytes) (w : World N) : rust (World N * bool) :=
  let w := upd (fun s => s <| fetch_progress_tick := s.(tick) |>
                           <| http_bytes ::= fun h => wrap32 (h + Z.of_nat (length pay)) |>) w in
  if w.(net).(https_mode) then
    '(s, ok) ← tls_cipher_append pay w.(net);
    let w := upd (fun _ => s) w in
    Ret (if ok : bool then (w, true) else (upd (set_err E_TLS_RX_OVFL) w, false))
  else w ← lift_net (ingest_tcp_payload inflate brotli pay) w; Ret (w, true).

Definition tcp_data (our_mac sip pay : bytes) (seq : Z) (fin : bool) (w : World N) : rust (World N) :=
  '(w, ok) ← tcp_deliver pay w;
  if negb ok then Ret w
  else
    let ack_seq := wrap32 (seq + Z.of_nat (length pay)) in
    let ack_seq := if fin then wrap32 (ack_seq + 1) else ack_seq in
    w ← send_ack our_mac sip (upd (fun s => s <| tcp_ack := ack_seq |>) w);
    if fin then on_fin w else Ret w.

Definition has_flags (flg m : Z) : bool := Z.land flg m =? m.

Definition handle_tcp_rx (frame sip : bytes) (ihl : nat) (our_mac : bytes) (w : World N) : rust (World N) :=
  let tcp_off := (14 + ihl)%nat in
  if decide (length frame < tcp_off + 20)%nat then Ret w
  else
    sport ← rd16 frame tcp_off;
    dport ← rd16 frame (tcp_off + 2);
    if decide (dport <> LOCAL_PORT) then Ret w
    else if decide (sip <> w.(net).(remote_ip) \/ sport <> w.(net).(remote_port)) then Ret w
    else if negb w.(net).(fetch_armed) || negb w.(net).(dns_done) then Ret w
    else
      seq ← rd32 frame (tcp_off + 4);
      flg ← rd frame (tcp_off + 13);
      d ← rd frame (tcp_off + 12);
      let hlen := (Z.to_nat (Z.land (Z.shiftr d 4) 0x0f) * 4)%nat in
      if decide (length frame < tcp_off + hlen)%nat then Ret w
      else if negb (Z.land flg 0x04 =? 0) then Ret (upd (set_err E_TCP_RST) w)
      else
        let payload_off := (tcp_off + hlen)%nat in
        let payload_len := (length frame - payload_off)%nat in
        let fin := negb (Z.land flg 0x01 =? 0) in
        if has_flags flg 0x12 && negb w.(net).(get_sent) then tcp_connected our_mac sip seq w
        else if decide (0 < payload_len)%nat then
          pay ← sub frame payload_off (payload_off + payload_len);
          tcp_data our_mac sip pay seq fin w
        else if fin && w.(net).(get_sent) then
          w ← send_ack our_mac sip (upd (fun s => s <| tcp_ack := wrap32 (seq + 1) |>) w);
          on_fin w
        else Ret w.

(** The DHCP check: [Ret None] when the datagram is not for the DHCP client. *)
Definition dhcp_datagram (frame : bytes) (u0 : nat) (our_mac : bytes) (w : World N) : rust (option (World N)) :=
  if decide (length frame < u0 + 8)%nat then Ret None
  else
    sport ← rd16 frame u0;
    dport ← rd16 frame (u0 + 2);
    if bool_decide (sport = DHCP_SERVER_PORT /\ dport = DHCP_CLIENT_PORT) && dhcp_active w.(net) then
      ul ← rd16 frame (u0 + 4);
      let udp_len := Z.to_nat ul in
      if decide (8 <= udp_len /\ u0 + udp_len <= length frame)%nat then
        payload ← sub frame (u0 + 8) (u0 + udp_len);
        w ← handle_dhcp_reply payload our_mac w;
        Ret (Some w)
      else Ret (Some w)
    else Ret None.

Definition handle_rx (frame our_mac : bytes) (w : World N) : rust (World N) :=
  if decide (length frame < 14)%nat then Ret w
  else
    et ← rd16 frame 12;
    if decide (et = ETH_P_ARP) then lift_net (handle_arp frame) w
    else if decide (et <> ETH_P_IP \/ (length frame < 34)%nat) then Ret w
    else
      vi ← rd frame 14;
      if decide (Z.shiftr vi 4 <> 4) then Ret w
      else
        let ihl := (Z.to_nat (Z.land vi 0x0f) * 4)%nat in
        if decide (length frame < 14 + ihl)%nat then Ret w
        else
          dip ← sub frame 30 34;
          sip ← sub frame 26 30;
          proto ← rd frame 23;
          dh ← (if decide (proto = 17) then dhcp_datagram frame (14 + ihl) our_mac w else Ret None);
          match dh with
          | Some w => Ret w
          | None =>
              if decide (dip <> w.(net).(addrs).(our) /\ dip <> [255; 255; 255; 255]) then Ret w
              else if decide (proto = 17) then lift_net (handle_udp_rx frame sip ihl) w
              else if decide (proto = 6) then handle_tcp_rx frame sip ihl our_mac w
              else Ret w
          end.
End handlers.

(** ** A NIC in memory

    Frames sent are recorded; [mn_waiting] says what each poll finds, a frame or
    nothing: what the witnesses run on. *)
Record MemNic := { mn_sent : list bytes; mn_waiting : list (option bytes) }.

#[export] Instance MemNic_nic : Nic MemNic := {
  transmit d f := ({| mn_sent := d.(mn_sent) ++ [f]; mn_waiting := d.(mn_waiting) |}, true);
  poll_rx_packet d buf :=
    match d.(mn_waiting) with
    | [] => (d, None, buf)
    | None :: fs => ({| mn_sent := d.(mn_sent); mn_waiting := fs |}, None, buf)
    | Some f :: fs =>
        ({| mn_sent := d.(mn_sent); mn_waiting := fs |}, Some (length f),
         list_inserts 0 (take (length buf) f) buf)
    end;
}.

Definition quiet_nic : MemNic := {| mn_sent := []; mn_waiting := [] |}.
Definition boot_world : World MemNic :=
  {| net := static_initial log_new; nicd := quiet_nic; scratch := replicate 2048 0 |}.
