(* ===== verification/NetSafe.v ===== *)
(** * Safety of the receive path

    The invariant of [NetStack] (array lengths, cursors inside them, typed
    addresses), and that every operation keeps it and never panics. *)

From S2P Require Import Prelude Url Log Settings NetWire Http NetStack.

(** ** Steps of a handler *)

Section heads.
Context {A : Type} (P : A -> Prop).

Lemma returns_rd16 (s : bytes) i (k : Z -> rust A) :
  (i + 2 <= length s)%nat -> (forall v, returns P (k v)) -> returns P (rd16 s i ≫= k).
Proof. intros Hi Hk. destruct (rd16_ok s i Hi) as [v ->]. apply Hk. Qed.

Lemma returns_rd32 (s : bytes) i (k : Z -> rust A) :
  (i + 4 <= length s)%nat -> (forall v, returns P (k v)) -> returns P (rd32 s i ≫= k).
Proof. intros Hi Hk. unfold rd32. rewrite sub_ok, !bind_ret by lia. apply Hk. Qed.
End heads.

(** One step of a handler; early returns are left alone. *)
Ltac step := cbv zeta; lazymatch goal with
  | |- returns _ (rd16 _ _ ≫= _) => apply returns_rd16; [lia|intros ?]
  | |- returns _ (rd32 _ _ ≫= _) => apply returns_rd32; [lia|intros ?]
  | _ => rust_step
  end.
Ltac steps := repeat (step; try lazymatch goal with |- returns _ (Ret _) => done end).

(** ** Well-formed stacks *)

(** The array lengths of the struct and the cursors inside them; addresses x *)
Record net_inv (L : bool) (B : nat) (s : NetStack) : Prop := {
  nw_page : length s.(page) = PAGE_CAP;
  nw_page_len : (s.(page_len) <= PAGE_CAP)%nat;
  nw_err : length s.(fetch_err) = 80%nat;
  nw_stream : length s.(stream) = STREAM_CAP;
  nw_stream_len : (s.(stream_len) <= STREAM_CAP)%nat;
  nw_line : length s.(chunk_line) = CHUNK_LINE_CAP;
  nw_line_len : (s.(chunk_line_len) <= CHUNK_LINE_CAP)%nat;
  nw_layers : length s.(body_layers) = 4%nat;
  nw_layer_count : (s.(body_layer_count) <= 4)%nat;
  nw_path : length s.(req_path) = 160%nat;
  nw_path_len : (s.(req_path_len) <= 160)%nat;
  nw_host : length s.(host_hdr) = 96%nat;
  nw_host_len : (s.(host_hdr_len) <= 96)%nat;
  nw_sni : length s.(tls_server_name) = 96%nat;
  nw_sni_len : (s.(tls_server_name_len) <= 96)%nat;
  nw_dns_name : length s.(dns_name) = 96%nat;
  nw_dns_len : (s.(dns_name_len) <= 96)%nat;
  nw_cipher : length s.(tls_cipher_in) = TLS_CIPHER_RX_CAP;
  nw_cipher_len : (s.(tls_cipher_off) <= s.(tls_cipher_len) <= TLS_CIPHER_RX_CAP)%nat;
  nw_tx : length s.(tls_tx_buf) = TLS_TX_CAP;
  nw_tx_len : (s.(tls_tx_len) <= TLS_TX_CAP)%nat;
  nw_gw : length s.(gw_mac) = 6%nat;
  nw_our : length s.(addrs).(our) = 4%nat;
  nw_gwip : length s.(addrs).(gw) = 4%nat;
  nw_dnsip : length s.(addrs).(dns) = 4%nat;
  nw_remote : length s.(remote_ip) = 4%nat;
  nw_sid : length s.(dhcp_server_id) = 4%nat;
  nw_yi : length s.(dhcp_offer_yi) = 4%nat;
  nw_queue : (s.(tls_cipher_len) - s.(tls_cipher_off) <= B)%nat;
  nw_live : s.(tls_live) = L;
}.
Arguments nw_page {L B} s _.
Arguments nw_page_len {L B} s _.
Arguments nw_err {L B} s _.
Arguments nw_stream {L B} s _.
Arguments nw_stream_len {L B} s _.
Arguments nw_line {L B} s _.
Arguments nw_line_len {L B} s _.
Arguments nw_layers {L B} s _.
Arguments nw_layer_count {L B} s _.
Arguments nw_path {L B} s _.
Arguments nw_path_len {L B} s _.
Arguments nw_host {L B} s _.
Arguments nw_host_len {L B} s _.
Arguments nw_sni {L B} s _.
Arguments nw_sni_len {L B} s _.
Arguments nw_dns_name {L B} s _.
Arguments nw_dns_len {L B} s _.
Arguments nw_cipher {L B} s _.
Arguments nw_cipher_len {L B} s _.
Arguments nw_tx {L B} s _.
Arguments nw_tx_len {L B} s _.
Arguments nw_gw {L B} s _.
Arguments nw_our {L B} s _.
Arguments nw_gwip {L B} s _.
Arguments nw_dnsip {L B} s _.
Arguments nw_remote {L B} s _.
Arguments nw_sid {L B} s _.
Arguments nw_yi {L B} s _.
Arguments nw_queue {L B} s _.
Arguments nw_live {L B} s _.

Create HintDb netwf.
#[export] Hint Resolve nw_page nw_page_len nw_err nw_stream nw_stream_len nw_line nw_line_len nw_layers
  nw_layer_count nw_path nw_path_len nw_host nw_host_len nw_sni nw_sni_len nw_dns_name nw_dns_len
  nw_cipher nw_cipher_len nw_tx nw_tx_len nw_gw nw_our nw_gwip nw_dnsip nw_remote nw_sid nw_yi nw_queue nw_live : netwf.

#[local] Opaque PAGE_CAP STREAM_CAP CHUNK_LINE_CAP TLS_CIPHER_RX_CAP TLS_TX_CAP.

(** An update: each field is unchanged, or its new value is handled by [tac]. *)
Ltac wf_by tac :=
  split; cbn; rewrite ?length_inserts, ?length_replicate, ?length_insert;
  try (solve [eauto 2 with netwf nocore]); tac.
Ltac wf := wf_by ltac:(first [done | lia]).


(** ** Facts of the HTTP scanners *)

Lemma find_http_header_end_le buf pos sep :
  find_http_header_end buf = Some (pos, sep) -> (pos + sep <= length buf)%nat.
Proof.
  unfold find_http_header_end. destruct (find_sub [13; 10; 13; 10] buf) eqn:E1.
  { intros [= <- <-]. by apply find_sub_le in E1. }
  destruct (find_sub [10; 10] buf) eqn:E2; [|done]. intros [= <- <-]. by apply find_sub_le in E2.
Qed.

Definition layers_ok (r : option (list BodyLayer * nat)) : Prop :=
  forall layers count, r = Some (layers, count) -> length layers = 4%nat /\ (count <= 4)%nat.

Lemma push_coding_ok acc part : layers_ok acc -> layers_ok (push_coding acc part).
Proof.
  intros Ha. unfold push_coding. destruct acc as [[layers count]|]; [|by intros ??]. cbn [mbind option_bind].
  destruct (Ha layers count eq_refl) as [Hl Hc]. cbv zeta.
  assert (forall l, layers_ok (if decide (length layers <= count)%nat then None
    else Some (<[count:=l]> layers, S count))).
  { intros l. destruct (decide _); [by intros ??|]. intros ls c [= <- <-]. rewrite length_insert. lia. }
  destruct (decide (coding_token part = [])); [done|]. destruct (_ || _); [auto|]. destruct (token_bytes_ci_eq _ _); [auto|].
  destruct (token_bytes_ci_eq _ _); [auto|]. destruct (_ || _); [done|by intros ??].
Qed.

Lemma fold_left_ok {A B} (P : A -> Prop) (f : A -> B -> A) l a :
  (forall a b, P a -> P (f a b)) -> P a -> P (fold_left f l a).
Proof. intros Hf. revert a. induction l; cbn; auto. Qed.

Lemma parse_content_encoding_ok headers layers count :
  parse_content_encoding_layers headers = Some (layers, count) -> length layers = 4%nat /\ (count <= 4)%nat.
Proof.
  revert layers count. apply (fold_left_ok layers_ok).
  - intros a line Ha. unfold line_codings. destruct (trim_http_line_prefix _ _); [|done].
    by apply fold_left_ok; [apply push_coding_ok|].
  - intros layers count [= <- <-]. cbn. lia.
Qed.

(** ** Every operation keeps the invariant *)

Lemma net_inv_weaken L B B' s : net_inv L B s -> (B <= B')%nat -> net_inv L B' s.
Proof. intros [] ?. split; auto. lia. Qed.

(** The resets drop the TLS session and empty the queues. *)
Lemma static_initial_wf B l : net_inv false B (static_initial l).
Proof. wf_by ltac:(first [done | lia | by_decide]). Qed.

Lemma seed_wf mac L B s : net_inv L B s -> net_inv L B (seed_from_mac mac s).
Proof. intros. unfold seed_from_mac. wf. Qed.

Lemma clear_fetch_inner_wf L B B' s : net_inv L B s -> net_inv false B' (clear_fetch_inner s).
Proof. intros. unfold clear_fetch_inner. wf. Qed.

Lemma reset_demo_wf L B B' s : net_inv L B s -> net_inv false B' (reset_demo s).
Proof.
  intros Hs%(clear_fetch_inner_wf _ _ B'). unfold reset_demo.
  generalize dependent (clear_fetch_inner s). intros; wf.
Qed.

Lemma sync_ip_wf cfg tag L B s :
  settings_typed cfg -> net_inv L B s ->
  sync_ip_from_settings cfg tag s = s \/ net_inv false 0 (sync_ip_from_settings cfg tag s).
Proof.
  intros Hc Hs. unfold sync_ip_from_settings. destruct (decide _); [by left|right].
  apply (reset_demo_wf L B). destruct Hc.
  destruct (ip_config cfg); wf_by ltac:(first [done | lia | tauto]).
Qed.

Section queue.
Context {L : bool} {B : nat}.
#[local] Abbreviation net_wf := (net_inv L B).

Lemma bump_gen_wf s : net_wf s -> net_wf (bump_gen s).
Proof. intros. unfold bump_gen. wf. Qed.

Lemma set_err_wf msg s : net_wf s -> net_wf (set_err msg s).
Proof. intros. apply bump_gen_wf. wf. Qed.

Lemma fetch_complete_wf s : net_wf s -> net_wf (fetch_complete s).
Proof. intros. apply bump_gen_wf. wf. Qed.

Lemma reset_tcp_wf s : net_wf s -> net_wf (reset_tcp_for_new_fetch s).
Proof. intros. unfold reset_tcp_for_new_fetch. wf. Qed.

(** ** Decompression and completion *)

Section body.
Context (inflate : bool -> bytes -> inflate_result) (brotli : bytes -> option bytes).

(** The results of a method that may fail: a state, and whatever else. *)
Definition wf_fst {A} (p : NetStack * A) : Prop := net_wf p.1.

Lemma put_page_wf out msg s : net_wf s -> wf_fst (put_page out msg s).
Proof.
  intros Hs. unfold put_page, wf_fst. destruct (decide _) as [|Hn]; [done|].
  rewrite (nw_page s Hs) in Hn. wf.
Qed.

Lemma decompress_layer_wf l s : net_wf s -> returns wf_fst (decompress_layer inflate brotli l s).
Proof.
  intros Hs. pose proof (nw_page s Hs). pose proof (nw_page_len s Hs). destruct l; cbn [decompress_layer].
  - done.
  - unfold decompress_gzip_once. destruct (decide _); [done|]. no_panic.
    destruct (gzip_deflate_payload_total (slice (page s) 0 (page_len s))) as ([d|] & -> & _); [|done].
    rewrite bind_ret. destruct (inflate _ _); try done. by apply put_page_wf.
  - unfold decompress_zlib_once. no_panic. destruct (inflate _ _); try done. by apply put_page_wf.
  - unfold decompress_brotli_once. no_panic. destruct (brotli _); [by apply put_page_wf|done].
Qed.

Lemma decompress_body_layers_wf s :
  net_wf s -> returns wf_fst (decompress_body_layers inflate brotli s).
Proof.
  intros Hs. unfold decompress_body_layers. pose proof (nw_layers s Hs). pose proof (nw_layer_count s Hs).
  rewrite sub_ok, bind_ret by lia. generalize (rev (slice (body_layers s) 0 (body_layer_count s))) as ls.
  intros ls. clear -Hs. revert s Hs. induction ls as [|l ls IH]; intros s Hs; cbn [decompress_layers]; [done|].
  eapply returns_bind; [by apply decompress_layer_wf|]. intros [s' [msg|]] Hs'; [done|]. by apply IH.
Qed.

Lemma finish_fetch_wf s : net_wf s -> returns net_wf (finish_fetch inflate brotli s).
Proof.
  intros Hs. unfold finish_fetch. destruct (fetch_done s); [done|]. destruct (decide (0 < _)%nat).
  { eapply returns_bind; [by apply decompress_body_layers_wf|]. intros [s' [msg|]] Hs'; [|by apply fetch_complete_wf].
    unfold wf_fst in Hs'. cbn in Hs'. pose proof (nw_page s' Hs'). pose proof (nw_page_len s' Hs').
    no_panic. destruct (body_starts_like_html _); [|by apply set_err_wf]. apply fetch_complete_wf. wf. }
  destruct (decide _); [|by apply fetch_complete_wf].
  eapply returns_bind; [by apply (decompress_layer_wf Gzip)|].
  intros [s' [msg|]] Hs'; [by apply set_err_wf|by apply fetch_complete_wf].
Qed.

Lemma finish_plain_http_wf s : net_wf s -> returns net_wf (finish_plain_http_on_tcp_eof inflate brotli s).
Proof.
  intros. unfold finish_plain_http_on_tcp_eof. destruct (_ && _); [by apply set_err_wf|by apply finish_fetch_wf].
Qed.

(** ** Body bytes *)

Lemma page_push_byte_wf b s : net_wf s -> returns net_wf (page_push_byte b s).
Proof.
  intros Hs. unfold page_push_byte. pose proof (nw_page s Hs). pose proof (nw_page_len s Hs).
  destruct (decide _); [|cbn; wf]. no_panic. cbn. wf.
Qed.

Lemma page_push_bytes_wf l s : net_wf s -> returns net_wf (page_push_bytes l s).
Proof.
  revert s. induction l as [|b l IH]; intros s Hs; cbn [page_push_bytes]; [done|].
  eapply returns_bind; [by apply page_push_byte_wf|exact IH].
Qed.

Lemma append_to_page_wf data s : net_wf s -> returns net_wf (append_to_page inflate brotli data s).
Proof.
  intros Hs. unfold append_to_page. pose proof (nw_page s Hs). pose proof (nw_page_len s Hs). cbv zeta.
  eapply (returns_bind net_wf).
  { destruct (decide _); [|done]. no_panic. cbn. wf. }
  intros s1 Hs1. destruct (decide (_ < length data)%nat).
  all: cbn; destruct (http_body_remaining s1); [|cbn; wf]; destruct (decide _); [apply finish_fetch_wf; wf|cbn; wf].
Qed.

(** ** Chunked transfer *)

(** What a round with bytes to read leaves: less work, in a well-formed state. *)
Definition chunk_work (data : bytes) (s : NetStack) : nat :=
  (2 * length data + match s.(chunk_phase) with Data O => 1 | _ => 0 end)%nat.
Definition round_ok (work : nat) (r : chunk_ret) : Prop :=
  net_wf r.1.2 /\ (r.2 = true \/ chunk_work r.1.1 r.1.2 < work)%nat.

Lemma chunk_work_lt data s n : (length data < n)%nat -> (chunk_work data s < 2 * n)%nat.
Proof. unfold chunk_work. destruct (chunk_phase s) as [|[|]| |]; lia. Qed.

Lemma push_line_byte_wf b s : net_wf s -> returns net_wf (push_line_byte b s).
Proof.
  intros Hs. unfold push_line_byte. pose proof (nw_line s Hs).
  destruct (decide _); [|done]. no_panic. cbn. wf.
Qed.

Lemma size_line_loop_wf data s n :
  net_wf s -> (length data < n \/ data <> [] /\ length data <= n)%nat ->
  returns (round_ok (2 * n)) (size_line_loop data s).
Proof.
  revert s. induction data as [|b data IH]; intros s Hs Hn; cbn [size_line_loop].
  { split; [done|]. right. apply chunk_work_lt. cbn. destruct Hn as [|[]]; done. }
  cbn [length] in Hn. assert (length data < n)%nat by (destruct Hn as [|[]]; lia). destruct (decide (b = 10)).
  - pose proof (nw_line s Hs). pose proof (nw_line_len s Hs). rewrite sub_ok, bind_ret by lia.
    destruct (parse_chunk_size_line _); [|split; [by apply set_err_wf|by left]].
    split; [cbn; wf|]. right. apply chunk_work_lt. cbn. lia.
  - eapply returns_bind; [by apply push_line_byte_wf|]. intros s2 Hs2. apply IH; auto.
Qed.

Lemma trailers_loop_wf data s n :
  net_wf s -> (length data < n \/ data <> [] /\ length data <= n)%nat ->
  returns (round_ok (2 * n)) (trailers_loop inflate brotli data s).
Proof.
  revert s. induction data as [|b data IH]; intros s Hs Hn; cbn [trailers_loop].
  { split; [done|]. right. apply chunk_work_lt. cbn. destruct Hn as [|[]]; done. }
  cbn [length] in Hn. assert (length data < n)%nat by (destruct Hn as [|[]]; lia). destruct (decide (b = 10)).
  - destruct (decide _); [|apply IH; [wf|auto]].
    eapply returns_bind; [by apply finish_fetch_wf|]. intros s' Hs'. split; [done|by left].
  - eapply returns_bind; [by apply push_line_byte_wf|]. intros s2 Hs2. apply IH; auto.
Qed.

Lemma chunk_data_wf r data s :
  net_wf s -> data <> [] -> s.(chunk_phase) = Data r ->
  returns (round_ok (chunk_work data s)) (chunk_data r data s).
Proof.
  intros Hs Hd Hp. unfold chunk_data.
  assert (0 < length data)%nat by (destruct data; cbn; [done|lia]).
  eapply returns_bind; [by apply page_push_bytes_wf|]. intros s' Hs'. split; [cbn; wf|]. right.
  unfold chunk_work. cbn [fst snd]. rewrite Hp, length_drop. cbn.
  destruct r as [|r]; [rewrite decide_True by done; lia|].
  destruct (decide _); [lia|]. destruct (_ - _)%nat eqn:E; lia.
Qed.

Lemma after_data_wf step data s n :
  net_wf s -> data <> [] -> (length data <= n)%nat -> returns (round_ok (2 * n)) (after_data step data s).
Proof.
  intros Hs Hd Hn. destruct data as [|b data]; [done|]. cbn [length] in Hn. cbn [after_data].
  repeat destruct (decide _); (split; [first [done|by apply set_err_wf|cbn; wf]|]);
    first [by left|right; apply chunk_work_lt; cbn; lia].
Qed.

Lemma chunk_round_wf data s :
  net_wf s -> data <> [] ->
  returns (round_ok (chunk_work data s)) (chunk_round inflate brotli data s).
Proof.
  intros Hs Hd. unfold chunk_round. destruct (chunk_phase s) as [|r|st|] eqn:Hp.
  2: by apply chunk_data_wf.
  all: replace (chunk_work data s) with (2 * length data)%nat by (unfold chunk_work; rewrite Hp; lia).
  - apply size_line_loop_wf; auto.
  - by apply after_data_wf.
  - apply trailers_loop_wf; auto.
Qed.

Lemma chunk_loop_wf fuel data s :
  net_wf s -> (chunk_work data s < fuel)%nat -> returns net_wf (chunk_loop inflate brotli fuel data s).
Proof.
  revert data s. induction fuel as [|fuel IH]; intros data s Hs Hf; [lia|]. cbn [chunk_loop].
  destruct (decide (data = [])) as [|Hd]; [done|].
  eapply returns_bind; [by apply chunk_round_wf|]. intros [[data' s'] [|]] [Hs' Hw]; [done|].
  apply IH; [done|]. destruct Hw as [|Hw]; [done|]. cbn [fst snd] in Hw. lia.
Qed.

Lemma ingest_chunked_wf data s : net_wf s -> returns net_wf (ingest_chunked_bytes inflate brotli data s).
Proof.
  intros Hs. apply chunk_loop_wf; [done|]. pose proof (chunk_work_lt data s (S (length data))). lia.
Qed.

Lemma ingest_pieces_wf fuel off last s :
  net_wf s -> (last <= STREAM_CAP)%nat -> (last - off < fuel)%nat ->
  returns net_wf (ingest_pieces inflate brotli fuel off last s).
Proof.
  revert off s. induction fuel as [|fuel IH]; intros off s Hs Hl Hf; [lia|]. cbn [ingest_pieces].
  destruct (decide (off < last)%nat); [|done]. cbv zeta. pose proof (nw_stream s Hs).
  rewrite sub_ok, bind_ret by lia.
  eapply returns_bind; [by apply ingest_chunked_wf|]. intros s' Hs'. apply IH; [done|done|lia].
Qed.

(** ** The head *)

Lemma ingest_head_wf e s :
  net_wf s -> (e <= s.(stream_len))%nat -> returns net_wf (ingest_head inflate brotli e s).
Proof.
  intros Hs He. unfold ingest_head. cbv zeta.
  assert (net_wf (s <| header_found := true |>)) as Hs1 by wf. revert He.
  change (stream_len s) with (stream_len (s <| header_found := true |>)).
  generalize dependent (s <| header_found := true |>). clear s Hs. intros s Hs He.
  pose proof (nw_stream s Hs) as Hst. pose proof (nw_stream_len s Hs) as Hsl.
  rewrite sub_ok, bind_ret by lia. destruct (response_headers_chunked _).
  { eapply (returns_bind net_wf).
    - apply ingest_pieces_wf; [wf|done|]. clear. lia.
    - intros s1 Hs1. apply bump_gen_wf. wf. }
  destruct (parse_content_encoding_layers _) as [[layers count]|] eqn:E; [|by apply set_err_wf].
  apply parse_content_encoding_ok in E as [Hl Hc].
  match goal with |- context [sub (stream ?t)] =>
    assert (net_wf t) as Hs1 by wf; change (stream t) with (stream s); generalize dependent t end.
  intros s1 Hs1. rewrite sub_ok, bind_ret by lia.
  eapply (returns_bind net_wf); [by apply page_push_bytes_wf|]. intros s2 Hs2.
  eapply (returns_bind net_wf); [destruct (decide _); [by apply finish_fetch_wf|done]|].
  intros s3 Hs3. apply bump_gen_wf. wf.
Qed.

Lemma ingest_tcp_payload_wf data s : net_wf s -> returns net_wf (ingest_tcp_payload inflate brotli data s).
Proof.
  intros Hs. unfold ingest_tcp_payload. pose proof (nw_stream s Hs). pose proof (nw_stream_len s Hs).
  destruct (header_found s); cbn [negb].
  { destruct (http_chunked s); [by apply ingest_chunked_wf|by apply append_to_page_wf]. }
  cbv zeta. rewrite copy_at_ok, bind_ret by (rewrite length_take; lia).
  set (s1 := over stream_len _ _). assert (net_wf s1) as Hs1 by (unfold s1; wf). clearbody s1.
  pose proof (nw_stream s1 Hs1). pose proof (nw_stream_len s1 Hs1).
  rewrite sub_ok, bind_ret by lia. destruct (decide _); [by apply set_err_wf|].
  destruct (find_http_header_end _) as [[pos sep]|] eqn:E; [|done].
  apply find_http_header_end_le in E. rewrite length_slice in E by lia.
  apply ingest_head_wf; [done|lia].
Qed.
End body.

(** ** The TLS queues *)

Lemma tls_cipher_compact_wf s : net_wf s -> returns net_wf (tls_cipher_compact s).
Proof.
  intros Hs. unfold tls_cipher_compact. pose proof (nw_cipher s Hs). pose proof (nw_cipher_len s Hs). pose proof (nw_queue s Hs).
  destruct (decide _); [done|]. cbv zeta. destruct (decide _); no_panic.
  - rewrite copy_at_ok, bind_ret by (rewrite length_slice; lia). cbn. wf.
  - cbn. wf.
Qed.

Lemma tls_cipher_tx_append_wf data s :
  net_wf s -> returns (fun r => net_wf r.1) (tls_cipher_tx_append data s).
Proof.
  intros Hs. unfold tls_cipher_tx_append. pose proof (nw_tx s Hs). pose proof (nw_tx_len s Hs).
  destruct (decide _); [done|]. no_panic. cbn. wf.
Qed.

End queue.

(** What is popped leaves the queue. *)
Lemma tls_cipher_pop_inv L B cap s :
  net_inv L B s ->
  returns (fun r => (length r.2 <= cap)%nat /\ (length r.2 <= B)%nat /\ net_inv L (B - length r.2) r.1)
    (tls_cipher_pop cap s).
Proof.
  intros Hs. unfold tls_cipher_pop. pose proof (nw_cipher s Hs). pose proof (nw_cipher_len s Hs).
  pose proof (nw_queue s Hs). cbv zeta. destruct (decide _).
  { cbn. split_and!; [lia|lia|]. eapply net_inv_weaken; [done|lia]. }
  rewrite sub_ok, bind_ret by lia.
  match goal with |- context [slice ?q ?a ?b] =>
    pose proof (length_slice q a b ltac:(lia)) as Hl; generalize dependent (slice q a b) end. intros d Hl.
  assert (length d = Nat.min (tls_cipher_len s - tls_cipher_off s) cap) as Hd by lia. clear Hl.
  assert (forall s', (s'.(tls_cipher_off) <= s'.(tls_cipher_len) <= TLS_CIPHER_RX_CAP)%nat ->
    (s'.(tls_cipher_len) - s'.(tls_cipher_off) <= B - length d)%nat ->
    s <| tls_cipher_off := s'.(tls_cipher_off) |> <| tls_cipher_len := s'.(tls_cipher_len) |> = s' ->
    net_inv L (B - length d) s') as Hpop.
  { intros s' ?? <-. destruct Hs. split; done. }
  destruct (decide _) as [E|E]; cbn in E; [|destruct (decide _)].
  - cbn [returns fst snd]. split_and!; [lia|lia|]. apply Hpop; cbn; lia || reflexivity.
  - eapply (returns_bind (net_inv L (B - length d))).
    + apply tls_cipher_compact_wf, Hpop; cbn; lia || (by destruct s).
    + intros s2 Hs2. cbn [returns fst snd]. split_and!; [lia|lia|done].
  - cbn [returns fst snd]. split_and!; [lia|lia|]. apply Hpop; cbn; lia || (by destruct s).
Qed.

Lemma tls_cipher_append_inv L B data s :
  net_inv L B s -> returns (fun r => net_inv L (B + length data) r.1) (tls_cipher_append data s).
Proof.
  intros Hs. unfold tls_cipher_append. eapply (returns_bind (net_inv L B)).
  { destruct (decide _); [by apply tls_cipher_compact_wf|done]. }
  intros s1 Hs1. pose proof (nw_cipher s1 Hs1). pose proof (nw_cipher_len s1 Hs1). pose proof (nw_queue s1 Hs1).
  destruct (decide _); [apply (net_inv_weaken L B); [done|lia]|]. no_panic.
  apply (net_inv_weaken L B (B + length data)) in Hs1; [|lia]. cbn. wf.
Qed.

(** ** The builders return

    With addresses of their size a builder writes inside its buffer, or finds it
    too small and returns 0. *)

Definition fits (n : nat) (w : nat * bytes) : Prop := (w.1 + length w.2 <= n)%nat.

Lemma writes_total ws out :
  Forall (fits (length out)) ws -> returns (fun o => length o = length out) (writes ws out).
Proof.
  revert out. induction ws as [|[off src] ws IH]; intros out H; [done|]. cbn [writes].
  apply Forall_cons in H as [H1 H2]. unfold fits in H1. cbn [fst snd] in H1.
  rewrite copy_at_ok, bind_ret by done.
  specialize (IH (list_inserts off src out)). rewrite length_inserts in IH. auto.
Qed.

Lemma put_checksum_total lo hi pos init out :
  (lo <= hi <= length out)%nat -> (pos + 2 <= length out)%nat ->
  returns (fun o => length o = length out) (put_checksum lo hi pos init out).
Proof.
  intros. unfold put_checksum. no_panic.
  apply length_inserts.
Qed.

Definition frame_ok (r : bytes * nat) : Prop := (r.2 <= length r.1)%nat.
Definition builds (f : bytes -> rust (bytes * nat)) : Prop := forall out, returns frame_ok (f out).

(** A list of writes inside [n], by arithmetic. *)
Ltac all_fit := repeat (apply Forall_cons; split); try apply Forall_nil; unfold fits; cbn [fst snd];
  rewrite ?length_to_be; cbn [length]; try lia.

Lemma header_writes_fit n dst src len ident proto sip dip :
  (46 <= n)%nat -> length dst = 6%nat -> length src = 6%nat -> length sip = 4%nat -> length dip = 4%nat ->
  Forall (fits n) (eth_writes dst src ETH_P_IP ++ ip_writes 26 len ident proto sip dip).
Proof.
  intros. unfold eth_writes, ip_writes, VIRTIO_NET_HDR. cbn [app].
  all_fit; rewrite ?length_replicate; lia.
Qed.

Lemma build_tcp_total our_mac gw_mac src dst sport dport seq ack flags window payload ident :
  length our_mac = 6%nat -> length gw_mac = 6%nat -> length src = 4%nat -> length dst = 4%nat ->
  builds (build_tcp our_mac gw_mac src dst sport dport seq ack flags window payload ident).
Proof.
  intros Ho Hg Hs Hd out. unfold build_tcp. cbv zeta. destruct (decide _) as [|Hn]; [cbn; unfold frame_ok; cbn; lia|].
  unfold VIRTIO_NET_HDR in *.
  eapply returns_bind; [apply writes_total, header_writes_fit; done || lia|]. intros o1 H1. cbn beta in H1.
  eapply returns_bind; [apply put_checksum_total; lia|]. intros o2 H2. cbn beta in H2.
  eapply returns_bind; [apply writes_total; all_fit|]. intros o3 H3. cbn beta in H3.
  eapply returns_bind; [apply put_checksum_total; lia|]. intros o4 H4. cbn beta in H4.
  cbn. unfold frame_ok. cbn [fst snd]. lia.
Qed.

Lemma build_udp_total dst_mac our_mac src dst sport dport ident payload :
  length dst_mac = 6%nat -> length our_mac = 6%nat -> length src = 4%nat -> length dst = 4%nat ->
  builds (build_udp dst_mac our_mac src dst sport dport ident payload).
Proof.
  intros Ho Hg Hs Hd out. unfold build_udp. cbv zeta. destruct (decide _) as [|Hn]; [cbn; unfold frame_ok; cbn; lia|].
  unfold VIRTIO_NET_HDR in *.
  eapply returns_bind; [apply writes_total, header_writes_fit; done || lia|]. intros o1 H1. cbn beta in H1.
  eapply returns_bind; [apply put_checksum_total; lia|]. intros o2 H2. cbn beta in H2.
  eapply returns_bind; [apply writes_total; all_fit|]. intros o3 H3. cbn beta in H3.
  eapply returns_bind; [apply put_checksum_total; lia|]. intros o4 H4. cbn beta in H4.
  cbn. unfold frame_ok. cbn [fst snd]. lia.
Qed.

(** An options writer stops inside the buffer. *)
Definition opt_ok (st : option (bytes * nat)) : Prop :=
  match st with Some (bp, o) => length bp = Z.to_nat 576 /\ (o <= length bp)%nat | None => True end.

Lemma dhcp_push_opt_total buf pos tag data :
  length buf = Z.to_nat 576 -> returns opt_ok (dhcp_push_opt buf pos tag data).
Proof.
  intros Hb. unfold dhcp_push_opt. destruct (decide _); [done|]. no_panic. cbn [returns opt_ok].
  rewrite !length_inserts, !length_insert. lia.
Qed.

Lemma push_opt_if_total o tag st : opt_ok st -> returns opt_ok (push_opt_if o tag st).
Proof.
  intros Hst. unfold push_opt_if. destruct st as [[bp pos]|]; [|done]. destruct o; [|done].
  apply dhcp_push_opt_total, Hst.
Qed.

Lemma dhcp_message_total xid mac msg sid req : returns opt_ok (dhcp_message xid mac msg sid req).
Proof.
  unfold dhcp_message. eapply returns_bind.
  { apply writes_total. rewrite length_replicate. all_fit; [rewrite length_take; lia|cbn; lia]. }
  intros bp Hbp. cbn beta in Hbp. rewrite length_replicate in Hbp.
  eapply returns_bind; [by apply dhcp_push_opt_total|]. intros st1 H1.
  eapply returns_bind; [by apply push_opt_if_total|]. intros st2 H2.
  eapply returns_bind; [by apply push_opt_if_total|]. intros [[b o]|] H3; [|done].
  destruct H3 as [Hl Ho]. destruct (decide _) as [|Hn]; [done|]. no_panic. cbn [returns opt_ok].
  rewrite length_insert. lia.
Qed.

Lemma build_dhcp_packet_total our_mac src xid mac msg sid req :
  length our_mac = 6%nat -> length src.(our) = 4%nat ->
  builds (build_dhcp_packet our_mac src xid mac msg sid req).
Proof.
  intros Hm Ha out. unfold build_dhcp_packet. eapply returns_bind; [apply dhcp_message_total|].
  intros [[bp n]|] H; [|cbn; unfold frame_ok; cbn; lia]. destruct H as [_ H].
  rewrite sub_ok, bind_ret by lia. by apply build_udp_total.
Qed.

Lemma build_arp_total our_mac a :
  length our_mac = 6%nat -> length a.(our) = 4%nat -> length a.(gw) = 4%nat ->
  builds (build_arp_request our_mac a).
Proof.
  intros Hm Ho Hg out. unfold build_arp_request. cbv zeta. destruct (decide _) as [|Hn]; [cbn; unfold frame_ok; cbn; lia|].
  unfold VIRTIO_NET_HDR in *. eapply returns_bind.
  - apply writes_total. unfold eth_writes, VIRTIO_NET_HDR. cbn [app]. all_fit; rewrite ?length_replicate; lia.
  - intros o1 H1. cbn beta in H1. cbn. unfold frame_ok. cbn [fst snd]. lia.
Qed.

(** ** The DHCP option parser *)

Definition opts_ok (o : dhcp_opts) : Prop :=
  (forall d, o.(do_sid) = Some d -> length d = 4%nat) /\
  (forall d, o.(do_router) = Some d -> length d = 4%nat) /\
  (forall d, o.(do_dns) = Some d -> length d = 4%nat).

Lemma dhcp_option_total bootp tag ln v0 o :
  (v0 + ln <= length bootp)%nat -> opts_ok o -> returns opts_ok (dhcp_option bootp tag ln v0 o).
Proof.
  intros Hl (H1 & H2 & H3). unfold dhcp_option.
  steps; cbn [returns]; split_and!; cbn; try done; intros d [= <-]; lia.
Qed.

Lemma dhcp_options_total fuel bootp i o :
  (length bootp - i < fuel)%nat -> opts_ok o -> returns opts_ok (dhcp_options fuel bootp i o).
Proof.
  revert i o. induction fuel as [|fuel IH]; intros i o Hf Ho; [lia|]. cbn [dhcp_options].
  do 3 (step; try done). step; [apply IH; [lia|done]|]. steps.
  eapply returns_bind; [apply dhcp_option_total; [lia|done]|]. intros o' Ho'. apply IH; [lia|done].
Qed.

Definition reply_ok (bootp : bytes) (r : option dhcp_opts) : Prop :=
  match r with Some o => opts_ok o /\ (240 <= length bootp)%nat | None => True end.

Lemma opts_none_ok : opts_ok dhcp_opts_none.
Proof. by split_and!. Qed.

Lemma dhcp_parse_total bootp our_mac xid : returns (reply_ok bootp) (dhcp_parse bootp our_mac xid).
Proof.
  unfold dhcp_parse. steps; [|split; [apply opts_none_ok|lia]].
  eapply returns_bind; [apply dhcp_options_total; [|apply opts_none_ok]; lia|].
  intros o Ho. split; [done|lia].
Qed.

Lemma build_dns_total our_mac gw_mac a sport dport host tx_id ident :
  length our_mac = 6%nat -> length gw_mac = 6%nat -> length a.(our) = 4%nat -> length a.(dns) = 4%nat ->
  (length host <= 200)%nat -> builds (build_dns_udp_packet our_mac gw_mac a sport dport host tx_id ident).
Proof.
  intros Hm Hg Ho Hd Hh out. unfold build_dns_udp_packet. destruct (dns_query_total host tx_id Hh) as (r & -> & Hr).
  rewrite bind_ret. destruct r as [[d dp]|]; [|cbn; unfold frame_ok; cbn; lia].
  rewrite sub_ok, bind_ret by lia. by apply build_udp_total.
Qed.

Lemma build_http_get_total pth hst out :
  returns (fun r => match r with Some (pay, n) => (n <= length pay)%nat | None => True end)
    (build_http_get pth hst out).
Proof.
  unfold build_http_get. cbv zeta. destruct (decide _) as [|Hn]; [done|].
  repeat (rewrite copy_at_ok, bind_ret by (rewrite ?length_inserts; lia)). cbn [returns].
  rewrite !length_inserts. lia.
Qed.

(** ** The handlers *)

(** Sending returns, and does not touch the stack. *)
Lemma send_net {N} `{Nic N} b (w : World N) : builds b -> returns (fun r => r.1.(net) = w.(net)) (send b w).
Proof.
  intros Hb. unfold send. eapply returns_bind; [apply Hb|]. intros [out n] Hn.
  unfold frame_ok in Hn. cbn [fst snd] in Hn. destruct (decide _); [|done].
  rewrite sub_ok, bind_ret by lia. by destruct (transmit _ _).
Qed.

(** An update of the stack that keeps the invariant field by field. *)
Ltac upd_by tac := cbn [returns];
  lazymatch goal with |- ?P (upd ?f ?w) =>
    cut (P w); [let H := fresh in intros [H ?]; split; [cbn; wf_by tac|done]|try done] end.
Ltac upd := upd_by ltac:(first [done | lia]).

Section handlers.
Context (inflate : bool -> bytes -> inflate_result) (brotli : bytes -> option bytes).
Context {N : Type} `{Nic N} (our_mac : bytes) (Hmac : length our_mac = 6%nat).
(** A property of the NIC that sending keeps. *)
Context (G : N -> Prop) (HG : forall d f, G d -> G (transmit d f).1).
Implicit Types (w : World N).

Record world_inv (L : bool) (B : nat) w : Prop := {
  wi_net : net_inv L B w.(net);
  wi_nic : G w.(nicd);
}.

Section fixed.
Context {L : bool} {B : nat}.
#[local] Abbreviation net_wf := (net_inv L B).
#[local] Abbreviation world_wf := (world_inv L B).

Lemma upd_wf f w : world_wf w -> net_wf (f w.(net)) -> world_wf (upd f w).
Proof. by intros [_ ?] ?. Qed.

Lemma lift_net_wf f w : world_wf w -> returns net_wf (f w.(net)) -> returns world_wf (lift_net f w).
Proof. intros [_ ?] ?. unfold lift_net. eapply returns_bind; [done|]. by intros s Hs. Qed.

(** Sending a frame does not touch the stack. *)
Lemma send_wf b w :
  world_wf w -> builds b -> returns (fun r => world_wf r.1 /\ r.1.(net) = w.(net)) (send b w).
Proof.
  clear our_mac Hmac. intros [Hn Hd] Hb. unfold send. eapply returns_bind; [apply Hb|]. intros [out n] Ho.
  unfold frame_ok in Ho. cbn [fst snd] in Ho. destruct (decide _); [|done].
  rewrite sub_ok, bind_ret by lia. specialize (HG (nicd w) (slice out 0 n) Hd). by destruct (transmit _ _).
Qed.

Lemma send_ack_wf sip w : world_wf w -> length sip = 4%nat -> returns world_wf (send_ack our_mac sip w).
Proof.
  intros Hw Hs. unfold send_ack, build_tcp_ack_only. cbv zeta. pose proof (wi_net _ _ _ Hw). eapply returns_bind.
  { apply send_wf; [done|]. apply build_tcp_total; eauto with netwf. }
  intros [w' ok] [Hw' _]. by upd.
Qed.

Lemma dhcp_send_request_wf w : world_wf w -> returns world_wf (dhcp_send_request our_mac w).
Proof.
  intros Hw. unfold dhcp_send_request. eapply returns_bind; [by apply send_wf, build_dhcp_packet_total|].
  by intros [w' ok] [Hw' _].
Qed.

Lemma dhcp_send_discover_wf w : world_wf w -> returns world_wf (dhcp_send_discover our_mac w).
Proof.
  intros Hw. unfold dhcp_send_discover. eapply returns_bind; [by apply send_wf, build_dhcp_packet_total|].
  by intros [w' ok] [Hw' _].
Qed.

Lemma handle_dhcp_reply_wf bootp w : world_wf w -> returns world_wf (handle_dhcp_reply bootp our_mac w).
Proof.
  intros Hw. unfold handle_dhcp_reply. eapply returns_bind; [apply dhcp_parse_total|].
  intros [o|] Ho; [|done]. destruct Ho as [(Hs & Hr & Hd) Hl]. step.
  destruct (dhcp_phase _); [done| | |done]; steps.
  - destruct (do_sid o) as [sid|] eqn:Esid; [|done].
    apply dhcp_send_request_wf. upd_by ltac:(first [by apply Hs|done]).
  - assert (length (lease (slice bootp 16 20) (slice bootp 20 24) o).(gw) = 4%nat) as Hg.
    { unfold lease. cbn. destruct (decide _); [done|]. destruct (do_router o); cbn; auto. }
    assert (length (lease (slice bootp 16 20) (slice bootp 20 24) o).(dns) = 4%nat) as Hdns.
    { unfold lease in *. cbn in *. destruct (do_dns o); cbn; auto. }
    cbn [returns]. unfold dhcp_bind. upd_by ltac:(first [done|exact Hg|exact Hdns]).
Qed.


Lemma handle_arp_wf frame s : net_wf s -> returns net_wf (handle_arp frame s).
Proof. intros Hs. unfold handle_arp. steps. cbn. wf. Qed.

Lemma handle_udp_rx_wf frame sip ihl s : net_wf s -> returns net_wf (handle_udp_rx frame sip ihl s).
Proof.
  intros Hs. unfold handle_udp_rx. destruct (_ || _); [done|]. steps.
  destruct (parse_dns_a_total (slice frame (14 + ihl + 8) (14 + ihl + Z.to_nat v0)) (dns_tx_id s))
    as (r & E & Hr).
  rewrite E, bind_ret. destruct r; [|done]. cbn. wf.
Qed.

Lemma tcp_connected_wf sip seq w :
  world_wf w -> length sip = 4%nat -> returns world_wf (tcp_connected our_mac sip seq w).
Proof.
  intros Hw Hs. unfold tcp_connected. cbv zeta.
  match goal with |- context [upd ?f w] => assert (world_wf (upd f w)) as Hw1
    by upd; generalize dependent (upd f w) end.
  intros w1 Hw1. pose proof (wi_net _ _ _ Hw1) as Hn1. destruct (https_mode _).
  { eapply returns_bind; [by apply send_ack_wf|]. intros w2 Hw2. cbn [returns].
    destruct (tls_handshake_done _); [done|]. by upd. }
  pose proof (nw_path _ Hn1). pose proof (nw_path_len _ Hn1).
  pose proof (nw_host _ Hn1). pose proof (nw_host_len _ Hn1). steps.
  eapply returns_bind; [apply build_http_get_total|].
  intros [[pay n]|] Hp; [|by apply upd_wf, set_err_wf]. steps.
  unfold build_tcp_ack_psh. eapply returns_bind; [apply send_wf; [done|]; apply build_tcp_total; eauto with netwf|].
  intros [w2 ok] [Hw2 _]. cbn [fst] in Hw2. cbv zeta.
  match goal with |- context [upd ?f w2] => assert (world_wf (upd f w2)) as Hw3 by upd; generalize dependent (upd f w2) end.
  intros w3 Hw3. destruct ok; [by upd|done].
Qed.

Lemma on_fin_wf w : world_wf w -> returns world_wf (on_fin inflate brotli w).
Proof.
  intros Hw. unfold on_fin. destruct (https_mode _); [by upd|].
  by apply lift_net_wf, finish_plain_http_wf, wi_net.
Qed.

Lemma dhcp_datagram_wf frame u0 w :
  world_wf w -> returns (from_option world_wf True) (dhcp_datagram frame u0 our_mac w).
Proof.
  intros Hw. unfold dhcp_datagram. steps. destruct (_ && _); [|done]. step. step; [|done]. step.
  eapply returns_bind; [by apply handle_dhcp_reply_wf|]. by intros w1 Hw1.
Qed.

End fixed.

Lemma world_inv_weaken L B B' w : world_inv L B w -> (B <= B')%nat -> world_inv L B' w.
Proof. intros [] ?. split; [by eapply net_inv_weaken|done]. Qed.

Lemma tcp_data_inv L B sip pay seq fin w :
  world_inv L B w -> length sip = 4%nat ->
  returns (world_inv L (B + length pay)) (tcp_data inflate brotli our_mac sip pay seq fin w).
Proof.
  intros Hw Hs. unfold tcp_data. eapply (returns_bind (fun r => world_inv L (B + length pay) r.1)).
  { unfold tcp_deliver. cbv zeta.
    match goal with |- context [upd ?f w] => assert (world_inv L B (upd f w)) as Hw1
      by upd; generalize dependent (upd f w) end.
    intros w1 Hw1. destruct (https_mode _).
    - eapply returns_bind; [by apply tls_cipher_append_inv, wi_net|]. destruct Hw1 as [_ Hd].
      intros [s1 [|]] Hs1; [done|]. split; [by apply set_err_wf|done].
    - apply (world_inv_weaken L B (B + length pay)) in Hw1; [|lia].
      eapply (returns_bind (world_inv L (B + length pay))); [by apply lift_net_wf, ingest_tcp_payload_wf, wi_net|]. by intros w2 Hw2. }
  intros [w1 [|]] Hw1; [|done]. cbv zeta. cbn [negb]. cbn [fst] in Hw1.
  eapply (returns_bind (world_inv L (B + length pay)));
    [apply send_ack_wf; [|done]; by upd|].
  intros w2 Hw2. destruct fin; [by apply on_fin_wf|done].
Qed.

Lemma handle_tcp_rx_inv L B frame sip ihl w :
  world_inv L B w -> length sip = 4%nat ->
  returns (world_inv L (B + length frame)) (handle_tcp_rx inflate brotli frame sip ihl our_mac w).
Proof.
  intros Hw0 Hs. assert (world_inv L (B + length frame) w) as Hw by (apply (world_inv_weaken L B); [done|lia]).
  unfold handle_tcp_rx. steps. destruct (_ || _); [done|]. steps.
  destruct (negb _); [by apply upd_wf, set_err_wf, wi_net|]. destruct (_ && _); [by apply tcp_connected_wf|].
  steps.
  - eapply returns_weaken; [by apply (tcp_data_inv L B)|]. intros w1 Hw1. eapply world_inv_weaken; [exact Hw1|lia].
  - destruct (_ && _); [|done].
    eapply (returns_bind (world_inv L (B + length frame)));
      [apply send_ack_wf; [|done]; by upd|]. apply on_fin_wf.
Qed.

Lemma handle_rx_inv L B frame w :
  world_inv L B w -> returns (world_inv L (B + length frame)) (handle_rx inflate brotli frame our_mac w).
Proof.
  intros Hw0. assert (world_inv L (B + length frame) w) as Hw by (apply (world_inv_weaken L B); [done|lia]).
  unfold handle_rx. steps; [by apply lift_net_wf, handle_arp_wf, wi_net|]. steps.
  eapply returns_bind.
  { instantiate (1 := from_option (world_inv L (B + length frame)) True). step; [|done]. by apply dhcp_datagram_wf. }
  intros [w1|] Hw1; [done|]. steps.
  - by apply lift_net_wf, handle_udp_rx_wf, wi_net.
  - apply handle_tcp_rx_inv; [done|]. lia.
Qed.
End handlers.

(** ** Starting a fetch *)

Lemma copy_prefix_total dst src n :
  (n <= length src)%nat -> (n <= length dst)%nat ->
  returns (fun d => length d = length dst) (copy_prefix dst src n).
Proof.
  intros Hs Hd. unfold copy_prefix. rewrite sub_ok, bind_ret by lia.
  rewrite copy_at_ok by (rewrite length_slice; lia). apply length_inserts.
Qed.

Lemma fetch_resolve_inv L B u s :
  net_inv L B s -> length u.(ip) = 4%nat -> length u.(host_for_dns) = 96%nat -> (u.(host_for_dns_len) <= 96)%nat ->
  returns (net_inv L B) (fetch_resolve u s).
Proof.
  intros Hs Hip Hh Hl. unfold fetch_resolve. pose proof (nw_dns_name s Hs).
  destruct (needs_dns u); [|cbn [returns]; wf].
  eapply returns_bind; [apply copy_prefix_total; lia|]. intros dn Hdn. cbn [returns]. cbn beta in Hdn. wf.
Qed.

Lemma start_fetch_inv url L B B' s : net_inv L B s -> returns (net_inv false B') (start_fetch url s).
Proof.
  intros Hs%(clear_fetch_inner_wf _ _ B'). unfold start_fetch. cbv zeta.
  generalize dependent (clear_fetch_inner s). clear s. intros s Hs.
  destruct (parse_fetch_url_result url) as (r & tls & -> & Hr). rewrite bind_ret.
  destruct r as [u|]; [|by apply set_err_wf]. destruct Hr as (prt & host & src & Hu & _).
  pose proof (url_ip_length _ _ _ _ _ Hu) as Hip.
  destruct (ui_arrays _ _ _ _ _ Hu) as (Ha & Hb & Hc).
  destruct (ui_lens _ _ _ _ _ Hu) as (Hl1 & Hl2 & Hl3). clear Hu.
  pose proof (nw_sni s Hs) as Hsni. pose proof (nw_host s Hs) as Hho. pose proof (nw_path s Hs) as Hpt.
  rewrite sub_ok, bind_ret by lia.
  eapply returns_bind; [apply copy_prefix_total; cbn; lia|]. intros sn Hsn.
  eapply returns_bind; [apply copy_prefix_total; cbn; lia|]. intros hh Hhh.
  eapply returns_bind; [apply copy_prefix_total; cbn; lia|]. intros pa Hpa. cbn in Hsn, Hhh, Hpa.
  rewrite ?Hsni, ?Hho, ?Hpt in *.
  eapply (returns_bind (net_inv false B')).
  - apply fetch_resolve_inv; [wf|lia..].
  - intros s2 Hs2%reset_tcp_wf. generalize dependent (reset_tcp_for_new_fetch s2). intros. apply bump_gen_wf. wf.
Qed.

(** ** Safety of frame reception *)

Definition net_wf (s : NetStack) : Prop := net_inv s.(tls_live) TLS_CIPHER_RX_CAP s.

(** The queue cannot hold more than its array. *)
Lemma net_inv_wf L B s : net_inv L B s -> net_wf s.
Proof. intros []. split; auto. lia. Qed.

(** C1: no frame can crash the kernel: whatever bytes arrive, in whatever
    well-formed state the stack is - ARP, DHCP, DNS and TCP handling, HTTP header
    and chunk parsing, decompression with any decompressor, and the replies that
    are sent included - [handle_rx] returns (no index, slice or copy is out of
    range and no loop hangs) and leaves the stack well formed. *)
Theorem handle_rx_safe inflate brotli {N} `{Nic N} our_mac frame (w : World N) :
  length our_mac = 6%nat -> net_wf w.(net) ->
  exists w', handle_rx inflate brotli frame our_mac w = Ret w' /\ net_wf w'.(net).
Proof.
  intros Hm Hw. apply returns_ex. eapply returns_weaken;
    [by apply (handle_rx_inv _ _ _ Hm (fun _ => True))|].
  intros w' [Hw' _]. by eapply net_inv_wf.
Qed.

Definition no_inflate : bool -> bytes -> inflate_result := fun _ _ => InflateErr.
Definition no_brotli : bytes -> option bytes := fun _ => None.

Lemma handle_rx_safe_witness :
  let mac := [2; 0; 0; 0; 0; 1] in
  let frame := replicate 12 0 ++ [8; 0; 0x45; 1; 2; 3] in
  net_wf boot_world.(net) /\
  exists w', handle_rx no_inflate no_brotli frame mac boot_world = Ret w' /\ net_wf w'.(net).
Proof.
  intros mac frame. assert (net_wf boot_world.(net)) as Hw by apply static_initial_wf.
  split; [exact Hw|]. apply (handle_rx_safe no_inflate no_brotli mac frame boot_world); [reflexivity|exact Hw].
Defined.
