(* ===== verification/Ui.v ===== *)
(** * The state of the user interface ([kernel/src/gfx.rs])

    [UiState] and what changes it short of drawing: the history of addresses,
    the layout of a screen, scrolling, the notices, the fields of the settings
    screen.  Coordinates and sizes of the screen are [Z], their subtractions
    wrap as in the release builds; a [match] on an enum that has a variant
    [None], [Settings] or [Log] has it as [NoFocus], [SettingsTab], [LogTab].
    [UiOk.v] has the theorems, [UiClick.v] the mouse, [UiKeys.v] the keyboard. *)

From S2P Require Import Prelude Frame Settings Log NetStack.

Definition TAB_EVE_X : Z := 12.
Definition TAB_EVE_W : Z := 108.
Definition TAB_SET_X : Z := 128.
Definition TAB_SET_W : Z := 68.
Definition TAB_INS_X : Z := 204.
Definition TAB_INS_W : Z := 82.
Definition TAB_LOG_W : Z := TAB_SET_W.
Definition URL_BAR_BTN_COUNT : Z := 5.
Definition URL_HISTORY_CAP : nat := 16.

(** ** Arithmetic of sizes *)

Definition sat_sub (a b : Z) : Z := Z.max 0 (a - b).

(** ** The state *)

Inductive SettingsTextFocus :=
  NoFocus | WifiSsid | WifiPsk | DisplayWidth | DisplayHeight | HomeUrl | StaticIp | StaticGw | StaticDns.
#[export] Instance SettingsTextFocus_eq : EqDecision SettingsTextFocus.
Proof. solve_decision. Defined.

Inductive LogSubtab := Live | Serial.
#[export] Instance LogSubtab_eq : EqDecision LogSubtab.
Proof. solve_decision. Defined.

(** From [settings.rs]. *)
Inductive SettingsSubtab := General | Input.
#[export] Instance SettingsSubtab_eq : EqDecision SettingsSubtab.
Proof. solve_decision. Defined.
Inductive Screen := EpilepsyWarning | CaliforniaAgeNotice | Browser | SettingsTab | DiskInstall | LogTab.
#[export] Instance Screen_eq : EqDecision Screen.
Proof. solve_decision. Defined.
Inductive DiskInstallPhase := Idle | Running | Done | Failed.
#[export] Instance DiskInstallPhase_eq : EqDecision DiskInstallPhase.
Proof. solve_decision. Defined.

Record UiState := {
  url : bytes;
  url_len : nat;
  mx : Z;
  my : Z;
  cursor_x : list Z;
  cursor_y : list Z;
  cursor_active : list bool;
  cursor_btn : list Z;
  prev_cursor_btn : list Z;
  net_rx : Z;
  net_ok : bool;
  mac : bytes;
  net_ipv4 : bytes;
  screen : Screen;
  settings_subtab : SettingsSubtab;
  settings : DeviceSettings;
  platform_caps : PlatformCaps;
  pci_wlan : bool;
  wlan_pci_count : Z;
  wlan_first_vid : Z;
  wlan_first_did : Z;
  brcm_wlan_count : Z;
  brcm_first_did : Z;
  pci_eth_count : Z;
  pci_mm_audio : bool;
  inet_phase : NetPhase;
  inet_bytes : Z;
  inet_reload_request : bool;
  browser_line_count : nat;
  last_rendered_raw_len : Z;
  last_inet_page_gen : Z;
  page_scroll_line : nat;
  page_truncated : bool;
  fetch_err : bytes;
  fetch_err_len : nat;
  settings_text_focus : SettingsTextFocus;
  wifi_scan_count : Z;
  wifi_scan_demo : bool;
  wifi_scan_names : list bytes;
  wifi_scan_lens : list Z;
  disk_install_available : bool;
  disk_install_phase : DiskInstallPhase;
  disk_install_cur : Z;
  disk_install_total : Z;
  disk_install_err : bytes;
  disk_install_err_len : nat;
  disk_install_start_request : bool;
  bios_fullpage_browser : bool;
  content_dirty : bool;
  chrome_only_dirty : bool;
  browser_body_dirty : bool;
  status_dirty : bool;
  power_reboot_request : bool;
  power_shutdown_request : bool;
  settings_save_requested : bool;
  log_scroll_line : nat;
  log_stick_to_bottom : bool;
  log_subtab : LogSubtab;
  settings_scroll_px : Z;
  disk_install_scroll_px : Z;
  screen_after_epilepsy_notice : Screen;
  url_history : list bytes;
  url_history_lens : list Z;
  history_count : Z;
  history_pos : Z;
  history_skip_push : bool;
  static_octet_sel : Z;
}.
#[export] Instance UiState_eta : Settable UiState := fun s => Build_UiState
  s.(url) s.(url_len) s.(mx) s.(my) s.(cursor_x) s.(cursor_y) s.(cursor_active) s.(cursor_btn)
  s.(prev_cursor_btn) s.(net_rx) s.(net_ok) s.(mac) s.(net_ipv4) s.(screen) s.(settings_subtab)
  s.(settings) s.(platform_caps) s.(pci_wlan) s.(wlan_pci_count) s.(wlan_first_vid) s.(wlan_first_did)
  s.(brcm_wlan_count) s.(brcm_first_did) s.(pci_eth_count) s.(pci_mm_audio) s.(inet_phase)
  s.(inet_bytes) s.(inet_reload_request) s.(browser_line_count) s.(last_rendered_raw_len)
  s.(last_inet_page_gen) s.(page_scroll_line) s.(page_truncated) s.(fetch_err) s.(fetch_err_len)
  s.(settings_text_focus) s.(wifi_scan_count) s.(wifi_scan_demo) s.(wifi_scan_names) s.(wifi_scan_lens)
  s.(disk_install_available) s.(disk_install_phase) s.(disk_install_cur) s.(disk_install_total)
  s.(disk_install_err) s.(disk_install_err_len) s.(disk_install_start_request)
  s.(bios_fullpage_browser) s.(content_dirty) s.(chrome_only_dirty) s.(browser_body_dirty)
  s.(status_dirty) s.(power_reboot_request) s.(power_shutdown_request) s.(settings_save_requested)
  s.(log_scroll_line) s.(log_stick_to_bottom) s.(log_subtab) s.(settings_scroll_px)
  s.(disk_install_scroll_px) s.(screen_after_epilepsy_notice) s.(url_history) s.(url_history_lens)
  s.(history_count) s.(history_pos) s.(history_skip_push) s.(static_octet_sel).
#[export] Instance DeviceSettings_eta : Settable DeviceSettings := fun s => Build_DeviceSettings
  s.(display_theme) s.(display_pref_width) s.(display_pref_height) s.(display_use_custom_resolution)
  s.(wifi_enabled) s.(nic) s.(internet_stack_enabled) s.(ip_config) s.(static_ip) s.(static_gw)
  s.(static_dns) s.(usb_polling_enabled) s.(cursor_emoji_preset) s.(bluetooth_enabled) s.(midi_enabled)
  s.(midi_usb_enabled) s.(midi_channel) s.(browser_script_runtime_enabled) s.(home_url)
  s.(home_url_len) s.(bookmark_url) s.(bookmark_len) s.(wifi_ssid) s.(wifi_ssid_len) s.(wifi_psk)
  s.(wifi_psk_len) s.(wifi_sec).

Record Layout := {
  w : Z;
  h : Z;
  chrome_h : Z;
  tab_y : Z;
  tab_h : Z;
  bar_y : Z;
  bar_h : Z;
  content_top : Z;
}.

(** ** Start *)

(** The address to begin with: the saved home page, or the default. *)
Definition home_bytes (s : DeviceSettings) (url_cap : nat) : nat * bytes :=
  let hl := Z.to_nat (home_url_len s) in
  if decide (0 < hl <= length (home_url s))%nat then
    let n := Nat.min hl url_cap in (n, take n (home_url s))
  else
    let n := Nat.min (length DEFAULT_HOME_URL) url_cap in (n, take n DEFAULT_HOME_URL).

(** Where cursor [i] starts, on one axis. *)
Definition start_at (size offset step cell : Z) : rust Z :=
  clamp (size * (offset + cell * step) ÷ 100) 0 (size - 1).

Fixpoint start_all (size offset step : Z) (cells : list Z) : rust (list Z) :=
  match cells with
  | [] => Ret []
  | c :: cells => z ← start_at size offset step c; l ← start_all size offset step cells; Ret (z :: l)
  end.

Definition UiState_new_with_settings (width height : Z) (pci_wlan : bool)
    (wlan_pci_count wlan_first_vid wlan_first_did brcm_wlan_count brcm_first_did pci_eth_count : Z)
    (pci_mm_audio : bool) (platform_caps : PlatformCaps) (settings : DeviceSettings) : rust UiState :=
  let '(n, src) := home_bytes settings 192 in
  url ← copy_at (replicate 192 0) 0 src;
  xs ← start_all width 6 22 (map (fun i => i mod 4) (seqZ 0 12));
  ys ← start_all height 18 20 (map (fun i => i / 4) (seqZ 0 12));
  Ret {|
    url := url; url_len := n; mx := xs !!! 0%nat; my := ys !!! 0%nat; cursor_x := xs; cursor_y := ys;
    cursor_active := true :: replicate 11 false; cursor_btn := replicate MAX_CURSORS 0;
    prev_cursor_btn := replicate MAX_CURSORS 0; net_rx := 0; net_ok := false; mac := replicate 6 0;
    net_ipv4 := replicate 4 0; screen := EpilepsyWarning; settings_subtab := General; settings := settings;
    platform_caps := platform_caps; pci_wlan := pci_wlan; wlan_pci_count := wlan_pci_count;
    wlan_first_vid := wlan_first_vid; wlan_first_did := wlan_first_did; brcm_wlan_count := brcm_wlan_count;
    brcm_first_did := brcm_first_did; pci_eth_count := pci_eth_count; pci_mm_audio := pci_mm_audio;
    inet_phase := POff; inet_bytes := 0; inet_reload_request := false; browser_line_count := 0;
    last_rendered_raw_len := usize_max; last_inet_page_gen := 0; page_scroll_line := 0; page_truncated := false;
    fetch_err := replicate 80 0; fetch_err_len := 0; settings_text_focus := NoFocus; wifi_scan_count := 0;
    wifi_scan_demo := false; wifi_scan_names := replicate 3 (replicate 32 0); wifi_scan_lens := replicate 3 0;
    disk_install_available := false; disk_install_phase := Idle; disk_install_cur := 0; disk_install_total := 0;
    disk_install_err := replicate 56 0; disk_install_err_len := 0; disk_install_start_request := false;
    bios_fullpage_browser := true; content_dirty := true; chrome_only_dirty := false; browser_body_dirty := false;
    status_dirty := true; power_reboot_request := false; power_shutdown_request := false;
    settings_save_requested := false; log_scroll_line := 0; log_stick_to_bottom := true; log_subtab := Live;
    settings_scroll_px := 0; disk_install_scroll_px := 0; screen_after_epilepsy_notice := Browser;
    url_history := <[0%nat := list_inserts 0 (take n url) (replicate 192 0)]>
      (replicate URL_HISTORY_CAP (replicate 192 0));
    url_history_lens := Z.of_nat n :: replicate 15 0; history_count := 1; history_pos := 0;
    history_skip_push := false; static_octet_sel := 0 |}.

(** ** The history of addresses *)

Definition history_can_back (s : UiState) : bool := bool_decide (0 < history_pos s).
Definition history_can_forward (s : UiState) : bool := bool_decide (history_pos s + 1 < history_count s).

Definition history_load_at_pos (s : UiState) : rust UiState :=
  let pos := Z.to_nat (history_pos s) in
  len ← rd (url_history_lens s) pos;
  let n := Z.to_nat len in
  row ← rd (url_history s) pos;
  src ← sub row 0 n;
  u ← copy_at (url s) 0 src;
  Ret (s <| url := u |> <| url_len := n |> <| chrome_only_dirty := true |>).

(** The first test compares the address with itself. *)
Definition history_is_current (s : UiState) : rust bool :=
  if decide (0 < history_count s) then
    len ← rd (url_history_lens s) (Z.to_nat (history_pos s));
    let len := Z.to_nat len in
    if decide (len = url_len s) then
      a ← sub (url s) 0 len; b ← sub (url s) 0 (url_len s); Ret (bool_decide (a = b))
    else Ret false
  else Ret false.

(** The rows move down by one: [for i in 1..URL_HISTORY_CAP]. *)
Definition shift_down {A} (l : list A) : list A := tail l ++ match last l with Some x => [x] | None => [] end.

Definition history_push_current (s : UiState) : rust UiState :=
  if decide (url_len s = 0)%nat then Ret s
  else
    same ← history_is_current s;
    if same : bool then Ret s
    else
      let new_pos := history_pos s + 1 in
      let s :=
        if decide (Z.of_nat URL_HISTORY_CAP <= new_pos) then
          s <| url_history ::= shift_down |> <| url_history_lens ::= shift_down |>
            <| history_pos := Z.of_nat URL_HISTORY_CAP - 1 |> <| history_count := Z.of_nat URL_HISTORY_CAP |>
        else s <| history_count := wrap8 (new_pos + 1) |> <| history_pos := wrap8 new_pos |> in
      let pos := Z.to_nat (history_pos s) in
      let n := Nat.min (url_len s) (length (url s)) in
      row ← rd (url_history s) pos;
      src ← sub (url s) 0 n;
      row ← copy_at row 0 src;
      rows ← wr (url_history s) pos row;
      lens ← wr (url_history_lens s) pos (wrap8 (Z.of_nat n));
      Ret (s <| url_history := rows |> <| url_history_lens := lens |>).

Definition history_go_back (s : UiState) : rust (UiState * bool) :=
  if history_can_back s then
    s ← history_load_at_pos (s <| history_pos ::= fun p => p - 1 |>); Ret (s, true)
  else Ret (s, false).

Definition history_go_forward (s : UiState) : rust (UiState * bool) :=
  if history_can_forward s then
    s ← history_load_at_pos (s <| history_pos ::= fun p => p + 1 |>); Ret (s, true)
  else Ret (s, false).

(** ** Layout *)

Definition browser_bios_fullpage (s : UiState) : bool :=
  bool_decide (screen s = Browser) && bios_fullpage_browser s.

Definition tab_log_x (s : UiState) : Z :=
  if disk_install_available s then TAB_INS_X + TAB_INS_W + 6 else TAB_SET_X + TAB_SET_W + 6.

Definition url_bar_btn_width (w : Z) : Z := Z.max 24 (Z.min 32 (w / (URL_BAR_BTN_COUNT + 8))).

(** The layout on a screen of [w] by [h] pixels. *)
Definition layout (s : UiState) (w h : Z) : Layout :=
  let blank := {| w := w; h := h; chrome_h := 0; tab_y := 0; tab_h := 0; bar_y := 0; bar_h := 0; content_top := 0 |} in
  if decide (screen s = EpilepsyWarning \/ screen s = CaliforniaAgeNotice) then blank
  else if browser_bios_fullpage s then blank
  else
    let chrome_h := Z.max 24 (Z.min 56 (h / 8)) in
    let tab_y := chrome_h + 4 in
    let tab_h := Z.max 20 (Z.min 36 (sat_sub h chrome_h / 6)) in
    let bar_y := tab_y + tab_h + 6 in
    let bar_h := Z.max 28 (Z.min 40 (sat_sub h bar_y / 5)) in
    {| w := w; h := h; chrome_h := chrome_h; tab_y := tab_y; tab_h := tab_h; bar_y := bar_y; bar_h := bar_h;
       content_top := bar_y + bar_h + 12 |}.

(** [while y + step <= y_max { n += 1; y += step }]; a round per pixel is enough. *)
Fixpoint rows_loop (fuel : nat) (step y y_max : Z) (n : nat) : nat :=
  match fuel with
  | O => n
  | S fuel => if decide (y + step <= y_max) then rows_loop fuel step (y + step) y_max (S n) else n
  end.
Definition count_rows (step y y_max : Z) : nat := rows_loop (Z.to_nat (y_max - y)) step y y_max 0.

(** ** Scrolling a page *)

Definition BROWSER_LINE_H : Z := 12.

Definition browser_scroll_slots (lay : Layout) (s : UiState) : nat :=
  if browser_bios_fullpage s then 1%nat
  else
    let y := content_top lay + 12 in
    let y := if decide (0 < fetch_err_len s)%nat then y + (BROWSER_LINE_H + 4) else y in
    Nat.max 1 (count_rows BROWSER_LINE_H y (sat_sub (h lay) (28 + 48))).

Definition browser_max_scroll_line (lay : Layout) (s : UiState) : nat :=
  (browser_line_count s - browser_scroll_slots lay s)%nat.

Definition browser_clamp_scroll (lay : Layout) (s : UiState) : UiState :=
  s <| page_scroll_line ::= fun l => Nat.min l (browser_max_scroll_line lay s) |>.

Definition browser_wheel_lines (lay : Layout) (s : UiState) (raw : Z) : Z :=
  if decide (raw = 0) then 0
  else Z.sgn raw * Z.min 12 (Z.max 2 (Z.of_nat (browser_scroll_slots lay s) / 4)).

Definition browser_arrow_step (lay : Layout) (s : UiState) : Z :=
  Z.min 4 (Z.max 1 (Z.of_nat (browser_scroll_slots lay s) / 5)).

(** [main.rs] and [arm_run.rs] have the same function. *)
Definition browser_scroll (s : UiState) (lay : Layout) (lines : Z) : UiState :=
  if decide (lines = 0) then s
  else
    let s := s <| page_scroll_line ::= fun l => if decide (lines < 0) then (l - Z.to_nat (- lines))%nat
                                             else (l + Z.to_nat lines)%nat |> in
    (browser_clamp_scroll lay s) <| browser_body_dirty := true |>.

(** ** The log *)

Definition LOG_MSG_START_OFF : Z := 108.
Definition LOG_LINE_H : Z := 14.
Definition LOG_SUBTAB_Y_OFF : Z := 52.
Definition LOG_SUBTAB_H : Z := 20.
Definition LOG_SUBTAB_W_LIVE : Z := 56.
Definition LOG_SUBTAB_W_SERIAL : Z := 72.
Definition LOG_SUBTAB_GAP : Z := 8.

Definition log_line_is_serial (line : bytes) : bool := bool_decide (6 <= length line /\ take 6 line = PREFIX)%nat.

(** The retained lines, oldest first. *)
Definition serial_at (l : Log) (idx : nat) : bool :=
  match line_at l idx with Some line => log_line_is_serial line | None => false end.

Definition log_filtered_count (l : Log) (serial_only : bool) : nat :=
  if serial_only then fold_left (fun n idx => if serial_at l idx then S n else n) (seq 0 (count l)) 0%nat
  else count l.

Fixpoint find_row (l : Log) (idxs : list nat) (row seen : nat) : option nat :=
  match idxs with
  | [] => None
  | idx :: idxs =>
      if serial_at l idx then if decide (seen = row) then Some idx else find_row l idxs row (S seen)
      else find_row l idxs row seen
  end.

Definition log_filtered_index (l : Log) (serial_only : bool) (row : nat) : option nat :=
  if serial_only then find_row l (seq 0 (count l)) row 0
  else if decide (row < count l)%nat then Some row else None.

Definition log_viewport_rows (lay : Layout) : nat :=
  Nat.max 1 (count_rows LOG_LINE_H (content_top lay + LOG_MSG_START_OFF) (sat_sub (h lay) (28 + 48))).

Definition log_scroll_by_wheel (l : Log) (s : UiState) (lay : Layout) (lines : Z) : UiState :=
  if decide (lines = 0) then s
  else
    let total := log_filtered_count l (bool_decide (log_subtab s = Serial)) in
    if decide (total = 0)%nat then s
    else
      let max_scroll := (total - log_viewport_rows lay)%nat in
      let eff := if log_stick_to_bottom s then max_scroll else Nat.min (log_scroll_line s) max_scroll in
      let s :=
        if decide (lines < 0) then
          s <| log_stick_to_bottom := false |> <| log_scroll_line := (eff - Z.to_nat (- lines))%nat |>
        else
          let new := Nat.min (eff + Z.to_nat lines) max_scroll in
          let s := s <| log_scroll_line := new |> in
          if decide (max_scroll <= new)%nat then s <| log_stick_to_bottom := true |> else s in
      s <| content_dirty := true |>.

(** ** The settings screen *)

Definition SETTINGS_SUBTAB_OFF : Z := 12 + 20.
Definition SETTINGS_SUBTAB_H : Z := 22.
Definition SETTINGS_SUBTAB_BELOW_GAP : Z := 8.
Definition SETTINGS_SUBTAB_PILL_W_GEN : Z := 82.
Definition SETTINGS_SUBTAB_PILL_W_INP : Z := 58.
Definition SETTINGS_SUBTAB_PILL_GAP : Z := 8.
Definition SETTINGS_ROW_H : Z := 22.
Definition SETTINGS_GAP : Z := 4.
Definition SETTINGS_SEC_SKIP : Z := 18.
Definition POWER_BTN_H : Z := 46.
Definition POWER_BTN_GAP : Z := 18.
Definition POWER_STRIP_PAD_TOP : Z := 20.

Definition settings_first_row_y (content_top : Z) : Z :=
  content_top + SETTINGS_SUBTAB_OFF + SETTINGS_SUBTAB_H + SETTINGS_SUBTAB_BELOW_GAP + 14.

Definition settings_y_after_all_rows (s : UiState) (content_top : Z) : Z :=
  let r := SETTINGS_ROW_H + SETTINGS_GAP in
  let y := settings_first_row_y content_top in
  match settings_subtab s with
  | General =>
      let y := y + 5 * r + 14 + 10 * r + 14 + r + r + r * 3 in
      let y := if wifi_scan_demo s then y + 12 else y in
      y + r + r + r + r + r + r + SETTINGS_SEC_SKIP + r + SETTINGS_SEC_SKIP + r + r + r + 10
  | Input => y + r + r + r + r + r + r + 10
  end.

(** A rectangle: left, top, width, height. *)
Abbreviation rect := (Z * Z * Z * Z)%type.

Definition settings_power_button_rects (s : UiState) (lay : Layout) : rect * rect :=
  let y_btn := settings_y_after_all_rows s (content_top lay) + POWER_STRIP_PAD_TOP + 16 in
  let btn_w := Z.max 120 (sat_sub (sat_sub (w lay) (40 * 2)) POWER_BTN_GAP / 2) in
  ((40, y_btn, btn_w, POWER_BTN_H), (40 + btn_w + POWER_BTN_GAP, y_btn, btn_w, POWER_BTN_H)).

Definition settings_content_height (s : UiState) (lay : Layout) : Z :=
  let '(_, (_, sy, _, sh)) := settings_power_button_rects s lay in sy + sh + 20 + 14 + 16 - content_top lay.

(** A scroll position in pixels after a turn of the wheel, given its bound. *)
Definition scroll_px (max_s px dy : Z) : Z :=
  if decide (max_s = 0) then 0 else if decide (dy < 0) then sat_sub px (- dy) else Z.min max_s (px + dy).

Definition settings_scroll_by_wheel (s : UiState) (lay : Layout) (dy : Z) : UiState :=
  let panel_h := sat_sub (sat_sub (h lay) (content_top lay)) 48 in
  let max_s := sat_sub (settings_content_height s lay) panel_h in
  s <| settings_scroll_px ::= fun px => scroll_px max_s px dy |> <| content_dirty := true |>.

Definition DISK_INSTALL_DOC_H : Z := 362.
Definition disk_install_scroll_by_wheel (s : UiState) (lay : Layout) (dy : Z) : UiState :=
  let panel_h := sat_sub (sat_sub (h lay) (content_top lay)) 48 in
  let max_s := sat_sub DISK_INSTALL_DOC_H panel_h in
  s <| disk_install_scroll_px ::= fun px => scroll_px max_s px dy |> <| content_dirty := true |>.

Definition disk_install_button_rect (lay : Layout) : rect :=
  let bw := Z.min 440 (sat_sub (w lay) 80) in
  (sat_sub (w lay) bw / 2, content_top lay + 168, bw, 52).

Definition WIFI_NAMES : list bytes := Eval vm_compute in [bs "HOMENET"; bs "OFFICE-AP"; bs "GUEST-WIFI"].

Definition wifi_demo_scan (s : UiState) : UiState :=
  s <| wifi_scan_demo := true |> <| wifi_scan_count := 3 |>
    <| wifi_scan_names ::= zip_with (fun name row => list_inserts 0 name row) WIFI_NAMES |>
    <| wifi_scan_lens := map (fun name => Z.of_nat (length name)) WIFI_NAMES |>.

(** ** The notices *)

Definition dismiss_epilepsy_notice (s : UiState) : UiState :=
  if decide (screen s <> EpilepsyWarning) then s
  else s <| screen := CaliforniaAgeNotice |> <| content_dirty := true |>.

Definition dismiss_california_age_notice (s : UiState) : UiState :=
  if decide (screen s <> CaliforniaAgeNotice) then s
  else s <| screen := screen_after_epilepsy_notice s |> <| content_dirty := true |>.
