(* ===== verification/UiKeys.v ===== *)
(** * The keyboard ([kernel/src/arm_run.rs], [kernel/src/arm_input.rs], [kernel-arm-uefi/src/main.rs])

    Typing into the fields of the settings screen and into the address bar,
    loading a page, and the keys of the ARM target: the queue that the firmware
    side fills each frame, its keys and its pointer.  [settings_text_key] and
    [start_browser_fetch] are the same in [main.rs].  [UiOk.v] has the theorems. *)

From S2P Require Import Prelude Frame Settings Log NetStack HtmlCss Html Ui.

(** ** The fields of the settings screen *)

Definition is_printable (ch : Z) : bool := bool_decide (32 <= ch < 127).

(** The key for a text field: its bytes, its length, whether the key was used. *)
Definition text_field (cap : nat) (ch : Z) (field : bytes) (len : Z) : rust (bytes * Z * bool) :=
  if decide (ch = 8) then Ret (field, (if decide (0 < len) then len - 1 else len), true)
  else if is_printable ch then
    if decide (len < Z.of_nat cap) then
      f ← wr field (Z.to_nat len) ch; Ret (f, len + 1, true)
    else Ret (field, len, true)
  else Ret (field, len, false).

(** A number is typed from the left, and saturates. *)
Definition number_field (width cap ch v : Z) : Z * bool :=
  if decide (ch = 8) then (v / 10, true)
  else if decide (48 <= ch <= 57) then
    (Z.min cap (Z.min (2 ^ width - 1) (Z.min (2 ^ width - 1) (v * 10) + (ch - 48))), true)
  else (v, false).

Definition static_octet (sel ch : Z) (octets : bytes) : rust (bytes * bool) :=
  let sel := Z.to_nat (Z.min 3 sel) in
  o ← rd octets sel;
  let '(o, used) := number_field 8 255 ch o in
  octets ← wr octets sel o;
  Ret (octets, used).

Definition settings_text_key (s : UiState) (ch : Z) : rust (UiState * bool) :=
  let d := settings s in
  match settings_text_focus s with
  | NoFocus => Ret (s, false)
  | WifiSsid =>
      '(f, n, used) ← text_field (length (wifi_ssid d)) ch (wifi_ssid d) (wifi_ssid_len d);
      Ret (s <| settings := d <| wifi_ssid := f |> <| wifi_ssid_len := n |> |>, used)
  | WifiPsk =>
      '(f, n, used) ← text_field (length (wifi_psk d)) ch (wifi_psk d) (wifi_psk_len d);
      Ret (s <| settings := d <| wifi_psk := f |> <| wifi_psk_len := n |> |>, used)
  | DisplayWidth =>
      let '(v, used) := number_field 16 7680 ch (display_pref_width d) in
      Ret (s <| settings := d <| display_pref_width := v |> |>, used)
  | DisplayHeight =>
      let '(v, used) := number_field 16 4320 ch (display_pref_height d) in
      Ret (s <| settings := d <| display_pref_height := v |> |>, used)
  | HomeUrl =>
      '(f, n, used) ← text_field PERSIST_HOME_URL_CAP ch (home_url d) (home_url_len d);
      Ret (s <| settings := d <| home_url := f |> <| home_url_len := n |> |>, used)
  | StaticIp =>
      '(o, used) ← static_octet (static_octet_sel s) ch (static_ip d);
      Ret (s <| settings := d <| static_ip := o |> |>, used)
  | StaticGw =>
      '(o, used) ← static_octet (static_octet_sel s) ch (static_gw d);
      Ret (s <| settings := d <| static_gw := o |> |>, used)
  | StaticDns =>
      '(o, used) ← static_octet (static_octet_sel s) ch (static_dns d);
      Ret (s <| settings := d <| static_dns := o |> |>, used)
  end.

(** ** Loading a page *)

(** What a load of a page changes: the state of the interface, of the network
    stack and of the renderer. *)
Record Desk := { ui : UiState; inet : NetStack; html : HtmlStatics }.
#[export] Instance Desk_eta : Settable Desk := fun d => Build_Desk d.(ui) d.(inet) d.(html).

Definition OFFLINE_PAGE : bytes := Eval vm_compute in bs "<!doctype html><html><body><h1>TempleOS Web Shrine (offline)</h1><p>&#128512; Offline mode</p><p>Network is not active yet.</p><p>When online, the default home is <code>https://alexanderdfox.github.io/TempleOSWebShrine/</code></p><p>Local QEMU demo: host <code>python3 -m http.server 8080 --directory demo/qemu-http-test</code> then <code>http://10.0.2.2:8080/</code></p></body></html>".
Definition NET_OFFLINE : bytes := Eval vm_compute in bs "NET OFFLINE".

(** [UiPalette::text_primary] of the two palettes. *)
Definition text_primary (t : DisplayTheme) : rgb :=
  match t with Light => (0x22, 0x22, 0x22) | Dark => (0xe8, 0xec, 0xf0) end.

Definition at_home (s : UiState) : rust bool :=
  let hl := Z.to_nat (home_url_len (settings s)) in
  if decide (0 < hl /\ url_len s = hl)%nat then
    a ← sub (url s) 0 hl; b ← sub (home_url (settings s)) 0 hl; Ret (bool_decide (a = b))
  else Ret false.

Definition to_top (s : UiState) : UiState :=
  s <| page_scroll_line := 0%nat |> <| browser_body_dirty := true |> <| status_dirty := true |>.

Definition start_browser_fetch (inet_on : bool) (k : Desk) : rust Desk :=
  s ← (if history_skip_push (ui k) then Ret ((ui k) <| history_skip_push := false |>)
       else history_push_current (ui k));
  if decide (url_len s = 0)%nat then Ret (k <| ui := s |>)
  else if negb inet_on then
    home ← at_home s;
    if home : bool then
      r ← format_document OFFLINE_PAGE (text_primary (display_theme (settings s))) (html k);
      Ret (k <| html := rd_statics r |>
             <| ui := to_top (s <| browser_line_count := rd_line_count r |> <| fetch_err_len := 0%nat |>
                               <| page_truncated := rd_truncated r |>
                               <| last_rendered_raw_len := Z.of_nat (length OFFLINE_PAGE) |>) |>)
    else
      let n := Nat.min (length NET_OFFLINE) (length (fetch_err s)) in
      e ← copy_at (fetch_err s) 0 (take n NET_OFFLINE);
      Ret (k <| ui := to_top (s <| fetch_err := e |> <| fetch_err_len := n |>
                                <| browser_line_count := 0%nat |> <| page_truncated := false |>) |>)
  else
    u ← sub (url s) 0 (url_len s);
    i ← start_fetch u (inet k);
    Ret (k <| inet := i |>
           <| ui := to_top (s <| browser_line_count := 0%nat |> <| last_rendered_raw_len := usize_max |>) |>).

(** ** The keys of the ARM target *)

Inductive ArmKeyEvent :=
  Char (c : Z) | Backspace | Enter | Func (n : Z) | PageUp | PageDown | ArrowUp | ArrowDown | ArrowLeft
  | ArrowRight | Home | End_ | Escape.

Definition KEY_CAP : nat := 32.

(** [KEY_BUF] up to [KEY_LEN]. *)
Definition key_queue_reset : list ArmKeyEvent := [].
Definition key_queue_push (ev : ArmKeyEvent) (q : list ArmKeyEvent) : list ArmKeyEvent :=
  if decide (length q < KEY_CAP)%nat then q ++ [ev] else q.

(** [ARM_X], [ARM_Y] and [ARM_BTN], that the firmware side sets each poll. *)
Record ArmPointer := { ARM_X : Z; ARM_Y : Z; ARM_BTN : Z }.
Definition set_pointer_abs (x y buttons : Z) : ArmPointer := {| ARM_X := x; ARM_Y := y; ARM_BTN := buttons |}.

(** The pointer becomes cursor 0, the only active one. *)
Definition sync_primary_cursor (p : ArmPointer) (s : UiState) (width height : Z) : rust UiState :=
  x ← clamp (ARM_X p) 0 (Z.max (width - 1) 0);
  y ← clamp (ARM_Y p) 0 (Z.max (height - 1) 0);
  Ret (s <| cursor_active := true :: replicate (MAX_CURSORS - 1) false |> <| cursor_x ::= <[0%nat := x]> |>
         <| cursor_y ::= <[0%nat := y]> |> <| cursor_btn ::= <[0%nat := ARM_BTN p]> |> <| mx := x |> <| my := y |>).

(** The arrow and page keys outside of the browser. *)
Definition scroll_arm (sw sh : Z) (s : UiState) (l : Log) (lines : Z) : UiState :=
  if decide (lines = 0) then s
  else
    let lay := layout s sw sh in
    match screen s with
    | Browser => browser_scroll s lay (browser_wheel_lines lay s lines)
    | LogTab => log_scroll_by_wheel l s lay lines
    | SettingsTab => settings_scroll_by_wheel s lay (lines * 40)
    | DiskInstall => disk_install_scroll_by_wheel s lay (lines * 32)
    | _ => s
    end.

Section keys.
Context (sw sh : Z) (inet_on : bool).

(** A key that scrolls: by [d] lines in the browser, by [other] elsewhere. *)
Definition scroll_key (d : Layout -> UiState -> Z) (other : Z) (k : Desk) : Desk :=
  let s := ui k in
  k <| ui := if decide (screen s = Browser) then browser_scroll s (layout s sw sh) (d (layout s sw sh) s)
             else scroll_arm sw sh s (klog (inet k)) other |>.

Definition is_dismissal (ev : ArmKeyEvent) : bool :=
  match ev with Char c => bool_decide (c = 32 \/ c = 10) | Enter => true | _ => false end.

Definition function_key (n : Z) (s : UiState) : UiState :=
  match n with
  | 1 => s <| screen := SettingsTab |> <| content_dirty := true |>
  | 2 => s <| screen := Browser |> <| settings_text_focus := NoFocus |> <| content_dirty := true |>
  | 3 =>
      if decide (screen s = SettingsTab) then
        s <| settings ::= (fun d => d <| midi_channel ::= next_midi_channel |>) |> <| content_dirty := true |>
      else s
  | 4 => if disk_install_available s then s <| screen := DiskInstall |> <| content_dirty := true |> else s
  | 5 => s <| screen := LogTab |> <| content_dirty := true |>
  | 6 =>
      match screen s with
      | Browser => s <| bios_fullpage_browser ::= negb |> <| content_dirty := true |>
      | LogTab =>
          s <| log_subtab ::= (fun t => match t with Live => Serial | Serial => Live end) |>
            <| log_scroll_line := 0%nat |> <| log_stick_to_bottom := true |> <| content_dirty := true |>
      | _ => s
      end
  | _ => s
  end.

(** A key for the focused field of the settings screen. *)
Definition field_key (ch : Z) (s : UiState) : rust UiState :=
  '(s, used) ← settings_text_key s ch;
  Ret (if used : bool then s <| content_dirty := true |> else s).

Definition home_key (k : Desk) : Desk :=
  match screen (ui k) with
  | Browser => k <| ui ::= fun s => s <| page_scroll_line := 0%nat |> <| browser_body_dirty := true |> |>
  | LogTab => k <| ui ::= fun s => s <| log_stick_to_bottom := false |> <| log_scroll_line := 0%nat |> <| content_dirty := true |> |>
  | _ => k <| ui ::= fun s => scroll_arm sw sh s (klog (inet k)) (-12) |>
  end.

Definition end_key (k : Desk) : Desk :=
  match screen (ui k) with
  | Browser =>
      k <| ui ::= fun s => s <| page_scroll_line := browser_max_scroll_line (layout s sw sh) s |>
                             <| browser_body_dirty := true |> |>
  | LogTab => k <| ui ::= fun s => s <| log_stick_to_bottom := true |> <| log_scroll_line := 0%nat |> <| content_dirty := true |> |>
  | _ => k <| ui ::= fun s => scroll_arm sw sh s (klog (inet k)) 12 |>
  end.

Definition backspace_key (s : UiState) : rust UiState :=
  match screen s with
  | Browser =>
      Ret (if decide (0 < url_len s)%nat then s <| url_len ::= pred |> <| chrome_only_dirty := true |> else s)
  | SettingsTab => field_key 8 s
  | _ => Ret s
  end.

Definition char_key (ch : Z) (s : UiState) : rust UiState :=
  match screen s with
  | Browser =>
      if is_printable ch && bool_decide (url_len s < length (url s) - 1)%nat then
        u ← wr (url s) (url_len s) ch;
        Ret (s <| url := u |> <| url_len ::= S |> <| chrome_only_dirty := true |>)
      else Ret s
  | SettingsTab => field_key ch s
  | _ => Ret s
  end.

(** One round of the loop of [process_arm_keys]. *)
Definition arm_key (ev : ArmKeyEvent) (k : Desk) : rust Desk :=
  let s := ui k in
  let slots lay s := Z.of_nat (browser_scroll_slots lay s) in
  match screen s with
  | EpilepsyWarning =>
      Ret (if is_dismissal ev then k <| ui := (dismiss_epilepsy_notice s) <| content_dirty := true |> |> else k)
  | CaliforniaAgeNotice =>
      Ret (if is_dismissal ev then k <| ui := (dismiss_california_age_notice s) <| content_dirty := true |> |> else k)
  | _ =>
      match ev with
      | Func n => Ret (k <| ui := function_key n s |>)
      | PageDown => Ret (scroll_key slots 3 k)
      | PageUp => Ret (scroll_key (fun lay s => - slots lay s) (-3) k)
      | ArrowDown | ArrowRight => Ret (scroll_key browser_arrow_step 3 k)
      | ArrowUp | ArrowLeft => Ret (scroll_key (fun lay s => - browser_arrow_step lay s) (-3) k)
      | Home => Ret (home_key k)
      | End_ => Ret (end_key k)
      | Escape =>
          Ret (if decide (screen s = SettingsTab)
               then k <| ui := s <| settings_text_focus := NoFocus |> <| content_dirty := true |> |> else k)
      | Backspace => s ← backspace_key s; Ret (k <| ui := s |>)
      | Enter => if decide (screen s = Browser) then start_browser_fetch inet_on k else Ret k
      | Char ch => s ← char_key ch s; Ret (k <| ui := s |>)
      end
  end.

Fixpoint process_arm_keys (evs : list ArmKeyEvent) (k : Desk) : rust Desk :=
  match evs with
  | [] => Ret k
  | ev :: evs => k ← arm_key ev k; process_arm_keys evs k
  end.
End keys.
