(* ===== verification/UiOk.v ===== *)
(** * What the state of the interface guarantees

    [ui_wf], the invariant of [UiState], which the first state has; the history
    of addresses refines a list with a place in it; every key is handled and
    keeps the invariant; typing extends the address; scrolling stays in range. *)

From S2P Require Import Prelude Frame Settings Log NetStack NetSafe HtmlCss Html HtmlSafe Ui UiKeys.

(** ** The invariant *)

Definition text_row (n : nat) (l : bytes) : Prop := length l = n /\ is_bytes l.

Record history_wf (rows : list bytes) (lens : list Z) (cnt pos : Z) : Prop := {
  hw_rows : length rows = URL_HISTORY_CAP /\ Forall (text_row 192) rows;
  hw_lens : length lens = URL_HISTORY_CAP /\ Forall (fun n => 0 <= n <= 192) lens;
  hw_count : 1 <= cnt <= 16;
  hw_pos : 0 <= pos < cnt;
}.

(** The lengths of the text fields of the settings are in range. *)
Record settings_wf (d : DeviceSettings) : Prop := {
  sw_typed : settings_typed d;
  sw_home : 0 <= home_url_len d <= 120;
  sw_ssid : 0 <= wifi_ssid_len d <= 32;
  sw_psk : 0 <= wifi_psk_len d <= 64;
}.

Record ui_wf (s : UiState) : Prop := {
  uw_url : text_row 192 (url s) /\ (url_len s <= 192)%nat;
  uw_cursors : length (cursor_x s) = MAX_CURSORS /\ length (cursor_y s) = MAX_CURSORS /\
    length (cursor_active s) = MAX_CURSORS /\ length (cursor_btn s) = MAX_CURSORS /\
    length (prev_cursor_btn s) = MAX_CURSORS;
  uw_settings : settings_wf (settings s);
  uw_err : length (fetch_err s) = 80%nat /\ (fetch_err_len s <= 80)%nat;
  uw_wifi : length (wifi_scan_names s) = 3%nat /\ Forall (text_row 32) (wifi_scan_names s) /\
    length (wifi_scan_lens s) = 3%nat;
  uw_history : history_wf (url_history s) (url_history_lens s) (history_count s) (history_pos s);
  uw_octet : 0 <= static_octet_sel s;
}.


(** ** Bytes written into rows *)

Lemma text_row_copy n row src : text_row n row -> is_bytes src -> (length src <= n)%nat ->
  copy_at row 0 src = Ret (list_inserts 0 src row) /\ text_row n (list_inserts 0 src row) /\
  take (length src) (list_inserts 0 src row) = src.
Proof.
  intros [Hl Hb] Hs Hn. rewrite copy_at_ok by lia. split; [done|]. split.
  - split; [by rewrite length_inserts|by apply Forall_inserts].
  - rewrite take_as_slice. apply slice_inserts_in; lia.
Qed.

Lemma text_row_wr n row i c : text_row n row -> is_byte c -> (i < n)%nat ->
  wr row i c = Ret (<[i := c]> row) /\ text_row n (<[i := c]> row).
Proof.
  intros [Hl Hb] Hc Hi. rewrite wr_ok by lia. split; [done|]. split; [by rewrite length_insert|by apply Forall_insert].
Qed.

Lemma text_row_take n row k : text_row n row -> is_bytes (take k row).
Proof. intros [_ Hb]. by apply Forall_take. Qed.

(** ** The history *)

(** What is stored: [visited] addresses, the place of the current one, and the
    address the bar shows. *)
Record Hist := { visited : list bytes; place : nat; shown : bytes }.

Definition entries (rows : list bytes) (lens : list Z) : list bytes :=
  zip_with (fun row n => take (Z.to_nat n) row) rows lens.

Definition address (s : UiState) : bytes := take (url_len s) (url s).

Definition hist_of (s : UiState) : Hist := {|
  visited := take (Z.to_nat (history_count s)) (entries (url_history s) (url_history_lens s));
  place := Z.to_nat (history_pos s); shown := address s |}.

(** Visiting an address forgets what lies ahead and, beyond sixteen, the oldest.
    An address of the length of the current one counts as the same. *)
Definition visit (H : Hist) : Hist :=
  if decide (length (visited H !!! place H) = length (shown H)) then H
  else
    let v := take (S (place H)) (visited H) ++ [shown H] in
    let v := if decide (URL_HISTORY_CAP < length v)%nat then tail v else v in
    {| visited := v; place := length v - 1; shown := shown H |}.

Definition go_to (H : Hist) (p : nat) : Hist := {| visited := visited H; place := p; shown := visited H !!! p |}.
Definition back (H : Hist) : Hist := if decide (0 < place H)%nat then go_to H (place H - 1) else H.
Definition forward (H : Hist) : Hist := if decide (S (place H) < length (visited H))%nat then go_to H (S (place H)) else H.

Definition hist_wf (s : UiState) : Prop :=
  history_wf (url_history s) (url_history_lens s) (history_count s) (history_pos s).

Section history.
Context (rows : list bytes) (lens : list Z) (cnt pos : Z) (Hh : history_wf rows lens cnt pos).

Lemma length_entries : length (entries rows lens) = 16%nat.
Proof. unfold entries. rewrite length_zip_with. destruct Hh as [[-> _] [-> _] _ _]. done. Qed.

Lemma row_at_pos p : (p < 16)%nat -> exists row n, rows !! p = Some row /\ lens !! p = Some n /\
  text_row 192 row /\ 0 <= n <= 192 /\ entries rows lens !! p = Some (take (Z.to_nat n) row).
Proof.
  intros Hp. destruct Hh as [[Hr Fr] [Hl Fl] _ _].
  destruct (lookup_lt_is_Some_2 rows p) as [row Er]; [by rewrite Hr|].
  destruct (lookup_lt_is_Some_2 lens p) as [n En]; [by rewrite Hl|].
  pose proof (Forall_lookup_1 _ _ _ _ Fr Er). pose proof (Forall_lookup_1 _ _ _ _ Fl En) as Hn. cbn in Hn.
  exists row, n. repeat (split; [done|]). unfold entries. by rewrite lookup_zip_with, Er, En.
Qed.
End history.

Lemma load_ok s p : ui_wf s -> history_pos s = Z.of_nat p -> (p < 16)%nat ->
  exists s' a, history_load_at_pos s = Ret s' /\ ui_wf s' /\
    entries (url_history s) (url_history_lens s) !! p = Some a /\ address s' = a /\
    url_history s' = url_history s /\ url_history_lens s' = url_history_lens s /\
    history_count s' = history_count s /\ history_pos s' = history_pos s.
Proof.
  intros Hs Ep Hp. pose proof Hs as [[Hu _] ? ? ? ? Hh ?].
  destruct (row_at_pos _ _ _ _ Hh p Hp) as (row & n & Er & En & Hrow & Hn & Ee).
  unfold history_load_at_pos. rewrite Ep, Nat2Z.id.
  rewrite (rd_lookup _ _ _ En), bind_ret, (rd_lookup _ _ _ Er), bind_ret.
  rewrite sub_ok, bind_ret by (rewrite (proj1 Hrow); lia).
  assert (length (slice row 0 (Z.to_nat n)) = Z.to_nat n) as Hl by (rewrite length_slice; rewrite ?(proj1 Hrow); lia).
  destruct (text_row_copy 192 (url s) (slice row 0 (Z.to_nat n)) Hu) as (-> & Hu' & Et);
    [rewrite slice_0; by apply (text_row_take 192)|lia|]. rewrite bind_ret.
  eexists _, _. split; [reflexivity|]. split; [|split; [exact Ee|]].
  - split; try done. cbn. split; [done|lia].
  - split; [|done]. unfold address. cbn. rewrite Hl in Et. by rewrite Et, slice_0.
Qed.

Lemma shift_down_cons {A} (x : A) l : exists y, shift_down (x :: l) = l ++ [y] /\ y ∈ x :: l.
Proof.
  unfold shift_down. destruct (last (x :: l)) as [y|] eqn:E.
  - exists y. split; [done|]. apply last_Some in E as [l' ->]. apply elem_of_app. right. by apply list_elem_of_singleton.
  - by rewrite last_cons in E; destruct (last l).
Qed.

Lemma shift_down_wf {A} (P : A -> Prop) (l : list A) n : length l = n /\ Forall P l ->
  length (shift_down l) = n /\ Forall P (shift_down l).
Proof.
  intros [<- HP]. destruct l as [|x l]; [done|]. destruct (shift_down_cons x l) as (y & -> & Hy).
  split; [by rewrite length_app; cbn; lia|]. apply Forall_app. split; [by inversion HP|].
  constructor; [|constructor]. by eapply Forall_forall in Hy.
Qed.

Lemma entries_shift rows lens : length rows = 16%nat -> length lens = 16%nat ->
  take 15 (entries (shift_down rows) (shift_down lens)) = tail (entries rows lens).
Proof.
  destruct rows as [|r rows], lens as [|n lens]; try done. intros [= Hr] [= Hn].
  destruct (shift_down_cons r rows) as (r' & -> & _), (shift_down_cons n lens) as (n' & -> & _).
  unfold entries. rewrite zip_with_app by congruence. cbn [zip_with tail].
  apply take_app_length'. rewrite length_zip_with. lia.
Qed.

Definition rows_wf (rows : list bytes) (lens : list Z) : Prop :=
  (length rows = URL_HISTORY_CAP /\ Forall (text_row 192) rows) /\
  (length lens = URL_HISTORY_CAP /\ Forall (fun n => 0 <= n <= 192) lens).

(** Writing the address [u], of [n] bytes, into row [p]. *)
Lemma store_ok rows lens p u n :
  rows_wf rows lens -> (p < 16)%nat -> text_row 192 u -> (n <= 192)%nat ->
  exists rows' lens', rows_wf rows' lens' /\ entries rows' lens' = <[p := take n u]> (entries rows lens) /\
    forall (K : list bytes -> list Z -> rust UiState), (row ← rd rows p; src ← sub u 0 n; row ← copy_at row 0 src;
     rows ← wr rows p row; lens ← wr lens p (wrap8 (Z.of_nat n)); K rows lens) = K rows' lens'.
Proof.
  intros [[Hr Fr] [Hl Fl]] Hp Hu Hn. change URL_HISTORY_CAP with 16%nat in *.
  destruct (lookup_lt_is_Some_2 rows p) as [row Er]; [by rewrite Hr|].
  pose proof (Forall_lookup_1 _ _ _ _ Fr Er) as Hrow.
  assert (length (take n u) = n) as Hlen by (rewrite length_take, (proj1 Hu); lia).
  destruct (text_row_copy 192 row (take n u) Hrow) as (Hcp & Hrow' & Et); [by apply (text_row_take 192)|lia|].
  assert (wrap8 (Z.of_nat n) = Z.of_nat n) as Hw by (apply Z.mod_small; lia).
  eexists _, _. split; [|split; [|intros K; by rewrite (rd_lookup _ _ _ Er), bind_ret, sub_ok, bind_ret, slice_0, Hcp, bind_ret, !wr_ok, !bind_ret, Hw by (rewrite ?(proj1 Hu); lia)]].
  - split; (split; [by rewrite length_insert|]); apply Forall_insert; try done. lia.
  - unfold entries. rewrite <-insert_zip_with. f_equal. rewrite Hlen in Et. by rewrite Nat2Z.id.
Qed.

Lemma is_current_ok s : ui_wf s ->
  history_is_current s = Ret (bool_decide (length (visited (hist_of s) !!! place (hist_of s)) = length (shown (hist_of s)))).
Proof.
  intros Hs. pose proof Hs as [[Hu Hn] _ _ _ _ Hh _]. pose proof Hh as [_ _ Hc Hp].
  unfold history_is_current. rewrite decide_True by lia.
  destruct (row_at_pos _ _ _ _ Hh (Z.to_nat (history_pos s))) as (row & n & _ & En & Hrow & Hb & Ee); [lia|].
  rewrite (rd_lookup _ _ _ En), bind_ret. cbn [hist_of visited place shown].
  assert (take (Z.to_nat (history_count s)) (entries (url_history s) (url_history_lens s)) !!! Z.to_nat (history_pos s)
    = take (Z.to_nat n) row) as ->.
  { apply list_lookup_total_correct. rewrite lookup_take_lt by lia. done. }
  unfold address. rewrite !length_take, (proj1 Hu), (proj1 Hrow), !Nat.min_l by lia.
  destruct (decide (Z.to_nat n = url_len s)) as [E|E].
  - rewrite !sub_ok, !bind_ret by (rewrite (proj1 Hu); lia). rewrite E. by rewrite !bool_decide_true.
  - by rewrite bool_decide_false.
Qed.

Lemma history_push_ok s : ui_wf s -> (0 < url_len s)%nat ->
  exists s', history_push_current s = Ret s' /\ ui_wf s' /\ hist_of s' = visit (hist_of s).
Proof.
  intros Hs Hpos. pose proof Hs as [[Hu Hn] ? ? ? ? Hh ?]. pose proof Hh as [Hrows Hlens Hc Hp].
  unfold history_push_current. rewrite decide_False by lia. rewrite is_current_ok, bind_ret by done. unfold visit.
  case_bool_decide as Hsame; [exists s; split; [done|]; split; [exact Hs|]; rewrite (decide_True _ _ Hsame); reflexivity|]. rewrite (decide_False _ _ Hsame). cbv zeta.
  assert (Z.to_nat (history_pos s) < length (entries (url_history s) (url_history_lens s)))%nat as Hpl
    by (rewrite (length_entries _ _ _ _ Hh); lia).
  change (place (hist_of s)) with (Z.to_nat (history_pos s)). change (shown (hist_of s)) with (address s).
  change (visited (hist_of s)) with (take (Z.to_nat (history_count s)) (entries (url_history s) (url_history_lens s))).
  set (E := entries (url_history s) (url_history_lens s)) in *.
  rewrite take_take, (Nat.min_l (S _)) by lia.
  destruct (decide (Z.of_nat URL_HISTORY_CAP <= history_pos s + 1)) as [Hfull|Hroom];
    change URL_HISTORY_CAP with 16%nat in *; cbn -[wrap shift_down Z.of_nat Z.to_nat take entries].
  - assert (history_count s = 16 /\ history_pos s = 15) as [Ec Ep] by lia.
    assert (Nat.min (url_len s) (length (url s)) = url_len s) as -> by (rewrite (proj1 Hu); lia).
    edestruct (store_ok (shift_down (url_history s)) (shift_down (url_history_lens s)) 15 (url s) (url_len s))
      as (rows & lens & Hwf & Ee & Eq); [split; by apply shift_down_wf|lia|done|done|].
    change (Z.to_nat (Z.of_nat 16 - 1)) with 15%nat. rewrite Eq. clear Eq. destruct Hwf.
    eexists. split; [reflexivity|]. split; [split; try done; split; cbn; try done; lia|].
    unfold hist_of, address. cbn -[take entries Z.to_nat]. change (Z.to_nat 16) with 16%nat. rewrite Ee, Ep.
    change (Z.to_nat 15) with 15%nat.
    pose proof (length_entries _ _ _ _ Hh) as HE. fold E in HE. rewrite (take_ge E) by lia.
    rewrite decide_True by (rewrite length_app, HE; cbn; lia).
    rewrite (take_insert_snoc _ 15) by (unfold entries; rewrite length_zip_with, (proj1 (shift_down_wf _ _ _ Hrows)),
      (proj1 (shift_down_wf _ _ _ Hlens)); lia).
    rewrite entries_shift by (apply Hrows || apply Hlens). fold E. destruct E as [|e0 E0]; [done|].
    f_equal. cbn in HE |- *. rewrite length_app. cbn. lia.
  - assert (wrap8 (history_pos s + 1) = history_pos s + 1) as -> by (apply Z.mod_small; lia).
    assert (wrap8 (history_pos s + 1 + 1) = history_pos s + 2) as -> by (unfold wrap; rewrite Z.mod_small; lia).
    assert (Nat.min (url_len s) (length (url s)) = url_len s) as -> by (rewrite (proj1 Hu); lia).
    edestruct (store_ok (url_history s) (url_history_lens s) (S (Z.to_nat (history_pos s))) (url s) (url_len s))
      as (rows & lens & Hwf & Ee & Eq); [by split|lia|done|done|].
    replace (Z.to_nat (history_pos s + 1)) with (S (Z.to_nat (history_pos s))) by lia.
    rewrite Eq. clear Eq. destruct Hwf.
    eexists. split; [reflexivity|]. split; [split; try done; split; cbn; try done; lia|].
    unfold hist_of, address. cbn -[take entries Z.to_nat]. rewrite Ee. fold E.
    pose proof (length_entries _ _ _ _ Hh) as HE. fold E in HE.
    assert (length (take (S (Z.to_nat (history_pos s))) E ++ [take (url_len s) (url s)]) = S (S (Z.to_nat (history_pos s)))) as Hv
      by (rewrite length_app, length_take, HE; cbn; lia).
    rewrite decide_False by (rewrite Hv; lia). rewrite Hv.
    replace (Z.to_nat (history_pos s + 2)) with (S (S (Z.to_nat (history_pos s)))) by lia.
    rewrite take_insert_snoc by lia. f_equal. lia.
Qed.

Lemma go_ok s p : ui_wf s -> (p < Z.to_nat (history_count s))%nat -> history_pos s = Z.of_nat p ->
  exists s', history_load_at_pos s = Ret s' /\ ui_wf s' /\
    hist_of s' = go_to (hist_of s) p.
Proof.
  intros Hs Hp Ep. pose proof (hw_count _ _ _ _ (uw_history s Hs)) as Hc.
  destruct (load_ok s p Hs Ep ltac:(lia)) as (s' & a & E & Hs' & Ea & Eb & Er & El & Ec & Eq).
  exists s'. split; [done|]. split; [done|]. unfold hist_of, go_to. cbn [visited].
  rewrite Er, El, Ec, Eq, Ep, Nat2Z.id, Eb. f_equal. symmetry. apply list_lookup_total_correct.
  by rewrite lookup_take_lt.
Qed.

Lemma moved_wf s p : ui_wf s -> 0 <= p < history_count s -> ui_wf (s <| history_pos := p |>).
Proof. intros [? ? ? ? ? [] ?] Hp. by split. Qed.

Lemma back_ok s : ui_wf s -> exists s' b, history_go_back s = Ret (s', b) /\ ui_wf s' /\ hist_of s' = back (hist_of s).
Proof.
  intros Hs. pose proof (hw_pos _ _ _ _ (uw_history s Hs)) as Hp. unfold history_go_back, history_can_back, back.
  change (place (hist_of s)) with (Z.to_nat (history_pos s)). case_bool_decide as Hb.
  - destruct (go_ok (s <| history_pos := history_pos s - 1 |>) (Z.to_nat (history_pos s) - 1)) as (s' & E & Hs' & Eh);
      [apply moved_wf; [done|lia]|cbn; lia|cbn; lia|].
    exists s', true. change (s <| history_pos ::= fun p => p - 1 |>) with (s <| history_pos := history_pos s - 1 |>).
    rewrite E, bind_ret, decide_True by lia. by split_and!.
  - rewrite decide_False by lia. by exists s, false.
Qed.

Lemma forward_ok s : ui_wf s -> exists s' b, history_go_forward s = Ret (s', b) /\ ui_wf s' /\ hist_of s' = forward (hist_of s).
Proof.
  intros Hs. pose proof (uw_history s Hs) as Hh. pose proof (hw_pos _ _ _ _ Hh) as Hp. pose proof (hw_count _ _ _ _ Hh) as Hc.
  assert (length (visited (hist_of s)) = Z.to_nat (history_count s)) as Hl.
  { cbn. rewrite length_take, (length_entries _ _ _ _ Hh). lia. }
  unfold history_go_forward, history_can_forward, forward.
  change (place (hist_of s)) with (Z.to_nat (history_pos s)). rewrite Hl. case_bool_decide as Hb.
  - destruct (go_ok (s <| history_pos := history_pos s + 1 |>) (S (Z.to_nat (history_pos s)))) as (s' & E & Hs' & Eh);
      [apply moved_wf; [done|lia]|cbn; lia|cbn; lia|].
    exists s', true. change (s <| history_pos ::= fun p => p + 1 |>) with (s <| history_pos := history_pos s + 1 |>).
    rewrite E, bind_ret, decide_True by lia. by split_and!.
  - rewrite decide_False by lia. by exists s, false.
Qed.

(** ** The history refines a list with a place in it *)

Inductive NavOp := Visit (a : bytes) | Back | Forward.

(** The address bar shows [a]. *)
Definition with_address (a : bytes) (s : UiState) : UiState :=
  s <| url := list_inserts 0 a (url s) |> <| url_len := length a |>.

Definition nav (op : NavOp) (s : UiState) : rust UiState :=
  match op with
  | Visit a => history_push_current (with_address a s)
  | Back => r ← history_go_back s; Ret r.1
  | Forward => r ← history_go_forward s; Ret r.1
  end.
Fixpoint nav_all (ops : list NavOp) (s : UiState) : rust UiState :=
  match ops with [] => Ret s | op :: ops => s ← nav op s; nav_all ops s end.

Definition hist_step (H : Hist) (op : NavOp) : Hist :=
  match op with
  | Visit a => visit {| visited := visited H; place := place H; shown := a |}
  | Back => back H
  | Forward => forward H
  end.

Definition op_ok (op : NavOp) : Prop :=
  match op with Visit a => is_bytes a /\ (0 < length a <= 192)%nat | _ => True end.
#[export] Instance op_ok_dec op : Decision (op_ok op).
Proof. destruct op; apply _. Defined.

Lemma with_address_ok a s : ui_wf s -> op_ok (Visit a) -> ui_wf (with_address a s) /\
  hist_of (with_address a s) = {| visited := visited (hist_of s); place := place (hist_of s); shown := a |}.
Proof.
  intros [[Hu Hn] ? ? ? ? ? ?] [Ha Hl]. destruct (text_row_copy 192 (url s) a Hu Ha ltac:(lia)) as (_ & Hu' & Et). split.
  - split; try done. cbn. split; [done|lia].
  - unfold hist_of, address. cbn. by rewrite Et.
Qed.

Lemma nav_ok op s : ui_wf s -> op_ok op ->
  exists s', nav op s = Ret s' /\ ui_wf s' /\ hist_of s' = hist_step (hist_of s) op.
Proof.
  intros Hs Hop. destruct op as [a| |]; cbn [nav hist_step].
  - destruct (with_address_ok a s Hs Hop) as [Hs1 Eh]. destruct (history_push_ok _ Hs1) as (s' & E & Hs' & E').
    { apply Hop. }
    exists s'. split; [done|]. split; [done|]. by rewrite E', Eh.
  - destruct (back_ok s Hs) as (s' & b & -> & Hs' & E). exists s'. by rewrite bind_ret.
  - destruct (forward_ok s Hs) as (s' & b & -> & Hs' & E). exists s'. by rewrite bind_ret.
Qed.

(** Visiting addresses, going back and going forward, in any order: the arrays
    hold a list of at most sixteen addresses with a place in it, a visit drops
    what lies ahead and the oldest when the list is full, and the address bar
    shows the entry that is gone to.  (A visit to an address of the length of
    the current entry records nothing: [visit].) *)
Theorem history_refines_list ops s : ui_wf s -> Forall op_ok ops ->
  exists s', nav_all ops s = Ret s' /\ ui_wf s' /\ hist_of s' = fold_left hist_step ops (hist_of s).
Proof.
  intros Hs Hops. revert s Hs. induction Hops as [|op ops Hop _ IH]; intros s Hs; [by exists s|].
  destruct (nav_ok op s Hs Hop) as (s1 & E & Hs1 & Eh). destruct (IH s1 Hs1) as (s' & E' & Hs' & Eh').
  exists s'. cbn. rewrite E, bind_ret. rewrite Eh in Eh'. by split_and!.
Qed.

(** ** What else changes the state *)

(** The fields [ui_wf] speaks of. *)
Definition ui_core (s : UiState) :=
  (url s, url_len s, (cursor_x s, cursor_y s, cursor_active s, cursor_btn s, prev_cursor_btn s), settings s,
   (fetch_err s, fetch_err_len s), (wifi_scan_names s, wifi_scan_lens s),
   (url_history s, url_history_lens s, history_count s, history_pos s), static_octet_sel s).

Lemma core_wf s s' : ui_wf s -> ui_core s' = ui_core s -> ui_wf s'.
Proof.
  intros [? ? ? ? ? ? ?] [= E1 E2 E3 E4 E5 E6 E7 E8 E9 E10 E11 E12 E13 E14 E15 E16 E17].
  split; rewrite ?E1, ?E2, ?E3, ?E4, ?E5, ?E6, ?E7, ?E8, ?E9, ?E10, ?E11, ?E12, ?E13, ?E14, ?E15, ?E16, ?E17; done.
Qed.

Lemma with_settings_wf s d : ui_wf s -> settings_wf d -> ui_wf (s <| settings := d |>).
Proof. intros [] Hd. by split. Qed.

Lemma browser_scroll_core s lay n : ui_core (browser_scroll s lay n) = ui_core s.
Proof. unfold browser_scroll. by case_decide. Qed.

Lemma browser_scroll_range s lay n : n <> 0 ->
  (page_scroll_line (browser_scroll s lay n) <= browser_max_scroll_line lay (browser_scroll s lay n))%nat.
Proof. intros Hn. unfold browser_scroll. rewrite decide_False by done. cbv zeta. apply Nat.le_min_r. Qed.

Lemma log_scroll_core l s lay n : ui_core (log_scroll_by_wheel l s lay n) = ui_core s.
Proof. unfold log_scroll_by_wheel. by repeat case_decide. Qed.

Lemma scroll_arm_core sw sh s l n : ui_core (scroll_arm sw sh s l n) = ui_core s.
Proof.
  unfold scroll_arm. case_decide; [done|]. destruct (screen s); try done; [apply browser_scroll_core|apply log_scroll_core].
Qed.

(** ** Typing into a field *)

Lemma text_field_ok cap ch f len : text_row cap f -> 0 <= len <= Z.of_nat cap ->
  exists f' len' used, text_field cap ch f len = Ret (f', len', used) /\ text_row cap f' /\ 0 <= len' <= Z.of_nat cap.
Proof.
  intros Hf Hl. unfold text_field, is_printable. case_decide.
  { exists f, (if decide (0 < len) then len - 1 else len), true. repeat (split; [done|]). case_decide; lia. }
  case_bool_decide as Hc; [|by exists f, len, false]. case_decide; [|by exists f, len, true].
  destruct (text_row_wr cap f (Z.to_nat len) ch Hf) as [-> Hf']; [unfold is_byte; lia|lia|]. rewrite bind_ret.
  eexists _, _, _. split; [done|]. split; [done|lia].
Qed.

Lemma number_field_ok w cap ch v : 0 <= cap < 2 ^ w -> 0 <= v < 2 ^ w -> 0 <= (number_field w cap ch v).1 < 2 ^ w.
Proof.
  intros Hc Hv. assert (0 <= v / 10 <= v) by (split; [apply Z.div_pos; lia|apply Z.div_le_upper_bound; lia]).
  unfold number_field. repeat case_decide; cbn [fst]; lia.
Qed.

Lemma static_octet_ok sel ch o : 0 <= sel -> length o = 4%nat /\ is_bytes o ->
  exists o' used, static_octet sel ch o = Ret (o', used) /\ length o' = 4%nat /\ is_bytes o'.
Proof.
  intros Hs [Hl Hb]. unfold static_octet. rewrite rd_ok, bind_ret by lia.
  pose proof (number_field_ok 8 255 ch (o !!! Z.to_nat (Z.min 3 sel)) ltac:(lia)) as Hn.
  destruct (number_field _ _ _ _) as [v used]. cbn in Hn. rewrite wr_ok, bind_ret by lia.
  eexists _, _. split; [done|]. split; [by rewrite length_insert|]. apply Forall_insert; [done|]. apply Hn.
  apply (Forall_lookup_total_1 _ _ _ Hb). lia.
Qed.

(** After an update of one field, the settings are as good. *)
Ltac keep_settings := split; [split|..]; cbn; first [done|lia|idtac].

Section fields.
Context (d : DeviceSettings) (Hd : settings_wf d).

Lemma ssid_wf f n : text_row 32 f -> 0 <= n <= 32 -> settings_wf (d <| wifi_ssid := f |> <| wifi_ssid_len := n |>).
Proof. destruct Hd as [[] ? ? ?]. intros [? ?] ?. keep_settings. split_and!; try done; unfold usize_max; lia. Qed.
Lemma psk_wf f n : text_row 64 f -> 0 <= n <= 64 -> settings_wf (d <| wifi_psk := f |> <| wifi_psk_len := n |>).
Proof. destruct Hd as [[] ? ? ?]. intros [? ?] ?. keep_settings. split_and!; try done; unfold usize_max; lia. Qed.
Lemma home_wf f n : text_row 120 f -> 0 <= n <= 120 -> settings_wf (d <| home_url := f |> <| home_url_len := n |>).
Proof. destruct Hd as [[] ? ? ?]. intros [? ?] ?. keep_settings. split_and!; try done; unfold is_byte; lia. Qed.
Lemma width_wf v : 0 <= v < 2 ^ 16 -> settings_wf (d <| display_pref_width := v |>).
Proof. destruct Hd as [[] ? ? ?]. intros. keep_settings. Qed.
Lemma height_wf v : 0 <= v < 2 ^ 16 -> settings_wf (d <| display_pref_height := v |>).
Proof. destruct Hd as [[] ? ? ?]. intros. keep_settings. Qed.
Lemma ip_wf o : length o = 4%nat -> is_bytes o -> settings_wf (d <| static_ip := o |>).
Proof. destruct Hd as [[] ? ? ?]. intros. keep_settings. Qed.
Lemma gw_wf o : length o = 4%nat -> is_bytes o -> settings_wf (d <| static_gw := o |>).
Proof. destruct Hd as [[] ? ? ?]. intros. keep_settings. Qed.
Lemma dns_wf o : length o = 4%nat -> is_bytes o -> settings_wf (d <| static_dns := o |>).
Proof. destruct Hd as [[] ? ? ?]. intros. keep_settings. Qed.
Lemma midi_wf : settings_wf (d <| midi_channel ::= next_midi_channel |>).
Proof.
  destruct Hd as [[] ? ? ?]. keep_settings. unfold next_midi_channel, is_byte in *. case_decide; lia.
Qed.
End fields.

Lemma settings_text_key_ok s ch : ui_wf s ->
  exists s' used, settings_text_key s ch = Ret (s', used) /\ ui_wf s'.
Proof.
  intros Hs. pose proof (uw_settings s Hs) as Hd.
  pose proof Hd as [[Sw Sh Sip Sgw Sdns _ _ [Hhl [Hhb _]] _ _ [Hsl [Hsb _]] [Hpl [Hpb _]]] Lh Ls Lp].
  pose proof (uw_octet s Hs) as Ho. 
  assert (forall d (u : bool), settings_wf d -> exists s' (used : bool), Ret (s <| settings := d |>, u) = Ret (s', used) /\ ui_wf s') as K
    by (intros d u Hd'; eexists _, _; split; [done|by apply with_settings_wf]).
  unfold settings_text_key. destruct (settings_text_focus s).
  - by exists s, false.
  - rewrite Hsl. destruct (text_field_ok 32 ch (wifi_ssid (settings s)) (wifi_ssid_len (settings s)))
      as (f & n & u & -> & ? & ?); [done|done|]. rewrite bind_ret. by apply K, ssid_wf.
  - rewrite Hpl. destruct (text_field_ok 64 ch (wifi_psk (settings s)) (wifi_psk_len (settings s)))
      as (f & n & u & -> & ? & ?); [done|done|]. rewrite bind_ret. by apply K, psk_wf.
  - pose proof (number_field_ok 16 7680 ch _ ltac:(lia) Sw) as Hn. destruct (number_field _ _ _ _).
    by apply K, width_wf.
  - pose proof (number_field_ok 16 4320 ch _ ltac:(lia) Sh) as Hn. destruct (number_field _ _ _ _).
    by apply K, height_wf.
  - destruct (text_field_ok 120 ch (home_url (settings s)) (home_url_len (settings s)))
      as (f & n & u & E & ? & ?); [done|done|]. unfold PERSIST_HOME_URL_CAP. rewrite E, bind_ret. by apply K, home_wf.
  - destruct (static_octet_ok (static_octet_sel s) ch _ Ho Sip) as (o & u & -> & ? & ?). rewrite bind_ret.
    by apply K, ip_wf.
  - destruct (static_octet_ok (static_octet_sel s) ch _ Ho Sgw) as (o & u & -> & ? & ?). rewrite bind_ret.
    by apply K, gw_wf.
  - destruct (static_octet_ok (static_octet_sel s) ch _ Ho Sdns) as (o & u & -> & ? & ?). rewrite bind_ret.
    by apply K, dns_wf.
Qed.

(** ** Loading a page *)

Definition desk_wf (k : Desk) : Prop := ui_wf (ui k) /\ (exists L B, net_inv L B (inet k)) /\ statics_wf (html k).

Lemma err_wf s msg n : ui_wf s -> (n <= 80)%nat -> length msg = n ->
  exists e, copy_at (fetch_err s) 0 msg = Ret e /\ length e = 80%nat.
Proof.
  intros Hs Hn <-. pose proof (uw_err s Hs) as [He _]. rewrite copy_at_ok by lia. eexists. split; [done|].
  by rewrite length_inserts.
Qed.

Lemma at_home_ok s : ui_wf s -> exists b, at_home s = Ret b.
Proof.
  intros Hs. pose proof (uw_settings s Hs) as [[? ? ? ? ? ? ? [Hhl _]] Hh _ _]. pose proof (uw_url s Hs) as [[Hu _] _].
  unfold at_home. case_decide; [|by eexists]. rewrite !sub_ok, !bind_ret by (rewrite ?Hu, ?Hhl; lia). by eexists.
Qed.

Lemma start_fetch_ui inet_on k : desk_wf k -> exists k', start_browser_fetch inet_on k = Ret k' /\ desk_wf k'.
Proof.
  intros (Hs & (L & B & Hn) & Hh). unfold start_browser_fetch.
  assert (exists s, (if history_skip_push (ui k) then Ret ((ui k) <| history_skip_push := false |>)
    else history_push_current (ui k)) = Ret s /\ ui_wf s) as (s & -> & Hs1).
  { destruct (history_skip_push (ui k)).
    - eexists. split; [done|]. by eapply core_wf.
    - destruct (decide (url_len (ui k) = 0%nat)) as [E|E].
      + exists (ui k). unfold history_push_current. by rewrite decide_True.
      + destruct (history_push_ok (ui k) Hs) as (s & E' & Hs' & _); [lia|]. by exists s. }
  rewrite bind_ret. case_decide; [eexists; split; [done|]; split; [done|]; split; [by exists L, B|done]|].
  destruct inet_on; cbn [negb].
  - pose proof (uw_url s Hs1) as [[Hu _] ?]. rewrite sub_ok, bind_ret by lia.
    pose proof (start_fetch_inv (slice (url s) 0 (url_len s)) L B B (inet k) Hn) as Hf.
    destruct (start_fetch _ _) as [i|]; [|done]. rewrite bind_ret. eexists. split; [done|].
    split; [by eapply core_wf|]. split; [by exists false, B|done].
  - destruct (at_home_ok s Hs1) as [[|] ->]; rewrite bind_ret.
    + pose proof (format_document_ok OFFLINE_PAGE (text_primary (display_theme (settings s))) (html k)) as Hf.
      destruct (format_document _ _ _) as [r|]; [|destruct Hf; [|done]].
      2: { apply (bool_decide_unpack (is_bytes _)). by vm_compute. }
      rewrite bind_ret. eexists. split; [done|]. split; [|split; [by exists L, B|]].
      * destruct Hs1 as [? ? ? [? ?] ? ? ?]. split; try done. cbn. split; [done|lia].
      * apply Hf; [|done]. apply (bool_decide_unpack (is_bytes _)). by vm_compute.
    + pose proof (uw_err s Hs1) as [He _].
      destruct (err_wf s (take (Nat.min (length NET_OFFLINE) (length (fetch_err s))) NET_OFFLINE) 11 Hs1)
        as (e & -> & Hl); [lia|rewrite He; reflexivity|]. rewrite bind_ret. eexists. split; [done|].
      split; [|split; [by exists L, B|done]].
      destruct Hs1 as [? ? ? [? ?] ? ? ?]. split; try done. cbn. rewrite He. split; [done|cbn; lia].
Qed.

(** ** The keys *)

Lemma field_key_ok ch s : ui_wf s -> exists s', field_key ch s = Ret s' /\ ui_wf s'.
Proof.
  intros Hs. unfold field_key. destruct (settings_text_key_ok s ch Hs) as (s' & used & -> & Hs'). rewrite bind_ret.
  eexists. split; [done|]. destruct used; [by eapply core_wf|done].
Qed.

Lemma backspace_key_ok s : ui_wf s -> exists s', backspace_key s = Ret s' /\ ui_wf s'.
Proof.
  intros Hs. unfold backspace_key. destruct (screen s); try (by exists s); [|by apply field_key_ok].
  eexists. split; [done|]. case_decide; [|done]. destruct Hs as [[? ?] ? ? ? ? ? ?]. split; try done. cbn.
  split; [done|lia].
Qed.

Lemma char_key_ok ch s : ui_wf s -> exists s', char_key ch s = Ret s' /\ ui_wf s'.
Proof.
  intros Hs. unfold char_key, is_printable. destruct (screen s); try (by exists s); [|by apply field_key_ok].
  pose proof Hs as [[Hu Hn] ? ? ? ? ? ?]. case_bool_decide as Hc; [|by exists s]. cbn [andb].
  case_bool_decide as Hl; [|by exists s]. rewrite (proj1 Hu) in Hl.
  destruct (text_row_wr 192 (url s) (url_len s) ch Hu) as [-> Hu']; [unfold is_byte; lia|lia|]. rewrite bind_ret.
  eexists. split; [done|]. split; try done. cbn. split; [done|lia].
Qed.

Lemma function_key_wf n s : ui_wf s -> ui_wf (function_key n s).
Proof.
  intros Hs. unfold function_key.
  destruct n as [|[[[]|[]|]|[[]|[]|]|]|]; try done; repeat case_match; try done; try (by eapply core_wf).
  eapply core_wf; [apply (with_settings_wf s), (midi_wf _ (uw_settings s Hs)); done|done].
Qed.

Section keys.
Context (sw sh : Z) (inet_on : bool).

Lemma desk_core k s : desk_wf k -> ui_core s = ui_core (ui k) -> desk_wf (k <| ui := s |>).
Proof. intros [Hs ?] E. split; [by eapply core_wf|done]. Qed.

Lemma scroll_key_wf d n k : desk_wf k -> desk_wf (scroll_key sw sh d n k).
Proof.
  intros Hk. apply desk_core; [done|]. case_decide; [apply browser_scroll_core|apply scroll_arm_core].
Qed.

Lemma home_key_wf k : desk_wf k -> desk_wf (home_key sw sh k).
Proof. intros Hk. unfold home_key. destruct (screen (ui k)); apply desk_core; try done; apply scroll_arm_core. Qed.
Lemma end_key_wf k : desk_wf k -> desk_wf (end_key sw sh k).
Proof. intros Hk. unfold end_key. destruct (screen (ui k)); apply desk_core; try done; apply scroll_arm_core. Qed.

Lemma notice_core s : ui_core (dismiss_epilepsy_notice s) = ui_core s /\ ui_core (dismiss_california_age_notice s) = ui_core s.
Proof. unfold dismiss_epilepsy_notice, dismiss_california_age_notice. split; by case_decide. Qed.

Lemma arm_key_ok ev k : desk_wf k -> exists k', arm_key sw sh inet_on ev k = Ret k' /\ desk_wf k'.
Proof.
  intros Hk. pose proof Hk as [Hs Hrest]. destruct (notice_core (ui k)) as [N1 N2]. unfold arm_key. cbv zeta.
  assert (forall m : rust UiState, (exists s', m = Ret s' /\ ui_wf s') ->
    exists k', (s ← m; Ret (k <| ui := s |>)) = Ret k' /\ desk_wf k') as Hui.
  { intros m (s' & -> & Hs'). rewrite bind_ret. eexists. split; [done|]. by split. }
  destruct (screen (ui k)) eqn:Esc.
  1,2: eexists; split; [done|]; case_match; [by apply desk_core|done].
  all: destruct ev; try (eexists; split; [done|]); rewrite ?Esc;
    auto using scroll_key_wf, home_key_wf, end_key_wf, backspace_key_ok, char_key_ok;
    try (split; [by apply function_key_wf|done]); case_decide; try discriminate;
    first [by apply start_fetch_ui|by apply desk_core|done].
Qed.

(** Whatever keys arrive: each is handled without an access out of range, and
    the state of the interface, of the stack and of the renderer stay well
    formed. *)
Theorem process_arm_keys_safe evs k : desk_wf k ->
  exists k', process_arm_keys sw sh inet_on evs k = Ret k' /\ desk_wf k'.
Proof.
  revert k. induction evs as [|ev evs IH]; intros k Hk; [by exists k|].
  destruct (arm_key_ok ev k Hk) as (k1 & E & Hk1). destruct (IH k1 Hk1) as (k' & E' & Hk').
  exists k'. cbn. by rewrite E, bind_ret.
Qed.
End keys.

(** ** The pointer of the ARM target *)

Lemma sync_primary_ok p s width height : ui_wf s -> 0 < width -> 0 < height ->
  exists s', sync_primary_cursor p s width height = Ret s' /\ ui_wf s' /\ 0 <= mx s' < width /\ 0 <= my s' < height.
Proof.
  intros [? (Hx & Hy & Ha & Hb & Hp) ? ? ? ? ?] Hw Hh. unfold sync_primary_cursor.
  rewrite !clamp_ok, !bind_ret by lia. eexists. split; [done|]. split; [|cbn -[Z.max Z.min]; lia].
  split; try done. cbn. rewrite !length_insert. by split_and!.
Qed.

(** ** The address bar *)

Lemma type_char s c : ui_wf s -> screen s = Browser -> (url_len s <= 191)%nat -> is_printable c = true ->
  exists s', char_key c s = Ret s' /\ ui_wf s' /\ screen s' = Browser /\ (url_len s' <= 191)%nat /\
    address s' = take 191 (address s ++ [c]).
Proof.
  intros Hs Esc Hl Hc. pose proof Hs as [[Hu Hn] ? ? ? ? ? ?]. unfold char_key. rewrite Esc, Hc. cbn [andb].
  assert (length (address s) = url_len s) as Ha by (unfold address; rewrite length_take, (proj1 Hu); lia).
  unfold is_printable in Hc. apply bool_decide_eq_true in Hc. rewrite (proj1 Hu). case_bool_decide as Hr.
  - destruct (text_row_wr 192 (url s) (url_len s) c Hu) as [-> Hu']; [unfold is_byte; lia|lia|]. rewrite bind_ret.
    eexists. split; [done|]. split; [split; try done; cbn; split; [done|lia]|]. split; [done|]. split; [cbn; lia|].
    unfold address. cbn. rewrite take_insert_snoc by (rewrite (proj1 Hu); lia). symmetry. apply take_ge.
    rewrite length_app. fold (address s). rewrite Ha. cbn. lia.
  - exists s. repeat (split; [done|]). symmetry. apply take_app_length'. lia.
Qed.

(** In the browser, typing printable characters appends them to the address, up
    to 191. *)
Theorem typed_address sw sh inet_on text k : desk_wf k -> screen (ui k) = Browser -> (url_len (ui k) <= 191)%nat ->
  Forall (fun c => is_printable c = true) text ->
  exists k', process_arm_keys sw sh inet_on (map Char text) k = Ret k' /\ desk_wf k' /\
    address (ui k') = take 191 (address (ui k) ++ text).
Proof.
  intros Hk Esc Hl Ht. revert k Hk Esc Hl. induction Ht as [|c text Hc _ IH]; intros k Hk Esc Hl.
  { exists k. split; [done|]. split; [done|]. rewrite app_nil_r. symmetry. apply take_ge. unfold address.
    rewrite length_take. lia. }
  destruct (type_char (ui k) c (proj1 Hk) Esc Hl Hc) as (s' & E & Hs' & Esc' & Hl' & Ea).
  destruct (IH (k <| ui := s' |>)) as (k' & E' & Hk' & Ea'); [by split; [|apply Hk]|done|done|].
  exists k'. cbn [map process_arm_keys]. unfold arm_key at 1. rewrite Esc, E, !bind_ret. split; [done|]. split; [done|].
  rewrite Ea'. cbn [ui]. change (ui (k <| ui := s' |>)) with s'. rewrite Ea.
  change (address (ui k) ++ c :: text) with (address (ui k) ++ [c] ++ text). rewrite app_assoc.
  generalize (address (ui k) ++ [c]) as l. intros l. clear. rewrite !take_app, take_take, Nat.min_id, length_take.
  f_equal. destruct (decide (length l <= 191)%nat); [by rewrite Nat.min_r by lia|].
  rewrite Nat.min_l by lia. by replace (191 - length l)%nat with (191 - 191)%nat by lia.
Qed.

(** ** The first state *)

Lemma start_all_ok size offset step cells : 0 < size ->
  exists l, start_all size offset step cells = Ret l /\ length l = length cells.
Proof.
  intros Hs. induction cells as [|c cells (l & IH & Hl)]; [by exists []|].
  cbn [start_all]. unfold start_at. rewrite clamp_ok, bind_ret, IH, bind_ret by lia. eexists. split; [done|]. cbn. lia.
Qed.

Lemma home_bytes_ok d cap : settings_wf d -> (120 <= cap)%nat ->
  let '(n, src) := home_bytes d cap in length src = n /\ (n <= 120)%nat /\ is_bytes src.
Proof.
  intros [[? ? ? ? ? ? ? [Hl [Hb _]]] ? ? ?] Hc. unfold home_bytes. cbv zeta.
  assert (length DEFAULT_HOME_URL <= 120)%nat as Hd by (apply Nat.leb_le; vm_compute; reflexivity).
  assert (is_bytes DEFAULT_HOME_URL) as Hdb by (apply (bool_decide_unpack _); by vm_compute).
  case_decide; rewrite length_take; (split; [lia|]; split; [lia|]; by apply Forall_take).
Qed.

Lemma new_state_wf width height wl c1 c2 c3 c4 c5 c6 au caps d : 0 < width -> 0 < height -> settings_wf d ->
  exists s, UiState_new_with_settings width height wl c1 c2 c3 c4 c5 c6 au caps d = Ret s /\ ui_wf s.
Proof.
  intros Hw Hh Hd. unfold UiState_new_with_settings. pose proof (home_bytes_ok d 192 Hd ltac:(lia)) as Hb.
  destruct (home_bytes d 192) as [n src]. destruct Hb as (Hl & Hn & Hb).
  assert (text_row 192 (replicate 192 0)) as Hz.
  { split; [by rewrite length_replicate|]. apply Forall_replicate. by_decide. }
  destruct (text_row_copy 192 _ src Hz Hb ltac:(lia)) as (-> & Hu & Et). rewrite bind_ret.
  destruct (start_all_ok width 6 22 (map (fun i => i mod 4) (seqZ 0 12)) Hw) as (xs & -> & Hx).
  destruct (start_all_ok height 18 20 (map (fun i => i / 4) (seqZ 0 12)) Hh) as (ys & -> & Hy).
  rewrite !bind_ret. eexists. split; [reflexivity|].
  split; cbn -[list_inserts replicate seqZ]; try done.
  - split; [done|lia].
  - split; [by rewrite length_replicate|lia].
  - split; [by rewrite length_replicate|]. split; [|done]. apply Forall_replicate.
    split; [by rewrite length_replicate|]. apply Forall_replicate. by_decide.
  - destruct (text_row_copy 192 _ (take n (list_inserts 0 src (replicate 192 0))) Hz) as (_ & Hr & _);
      [by apply (text_row_take 192)|rewrite length_take; lia|].
    split; [| |lia..].
    + split; [by rewrite length_insert, length_replicate|]. apply Forall_insert; [|done]. by apply Forall_replicate.
    + split; [done|]. constructor; [lia|]. apply Forall_replicate. lia.
Qed.
