(* ===== verification/UiClick.v ===== *)
(** * The mouse ([kernel/src/gfx.rs], [handle_click_at])

    What a press of the left button at a point does: the tabs, the navigation
    bar, the rows of the settings screen.  The settings rows are a list, each
    with its action and the distance to the next; the source goes through them
    in the same order.  [UiClickOk.v] has the theorems. *)

From S2P Require Import Prelude Frame Settings Log NetStack Ui.

(** ** Buttons *)

(** The button of the photosensitivity notice. *)
Definition epilepsy_notice_geometry (w h : Z) : rust (rect * rect) :=
  card_w ← clamp (w * 3 / 4) 320 620;
  let card_h := Z.max 230 (Z.min (52 + 9 * 13 + 22 + 34 + 36) (sat_sub h 36)) in
  let card_x := sat_sub w card_w / 2 in
  let card_y := sat_sub h card_h / 2 in
  let btn_w := Z.max 200 (Z.min 340 (sat_sub card_w 56)) in
  Ret ((card_x, card_y, card_w, card_h),
       (card_x + (card_w - btn_w) / 2, card_y + card_h - 34 - 22, btn_w, 34)).

Definition ca_age_notice_geometry (w h : Z) : rust (rect * rect) :=
  card_w ← clamp (w * 3 / 4) 320 640;
  let card_h := Z.max 248 (Z.min (48 + 11 * 13 + 22 + 34 + 36) (sat_sub h 36)) in
  let card_x := sat_sub w card_w / 2 in
  let card_y := sat_sub h card_h / 2 in
  let btn_w := Z.max 220 (Z.min 400 (sat_sub card_w 56)) in
  Ret ((card_x, card_y, card_w, card_h),
       (card_x + (card_w - btn_w) / 2, card_y + card_h - 34 - 22, btn_w, 34)).

Definition inside (r : rect) (mx my : Z) : bool :=
  let '(x, y, w, h) := r in bool_decide (x <= mx < x + w /\ y <= my < y + h).

(** The five buttons of the navigation bar, from the left. *)
Definition url_bar_button_hit (lay : Layout) (mx my : Z) : option Z :=
  if decide (h lay <= bar_y lay + bar_h lay) then None
  else
    let btn := url_bar_btn_width (w lay) in
    if decide (my < bar_y lay + 6 \/ bar_y lay + sat_sub (bar_h lay) 6 <= my) then None
    else
      let hit i := bool_decide (12 + i * (btn + 8) <= mx < 12 + i * (btn + 8) + btn) in
      snd <$> list_find hit (seqZ 0 URL_BAR_BTN_COUNT).

Definition static_ip_octet_from_mx (mx base_x block_w : Z) : Z :=
  if decide (mx <= base_x) then 0 else wrap8 (Z.min 3 (sat_sub mx base_x / block_w)).

(** ** The tabs *)

Definition click_tab (s : UiState) (lay : Layout) (mx my : Z) : option UiState :=
  let ty := tab_y lay + 4 in
  let th := wrap64 (tab_h lay - 8) in
  if decide (ty <= my < wrap64 (ty + th)) then
    if decide (TAB_EVE_X <= mx < TAB_EVE_X + TAB_EVE_W) then
      Some (s <| screen := Browser |> <| settings_text_focus := NoFocus |>)
    else if decide (TAB_SET_X <= mx < TAB_SET_X + TAB_SET_W) then Some (s <| screen := SettingsTab |>)
    else if decide (disk_install_available s = true /\ TAB_INS_X <= mx < TAB_INS_X + TAB_INS_W) then
      Some (s <| screen := DiskInstall |>)
    else
      let lx := tab_log_x s in
      if decide (lx + TAB_LOG_W + 8 < w lay /\ lx <= mx < lx + TAB_LOG_W) then
        Some (s <| screen := LogTab |> <| settings_text_focus := NoFocus |>)
      else None
  else None.

(** ** The navigation bar *)

(** A step through the history loads the page again without recording it. *)
Definition after_step (r : UiState * bool) : UiState :=
  let '(s, moved) := r in
  if moved : bool then s <| history_skip_push := true |> <| inet_reload_request := true |> <| status_dirty := true |>
  else s.

Definition click_bar (s : UiState) (i : Z) : rust UiState :=
  match i with
  | 0 => r ← history_go_back s; Ret (after_step r)
  | 1 => r ← history_go_forward s; Ret (after_step r)
  | 2 => Ret (s <| history_skip_push := true |> <| inet_reload_request := true |> <| status_dirty := true |>)
  | 3 =>
      let '(n, src) := home_bytes (settings s) (length (url s)) in
      u ← copy_at (url s) 0 src;
      Ret (s <| url := u |> <| url_len := n |> <| inet_reload_request := true |>
             <| chrome_only_dirty := true |> <| status_dirty := true |>)
  | _ => Ret (s <| inet_reload_request := true |> <| status_dirty := true |>)
  end.

(** ** The log and settings sub-tabs *)

Definition set_log_subtab (s : UiState) (t : LogSubtab) : UiState :=
  if decide (log_subtab s = t) then s
  else s <| log_subtab := t |> <| log_scroll_line := 0%nat |> <| log_stick_to_bottom := true |> <| content_dirty := true |>.

Definition click_log (s : UiState) (lay : Layout) (mx my : Z) : option UiState :=
  let sub_y := content_top lay + LOG_SUBTAB_Y_OFF in
  let ser_x := 36 + LOG_SUBTAB_W_LIVE + LOG_SUBTAB_GAP in
  if decide (sub_y <= my < sub_y + LOG_SUBTAB_H) then
    if decide (36 <= mx < 36 + LOG_SUBTAB_W_LIVE) then Some (set_log_subtab s Live)
    else if decide (ser_x <= mx < ser_x + LOG_SUBTAB_W_SERIAL) then Some (set_log_subtab s Serial)
    else None
  else None.

Definition set_settings_subtab (s : UiState) (t : SettingsSubtab) : UiState :=
  if decide (settings_subtab s = t) then s
  else s <| settings_subtab := t |> <| settings_scroll_px := 0 |> <| content_dirty := true |>.

Definition click_subtab (s : UiState) (lay : Layout) (mx hit_my : Z) : option UiState :=
  let sub_y := content_top lay + SETTINGS_SUBTAB_OFF in
  let ix := 36 + SETTINGS_SUBTAB_PILL_W_GEN + SETTINGS_SUBTAB_PILL_GAP in
  if decide (sub_y <= hit_my < sub_y + SETTINGS_SUBTAB_H /\ 36 <= mx) then
    if decide (mx < 36 + SETTINGS_SUBTAB_PILL_W_GEN) then Some (set_settings_subtab s General)
    else if decide (ix <= mx < ix + SETTINGS_SUBTAB_PILL_W_INP) then Some (set_settings_subtab s Input)
    else None
  else None.

(** ** The rows of the settings screen *)

Definition upd (f : DeviceSettings -> DeviceSettings) (s : UiState) : UiState := s <| settings ::= f |>.
Definition dirty (s : UiState) : UiState := s <| content_dirty := true |>.
Definition focus (f : SettingsTextFocus) (s : UiState) : UiState := s <| settings_text_focus := f |>.

(** The address becomes the home page. *)
Definition set_home (s : UiState) : rust UiState :=
  let n := Nat.min (url_len s) PERSIST_HOME_URL_CAP in
  src ← sub (url s) 0 n;
  u ← copy_at (home_url (settings s)) 0 src;
  Ret (dirty (upd (fun d => d <| home_url := u |> <| home_url_len := wrap8 (Z.of_nat n) |>) s)).

(** The left half of a bookmark's row opens it, the right half stores the address. *)
Definition bookmark_row (left : bool) (slot : nat) (s : UiState) : rust UiState :=
  if left then
    len ← rd (bookmark_len (settings s)) slot;
    let n := Z.to_nat len in
    if decide (0 < n <= PERSIST_BOOKMARK_URL_CAP)%nat then
      let nt := Nat.min n (length (url s)) in
      row ← rd (bookmark_url (settings s)) slot;
      src ← sub row 0 nt;
      u ← copy_at (url s) 0 src;
      Ret (dirty (s <| url := u |> <| url_len := nt |> <| inet_reload_request := true |>
                    <| chrome_only_dirty := true |> <| status_dirty := true |>))
    else Ret (dirty s)
  else
    let n := Nat.min (url_len s) PERSIST_BOOKMARK_URL_CAP in
    src ← sub (url s) 0 n;
    row ← rd (bookmark_url (settings s)) slot;
    row ← copy_at row 0 src;
    rows ← wr (bookmark_url (settings s)) slot row;
    lens ← wr (bookmark_len (settings s)) slot (wrap8 (Z.of_nat n));
    Ret (dirty (upd (fun d => d <| bookmark_url := rows |> <| bookmark_len := lens |>) s)).

(** A network found by the scan. *)
Definition wifi_slot_row (slot : nat) (s : UiState) : rust UiState :=
  len ← rd (wifi_scan_lens s) slot;
  let n := Z.to_nat len in
  if decide (Z.of_nat slot < wifi_scan_count s /\ (0 < n <= 32)%nat) then
    name ← rd (wifi_scan_names s) slot;
    src ← sub name 0 n;
    u ← copy_at (wifi_ssid (settings s)) 0 src;
    Ret (focus WifiSsid (upd (fun d => d <| wifi_ssid := u |> <| wifi_ssid_len := Z.of_nat n |>) s))
  else Ret s.

(** A row of the static addresses; the octet under the pointer is selected. *)
Definition static_row (f : SettingsTextFocus) (octet : Z) (s : UiState) : rust UiState :=
  Ret (dirty ((focus f s) <| static_octet_sel := octet |>)).

Definition Row : Type := Z * (UiState -> rust UiState).
Definition R : Z := SETTINGS_ROW_H + SETTINGS_GAP.

(** Each row with the distance to the next. *)
Definition general_rows (s : UiState) (left : bool) (octet : Z) : list Row :=
  [(R, fun s => Ret (dirty (upd (fun d => d <| display_theme ::= DisplayTheme_next |>) s)));
   (R, fun s => Ret (dirty (focus DisplayWidth s)));
   (R, fun s => Ret (dirty (focus DisplayHeight s)));
   (R, fun s => Ret (dirty (upd (fun d => d <| display_use_custom_resolution ::= negb |>) s)));
   (R + 14, fun s => Ret (dirty (if settings_persist_supported (platform_caps s)
                                 then s <| settings_save_requested := true |> else s)));
   (R, fun s => Ret (dirty (focus HomeUrl s)));
   (R, set_home)] ++
  map (fun slot => ((if decide (slot = 7%nat) then R + 14 else R), bookmark_row left slot))
    (seq 0 PERSIST_BOOKMARK_SLOTS) ++
  [(R, fun s => Ret (upd (fun d => d <| wifi_enabled ::= negb |>) s));
   (R, fun s => Ret (wifi_demo_scan s));
   (R, wifi_slot_row 0); (R, wifi_slot_row 1);
   ((if wifi_scan_demo s then R + 12 else R), wifi_slot_row 2);
   (R, fun s => Ret (focus WifiSsid s));
   (R, fun s => Ret (upd (fun d => d <| wifi_sec ::= WifiSecurity_next |>) s));
   (R, fun s => Ret (focus WifiPsk s));
   (R, fun s => Ret (upd (fun d => d <| nic ::= NicChoice_next |>) s));
   (R, fun s => Ret (upd (fun d => d <| ip_config ::= IpConfig_next |>) s))] ++
  (if decide (ip_config (settings s) = Static) then
     [(R, static_row StaticIp octet); (R, static_row StaticGw octet); (R, static_row StaticDns octet)]
   else []) ++
  [(R + SETTINGS_SEC_SKIP, fun s => Ret (upd (fun d => d <| internet_stack_enabled ::= negb |>) s));
   (R + SETTINGS_SEC_SKIP, fun s => Ret (upd (fun d => d <| bluetooth_enabled ::= negb |>) s));
   (R, fun s => Ret (upd (fun d => d <| midi_enabled ::= negb |>) s));
   (R, fun s => Ret (upd (fun d => d <| midi_usb_enabled ::= negb |>) s));
   (R, fun s => Ret (upd (fun d => d <| browser_script_runtime_enabled ::= negb |>) s))].

Definition input_rows : list Row :=
  [(R, fun s => Ret (upd (fun d => d <| usb_polling_enabled ::= negb |>) s))] ++
  replicate 4 (R, fun s => Ret s) ++
  [(R, fun s => Ret (upd (fun d => d <| cursor_emoji_preset ::= next_preset |>) s))].

(** The first row under the pointer, from [y] down; [rw] is the width of the rows. *)
Fixpoint row_at (rows : list Row) (rw y mx my : Z) : option (UiState -> rust UiState) :=
  match rows with
  | [] => None
  | (dy, act) :: rows =>
      if inside (36, y, rw, SETTINGS_ROW_H) mx my then Some act else row_at rows rw (y + dy) mx my
  end.

Definition settings_rows (s : UiState) (lay : Layout) (mx : Z) : list Row :=
  match settings_subtab s with
  | General =>
      general_rows s (bool_decide (mx < 36 + sat_sub (w lay) 72 / 2))
        (static_ip_octet_from_mx mx (Z.min 200 (sat_sub (w lay) 160)) 48)
  | Input => input_rows
  end.

Definition click_settings (s : UiState) (lay : Layout) (mx my : Z) : rust (UiState * bool) :=
  let hit_my := my + settings_scroll_px s in
  match click_subtab s lay mx hit_my with
  | Some s => Ret (s, true)
  | None =>
      match row_at (settings_rows s lay mx) (sat_sub (w lay) 72) (settings_first_row_y (content_top lay)) mx hit_my with
      | Some act => s ← act s; Ret (s, true)
      | None =>
          let '(reboot, shutdown) := settings_power_button_rects s lay in
          if inside reboot mx hit_my then Ret (s <| power_reboot_request := true |>, true)
          else if inside shutdown mx hit_my then Ret (s <| power_shutdown_request := true |>, true)
          else Ret (s, false)
      end
  end.

(** ** The click *)

Definition click_notice (geometry : rust (rect * rect)) (dismiss : UiState -> UiState) (s : UiState) (mx my : Z) :
    rust (UiState * bool) :=
  '(_, btn) ← geometry;
  Ret (if inside btn mx my then (dismiss s, true) else (s, false)).

(** On a screen of [sw] by [sh] pixels. *)
Definition handle_click_at (s : UiState) (sw sh mx my : Z) : rust (UiState * bool) :=
  let lay := layout s sw sh in
  if decide (screen s = EpilepsyWarning) then
    click_notice (epilepsy_notice_geometry (w lay) (h lay)) dismiss_epilepsy_notice s mx my
  else if decide (screen s = CaliforniaAgeNotice) then
    click_notice (ca_age_notice_geometry (w lay) (h lay)) dismiss_california_age_notice s mx my
  else
    match click_tab s lay mx my with
    | Some s => Ret (s, true)
    | None =>
        match screen s with
        | DiskInstall =>
            Ret (if decide (disk_install_phase s = Idle) then
                   if inside (disk_install_button_rect lay) mx (my + disk_install_scroll_px s)
                   then (s <| disk_install_start_request := true |>, true) else (s, false)
                 else (s, false))
        | Browser =>
            match url_bar_button_hit lay mx my with
            | Some i => s ← click_bar s i; Ret (s, true)
            | None => Ret (s, false)
            end
        | LogTab => Ret (match click_log s lay mx my with Some s => (s, true) | None => (s, false) end)
        | SettingsTab => click_settings s lay mx my
        | _ => Ret (s, false)
        end
    end.
