(* ===== verification/UiClickOk.v ===== *)
(** * What a click does to the state of the interface

    [handle_click_at] returns for every point of every screen and keeps the
    invariant of [UiOk.v].  The examples at the end are three places where what
    a click hits is not what is drawn there. *)

From S2P Require Import Prelude Frame Settings Log NetStack Ui UiClick UiKeys UiOk.

(** ** Updates of the settings *)

Section fields.
Context (d : DeviceSettings) (Hd : settings_wf d).

Lemma bookmarks_wf rows lens : length rows = 8%nat -> Forall (text_row 30) rows -> length lens = 8%nat -> is_bytes lens ->
  settings_wf (d <| bookmark_url := rows |> <| bookmark_len := lens |>).
Proof. destruct Hd as [[] ? ? ?]. intros. keep_settings. Qed.

Lemma preset_wf : settings_wf (d <| cursor_emoji_preset ::= next_preset |>).
Proof.
  destruct Hd as [[] ? ? ?]. keep_settings. unfold next_preset, is_byte.
  pose proof (Z.mod_pos_bound (cursor_emoji_preset d + 1) 8). lia.
Qed.
End fields.

Lemma settings_result s s' d : ui_wf s -> settings_wf d -> ui_core s' = ui_core (s <| settings := d |>) -> ui_wf s'.
Proof. intros Hs Hd E. by eapply core_wf; [apply (with_settings_wf s)|]. Qed.

(** ** The rows of the settings screen *)

Definition row_ok (r : Row) : Prop := forall s, ui_wf s -> exists s', r.2 s = Ret s' /\ ui_wf s'.

Lemma core_row dy f : (forall s, ui_core (f s) = ui_core s) -> row_ok (dy, fun s => Ret (f s)).
Proof. intros Hf s Hs. eexists. split; [done|]. by eapply core_wf. Qed.

(** A row that changes the settings and marks the screen. *)
Lemma settings_row dy f g : (forall d, settings_wf d -> settings_wf (f d)) -> (forall s, ui_core (g s) = ui_core s) ->
  row_ok (dy, fun s => Ret (g (upd f s))).
Proof.
  intros Hf Hg s Hs. eexists. split; [done|]. cbn. eapply core_wf; [|apply Hg].
  apply (with_settings_wf s); [done|]. by apply Hf, (uw_settings s).
Qed.

(** Fields of the settings without a range. *)
Ltac free_field := intros d [[] ? ? ?]; by keep_settings.

Lemma set_home_ok dy : row_ok (dy, set_home).
Proof.
  intros s Hs. pose proof (uw_settings s Hs) as Hd. pose proof Hd as [[? ? ? ? ? ? ? [Hl [Hb _]]] ? ? ?].
  pose proof (uw_url s Hs) as [[Hu Hub] ?]. unfold set_home, PERSIST_HOME_URL_CAP. cbn [snd].
  rewrite sub_ok, bind_ret by lia.
  set (src := slice (url s) 0 _).
  assert (length src = Nat.min (url_len s) 120) as Hsl by (unfold src; rewrite length_slice; lia).
  destruct (text_row_copy 120 (home_url (settings s)) src) as (-> & Hr & _);
    [done|unfold src; rewrite slice_0; by apply Forall_take|lia|]. rewrite bind_ret.
  eexists. split; [done|]. eapply (settings_result s); [exact Hs| |reflexivity].
  replace (wrap8 (Z.of_nat (Nat.min (url_len s) 120))) with (Z.of_nat (Nat.min (url_len s) 120))
    by (unfold wrap; rewrite Z.mod_small; lia).
  apply home_wf; [done|done|lia].
Qed.

Lemma with_url_wf s src : ui_wf s -> is_bytes src -> (length src <= 192)%nat ->
  ui_wf (s <| url := list_inserts 0 src (url s) |> <| url_len := length src |>).
Proof.
  intros Hs Hb Hl. destruct (text_row_copy 192 (url s) src (proj1 (uw_url s Hs)) Hb Hl) as (_ & Hu & _).
  destruct Hs. by split.
Qed.

Lemma bookmark_row_ok dy left slot : (slot < 8)%nat -> row_ok (dy, bookmark_row left slot).
Proof.
  intros Hslot s Hs. pose proof (uw_settings s Hs) as Hd.
  pose proof Hd as [[? ? ? ? ? ? ? ? [Hbl Fb] [Hll Fl]] ? ? ?].
  pose proof (uw_url s Hs) as [[Hu Hub] ?]. unfold bookmark_row, PERSIST_BOOKMARK_URL_CAP. cbn [snd].
  destruct (lookup_lt_is_Some_2 (bookmark_url (settings s)) slot) as [row Er]; [lia|].
  pose proof (Forall_lookup_1 _ _ _ _ Fb Er) as [Hrl Hrb]. cbn in Hrl, Hrb.
  destruct left.
  - rewrite rd_ok, bind_ret by lia. cbv zeta. case_decide as Hn; [|eexists; split; [done|]; by eapply core_wf].
    rewrite Hu, Nat.min_l by lia. set (n := Z.to_nat _) in *.
    rewrite (rd_lookup _ _ _ Er), bind_ret, sub_ok, bind_ret by lia.
    assert (length (slice row 0 n) = n) as Hsl by (rewrite length_slice; lia).
    rewrite copy_at_ok, bind_ret by lia. eexists. split; [done|].
    eapply core_wf; [apply (with_url_wf s (slice row 0 n)); [done|rewrite slice_0; by apply Forall_take|lia]|].
    rewrite Hsl. done.
  - rewrite sub_ok, bind_ret by lia. rewrite (rd_lookup _ _ _ Er), bind_ret.
    set (src := slice (url s) 0 _).
    assert (length src = Nat.min (url_len s) 30) as Hsl by (unfold src; rewrite length_slice; lia).
    destruct (text_row_copy 30 row src) as (-> & Hr & _); [done|unfold src; rewrite slice_0; by apply Forall_take|lia|].
    rewrite bind_ret, !wr_ok, !bind_ret by lia. eexists. split; [done|]. eapply (settings_result s); [exact Hs| |reflexivity].
    apply bookmarks_wf; [done|by rewrite length_insert|by apply Forall_insert|by rewrite length_insert|].
    apply Forall_insert; [done|]. apply Z.mod_pos_bound. lia.
Qed.

Lemma wifi_slot_row_ok dy slot : (slot < 3)%nat -> row_ok (dy, wifi_slot_row slot).
Proof.
  intros Hslot s Hs. pose proof (uw_settings s Hs) as Hd. pose proof Hd as [[? ? ? ? ? ? ? ? ? ? [Hl [Hb _]]] ? ? ?].
  pose proof (uw_wifi s Hs) as (Hnl & Fn & Hll). unfold wifi_slot_row. cbn [snd].
  rewrite rd_ok, bind_ret by lia. cbv zeta. case_decide as Hn; [|by exists s].
  destruct (lookup_lt_is_Some_2 (wifi_scan_names s) slot) as [name En]; [lia|].
  pose proof (Forall_lookup_1 _ _ _ _ Fn En) as [Hml Hmb]. set (n := Z.to_nat _) in *.
  rewrite (rd_lookup _ _ _ En), bind_ret, sub_ok, bind_ret by lia.
  assert (length (slice name 0 n) = n) as Hsl by (rewrite length_slice; lia).
  destruct (text_row_copy 32 (wifi_ssid (settings s)) (slice name 0 n)) as (-> & Hr & _);
    [done|rewrite slice_0; by apply Forall_take|lia|]. rewrite bind_ret.
  eexists. split; [done|]. eapply (settings_result s); [exact Hs| |reflexivity]. apply ssid_wf; [done|done|lia].
Qed.

Lemma names_copied names rows : Forall (fun n => is_bytes n /\ (length n <= 32)%nat) names ->
  Forall (text_row 32) rows -> Forall (text_row 32) (zip_with (fun name row => list_inserts 0 name row) names rows).
Proof.
  intros Hn. revert rows. induction Hn as [|name names [Hb Hl] _ IH]; intros rows Hr; [constructor|].
  destruct Hr as [|row rows Hrow Hr]; [constructor|]. constructor; [|by apply IH].
  by destruct (text_row_copy 32 row name Hrow Hb Hl) as (_ & ? & _).
Qed.

Lemma wifi_scan_ok dy : row_ok (dy, fun s => Ret (wifi_demo_scan s)).
Proof.
  intros s Hs. eexists. split; [done|]. pose proof Hs as [? ? ? ? (Hnl & Fn & Hll) ? ?].
  split; try done. cbn -[list_inserts WIFI_NAMES]. split; [by rewrite length_zip_with, Hnl|]. split; [|done].
  apply names_copied; [|done]. apply (bool_decide_unpack _). by vm_compute.
Qed.

Lemma static_row_ok dy f octet : 0 <= octet -> row_ok (dy, static_row f octet).
Proof. intros Ho s Hs. eexists. split; [done|]. destruct Hs. by split. Qed.

Lemma nothing_row dy : row_ok (dy, fun s => Ret s).
Proof. intros s Hs. by exists s. Qed.

Lemma Forall_bookmarks left : Forall row_ok
  (map (fun slot => ((if decide (slot = 7%nat) then R + 14 else R), bookmark_row left slot)) (seq 0 PERSIST_BOOKMARK_SLOTS)).
Proof. apply Forall_fmap, Forall_seq. intros slot Hs. apply bookmark_row_ok. unfold PERSIST_BOOKMARK_SLOTS in Hs. lia. Qed.

Ltac each_row := repeat (apply Forall_cons; split); try apply Forall_nil_2.

Lemma general_rows_ok s left octet : 0 <= octet -> Forall row_ok (general_rows s left octet).
Proof.
  intros Ho. unfold general_rows. apply Forall_app. split; [|apply Forall_app; split;
    [apply Forall_bookmarks|apply Forall_app; split; [|apply Forall_app; split]]].
  - each_row; try (by apply core_row); try apply set_home_ok.
    + apply settings_row; [free_field|done].
    + apply settings_row; [free_field|done].
    + apply (core_row _ (fun s => dirty (if settings_persist_supported (platform_caps s)
        then s <| settings_save_requested := true |> else s))). intros s'. by destruct (settings_persist_supported _).
  - each_row; try (by apply core_row); try apply wifi_scan_ok; try (by apply wifi_slot_row_ok; lia);
      try (apply (settings_row _ _ (fun s => s)); [free_field|done]).
  - case_decide; each_row; by apply static_row_ok.
  - each_row; apply (settings_row _ _ (fun s => s)); first [free_field|done].
Qed.

Lemma input_rows_ok : Forall row_ok input_rows.
Proof.
  unfold input_rows. apply Forall_app. split; [each_row|apply Forall_app; split; [|each_row]].
  - apply (settings_row _ _ (fun s => s)); [free_field|done].
  - apply Forall_replicate, nothing_row.
  - apply (settings_row _ _ (fun s => s)); [apply preset_wf|done].
Qed.

Lemma row_at_ok rows rw y mx my act : Forall row_ok rows -> row_at rows rw y mx my = Some act ->
  forall s, ui_wf s -> exists s', act s = Ret s' /\ ui_wf s'.
Proof.
  intros Hr. revert y. induction Hr as [|[dy a] rows Ha _ IH]; intros y; cbn [row_at]; [done|].
  destruct (inside _ mx my); [intros [= <-]; exact Ha|apply IH].
Qed.

Lemma octet_ok mx x bw : 0 <= static_ip_octet_from_mx mx x bw.
Proof. unfold static_ip_octet_from_mx. case_decide; [lia|]. apply Z.mod_pos_bound. lia. Qed.

Lemma settings_rows_ok s lay mx : Forall row_ok (settings_rows s lay mx).
Proof.
  unfold settings_rows. destruct (settings_subtab s); [apply general_rows_ok, octet_ok|apply input_rows_ok].
Qed.

(** ** The other clicks *)

Lemma click_tab_core s lay mx my s' : click_tab s lay mx my = Some s' -> ui_core s' = ui_core s.
Proof. unfold click_tab. cbv zeta. repeat case_decide; by intros [= <-]. Qed.

Lemma click_log_core s lay mx my s' : click_log s lay mx my = Some s' -> ui_core s' = ui_core s.
Proof. unfold click_log, set_log_subtab. cbv zeta. repeat case_decide; by intros [= <-]. Qed.

Lemma click_subtab_core s lay mx my s' : click_subtab s lay mx my = Some s' -> ui_core s' = ui_core s.
Proof. unfold click_subtab, set_settings_subtab. cbv zeta. repeat case_decide; by intros [= <-]. Qed.

Lemma after_step_ok (m : rust (UiState * bool)) : (exists s b, m = Ret (s, b) /\ ui_wf s) ->
  exists s, (r ← m; Ret (after_step r)) = Ret s /\ ui_wf s.
Proof.
  intros (s & b & -> & Hs). rewrite bind_ret. eexists. split; [done|]. destruct b; [by eapply core_wf|done].
Qed.

Lemma click_bar_ok s i : ui_wf s -> exists s', click_bar s i = Ret s' /\ ui_wf s'.
Proof.
  intros Hs. unfold click_bar.
  assert (exists s', (let '(n, src) := home_bytes (settings s) (length (url s)) in
      u ← copy_at (url s) 0 src;
      Ret (s <| url := u |> <| url_len := n |> <| inet_reload_request := true |>
             <| chrome_only_dirty := true |> <| status_dirty := true |>)) = Ret s' /\ ui_wf s') as Hhome.
  { pose proof (uw_url s Hs) as [[Hu _] _]. pose proof (home_bytes_ok (settings s) (length (url s)) (uw_settings s Hs)) as Hb.
    destruct (home_bytes _ _) as [n src]. destruct Hb as (<- & Hn & Hb); [lia|].
    rewrite copy_at_ok, bind_ret by lia. eexists. split; [done|]. eapply core_wf; [apply (with_url_wf s src)|]; try done; lia. }
  destruct (back_ok s Hs) as (s1 & b1 & E1 & H1 & _), (forward_ok s Hs) as (s2 & b2 & E2 & H2 & _).
  pose proof (after_step_ok (history_go_back s) ltac:(eauto)) as Hb.
  pose proof (after_step_ok (history_go_forward s) ltac:(eauto)) as Hf.
  destruct i as [|[[]|[]|]|];
    first [exact Hb|exact Hf|exact Hhome|eexists; (split; [reflexivity|]); by apply (core_wf s)].
Qed.

Lemma click_settings_ok s lay mx my : ui_wf s ->
  exists s' b, click_settings s lay mx my = Ret (s', b) /\ ui_wf s'.
Proof.
  intros Hs. unfold click_settings. cbv zeta.
  destruct (click_subtab _ _ _ _) as [s1|] eqn:E1.
  { apply click_subtab_core in E1. exists s1, true. split; [done|]. by eapply core_wf. }
  destruct (row_at _ _ _ _ _) as [act|] eqn:E2.
  { destruct (row_at_ok _ _ _ _ _ _ (settings_rows_ok s lay mx) E2 s Hs) as (s' & -> & Hs'). rewrite bind_ret. eauto. }
  destruct (settings_power_button_rects s lay) as [reboot shutdown].
  destruct (inside reboot _ _); [|destruct (inside shutdown _ _)]; (eexists _, _; split; [done|]); by eapply core_wf.
Qed.

Lemma notice_ok g dismiss s mx my : ui_wf s -> (forall s, ui_core (dismiss s) = ui_core s) -> (exists r, g = Ret r) ->
  exists s' b, click_notice g dismiss s mx my = Ret (s', b) /\ ui_wf s'.
Proof.
  intros Hs Hd ([card btn] & ->). unfold click_notice. rewrite bind_ret. destruct (inside btn mx my);
    (eexists _, _; split; [done|]); [by eapply core_wf|done].
Qed.

Lemma geometry_ok w h : (exists r, epilepsy_notice_geometry w h = Ret r) /\ (exists r, ca_age_notice_geometry w h = Ret r).
Proof. split; eexists; unfold epilepsy_notice_geometry, ca_age_notice_geometry; by rewrite clamp_ok, bind_ret by lia. Qed.

(** Wherever one clicks, on whatever screen: the click is handled without an
    access out of range and leaves a well-formed state. *)
Theorem handle_click_safe s sw sh mx my : ui_wf s ->
  exists s' b, handle_click_at s sw sh mx my = Ret (s', b) /\ ui_wf s'.
Proof.
  intros Hs. unfold handle_click_at. cbv zeta. set (lay := layout s sw sh).
  destruct (geometry_ok (w lay) (h lay)) as [Hg1 Hg2].
  case_decide; [apply notice_ok; [done|apply notice_core|done]|].
  case_decide; [apply notice_ok; [done|apply notice_core|done]|].
  destruct (click_tab s lay mx my) as [s1|] eqn:E1.
  { apply click_tab_core in E1. exists s1, true. split; [done|]. by eapply core_wf. }
  destruct (screen s); try (by exists s, false).
  - destruct (url_bar_button_hit lay mx my) as [i|]; [|by exists s, false].
    destruct (click_bar_ok s i Hs) as (s' & -> & Hs'). rewrite bind_ret. eauto.
  - by apply click_settings_ok.
  - case_decide; [|by exists s, false]. destruct (inside _ _ _); [|by exists s, false].
    eexists _, _. split; [done|]. by eapply core_wf.
  - destruct (click_log s lay mx my) as [s1|] eqn:E2; [|by exists s, false].
    apply click_log_core in E2. exists s1, true. split; [done|]. by eapply core_wf.
Qed.

(** ** Three surprises *)

Definition first_state : rust UiState :=
  UiState_new_with_settings 640 480 false 0 0 0 0 0 0 false caps_x86 settings_new.

Lemma first_state_wf : exists s, first_state = Ret s /\ ui_wf s.
Proof.
  apply new_state_wf; [lia..|]. split; [apply settings_new_typed|apply (bool_decide_unpack _); vm_compute; exact I..].
Qed.

(** While the browser fills the screen there are no tabs; but the height of the
    tab row, 0, less 8 wraps around, and the row takes the whole screen: a click
    in the middle of the page opens the settings. *)
Example fullpage_click_changes_tab :
  (s ← first_state; r ← handle_click_at (s <| screen := Browser |>) 640 480 130 300; Ret (screen r.1)) = Ret SettingsTab.
Proof. vm_compute. reflexivity. Qed.

(** With static addresses the settings have three rows more, which the position
    of the power buttons leaves out: rows lie over the buttons, and a click on
    the top of the reboot button switches the page scripts. *)
Definition static_settings (s : UiState) : UiState :=
  s <| screen := SettingsTab |> <| settings ::= fun d => d <| ip_config := Static |> |>.
Example static_rows_over_power_buttons :
  (s ← first_state;
   let s := static_settings s in
   let lay := layout s 640 1200 in
   let '((x, y, _, _), _) := settings_power_button_rects s lay in
   r ← handle_click_at s 640 1200 x (y + 8);
   Ret (power_reboot_request r.1, eqb (browser_script_runtime_enabled (settings r.1)) (browser_script_runtime_enabled (settings s))))
  = Ret (false, false).
Proof. vm_compute. reflexivity. Qed.

(** An address of the same length as the current one is not recorded. *)
Example same_length_not_recorded :
  (s ← first_state;
   s ← nav_all [Visit (bs "http://aa/"); Visit (bs "http://bb/")] s;
   Ret (visited (hist_of s))) =
  Ret [DEFAULT_HOME_URL; bs "http://aa/"].
Proof. vm_compute. reflexivity. Qed.
