(* ===== verification/Tls.v ===== *)
(** * TLS randomness and time ([kernel/src/eve_tls.rs], [kernel/src/hal/timer.rs])

    [EveRng], the generator the TLS library draws its key material from; the
    clock that certificate checks use (build time plus main-loop ticks); the
    tick-to-millisecond conversion of the main-loop timer.  The I/O bridge of
    [eve_tls.rs] is in [NetDrive.v], where it meets the network stack. *)

From S2P Require Import Prelude.

(** ** The generator *)

(** [EveRng(u64)] *)
Definition EveRng_new (seed : Z) : Z := Z.max seed 1.

(** One round of xorshift64*: the new state. *)
Definition xorshift (x : Z) : Z :=
  let x := Z.lxor x (Z.shiftr x 12) in
  let x := Z.lxor x (wrap64 (Z.shiftl x 25)) in
  Z.lxor x (Z.shiftr x 27).

Definition rng_byte (x : Z) : Z := wrap8 (Z.shiftr (wrap64 (x * 0x2545F4914F6CDD1D)) 56).

(** [fill_bytes] of a buffer of [n] bytes. *)
Fixpoint fill_bytes (n : nat) (x : Z) : Z * bytes :=
  match n with
  | O => (x, [])
  | S n =>
      let x := xorshift x in
      let '(y, l) := fill_bytes n x in
      (y, rng_byte x :: l)
  end.

(** ** The clock *)

Record TlsTicks := { TLS_PREV_TICK : Z; TLS_ACCUM_TICKS : Z }.
Definition tls_ticks_new : TlsTicks := {| TLS_PREV_TICK := 2 ^ 32 - 1; TLS_ACCUM_TICKS := 0 |}.

Definition wall_clock_note_net_tick (tick : Z) (c : TlsTicks) : TlsTicks :=
  let prev := c.(TLS_PREV_TICK) in
  if decide (prev = 2 ^ 32 - 1) then {| TLS_PREV_TICK := tick; TLS_ACCUM_TICKS := c.(TLS_ACCUM_TICKS) |}
  else
    let delta := wrap32 (tick - prev) in
    {| TLS_PREV_TICK := tick; TLS_ACCUM_TICKS := wrap64 (c.(TLS_ACCUM_TICKS) + delta) |}.

Definition sat64 (z : Z) : Z := Z.min z (2 ^ 64 - 1).

Fixpoint parse_u64_loop (out : Z) (s : bytes) : option Z :=
  match s with
  | [] => Some out
  | b :: s => if is_digit b then parse_u64_loop (sat64 (sat64 (out * 10) + (b - 48))) s else None
  end.
Definition parse_u64_ascii (s : bytes) : option Z := parse_u64_loop 0 s.

Definition MAIN_LOOP_TICK_HZ : Z := 100.

(** [EveTlsClock::now] for the build-time epoch string. *)
Definition EveTlsClock_now (epoch_str : bytes) (c : TlsTicks) : option Z :=
  epoch ← parse_u64_ascii epoch_str;
  Some (sat64 (epoch + c.(TLS_ACCUM_TICKS) / MAIN_LOOP_TICK_HZ)).

(** ** The main-loop timer *)

Definition elapsed_ticks_since (now prev : Z) : Z := wrap32 (now - prev).
Definition elapsed_ms_since (hz now prev : Z) : Z :=
  let hz := Z.max hz 1 in
  Z.min (elapsed_ticks_since now prev * 1000 / hz) (2 ^ 32 - 1).

(** ** Properties of the generator *)

Definition is_u64 (x : Z) : Prop := 0 <= x < 2 ^ 64.

Lemma wrap64_range z : is_u64 (wrap64 z).
Proof. apply Z.mod_pos_bound. lia. Qed.

Lemma lxor_u64 a b : is_u64 a -> is_u64 b -> is_u64 (Z.lxor a b).
Proof.
  unfold is_u64. intros Ha Hb. split; [apply Z.lxor_nonneg; lia|].
  destruct (decide (Z.lxor a b = 0)) as [->|Hn]; [lia|].
  assert (0 <= Z.lxor a b) by (apply Z.lxor_nonneg; lia).
  apply Z.log2_lt_cancel. rewrite Z.log2_pow2 by lia.
  eapply Z.le_lt_trans; [apply Z.log2_lxor; lia|].
  assert (forall z, 0 <= z < 2 ^ 64 -> Z.log2 z < 64) as Hl.
  { intros z Hz. destruct (decide (z = 0)) as [->|]; [done|]. apply Z.log2_lt_pow2; lia. }
  apply Z.max_lub_lt; by apply Hl.
Qed.

Lemma shiftr_u64 x k : 0 <= k -> is_u64 x -> is_u64 (Z.shiftr x k).
Proof.
  unfold is_u64. intros Hk Hx. rewrite Z.shiftr_div_pow2 by done.
  pose proof (Z.pow_pos_nonneg 2 k). split; [apply Z.div_pos; lia|].
  apply Z.div_lt_upper_bound; nia.
Qed.

(** Both kinds of mixing step are linear, and only zero is mapped to zero. *)
Lemma wrap64_lxor a b : is_u64 a -> is_u64 b -> forall k, 0 <= k ->
  wrap64 (Z.shiftl (Z.lxor a b) k) = Z.lxor (wrap64 (Z.shiftl a k)) (wrap64 (Z.shiftl b k)).
Proof.
  intros Ha Hb k Hk. unfold wrap. rewrite <-!Z.land_ones by lia. rewrite Z.shiftl_lxor.
  apply Z.bits_inj'. intros n Hn. rewrite Z.lxor_spec, !Z.land_spec, Z.lxor_spec.
  destruct (Z.testbit (Z.ones 64) n); rewrite ?andb_true_r, ?andb_false_r; done.
Qed.

Lemma lxor_shiftr_zero z k : 0 < k -> is_u64 z -> Z.lxor z (Z.shiftr z k) = 0 -> z = 0.
Proof.
  unfold is_u64. intros Hk Hz E%Z.lxor_eq. rewrite Z.shiftr_div_pow2 in E by lia.
  destruct (decide (z = 0)); [done|].
  pose proof (Z.pow_gt_1 2 k). pose proof (Z.div_lt z (2 ^ k)). lia.
Qed.

Lemma lxor_shiftl_zero z : is_u64 z -> Z.lxor z (wrap64 (Z.shiftl z 25)) = 0 -> z = 0.
Proof.
  unfold is_u64. intros Hz E%Z.lxor_eq. rewrite Z.shiftl_mul_pow2 in E by lia. unfold wrap in E.
  assert ((2 ^ 64 | (2 ^ 25 - 1) * z)) as Hd.
  { exists (z * 2 ^ 25 / 2 ^ 64). pose proof (Z.div_mod (z * 2 ^ 25) (2 ^ 64)). lia. }
  apply Z.gauss in Hd; [|reflexivity]. apply Z.mod_divide in Hd; [|lia]. rewrite Z.mod_small in Hd by lia. done.
Qed.

(** A linear step that maps only zero to zero is injective. *)
Lemma mix_inj (f : Z -> Z) x y :
  (forall a b, is_u64 a -> is_u64 b -> f (Z.lxor a b) = Z.lxor (f a) (f b)) ->
  (forall z, is_u64 z -> Z.lxor z (f z) = 0 -> z = 0) ->
  is_u64 x -> is_u64 y -> Z.lxor x (f x) = Z.lxor y (f y) -> x = y.
Proof.
  intros Hf Hz Hx Hy E. apply Z.lxor_eq, Hz; [by apply lxor_u64|]. rewrite Hf by done.
  rewrite Z.lxor_assoc, <-(Z.lxor_assoc y), (Z.lxor_comm y), !Z.lxor_assoc, <-Z.lxor_assoc, E.
  apply Z.lxor_nilpotent.
Qed.

Lemma xorshift_u64 x : is_u64 x -> is_u64 (xorshift x).
Proof.
  intros Hx. unfold xorshift. cbv zeta.
  repeat (apply lxor_u64 || apply shiftr_u64 || apply wrap64_range || done || lia).
Qed.

Lemma xorshift_inj x y : is_u64 x -> is_u64 y -> xorshift x = xorshift y -> x = y.
Proof.
  intros Hx Hy. unfold xorshift. cbv zeta.
  assert (forall k a b, Z.shiftr (Z.lxor a b) k = Z.lxor (Z.shiftr a k) (Z.shiftr b k)) as Hr
    by (intros; apply Z.shiftr_lxor).
  assert (forall k z, 0 < k -> is_u64 z -> is_u64 (Z.lxor z (Z.shiftr z k))) as Hs
    by (intros; apply lxor_u64; [|apply shiftr_u64]; done || lia).
  intros E%(mix_inj (fun z => Z.shiftr z 27)).
  - apply (mix_inj (fun z => wrap64 (Z.shiftl z 25))) in E.
    + apply (mix_inj (fun z => Z.shiftr z 12)) in E; auto. intros; by apply (lxor_shiftr_zero z 12).
    + intros; by apply wrap64_lxor.
    + apply lxor_shiftl_zero.
    + by apply Hs.
    + by apply Hs.
  - intros. apply Hr.
  - intros; by apply (lxor_shiftr_zero z 27).
  - apply lxor_u64; [by apply Hs|apply wrap64_range].
  - apply lxor_u64; [by apply Hs|apply wrap64_range].
Qed.

Lemma rng_byte_byte x : is_byte (rng_byte x).
Proof. unfold rng_byte, is_byte, wrap. apply Z.mod_pos_bound. lia. Qed.

(** The key-material generator never degenerates: from any seed the state is a
    non-zero 64-bit word and stays one, however many bytes are drawn; it fills
    the whole buffer with bytes; and no draw loses entropy - two states that
    differ still differ after any number of bytes. *)
Theorem eve_rng_safe seed x y n :
  is_u64 seed -> 0 < x < 2 ^ 64 -> 0 < y < 2 ^ 64 ->
  0 < EveRng_new seed < 2 ^ 64 /\
  0 < (fill_bytes n x).1 < 2 ^ 64 /\
  length (fill_bytes n x).2 = n /\ is_bytes (fill_bytes n x).2 /\
  ((fill_bytes n x).1 = (fill_bytes n y).1 -> x = y).
Proof.
  assert (forall x, 0 < x < 2 ^ 64 -> 0 < xorshift x < 2 ^ 64) as Hpos.
  { intros z Hz. assert (is_u64 z) as Hz' by (unfold is_u64; lia).
    pose proof (xorshift_u64 z Hz') as Hr. unfold is_u64 in Hr.
    assert (xorshift z <> 0); [|lia].
    intros E. enough (z = 0) by lia. apply xorshift_inj; [done|unfold is_u64; lia|]. by rewrite E. }
  intros Hseed Hx Hy. split; [unfold EveRng_new, is_u64 in *; lia|]. clear seed Hseed.
  revert x y Hx Hy. induction n as [|n IH]; intros x y Hx Hy; cbn [fill_bytes].
  { split_and!; cbn; try lia; try done. constructor. }
  destruct (IH (xorshift x) (xorshift y)) as (H1 & H2 & H3 & H4); [auto|auto|].
  destruct (fill_bytes n (xorshift x)) as [sx lx], (fill_bytes n (xorshift y)) as [sy ly].
  cbn [fst snd] in *. split_and!; [lia|lia|cbn; by rewrite H2|constructor; [apply rng_byte_byte|done]|].
  intros E. apply xorshift_inj; unfold is_u64; [lia|lia|auto].
Qed.

Lemma eve_rng_safe_witness :
  0 < EveRng_new 0 < 2 ^ 64 /\
  0 < (fill_bytes 4 1).1 < 2 ^ 64 /\
  length (fill_bytes 4 1).2 = 4%nat /\ is_bytes (fill_bytes 4 1).2 /\
  ((fill_bytes 4 1).1 = (fill_bytes 4 2).1 -> 1 = 2).
Proof. apply (eve_rng_safe 0 1 2 4); unfold is_u64; lia. Defined.

(** ** Properties of the clock *)

(** The ticks of [n + 1] frames from [t0] on, as the [u32] counter shows them. *)
Definition frame_tick (t0 : Z) (i : nat) : Z := wrap32 (t0 + Z.of_nat i).
Definition run_clock (t0 : Z) (n : nat) : TlsTicks :=
  fold_left (fun c i => wall_clock_note_net_tick (frame_tick t0 i) c) (seq 0 (S n)) tls_ticks_new.

(** The frames among the first [n] at which the counter stood at its maximum. *)
Definition maxed (t0 : Z) (n : nat) : nat :=
  length (filter (fun i => frame_tick t0 i = 2 ^ 32 - 1) (seq 0 n)).

Lemma frame_tick_step t0 i : wrap32 (frame_tick t0 (S i) - frame_tick t0 i) = 1.
Proof.
  unfold frame_tick, wrap. rewrite <-Zminus_mod.
  replace (t0 + Z.of_nat (S i) - (t0 + Z.of_nat i)) with 1 by lia. done.
Qed.

Lemma maxed_S t0 n :
  maxed t0 (S n) = (maxed t0 n + if decide (frame_tick t0 n = (2 ^ 32 - 1)%Z) then 1 else 0)%nat.
Proof.
  unfold maxed. rewrite seq_S, filter_app, length_app, Nat.add_0_l. f_equal. cbn [filter list_filter].
  by destruct (decide _).
Qed.

Lemma maxed_le t0 n : (maxed t0 n <= n)%nat.
Proof. unfold maxed. etransitivity; [apply length_filter|]. by rewrite length_seq. Qed.

Lemma run_clock_eq t0 n :
  run_clock t0 n = {| TLS_PREV_TICK := frame_tick t0 n;
                      TLS_ACCUM_TICKS := wrap64 (Z.of_nat (n - maxed t0 n)) |}.
Proof.
  induction n as [|n IH]; [done|]. unfold run_clock in *. rewrite seq_S, fold_left_app, IH, Nat.add_0_l.
  cbn [fold_left]. unfold wall_clock_note_net_tick at 1. cbn [TLS_PREV_TICK TLS_ACCUM_TICKS].
  rewrite maxed_S. pose proof (maxed_le t0 n). destruct (decide _).
  - f_equal. f_equal. lia.
  - f_equal. rewrite frame_tick_step. unfold wrap. rewrite Zplus_mod_idemp_l. f_equal. lia.
Qed.

Lemma maxed_eq t0 n : Z.of_nat (maxed t0 n) = (t0 + Z.of_nat n) / 2 ^ 32 - t0 / 2 ^ 32.
Proof.
  induction n as [|n IH]; [rewrite Z.add_0_r, Z.sub_diag; done|].
  rewrite maxed_S. unfold frame_tick, wrap. set (z := t0 + Z.of_nat n) in *.
  replace (t0 + Z.of_nat (S n)) with (z + 1) by lia.
  pose proof (Z.div_mod z (2 ^ 32)). pose proof (Z.mod_pos_bound z (2 ^ 32)).
  destruct (decide _) as [E|E].
  - rewrite <-(Z.div_unique (z + 1) (2 ^ 32) (z / 2 ^ 32 + 1) 0) by lia. lia.
  - rewrite <-(Z.div_unique (z + 1) (2 ^ 32) (z / 2 ^ 32) (z mod 2 ^ 32 + 1)) by lia. lia.
Qed.

(** Certificate time follows the main loop across the wrap of its 32-bit tick:
    after any number of frames the clock shows the build time plus the frames
    seen, less those at which the counter stood at its maximum (the sentinel of
    the source: one in 2^32), divided by 100 and saturated - so it never runs
    ahead of the frames, and it fails only when the build stamp is not a number. *)
Theorem tls_clock_tracks_ticks epoch_str t0 n :
  Z.of_nat n < 2 ^ 64 ->
  EveTlsClock_now epoch_str (run_clock t0 n) =
    (e ← parse_u64_ascii epoch_str; Some (sat64 (e + Z.of_nat (n - maxed t0 n) / 100))) /\
  Z.of_nat (maxed t0 n) <= 1 + Z.of_nat n / 2 ^ 32.
Proof.
  intros Hn. split.
  - rewrite run_clock_eq. unfold EveTlsClock_now. destruct (parse_u64_ascii epoch_str) as [e|]; [|done].
    cbn. unfold wrap. rewrite Z.mod_small by lia. done.
  - rewrite maxed_eq. pose proof (Z.div_mod (t0 + Z.of_nat n) (2 ^ 32)). pose proof (Z.div_mod t0 (2 ^ 32)).
    pose proof (Z.div_mod (Z.of_nat n) (2 ^ 32)). pose proof (Z.mod_pos_bound t0 (2 ^ 32)).
    pose proof (Z.mod_pos_bound (Z.of_nat n) (2 ^ 32)). pose proof (Z.mod_pos_bound (t0 + Z.of_nat n) (2 ^ 32)).
    lia.
Qed.

Lemma tls_clock_tracks_ticks_witness :
  EveTlsClock_now [49; 48; 48] (run_clock (2 ^ 32 - 3) 205) =
    (e ← parse_u64_ascii [49; 48; 48]; Some (sat64 (e + Z.of_nat (205 - maxed (2 ^ 32 - 3) 205) / 100))) /\
  Z.of_nat (maxed (2 ^ 32 - 3) 205) <= 1 + Z.of_nat 205 / 2 ^ 32.
Proof. apply (tls_clock_tracks_ticks [49; 48; 48] (2 ^ 32 - 3) 205). done. Defined.

(** The clock of that run: two seconds, one tick lost at the wrap. *)
Example tls_clock_ex : EveTlsClock_now [49; 48; 48] (run_clock (2 ^ 32 - 3) 205) = Some 102.
Proof. vm_compute. reflexivity. Qed.

(** The conversion to milliseconds needs no wider product than [u64], and saturates. *)
Lemma elapsed_ms_range hz now prev :
  elapsed_ticks_since now prev * 1000 < 2 ^ 64 /\ 0 <= elapsed_ms_since hz now prev < 2 ^ 32.
Proof.
  unfold elapsed_ms_since, elapsed_ticks_since, wrap. pose proof (Z.mod_pos_bound (now - prev) (2 ^ 32)).
  split; [lia|]. pose proof (Z.div_pos ((now - prev) mod 2 ^ 32 * 1000) (Z.max hz 1)). lia.
Qed.
