(* ===== verification/NetDrive.v ===== *)
(** * The periodic driver and HTTPS ([kernel/src/net.rs], [NetStack::drive]; [kernel/src/eve_tls.rs])

    [drive] runs once per frame of the main loop: settings sync, the receive
    loop, DHCP, ARP, DNS and TCP timers, and the HTTPS handshake and pump.

    The TLS library is third-party and calls back into the stack: its methods
    are programs [tls_call] over the three operations of the bridge
    ([TlsNetBridge]: read, write, flush), given by the class [TlsLib] (a call
    performs finitely many of them, whatever they return), and [run_tls] runs them against the stack, including the receive handlers that
    the bridge's [read] re-enters.  The session in [NetStack::tls] is
    [session]; using it uninitialised or after it was dropped ([tls_live] false)
    is [Panic].  The raw pointers of the
    bridge's poll target are [tls_poll]: the MAC they were set with, or [None]
    for null.  Two kinds of loops have no bound in the source - the receive loops
    (as long as the NIC has frames) and the read pump (as long as the library
    has plaintext) - and get [fuel]. *)

From S2P Require Import Prelude Url Log Settings NetWire Http NetStack Tls.

(** ** UTF-8

    [core::str::from_utf8(..).is_ok()]: well-formed sequences only (no overlong
    forms, no surrogates, at most U+10FFFF). *)

Definition utf8_tail (b : Z) : bool := (128 <=? b) && (b <=? 191).
Definition in_range (lo hi b : Z) : bool := (lo <=? b) && (b <=? hi).

Fixpoint utf8_valid (fuel : nat) (l : bytes) : bool :=
  match fuel with
  | O => true
  | S fuel =>
      match l with
      | [] => true
      | a :: l =>
          if in_range 0 127 a then utf8_valid fuel l
          else if in_range 194 223 a then
            match l with b :: l => utf8_tail b && utf8_valid fuel l | _ => false end
          else if in_range 224 239 a then
            match l with
            | b :: c :: l =>
                in_range (if a =? 224 then 160 else 128) (if a =? 237 then 159 else 191) b &&
                utf8_tail c && utf8_valid fuel l
            | _ => false
            end
          else if in_range 240 244 a then
            match l with
            | b :: c :: d :: l =>
                in_range (if a =? 240 then 144 else 128) (if a =? 244 then 143 else 191) b &&
                utf8_tail c && utf8_tail d && utf8_valid fuel l
            | _ => false
            end
          else false
      end
  end.
Definition from_utf8_ok (l : bytes) : bool := utf8_valid (length l) l.

(** ** The TLS library *)

(** A library call: it returns, or performs one bridge operation and goes on with
    its result ([None] and [false] are errors). *)
Inductive tls_call (A : Type) :=
  | TlsDone (a : A)
  | TlsRead (cap : nat) (k : option bytes -> tls_call A)
  | TlsWrite (data : bytes) (k : bool -> tls_call A)
  | TlsFlush (k : bool -> tls_call A).
Arguments TlsDone {A} a.
Arguments TlsRead {A} cap k.
Arguments TlsWrite {A} data k.
Arguments TlsFlush {A} k.

Inductive CaRoot := ISRG_ROOT_X1_DER | DIGICERT_GLOBAL_ROOT_G2_DER.

(** [TlsConnection<..>]: [open] gets the trust anchor, the server name, the state
    of the provider's generator and the time; a [bool] is [is_ok()]; [read] into
    a buffer of [cap] bytes gives the bytes read. *)
Class TlsLib (T : Type) := {
  tls_open (root : CaRoot) (host : bytes) (rng : Z) (now : option Z) : tls_call (T * bool);
  tls_write_all (t : T) (data : bytes) : tls_call (T * bool);
  tls_flush (t : T) : tls_call (T * bool);
  tls_read (t : T) (cap : nat) : tls_call (T * option bytes);
}.

(** ** The kernel's state around the stack *)

Definition NIC_RX_IOBUF : nat := 2048.
Definition SPIN_MAX : nat := Z.to_nat 2000000.

Record Kernel (N T : Type) := {
  world : World N;
  session : option T;
  tls_poll : option bytes;
  drive_rx_buf : bytes;
  tls_spin_rx_buf : bytes;
  main_loop_tick : Z;
  tls_ticks : TlsTicks;
}.
Arguments world {N T} _.
Arguments session {N T} _.
Arguments tls_poll {N T} _.
Arguments drive_rx_buf {N T} _.
Arguments tls_spin_rx_buf {N T} _.
Arguments main_loop_tick {N T} _.
Arguments tls_ticks {N T} _.
#[export] Instance Kernel_eta N T : Settable (Kernel N T) := fun k => Build_Kernel N T
  k.(world) k.(session) k.(tls_poll) k.(drive_rx_buf) k.(tls_spin_rx_buf) k.(main_loop_tick) k.(tls_ticks).

Definition E_DNS_TIMEOUT : bytes := Eval vm_compute in bs "DNS TIMEOUT".
Definition E_TCP_NO_CONNECT : bytes := Eval vm_compute in bs "TCP NO CONNECT".
Definition E_HTTP_TIMEOUT : bytes := Eval vm_compute in bs "HTTP TIMEOUT".
Definition E_TLS_BAD_HOST : bytes := Eval vm_compute in bs "TLS BAD HOST".
Definition E_TLS_VERIFY : bytes := Eval vm_compute in bs "TLS VERIFY FAIL".
Definition E_TLS_WRITE : bytes := Eval vm_compute in bs "TLS WRITE FAIL".
Definition E_TLS_READ : bytes := Eval vm_compute in bs "TLS READ ERR".
Definition T_dhcp_timeout : bytes := Eval vm_compute in bs "net dhcp timeout -> slirp".

(** [u64::rotate_left] *)
Definition rotl64 (k x : Z) : Z := Z.lor (wrap64 (Z.shiftl x k)) (Z.shiftr x (64 - k)).

(** The seed of the TLS generator: sequence number, tick and MAC. *)
Definition tls_seed (s : NetStack) (our_mac : bytes) : Z :=
  Z.lxor (Z.lxor s.(tcp_seq) (rotl64 17 s.(tick))) (of_le (take 6 our_mac)).

Section drive.
Context (inflate : bool -> bytes -> inflate_result) (brotli : bytes -> option bytes).
Context {N : Type} `{Nic N} {T : Type} `{TlsLib T}.
Context (epoch_str : bytes) (fuel : nat).
Implicit Types (w : World N) (k : Kernel N T).

(** A change of the stack, and an operation on the stack, its NIC and scratch. *)
Definition on_net (f : NetStack -> NetStack) k : Kernel N T := k <| world ::= upd f |>.
Definition on_world {A} (f : World N -> rust (World N * A)) k : rust (Kernel N T * A) :=
  '(w, a) ← f k.(world); Ret (k <| world := w |>, a).

(** ** Sending queued ciphertext *)

Fixpoint flush_loop (rounds : nat) (our_mac : bytes) w : rust (World N) :=
  match rounds with
  | O => Panic
  | S rounds =>
      let s := w.(net) in
      if decide (0 < s.(tls_tx_len))%nat then
        let n := Nat.min s.(tls_tx_len) 1400 in
        pl ← sub s.(tls_tx_buf) 0 n;
        let id := wrap16 (s.(ip_id) + 1) in
        '(w, ok) ← send (build_tcp_ack_psh our_mac s.(gw_mac) s.(addrs) s.(remote_ip) LOCAL_PORT
                           s.(remote_port) s.(tcp_seq) s.(tcp_ack) pl id) w;
        let w := upd (fun s => s <| ip_id := id |>) w in
        if negb ok then Ret w
        else
          rest ← sub s.(tls_tx_buf) n s.(tls_tx_len);
          q ← copy_at s.(tls_tx_buf) 0 rest;
          flush_loop rounds our_mac
            (upd (fun s => s <| tcp_seq ::= fun q => wrap32 (q + Z.of_nat n) |> <| tls_tx_buf := q |>
                             <| tls_tx_len ::= fun l => (l - n)%nat |>) w)
      else Ret w
  end.

Definition tls_tx_flush_all (our_mac : bytes) w : rust (World N) :=
  w ← flush_loop (S w.(net).(tls_tx_len)) our_mac w;
  Ret (upd (fun s => s <| tls_tx_flush_pending := false |>) w).

(** ** Receiving *)

(** [loop { match poll_rx_packet(buf) { None => break, Some(n) if n <= buf.len() =>
    handle_rx(&buf[..n]), Some(_) => break } }] *)
Fixpoint rx_loop (rounds : nat) (our_mac buf : bytes) w : rust (World N * bytes) :=
  match rounds with
  | O => Panic
  | S rounds =>
      let '(d, r, buf) := poll_rx_packet w.(nicd) buf in
      let w := {| net := w.(net); nicd := d; scratch := w.(scratch) |} in
      match r with
      | Some n =>
          if decide (n <= length buf)%nat then
            frame ← sub buf 0 n;
            w ← handle_rx inflate brotli frame our_mac w;
            rx_loop rounds our_mac buf w
          else Ret (w, buf)
      | None => Ret (w, buf)
      end
  end.

Definition tls_spin_poll k : rust (Kernel N T) :=
  match k.(tls_poll) with
  | None => Ret k
  | Some poll_mac =>
      w ← tls_tx_flush_all poll_mac k.(world);
      '(w, buf) ← rx_loop fuel poll_mac k.(tls_spin_rx_buf) w;
      Ret (k <| world := w |> <| tls_spin_rx_buf := buf |>)
  end.

(** ** The bridge *)

(** The loop of [TlsNetBridge::read]; [spins] rounds are left of two million. *)
Fixpoint bridge_read_loop (spins cap : nat) k : rust (Kernel N T * option bytes) :=
  match spins with
  | O => Ret (k, None)
  | S spins =>
      '(s, d) ← tls_cipher_pop cap k.(world).(net);
      let k := on_net (fun _ => s) k in
      if decide (0 < length d)%nat then Ret (k, Some d)
      else if tls_eof_from_tcp s then Ret (k, Some [])
      else k ← tls_spin_poll k; bridge_read_loop spins cap k
  end.

Definition bridge_read (cap : nat) k : rust (Kernel N T * option bytes) :=
  if decide (cap = 0)%nat then Ret (k, Some []) else bridge_read_loop SPIN_MAX cap k.

Definition bridge_write (buf : bytes) k : rust (Kernel N T * bool) :=
  '(s, ok) ← tls_cipher_tx_append buf k.(world).(net); Ret (on_net (fun _ => s) k, ok).

Definition bridge_flush k : Kernel N T := on_net tls_note_flush_pending k.

(** A library call, its bridge operations performed on the stack. *)
Fixpoint run_tls {A} (c : tls_call A) k : rust (Kernel N T * A) :=
  match c with
  | TlsDone a => Ret (k, a)
  | TlsRead cap c => '(k, r) ← bridge_read cap k; run_tls (c r) k
  | TlsWrite data c => '(k, ok) ← bridge_write data k; run_tls (c ok) k
  | TlsFlush c => run_tls (c true) (bridge_flush k)
  end.

(** ** The handshake *)

Definition fail_https (msg : bytes) k : Kernel N T := on_net (set_err msg) (k <| tls_poll := None |>).

Definition drop_session k : Kernel N T :=
  on_net (fun s => s <| tls_live := false |> <| tls_handshake_done := false |>) (k <| session := None |>).

(** The two roots are tried in turn; the result is the open connection. *)
Definition open_session (our_mac host : bytes) k : rust (Kernel N T * option T) :=
  let seed := tls_seed k.(world).(net) our_mac in
  let now := EveTlsClock_now epoch_str k.(tls_ticks) in
  '(k, (t, ok)) ← run_tls (tls_open ISRG_ROOT_X1_DER host (EveRng_new (Z.lxor seed 0x1A2B3C4D)) now) k;
  if ok : bool then Ret (k, Some t)
  else
    '(k, (t, ok)) ← run_tls (tls_open DIGICERT_GLOBAL_ROOT_G2_DER host (EveRng_new (Z.lxor seed 0xD1C1CE47)) now) k;
    Ret (k, if ok : bool then Some t else None).

(** [t.write_all(..).is_ok() && t.flush().is_ok()] *)
Definition write_request (t : T) (pay : bytes) k : rust (Kernel N T * bool) :=
  '(k, (t, ok)) ← run_tls (tls_write_all t pay) k;
  let k := k <| session := Some t |> in
  if ok : bool then
    '(k, (t, ok)) ← run_tls (tls_flush t) k;
    Ret (k <| session := Some t |>, ok)
  else Ret (k, false).

Definition send_request (our_mac : bytes) (t : T) k : rust (Kernel N T) :=
  let s := k.(world).(net) in
  pth ← sub s.(req_path) 0 s.(req_path_len);
  hst ← sub s.(host_hdr) 0 s.(host_hdr_len);
  g ← build_http_get pth hst (replicate 512 0);
  match g with
  | None => Ret (fail_https E_GET_TOO_LONG (drop_session k))
  | Some (pay, plen) =>
      pl ← sub pay 0 plen;
      '(k, ok) ← write_request t pl k;
      if negb ok then Ret (fail_https E_TLS_WRITE (drop_session k))
      else
        w ← tls_tx_flush_all our_mac k.(world);
        Ret (on_net (fun s => s <| get_sent := true |>) (k <| world := w |>) <| tls_poll := None |>)
  end.

Definition run_https_handshake_and_get (our_mac : bytes) k : rust (Kernel N T) :=
  let k := k <| tls_poll := Some our_mac |> in
  let nl := k.(world).(net).(tls_server_name_len) in
  if decide (96 < nl)%nat then Ret (fail_https E_TLS_BAD_HOST k)
  else
    host ← sub k.(world).(net).(tls_server_name) 0 nl;
    if negb (from_utf8_ok host) then Ret (fail_https E_TLS_BAD_HOST k)
    else
      '(k, o) ← open_session our_mac host k;
      match o with
      | None => Ret (fail_https E_TLS_VERIFY k)
      | Some t =>
          send_request our_mac t
            (on_net (fun s => s <| tls_live := true |> <| tls_handshake_done := true |>)
               (k <| session := Some t |>))
      end.

(** ** The pump *)

(** [self.tls.assume_init_mut()]: the session is initialised while [tls_live]. *)
Definition live_session k : rust T :=
  if k.(world).(net).(tls_live) then match k.(session) with Some t => Ret t | None => Panic end else Panic.

Fixpoint pump_loop (rounds : nat) k : rust (Kernel N T) :=
  match rounds with
  | O => Panic
  | S rounds =>
      t ← live_session k;
      '(k, (t, r)) ← run_tls (tls_read t NIC_RX_IOBUF) k;
      let k := k <| session := Some t |> in
      match r with
      | None => Ret (on_net (set_err E_TLS_READ) k)
      | Some chunk =>
          if decide (length chunk = 0)%nat then Ret k
          else if decide (NIC_RX_IOBUF < length chunk)%nat then Panic
          else
            w ← lift_net (ingest_tcp_payload inflate brotli chunk) k.(world);
            pump_loop rounds (k <| world := w |>)
      end
  end.

(** What the pump does when the peer has closed. *)
Definition pump_eof (s : NetStack) : rust NetStack :=
  if s.(tls_tcp_eof) && negb s.(fetch_done) then
    if s.(http_chunked) then Ret (set_err E_CHUNK_EOF s) else finish_fetch inflate brotli s
  else Ret s.

Definition tls_pump_application (our_mac : bytes) k : rust (Kernel N T) :=
  if negb k.(world).(net).(tls_live) then Ret k
  else
    k ← tls_spin_poll (k <| tls_poll := Some our_mac |>);
    k ← pump_loop fuel k;
    w ← tls_tx_flush_all our_mac k.(world);
    w ← lift_net pump_eof w;
    Ret (k <| world := w |> <| tls_poll := None |>).

(** ** The timers of [drive]

    Each step returns the state and whether [drive] goes on. *)

(** [WaitOffer | WaitAck]: (re)transmit, then give up after 12,000 ticks. *)
Definition dhcp_timer (our_mac : bytes) w : rust (World N) :=
  let w := upd (fun s => if decide (s.(dhcp_phase_start_tick) = 0)
                         then s <| dhcp_phase_start_tick := s.(tick) |> <| dhcp_last_tx_tick := 0 |>
                         else s) w in
  let s := w.(net) in
  w ← (if decide (s.(dhcp_last_tx_tick) = 0 \/ 200 <= wrap32 (s.(tick) - s.(dhcp_last_tx_tick))) then
         let w := upd (fun s => s <| dhcp_last_tx_tick := s.(tick) |>) w in
         match s.(dhcp_phase) with
         | WaitOffer => dhcp_send_discover our_mac w
         | WaitAck => dhcp_send_request our_mac w
         | _ => Ret w
         end
       else Ret w);
  Ret (upd (fun s => if decide (12000 < wrap32 (s.(tick) - s.(dhcp_phase_start_tick)))
                     then s <| klog ::= line T_dhcp_timeout |> <| addrs := SLIRP |> <| dhcp_phase := Idle |>
                            <| gw_known := false |> <| dhcp_phase_start_tick := 0 |> <| dhcp_last_tx_tick := 0 |>
                     else s) w).

Definition drive_dhcp (cfg : DeviceSettings) (our_mac : bytes) w : rust (World N * bool) :=
  if decide (cfg.(ip_config) = Dhcp) then
    w ← (if dhcp_active w.(net) then dhcp_timer our_mac w else Ret w);
    Ret (w, negb (dhcp_active w.(net)))
  else Ret (w, true).

Definition phase_of (s : NetStack) : NetPhase :=
  if negb s.(gw_known) then PArp
  else if s.(fetch_armed) && s.(dns_needed) && negb s.(dns_done) then PDns
  else if s.(fetch_armed) && s.(dns_done) && negb s.(fetch_done) then
    if negb s.(get_sent) then PTcp else PHttp
  else if s.(fetch_done) then PDone
  else POff.

(** [if !self.gw_known]: an ARP request every 72 ticks. *)
Definition drive_arp (our_mac : bytes) w : rust (World N * bool) :=
  if negb w.(net).(gw_known) then
    if decide (w.(net).(tick) mod 72 = 0) then
      '(w, _) ← send (build_arp_request our_mac w.(net).(addrs)) w; Ret (w, false)
    else Ret (w, false)
  else Ret (w, true).

(** The DNS query, every 64 rounds, 48 times. *)
Definition drive_dns (our_mac : bytes) w : rust (World N * bool) :=
  let s := w.(net) in
  if s.(fetch_armed) && s.(dns_needed) && negb s.(dns_done) then
    let w := upd (fun s => s <| dns_xmit_phase ::= fun p => wrap32 (p + 1) |>) w in
    let s := w.(net) in
    w ← (if decide (s.(dns_xmit_phase) mod 64 = 0) then
           name ← sub s.(dns_name) 0 s.(dns_name_len);
           let id := wrap16 (s.(ip_id) + 1) in
           '(w, _) ← send (build_dns_udp_packet our_mac s.(gw_mac) s.(addrs) DNS_LOCAL_PORT 53 name
                             s.(dns_tx_id) id) w;
           Ret (upd (fun s => s <| ip_id := id |>) w)
         else Ret w);
    Ret (if decide (64 * 48 < w.(net).(dns_xmit_phase)) then upd (set_err E_DNS_TIMEOUT) w else w, false)
  else Ret (w, true).

Definition TCP_CONNECT_TICKS : Z := 16000.

(** The SYN, sent at once and then every 96 ticks. *)
Definition drive_syn (our_mac : bytes) w : rust (World N) :=
  let s := w.(net) in
  if negb s.(syn_sent) ||
     (bool_decide (s.(syn_retries) < 12) && bool_decide (s.(tick) mod 96 = 0) && negb s.(get_sent)) then
    '(out, len) ← build_tcp_syn our_mac s.(gw_mac) s.(addrs) s.(tcp_seq) s.(remote_ip) s.(remote_port) w.(scratch);
    if decide (0 < len)%nat then
      f ← sub out 0 len;
      let '(d, _) := transmit w.(nicd) f in
      Ret (upd (fun s => s <| syn_sent := true |> <| syn_retries ::= fun r => Z.min (r + 1) 255 |>)
             {| net := s; nicd := d; scratch := out |})
    else Ret {| net := s; nicd := w.(nicd); scratch := out |}
  else Ret w.

(** The connection timers; the flag says whether the fetch goes on. *)
Definition drive_tcp (our_mac : bytes) w : rust (World N * bool) :=
  let s := w.(net) in
  if bool_decide (12 <= s.(syn_retries)) && negb s.(get_sent) then Ret (upd (set_err E_TCP_NO_CONNECT) w, false)
  else if negb s.(get_sent) && bool_decide (TCP_CONNECT_TICKS < wrap32 (s.(tick) - s.(tcp_connect_start_tick)))
  then Ret (upd (set_err E_TCP_NO_CONNECT) w, false)
  else
    w ← drive_syn our_mac w;
    let s := w.(net) in
    if s.(get_sent) && bool_decide (12000 < wrap32 (s.(tick) - s.(fetch_progress_tick)))
    then Ret (upd (set_err E_HTTP_TIMEOUT) w, false)
    else Ret (w, true).

Definition drive_https (our_mac : bytes) k : rust (Kernel N T) :=
  let s := k.(world).(net) in
  if s.(https_mode) && s.(https_handshake_queued) && negb s.(tls_handshake_done) && negb s.(fetch_done)
  then run_https_handshake_and_get our_mac (on_net (fun s => s <| https_handshake_queued := false |>) k)
  else if s.(https_mode) && s.(tls_handshake_done) && s.(get_sent) && negb s.(fetch_done)
  then tls_pump_application our_mac k
  else Ret k.

Definition drive_fetch (our_mac : bytes) k : rust (Kernel N T) :=
  let s := k.(world).(net) in
  if s.(fetch_armed) && s.(dns_done) && negb s.(fetch_done) then
    '(k, go) ← on_world (drive_tcp our_mac) k;
    if go : bool then drive_https our_mac k else Ret k
  else Ret k.

(** [clear_fetch_inner] clears the poll target as well. *)
Definition sync_settings (cfg : DeviceSettings) k : Kernel N T :=
  let tag := ip_settings_tag cfg in
  on_net (sync_ip_from_settings cfg tag)
    (k <| tls_poll ::= fun p => if decide (tag = k.(world).(net).(settings_tag)) then p else None |>).

(** Settings, tick and clocks: what [drive] does before the receive loop. *)
Definition drive_tick (cfg : DeviceSettings) k : Kernel N T :=
  let k := sync_settings cfg k in
  let k := on_net (fun s => s <| tick ::= fun t => wrap32 (t + 1) |>) k in
  let t := k.(world).(net).(tick) in
  k <| main_loop_tick := t |> <| tls_ticks ::= wall_clock_note_net_tick t |>.

Definition drive (our_mac : bytes) (cfg : DeviceSettings) k : rust (Kernel N T) :=
  let k := drive_tick cfg k in
  '(w, buf) ← rx_loop fuel our_mac k.(drive_rx_buf) k.(world);
  let k := k <| world := w |> <| drive_rx_buf := buf |> in
  '(k, go) ← on_world (drive_dhcp cfg our_mac) k;
  if negb go then Ret k
  else if is_our_zero k.(world).(net).(addrs) then Ret k
  else
    let k := on_net (fun s => s <| phase := phase_of s |>) k in
    '(k, go) ← on_world (drive_arp our_mac) k;
    if negb go then Ret k
    else
      '(k, go) ← on_world (drive_dns our_mac) k;
      if negb go then Ret k else drive_fetch our_mac k.

(** ** What the main loop calls *)

Inductive net_event := Drive (cfg : DeviceSettings) | StartFetch (url : bytes) | ResetDemo.

Definition net_call (our_mac : bytes) (e : net_event) k : rust (Kernel N T) :=
  match e with
  | Drive cfg => drive our_mac cfg k
  | StartFetch url =>
      w ← lift_net (start_fetch url) k.(world); Ret (k <| world := w |> <| tls_poll := None |>)
  | ResetDemo => Ret (on_net reset_demo (k <| tls_poll := None |>))
  end.

Fixpoint net_calls (our_mac : bytes) (es : list net_event) k : rust (Kernel N T) :=
  match es with
  | [] => Ret k
  | e :: es => k ← net_call our_mac e k; net_calls our_mac es k
  end.

(** The statics, with the sequence number seeded from the MAC. *)
Definition boot_kernel (our_mac scratch : bytes) (l : Log) (d : N) : Kernel N T := {|
  world := {| net := seed_from_mac our_mac (static_initial l); nicd := d; scratch := scratch |};
  session := None; tls_poll := None; drive_rx_buf := replicate NIC_RX_IOBUF 0;
  tls_spin_rx_buf := replicate NIC_RX_IOBUF 0; main_loop_tick := 0; tls_ticks := tls_ticks_new |}.
End drive.
