(* ===== verification/DriveSafe.v ===== *)
(** * Safety and termination of the periodic driver

    What the driver assumes of its NIC ([NicOk]: finite traffic) and of its TLS
    library ([TlsOk]: no more plaintext than ciphertext), the invariant of the
    kernel state around the stack, and that [drive] and a whole session of calls
    return and keep it. *)

From S2P Require Import Prelude Url Log Settings NetWire Http NetStack NetSafe Tls NetDrive.

#[local] Opaque PAGE_CAP STREAM_CAP CHUNK_LINE_CAP TLS_CIPHER_RX_CAP TLS_TX_CAP SPIN_MAX.

(** ** Assumptions on the NIC and the TLS library *)

(** The bytes still to be received, however they arrive over time: sending does
    not add to them, and every frame taken is subtracted. *)
Class NicOk (N : Type) `{Nic N} := {
  pending : N -> nat;
  pending_transmit d f : (pending (transmit d f).1 <= pending d)%nat;
  pending_poll d buf :
    match poll_rx_packet d buf with
    | (d', Some n, _) => (pending d' + n < pending d)%nat
    | (d', None, _) => (pending d' <= pending d)%nat
    end;
}.

(** [call_ok P b c]: started with [b] bytes of ciphertext, [c] ends in a result
    with [P], which is told how many it has after its reads. *)
Fixpoint call_ok {A} (P : nat -> A -> Prop) (b : nat) (c : tls_call A) : Prop :=
  match c with
  | TlsDone a => P b a
  | TlsRead cap c =>
      forall r, (length (default [] r) <= cap)%nat -> call_ok P (b + length (default [] r))%nat (c r)
  | TlsWrite _ c => forall ok, call_ok P b (c ok)
  | TlsFlush c => forall ok, call_ok P b (c ok)
  end.

(** [budget t]: the bytes of ciphertext the session has read and not turned into
    plaintext. *)
Class TlsOk (T : Type) `{TlsLib T} := {
  budget : T -> nat;
  open_ok root host rng now :
    call_ok (fun b (r : T * bool) => (budget r.1 <= b)%nat) 0 (tls_open root host rng now);
  write_all_ok t data :
    call_ok (fun b (r : T * bool) => (budget r.1 <= b)%nat) (budget t) (tls_write_all t data);
  flush_ok t : call_ok (fun b (r : T * bool) => (budget r.1 <= b)%nat) (budget t) (tls_flush t);
  read_ok t cap :
    call_ok (fun b (r : T * option bytes) =>
      (length (default [] r.2) <= cap)%nat /\ (budget r.1 + length (default [] r.2) <= b)%nat)
      (budget t) (tls_read t cap);
}.

(** ** The steps on the stack *)

Section world.
Context {N : Type} `{Nic N} (our_mac : bytes) (Hmac : length our_mac = 6%nat).
Context (G : N -> Prop) (HG : forall d f, G d -> G (transmit d f).1).
Context {L : bool} {B : nat}.
Implicit Types (w : World N).
#[local] Abbreviation world_wf := (world_inv G L B).

Lemma set_err_world msg w : world_wf w -> world_wf (upd (set_err msg) w).
Proof. intros [Hn Hd]. split; [by apply set_err_wf|done]. Qed.

Lemma flush_loop_wf rounds w :
  world_wf w -> (w.(net).(tls_tx_len) < rounds)%nat -> returns world_wf (flush_loop rounds our_mac w).
Proof.
  revert w. induction rounds as [|rounds IH]; intros w Hw Hr; [lia|]. cbn [flush_loop].
  pose proof (wi_net _ _ _ _ Hw) as Hn. pose proof (nw_tx _ Hn). pose proof (nw_tx_len _ Hn).
  cbv zeta. destruct (decide _); [|done]. step.
  unfold build_tcp_ack_psh. eapply returns_bind.
  { apply send_wf; [done..|]. apply build_tcp_total; eauto with netwf. }
  intros [w1 ok] [Hw1 E]. cbn [fst] in Hw1, E. destruct ok; cbn [negb]; [|by upd].
  step. rewrite copy_at_ok, bind_ret by (rewrite length_slice; lia).
  apply IH; [|cbn; rewrite E; lia].
  destruct Hw1 as [Hn1 Hd1]. split; [|done]. cbn. rewrite E in *. wf.
Qed.

Lemma tls_tx_flush_all_wf w : world_wf w -> returns world_wf (tls_tx_flush_all our_mac w).
Proof.
  intros Hw. unfold tls_tx_flush_all. eapply returns_bind; [apply flush_loop_wf; [done|lia]|].
  intros w1 Hw1. by upd.
Qed.

Lemma dhcp_timer_wf w : world_wf w -> returns world_wf (dhcp_timer our_mac w).
Proof.
  intros Hw. unfold dhcp_timer. cbv zeta.
  match goal with |- context [upd ?f w] => assert (world_wf (upd f w)) as Hw1
    by (destruct Hw; split; [cbn; destruct (decide _); [wf|done]|done]); generalize dependent (upd f w) end.
  intros w1 Hw1. eapply (returns_bind world_wf).
  - destruct (decide _); [|done].
    match goal with |- context [upd ?f w1] => assert (world_wf (upd f w1)) as Hw2
      by upd; generalize dependent (upd f w1) end.
    intros w2 Hw2. destruct (dhcp_phase _); [done| | |done];
      [by apply dhcp_send_discover_wf|by apply dhcp_send_request_wf].
  - intros w2 [Hn Hd]. split; [|done]. cbn. destruct (decide _); [wf|done].
Qed.

Lemma drive_dhcp_wf cfg w : world_wf w -> returns (fun r => world_wf r.1) (drive_dhcp cfg our_mac w).
Proof.
  intros Hw. unfold drive_dhcp. destruct (decide _); [|done]. eapply (returns_bind world_wf); [|done].
  destruct (dhcp_active _); [by apply dhcp_timer_wf|done].
Qed.

Lemma drive_arp_wf w : world_wf w -> returns (fun r => world_wf r.1) (drive_arp our_mac w).
Proof.
  intros Hw. unfold drive_arp. destruct (negb _); [|done]. destruct (decide _); [|done].
  pose proof (wi_net _ _ _ _ Hw) as Hn. eapply returns_bind.
  { apply send_wf; [done..|]. apply build_arp_total; eauto with netwf. }
  by intros [w1 ok] [Hw1 _].
Qed.

Lemma drive_dns_wf w : world_wf w -> returns (fun r => world_wf r.1) (drive_dns our_mac w).
Proof.
  intros Hw. unfold drive_dns. cbv zeta. destruct (_ && _); [|done].
  match goal with |- context [upd ?f w] => assert (world_wf (upd f w)) as Hw1
    by upd; generalize dependent (upd f w) end.
  intros w1 Hw1. pose proof (wi_net _ _ _ _ Hw1) as Hn.
  pose proof (nw_dns_name _ Hn). pose proof (nw_dns_len _ Hn). eapply (returns_bind world_wf).
  - destruct (decide _); [|done]. step. eapply returns_bind.
    { apply send_wf; [done..|]. apply build_dns_total; eauto with netwf. lia. }
    intros [w2 ok] [Hw2 _]. by upd.
  - intros w2 Hw2. cbn [returns fst]. destruct (decide _); [by apply set_err_world|done].
Qed.

Lemma drive_syn_wf w : world_wf w -> returns world_wf (drive_syn our_mac w).
Proof.
  intros [Hn Hd]. unfold drive_syn. cbv zeta. destruct (_ || _); [|done]. eapply returns_bind.
  { apply build_tcp_total; eauto with netwf. }
  intros [out len] Ho. unfold frame_ok in Ho. cbn [fst snd] in Ho. destruct (decide _); [|done].
  rewrite sub_ok, bind_ret by lia. specialize (HG (nicd w) (slice out 0 len) Hd).
  destruct (transmit _ _). split; [cbn; wf|done].
Qed.

Lemma drive_tcp_wf w : world_wf w -> returns (fun r => world_wf r.1) (drive_tcp our_mac w).
Proof.
  intros Hw. unfold drive_tcp. cbv zeta. destruct (_ && _); [by apply set_err_world|].
  destruct (_ && _); [by apply set_err_world|].
  eapply returns_bind; [by apply drive_syn_wf|]. intros w1 Hw1.
  destruct (_ && _); [by apply set_err_world|done].
Qed.
End world.

(** ** The steps on the kernel's state *)

Section kernel.
Context (inflate : bool -> bytes -> inflate_result) (brotli : bytes -> option bytes).
Context {N : Type} `{NicOk N} {T : Type} `{TlsOk T}.
Context (epoch_str : bytes) (fuel : nat).
Implicit Types (w : World N) (k : Kernel N T) (p : option bytes) (o : option T).

(** A well-formed world with at most [m] bytes to go: those the NIC still has and
    those in the TLS receive queue. *)
Definition fueled (L : bool) (m : nat) w : Prop :=
  (pending w.(nicd) <= m)%nat /\ net_inv L (m - pending w.(nicd)) w.(net).

Definition at_most (q : nat) (d : N) : Prop := (pending d <= q)%nat.

Lemma at_most_transmit q d f : at_most q d -> at_most q (transmit d f).1.
Proof. unfold at_most. pose proof (pending_transmit d f). lia. Qed.

Lemma fueled_intro q L B m w : world_inv (at_most q) L B w -> (q + B <= m)%nat -> fueled L m w.
Proof.
  unfold at_most. intros [Hn Hq] Hm. split; [lia|]. eapply net_inv_weaken; [exact Hn|lia].
Qed.

Lemma fueled_elim L m w : fueled L m w -> world_inv (at_most (pending w.(nicd))) L (m - pending w.(nicd)) w.
Proof. intros [_ Hn]. split; [done|]. unfold at_most. lia. Qed.

Lemma fueled_op {A} (f : World N -> rust A) (g : A -> World N) L m w :
  (forall G, (forall d x, G d -> G (transmit d x).1) -> forall B,
     world_inv G L B w -> returns (fun r => world_inv G L B (g r)) (f w)) ->
  fueled L m w -> returns (fun r => fueled L m (g r)) (f w).
Proof.
  intros Hf Hw. pose proof (proj1 Hw). eapply returns_weaken.
  - eapply Hf; [apply at_most_transmit|by apply fueled_elim].
  - intros a Ha. eapply fueled_intro; [exact Ha|lia].
Qed.

Lemma fueled_net L L' m f w :
  fueled L m w -> (forall B, net_inv L B w.(net) -> net_inv L' B (f w.(net))) -> fueled L' m (upd f w).
Proof. intros [Hp Hn] Hf. split; [done|]. apply Hf, Hn. Qed.

Lemma fueled_lift L m f w :
  fueled L m w -> (forall B, net_inv L B w.(net) -> returns (net_inv L B) (f w.(net))) ->
  returns (fueled L m) (lift_net f w).
Proof. intros [Hp Hn] Hf. unfold lift_net. eapply returns_bind; [by apply Hf|]. by intros s Hs. Qed.

Lemma rx_loop_ok our_mac rounds L m buf w :
  length our_mac = 6%nat -> fueled L m w -> (pending w.(nicd) < rounds)%nat ->
  returns (fun r => fueled L m r.1) (rx_loop inflate brotli rounds our_mac buf w).
Proof.
  intros Hm. revert buf w. induction rounds as [|rounds IH]; intros buf w Hw Hr; [lia|]. cbn [rx_loop].
  pose proof (pending_poll (nicd w) buf) as Hpoll. destruct (poll_rx_packet _ _) as [[d r] buf']. cbv zeta.
  destruct Hw as [Hp Hn].
  destruct r as [n|]; [|split; [cbn; lia|]; eapply net_inv_weaken; [exact Hn|cbn; lia]].
  destruct (decide _); [|split; [cbn; lia|]; eapply net_inv_weaken; [exact Hn|cbn; lia]].
  step. eapply (returns_bind (world_inv (at_most (pending d)) L (m - pending (nicd w) + n))).
  - eapply returns_weaken; [apply (handle_rx_inv _ _ _ Hm (at_most (pending d)))|].
    + intros. by apply at_most_transmit.
    + split; [exact Hn|]. unfold at_most. cbn. lia.
    + intros w1 Hw1. eapply world_inv_weaken; [exact Hw1|lia].
  - intros w1 Hw1. apply IH; [eapply fueled_intro; [exact Hw1|lia]|].
    destruct Hw1 as [_ Hd]. unfold at_most in Hd. lia.
Qed.

(** The same around the session and the poll target. *)
Record kinv (L : bool) p o (m : nat) k : Prop := {
  ki_world : fueled L m k.(world);
  ki_poll : k.(tls_poll) = p;
  ki_session : k.(session) = o;
}.

Definition poll_ok p : Prop := forall mac, p = Some mac -> length mac = 6%nat.

Lemma kinv_net L L' p o m f k :
  kinv L p o m k -> (forall B s, net_inv L B s -> net_inv L' B (f s)) -> kinv L' p o m (on_net f k).
Proof. intros [Hw Hp Ho] Hf. split; [|done..]. by eapply fueled_net; [exact Hw|auto]. Qed.

Lemma kinv_world L p o m k w : kinv L p o m k -> fueled L m w -> kinv L p o m (k <| world := w |>).
Proof. intros [_ Hp Ho] Hw. by split. Qed.

Lemma tls_spin_poll_ok L p o m k :
  kinv L p o m k -> poll_ok p -> (m < fuel)%nat ->
  returns (kinv L p o m) (tls_spin_poll inflate brotli fuel k).
Proof.
  intros Hk Hp Hm. unfold tls_spin_poll. rewrite (ki_poll _ _ _ _ _ Hk).
  destruct p as [mac|]; [|done]. specialize (Hp mac eq_refl).
  eapply (returns_bind (fueled L m)).
  - apply (fueled_op _ id); [|by eapply ki_world]. intros. by apply tls_tx_flush_all_wf.
  - intros w Hw. eapply returns_bind; [apply rx_loop_ok; [done|done|destruct Hw; lia]|].
    intros [w1 buf] Hw1. destruct Hk. by split.
Qed.

(** What a bridge read that moves [n] bytes leaves. *)
Lemma bridge_read_loop_ok spins cap L p o m k :
  kinv L p o m k -> poll_ok p -> (m < fuel)%nat ->
  returns (fun r => (length (default [] r.2) <= cap)%nat /\ (length (default [] r.2) <= m)%nat /\
                    kinv L p o (m - length (default [] r.2)) r.1)
    (bridge_read_loop inflate brotli fuel spins cap k).
Proof.
  intros Hk Hp Hm. revert k Hk. induction spins as [|spins IH]; intros k Hk; cbn [bridge_read_loop].
  { cbn. rewrite Nat.sub_0_r. split_and!; [lia|lia|done]. }
  destruct (ki_world _ _ _ _ _ Hk) as [Hq Hn].
  eapply returns_bind; [by apply tls_cipher_pop_inv|]. intros [s d] (Hd1 & Hd2 & Hs).
  cbn [fst snd] in Hd1, Hd2, Hs. cbv zeta.
  assert (kinv L p o (m - length d) (on_net (fun _ => s) k)) as Hk1.
  { destruct Hk. split; [|done..]. split; [cbn; lia|]. eapply net_inv_weaken; [exact Hs|cbn; lia]. }
  generalize dependent (on_net (fun _ => s) k). intros k1 Hk1.
  destruct (decide _); [cbn; split_and!; [lia|lia|done]|].
  assert (length d = 0)%nat as Hz by lia. rewrite Hz, Nat.sub_0_r in Hk1.
  destruct (tls_eof_from_tcp s); [cbn; rewrite Nat.sub_0_r; split_and!; [lia|lia|done]|].
  eapply returns_bind; [by apply tls_spin_poll_ok|]. intros k2 Hk2. by apply IH.
Qed.

Lemma bridge_read_ok cap L p o m k :
  kinv L p o m k -> poll_ok p -> (m < fuel)%nat ->
  returns (fun r => (length (default [] r.2) <= cap)%nat /\ (length (default [] r.2) <= m)%nat /\
                    kinv L p o (m - length (default [] r.2)) r.1)
    (bridge_read inflate brotli fuel cap k).
Proof.
  intros Hk Hp Hm. unfold bridge_read. destruct (decide _); [|by apply bridge_read_loop_ok].
  cbn. rewrite Nat.sub_0_r. split_and!; [lia|lia|done].
Qed.

Lemma bridge_write_ok data L p o m k :
  kinv L p o m k -> returns (fun r => kinv L p o m r.1) (bridge_write data k).
Proof.
  intros Hk. unfold bridge_write. destruct (ki_world _ _ _ _ _ Hk) as [Hq Hn].
  eapply returns_bind; [exact (tls_cipher_tx_append_wf data _ Hn)|]. intros [s ok] Hs.
  destruct Hk. by split.
Qed.

(** A library call moves bytes from the stack to the library, and keeps the rest. *)
Lemma run_tls_ok {A} (P : nat -> A -> Prop) (c : tls_call A) b L p o m k :
  call_ok P b c -> kinv L p o m k -> poll_ok p -> (m < fuel)%nat ->
  returns (fun r => exists b' m', (b' + m' <= b + m)%nat /\ (m' <= m)%nat /\ P b' r.2 /\ kinv L p o m' r.1)
    (run_tls inflate brotli fuel c k).
Proof.
  intros Hc Hk Hp Hm. revert b m k Hc Hk Hm.
  induction c as [a|cap c IH|data c IH|c IH]; intros b m k Hc Hk Hm; cbn [run_tls].
  - exists b, m. by split_and!; [lia|lia| |].
  - eapply returns_bind; [by apply bridge_read_ok|]. intros [k1 r] (Hr1 & Hr2 & Hk1).
    cbn [fst snd] in Hr1, Hr2, Hk1.
    eapply returns_weaken; [eapply IH; [by apply Hc|exact Hk1|lia]|].
    intros a (b' & m' & ? & ? & ? & ?). exists b', m'. split_and!; [lia|lia|done|done].
  - eapply returns_bind; [by apply bridge_write_ok|]. intros [k1 ok] Hk1. by eapply IH; [apply Hc|exact Hk1|].
  - eapply IH; [by apply Hc| |done]. eapply kinv_net; [exact Hk|]. intros. unfold tls_note_flush_pending. wf.
Qed.

(** ** The HTTPS steps *)

(** The kernel between two calls: at most [M] bytes can still be handed on, the
    ciphertext inside a live session included, and a live session is there. *)
Definition kernel_inv p (M : nat) k : Prop :=
  exists L o m, kinv L p o m k /\ (m <= M)%nat /\
    (L = true -> exists t, o = Some t /\ (budget t + m <= M)%nat).

Lemma kernel_inv_live M p t m k :
  kinv true p (Some t) m k -> (budget t + m <= M)%nat -> kernel_inv p M k.
Proof. intros Hk Hb. exists true, (Some t), m. split_and!; [done|lia|]. intros _. eauto. Qed.

Lemma kernel_inv_dropped M p o m k : kinv false p o m k -> (m <= M)%nat -> kernel_inv p M k.
Proof. intros Hk Hm. by exists false, o, m. Qed.

Lemma kernel_inv_net M p f k :
  kernel_inv p M k -> (forall L B s, net_inv L B s -> net_inv L B (f s)) -> kernel_inv p M (on_net f k).
Proof. intros (L & o & m & Hk & ?) Hf. exists L, o, m. split; [|done]. eapply kinv_net; eauto. Qed.

Lemma kernel_inv_poll M p p' k : kernel_inv p M k -> kernel_inv p' M (k <| tls_poll := p' |>).
Proof. intros (L & o & m & [] & ?). exists L, o, m. split; [by split|done]. Qed.

Lemma fail_https_ok M p msg k : kernel_inv p M k -> kernel_inv None M (fail_https msg k).
Proof. intros Hk. apply kernel_inv_net; [by eapply kernel_inv_poll|]. intros. by apply set_err_wf. Qed.

Lemma kernel_inv_world {A} (f : World N -> rust (World N * A)) M p k :
  (forall G, (forall d x, G d -> G (transmit d x).1) -> forall L B w,
     world_inv G L B w -> returns (fun r => world_inv G L B r.1) (f w)) ->
  kernel_inv p M k -> returns (fun r => kernel_inv p M r.1) (on_world f k).
Proof.
  intros Hf (L & o & m & Hk & ?). unfold on_world.
  eapply (returns_bind (fun r => fueled L m r.1)).
  - apply (fueled_op _ fst); [|by eapply ki_world]. intros G HG B. by apply Hf.
  - intros [w a] Hw. exists L, o, m. split; [|done]. eapply kinv_world; eauto.
Qed.

Section session.
Context (M : nat) (HM : (M < fuel)%nat) (mac : bytes) (Hmac : length mac = 6%nat).

Lemma mac_poll_ok : poll_ok (Some mac).
Proof. intros x Hx. by apply (inj Some) in Hx as <-. Qed.

(** A call that ends in a session and a verdict. *)
Lemma session_call_ok (c : tls_call (T * bool)) b L p o m k :
  call_ok (fun b (r : T * bool) => (budget r.1 <= b)%nat) b c -> kinv L p o m k -> poll_ok p -> (m <= M)%nat ->
  returns (fun r => exists m', (m' <= m)%nat /\ (budget r.2.1 + m' <= b + m)%nat /\ kinv L p o m' r.1)
    (run_tls inflate brotli fuel c k).
Proof.
  intros Hc Hk Hp Hm. eapply returns_weaken; [eapply run_tls_ok; [done|done|done|lia]|].
  intros [k1 r] (b' & m' & ? & ? & ? & ?). exists m'. split_and!; [lia|cbn in *; lia|done].
Qed.

Lemma open_session_ok host L p o m k :
  kinv L p o m k -> poll_ok p -> (m <= M)%nat ->
  returns (fun r => exists m', (m' <= m)%nat /\ kinv L p o m' r.1 /\
                               forall t, r.2 = Some t -> (budget t + m' <= m)%nat)
    (open_session inflate brotli epoch_str fuel mac host k).
Proof.
  intros Hk Hp Hm. unfold open_session. cbv zeta.
  eapply returns_bind; [by eapply session_call_ok; [apply open_ok| | |]|].
  intros [k1 [t ok]] (m1 & ? & Hb & Hk1). cbn [fst snd] in Hb, Hk1. destruct ok.
  { exists m1. split_and!; [done|done|]. by intros t' [= <-]. }
  eapply returns_bind; [eapply session_call_ok; [apply open_ok|exact Hk1|done|lia]|].
  intros [k2 [t' ok]] (m2 & ? & Hb2 & Hk2). cbn [fst snd] in Hb2, Hk2.
  exists m2. split_and!; [lia|done|]. destruct ok; [|done]. intros t'' [= <-]. lia.
Qed.

Lemma kinv_session L p o o' m k : kinv L p o m k -> kinv L p o' m (k <| session := o' |>).
Proof. intros []. by split. Qed.

Lemma write_request_ok pay t L p o m k :
  kinv L p o m k -> poll_ok p -> (budget t + m <= M)%nat ->
  returns (fun r => exists t' m', (budget t' + m' <= M)%nat /\ kinv L p (Some t') m' r.1)
    (write_request inflate brotli fuel t pay k).
Proof.
  intros Hk Hp Hm. unfold write_request.
  eapply returns_bind; [eapply session_call_ok; [apply write_all_ok|done|done|lia]|].
  intros [k1 [t1 ok]] (m1 & ? & Hb & Hk1). cbn [fst snd] in Hb, Hk1. cbv zeta.
  apply (kinv_session _ _ _ (Some t1)) in Hk1. destruct ok; [|exists t1, m1; split; [lia|done]].
  eapply returns_bind; [eapply session_call_ok; [apply flush_ok|exact Hk1|done|lia]|].
  intros [k2 [t2 ok]] (m2 & ? & Hb2 & Hk2). cbn [fst snd] in Hb2, Hk2.
  exists t2, m2. split; [lia|]. by eapply kinv_session.
Qed.

Lemma drop_session_ok L p o m k : kinv L p o m k -> (m <= M)%nat -> kernel_inv p M (drop_session k).
Proof.
  intros Hk Hm. eapply kernel_inv_dropped; [|exact Hm]. unfold drop_session.
  eapply kinv_net; [by eapply kinv_session|]. intros B s Hs. wf.
Qed.

Lemma send_request_ok t L o m k :
  kinv L (Some mac) o m k -> (budget t + m <= M)%nat -> L = true ->
  returns (kernel_inv None M) (send_request inflate brotli fuel mac t k).
Proof.
  intros Hk Hm ->. unfold send_request. cbv zeta. destruct (ki_world _ _ _ _ _ Hk) as [_ Hn].
  pose proof (nw_path _ Hn). pose proof (nw_path_len _ Hn). pose proof (nw_host _ Hn). pose proof (nw_host_len _ Hn).
  step. step. eapply returns_bind; [apply build_http_get_total|]. intros [[pay n]|] Hp.
  2: { eapply fail_https_ok. eapply drop_session_ok; [done|lia]. }
  step. eapply returns_bind; [by eapply write_request_ok; [|apply mac_poll_ok|]|].
  intros [k1 ok] (t1 & m1 & Hb1 & Hk1). cbn [fst] in Hk1. destruct ok; cbn [negb].
  2: { eapply fail_https_ok. eapply drop_session_ok; [done|lia]. }
  eapply (returns_bind (fueled true m1)).
  - apply (fueled_op _ id); [|by eapply ki_world]. intros. by apply tls_tx_flush_all_wf.
  - intros w Hw. cbn [returns]. apply kernel_inv_net.
    + eapply kernel_inv_poll, kernel_inv_live; [eapply kinv_world; [exact Hk1|done]|done].
    + intros. wf.
Qed.

Lemma run_https_ok k :
  kernel_inv None M k -> returns (kernel_inv None M) (run_https_handshake_and_get inflate brotli epoch_str fuel mac k).
Proof.
  intros Hk%(kernel_inv_poll _ _ (Some mac)). unfold run_https_handshake_and_get. cbv zeta.
  generalize dependent (k <| tls_poll := Some mac |>). clear k. intros k Hk.
  destruct (decide _); [by eapply fail_https_ok|].
  destruct Hk as (L & o & m & Hk & Hm & Ho). destruct (ki_world _ _ _ _ _ Hk) as [_ Hn].
  pose proof (nw_sni _ Hn). step. destruct (negb _).
  { eapply fail_https_ok. by exists L, o, m. }
  eapply returns_bind; [by eapply open_session_ok; [|apply mac_poll_ok|]|].
  intros [k1 r] (m1 & Hm1 & Hk1 & Hr). cbn [fst snd] in Hk1, Hr. destruct r as [t|].
  - specialize (Hr t eq_refl). eapply send_request_ok; [|exact (Nat.le_trans _ _ _ Hr Hm)|done].
    eapply kinv_net; [by eapply kinv_session|]. intros B s Hs. wf.
  - eapply fail_https_ok. exists L, o, m1. split_and!; [done|lia|].
    intros HL. destruct (Ho HL) as (t & -> & ?). exists t. split; [done|lia].
Qed.

(** ** The pump *)

Lemma live_session_ok p t m k : kinv true p (Some t) m k -> live_session k = Ret t.
Proof.
  intros [[_ Hn] _ Ho]. unfold live_session. by rewrite (nw_live _ Hn), Ho.
Qed.

Lemma pump_loop_ok rounds t m k :
  kinv true (Some mac) (Some t) m k -> (budget t + m <= M)%nat -> (budget t + m < rounds)%nat ->
  returns (kernel_inv (Some mac) M) (pump_loop inflate brotli fuel rounds k).
Proof.
  revert t m k. induction rounds as [|rounds IH]; intros t m k Hk Hb Hr; [lia|]. cbn [pump_loop].
  rewrite (live_session_ok _ _ _ _ Hk), bind_ret.
  eapply returns_bind; [eapply run_tls_ok; [apply read_ok|exact Hk|apply mac_poll_ok|lia]|].
  intros [k1 [t1 r]] (b' & m1 & ? & ? & [Hcap Hbud] & Hk1). cbn [fst snd] in Hcap, Hbud, Hk1. cbv zeta.
  apply (kinv_session _ _ _ (Some t1)) in Hk1. generalize dependent (k1 <| session := Some t1 |>).
  clear k1. intros k1 Hk1. destruct r as [chunk|]; cbn [default from_option id length] in Hcap, Hbud.
  - destruct (decide _); [cbn; eapply kernel_inv_live; [exact Hk1|lia]|].
    destruct (decide (_ < _)%nat); [lia|]. eapply (returns_bind (fueled true m1)).
    + apply fueled_lift; [by eapply ki_world|]. intros. by apply ingest_tcp_payload_wf.
    + intros w Hw. eapply IH; [eapply kinv_world; [exact Hk1|exact Hw]|lia|lia].
  - cbn. eapply kernel_inv_live; [eapply kinv_net; [exact Hk1|]|]; [|lia]. intros. by apply set_err_wf.
Qed.

Lemma pump_eof_wf L B s : net_inv L B s -> returns (net_inv L B) (pump_eof inflate brotli s).
Proof.
  intros Hs. unfold pump_eof. destruct (_ && _); [|done].
  destruct (http_chunked s); [by apply set_err_wf|by apply finish_fetch_wf].
Qed.

Lemma pump_ok k :
  kernel_inv None M k -> returns (kernel_inv None M) (tls_pump_application inflate brotli fuel mac k).
Proof.
  intros (L & o & m & Hk & Hm & Ho). unfold tls_pump_application.
  destruct (ki_world _ _ _ _ _ Hk) as [_ Hn]. rewrite (nw_live _ Hn).
  destruct L; cbn [negb]; [|by exists false, o, m]. destruct (Ho eq_refl) as (t & -> & Hb).
  eapply (returns_bind (kinv true (Some mac) (Some t) m)).
  - apply tls_spin_poll_ok; [|apply mac_poll_ok|lia]. destruct Hk. by split.
  - intros k1 Hk1. eapply returns_bind; [eapply pump_loop_ok; [exact Hk1|exact Hb|lia]|].
    intros k2 (L & o & m2 & Hk2 & Hm2 & Ho2). eapply (returns_bind (fueled L m2)).
    { apply (fueled_op _ id); [|by eapply ki_world]. intros. by apply tls_tx_flush_all_wf. }
    intros w Hw. eapply (returns_bind (fueled L m2)).
    { apply fueled_lift; [done|]. intros. by apply pump_eof_wf. }
    intros w2 Hw2. cbn [returns]. eapply (kernel_inv_poll _ (Some mac)). exists L, o, m2.
    split; [by eapply kinv_world|done].
Qed.

Lemma drive_https_ok k :
  kernel_inv None M k -> returns (kernel_inv None M) (drive_https inflate brotli epoch_str fuel mac k).
Proof.
  intros Hk. unfold drive_https. cbv zeta. destruct (_ && _).
  - apply run_https_ok, kernel_inv_net; [done|]. intros. wf.
  - destruct (_ && _); [by apply pump_ok|done].
Qed.

(** ** A call of [drive] *)

Lemma drive_tick_ok cfg k : settings_typed cfg -> kernel_inv None M k -> kernel_inv None M (drive_tick cfg k).
Proof.
  intros Hc (L & o & m & Hk & Hm & Ho). unfold drive_tick. cbv zeta.
  assert (kernel_inv None M (sync_settings cfg k)) as Hk1.
  { unfold sync_settings. cbv zeta.
    match goal with |- context [on_net _ ?k1] => assert (kinv L None o m k1) as Hk1
      by (destruct Hk as [? E ?]; split; [done|cbn; rewrite E; by destruct (decide _)|done]); generalize dependent k1 end.
    intros k1 [[Hq Hn] Hp Hse].
    destruct (sync_ip_wf cfg (ip_settings_tag cfg) _ _ _ Hc Hn) as [E|Hs].
    - exists L, o, m. split; [|done]. split; [|done..]. unfold fueled. cbn. by rewrite E.
    - exists false, o, m. split; [|done]. split; [|done..]. split; [done|].
      eapply net_inv_weaken; [exact Hs|lia]. }
  generalize dependent (sync_settings cfg k). intros k1 Hk1.
  eapply (kernel_inv_net _ _ (fun s => s <| tick ::= fun t => wrap32 (t + 1) |>)) in Hk1; [|intros; wf].
  generalize dependent (on_net (fun s => s <| tick ::= fun t => wrap32 (t + 1) |>) k1).
  intros k2 (L2 & o2 & m2 & [] & ?). exists L2, o2, m2. split; [by split|done].
Qed.

Lemma drive_fetch_ok k :
  kernel_inv None M k -> returns (kernel_inv None M) (drive_fetch inflate brotli epoch_str fuel mac k).
Proof.
  intros Hk. unfold drive_fetch. cbv zeta. destruct (_ && _); [|done].
  eapply returns_bind; [apply kernel_inv_world; [|exact Hk]; intros; by apply drive_tcp_wf|].
  intros [k1 go] Hk1. destruct go; [by apply drive_https_ok|done].
Qed.

Lemma drive_ok cfg k :
  settings_typed cfg -> kernel_inv None M k ->
  returns (kernel_inv None M) (drive inflate brotli epoch_str fuel mac cfg k).
Proof.
  intros Hc Hk%(drive_tick_ok cfg); [|done]. unfold drive. cbv zeta.
  generalize dependent (drive_tick cfg k). clear k. intros k (L & o & m & Hk & Hm & Ho).
  eapply returns_bind.
  { apply rx_loop_ok; [done|by eapply ki_world|]. destruct (ki_world _ _ _ _ _ Hk). lia. }
  intros [w buf] Hw. cbn [fst] in Hw.
  assert (kernel_inv None M (k <| world := w |> <| drive_rx_buf := buf |>)) as Hk1.
  { exists L, o, m. split; [|done]. by destruct Hk; split. }
  generalize dependent (k <| world := w |> <| drive_rx_buf := buf |>). clear k w Hk Hw L o m Hm Ho. intros k Hk.
  eapply returns_bind; [apply kernel_inv_world; [|exact Hk]; intros; by apply drive_dhcp_wf|].
  intros [k1 go] Hk1. destruct go; cbn [negb]; [|done]. destruct (is_our_zero _); [done|].
  eapply (kernel_inv_net _ _ (fun s => s <| phase := phase_of s |>)) in Hk1; [|intros; wf].
  cbn [fst] in Hk1. generalize dependent (on_net (fun s => s <| phase := phase_of s |>) k1). intros k2 Hk2.
  eapply returns_bind; [apply kernel_inv_world; [|exact Hk2]; intros; by apply drive_arp_wf|].
  intros [k3 go] Hk3. destruct go; cbn [negb]; [|done].
  eapply returns_bind; [apply kernel_inv_world; [|exact Hk3]; intros; by apply drive_dns_wf|].
  intros [k4 go] Hk4. destruct go; cbn [negb]; [|done]. by apply drive_fetch_ok.
Qed.

(** ** Any sequence of calls *)

Definition event_ok (e : net_event) : Prop :=
  match e with Drive cfg => settings_typed cfg | _ => True end.

Lemma kernel_inv_reset k f :
  kernel_inv None M k -> (forall L B s, net_inv L B s -> net_inv false B (f s)) ->
  kernel_inv None M (on_net f (k <| tls_poll := None |>)).
Proof.
  intros (L & o & m & Hk & ? & _) Hf. eapply (kernel_inv_dropped _ _ o m); [|done].
  eapply (kinv_net L); [by destruct Hk; split|]. intros. by eapply Hf.
Qed.

Lemma net_call_ok e k :
  event_ok e -> kernel_inv None M k ->
  returns (kernel_inv None M) (net_call inflate brotli epoch_str fuel mac e k).
Proof.
  intros He Hk. destruct e as [cfg|url|]; cbn [net_call].
  - by apply drive_ok.
  - destruct Hk as (L & o & m & [[Hq Hn] Hp Ho] & Hm & _). unfold lift_net.
    eapply (returns_bind (fueled false m)).
    + eapply returns_bind; [exact (start_fetch_inv url L _ (m - pending (nicd (world k))) _ Hn)|].
      intros s Hs. by split.
    + intros w Hw. eapply (kernel_inv_dropped _ _ o m); [by split|done].
  - apply (kernel_inv_reset k); [done|]. intros. by eapply reset_demo_wf.
Qed.

Lemma net_calls_ok es k :
  Forall event_ok es -> kernel_inv None M k ->
  returns (kernel_inv None M) (net_calls inflate brotli epoch_str fuel mac es k).
Proof.
  intros Hes. revert k. induction Hes as [|e es He _ IH]; intros k Hk; cbn [net_calls]; [done|].
  eapply returns_bind; [by apply net_call_ok|exact IH].
Qed.

Lemma boot_kernel_ok scr l d : (pending d <= M)%nat -> kernel_inv None M (boot_kernel mac scr l d).
Proof.
  intros Hd. eapply (kernel_inv_dropped _ _ None M); [|done]. split; [|done..]. split; [done|].
  apply seed_wf, static_initial_wf.
Qed.
End session.
End kernel.

(** What holds between two calls: the stack is well formed, a live TLS session is
    initialised, and the poll target is null. *)
Record kernel_wf {N T} (k : Kernel N T) : Prop := {
  kw_net : net_wf k.(world).(net);
  kw_session : k.(world).(net).(tls_live) = true -> is_Some k.(session);
  kw_poll : k.(tls_poll) = None;
}.

Lemma kernel_inv_kernel_wf {N} `{NicOk N} {T} `{TlsOk T} M (k : Kernel N T) :
  kernel_inv None M k -> kernel_wf k.
Proof.
  intros (L & o & m & [[_ Hn] Hp Ho] & _ & Hl). split; [by eapply net_inv_wf| |done].
  intros E. rewrite (nw_live _ Hn) in E. destruct (Hl E) as (t & Ht & _). rewrite Ho. eauto.
Qed.

Lemma net_calls_return inflate brotli {N} `{NicOk N} {T} `{TlsOk T} epoch_str fuel mac scr l (d : N) es :
  length mac = 6%nat -> (pending d < fuel)%nat -> Forall event_ok es ->
  exists k : Kernel N T,
    net_calls inflate brotli epoch_str fuel mac es (boot_kernel mac scr l d) = Ret k /\ kernel_wf k.
Proof.
  intros Hm Hf Hes. apply returns_ex. eapply returns_weaken.
  - eapply (net_calls_ok _ _ _ _ (pending d)); [done|done|done|]. by apply boot_kernel_ok.
  - intros k. apply kernel_inv_kernel_wf.
Qed.

(** C2: whatever the user fetches and whatever arrives, the network driver never
    crashes, hangs or touches a dead session: from boot, any sequence of [drive],
    [start_fetch] and [reset_demo] returns, over any NIC that delivers a finite
    amount of traffic (in any order and at any time), any decompressors, and any
    TLS library that produces no more plaintext than it has read; the fuel of the
    receive loops and of the pump only has to exceed that traffic.  Between the
    calls the stack is well formed, a session marked live is initialised, and the
    bridge's raw pointers are null. *)
Theorem net_calls_safe inflate brotli {N} `{NicOk N} {T} `{TlsOk T} epoch_str fuel mac scr l (d : N) es :
  length mac = 6%nat -> (pending d < fuel)%nat -> Forall event_ok es ->
  exists k : Kernel N T,
    net_calls inflate brotli epoch_str fuel mac es (boot_kernel mac scr l d) = Ret k /\ kernel_wf k.
Proof. intros Hm Hf Hes. exact (net_calls_return inflate brotli epoch_str fuel mac scr l d es Hm Hf Hes). Qed.

(** ** Instances *)

(** The traffic of a NIC in memory. *)
Definition frames_size (fs : list (option bytes)) : nat :=
  sum_list_with (fun f => from_option (fun f => S (length f)) 0%nat f) fs.

#[export, program] Instance MemNic_ok : NicOk MemNic := { pending d := frames_size d.(mn_waiting) }.
Next Obligation. done. Qed.
Next Obligation. intros [sent [|[f|] fs]] buf; cbn; lia. Qed.

(** A TLS library without encryption: it opens with a one-byte greeting, and what
    it reads is the plaintext. *)
Inductive NullTls := NullSession.

#[export] Instance NullTls_lib : TlsLib NullTls := {
  tls_open root host rng now :=
    TlsWrite [22] (fun ok => TlsFlush (fun _ => TlsRead 1 (fun r =>
      TlsDone (NullSession, ok && bool_decide (r = Some [22])))));
  tls_write_all t data := TlsWrite data (fun ok => TlsDone (t, ok));
  tls_flush t := TlsFlush (fun ok => TlsDone (t, ok));
  tls_read t cap := TlsRead cap (fun r => TlsDone (t, r));
}.

#[export, program] Instance NullTls_ok : TlsOk NullTls := { budget _ := 0%nat }.
Next Obligation. intros. cbn. intros. lia. Qed.
Next Obligation. intros. cbn. intros. lia. Qed.
Next Obligation. intros. cbn. intros. lia. Qed.
Next Obligation. intros. cbn. intros. lia. Qed.

Lemma net_calls_safe_witness :
  let mac := [2; 0; 0; 0; 0; 1] in
  let d := {| mn_sent := []; mn_waiting := [Some (replicate 60 0); None; Some [1; 2; 3]] |} in
  let es := [StartFetch (bs "https://10.0.2.2/x"); Drive settings_new; ResetDemo; Drive settings_new] in
  (pending d < 100)%nat /\
  exists k : Kernel MemNic NullTls,
    net_calls no_inflate no_brotli [] 100 mac es (boot_kernel mac (replicate 2048 0) log_new d) = Ret k /\ kernel_wf k.
Proof.
  intros mac d es. assert (pending d < 100)%nat as Hp by (vm_compute; lia). split; [exact Hp|].
  apply (net_calls_safe no_inflate no_brotli [] 100 mac _ log_new d es); [reflexivity|exact Hp|].
  repeat constructor; apply settings_new_typed.
Defined.

(** ** A fetch from boot to page

    The gateway answers ARP, the server accepts and sends the response in two
    segments; the page is its body and the GET was sent. *)
Definition rx_arp_reply (spa sha tpa : bytes) : bytes :=
  replicate 12 0 ++ [8; 6; 0; 1; 8; 0; 6; 4; 0; 2] ++ sha ++ spa ++ replicate 6 0 ++ tpa.
Definition rx_tcp (sip dip : bytes) (sport dport seq flags : Z) (data : bytes) : bytes :=
  replicate 12 0 ++ [8; 0; 0x45; 0] ++ to_be 2 (40 + Z.of_nat (length data)) ++ replicate 5 0 ++ [6; 0; 0] ++
  sip ++ dip ++ to_be 2 sport ++ to_be 2 dport ++ to_be 4 seq ++ to_be 4 0 ++ [0x50; flags] ++ replicate 6 0 ++ data.

Definition demo_calls : list net_event :=
  [Drive settings_new; StartFetch (bs "http://10.0.2.9/i"); Drive settings_new; Drive settings_new; Drive settings_new].
Definition demo_nic : MemNic :=
  let seg := rx_tcp [10; 0; 2; 9] [10; 0; 2; 15] 80 LOCAL_PORT in
  {| mn_sent := [];
     mn_waiting := [Some (rx_arp_reply [10; 0; 2; 2] [2; 2; 2; 2; 2; 2] [10; 0; 2; 15]); None; None;
                    Some (seg 7 0x12 []); None;
                    Some (seg 8 0x18 (bs "HTTP/1.1 200 OK" ++ [13; 10] ++ bs "Content-Length: 5" ++ [13; 10; 13; 10] ++ bs "he"));
                    Some (seg 9 0x18 (bs "llo"))] |}.

Example fetch_ex :
  match net_calls no_inflate no_brotli [] 2000 [2; 0; 0; 0; 0; 1] demo_calls
          (boot_kernel (T := NullTls) [2; 0; 0; 0; 0; 1] (replicate 2048 0) log_new demo_nic) with
  | Ret k => (page_bytes k.(world).(net), k.(world).(net).(fetch_done), k.(world).(net).(fetch_err_len),
              length k.(world).(nicd).(mn_sent))
  | Panic => ([], false, 0, 0)%nat
  end = (bs "hello", true, 0, 4)%nat.
Proof. vm_compute. reflexivity. Qed.
