(* ===== verification/AnyNic.v ===== *)
(** * The choice between the network cards ([kernel/src/nic/x86.rs])

    [AnyNic] is the card in use, [CardOps] the operations of its driver on the
    machine (the driver's own state included).  [VirtioNet.v] and [Rtl8139.v]
    model two of the drivers.  The stack builds packets with room for the VirtIO
    header in front; [transmit] cuts it off for the other cards. *)

From S2P Require Import Prelude Settings Log NetWire Http NetStack NetSafe Tls NetDrive DriveSafe.

Inductive AnyNic := Virtio | Rtl8139 | Rtl8168 | E1000 | Vmxnet3 | Bge | Pcnet.
#[export] Instance AnyNic_eq_dec : EqDecision AnyNic.
Proof. solve_decision. Defined.

Record CardOps (W : Type) := {
  co_probe : W -> W * bool;
  co_mac : W -> bytes;
  co_rx_packets : W -> Z;
  co_poll_rx_packet : W -> bytes -> W * option nat * bytes;
  co_transmit : W -> bytes -> W * bool;
}.
Arguments co_probe {W}.
Arguments co_mac {W}.
Arguments co_rx_packets {W}.
Arguments co_poll_rx_packet {W}.
Arguments co_transmit {W}.

(** The order in which [probe] tries the drivers. *)
Definition probe_order : list AnyNic := [Virtio; Rtl8139; Rtl8168; E1000; Vmxnet3; Bge; Pcnet].

Section any.
Context {W : Type} (ops : AnyNic -> CardOps W).

Fixpoint probe_from (kinds : list AnyNic) (w : W) : W * option AnyNic :=
  match kinds with
  | [] => (w, None)
  | k :: kinds =>
      let '(w, found) := co_probe (ops k) w in
      if found : bool then (w, Some k) else probe_from kinds w
  end.
Definition probe (w : W) : W * option AnyNic := probe_from probe_order w.

Definition driver_tag (k : AnyNic) : bytes :=
  match k with
  | Virtio => bs "virtio-net" | Rtl8139 => bs "rtl8139" | Rtl8168 => bs "rtl8168" | E1000 => bs "e1000"
  | Vmxnet3 => bs "vmxnet3" | Bge => bs "bge" | Pcnet => bs "pcnet"
  end.

Definition mac (k : AnyNic) (w : W) : bytes := co_mac (ops k) w.
Definition rx_packets (k : AnyNic) (w : W) : Z := co_rx_packets (ops k) w.
Definition poll_rx_packet (k : AnyNic) (w : W) (out : bytes) : W * option nat * bytes :=
  co_poll_rx_packet (ops k) w out.

Definition VH : nat := VIRTIO_NET_HDR.

Definition transmit (k : AnyNic) (w : W) (pkt : bytes) : W * bool :=
  if decide (k = Virtio) then co_transmit (ops k) w pkt
  else if decide (length pkt <= VH)%nat then (w, false)
  else co_transmit (ops k) w (drop VH pkt).

(** ** The card in use as the stack's NIC *)

(** A driver whose card receives finitely much. *)
Record finite_card (o : CardOps W) := {
  fc_pending : W -> nat;
  fc_transmit w f : (fc_pending (co_transmit o w f).1 <= fc_pending w)%nat;
  fc_poll w buf :
    match co_poll_rx_packet o w buf with
    | (w', Some n, _) => (fc_pending w' + n < fc_pending w)%nat
    | (w', None, _) => (fc_pending w' <= fc_pending w)%nat
    end;
}.

Definition InUse : Type := AnyNic * W.

#[export] Instance InUse_nic : Nic InUse := {
  NetStack.transmit := fun d pkt => let '(w, ok) := transmit d.1 d.2 pkt in ((d.1, w), ok);
  NetStack.poll_rx_packet := fun d out => let '(w, r, out) := poll_rx_packet d.1 d.2 out in ((d.1, w), r, out) }.

Definition InUse_ok (fin : forall k, finite_card (ops k)) : NicOk InUse.
Proof.
  refine {| pending := fun d : InUse => fc_pending _ (fin d.1) d.2 |}.
  - intros [k w] pkt. cbn. unfold transmit. pose proof (fc_transmit _ (fin k) w) as Ht.
    case_decide; [specialize (Ht pkt); by destruct (co_transmit (ops k) w pkt)|].
    case_decide; [done|]. specialize (Ht (drop VH pkt)). by destruct (co_transmit (ops k) w (drop VH pkt)).
  - intros [k w] buf. cbn. unfold poll_rx_packet. pose proof (fc_poll _ (fin k) w buf) as Hp.
    by destruct (co_poll_rx_packet (ops k) w buf) as [[w' [n|]] buf'].
Defined.

(** A packet of the stack reaches the card without the header, VirtIO aside. *)
Lemma transmit_frame k w hdr f : length hdr = VH -> f <> [] ->
  transmit k w (hdr ++ f) = co_transmit (ops k) w (if decide (k = Virtio) then hdr ++ f else f).
Proof.
  intros Hh Hf. unfold transmit. assert (~ (length (hdr ++ f) <= VH)%nat)
    by (rewrite length_app, Hh; destruct f; [done|cbn [length]; lia]).
  case_decide; [done|]. rewrite decide_False by done. by rewrite <-Hh, drop_app_length.
Qed.

(** The card in use is the first in the order whose driver finds its device. *)
Lemma probe_from_first kinds w w' k : probe_from kinds w = (w', Some k) ->
  exists before after w0, kinds = before ++ k :: after /\ probe_from before w = (w0, None) /\
    co_probe (ops k) w0 = (w', true).
Proof.
  revert w. induction kinds as [|k0 kinds IH]; intros w; [done|]. cbn.
  destruct (co_probe (ops k0) w) as [w1 [|]] eqn:E.
  - intros [= <- <-]. by exists [], kinds, w.
  - intros (before & after & w0 & -> & Eb & Ep)%IH. exists (k0 :: before), after, w0. cbn. by rewrite E.
Qed.
End any.
