(* ===== verification/NicAdapter.v ===== *)
(** * The network stack over the drivers of the cards

    A driver that always returns ([finite_driver] of [NicDriver.v]), between two
    calls, is one of the cards of [AnyNic.v], and so a NIC with finite traffic
    ([NicOk] of [DriveSafe.v]).  So what holds of the stack over any such NIC
    holds over the drivers.  [VirtioNic.v] and [E1000Nic.v] say it for two cards. *)

From S2P Require Import Prelude Settings Log NetWire Http NetStack NetSafe Tls NetDrive DriveSafe NicDriver AnyNic.

(** ** A driver as a card *)

(** The driver's state, the machine and the memory they share. *)
Record CardState (D W P : Type) := { cs_driver : D; cs_world : W; cs_pages : P }.
Arguments Build_CardState {D W P}.
Arguments cs_driver {D W P}.
Arguments cs_world {D W P}.
Arguments cs_pages {D W P}.

Section adapter.
Context {D W P : Type}.
Context {poll : D -> bytes -> W -> P -> W * rust (D * P * option nat * bytes)}.
Context {transmit : D -> bytes -> W -> P -> W * rust (D * P * bool)}.
Context (F : finite_driver poll transmit) (mac : D -> bytes) (rx_packets : D -> Z).
Implicit Types (s : CardState D W P).

Definition cs_inv s : Prop := f_inv _ _ F (cs_driver s) (cs_world s) (cs_pages s).
Definition cs_left s : nat := f_left _ _ F (cs_driver s) (cs_world s) (cs_pages s).

Definition poll_state s (room : bytes) : CardState D W P * option nat * bytes :=
  match poll (cs_driver s) room (cs_world s) (cs_pages s) with
  | (w, Ret (d, p, r, out)) => (Build_CardState d w p, r, out)
  | (_, Panic) => (s, None, room)
  end.

Definition transmit_state s (pkt : bytes) : CardState D W P * bool :=
  match transmit (cs_driver s) pkt (cs_world s) (cs_pages s) with
  | (w, Ret (d, p, ok)) => (Build_CardState d w p, ok)
  | (_, Panic) => (s, false)
  end.

(** The driver never panics, so the second cases are not taken. *)
Lemma poll_state_ok s room : cs_inv s -> cs_inv (poll_state s room).1.1 /\
  match (poll_state s room).1.2 with
  | Some n => cs_left (poll_state s room).1.1 + n < cs_left s
  | None => cs_left (poll_state s room).1.1 <= cs_left s
  end%nat.
Proof. intros Hi. unfold poll_state. by destruct (f_poll _ _ F _ room _ _ Hi) as (d & w & p & r & out & -> & Hi' & Hl). Qed.

Lemma transmit_state_ok s pkt : cs_inv s -> cs_inv (transmit_state s pkt).1 /\
  (cs_left (transmit_state s pkt).1 <= cs_left s)%nat.
Proof. intros Hi. unfold transmit_state. by destruct (f_send _ _ F _ pkt _ _ Hi) as (d & w & p & ok & -> & Hi' & Hl). Qed.

Definition Adapter : Type := { s : CardState D W P | cs_inv s }.

Definition adapter_poll (A : Adapter) (room : bytes) : Adapter * option nat * bytes :=
  let s := proj1_sig A in
  (exist _ (poll_state s room).1.1 (proj1 (poll_state_ok s room (proj2_sig A))),
   (poll_state s room).1.2, (poll_state s room).2).

Definition adapter_transmit (A : Adapter) (pkt : bytes) : Adapter * bool :=
  let s := proj1_sig A in
  (exist _ (transmit_state s pkt).1 (proj1 (transmit_state_ok s pkt (proj2_sig A))), (transmit_state s pkt).2).

(** The card has been found and started. *)
Definition adapter_ops : CardOps Adapter := {|
  co_probe := fun A => (A, true);
  co_mac := fun A => mac (cs_driver (proj1_sig A));
  co_rx_packets := fun A => rx_packets (cs_driver (proj1_sig A));
  co_poll_rx_packet := adapter_poll;
  co_transmit := adapter_transmit |}.

Definition adapter_finite : finite_card adapter_ops.
Proof.
  refine {| fc_pending := fun A : Adapter => cs_left (proj1_sig A) |}.
  - intros A pkt. cbn. apply transmit_state_ok, (proj2_sig A).
  - intros A room. cbn. pose proof (proj2 (poll_state_ok (proj1_sig A) room (proj2_sig A))).
    by destruct (poll_state _ _).1.2.
Defined.

Definition card_nic : Nic (InUse (W := Adapter)) := InUse_nic (fun _ => adapter_ops).
Definition card_nic_ok : @NicOk _ card_nic := InUse_ok (fun _ => adapter_ops) (fun _ => adapter_finite).

(** The main loop over the card, of whatever kind [k] it is. *)
Lemma kernel_over_card inflate brotli {T} `{TlsOk T} epoch_str fuel scr l es k (A : Adapter) :
  length (mac (cs_driver (proj1_sig A))) = 6%nat -> (cs_left (proj1_sig A) < fuel)%nat -> Forall event_ok es ->
  exists kern : Kernel (InUse (W := Adapter)) T,
    net_calls (H := card_nic) inflate brotli epoch_str fuel (mac (cs_driver (proj1_sig A))) es
      (boot_kernel (mac (cs_driver (proj1_sig A))) scr l (k, A)) = Ret kern /\ kernel_wf kern.
Proof.
  intros Hm Hf Hes.
  exact (@net_calls_return inflate brotli _ card_nic card_nic_ok T _ _ epoch_str fuel _ scr l (k, A) es Hm Hf Hes).
Qed.

(** A kernel that is built for one card uses its driver directly. *)
Definition adapter_nic : Nic Adapter := {|
  NetStack.transmit := adapter_transmit; NetStack.poll_rx_packet := adapter_poll |}.

Definition adapter_nic_ok : @NicOk _ adapter_nic.
Proof.
  refine {| pending := fun A : Adapter => cs_left (proj1_sig A) |}.
  - exact (fc_transmit _ adapter_finite).
  - exact (fc_poll _ adapter_finite).
Defined.

Lemma kernel_over_adapter inflate brotli {T} `{TlsOk T} epoch_str fuel scr l es (A : Adapter) :
  length (mac (cs_driver (proj1_sig A))) = 6%nat -> (cs_left (proj1_sig A) < fuel)%nat -> Forall event_ok es ->
  exists kern : Kernel Adapter T,
    net_calls (H := adapter_nic) inflate brotli epoch_str fuel (mac (cs_driver (proj1_sig A))) es
      (boot_kernel (mac (cs_driver (proj1_sig A))) scr l A) = Ret kern /\ kernel_wf kern.
Proof.
  intros Hm Hf Hes.
  exact (@net_calls_return inflate brotli _ adapter_nic adapter_nic_ok T _ _ epoch_str fuel _ scr l A es Hm Hf Hes).
Qed.
End adapter.
