(* ===== verification/ArmNic.v ===== *)
(** * The network card of the ARM target ([kernel/src/nic/aarch64.rs])

    The choice between the cards has one alternative there, behind a switch
    that the loader sets: reading the slots of the emulated board is safe only
    where they exist.  The stack runs over it as over the cards of the PC. *)

From S2P Require Import Prelude Settings Log NetWire Http NetStack NetSafe Tls NetDrive DriveSafe AnyNic NicAdapter.
From S2P Require Import Ports Pci VirtioBlk NicDriver VirtioNet VirtioNetOk VirtioMmioNet VirtioMmioNetOk.

Inductive AnyNic := VirtioMmio (n : VirtioMmioNet).

Definition driver_tag (d : AnyNic) : bytes := match d with VirtioMmio _ => bs "virtio-net-mmio" end.
Definition mac (d : AnyNic) : bytes := match d with VirtioMmio n => VirtioMmioNet.mac n end.
Definition rx_packets (d : AnyNic) : Z := match d with VirtioMmio n => VirtioMmioNet.rx_packets n end.

Section any.
Context {W : Type} `{NetMachine W}.

(** [ALLOW_VIRTIO_MMIO_SCAN] is the argument [allowed]. *)
Definition probe (allowed : bool) (p : NetPages) (w : W) : W * rust (NetPages * option AnyNic) :=
  if allowed then
    let '(w, r) := VirtioMmioNet.probe p w in (w, '(p, n) ← r; Ret (p, option_map VirtioMmio n))
  else (w, Ret (p, None)).

Definition poll_rx_packet (d : AnyNic) (out : bytes) (w : W) (p : NetPages) :
    W * rust (AnyNic * NetPages * option nat * bytes) :=
  match d with
  | VirtioMmio n =>
      let '(w, r) := VirtioMmioNet.poll_rx_packet n out w p in
      (w, '(n, p, r, out) ← r; Ret (VirtioMmio n, p, r, out))
  end.

Definition transmit (d : AnyNic) (pkt : bytes) (w : W) (p : NetPages) : W * rust (AnyNic * NetPages * bool) :=
  match d with
  | VirtioMmio n =>
      let '(w, r) := VirtioMmioNet.transmit n pkt w p in (w, '(n, p, ok) ← r; Ret (VirtioMmio n, p, ok))
  end.

(** With the switch off no register is touched. *)
Lemma probe_forbidden p w : probe false p w = (w, Ret (p, None)).
Proof. reflexivity. Qed.
End any.

Section finite.
Context {W : Type} `{NetMachine W} (b : Z) (Hb : 0 <= b) (rxm txm : Z).
Context `{!MmioNetDevice W (mmio_place b rxm txm)}.

Definition arm_finite : finite_driver (W := W) poll_rx_packet transmit.
Proof.
  pose (F := mmio_finite b Hb rxm txm).
  refine {| f_inv := fun '(VirtioMmio n) w p => f_inv _ _ F n w p; f_left := fun '(VirtioMmio n) w p => f_left _ _ F n w p |}.
  - intros [n] room w p Hi. destruct (f_poll _ _ F n room w p Hi) as (n' & w' & p' & r & out & E & Hi' & Hl).
    exists (VirtioMmio n'), w', p', r, out. cbn. rewrite E. by split_and!.
  - intros [n] pkt w p Hi. destruct (f_send _ _ F n pkt w p Hi) as (n' & w' & p' & ok & E & Hi' & Hl).
    exists (VirtioMmio n'), w', p', ok. cbn. rewrite E. by split_and!.
Defined.
End finite.

Definition ArmCard {W} `{NetMachine W} b Hb rxm txm `{!MmioNetDevice W (mmio_place b rxm txm)} : Type :=
  Adapter (arm_finite b Hb rxm txm).

(** From a successful start-up on, no sequence of the main loop's calls crashes. *)
Lemma kernel_over_arm inflate brotli {W} `{NetMachine W} {T} `{TlsOk T} epoch_str fuel scr l es
    p (w w' : W) p' n `{!MmioNetDevice W (mmio_place (base n) (rx_mask n) (tx_mask n))} :
  queue_shape RX_QSZ (RXQ p) -> queue_shape TX_QSZ (TXQ p) -> probe true p w = (w', Ret (p', Some (VirtioMmio n))) ->
  rx_done (mm_wire w') = 0 -> tx_done (mm_wire w') = 0 ->
  (virtio_traffic (incoming (mm_wire w')) < fuel)%nat -> Forall event_ok es ->
  exists Hb (nic : ArmCard (base n) Hb (rx_mask n) (tx_mask n)),
    proj1_sig nic = Build_CardState (VirtioMmio n) w' p' /\
  exists k : Kernel (ArmCard (base n) Hb (rx_mask n) (tx_mask n)) T,
    net_calls (H := adapter_nic (arm_finite (base n) Hb (rx_mask n) (tx_mask n)))
      inflate brotli epoch_str fuel (VirtioMmioNet.mac n) es
      (boot_kernel (VirtioMmioNet.mac n) scr l nic) = Ret k /\ kernel_wf k.
Proof.
  intros Hr Ht E Er Et Hfuel Hes. unfold probe in E.
  destruct (VirtioMmioNet.probe p w) as [w1 [[p1 [n1|]]|]] eqn:Ep; [|done..]. injection E as -> -> ->.
  apply scan_ready in Ep as [Hin Hrd]; [|done..].
  assert (0 <= base n) as Hb by (apply slots_range in Hin; lia).
  destruct (ready_mmio n w' p' Hrd Er Et) as [Hi Eb].
  exists Hb, (exist _ (Build_CardState (VirtioMmio n) w' p') Hi). split; [done|].
  apply (kernel_over_adapter (arm_finite (base n) Hb (rx_mask n) (tx_mask n)) mac rx_packets inflate brotli
    epoch_str fuel scr l es (exist _ (Build_CardState (VirtioMmio n) w' p') Hi)); [apply Hrd| |done].
  change (virtio_traffic (mmio_backlog n w' p') < fuel)%nat. by rewrite Eb.
Qed.
