(* ===== verification/VirtioNic.v ===== *)
(** * The network stack over the VirtIO driver

    The start-up of the card ([VirtioNetOk.v]) and the adapter of [NicAdapter.v]
    together: from the start-up on, no sequence of the main loop's calls crashes. *)

From S2P Require Import Prelude Settings Log NetWire Http NetStack NetSafe Tls NetDrive DriveSafe AnyNic NicAdapter.
From S2P Require Import Ports Pci VirtioBlk VirtioNet NicDriver VirtioNetOk.

Definition VirtioCard {W} `{VirtioNetDevice W d} : Type := Adapter (W := W) (virtio_finite (d := d)).

(** C10: The whole network side over the VirtIO card: when its start-up succeeds,
    on a device that follows the protocol, then from boot any sequence of the
    main loop's calls (drive, fetch, reset) returns and leaves the stack well
    formed, whatever frames the network sends, whatever the decompressors do,
    and over any TLS library that produces no more plaintext than it reads. *)
Theorem kernel_over_virtio_net inflate brotli {W} `{NetMachine W} {T} `{TlsOk T} epoch_str fuel scr l es
    mmio_off (w w' : W) p n off (V : VirtioNetDevice W (place_of n off)) :
  probe mmio_off NetPages_zero w = (w', Ret (p, Some n)) ->
  rx_done (wire w') = 0 -> tx_done (wire w') = 0 ->
  (virtio_traffic (incoming (wire w')) < fuel)%nat -> Forall event_ok es ->
  exists nic : VirtioCard (W := W), proj1_sig nic = Build_CardState n w' p /\
  exists k : Kernel (InUse (W := VirtioCard (W := W))) T,
    net_calls (H := card_nic virtio_finite mac rx_packets) inflate brotli epoch_str fuel
      (mac n) es (boot_kernel (mac n) scr l (Virtio, nic)) = Ret k /\ kernel_wf k.
Proof.
  intros E Hrd Htd Hfuel Hes.
  destruct (probe_ready off mmio_off NetPages_zero w w' p n) as (Hp & Hr & Ht & Hheld & Hfl & Hmac);
    [apply zero_queue_shape; unfold RX_QSZ; lia|apply zero_queue_shape; unfold TX_QSZ; lia|done|].
  assert (cs_inv virtio_finite (Build_CardState n w' p)) as Hi.
  { split; [|done]. unfold net_inv. cbn. rewrite Hrd, Htd. by split_and!. }
  exists (exist _ _ Hi). split; [done|].
  apply (kernel_over_card virtio_finite mac rx_packets inflate brotli epoch_str fuel scr l es Virtio (exist _ _ Hi));
    [done| |done].
  cbn. unfold cs_left. cbn. unfold backlog. by rewrite Hheld.
Qed.

Lemma box_device n off : place_of n off = mem_net_place ->
  exists D : VirtioNetDevice NetBox (place_of n off), forall w, @wire _ _ _ D w = nb_wire w.
Proof. intros ->. by exists NetBox_device. Qed.

Lemma kernel_over_virtio_net_witness :
  let es := [StartFetch (bs "http://10.0.2.2/x"); Drive settings_new; ResetDemo; Drive settings_new] in
  exists (V : VirtioNetDevice NetBox (place_of box_n (fun _ => 0))) (nic : VirtioCard (d := place_of box_n (fun _ => 0))),
    proj1_sig nic = Build_CardState box_n box_w box_p /\
  exists k : Kernel (InUse (W := VirtioCard (d := place_of box_n (fun _ => 0)))) NullTls,
    net_calls (H := card_nic virtio_finite mac rx_packets) no_inflate no_brotli [] 100 (mac box_n) es (boot_kernel (mac box_n) (replicate 2048 0) log_new (Virtio, nic)) = Ret k /\
    kernel_wf k.
Proof.
  intros es. destruct (box_device box_n (fun _ => 0)) as [V ED]; [vm_compute; reflexivity|]. exists V.
  destruct (kernel_over_virtio_net (T := NullTls) no_inflate no_brotli [] 100 (replicate 2048 0) log_new es None
    (cold_box two_frames) box_w box_p box_n (fun _ => 0) V) as (nic & En & k & Ek & Hk).
  - exact box_probe.
  - rewrite ED. vm_compute. reflexivity.
  - rewrite ED. vm_compute. reflexivity.
  - rewrite ED. apply Nat.ltb_lt. vm_compute. reflexivity.
  - repeat constructor; apply settings_new_typed.
  - exists nic. split; [exact En|]. exists k. split; [exact Ek|exact Hk].
Defined.
