(* ===== verification/E1000Nic.v ===== *)
(** * The network stack over the Intel gigabit driver

    The start-up of the card ([E1000Ok.v]) and the adapter of [NicAdapter.v]
    together: from the start-up on, no sequence of the main loop's calls crashes. *)

From S2P Require Import Prelude Settings Log NetWire Http NetStack NetSafe Tls NetDrive DriveSafe AnyNic NicAdapter.
From S2P Require Import Ports Pci VirtioBlk VirtioNet NicDriver E1000 E1000Ok.

Definition E1000Card {W} `{E1000Device W d} : Type := Adapter (W := W) (e1000_finite (d := d)).

(** C12: The whole network side over the Intel card, the default of the emulator:
    when its start-up succeeds, on a card that follows the data sheet and starts
    with empty rings, then from boot any sequence of the main loop's calls
    returns and leaves the stack well formed, whatever frames the network sends. *)
Theorem kernel_over_e1000 inflate brotli {W} `{E1000Machine W} {T} `{TlsOk T} epoch_str fuel scr l es
    off (w w' : W) p n (V : E1000Device W (place_of n)) :
  probe off PAGES_zero w = (w', (p, Some n)) -> fresh (wire w') ->
  (traffic (incoming (wire w')) < fuel)%nat -> Forall event_ok es ->
  exists nic : E1000Card (W := W), proj1_sig nic = Build_CardState n w' p /\
  exists k : Kernel (InUse (W := E1000Card (W := W))) T,
    net_calls (H := card_nic e1000_finite mac rx_packets) inflate brotli epoch_str fuel (mac n) es
      (boot_kernel (mac n) scr l (AnyNic.E1000, nic)) = Ret k /\ kernel_wf k.
Proof.
  intros E Hfresh Hfuel Hes. pose proof (e1000_probe_ready off _ w w' p n e1000_zero_shape E) as Hr.
  assert (placed (place_of n) n) as Hp by done.
  destruct (e1000_inv_rep n w' p _ _ Hp (e1000_ready_rep n p (wire w') Hr Hfresh)) as (Hi & Ei & _).
  exists (exist _ (Build_CardState n w' p) Hi). split; [done|].
  apply (kernel_over_card e1000_finite mac rx_packets inflate brotli epoch_str fuel scr l es AnyNic.E1000
    (exist _ (Build_CardState n w' p) Hi)); [apply Hr| |done].
  change (traffic (ins_of n (wire w') p) < fuel)%nat. by rewrite Ei.
Qed.

Lemma intel_device n : place_of n = mem_place -> exists V : E1000Device Box (place_of n), forall w, @wire _ _ _ V w = box_wire w.
Proof. intros ->. by exists Box_device. Qed.

Lemma kernel_over_e1000_witness :
  let es := [StartFetch (bs "http://10.0.2.2/x"); Drive settings_new; ResetDemo; Drive settings_new] in
  exists (V : E1000Device Box (place_of box_n)) (nic : E1000Card (d := place_of box_n)),
    proj1_sig nic = Build_CardState box_n box_w box_p /\
  exists k : Kernel (InUse (W := E1000Card (d := place_of box_n))) NullTls,
    net_calls (H := card_nic e1000_finite mac rx_packets) no_inflate no_brotli [] 100 (mac box_n) es
      (boot_kernel (mac box_n) (replicate 2048 0) log_new (AnyNic.E1000, nic)) = Ret k /\ kernel_wf k.
Proof.
  intros es. destruct (intel_device box_n) as [V EV]; [exact e1000_box_place|]. exists V.
  destruct (kernel_over_e1000 (T := NullTls) no_inflate no_brotli [] 100 (replicate 2048 0) log_new es None
    (cold_box two_frames) box_w box_p box_n V) as (nic & En & k & Ek & Hk).
  - exact e1000_box_probe.
  - rewrite EV. vm_compute. split_and!; reflexivity.
  - rewrite EV. apply Nat.ltb_lt. vm_compute. reflexivity.
  - repeat constructor; apply settings_new_typed.
  - exists nic. split; [exact En|]. exists k. split; [exact Ek|exact Hk].
Defined.
