(* ===== verification/Rtl8168Nic.v ===== *)
(** * The network stack over the RTL8168 driver

    The start-up of the card ([Rtl8168Ok.v]) and the adapter of [NicAdapter.v]
    together: from the start-up on, no sequence of the main loop's calls crashes. *)

From S2P Require Import Prelude Settings Log NetWire Http NetStack NetSafe Tls NetDrive DriveSafe AnyNic NicAdapter.
From S2P Require Import Ports Pci VirtioBlk VirtioNet NicDriver Rtl8168 Rtl8168Ok.

Definition Rtl8168Card {W} `{Rtl8168Device W d} : Type := Adapter (W := W) (rtl8168_finite (d := d)).

(** As for the VirtIO and the Intel cards. *)
Lemma kernel_over_rtl8168 inflate brotli {W} `{Rtl8168Machine W} {T} `{TlsOk T} epoch_str fuel scr l es
    off (w w' : W) p n (V : Rtl8168Device W (place_of n)) :
  0 <= PAGES_at (W := W) < 2 ^ 63 ->
  probe off PAGES_zero w = (w', (p, Some n)) -> rxh (wire w') = 0%nat -> txh (wire w') = 0%nat ->
  (traffic (incoming (wire w')) < fuel)%nat -> Forall event_ok es ->
  exists nic : Rtl8168Card (W := W), proj1_sig nic = Build_CardState n w' p /\
  exists k : Kernel (InUse (W := Rtl8168Card (W := W))) T,
    net_calls (H := card_nic rtl8168_finite mac rx_packets) inflate brotli epoch_str fuel (mac n) es
      (boot_kernel (mac n) scr l (AnyNic.Rtl8168, nic)) = Ret k /\ kernel_wf k.
Proof.
  intros Hat E Eh Et Hfuel Hes.
  pose proof (r68_probe_ready off _ w w' p n (proj1 r68_zero_shape) (proj2 r68_zero_shape) E) as Hr.
  destruct (r68_ready_rep n p (wire w') Hr Hat Eh Et) as [Hp Hrep].
  destruct (r68_inv_rep n w' p _ _ Hp Hrep) as (Hi & Ei & _).
  exists (exist _ (Build_CardState n w' p) Hi). split; [done|].
  apply (kernel_over_card rtl8168_finite mac rx_packets inflate brotli epoch_str fuel scr l es AnyNic.Rtl8168
    (exist _ (Build_CardState n w' p) Hi)); [apply Hr| |done].
  change (traffic (ins_of n (wire w') p) < fuel)%nat. by rewrite Ei.
Qed.
