(* ===== verification/NetFetch.v ===== *)
(** * What a fetch delivers

    The bodies of responses: the chunked decoder is a byte-at-a-time machine
    ([chunk_run]) whatever the segments, it inverts the chunked encoding, and a
    response cut anywhere into segments ends as its body on the page. *)

From S2P Require Import Prelude Url Log Settings NetWire Http NetStack NetSafe.

Lemma line_cap_pos : (0 < CHUNK_LINE_CAP)%nat.
Proof. apply Nat.lt_0_succ. Qed.

#[local] Opaque PAGE_CAP STREAM_CAP CHUNK_LINE_CAP TLS_CIPHER_RX_CAP TLS_TX_CAP.

Section fetch.
Context (inflate : bool -> bytes -> inflate_result) (brotli : bytes -> option bytes).
Implicit Types (s : NetStack).

(** ** The chunked decoder, a byte at a time *)

Definition size_line_end s : rust NetStack :=
  l ← sub s.(chunk_line) 0 s.(chunk_line_len);
  match parse_chunk_size_line l with
  | None => Ret (set_err E_CHUNK_SZ s)
  | Some size =>
      let s := s <| chunk_line_len := 0%nat |> in
      Ret (s <| chunk_phase := if decide (size = 0) then Trailers else Data (Z.to_nat size) |>)
  end.

Definition chunk_byte (b : Z) s : rust NetStack :=
  match s.(chunk_phase) with
  | SizeLine => if decide (b = 10) then size_line_end s else push_line_byte b s
  | Data r =>
      s ← page_push_byte b s;
      Ret (s <| chunk_phase := if decide (r - 1 = 0)%nat then AfterData 0 else Data (r - 1) |>)
  | AfterData st =>
      Ret (if decide (b = 10) then s <| chunk_phase := SizeLine |>
           else if decide (st = 0 /\ b = 13) then s <| chunk_phase := AfterData 1 |>
           else set_err E_CHUNK_CRLF s)
  | Trailers =>
      if decide (b = 10) then
        if decide (s.(chunk_line_len) = 0)%nat then finish_fetch inflate brotli s
        else Ret (s <| chunk_line_len := 0%nat |>)
      else push_line_byte b s
  end.

(** Runs until the fetch is over; also returns what was not read. *)
Fixpoint chunk_run (data : bytes) s : rust (bytes * NetStack) :=
  match data with
  | [] => Ret ([], s)
  | b :: data => if s.(fetch_armed) then s ← chunk_byte b s; chunk_run data s else Ret (b :: data, s)
  end.

(** A decoder in the middle of a body; the header buffer holds [strm]. *)
Context {strm : bytes}.
Definition phase_ok (ph : ChunkDecodePhase) : Prop :=
  match ph with Data r => (0 < r)%nat | AfterData st => st = 0 \/ st = 1 | _ => True end.
Record decoding s : Prop := {
  dc_armed : s.(fetch_armed) = true;
  dc_done : s.(fetch_done) = false;
  dc_stream : s.(stream) = strm;
  dc_mode : s.(header_found) = true /\ s.(http_chunked) = true;
  dc_phase : phase_ok s.(chunk_phase);
}.

Definition disarmed s : Prop := s.(fetch_armed) = false.

Lemma chunk_run_disarmed data s : disarmed s -> chunk_run data s = Ret (data, s).
Proof. intros Hs. destruct data; cbn [chunk_run]; [done|]. by rewrite Hs. Qed.

Lemma finish_fetch_disarms s : s.(fetch_done) = false ->
  match finish_fetch inflate brotli s with Ret s' => disarmed s' | Panic => True end.
Proof.
  intros Hd. unfold finish_fetch. rewrite Hd. destruct (decide _).
  - destruct (decompress_body_layers _ _ _) as [[s' [msg|]]|]; [|done|done]. rewrite bind_ret.
    destruct (sub _ _ _); [|done]. rewrite bind_ret. by destruct (body_starts_like_html _).
  - destruct (decide _); [|done]. by destruct (decompress_gzip_once _ _) as [[s' [msg|]]|].
Qed.

Lemma hex_digit_nonneg b d : hex_digit b = Some d -> 0 <= d.
Proof. intros H. apply hex_digit_range in H. lia. Qed.

Lemma chunk_size_loop_nonneg line v n : 0 <= v -> chunk_size_loop v line = Some n -> 0 <= n.
Proof.
  revert v. induction line as [|b line IH]; intros v Hv; cbn [chunk_size_loop]; [by intros [= <-]|].
  destruct (_ || _); [by intros [= <-]|]. destruct (hex_digit b) as [d|] eqn:Ed; [|done].
  apply hex_digit_nonneg in Ed. cbn [mbind option_bind]. unfold checked. destruct (decide _); [|done].
  cbn [mbind option_bind]. destruct (decide _); [|done]. cbn [mbind option_bind]. apply IH. lia.
Qed.

Lemma push_line_byte_decoding b s s' :
  decoding s -> push_line_byte b s = Ret s' -> decoding s' /\ s'.(chunk_phase) = s.(chunk_phase).
Proof.
  intros [] H. unfold push_line_byte in H. destruct (decide _); [|by injection H as <-].
  destruct (wr _ _ _); [|done]. rewrite bind_ret in H. by injection H as <-.
Qed.

Lemma size_line_end_decoding s s' :
  decoding s -> size_line_end s = Ret s' -> decoding s' \/ disarmed s'.
Proof.
  intros []. unfold size_line_end. destruct (sub _ _ _) as [l|]; [|done]. rewrite bind_ret.
  destruct (parse_chunk_size_line l) as [n|] eqn:E; intros [= <-]; [left|by right].
  apply chunk_size_loop_nonneg in E; [|lia]. split; [done..|]. cbn. destruct (decide _); [done|]. cbn. lia.
Qed.

(** One round of the loop, in terms of the machine: [K] is the rest of the loop. *)
Section round.
Context (K : bytes -> NetStack -> rust NetStack) (HK : forall s, K [] s = Ret s).

Definition continues (n : nat) : Prop :=
  forall d s, decoding s -> (length d < n)%nat -> K d s = '(_, s) ← chunk_run d s; Ret s.

Definition round_then (m : rust chunk_ret) : rust NetStack :=
  '(d, s, stop) ← m; if stop : bool then Ret s else K d s.

Lemma run_disarmed d s : disarmed s -> ('(_, s) ← chunk_run d s; Ret s) = Ret s.
Proof. intros. by rewrite chunk_run_disarmed. Qed.

Lemma size_line_round data s :
  decoding s -> s.(chunk_phase) = SizeLine -> continues (length data) ->
  round_then (size_line_loop data s) = '(_, s) ← chunk_run data s; Ret s.
Proof.
  revert s. induction data as [|b data IH]; intros s Hs Hp Hc; [apply HK|].
  cbn [size_line_loop chunk_run]. rewrite (dc_armed s Hs). unfold chunk_byte. rewrite Hp.
  destruct (decide (b = 10)).
  - pose proof (size_line_end_decoding s) as Hend. unfold size_line_end in *.
    destruct (sub _ _ _) as [l|]; [|done]. rewrite !bind_ret in *.
    destruct (parse_chunk_size_line l); cbn [round_then mbind rust_bind].
    + destruct (Hend _ Hs eq_refl) as [Hs'|?]; [|by destruct Hs; unfold disarmed in *; cbn in *; congruence].
      apply Hc; [done|cbn; lia].
    + symmetry. by apply run_disarmed.
  - destruct (push_line_byte b s) as [s'|] eqn:E; [|done].
    destruct (push_line_byte_decoding _ _ _ Hs E) as [Hs' Hp']. rewrite !bind_ret.
    apply IH; [done|congruence|]. intros d s2 ??. apply Hc; [done|cbn; lia].
Qed.

Lemma trailers_round data s :
  decoding s -> s.(chunk_phase) = Trailers ->
  round_then (trailers_loop inflate brotli data s) = '(_, s) ← chunk_run data s; Ret s.
Proof.
  revert s. induction data as [|b data IH]; intros s Hs Hp; [apply HK|].
  cbn [trailers_loop chunk_run]. rewrite (dc_armed s Hs). unfold chunk_byte. rewrite Hp.
  destruct (decide (b = 10)).
  - destruct (decide _).
    + pose proof (finish_fetch_disarms s (dc_done s Hs)) as Hf.
      destruct (finish_fetch _ _ _); [|done]. rewrite !bind_ret. symmetry. by apply run_disarmed.
    + rewrite bind_ret. apply IH; [by destruct Hs; split|done].
  - destruct (push_line_byte b s) as [s'|] eqn:E; [|done].
    destruct (push_line_byte_decoding _ _ _ Hs E) as [Hs' Hp']. rewrite !bind_ret. apply IH; [done|congruence].
Qed.

Lemma after_data_round st data s :
  decoding s -> data <> [] -> s.(chunk_phase) = AfterData st -> continues (length data) ->
  round_then (after_data st data s) = '(_, s) ← chunk_run data s; Ret s.
Proof.
  intros Hs Hd Hp Hc. destruct data as [|b data]; [done|]. pose proof (dc_phase s Hs) as Hst. rewrite Hp in Hst.
  cbn [after_data chunk_run]. rewrite (dc_armed s Hs). unfold chunk_byte. rewrite Hp, bind_ret.
  assert (forall ph, phase_ok ph -> decoding (s <| chunk_phase := ph |>)) as Hph by (by destruct Hs; split).
  assert (forall ph, phase_ok ph -> K data (s <| chunk_phase := ph |>) =
    '(_, s) ← chunk_run data (s <| chunk_phase := ph |>); Ret s) as Hk by (intros; apply Hc; [auto|cbn; lia]).
  destruct Hst as [->| ->].
  - rewrite decide_True by done. destruct (decide (b = 13)) as [->|].
    { rewrite decide_False, decide_True by done. apply Hk. by right. }
    destruct (decide (b = 10)); [by apply Hk|]. rewrite decide_False by (by intros []).
    symmetry. by apply run_disarmed.
  - rewrite decide_False, decide_True by done. destruct (decide (b = 10)); [by apply Hk|].
    rewrite decide_False by (by intros []). symmetry. by apply run_disarmed.
Qed.

Definition next_data (r : nat) : ChunkDecodePhase := if decide (r = 0)%nat then AfterData 0 else Data r.

(** Pushing bytes and moving the phase commute. *)
Lemma push_phase b ph s :
  page_push_byte b (s <| chunk_phase := ph |>) = s' ← page_push_byte b s; Ret (s' <| chunk_phase := ph |>).
Proof.
  unfold page_push_byte. cbn. destruct (decide _); [|done]. by destruct (wr _ _ _).
Qed.

Lemma pushes_phase l ph s :
  page_push_bytes l (s <| chunk_phase := ph |>) = s' ← page_push_bytes l s; Ret (s' <| chunk_phase := ph |>).
Proof.
  revert s. induction l as [|b l IH]; intros s; [done|]. cbn [page_push_bytes]. rewrite push_phase.
  destruct (page_push_byte b s) as [s'|]; [|done]. rewrite !bind_ret. apply IH.
Qed.

Lemma page_push_byte_decoding b s s' :
  decoding s -> page_push_byte b s = Ret s' -> decoding s'.
Proof.
  intros [] H. unfold page_push_byte in H. destruct (decide _); [|by injection H as <-].
  destruct (wr _ _ _); [|done]. rewrite bind_ret in H. by injection H as <-.
Qed.

Lemma chunk_run_data l rest r s :
  decoding s -> s.(chunk_phase) = Data r -> l <> [] -> (length l <= r)%nat ->
  chunk_run (l ++ rest) s =
    s' ← page_push_bytes l s; chunk_run rest (s' <| chunk_phase := next_data (r - length l) |>).
Proof.
  revert r s. induction l as [|b l IH]; intros r s Hs Hp Hl Hr; [done|]. cbn [length] in Hr.
  cbn [app chunk_run page_push_bytes]. rewrite (dc_armed s Hs). unfold chunk_byte. rewrite Hp.
  destruct (page_push_byte b s) as [s1|] eqn:E; [|done]. rewrite !bind_ret. fold (next_data (r - 1)).
  apply page_push_byte_decoding in E as Hs1; [|done]. destruct l as [|b' l].
  { by replace (r - length [b])%nat with (r - 1)%nat by (cbn; lia). }
  cbn [length] in Hr. rewrite (IH (r - 1)%nat).
  - rewrite pushes_phase. replace (r - 1 - length (b' :: l))%nat with (r - length (b :: b' :: l))%nat by (cbn; lia).
    destruct (page_push_bytes (b' :: l) s1); [|done]. by rewrite !bind_ret.
  - unfold next_data. rewrite decide_False by lia. destruct Hs1. split; [done..|cbn; lia].
  - unfold next_data. by rewrite decide_False by lia.
  - done.
  - cbn. lia.
Qed.

Lemma page_push_bytes_decoding l s s' :
  decoding s -> page_push_bytes l s = Ret s' -> decoding s'.
Proof.
  revert s. induction l as [|b l IH]; intros s Hs; cbn [page_push_bytes]; [by intros [= <-]|].
  destruct (page_push_byte b s) eqn:E; [|done]. rewrite bind_ret. apply IH. by eapply page_push_byte_decoding.
Qed.

Lemma chunk_data_round r data s :
  decoding s -> data <> [] -> s.(chunk_phase) = Data r -> continues (length data) ->
  round_then (chunk_data r data s) = '(_, s) ← chunk_run data s; Ret s.
Proof.
  intros Hs Hd Hp Hc. pose proof (dc_phase s Hs) as Hr. rewrite Hp in Hr. cbn in Hr.
  assert (0 < length data)%nat by (destruct data; cbn; [done|lia]).
  unfold chunk_data. set (n := Nat.min r (length data)).
  replace (chunk_run data s) with (chunk_run (take n data ++ drop n data) s) by (by rewrite take_drop).
  rewrite (chunk_run_data _ _ r) by
    (done || (rewrite length_take; lia) || (intros E; apply (f_equal length) in E; rewrite length_take in E; cbn in E; lia)).
  destruct (page_push_bytes _ s) as [s'|] eqn:E; [|done]. rewrite !bind_ret.
  apply page_push_bytes_decoding in E; [|done]. rewrite length_take.
  replace (r - Nat.min n (length data))%nat with (r - n)%nat by lia. cbn [round_then mbind rust_bind].
  apply Hc; [|rewrite length_drop; lia]. unfold next_data. destruct E. split; [done..|].
  cbn. destruct (decide _); cbn; [by left|lia].
Qed.
End round.

Lemma chunk_loop_run fuel data s :
  decoding s -> (length data < fuel)%nat ->
  chunk_loop inflate brotli fuel data s = '(_, s) ← chunk_run data s; Ret s.
Proof.
  revert data s. induction fuel as [|fuel IH]; intros data s Hs Hf; [lia|]. cbn [chunk_loop].
  destruct (decide (data = [])) as [->|Hd]; [done|].
  assert (continues (chunk_loop inflate brotli fuel) (length data)) as Hc by (intros d s' ??; apply IH; [done|lia]).
  assert (forall s, chunk_loop inflate brotli fuel [] s = Ret s) as H0 by (intros; destruct fuel; [cbn in Hf; destruct data; [done|cbn in Hf; lia]|done]).
  unfold chunk_round. destruct (chunk_phase s) eqn:Hp.
  - by apply size_line_round.
  - by apply chunk_data_round.
  - by apply after_data_round.
  - by apply trailers_round.
Qed.

Lemma ingest_chunked_run data s :
  decoding s -> ingest_chunked_bytes inflate brotli data s = '(_, s) ← chunk_run data s; Ret s.
Proof. intros. apply chunk_loop_run; [done|lia]. Qed.

(** ** Segments *)

Lemma slice_split (l : bytes) a b c :
  (a <= b <= c)%nat -> slice l a c = slice l a b ++ slice l b c.
Proof.
  intros. unfold slice. replace (c - a)%nat with ((b - a) + (c - b))%nat by lia.
  rewrite <-(take_take_drop (drop a l)), drop_drop. do 2 f_equal. f_equal. lia.
Qed.

Lemma chunk_byte_decoding b s s' :
  decoding s -> chunk_byte b s = Ret s' -> decoding s' \/ disarmed s'.
Proof.
  intros Hs. pose proof (dc_phase s Hs) as Hp. unfold chunk_byte. destruct (chunk_phase s) as [|r|st|] eqn:E.
  - destruct (decide _); [by apply size_line_end_decoding|]. intros H.
    left. by eapply push_line_byte_decoding.
  - destruct (page_push_byte b s) eqn:Eb; [|done]. intros [= <-]. left.
    apply page_push_byte_decoding in Eb as []; [|done]. cbn in Hp. split; [done..|]. cbn.
    destruct (decide _); cbn; [by left|lia].
  - intros [= <-]. destruct (decide _); [left; by destruct Hs; split|].
    destruct (decide _); [left; destruct Hs; split; [done..|by right]|by right].
  - destruct (decide _).
    + destruct (decide _); [|intros [= <-]; left; destruct Hs; split; [done..|by cbn; rewrite E]].
      pose proof (finish_fetch_disarms s (dc_done s Hs)) as Hf. intros E1. rewrite E1 in Hf. by right.
    + intros H. left. by eapply push_line_byte_decoding.
Qed.

Lemma chunk_run_decoding data s l s' :
  decoding s -> chunk_run data s = Ret (l, s') -> decoding s' \/ disarmed s'.
Proof.
  revert s. induction data as [|b data IH]; intros s Hs; cbn [chunk_run]; [intros [= <- <-]; by left|].
  rewrite (dc_armed s Hs). destruct (chunk_byte b s) as [s1|] eqn:E; [|done]. rewrite bind_ret.
  destruct (chunk_byte_decoding _ _ _ Hs E) as [Hs1|Hs1]; [by apply IH|].
  rewrite chunk_run_disarmed by done. intros [= <- <-]. by right.
Qed.

Lemma chunk_run_app a b s :
  chunk_run (a ++ b) s =
    '(l, s1) ← chunk_run a s; if decide (l = []) then chunk_run b s1 else Ret (l ++ b, s1).
Proof.
  revert s. induction a as [|x a IH]; intros s; cbn [app chunk_run].
  - rewrite bind_ret. by rewrite decide_True.
  - destruct (fetch_armed s); [|by rewrite bind_ret, decide_False].
    destruct (chunk_byte x s); [|done]. rewrite !bind_ret. apply IH.
Qed.

(** The segments of a response, one after the other. *)
Fixpoint ingest_all (ds : list bytes) s : rust NetStack :=
  match ds with
  | [] => Ret s
  | d :: ds => s ← ingest_tcp_payload inflate brotli d s; ingest_all ds s
  end.

Lemma chunk_run_split d rest s s' :
  decoding s -> chunk_run (d ++ rest) s = Ret ([], s') ->
  exists s1, chunk_run d s = Ret ([], s1) /\ chunk_run rest s1 = Ret ([], s') /\
             (rest <> [] -> decoding s1).
Proof.
  intros Hs. rewrite chunk_run_app.
  destruct (chunk_run d s) as [[l s1]|] eqn:E; [|done]. rewrite !bind_ret.
  destruct (decide (l = [])) as [->|Hl]; [|by intros [= E1 _]; destruct l].
  intros Hr. exists s1. split_and!; [done|done|]. intros Hne.
  destruct (chunk_run_decoding _ _ _ _ Hs E) as [|Hd]; [done|].
  rewrite chunk_run_disarmed in Hr by done. by injection Hr.
Qed.

Lemma ingest_all_run ds s s' :
  decoding s -> Forall (.≠ []) ds -> ds <> [] -> chunk_run (concat ds) s = Ret ([], s') -> ingest_all ds s = Ret s'.
Proof.
  intros Hs Hds. revert s Hs. induction Hds as [|d ds Hd Hds IH]; intros s Hs Hne Hr; [done|].
  cbn [concat] in Hr. destruct (chunk_run_split _ _ _ _ Hs Hr) as (s1 & E & Hr1 & Hs1).
  cbn [ingest_all]. unfold ingest_tcp_payload. destruct (dc_mode s Hs) as [-> ->]. cbn [negb].
  rewrite ingest_chunked_run, E, !bind_ret by done. destruct ds as [|d' ds]; [by cbn in *; injection Hr1 as ->|].
  apply IH; [|done|done]. apply Hs1. apply Forall_cons in Hds as [? _]. by destruct d'.
Qed.

Lemma ingest_pieces_run fuel off lim s s' :
  decoding s -> (lim <= length strm)%nat -> (off < lim)%nat -> (lim - off < fuel)%nat ->
  chunk_run (slice strm off lim) s = Ret ([], s') -> ingest_pieces inflate brotli fuel off lim s = Ret s'.
Proof.
  revert off s. induction fuel as [|fuel IH]; intros off s Hs Hl Ho Hf Hr; [lia|]. cbn [ingest_pieces].
  rewrite decide_True by done. cbv zeta. rewrite (dc_stream s Hs). set (n := Nat.min (lim - off) 256).
  rewrite sub_ok, bind_ret by lia. rewrite (slice_split strm off (off + n) lim) in Hr by lia.
  destruct (chunk_run_split _ _ _ _ Hs Hr) as (s1 & E & Hr1 & Hs1).
  rewrite ingest_chunked_run, E, !bind_ret by done.
  destruct (decide (off + n < lim)%nat) as [Hlt|Hge].
  - apply IH; [|done|done|lia|done]. apply Hs1. intros E0. apply (f_equal length) in E0.
    rewrite length_slice in E0 by lia. cbn in E0. lia.
  - assert (slice strm (off + n) lim = []) as E0 by (unfold slice; by replace (lim - (off + n))%nat with 0%nat by lia).
    rewrite E0 in Hr1. injection Hr1 as <-. destruct fuel; [lia|]. cbn [ingest_pieces]. by rewrite decide_False.
Qed.

(** ** Bytes on the page and in the line buffer *)

Section wf.
Context {L : bool} {B : nat}.

Lemma page_push_bytes_spec l s :
  net_inv L B s ->
  exists pg n tr, page_push_bytes l s = Ret (s <| page := pg |> <| page_len := n |> <| page_truncated := tr |>) /\
    length pg = PAGE_CAP /\ (n <= PAGE_CAP)%nat /\ take n pg = take PAGE_CAP (page_bytes s ++ l).
Proof.
  revert s. induction l as [|b l IH]; intros s Hs; pose proof (nw_page s Hs) as Hp; pose proof (nw_page_len s Hs) as Hl.
  { exists s.(page), s.(page_len), s.(page_truncated). cbn [page_push_bytes]. split_and!; [by destruct s|done|done|].
    rewrite app_nil_r. unfold page_bytes. by rewrite take_take, Nat.min_r. }
  cbn [page_push_bytes]. unfold page_push_byte. destruct (decide _) as [Hlt|Hge].
  - rewrite wr_ok, !bind_ret by lia.
    match goal with |- context [page_push_bytes l ?s1] => assert (net_inv L B s1) as Hs1 by wf;
      destruct (IH s1 Hs1) as (pg & n & tr & -> & ? & ? & E) end.
    exists pg, n, tr. split_and!; [done|done|done|]. rewrite E. f_equal. unfold page_bytes. cbn.
    rewrite take_insert_snoc by lia. by rewrite <-app_assoc.
  - rewrite bind_ret. assert (net_inv L B (s <| page_truncated := true |>)) as Hs1 by wf.
    destruct (IH _ Hs1) as (pg & n & tr & -> & ? & ? & E). exists pg, n, tr. split_and!; [done|done|done|].
    rewrite E. unfold page_bytes. cbn. rewrite !take_app_le by (rewrite length_take; lia). done.
Qed.

Definition line_bytes s : bytes := take s.(chunk_line_len) s.(chunk_line).
Definition with_line (l : bytes) (n : nat) s : NetStack := s <| chunk_line := l |> <| chunk_line_len := n |>.

(** A run of bytes of a line. *)
Lemma line_run l rest s :
  net_inv L B s -> decoding s -> (s.(chunk_phase) = SizeLine \/ s.(chunk_phase) = Trailers) ->
  Forall (fun b => b <> 10) l ->
  exists cl n, chunk_run (l ++ rest) s = chunk_run rest (with_line cl n s) /\
    length cl = CHUNK_LINE_CAP /\ (n <= CHUNK_LINE_CAP)%nat /\
    take n cl = take CHUNK_LINE_CAP (line_bytes s ++ filter (.≠ 13) l).
Proof.
  intros Hs Hd Hp Hl. revert s Hs Hd Hp.
  induction Hl as [|b l Hb _ IH]; intros s Hs Hd Hp; pose proof (nw_line s Hs) as H1; pose proof (nw_line_len s Hs) as H2.
  { exists s.(chunk_line), s.(chunk_line_len). split_and!; [by destruct s|done|done|].
    rewrite filter_nil, app_nil_r. unfold line_bytes. by rewrite take_take, Nat.min_r. }
  cbn [app chunk_run]. rewrite (dc_armed s Hd).
  assert (chunk_byte b s = push_line_byte b s) as -> by (unfold chunk_byte; by destruct Hp as [-> | ->]; rewrite decide_False).
  unfold push_line_byte. destruct (decide _) as [[Hc Hlt]|Hge].
  - rewrite wr_ok, !bind_ret by lia.
    match goal with |- context [chunk_run (l ++ rest) ?s1] => assert (net_inv L B s1) as Hs1 by wf;
      destruct (IH s1 Hs1) as (cl & n & -> & ? & ? & E); [by destruct Hd; split|done|] end.
    exists cl, n. split_and!; [done|done|done|]. rewrite E, filter_cons_True by done. f_equal.
    unfold line_bytes. cbn. rewrite take_insert_snoc by lia. by rewrite <-app_assoc.
  - rewrite bind_ret. destruct (IH s Hs Hd Hp) as (cl & n & -> & ? & ? & E).
    exists cl, n. split_and!; [done|done|done|]. rewrite E, filter_cons. destruct (decide (b <> 13)) as [Hb'|]; [|done].
    assert (length (line_bytes s) = CHUNK_LINE_CAP) as Hll.
    { unfold line_bytes. rewrite length_take. destruct (decide (chunk_line_len s < CHUNK_LINE_CAP)%nat); [|lia].
      by destruct Hge. }
    by rewrite !take_app_le by lia.
Qed.

(** ** The chunked encoding *)

(** A chunk as it is sent: its size in hexadecimal, an extension, its data. *)
Record chunk := { ck_size : bytes; ck_ext : bytes; ck_data : bytes }.

Definition size_line_ok (size ext : bytes) (n : Z) : Prop :=
  hex_string size /\ (length size <= CHUNK_LINE_CAP)%nat /\ hex_val 0 size = n /\ n <= usize_max /\
  size_end ext /\ plain_line ext.
Definition chunk_ok (c : chunk) : Prop :=
  c.(ck_data) <> [] /\ size_line_ok c.(ck_size) c.(ck_ext) (Z.of_nat (length c.(ck_data))).

Definition enc_chunk (c : chunk) : bytes := crlf_line (c.(ck_size) ++ c.(ck_ext)) ++ crlf_line c.(ck_data).
(** The last chunk has size zero and is followed by the trailer lines. *)
Definition enc_last (size ext : bytes) (trailers : list bytes) : bytes :=
  crlf_line (size ++ ext) ++ render_lines trailers ++ [13; 10].
Definition last_ok (size ext : bytes) (trailers : list bytes) : Prop :=
  size_line_ok size ext 0 /\ Forall (fun l => l <> [] /\ plain_line l) trailers.

Definition enc_chunked (cs : list chunk) (size ext : bytes) (trailers : list bytes) : bytes :=
  (cs ≫= enc_chunk) ++ enc_last size ext trailers.
Definition body_of (cs : list chunk) : bytes := cs ≫= ck_data.

(** Between two chunks, with [p] decoded so far. *)
Record between (ph : ChunkDecodePhase) (p : bytes) s : Prop := {
  bt_wf : net_inv L B s;
  bt_dec : decoding s;
  bt_phase : s.(chunk_phase) = ph;
  bt_line : s.(chunk_line_len) = 0%nat;
  bt_page : page_bytes s = take PAGE_CAP p;
  bt_err : s.(fetch_err_len) = 0%nat;
  bt_layers : s.(body_layer_count) = 0%nat;
}.

Lemma take_cap (a b : bytes) n : take n (take n a ++ b) = take n (a ++ b).
Proof.
  destruct (decide (length a <= n)%nat); [by rewrite (take_ge a) by lia|].
  rewrite !take_app_le by (rewrite ?length_take; lia). by rewrite take_take, Nat.min_id.
Qed.

Lemma filter_plain l : plain_line l -> filter (.≠ 13) l = l.
Proof. induction 1 as [|c l [? _] _ IH]; [done|]. rewrite filter_cons_True by done. by rewrite IH. Qed.

Lemma hex_plain l : hex_string l -> plain_line l.
Proof.
  intros H. eapply Forall_impl; [exact H|]. intros c [d Hd]. split; intros ->; [|done].
  by apply hex_digit_range in Hd as (_ & _ & _ & ?).
Qed.

Lemma plain_not_lf l : plain_line l -> Forall (fun b => b <> 10) l.
Proof. intros H. eapply Forall_impl; [exact H|]. by intros c [_ ?]. Qed.

(** A whole line up to its LF. *)
Lemma crlf_run l rest ph p s :
  between ph p s -> (ph = SizeLine \/ ph = Trailers) -> plain_line l ->
  exists cl n, chunk_run (crlf_line l ++ rest) s = chunk_run (10 :: rest) (with_line cl n s) /\
    length cl = CHUNK_LINE_CAP /\ (n <= CHUNK_LINE_CAP)%nat /\ take n cl = take CHUNK_LINE_CAP l.
Proof.
  intros Hs Hph Hl. unfold crlf_line. replace ((l ++ [13; 10]) ++ rest) with ((l ++ [13]) ++ 10 :: rest)
    by (by rewrite <-!app_assoc).
  destruct (line_run (l ++ [13]) (10 :: rest) s) as (cl & n & -> & ? & ? & E).
  - apply (bt_wf _ _ _ Hs).
  - apply (bt_dec _ _ _ Hs).
  - by rewrite (bt_phase _ _ _ Hs).
  - apply Forall_app_2; [by apply plain_not_lf|by constructor].
  - exists cl, n. split_and!; [done|done|done|]. rewrite E. f_equal. unfold line_bytes.
    rewrite (bt_line _ _ _ Hs), filter_app, filter_plain by done. cbn. apply app_nil_r.
Qed.

Lemma between_line ph p s cl n ph' :
  between ph p s -> phase_ok ph' -> length cl = CHUNK_LINE_CAP -> (n <= CHUNK_LINE_CAP)%nat ->
  between ph' p ((with_line cl n s) <| chunk_line_len := 0%nat |> <| chunk_phase := ph' |>).
Proof. intros [? [] ? ? ? ? ?] ???. split; [unfold with_line; wf|by split|done..]. Qed.

Lemma size_line_run size ext n rest p s :
  size_line_ok size ext n -> 0 <= n -> between SizeLine p s ->
  exists s', chunk_run (crlf_line (size ++ ext) ++ rest) s = chunk_run rest s' /\
    between (if decide (n = 0) then Trailers else Data (Z.to_nat n)) p s'.
Proof.
  intros (Hh & Hlen & Hv & Hmax & Hend & Hext) Hn Hs.
  destruct (crlf_run (size ++ ext) rest _ _ _ Hs) as (cl & m & -> & Hcl & Hm & E); [by left| |].
  { apply Forall_app_2; [by apply hex_plain|done]. }
  eexists. split; [|by eapply (between_line _ _ _ cl m); [|destruct (decide _); cbn; [done|lia]| |]].
  cbn [chunk_run]. unfold with_line at 1. cbn [over fetch_armed]. rewrite (dc_armed _ (bt_dec _ _ _ Hs)).
  unfold chunk_byte. unfold with_line at 1. cbn [over chunk_phase]. rewrite (bt_phase _ _ _ Hs), decide_True by done.
  unfold size_line_end. cbn [with_line over chunk_line chunk_line_len].
  rewrite sub_ok, bind_ret by lia. rewrite slice_0, E, take_app_ge by done.
  rewrite parse_chunk_size_line_eq; [|done|].
  - rewrite Hv, checked_ok by done. by rewrite bind_ret.
  - destruct ext as [|b ext]; [by rewrite take_nil|]. by destruct (CHUNK_LINE_CAP - length size)%nat.
Qed.

Lemma crlf_after rest s :
  s.(fetch_armed) = true -> s.(chunk_phase) = AfterData 0 ->
  chunk_run (13 :: 10 :: rest) s = chunk_run rest (s <| chunk_phase := SizeLine |>).
Proof.
  intros Ha Hp. cbn [chunk_run]. rewrite Ha.
  assert (chunk_byte 13 s = Ret (s <| chunk_phase := AfterData 1 |>)) as -> by (unfold chunk_byte; by rewrite Hp).
  rewrite bind_ret. change (fetch_armed (s <| chunk_phase := AfterData 1 |>)) with (fetch_armed s). by rewrite Ha.
Qed.

Lemma data_run data rest p s :
  data <> [] -> between (Data (length data)) p s ->
  exists s', chunk_run (crlf_line data ++ rest) s = chunk_run rest s' /\ between SizeLine (p ++ data) s'.
Proof.
  intros Hd Hs. unfold crlf_line. rewrite <-app_assoc.
  rewrite (chunk_run_data _ _ _ _ (bt_dec _ _ _ Hs) (bt_phase _ _ _ Hs) Hd (le_n _)).
  destruct (page_push_bytes_spec data s (bt_wf _ _ _ Hs)) as (pg & n & tr & -> & Hpg & Hn & E).
  rewrite bind_ret, Nat.sub_diag. cbn [app next_data decide]. rewrite crlf_after;
    [|exact (dc_armed _ (bt_dec _ _ _ Hs))|reflexivity].
  eexists. split; [reflexivity|]. destruct Hs as [? [] ? ? Hpage ? ?].
  split; [wf|by split|done..| | |]; try done. unfold page_bytes at 1. cbn [over page page_len]. rewrite E, Hpage. apply take_cap.
Qed.

Lemma chunk_run_chunk c rest p s :
  chunk_ok c -> between SizeLine p s ->
  exists s', chunk_run (enc_chunk c ++ rest) s = chunk_run rest s' /\ between SizeLine (p ++ c.(ck_data)) s'.
Proof.
  intros [Hd Hsz] Hs. unfold enc_chunk. rewrite <-app_assoc.
  destruct (size_line_run _ _ _ (crlf_line (ck_data c) ++ rest) _ _ Hsz ltac:(lia) Hs) as (s1 & -> & Hs1).
  rewrite decide_False, Nat2Z.id in Hs1 by (destruct (ck_data c); cbn; [done|lia]).
  by apply data_run.
Qed.

Lemma chunk_run_chunks cs rest p s :
  Forall chunk_ok cs -> between SizeLine p s ->
  exists s', chunk_run ((cs ≫= enc_chunk) ++ rest) s = chunk_run rest s' /\ between SizeLine (p ++ body_of cs) s'.
Proof.
  intros Hcs. revert p s. induction Hcs as [|c cs Hc _ IH]; intros p s Hs.
  { exists s. split; [done|]. unfold body_of. cbn. by rewrite app_nil_r. }
  cbn [mbind list_bind]. rewrite <-app_assoc.
  destruct (chunk_run_chunk c ((cs ≫= enc_chunk) ++ rest) p s Hc Hs) as (s1 & -> & Hs1).
  destruct (IH _ _ Hs1) as (s2 & -> & Hs2). exists s2. split; [done|]. unfold body_of in *. cbn [mbind list_bind].
  by rewrite app_assoc.
Qed.

Lemma trailer_run l rest p s :
  l <> [] -> plain_line l -> between Trailers p s ->
  exists s', chunk_run (crlf_line l ++ rest) s = chunk_run rest s' /\ between Trailers p s'.
Proof.
  intros Hne Hl Hs. destruct (crlf_run l rest _ _ _ Hs) as (cl & m & -> & Hcl & Hm & E); [by right|done|].
  eexists. split; [|by eapply (between_line _ _ _ cl m)].
  cbn [chunk_run]. unfold with_line at 1. cbn [over fetch_armed]. rewrite (dc_armed _ (bt_dec _ _ _ Hs)).
  unfold chunk_byte. unfold with_line at 1. cbn [over chunk_phase]. rewrite (bt_phase _ _ _ Hs), decide_True by done.
  rewrite decide_False, bind_ret.
  - f_equal. pose proof (bt_phase _ _ _ Hs). destruct s. cbn in *. by subst.
  - cbn. intros ->. rewrite take_0 in E. symmetry in E. apply (f_equal length) in E. rewrite length_take in E.
    pose proof line_cap_pos. destruct l; [done|]. cbn [length] in E. lia.
Qed.

Lemma trailers_run ts rest p s :
  Forall (fun l => l <> [] /\ plain_line l) ts -> between Trailers p s ->
  exists s', chunk_run (render_lines ts ++ rest) s = chunk_run rest s' /\ between Trailers p s'.
Proof.
  intros Hts. revert s. induction Hts as [|l ts [Hne Hl] _ IH]; intros s Hs; [by exists s|].
  change (render_lines (l :: ts)) with (crlf_line l ++ render_lines ts). rewrite <-app_assoc.
  destruct (trailer_run l (render_lines ts ++ rest) p s Hne Hl Hs) as (s1 & -> & Hs1). by apply IH.
Qed.

(** ** The end of a body *)

Definition gzip_magic (p : bytes) : Prop := take 2 p = [0x1f; 0x8b].

(** A complete fetch: no error, [p] on the page. *)
Record delivered (p : bytes) s : Prop := {
  dl_done : s.(fetch_done) = true;
  dl_armed : s.(fetch_armed) = false;
  dl_err : s.(fetch_err_len) = 0%nat;
  dl_page : page_bytes s = p;
}.

Lemma finish_plain s :
  s.(fetch_done) = false -> s.(body_layer_count) = 0%nat -> ~ gzip_magic (page_bytes s) ->
  finish_fetch inflate brotli s = Ret (fetch_complete s).
Proof.
  intros Hd Hl Hm. unfold finish_fetch. rewrite Hd, Hl. destruct (decide (0 < 0)%nat); [lia|].
  destruct (decide _) as [(Hlen & H0 & H1)|]; [|done]. destruct Hm. unfold gzip_magic, page_bytes.
  destruct (page s) as [|a [|b pg]]; [done|done|]. cbn in H0, H1.
  apply (inj Some) in H0 as ->. apply (inj Some) in H1 as ->.
  destruct (page_len s) as [|[|k]]; [lia|lia|]. cbn. by rewrite take_0.
Qed.

Lemma finish_run p s :
  between Trailers p s -> ~ gzip_magic (take PAGE_CAP p) ->
  exists s', chunk_run [13; 10] s = Ret ([], s') /\ delivered (take PAGE_CAP p) s'.
Proof.
  intros Hs Hm. change [13; 10] with (crlf_line [] ++ []).
  destruct (crlf_run [] [] _ _ _ Hs) as (cl & m & -> & Hcl & Hn & E); [by right|by constructor|].
  rewrite take_nil in E. apply (f_equal length) in E. rewrite length_take in E. cbn in E.
  assert (m = 0)%nat as -> by lia. cbn [chunk_run].
  assert (decoding (with_line cl 0 s)) as Hd by (destruct Hs as [? [] ? ? ? ? ?]; by split).
  rewrite (dc_armed _ Hd). unfold chunk_byte. change (chunk_phase (with_line cl 0 s)) with (chunk_phase s).
  rewrite (bt_phase _ _ _ Hs), !decide_True by done. rewrite finish_plain.
  - rewrite bind_ret. eexists. split; [reflexivity|]. destruct Hs. by split.
  - apply Hd.
  - apply (bt_layers _ _ _ Hs).
  - change (page_bytes (with_line cl 0 s)) with (page_bytes s). by rewrite (bt_page _ _ _ Hs).
Qed.

Lemma chunk_run_chunked cs size ext ts s :
  Forall chunk_ok cs -> last_ok size ext ts -> between SizeLine [] s ->
  ~ gzip_magic (take PAGE_CAP (body_of cs)) ->
  exists s', chunk_run (enc_chunked cs size ext ts) s = Ret ([], s') /\ delivered (take PAGE_CAP (body_of cs)) s'.
Proof.
  intros Hcs [Hsz Hts] Hs Hm. unfold enc_chunked.
  destruct (chunk_run_chunks cs (enc_last size ext ts) [] s Hcs Hs) as (s1 & -> & Hs1).
  unfold enc_last. destruct (size_line_run _ _ _ (render_lines ts ++ [13; 10]) _ _ Hsz ltac:(lia) Hs1) as (s2 & -> & Hs2).
  destruct (trailers_run ts [13; 10] _ _ Hts Hs2) as (s3 & -> & Hs3). by apply finish_run.
Qed.
End wf.

(** ** A step the head parser makes commutes with the decoder *)

Definition head_done s : NetStack := bump_gen (s <| stream_len := 0%nat |>).

Lemma head_done_layer l s :
  decompress_layer inflate brotli l (head_done s) =
    '(s', e) ← decompress_layer inflate brotli l s; Ret (head_done s', e).
Proof.
  assert (forall out msg, put_page out msg (head_done s) = (head_done (put_page out msg s).1, (put_page out msg s).2)) as Hput
    by (intros; unfold put_page; cbn; by destruct (decide _)).
  destruct l; [done| | |]; cbn [decompress_layer].
  - unfold decompress_gzip_once. cbn [head_done bump_gen over page page_len]. destruct (decide _); [done|].
    destruct (sub _ _ _); [|done]. rewrite !bind_ret. destruct (gzip_deflate_payload _) as [[d|]|]; [|done|done].
    rewrite !bind_ret. destruct (inflate _ _); [|done|done].
    fold (head_done s). rewrite Hput. by destruct (put_page _ _ s).
  - unfold decompress_zlib_once. cbn [head_done bump_gen over page page_len].
    destruct (sub _ _ _); [|done]. rewrite !bind_ret. destruct (inflate _ _); [|done|done].
    fold (head_done s). rewrite Hput. by destruct (put_page _ _ s).
  - unfold decompress_brotli_once. cbn [head_done bump_gen over page page_len].
    destruct (sub _ _ _); [|done]. rewrite !bind_ret. destruct (brotli _); [|done].
    fold (head_done s). rewrite Hput. by destruct (put_page _ _ s).
Qed.

Lemma head_done_layers ls s :
  decompress_layers inflate brotli ls (head_done s) =
    '(s', e) ← decompress_layers inflate brotli ls s; Ret (head_done s', e).
Proof.
  revert s. induction ls as [|l ls IH]; intros s; [done|]. cbn [decompress_layers]. rewrite head_done_layer.
  destruct (decompress_layer _ _ l s) as [[s' [msg|]]|]; [done| |done]. rewrite !bind_ret. apply IH.
Qed.

Lemma head_done_finish s :
  finish_fetch inflate brotli (head_done s) = s' ← finish_fetch inflate brotli s; Ret (head_done s').
Proof.
  unfold finish_fetch. change (fetch_done (head_done s)) with (fetch_done s). destruct (fetch_done s); [done|].
  change (body_layer_count (head_done s)) with (body_layer_count s). destruct (decide _).
  - unfold decompress_body_layers. change (body_layers (head_done s)) with (body_layers s).
    change (body_layer_count (head_done s)) with (body_layer_count s).
    destruct (sub (body_layers s) _ _) as [ls|]; [|done]. rewrite !bind_ret, head_done_layers.
    destruct (decompress_layers _ _ _ s) as [[s' [msg|]]|]; [|done|done]. rewrite !bind_ret.
    change (page (head_done s')) with (page s'). change (page_len (head_done s')) with (page_len s').
    destruct (sub _ _ _); [|done]. rewrite !bind_ret. by destruct (body_starts_like_html _).
  - change (page (head_done s)) with (page s). change (page_len (head_done s)) with (page_len s).
    destruct (decide _); [|done]. pose proof (head_done_layer Gzip s) as Hg. cbn [decompress_layer] in Hg.
    rewrite Hg. by destruct (decompress_gzip_once _ s) as [[s' [msg|]]|].
Qed.

Lemma head_done_err msg s : set_err msg (head_done s) = head_done (set_err msg s).
Proof. reflexivity. Qed.

Lemma head_done_byte b s : chunk_byte b (head_done s) = s' ← chunk_byte b s; Ret (head_done s').
Proof.
  unfold chunk_byte. change (chunk_phase (head_done s)) with (chunk_phase s).
  assert (push_line_byte b (head_done s) = s' ← push_line_byte b s; Ret (head_done s')) as Hl.
  { unfold push_line_byte. cbn. destruct (decide _); [|done]. by destruct (wr _ _ _). }
  destruct (chunk_phase s).
  - destruct (decide _); [|done]. unfold size_line_end.
    change (chunk_line (head_done s)) with (chunk_line s). change (chunk_line_len (head_done s)) with (chunk_line_len s).
    destruct (sub _ _ _); [|done]. rewrite !bind_ret. destruct (parse_chunk_size_line _); [done|].
    by rewrite head_done_err.
  - unfold page_push_byte. cbn. destruct (decide (page_len s < _)%nat); [|done]. by destruct (wr _ _ _).
  - rewrite bind_ret. destruct (decide _); [done|]. destruct (decide _); [done|]. by rewrite head_done_err.
  - destruct (decide _); [|done]. change (chunk_line_len (head_done s)) with (chunk_line_len s).
    destruct (decide _); [apply head_done_finish|done].
Qed.

Lemma head_done_run data s :
  chunk_run data (head_done s) = '(l, s') ← chunk_run data s; Ret (l, head_done s').
Proof.
  revert s. induction data as [|b data IH]; intros s; [done|]. cbn [chunk_run].
  change (fetch_armed (head_done s)) with (fetch_armed s). destruct (fetch_armed s); [|done].
  rewrite head_done_byte. destruct (chunk_byte b s); [|done]. rewrite !bind_ret. apply IH.
Qed.

(** ** The head *)

(** Waiting for the end of the head, with [x] received. *)
Record waiting (L : bool) (B : nat) (x : bytes) s : Prop := {
  wt_wf : net_inv L B s;
  wt_armed : s.(fetch_armed) = true;
  wt_done : s.(fetch_done) = false;
  wt_found : s.(header_found) = false;
  wt_stream : take s.(stream_len) s.(stream) = x;
  wt_page : page_bytes s = [];
  wt_err : s.(fetch_err_len) = 0%nat;
  wt_layers : s.(body_layer_count) = 0%nat;
}.

Section head.
Context {L : bool} {B : nat} (head : bytes) (Hhead : head_end head).

Lemma waiting_length x s : waiting L B x s -> length x = s.(stream_len).
Proof.
  intros Hs. rewrite <-(wt_stream _ _ _ _ Hs), length_take.
  pose proof (nw_stream _ (wt_wf _ _ _ _ Hs)). pose proof (nw_stream_len _ (wt_wf _ _ _ _ Hs)). lia.
Qed.

(** A segment that fits is put behind what is there. *)
Lemma ingest_waiting d x s :
  waiting L B x s -> (length x + length d <= STREAM_CAP)%nat ->
  exists st, length st = STREAM_CAP /\ take (length (x ++ d)) st = x ++ d /\
    ingest_tcp_payload inflate brotli d s =
      let s := s <| stream := st |> <| stream_len := length (x ++ d) |> in
      if decide (STREAM_CAP <= length (x ++ d) /\ find_http_header_end (x ++ d) = None)%nat
      then Ret (set_err E_HDR_TOO_BIG s)
      else match find_http_header_end (x ++ d) with
           | Some (pos, n) => ingest_head inflate brotli (pos + n) s
           | None => Ret s
           end.
Proof.
  intros Hs Hl. pose proof (waiting_length _ _ Hs) as Hx. pose proof (nw_stream _ (wt_wf _ _ _ _ Hs)) as Hst.
  unfold ingest_tcp_payload. rewrite (wt_found _ _ _ _ Hs). cbn [negb]. cbv zeta.
  rewrite take_ge by lia. rewrite copy_at_ok, bind_ret by lia.
  exists (list_inserts (stream_len s) d (stream s)). rewrite length_inserts.
  assert (take (length (x ++ d)) (list_inserts (stream_len s) d (stream s)) = x ++ d) as E.
  { rewrite inserts_split by lia. rewrite (wt_stream _ _ _ _ Hs), app_assoc. by rewrite take_app_length. }
  split_and!; [done|done|]. cbn [over stream stream_len].
  replace (Nat.min (length d) (length (stream s) - stream_len s) + stream_len s)%nat with (length (x ++ d))
    by (rewrite length_app; lia).
  rewrite sub_ok, bind_ret by (rewrite length_inserts, length_app; lia). rewrite slice_0, E, length_inserts, Hst. done.
Qed.
End head.
End fetch.

(** ** A whole response *)

(** With [have] bytes of a head of [n] received: of the segments [ds], those up
    to the end of the head fit the header buffer. *)
Fixpoint head_fits (n have : nat) (ds : list bytes) : Prop :=
  match ds with
  | [] => True
  | d :: ds => (have < n -> have + length d <= STREAM_CAP /\ head_fits n (have + length d) ds)%nat
  end.
#[export] Instance head_fits_dec n have ds : Decision (head_fits n have ds).
Proof. revert have. induction ds; intros; cbn; apply _. Defined.

Section response.
Context (inflate : bool -> bytes -> inflate_result) (brotli : bytes -> option bytes).
Context {L : bool} {B : nat} (hd : bytes) (Hhead : head_end hd).
Implicit Types (s : NetStack).
#[local] Abbreviation ingest_all := (ingest_all inflate brotli).
#[local] Abbreviation ingest := (ingest_tcp_payload inflate brotli).

Lemma step_waiting d x y s :
  waiting L B x s -> hd = (x ++ d) ++ y -> y <> [] -> (length hd <= STREAM_CAP)%nat ->
  exists s', ingest d s = Ret s' /\ waiting L B (x ++ d) s' /\ s'.(http_chunked) = s.(http_chunked).
Proof.
  intros Hs Hx Hy Hl. assert (length (x ++ d) < length hd)%nat.
  { rewrite Hx, (length_app (x ++ d)). destruct y; [done|]. cbn. lia. }
  pose proof (length_app x d).
  destruct (ingest_waiting inflate brotli d x s Hs) as (st & Hst & Ht & ->); [lia|]. cbv zeta.
  rewrite (proj2 Hhead _ _ Hx Hy). rewrite decide_False by (intros [? _]; lia).
  eexists. split; [reflexivity|]. split; [|done]. destruct Hs. split; try done. wf.
Qed.

(** The state in which the head is evaluated. *)
Definition at_head (y : bytes) (st : bytes) s : NetStack :=
  s <| stream := st |> <| stream_len := length (hd ++ y) |>.

Lemma step_head d x y s :
  waiting L B x s -> x ++ d = hd ++ y -> (length x + length d <= STREAM_CAP)%nat ->
  exists st, length st = STREAM_CAP /\ take (length (hd ++ y)) st = hd ++ y /\
    ingest d s = ingest_head inflate brotli (length hd) (at_head y st s).
Proof.
  intros Hs Hx Hl. destruct (ingest_waiting inflate brotli d x s Hs Hl) as (st & Hst & Ht & ->).
  rewrite Hx in *. exists st. split_and!; [done|done|]. cbv zeta. destruct (proj1 Hhead y) as (pos & n & -> & <-).
  by rewrite decide_False by (by intros [_ ?]).
Qed.

(** The decoder as the head leaves it. *)
Definition chunk_start (y st : bytes) s : NetStack :=
  (at_head y st s) <| header_found := true |> <| http_chunked := true |> <| chunk_phase := SizeLine |>
                   <| chunk_line_len := 0%nat |>.

Lemma chunk_start_between x y st s :
  waiting L B x s -> length st = STREAM_CAP -> (length (hd ++ y) <= STREAM_CAP)%nat ->
  between (strm := st) (L := L) (B := B) SizeLine [] (chunk_start y st s).
Proof.
  intros Hs Hst Hl. split; [|split|..]; try apply Hs; try done.
  - destruct Hs. unfold chunk_start, at_head. wf.
Qed.

Lemma ingest_head_chunked e s :
  (e <= length s.(stream))%nat -> response_headers_chunked (take e s.(stream)) = true ->
  ingest_head inflate brotli e s =
    s' ← ingest_pieces inflate brotli (S s.(stream_len)) e s.(stream_len)
           (s <| header_found := true |> <| http_chunked := true |> <| chunk_phase := SizeLine |>
              <| chunk_line_len := 0%nat |>);
    Ret (head_done s').
Proof.
  intros He Hc. unfold ingest_head. cbv zeta.
  change (stream (s <| header_found := true |>)) with (stream s).
  change (stream_len (s <| header_found := true |>)) with (stream_len s).
  by rewrite sub_ok, bind_ret, slice_0, Hc by lia.
Qed.

Lemma stream_parts y (st : bytes) :
  take (length (hd ++ y)) st = hd ++ y ->
  take (length hd) st = hd /\ slice st (length hd) (length (hd ++ y)) = y.
Proof.
  intros Ht. split.
  - rewrite <-(take_app_length hd y) at 2. rewrite <-Ht, take_take. f_equal. rewrite length_app. lia.
  - unfold slice. rewrite <-skipn_firstn_comm. by rewrite Ht, drop_app_length.
Qed.

Lemma head_chunked d x y rest s (Q : NetStack -> Prop) :
  response_headers_chunked hd = true -> waiting L B x s -> x ++ d = hd ++ y ->
  (length x + length d <= STREAM_CAP)%nat ->
  (forall st, length st = STREAM_CAP ->
     exists s', chunk_run inflate brotli (y ++ rest) (chunk_start y st s) = Ret ([], s') /\ Q s') ->
  exists st s4 s', ingest d s = Ret s4 /\ Q s' /\
    chunk_run inflate brotli rest s4 = Ret ([], head_done s') /\ (rest <> [] -> decoding (strm := st) s4).
Proof.
  intros Hch Hs Hx Hl Hr. destruct (step_head d x y s Hs Hx Hl) as (st & Hst & Ht & ->). exists st.
  destruct (Hr st Hst) as (s' & Hr' & HQ).
  assert (length (hd ++ y) <= STREAM_CAP)%nat as Hly by (rewrite <-Hx, length_app; lia).
  pose proof (chunk_start_between x y st s Hs Hst Hly) as Hb.
  destruct (stream_parts y st Ht) as [Eh Ey].
  rewrite length_app in Hly. rewrite ingest_head_chunked.
  2: { change (length hd <= length st)%nat. lia. }
  2: { change (response_headers_chunked (take (length hd) st) = true). by rewrite Eh. }
  change (stream_len (at_head y st s)) with (length (hd ++ y)).
  match goal with |- context [ingest_pieces _ _ _ _ _ ?t] => change t with (chunk_start y st s) end.
  destruct (chunk_run_split inflate brotli (strm := st) _ _ _ _ (bt_dec _ _ _ Hb) Hr') as (s1 & E & Hr1 & Hs1).
  exists (head_done s1), s'. split; [|split; [done|]].
  - destruct (decide (y = [])) as [->|Hy].
    + cbn in E. injection E as <-. cbn [ingest_pieces]. rewrite app_nil_r, decide_False by lia. done.
    + rewrite (ingest_pieces_run inflate brotli (strm := st) _ _ _ _ s1); [done|apply Hb|..].
      * rewrite length_app, Hst. lia.
      * rewrite length_app. destruct y; [done|cbn; lia].
      * lia.
      * by rewrite Ey.
  - rewrite head_done_run, Hr1. split; [done|]. intros Hne. by destruct (Hs1 Hne).
Qed.

(** The segments reach the end of the head in the middle of one of them. *)
Lemma head_reached (d x y rest body : bytes) :
  hd = x ++ y -> x ++ d ++ rest = hd ++ body ->
  (exists y', y' <> [] /\ hd = (x ++ d) ++ y') \/ (exists y', x ++ d = hd ++ y' /\ body = y' ++ rest).
Proof.
  intros Hy E. rewrite app_assoc in E. destruct (decide (length hd <= length (x ++ d))%nat) as [Hle|Hgt].
  - right. exists (drop (length hd) (x ++ d)). pose proof (f_equal (take (length hd)) E) as E1.
    rewrite take_app_length, take_app_le in E1 by done.
    assert (x ++ d = hd ++ drop (length hd) (x ++ d)) as E2 by (rewrite <-E1 at 1; by rewrite take_drop).
    split; [done|]. rewrite E2, <-app_assoc in E at 1. by apply app_inv_head in E.
  - left. exists (drop (length (x ++ d)) hd). split.
    + intros E1. apply (f_equal length) in E1. rewrite length_drop in E1. cbn in E1. lia.
    + pose proof (f_equal (take (length (x ++ d))) E) as E1. rewrite take_app_length, take_app_le in E1 by lia.
      rewrite E1 at 1. by rewrite take_drop.
Qed.

Lemma response_chunked cs size ext ts ds x y s :
  waiting L B x s -> hd = x ++ y -> y <> [] -> response_headers_chunked hd = true ->
  (length hd <= STREAM_CAP)%nat -> Forall (.≠ []) ds -> head_fits (length hd) (length x) ds ->
  x ++ concat ds = hd ++ enc_chunked cs size ext ts ->
  Forall chunk_ok cs -> last_ok size ext ts -> ~ gzip_magic (take PAGE_CAP (body_of cs)) ->
  exists s', ingest_all ds s = Ret s' /\ delivered (take PAGE_CAP (body_of cs)) s'.
Proof.
  intros Hs Hy Hy0 Hch Hl Hds Hfit E Hcs Hlast Hm. revert x y s Hs Hy Hy0 Hfit E.
  induction Hds as [|d ds Hd Hds IH]; intros x y s Hs Hy Hy0 Hfit E.
  { cbn in E. apply (f_equal length) in E. rewrite Hy, !length_app in E. destruct y; [done|]. cbn in E. lia. }
  destruct Hfit as [Hxl Hfit]; [rewrite Hy, length_app; destruct y; [done|cbn; lia]|].
  cbn [concat] in E. destruct (head_reached d x y _ _ Hy E) as [(y' & Hy' & E')|(y' & E' & Eb)].
  - destruct (step_waiting d x y' s Hs E' Hy' Hl) as (s1 & E1 & Hs1 & _).
    cbn [NetFetch.ingest_all]. rewrite E1, bind_ret. apply (IH _ y' _ Hs1 E' Hy'); [by rewrite length_app|by rewrite <-app_assoc].
  - destruct (head_chunked d x y' (concat ds) s (delivered (take PAGE_CAP (body_of cs))) Hch Hs E' Hxl)
      as (st & s4 & s' & E4 & HQ & Hr & Hs4).
    { intros st Hst. rewrite <-Eb. apply (chunk_run_chunked inflate brotli (strm := st) (L := L) (B := B)); [done..| |done].
      eapply chunk_start_between; [done|done|]. rewrite <-E', length_app. lia. }
    exists (head_done s'). split; [|by destruct HQ].
    cbn [NetFetch.ingest_all]. rewrite E4, bind_ret. destruct ds as [|d' ds].
    + cbn in Hr. injection Hr as ->. done.
    + apply (ingest_all_run inflate brotli (strm := st)); [|done..].
      apply Hs4. apply Forall_cons in Hds as [? _]. by destruct d'.
Qed.

(** ** A body of known length *)

Record receiving (p : bytes) (rem : nat) s : Prop := {
  rc_wf : net_inv L B s;
  rc_armed : s.(fetch_armed) = true;
  rc_done : s.(fetch_done) = false;
  rc_mode : s.(header_found) = true /\ s.(http_chunked) = false;
  rc_rem : s.(http_body_remaining) = Some (Z.of_nat rem);
  rc_page : page_bytes s = p;
  rc_err : s.(fetch_err_len) = 0%nat;
  rc_layers : s.(body_layer_count) = 0%nat;
}.

Lemma receiving_length p rem s : receiving p rem s -> length p = s.(page_len).
Proof.
  intros Hs. rewrite <-(rc_page _ _ _ Hs). unfold page_bytes. rewrite length_take.
  pose proof (nw_page _ (rc_wf _ _ _ Hs)). pose proof (nw_page_len _ (rc_wf _ _ _ Hs)). lia.
Qed.

(** The body is complete when nothing remains. *)
Definition length_step (p : bytes) (rem : nat) s : Prop :=
  if decide (rem = 0)%nat then delivered p s else receiving p rem s.

Lemma finish_receiving p s :
  receiving p 0 s -> ~ gzip_magic p -> exists s', finish_fetch inflate brotli s = Ret s' /\ delivered p s'.
Proof.
  intros Hs Hm. rewrite finish_plain; [|apply Hs|apply Hs|by rewrite (rc_page _ _ _ Hs)].
  eexists. split; [reflexivity|]. destruct Hs. by split.
Qed.

Lemma append_receiving d p rem s :
  receiving p rem s -> d <> [] -> (length d <= rem)%nat -> (length p + length d <= PAGE_CAP)%nat ->
  ((length d = rem)%nat -> ~ gzip_magic (p ++ d)) ->
  exists s', ingest d s = Ret s' /\ length_step (p ++ d) (rem - length d) s'.
Proof.
  intros Hs Hd Hrem Hcap Hm. pose proof (receiving_length _ _ _ Hs) as Hp.
  pose proof (nw_page _ (rc_wf _ _ _ Hs)) as Hpg. assert (0 < length d)%nat by (destruct d; [done|cbn; lia]).
  unfold ingest_tcp_payload. destruct (rc_mode _ _ _ Hs) as [-> ->]. cbn [negb]. unfold append_to_page.
  replace (Nat.min (length d) (length (page s) - page_len s)) with (length d) by lia.
  rewrite decide_True by done. rewrite take_ge, copy_at_ok, !bind_ret by lia.
  rewrite (decide_False (P := (length d < length d)%nat)) by lia.
  set (s1 := over page_len _ _).
  assert (forall r, receiving (p ++ d) r (s1 <| http_body_remaining := Some (Z.of_nat r) |>)) as Hs1.
  { intros r. pose proof (rc_page _ _ _ Hs) as Hpage. destruct Hs. split; try done.
    - unfold s1. wf.
    - unfold page_bytes, s1 in *. cbn [over page page_len]. rewrite inserts_split by lia.
      rewrite Hpage, app_assoc. apply take_app_length'. rewrite length_app. lia. }
  change (http_body_remaining s1) with (http_body_remaining s). rewrite (rc_rem _ _ _ Hs). cbv zeta.
  replace (Z.of_nat rem - Z.min (Z.of_nat rem) (Z.of_nat (length d))) with (Z.of_nat (rem - length d)) by lia.
  unfold length_step. destruct (decide (Z.of_nat (rem - length d) = 0)) as [E|E].
  - destruct (decide _); [|lia]. apply finish_receiving; [|apply Hm; lia]. rewrite E. apply (Hs1 0%nat).
  - destruct (decide _); [lia|]. eexists. split; [reflexivity|]. apply Hs1.
Qed.

Lemma ingest_all_receiving ds p rem s :
  receiving p rem s -> Forall (.≠ []) ds -> ds <> [] -> length (concat ds) = rem ->
  (length p + rem <= PAGE_CAP)%nat -> ~ gzip_magic (p ++ concat ds) ->
  exists s', ingest_all ds s = Ret s' /\ delivered (p ++ concat ds) s'.
Proof.
  intros Hs Hds. revert p rem s Hs. induction Hds as [|d ds Hd Hds IH]; intros p rem s Hs Hne Hl Hcap Hm; [done|].
  cbn [concat] in *. rewrite length_app in Hl. destruct (append_receiving d p rem s Hs Hd) as (s1 & E & Hs1); [lia|lia| |].
  { intros E. assert (concat ds = []) as E0 by (apply length_zero_iff_nil; lia). by rewrite E0, app_nil_r in Hm. }
  cbn [NetFetch.ingest_all]. rewrite E, bind_ret. unfold length_step in Hs1. destruct ds as [|d' ds].
  - cbn [concat length] in *. rewrite decide_True in Hs1 by lia. exists s1. by rewrite app_nil_r.
  - apply Forall_cons in Hds as H0. destruct H0 as [H0 _].
    assert (0 < length (concat (d' :: ds)))%nat by (cbn [concat]; rewrite length_app; destruct d'; [done|cbn; lia]).
    rewrite decide_False in Hs1 by lia. rewrite app_assoc in *. eapply IH; [exact Hs1|done|lia|rewrite length_app; lia|done].
Qed.

(** The state in which a plain body begins. *)
Definition body_start (layers : list BodyLayer) (count : nat) (rem : Z) s : NetStack :=
  s <| header_found := true |> <| body_layers := layers |> <| body_layer_count := count |>
    <| http_body_remaining := Some rem |>.

Lemma ingest_head_plain e s layers count cl :
  (e <= s.(stream_len) <= length s.(stream))%nat ->
  response_headers_chunked (take e s.(stream)) = false ->
  parse_content_encoding_layers (take e s.(stream)) = Some (layers, count) ->
  parse_content_length (take e s.(stream)) = Some cl ->
  ingest_head inflate brotli e s =
    s' ← page_push_bytes (slice s.(stream) e s.(stream_len))
           (body_start layers count (cl - Z.min (Z.of_nat (s.(stream_len) - e)) cl) s);
    s' ← (if decide (s'.(http_body_remaining) = Some 0) then finish_fetch inflate brotli s' else Ret s');
    Ret (head_done s').
Proof.
  intros He Hc Henc Hcl. unfold ingest_head. cbv zeta.
  change (stream (s <| header_found := true |>)) with (stream s).
  change (stream_len (s <| header_found := true |>)) with (stream_len s).
  rewrite sub_ok, bind_ret, slice_0, Hc, Henc, Hcl by lia.
  match goal with |- context [sub (stream ?t)] => change (stream t) with (stream s) end.
  by rewrite sub_ok, bind_ret by lia.
Qed.

Lemma body_start_receiving layers r x y st s :
  waiting L B x s -> s.(http_chunked) = false -> length st = STREAM_CAP -> (length (hd ++ y) <= STREAM_CAP)%nat ->
  length layers = 4%nat -> receiving [] r (body_start layers 0 (Z.of_nat r) (at_head y st s)).
Proof.
  intros [Hn Ha Hd Hf Hst Hp He Hl] Hnc Hs Hy Hla. unfold body_start, at_head.
  split; [wf|exact Ha|exact Hd|split; [reflexivity|exact Hnc]|reflexivity|exact Hp|exact He|reflexivity].
Qed.

Lemma push_receiving y r s :
  receiving [] r s -> (length y <= PAGE_CAP)%nat ->
  exists s', page_push_bytes y s = Ret s' /\ receiving y r s'.
Proof.
  intros [Hn Ha Hd Hf Hr Hp He Hl] Hy.
  destruct (page_push_bytes_spec y s Hn) as (pg & m & tr & -> & Hpg & Hmc & Hpage).
  rewrite Hp in Hpage. cbn [app] in Hpage. rewrite (take_ge y) in Hpage by lia.
  eexists. split; [reflexivity|].
  split; [wf|exact Ha|exact Hd|exact Hf|exact Hr|exact Hpage|exact He|exact Hl].
Qed.

Lemma head_done_receiving p r s : receiving p r s -> receiving p r (head_done s).
Proof.
  intros [Hn Ha Hd Hf Hr Hp He Hl].
  split; [unfold head_done; apply bump_gen_wf; wf|exact Ha|exact Hd|exact Hf|exact Hr|exact Hp|exact He|exact Hl].
Qed.

(** The rest of the head's segment, when the head announces [n] bytes. *)
Lemma head_length d x y n layers s :
  response_headers_chunked hd = false -> parse_content_encoding_layers hd = Some (layers, 0%nat) ->
  parse_content_length hd = Some (Z.of_nat n) ->
  waiting L B x s -> s.(http_chunked) = false -> x ++ d = hd ++ y -> (length x + length d <= STREAM_CAP)%nat ->
  (length y <= n)%nat -> (n <= PAGE_CAP)%nat -> (length y = n -> ~ gzip_magic y) ->
  exists s', ingest d s = Ret s' /\ length_step y (n - length y) s'.
Proof.
  intros Hch Henc Hcl Hs Hnc Hx Hl Hy Hn Hm.
  destruct (step_head d x y s Hs Hx Hl) as (st & Hst & Ht & ->).
  assert (length (hd ++ y) <= STREAM_CAP)%nat as Hly by (rewrite <-Hx, length_app; lia).
  destruct (stream_parts y st Ht) as [Eh Ey].
  rewrite (ingest_head_plain _ _ layers 0 (Z.of_nat n)).
  2: { change (length hd <= length (hd ++ y) <= length st)%nat. rewrite Hst, length_app in *. lia. }
  2-4: change (stream (at_head y st s)) with st; by rewrite Eh.
  change (stream (at_head y st s)) with st. change (stream_len (at_head y st s)) with (length (hd ++ y)).
  rewrite Ey. replace (Z.of_nat n - _) with (Z.of_nat (n - length y)) by (rewrite length_app; lia).
  apply parse_content_encoding_ok in Henc as [Hlay _].
  pose proof (body_start_receiving _ (n - length y) _ _ _ _ Hs Hnc Hst Hly Hlay) as Hr.
  generalize dependent (body_start layers 0 (Z.of_nat (n - length y)) (at_head y st s)). intros s1 Hr1.
  destruct (push_receiving y _ _ Hr1) as (s2 & -> & Hr); [lia|]. rewrite bind_ret.
  rewrite (rc_rem _ _ _ Hr). unfold length_step. destruct (decide (Some _ = Some 0)) as [E|E].
  - apply (inj Some) in E. assert (n - length y = 0)%nat as E0 by lia. rewrite E0 in *.
    destruct (finish_receiving y s2 Hr) as (s3 & -> & Hd); [apply Hm; lia|]. rewrite bind_ret.
    exists (head_done s3). split; [reflexivity|]. by destruct Hd.
  - rewrite bind_ret. destruct (decide _) as [E0|]; [rewrite E0 in E; done|].
    exists (head_done s2). split; [reflexivity|]. by apply head_done_receiving.
Qed.

Lemma response_length layers body ds x y s :
  waiting L B x s -> s.(http_chunked) = false -> hd = x ++ y -> y <> [] ->
  response_headers_chunked hd = false -> parse_content_encoding_layers hd = Some (layers, 0%nat) ->
  parse_content_length hd = Some (Z.of_nat (length body)) ->
  (length hd <= STREAM_CAP)%nat -> Forall (.≠ []) ds -> head_fits (length hd) (length x) ds ->
  x ++ concat ds = hd ++ body -> (length body <= PAGE_CAP)%nat -> ~ gzip_magic body ->
  exists s', ingest_all ds s = Ret s' /\ delivered body s'.
Proof.
  intros Hs Hnc Hy Hy0 Hch Henc Hcl Hl Hds Hfit E Hcap Hm. revert x y s Hs Hnc Hy Hy0 Hfit E.
  induction Hds as [|d ds Hd Hds IH]; intros x y s Hs Hnc Hy Hy0 Hfit E.
  { cbn in E. apply (f_equal length) in E. rewrite Hy, !length_app in E. destruct y; [done|]. cbn in E. lia. }
  destruct Hfit as [Hxl Hfit]; [rewrite Hy, length_app; destruct y; [done|cbn; lia]|].
  cbn [concat] in E. destruct (head_reached d x y _ _ Hy E) as [(y' & Hy' & E')|(y' & E' & Eb)].
  - destruct (step_waiting d x y' s Hs E' Hy' Hl) as (s1 & E1 & Hs1 & Hnc1).
    cbn [NetFetch.ingest_all]. rewrite E1, bind_ret. apply (IH _ y' _ Hs1); [congruence|done|done|by rewrite length_app|by rewrite <-app_assoc].
  - assert (length body = length y' + length (concat ds))%nat as Hlb by (by rewrite Eb, length_app).
    destruct (head_length d x y' (length body) layers s Hch Henc Hcl Hs Hnc E' Hxl) as (s1 & E1 & Hs1); [lia|done| |].
    { intros El. assert (concat ds = []) as E0 by (apply length_zero_iff_nil; lia).
      rewrite E0, app_nil_r in Eb. by rewrite <-Eb. }
    cbn [NetFetch.ingest_all]. rewrite E1, bind_ret. unfold length_step in Hs1.
    pose proof Hds as Hds'.
    destruct ds as [|d' ds].
    + cbn in Hlb, Eb. rewrite decide_True in Hs1 by lia. rewrite app_nil_r in Eb. subst. by exists s1.
    + apply Forall_cons in Hds' as H0. destruct H0 as [H0 _].
      assert (0 < length (concat (d' :: ds)))%nat by (cbn [concat]; rewrite length_app; destruct d'; [done|cbn; lia]).
      rewrite decide_False in Hs1 by lia. rewrite Eb. apply (ingest_all_receiving _ _ _ _ Hs1);
        [done|done|lia|lia|by rewrite <-Eb].
Qed.
End response.

(** ** From the start of a fetch to the page *)

(** What [start_fetch] leaves when it arms a fetch. *)
Record fetch_ready s : Prop := {
  fr_wf : net_wf s;
  fr_armed : s.(fetch_armed) = true;
  fr_done : s.(fetch_done) = false;
  fr_found : s.(header_found) = false;
  fr_chunked : s.(http_chunked) = false;
  fr_stream : s.(stream_len) = 0%nat;
  fr_page : s.(page_len) = 0%nat;
  fr_err : s.(fetch_err_len) = 0%nat;
  fr_layers : s.(body_layer_count) = 0%nat;
}.

Lemma ready_waiting s : fetch_ready s -> waiting s.(tls_live) TLS_CIPHER_RX_CAP [] s.
Proof.
  intros []. split; try done; unfold page_bytes; [by replace (stream_len s) with 0%nat|by replace (page_len s) with 0%nat].
Qed.

(** A head as servers send it. *)
Definition response_head (ls : list bytes) : bytes := render_lines ls ++ [13; 10].
Definition head_lines_ok (ls : list bytes) : Prop := ls <> [] /\ Forall (fun l => l <> [] /\ plain_line l) ls.

(** A response cut anywhere: the segments up to the one in which the head ends
    (and that segment's share of the body) fit the header buffer of 4096 bytes. *)
Definition segments_of (response : bytes) (hd : bytes) (ds : list bytes) : Prop :=
  concat ds = response /\ Forall (.≠ []) ds /\ (length hd <= STREAM_CAP)%nat /\ head_fits (length hd) 0 ds.

(** The request a started fetch will make. *)
Record fetching (u : ParsedHttpUrl) s : Prop := {
  fg_https : s.(https_mode) = u.(https);
  fg_port : s.(remote_port) = u.(port);
  fg_sni : take s.(tls_server_name_len) s.(tls_server_name) = host_bytes u;
  fg_host : take s.(host_hdr_len) s.(host_hdr) = header_bytes u;
  fg_path : take s.(req_path_len) s.(req_path) = path_bytes u;
  fg_dns : if u.(needs_dns)
           then s.(dns_needed) = true /\ s.(dns_done) = false /\ take s.(dns_name_len) s.(dns_name) = host_bytes u /\
                s.(dns_tx_id) <> 0
           else s.(dns_needed) = false /\ s.(dns_done) = true /\ s.(remote_ip) = u.(ip);
}.

Lemma copy_prefix_ok dst src n :
  (n <= length src)%nat -> (n <= length dst)%nat ->
  exists d, copy_prefix dst src n = Ret d /\ take n d = take n src.
Proof.
  intros Hs Hd. unfold copy_prefix. rewrite sub_ok, bind_ret, slice_0 by lia.
  rewrite copy_at_ok by (rewrite length_take; lia). eexists. split; [reflexivity|].
  rewrite inserts_split by (rewrite length_take; lia). rewrite take_0. cbn [app].
  rewrite (take_app_le (take n src)) by (rewrite length_take; lia). by rewrite take_take, Nat.min_id.
Qed.

(** The fields of the request, as [start_fetch] copies them. *)
Record request_set (u : ParsedHttpUrl) s : Prop := {
  rs_https : s.(https_mode) = u.(https);
  rs_port : s.(remote_port) = u.(port);
  rs_sni : take s.(tls_server_name_len) s.(tls_server_name) = host_bytes u;
  rs_host : take s.(host_hdr_len) s.(host_hdr) = header_bytes u;
  rs_path : take s.(req_path_len) s.(req_path) = path_bytes u;
}.

Lemma fetch_resolve_ok u s :
  request_set u s -> (u.(host_for_dns_len) <= length u.(host_for_dns))%nat ->
  (u.(host_for_dns_len) <= length s.(dns_name))%nat -> 
  exists s', fetch_resolve u s = Ret s' /\ fetching u s'.
Proof.
  intros [] Hl Hd. unfold fetch_resolve. destruct (needs_dns u) eqn:En.
  - destruct (copy_prefix_ok (dns_name s) (host_for_dns u) (host_for_dns_len u)) as (d & -> & Hdn); [done..|].
    rewrite bind_ret. eexists. split; [reflexivity|]. split; try assumption. rewrite En.
    split; [reflexivity|]. split; [reflexivity|]. split; [exact Hdn|]. cbn [over dns_tx_id]. by destruct (decide _).
  - eexists. split; [reflexivity|]. split; try assumption. rewrite En. by split.
Qed.

Lemma reset_fetching u s : fetching u s -> fetching u (bump_gen ((reset_tcp_for_new_fetch s) <| fetch_armed := true |>)).
Proof. intros []. split; try assumption. Qed.

Lemma start_fetch_net_wf url s s' : net_wf s -> start_fetch url s = Ret s' -> net_wf s'.
Proof.
  intros Hs E. pose proof (start_fetch_inv url _ _ 0 s Hs) as H. rewrite E in H. by eapply net_inv_wf.
Qed.

(** [start_fetch] arms the fetch the URL asks for: for every URL the parser
    accepts, whatever the stack was doing, it returns an armed stack with every
    trace of the previous fetch cleared (page, error, header buffer, codings),
    and scheme, port, server name, Host header and path are those of the URL; a
    host name is queued for DNS with a non-zero transaction id, and an address is
    used at once. *)
Theorem start_fetch_arms url u s :
  net_wf s -> parse_fetch_url url = Ret (Some u) ->
  exists s', start_fetch url s = Ret s' /\ fetch_ready s' /\ fetching u s'.
Proof.
  intros Hs Hu. assert (exists s1, start_fetch url s = Ret (bump_gen ((reset_tcp_for_new_fetch s1) <| fetch_armed := true |>)) /\
    fetching u s1 /\ s1.(http_chunked) = false) as (s1 & E & Hf & Hnc).
  { destruct (parse_fetch_url_result url) as (r & tls & E & Hr). rewrite Hu in E. injection E as <-.
    destruct Hr as (prt & host & src & Hi & _). unfold start_fetch. rewrite Hu, bind_ret. cbv zeta.
    destruct (ui_arrays _ _ _ _ _ Hi) as (Ha & Hb & Hc). destruct (ui_lens _ _ _ _ _ Hi) as (Hl1 & Hl2 & Hl3). clear Hi.
    pose proof (clear_fetch_inner_wf _ _ 0 s Hs) as Hn.
    assert (http_chunked (clear_fetch_inner s) = false) as Hnc by reflexivity.
    generalize dependent (clear_fetch_inner s). intros t Hn Hnc.
    pose proof (nw_sni _ Hn). pose proof (nw_host _ Hn). pose proof (nw_path _ Hn). pose proof (nw_dns_name _ Hn).
    rewrite sub_ok, bind_ret by lia.
    match goal with |- context [copy_prefix (tls_server_name ?t1)] =>
      change (tls_server_name t1) with (tls_server_name t); change (host_hdr t1) with (host_hdr t);
      change (req_path t1) with (req_path t) end.
    destruct (copy_prefix_ok (tls_server_name t) (host_for_dns u) (host_for_dns_len u)) as (sn & -> & Esn); [lia..|].
    rewrite bind_ret.
    destruct (copy_prefix_ok (host_hdr t) (host_header u) (host_header_len u)) as (hh & -> & Ehh); [lia..|].
    rewrite bind_ret.
    destruct (copy_prefix_ok (req_path t) (Url.path u) (path_len u)) as (pa & -> & Epa); [lia..|].
    rewrite bind_ret.
    match goal with |- context [fetch_resolve u ?t1] =>
      assert (request_set u t1) as Hset by (split; [reflexivity|reflexivity|exact Esn|exact Ehh|exact Epa]);
      assert (http_chunked t1 = false) as Hnc1 by exact Hnc;
      assert (dns_name t1 = dns_name t) as Hdn by reflexivity; generalize dependent t1 end.
    intros t1 Hset Hnc1 Hdn. destruct (fetch_resolve_ok u t1 Hset) as (s1 & E1 & Hf); [lia|rewrite Hdn; lia|].
    rewrite E1, bind_ret. exists s1. split; [reflexivity|]. split; [exact Hf|].
    unfold fetch_resolve in E1. destruct (needs_dns u); [destruct (copy_prefix _ _ _); [|done]|]; by injection E1 as <-. }
  eexists. split; [exact E|]. split; [|by apply reset_fetching].
  split; try reflexivity. by eapply start_fetch_net_wf.
Qed.

(** C3: a chunked response arrives whole: whatever chunks the server cuts the body
    into (sizes in any spelling that fits the line buffer, extensions, trailers),
    and however TCP cuts the response into segments - in the middle of the head,
    of a size line, between CR and LF - decoding the segments in order ends the
    fetch without an error, with exactly the body on the page, cut at the page's
    size.  Two conditions: the bytes up to the end of the segment in which the
    head ends fit the header buffer of 4096 bytes (what is beyond is lost), and
    the body does not begin with the gzip magic (it would be decompressed). *)
Theorem chunked_response_delivered inflate brotli ls cs size ext ts ds s :
  fetch_ready s -> head_lines_ok ls -> response_headers_chunked (response_head ls) = true ->
  Forall chunk_ok cs -> last_ok size ext ts -> ~ gzip_magic (take PAGE_CAP (body_of cs)) ->
  segments_of (response_head ls ++ enc_chunked cs size ext ts) (response_head ls) ds ->
  exists s', ingest_all inflate brotli ds s = Ret s' /\ delivered (take PAGE_CAP (body_of cs)) s'.
Proof.
  intros Hs [Hne Hls] Hch Hcs Hlast Hm (E & Hds & Hl & Hfit).
  eapply (response_chunked _ _ _ (render_head_end ls Hls Hne) _ _ _ _ _ [] (response_head ls));
    [by apply ready_waiting|done| |done..].
  unfold response_head. by destruct (render_lines ls).
Qed.

(** C8: a response with [Content-Length] arrives whole: for a body that fits the
    page, without a content encoding and not beginning with the gzip magic,
    however TCP cuts the response into segments (the bytes up to the end of the
    segment in which the head ends fit the header buffer of 4096 bytes), the
    fetch ends with the last byte, without an error and with exactly the body on
    the page. *)
Theorem length_response_delivered inflate brotli ls layers body ds s :
  fetch_ready s -> head_lines_ok ls -> response_headers_chunked (response_head ls) = false ->
  parse_content_encoding_layers (response_head ls) = Some (layers, 0%nat) ->
  parse_content_length (response_head ls) = Some (Z.of_nat (length body)) ->
  (length body <= PAGE_CAP)%nat -> ~ gzip_magic body ->
  segments_of (response_head ls ++ body) (response_head ls) ds ->
  exists s', ingest_all inflate brotli ds s = Ret s' /\ delivered body s'.
Proof.
  intros Hs [Hne Hls] Hch Henc Hcl Hb Hm (E & Hds & Hl & Hfit).
  eapply (response_length _ _ _ (render_head_end ls Hls Hne) _ _ _ [] (response_head ls));
    [by apply ready_waiting|apply (fr_chunked s Hs)|done| |done..].
  unfold response_head. by destruct (render_lines ls).
Qed.

(** ** Witnesses *)

Lemma boot_fetch_ready : fetch_ready ((reset_tcp_for_new_fetch (static_initial log_new)) <| fetch_armed := true |>).
Proof.
  split; try reflexivity. pose proof (reset_tcp_wf (L := false) (B := 0) _ (static_initial_wf 0 log_new)) as Hs.
  generalize dependent (reset_tcp_for_new_fetch (static_initial log_new)). intros s Hs.
  apply (net_inv_wf false 0). wf.
Qed.

Lemma start_fetch_arms_witness :
  exists u s', parse_fetch_url (bs "http://10.0.2.9:81/i") = Ret (Some u) /\
    start_fetch (bs "http://10.0.2.9:81/i") (static_initial log_new) = Ret s' /\ fetch_ready s' /\ fetching u s'.
Proof.
  eexists. assert (net_wf (static_initial log_new)) as Hs by apply (net_inv_wf false 0), static_initial_wf.
  destruct (start_fetch_arms (bs "http://10.0.2.9:81/i") _ _ Hs ltac:(vm_compute; reflexivity)) as (s' & H).
  exists s'. split; [vm_compute; reflexivity|exact H].
Defined.

Definition demo_head : list bytes := [bs "HTTP/1.1 200 OK"; bs "Transfer-Encoding: chunked"].
Definition demo_chunks : list chunk :=
  [{| ck_size := [51]; ck_ext := [59; 120]; ck_data := bs "abc" |}; {| ck_size := [48; 49]; ck_ext := []; ck_data := bs "d" |}].

Lemma chunked_response_delivered_witness :
  let r := response_head demo_head ++ enc_chunked demo_chunks [48] [] [bs "X: y"] in
  let ds := [take 20 r; take 30 (drop 20 r); drop 50 r] in
  segments_of r (response_head demo_head) ds /\
  exists s', ingest_all no_inflate no_brotli ds
      ((reset_tcp_for_new_fetch (static_initial log_new)) <| fetch_armed := true |>) = Ret s' /\
    delivered (take PAGE_CAP (body_of demo_chunks)) s'.
Proof.
  intros r ds. assert (segments_of r (response_head demo_head) ds) as Hds by (split; [reflexivity|by_decide]).
  split; [exact Hds|].
  apply (chunked_response_delivered no_inflate no_brotli demo_head demo_chunks [48] [] [bs "X: y"] ds _ boot_fetch_ready);
    [| | | | |exact Hds].
  - split; [done|by_decide].
  - vm_compute. reflexivity.
  - repeat constructor; try done; try (vm_compute; eauto; fail); by_decide.
  - repeat constructor; try done; try (vm_compute; eauto; fail); by_decide.
  - by_decide.
Defined.

Definition demo_length_head : list bytes := [bs "HTTP/1.1 200 OK"; bs "Content-Length: 5"].

Lemma length_response_delivered_witness :
  let r := response_head demo_length_head ++ bs "hello" in
  let ds := [take 7 r; take 33 (drop 7 r); drop 40 r] in
  segments_of r (response_head demo_length_head) ds /\
  exists s', ingest_all no_inflate no_brotli ds
      ((reset_tcp_for_new_fetch (static_initial log_new)) <| fetch_armed := true |>) = Ret s' /\
    delivered (bs "hello") s'.
Proof.
  intros r ds. assert (segments_of r (response_head demo_length_head) ds) as Hds by (split; [reflexivity|by_decide]).
  split; [exact Hds|].
  apply (length_response_delivered no_inflate no_brotli demo_length_head (replicate 4 Identity) (bs "hello") ds _ boot_fetch_ready);
    [| | | | | |exact Hds].
  - split; [done|by_decide].
  - vm_compute. reflexivity.
  - vm_compute. reflexivity.
  - vm_compute. reflexivity.
  - by_decide.
  - by_decide.
Defined.
