(* ===== verification/TlsQueue.v ===== *)
(** * The TLS cipher queues refine lists

    [NetStack] keeps received ciphertext in an array with two cursors that is
    compacted when it runs full or far; [tls_cipher_append] and [tls_cipher_pop]
    behave like a bounded list.  [tls_cipher_tx_append] is the transmit side. *)

From S2P Require Import Prelude Url Log Settings NetWire Http NetStack NetSafe.

#[local] Opaque PAGE_CAP STREAM_CAP CHUNK_LINE_CAP TLS_CIPHER_RX_CAP TLS_TX_CAP.

(** ** The abstract queue *)

(** What waits in the stack. *)
Definition rx_queue (s : NetStack) : bytes := slice s.(tls_cipher_in) s.(tls_cipher_off) s.(tls_cipher_len).
Definition tx_queue (s : NetStack) : bytes := take s.(tls_tx_len) s.(tls_tx_buf).

Inductive queue_op := Append (data : bytes) | Pop (cap : nat).

(** A queue of at most [cap] bytes: a block that does not fit is refused whole. *)
Definition bounded_append (cap : nat) (data q : bytes) : bytes * bool :=
  if decide (length q + length data <= cap)%nat then (q ++ data, true) else (q, false).

Definition spec_op (op : queue_op) (q : bytes) : bytes * (bool + bytes) :=
  match op with
  | Append data => let '(q, ok) := bounded_append TLS_CIPHER_RX_CAP data q in (q, inl ok)
  | Pop cap => (drop cap q, inr (take cap q))
  end.

Fixpoint spec_ops (ops : list queue_op) (q : bytes) : bytes * list (bool + bytes) :=
  match ops with
  | [] => (q, [])
  | op :: ops => let '(q, r) := spec_op op q in let '(q, rs) := spec_ops ops q in (q, r :: rs)
  end.

(** The same calls on the stack. *)
Definition stack_op (op : queue_op) (s : NetStack) : rust (NetStack * (bool + bytes)) :=
  match op with
  | Append data => '(s, ok) ← tls_cipher_append data s; Ret (s, inl ok)
  | Pop cap => '(s, d) ← tls_cipher_pop cap s; Ret (s, inr d)
  end.

Fixpoint stack_ops (ops : list queue_op) (s : NetStack) : rust (NetStack * list (bool + bytes)) :=
  match ops with
  | [] => Ret (s, [])
  | op :: ops => '(s, r) ← stack_op op s; '(s, rs) ← stack_ops ops s; Ret (s, r :: rs)
  end.

(** ** Each call refines its specification *)

Section refine.
Context {L : bool} {B : nat}.
#[local] Abbreviation net_wf := (net_inv L B).

Lemma length_rx_queue s : net_wf s -> length (rx_queue s) = (s.(tls_cipher_len) - s.(tls_cipher_off))%nat.
Proof.
  intros Hs. unfold rx_queue. pose proof (nw_cipher s Hs). pose proof (nw_cipher_len s Hs). rewrite length_slice; lia.
Qed.

Lemma rx_queue_at s i l :
  net_wf s -> s.(tls_cipher_off) = i -> s.(tls_cipher_len) = l -> rx_queue s = slice s.(tls_cipher_in) i l.
Proof. by intros _ <- <-. Qed.

Lemma compact_queue s :
  net_wf s -> returns (fun s' => rx_queue s' = rx_queue s /\ s'.(tls_cipher_off) = 0%nat) (tls_cipher_compact s).
Proof.
  intros Hs. unfold tls_cipher_compact. pose proof (nw_cipher s Hs). pose proof (nw_cipher_len s Hs).
  destruct (decide _); [done|]. cbv zeta. destruct (decide _).
  - rewrite sub_ok, bind_ret by lia. fold (rx_queue s). pose proof (length_rx_queue s Hs) as Hl.
    rewrite copy_at_ok, bind_ret by lia. cbn [returns]. split; [|done].
    change (slice (list_inserts 0 (rx_queue s) (tls_cipher_in s)) 0 (tls_cipher_len s - tls_cipher_off s) = rx_queue s).
    apply slice_inserts_in; lia.
  - rewrite bind_ret. cbn [returns]. split; [|done]. unfold rx_queue. cbn.
    unfold slice. replace (tls_cipher_len s - tls_cipher_off s)%nat with 0%nat by lia. by rewrite !take_0.
Qed.

Lemma append_refines data s :
  net_wf s ->
  returns (fun r => (rx_queue r.1, r.2) = bounded_append TLS_CIPHER_RX_CAP data (rx_queue s)) (tls_cipher_append data s).
Proof.
  intros Hs. unfold tls_cipher_append.
  eapply (returns_bind (fun s1 => (net_wf s1 /\ rx_queue s1 = rx_queue s) /\
    (s1.(tls_cipher_off) = 0%nat \/ s1.(tls_cipher_len) + length data <= TLS_CIPHER_RX_CAP)%nat)).
  { destruct (decide _) as [|Hn].
    - pose proof (tls_cipher_compact_wf s Hs) as H1. pose proof (compact_queue s Hs) as H2.
      destruct (tls_cipher_compact s); [|done]. destruct H2. split; [by split|by left].
    - split; [done|]. right. rewrite (nw_cipher s Hs) in Hn. lia. }
  intros s1 [[Hs1 Hq] Hor]. pose proof (nw_cipher s1 Hs1) as Hc. pose proof (nw_cipher_len s1 Hs1).
  pose proof (length_rx_queue s1 Hs1) as Hl. unfold bounded_append. rewrite <-Hq. rewrite Hc.
  destruct (decide (TLS_CIPHER_RX_CAP < tls_cipher_len s1 + length data)%nat).
  - cbn [returns fst snd]. destruct Hor as [H0|]; [|lia]. by rewrite decide_False by lia.
  - rewrite copy_at_ok, bind_ret by lia. cbn [returns fst snd]. rewrite decide_True by lia. f_equal.
    unfold rx_queue. cbn [over tls_cipher_in tls_cipher_off tls_cipher_len].
    rewrite (inserts_split (tls_cipher_len s1)) by lia. unfold slice.
    rewrite drop_app_le by (rewrite length_take; lia).
    rewrite app_assoc, take_app_le by (rewrite ?length_app, ?length_drop, ?length_take; lia).
    rewrite skipn_firstn_comm. apply take_ge. rewrite length_app, length_take, length_drop. lia.
Qed.

Lemma pop_refines cap s :
  net_wf s ->
  returns (fun r => rx_queue r.1 = drop cap (rx_queue s) /\ r.2 = take cap (rx_queue s)) (tls_cipher_pop cap s).
Proof.
  intros Hs. pose proof (length_rx_queue s Hs) as Hl. unfold tls_cipher_pop.
  pose proof (nw_cipher s Hs). pose proof (nw_cipher_len s Hs). cbv zeta. destruct (decide _) as [E|E].
  { rewrite E in Hl. apply length_zero_iff_nil in Hl.
    cbn [returns fst snd]. rewrite Hl. by rewrite drop_nil, take_nil. }
  set (n := Nat.min _ cap). rewrite sub_ok, bind_ret by lia.
  assert (slice (tls_cipher_in s) (tls_cipher_off s) (tls_cipher_off s + n) = take cap (rx_queue s)) as Et.
  { unfold rx_queue, slice. rewrite take_take. f_equal. lia. }
  assert (slice (tls_cipher_in s) (tls_cipher_off s + n) (tls_cipher_len s) = drop cap (rx_queue s)) as Ed.
  { unfold rx_queue, slice. rewrite skipn_firstn_comm, drop_drop.
    destruct (decide (cap <= tls_cipher_len s - tls_cipher_off s)%nat).
    - replace n with cap by lia. f_equal. lia.
    - replace (tls_cipher_len s - (tls_cipher_off s + n))%nat with 0%nat by lia.
      by replace (tls_cipher_len s - tls_cipher_off s - cap)%nat with 0%nat by lia. }
  rewrite Et. clear Et. destruct (decide _) as [E1|E1]; cbn in E1.
  { cbn [returns fst snd]. split; [|done]. rewrite <-Ed. unfold rx_queue, slice. cbn.
    replace (tls_cipher_len s - (tls_cipher_off s + n))%nat with 0%nat by lia. by rewrite !take_0. }
  assert (rx_queue (s <| tls_cipher_off ::= Nat.add n |>) = drop cap (rx_queue s)) as Eq.
  { rewrite <-Ed, (Nat.add_comm (tls_cipher_off s)). reflexivity. }
  assert (net_inv L B (s <| tls_cipher_off ::= Nat.add n |>)) as Hn1.
  { destruct Hs. split; try done; cbn; lia. }
  destruct (decide _); [|done].
  pose proof (compact_queue _ Hn1) as Hc. eapply returns_bind; [exact Hc|]. intros s2 [Hq _].
  cbn [returns fst snd]. split; [|done]. by rewrite Hq.
Qed.
End refine.

(** ** Any sequence of calls *)

Lemma stack_op_inv op L B s :
  net_inv L B s ->
  returns (fun r => net_inv L TLS_CIPHER_RX_CAP r.1 /\ (rx_queue r.1, r.2) = spec_op op (rx_queue s)) (stack_op op s).
Proof.
  intros Hs. destruct op as [data|cap]; cbn [stack_op spec_op].
  - pose proof (tls_cipher_append_inv _ _ data s Hs) as H1. pose proof (append_refines data s Hs) as H2.
    destruct (tls_cipher_append data s) as [[s1 ok]|]; [|done]. rewrite bind_ret. cbn in *.
    rewrite <-H2. split; [|done]. destruct H1. split; auto. lia.
  - pose proof (tls_cipher_pop_inv _ _ cap s Hs) as H1.
    pose proof (pop_refines cap s Hs) as H2.
    destruct (tls_cipher_pop cap s) as [[s1 d]|]; [|done]. rewrite bind_ret. cbn in *.
    destruct H1 as (_ & _ & H1). destruct H2 as [-> ->]. split; [|done]. destruct H1. split; auto. lia.
Qed.

(** C17: the receive queue of the TLS bridge is a FIFO: any sequence of appends by
    the TCP handler and pops by the bridge, of any sizes, returns on the stack
    what it returns on a plain list of at most 49152 bytes - no byte is lost,
    duplicated or reordered by the compaction, a block is refused only when it
    does not fit, and what waits at the end is the list's content. *)
Theorem cipher_queue_refines ops s :
  net_wf s ->
  exists s' rs, stack_ops ops s = Ret (s', rs) /\ (rx_queue s', rs) = spec_ops ops (rx_queue s).
Proof.
  unfold net_wf. generalize TLS_CIPHER_RX_CAP as B. intros B Hs. revert Hs. generalize (tls_live s) as L. intros L. revert B s.
  induction ops as [|op ops IH]; intros B s Hs; cbn [stack_ops spec_ops]; [eauto|].
  pose proof (stack_op_inv op L B s Hs) as H. destruct (stack_op op s) as [[s1 r]|]; [|done].
  destruct H as [H1 H2]. cbn [fst snd] in H1, H2. rewrite <-H2, bind_ret.
  destruct (IH _ _ H1) as (s2 & rs & -> & H3). rewrite bind_ret, <-H3. eauto.
Qed.

Lemma cipher_queue_refines_witness :
  let ops := [Append [1; 2; 3]; Pop 2; Append [4]; Pop 9] in
  net_wf (static_initial log_new) /\
  exists s' rs, stack_ops ops (static_initial log_new) = Ret (s', rs) /\
    (rx_queue s', rs) = spec_ops ops (rx_queue (static_initial log_new)).
Proof.
  intros ops. assert (net_wf (static_initial log_new)) as Hs by apply (net_inv_wf false 0), static_initial_wf.
  split; [exact Hs|]. apply (cipher_queue_refines ops _ Hs).
Defined.
