(* ===== verification/NetDhcp.v ===== *)
(** * The DHCP client

    What the option parser reads in a reply, which replies are ignored, and the
    exchange that ends in a lease. *)

From S2P Require Import Prelude Url Log Settings NetWire Http NetStack NetSafe.

(** ** Replies as servers send them *)

(** An option with its tag and value, or a pad byte. *)
Definition dhcp_opt := option (Z * bytes).

Definition enc_opt (x : dhcp_opt) : bytes :=
  match x with None => [0] | Some (tag, d) => tag :: Z.of_nat (length d) :: d end.
Definition opt_wf (x : dhcp_opt) : Prop :=
  match x with None => True | Some (tag, d) => tag <> 0 /\ tag <> OPT_END /\ (length d <= 255)%nat end.

(** What an option contributes; values that are too short are skipped, and a
    repeated option overrides. *)
Definition opt_apply (o : dhcp_opts) (x : dhcp_opt) : dhcp_opts :=
  match x with
  | None => o
  | Some (tag, d) =>
      if decide (tag = OPT_MSG_TYPE /\ 1 <= length d)%nat then o <| do_msg := d !!! 0%nat |>
      else if decide (tag = OPT_SERVER_ID /\ 4 <= length d)%nat then o <| do_sid := Some (take 4 d) |>
      else if decide (tag = OPT_ROUTER /\ 4 <= length d)%nat then o <| do_router := Some (take 4 d) |>
      else if decide (tag = OPT_DNS /\ 4 <= length d)%nat then o <| do_dns := Some (take 4 d) |>
      else o
  end.
Definition opts_of (xs : list dhcp_opt) : dhcp_opts := fold_left opt_apply xs dhcp_opts_none.

(** The fixed fields of a reply, then the options and whatever follows. *)
Record dhcp_reply := {
  rp_xid : Z; rp_yi : bytes; rp_si : bytes; rp_mac : bytes;
  rp_head : bytes; rp_secs : bytes; rp_gi : bytes; rp_pad : bytes;
  rp_opts : list dhcp_opt; rp_rest : bytes;
}.
Definition enc_reply (r : dhcp_reply) : bytes :=
  (2 :: r.(rp_head)) ++ to_be 4 r.(rp_xid) ++ r.(rp_secs) ++ r.(rp_yi) ++ r.(rp_si) ++ r.(rp_gi) ++ r.(rp_mac) ++
  r.(rp_pad) ++ DHCP_MAGIC ++ (r.(rp_opts) ≫= enc_opt) ++ OPT_END :: r.(rp_rest).
(** The shortest message whose options the client reads has 244 bytes. *)
Definition reply_wf (r : dhcp_reply) : Prop :=
  0 <= r.(rp_xid) < 2 ^ 32 /\ length r.(rp_yi) = 4%nat /\ length r.(rp_si) = 4%nat /\ length r.(rp_mac) = 6%nat /\
  length r.(rp_head) = 3%nat /\ length r.(rp_secs) = 8%nat /\ length r.(rp_gi) = 4%nat /\ length r.(rp_pad) = 202%nat /\
  Forall opt_wf r.(rp_opts) /\ (244 <= length (enc_reply r))%nat.

#[export] Instance opt_wf_dec x : Decision (opt_wf x).
Proof. destruct x as [[tag d]|]; cbn; apply _. Defined.
#[export] Instance reply_wf_dec r : Decision (reply_wf r).
Proof. unfold reply_wf. apply _. Defined.

(** ** The option parser *)

Lemma slice_mid (pre l rest : bytes) n :
  (n <= length l)%nat -> slice (pre ++ l ++ rest) (length pre) (length pre + n) = take n l.
Proof.
  intros Hn. unfold slice. rewrite drop_app_length, Nat.add_comm, Nat.add_sub. by rewrite take_app_le by done.
Qed.

Lemma dhcp_option_at pre tag d rest o :
  dhcp_option (pre ++ d ++ rest) tag (length d) (length pre) o = Ret (opt_apply o (Some (tag, d))).
Proof.
  unfold dhcp_option. cbn [opt_apply]. destruct (decide _) as [[_ Hd]|_].
  { destruct d as [|x d]; [cbn in Hd; lia|]. cbn [app]. by rewrite rd_head. }
  assert (forall n, (n <= length d)%nat -> sub (pre ++ d ++ rest) (length pre) (length pre + n) = Ret (take n d)) as Hsub.
  { intros n Hn. rewrite sub_ok by (rewrite !length_app; lia). by rewrite slice_mid. }
  repeat (destruct (decide _) as [[_ Hd]|_]; [by rewrite Hsub|]). done.
Qed.

Lemma dhcp_options_enc fuel pre xs rest o :
  Forall opt_wf xs -> (length (xs ≫= enc_opt) < fuel)%nat ->
  dhcp_options fuel (pre ++ (xs ≫= enc_opt) ++ OPT_END :: rest) (length pre) o = Ret (fold_left opt_apply xs o).
Proof.
  intros Hxs. revert fuel pre o. induction Hxs as [|x xs Hx _ IH]; intros fuel pre o Hf.
  { destruct fuel as [|fuel]; [cbn in Hf; lia|]. cbn [mbind list_bind app dhcp_options].
    rewrite decide_False by (rewrite length_app; cbn; lia). by rewrite rd_head, bind_ret, decide_True. }
  destruct fuel as [|fuel]; [lia|]. cbn [mbind list_bind] in *. rewrite length_app in Hf.
  rewrite <-app_assoc. destruct x as [[tag d]|]; cbn [enc_opt app length fold_left] in *.
  - destruct Hx as (H0 & H1 & _). cbn [dhcp_options].
    rewrite decide_False by (rewrite length_app; cbn; lia). rewrite rd_head, bind_ret.
    rewrite !decide_False by (done || (rewrite length_app; cbn; lia)).
    change (pre ++ tag :: Z.of_nat (length d) :: d ++ (xs ≫= enc_opt) ++ OPT_END :: rest) with
      (pre ++ [tag] ++ Z.of_nat (length d) :: d ++ (xs ≫= enc_opt) ++ OPT_END :: rest).
    rewrite app_assoc, rd_mid, bind_ret by (rewrite length_app; cbn; lia). cbv zeta. rewrite Nat2Z.id.
    rewrite decide_False by (rewrite !length_app; cbn; rewrite length_app; lia).
    change ((pre ++ [tag]) ++ Z.of_nat (length d) :: d ++ (xs ≫= enc_opt) ++ OPT_END :: rest) with
      ((pre ++ [tag]) ++ [Z.of_nat (length d)] ++ d ++ (xs ≫= enc_opt) ++ OPT_END :: rest).
    rewrite app_assoc. replace (length pre + 2)%nat with (length ((pre ++ [tag]) ++ [Z.of_nat (length d)]))
      by (rewrite !length_app; cbn; lia).
    rewrite dhcp_option_at, bind_ret, app_assoc, <-length_app. apply IH. lia.
  - cbn [dhcp_options]. rewrite decide_False by (rewrite length_app; cbn; lia).
    rewrite rd_head, bind_ret, decide_False, decide_True by done.
    change (pre ++ 0 :: (xs ≫= enc_opt) ++ OPT_END :: rest) with (pre ++ [0] ++ (xs ≫= enc_opt) ++ OPT_END :: rest).
    rewrite app_assoc. replace (length pre + 1)%nat with (length (pre ++ [0])) by (rewrite length_app; cbn; lia).
    apply IH. lia.
Qed.

(** ** The fixed fields *)

Lemma length_enc_reply r : reply_wf r -> (244 <= length (enc_reply r))%nat.
Proof. intros Hr. apply Hr. Qed.

(** Walks to a field over those before it. *)
Ltac field := unfold enc_reply; repeat
  (rewrite slice_skip by (rewrite ?length_to_be; cbn [length]; lia); rewrite ?length_to_be; cbn [length]);
  rewrite slice_here; [reflexivity|rewrite ?length_to_be; cbn [length DHCP_MAGIC]; lia..].

Lemma reply_fields r :
  reply_wf r ->
  sub (enc_reply r) 4 8 = Ret (to_be 4 r.(rp_xid)) /\ sub (enc_reply r) 16 20 = Ret r.(rp_yi) /\
  sub (enc_reply r) 20 24 = Ret r.(rp_si) /\ sub (enc_reply r) 28 34 = Ret r.(rp_mac) /\
  sub (enc_reply r) 236 240 = Ret DHCP_MAGIC.
Proof.
  intros Hr. pose proof (length_enc_reply r Hr) as Hl. destruct Hr as (_ & Hy & Hs & Hm & Hh & Hse & Hg & Hp & _).
  rewrite !sub_ok by lia. split_and!; f_equal; field.
Qed.

(** The reply is for this client and this transaction. *)
Definition reply_for (mac : bytes) (xid : Z) (r : dhcp_reply) : Prop := r.(rp_xid) = xid /\ r.(rp_mac) = take 6 mac.
#[export] Instance reply_for_dec mac xid r : Decision (reply_for mac xid r).
Proof. unfold reply_for. apply _. Defined.

Lemma dhcp_parse_enc r mac xid :
  reply_wf r -> dhcp_parse (enc_reply r) mac xid =
    Ret (if decide (reply_for mac xid r) then Some (opts_of r.(rp_opts)) else None).
Proof.
  intros Hr. destruct (reply_fields r Hr) as (Ex & _ & _ & Em & Eg). pose proof (length_enc_reply r Hr) as Hl.
  unfold dhcp_parse, rd32. rewrite decide_False by lia.
  change (rd (enc_reply r) 0) with (Ret 2). rewrite bind_ret, decide_False by (intros Hn; by apply Hn).
  change (sub (enc_reply r) 4 (4 + 4)) with (sub (enc_reply r) 4 8). rewrite Ex, !bind_ret, of_be_to_be, Z.mod_small by apply Hr.
  destruct (decide (rp_xid r <> xid)) as [Hx|Hx].
  { rewrite decide_False; [done|]. by intros [? _]. }
  rewrite Em, bind_ret. destruct (decide (rp_mac r <> take 6 mac)) as [Hm|Hm].
  { rewrite decide_False; [done|]. by intros [_ ?]. }
  apply dec_stable in Hx, Hm. rewrite (decide_True (P := reply_for mac xid r)) by done.
  rewrite Eg, bind_ret, decide_True by (split; [lia|done]).
  assert (exists pre, length pre = 240%nat /\
    enc_reply r = pre ++ (rp_opts r ≫= enc_opt) ++ OPT_END :: rp_rest r) as (pre & Hpre & E).
  { exists ((2 :: rp_head r) ++ to_be 4 (rp_xid r) ++ rp_secs r ++ rp_yi r ++ rp_si r ++ rp_gi r ++ rp_mac r ++
            rp_pad r ++ DHCP_MAGIC). destruct Hr as (_ & ? & ? & ? & ? & ? & ? & ? & _). split.
    - rewrite !length_app, length_to_be. cbn [length]. change (length DHCP_MAGIC) with 4%nat. lia.
    - unfold enc_reply. by rewrite <-!app_assoc. }
  pose proof (dhcp_options_enc (S (length (enc_reply r))) pre (rp_opts r) (rp_rest r) dhcp_opts_none) as Ho.
  rewrite <-E, Hpre in Ho. rewrite Ho; [done|apply Hr|]. rewrite E, !length_app. lia.
Qed.

(** ** The exchange *)

Section exchange.
Context {N : Type} `{Nic N} (mac : bytes) (Hmac : length mac = 6%nat).
Implicit Types (w : World N) (r : dhcp_reply).

Lemma handle_other r w :
  reply_wf r -> ~ reply_for mac w.(net).(dhcp_xid) r -> handle_dhcp_reply (enc_reply r) mac w = Ret w.
Proof. intros Hr Hn. unfold handle_dhcp_reply. by rewrite dhcp_parse_enc, bind_ret, decide_False. Qed.

Lemma handle_offer r sid w :
  reply_wf r -> reply_for mac w.(net).(dhcp_xid) r -> w.(net).(dhcp_phase) = WaitOffer ->
  (opts_of r.(rp_opts)).(do_msg) = DHCP_OFFER -> (opts_of r.(rp_opts)).(do_sid) = Some sid ->
  handle_dhcp_reply (enc_reply r) mac w =
    dhcp_send_request mac (upd (fun s => s <| dhcp_server_id := sid |> <| dhcp_offer_yi := r.(rp_yi) |>
      <| dhcp_phase := WaitAck |> <| dhcp_phase_start_tick := s.(tick) |> <| dhcp_last_tx_tick := s.(tick) |>) w).
Proof.
  intros Hr Hf Hp Hm Hs. unfold handle_dhcp_reply. rewrite dhcp_parse_enc, bind_ret, decide_True by done.
  destruct (reply_fields r Hr) as (_ & -> & _). by rewrite bind_ret, Hp, Hm, decide_True, Hs.
Qed.

Lemma handle_ack r w :
  reply_wf r -> reply_for mac w.(net).(dhcp_xid) r -> w.(net).(dhcp_phase) = WaitAck ->
  (opts_of r.(rp_opts)).(do_msg) = DHCP_ACK ->
  handle_dhcp_reply (enc_reply r) mac w = Ret (upd (dhcp_bind (lease r.(rp_yi) r.(rp_si) (opts_of r.(rp_opts)))) w).
Proof.
  intros Hr Hf Hp Hm. unfold handle_dhcp_reply. rewrite dhcp_parse_enc, bind_ret, decide_True by done.
  destruct (reply_fields r Hr) as (_ & -> & -> & _). by rewrite bind_ret, Hp, Hm, decide_True, bind_ret.
Qed.

(** Replies that come in while the client waits. *)
Fixpoint handle_replies (rs : list bytes) w : rust (World N) :=
  match rs with
  | [] => Ret w
  | b :: rs => w ← handle_dhcp_reply b mac w; handle_replies rs w
  end.

Lemma handle_others rs w :
  Forall (fun r => reply_wf r /\ ~ reply_for mac w.(net).(dhcp_xid) r) rs ->
  handle_replies (enc_reply <$> rs) w = Ret w.
Proof.
  induction 1 as [|r rs [Hr Hn] _ IH]; [done|].
  cbn [fmap list_fmap handle_replies]. by rewrite handle_other, bind_ret.
Qed.

Lemma handle_replies_app l1 l2 w : handle_replies (l1 ++ l2) w = handle_replies l1 w ≫= handle_replies l2.
Proof.
  revert w. induction l1 as [|b l1 IH]; intros w; [done|]. cbn [app handle_replies].
  destruct (handle_dhcp_reply b mac w); [|done]. rewrite !bind_ret. apply IH.
Qed.
End exchange.

(** C15: the DHCP exchange ends in the lease the server granted: a client waiting
    for an offer that receives an OFFER and then an ACK of its transaction - with
    any options in any order, padding, unknown options, and any number of replies
    to other clients or transactions in between - ends bound to the address of
    the ACK, with the router and DNS options (or the server address, the router
    and its own address as fallbacks), asks ARP for the new gateway, and its
    REQUEST named the offering server and the offered address. *)
Theorem dhcp_exchange_binds {N} `{Nic N} mac (w : World N) offer ack sid rs1 rs2 :
  length mac = 6%nat -> w.(net).(dhcp_phase) = WaitOffer ->
  reply_wf offer -> reply_for mac w.(net).(dhcp_xid) offer ->
  (opts_of offer.(rp_opts)).(do_msg) = DHCP_OFFER -> (opts_of offer.(rp_opts)).(do_sid) = Some sid ->
  reply_wf ack -> reply_for mac w.(net).(dhcp_xid) ack -> (opts_of ack.(rp_opts)).(do_msg) = DHCP_ACK ->
  Forall (fun r => reply_wf r /\ ~ reply_for mac w.(net).(dhcp_xid) r) (rs1 ++ rs2) ->
  exists w1 w2,
    handle_replies mac (enc_reply <$> rs1 ++ [offer]) w = Ret w1 /\
    handle_replies mac (enc_reply <$> rs2 ++ [ack]) w1 = Ret w2 /\
    w1.(net).(dhcp_phase) = WaitAck /\ w1.(net).(dhcp_server_id) = sid /\ w1.(net).(dhcp_offer_yi) = offer.(rp_yi) /\
    w2.(net).(dhcp_phase) = Bound /\ w2.(net).(gw_known) = false /\
    w2.(net).(addrs) = lease ack.(rp_yi) ack.(rp_si) (opts_of ack.(rp_opts)).
Proof.
  intros Hmac Hp Ho Hof Hom Hos Ha Haf Ham [H1 H2]%Forall_app.
  pose proof (handle_offer mac offer sid w Ho Hof Hp Hom Hos) as E1.
  match type of E1 with _ = dhcp_send_request _ ?w0 => set (w0' := w0) in E1 end.
  unfold dhcp_send_request in E1.
  pose proof (send_net (build_dhcp_packet mac ZERO w0'.(net).(dhcp_xid) mac DHCP_REQUEST
    (Some w0'.(net).(dhcp_server_id)) (Some w0'.(net).(dhcp_offer_yi))) w0') as Hsend.
  destruct (send _ w0') as [[w1 ok]|]; [|by exfalso; apply Hsend, build_dhcp_packet_total].
  specialize (Hsend ltac:(by apply build_dhcp_packet_total)). cbn [returns fst] in Hsend. rewrite bind_ret in E1.
  exists w1, (upd (dhcp_bind (lease ack.(rp_yi) ack.(rp_si) (opts_of ack.(rp_opts)))) w1).
  rewrite !fmap_app, !handle_replies_app, handle_others, bind_ret by done. cbn [fmap list_fmap handle_replies].
  rewrite E1, bind_ret. rewrite handle_others by (by rewrite Hsend). rewrite bind_ret, handle_ack; [|done| | |done].
  - rewrite bind_ret, Hsend. split_and!; done.
  - by rewrite Hsend.
  - by rewrite Hsend.
Qed.

Definition demo_reply (xid : Z) (opts : list dhcp_opt) : dhcp_reply := {|
  rp_xid := xid; rp_yi := [10; 0; 2; 15]; rp_si := [10; 0; 2; 2]; rp_mac := [2; 0; 0; 0; 0; 1];
  rp_head := [1; 6; 0]; rp_secs := replicate 8 0; rp_gi := replicate 4 0; rp_pad := replicate 202 0;
  rp_opts := opts; rp_rest := replicate 4 0 |}.
Definition demo_offer : dhcp_reply := demo_reply 7 [Some (53, [2]); None; Some (54, [10; 0; 2; 2])].
Definition demo_ack : dhcp_reply := demo_reply 7 [Some (12, [1; 2]); Some (53, [5]); Some (3, [10; 0; 2; 1]); Some (6, [1; 1; 1; 1])].
Definition demo_waiting : World MemNic :=
  upd (fun s => s <| dhcp_phase := WaitOffer |> <| dhcp_xid := 7 |>) boot_world.

Lemma dhcp_exchange_binds_witness :
  reply_wf demo_offer /\ reply_wf demo_ack /\
  exists w1 w2,
    handle_replies [2; 0; 0; 0; 0; 1] (enc_reply <$> [demo_reply 8 []] ++ [demo_offer]) demo_waiting = Ret w1 /\
    handle_replies [2; 0; 0; 0; 0; 1] (enc_reply <$> [] ++ [demo_ack]) w1 = Ret w2 /\
    w1.(net).(dhcp_phase) = WaitAck /\ w1.(net).(dhcp_server_id) = [10; 0; 2; 2] /\
    w1.(net).(dhcp_offer_yi) = demo_offer.(rp_yi) /\ w2.(net).(dhcp_phase) = Bound /\ w2.(net).(gw_known) = false /\
    w2.(net).(addrs) = lease demo_ack.(rp_yi) demo_ack.(rp_si) (opts_of demo_ack.(rp_opts)).
Proof.
  assert (reply_wf demo_offer) as Ho by by_decide. assert (reply_wf demo_ack) as Ha by by_decide.
  split; [exact Ho|split; [exact Ha|]].
  apply (dhcp_exchange_binds [2; 0; 0; 0; 0; 1] demo_waiting demo_offer demo_ack [10; 0; 2; 2] [demo_reply 8 []] []);
    try reflexivity; try done; by_decide.
Defined.
