(* ===== verification/NetTimeout.v ===== *)
(** * Fetches end

    Once the gateway is known, the timers of [drive] end a fetch over a network
    that has gone silent with an error the user sees.  While the gateway is not
    known there is no timer: the fetch waits for ever ([gateway_never_found]). *)

From S2P Require Import Prelude Url Log Settings NetWire Http NetStack NetSafe Tls NetDrive DriveSafe.

#[local] Opaque PAGE_CAP STREAM_CAP CHUNK_LINE_CAP TLS_CIPHER_RX_CAP TLS_TX_CAP.

(** A NIC that receives nothing. *)
Class Silent {N : Type} `{Nic N} (quiet : N -> Prop) := {
  quiet_transmit d f : quiet d -> quiet (transmit d f).1;
  quiet_poll d buf : quiet d -> (poll_rx_packet d buf).1.2 = None /\ quiet (poll_rx_packet d buf).1.1;
}.

(** ** The timer of a fetch *)

Definition dns_pending (s : NetStack) : bool := s.(dns_needed) && negb s.(dns_done).

(** The clock that runs in the fetch's current phase, and the value past which it
    ends the fetch. *)
Definition fetch_clock (s : NetStack) : Z :=
  if dns_pending s then s.(dns_xmit_phase)
  else if s.(get_sent) then wrap32 (s.(tick) - s.(fetch_progress_tick))
  else wrap32 (s.(tick) - s.(tcp_connect_start_tick)).
Definition fetch_limit (s : NetStack) : Z :=
  if dns_pending s then 64 * 48 else if s.(get_sent) then 12000 else TCP_CONNECT_TICKS.

(** A fetch under way on a configured interface, with no TLS session yet. *)
Record under_way (cfg : DeviceSettings) (s : NetStack) : Prop := {
  uw_tag : s.(settings_tag) = ip_settings_tag cfg;
  uw_dhcp : cfg.(ip_config) = Dhcp -> dhcp_active s = false;
  uw_addr : is_our_zero s.(addrs) = false;
  uw_gw : s.(gw_known) = true;
  uw_armed : s.(fetch_armed) = true;
  uw_done : s.(fetch_done) = false;
  uw_dns : s.(dns_done) = true \/ dns_pending s = true;
  uw_https : s.(https_mode) = false \/ s.(https_handshake_queued) = false /\ s.(tls_handshake_done) = false;
}.

(** A fetch that waits for the answer to the ARP request for the gateway. *)
Record waits_for_gateway (cfg : DeviceSettings) (s : NetStack) : Prop := {
  wg_tag : s.(settings_tag) = ip_settings_tag cfg;
  wg_dhcp : cfg.(ip_config) = Dhcp -> dhcp_active s = false;
  wg_addr : is_our_zero s.(addrs) = false;
  wg_gw : s.(gw_known) = false;
  wg_armed : s.(fetch_armed) = true;
  wg_done : s.(fetch_done) = false;
}.

(** The fetch has ended with an error on display. *)
Definition failed_with (msgs : list bytes) (s : NetStack) : Prop :=
  s.(fetch_done) = true /\ s.(fetch_armed) = false /\ take s.(fetch_err_len) s.(fetch_err) ∈ msgs.
Definition timeouts : list bytes := [E_DNS_TIMEOUT; E_TCP_NO_CONNECT; E_HTTP_TIMEOUT].

Lemma set_err_failed L B msg s :
  net_inv L B s -> (length msg <= 80)%nat -> msg ∈ timeouts -> failed_with timeouts (set_err msg s).
Proof.
  intros Hs Hl Hm. split; [done|split; [done|]].
  change (take (Nat.min (length msg) (length (fetch_err s)))
            (list_inserts 0 (take (Nat.min (length msg) (length (fetch_err s))) msg) (fetch_err s)) ∈ timeouts).
  rewrite (nw_err s Hs), Nat.min_l, (take_ge msg) by lia.
  rewrite inserts_split by (rewrite (nw_err s Hs); lia). rewrite take_0. cbn [app]. by rewrite take_app_length.
Qed.

Lemma timeouts_short msg : msg ∈ timeouts -> (length msg <= 80)%nat.
Proof.
  assert (Forall (fun m => length m <= 80)%nat timeouts) as H by by_decide.
  rewrite Forall_forall in H. apply H.
Qed.

Lemma wrap32_succ a b : wrap32 (wrap32 (a + 1) - b) = wrap32 (wrap32 (a - b) + 1).
Proof. unfold wrap32, wrap. rewrite Zminus_mod_idemp_l, Zplus_mod_idemp_l. f_equal. lia. Qed.

Lemma fetch_limit_range s : 0 <= fetch_limit s <= 16000.
Proof. unfold fetch_limit, TCP_CONNECT_TICKS. destruct (dns_pending s), (get_sent s); lia. Qed.

Lemma wrap32_small a : 0 <= a < 2 ^ 32 -> wrap32 a = a.
Proof. apply Z.mod_small. Qed.

Section silent.
Context (inflate : bool -> bytes -> inflate_result) (brotli : bytes -> option bytes).
Context {N : Type} `{Nic N} (quiet : N -> Prop) `{!Silent quiet} {T : Type} `{TlsLib T}.
Context (epoch_str : bytes) (fuel : nat) (Hfuel : (0 < fuel)%nat).
Context (mac : bytes) (Hmac : length mac = 6%nat) (cfg : DeviceSettings).
Implicit Types (w : World N) (k : Kernel N T).
Context (L : bool) (B : nat).
#[local] Abbreviation world_wf := (world_inv quiet L B).

Lemma quiet_sends d f : quiet d -> quiet (transmit d f).1.
Proof. apply quiet_transmit. Qed.

Lemma set_err_step msg w :
  world_wf w -> msg ∈ timeouts ->
  world_wf (upd (set_err msg) w) /\ failed_with timeouts (upd (set_err msg) w).(net).
Proof.
  intros Hw Hm. split; [by apply set_err_world|].
  by apply (set_err_failed L B); [apply (wi_net _ _ _ _ Hw)|apply timeouts_short|].
Qed.

(** What a step of the timers does to the stack: it ends the fetch, or leaves it
    under way. *)
Lemma drive_dns_step w :
  world_wf w -> under_way cfg w.(net) -> dns_pending w.(net) = true ->
  returns (fun r => world_wf r.1 /\ r.2 = false /\
    if decide (64 * 48 < wrap32 (w.(net).(dns_xmit_phase) + 1)) then failed_with timeouts r.1.(net)
    else exists id, r.1.(net) = w.(net) <| dns_xmit_phase := wrap32 (w.(net).(dns_xmit_phase) + 1) |> <| ip_id := id |>)
    (drive_dns mac w).
Proof.
  intros Hw Hu Hd. unfold drive_dns. cbv zeta. unfold dns_pending in Hd. rewrite (uw_armed _ _ Hu).
  apply andb_true_iff in Hd as [Hd1 Hd2]. rewrite Hd1, Hd2. cbn [andb].
  set (w1 := upd _ w). assert (world_wf w1) as Hw1 by (unfold w1; upd).
  assert (w1.(net) = w.(net) <| dns_xmit_phase := wrap32 (w.(net).(dns_xmit_phase) + 1) |>) as E1 by reflexivity.
  clearbody w1. pose proof (wi_net _ _ _ _ Hw1) as Hn. pose proof (nw_dns_name _ Hn). pose proof (nw_dns_len _ Hn).
  eapply (returns_bind (fun w2 => world_wf w2 /\ exists id, w2.(net) = w1.(net) <| ip_id := id |>)).
  - destruct (decide _); [|split; [done|]; exists (ip_id (net w1)); by destruct (net w1)].
    step. eapply returns_bind.
    { apply send_wf; [apply quiet_sends|done|]. apply build_dns_total; eauto with netwf. lia. }
    intros [w2 ok] [Hw2 E2]. cbn [fst] in Hw2, E2. split; [by upd|]. eexists. unfold upd. cbn [net]. by rewrite E2.
  - intros w2 [Hw2 [id E2]]. cbn [returns fst snd].
    replace (dns_xmit_phase (net w2)) with (wrap32 (dns_xmit_phase (net w) + 1)) by (by rewrite E2, E1).
    destruct (decide _).
    + destruct (set_err_step E_DNS_TIMEOUT w2 Hw2) as [??]; [by left|]. done.
    + split; [done|]. split; [done|]. exists id. by rewrite E2, E1.
Qed.

Lemma drive_syn_step w :
  world_wf w ->
  returns (fun w' => world_wf w' /\ exists b r, w'.(net) = w.(net) <| syn_sent := b |> <| syn_retries := r |>)
    (drive_syn mac w).
Proof.
  intros [Hn Hd]. assert (exists b r, net w = (net w) <| syn_sent := b |> <| syn_retries := r |>) as Hid
    by (exists (syn_sent (net w)), (syn_retries (net w)); by destruct (net w)).
  unfold drive_syn. cbv zeta. destruct (_ || _); [|done]. eapply returns_bind.
  { apply build_tcp_total; eauto with netwf. }
  intros [out len] Ho. unfold frame_ok in Ho. cbn [fst snd] in Ho. destruct (decide _); [|done].
  rewrite sub_ok, bind_ret by lia. pose proof (quiet_sends (nicd w) (slice out 0 len) Hd).
  destruct (transmit _ _). split; [split; [cbn; wf|done]|]. eexists _, _. reflexivity.
Qed.

Lemma drive_tcp_step w :
  world_wf w ->
  returns (fun r : World N * bool => world_wf r.1 /\
    if r.2 then exists b n, r.1.(net) = w.(net) <| syn_sent := b |> <| syn_retries := n |> /\
      (if w.(net).(get_sent) then wrap32 (w.(net).(tick) - w.(net).(fetch_progress_tick)) <= 12000
       else wrap32 (w.(net).(tick) - w.(net).(tcp_connect_start_tick)) <= TCP_CONNECT_TICKS)
    else failed_with timeouts r.1.(net)) (drive_tcp mac w).
Proof.
  intros Hw. assert (forall msg w', msg ∈ timeouts -> world_wf w' ->
    returns (fun r : World N * bool => world_wf r.1 /\ failed_with timeouts r.1.(net)) (Ret (upd (set_err msg) w', false))) as Hf.
  { intros msg w' Hm Hw'. by apply set_err_step. }
  unfold drive_tcp. cbv zeta. destruct (_ && _); [apply Hf; [by right; left|done]|].
  match goal with |- context [negb (get_sent (net w)) && ?b] => destruct (negb (get_sent (net w)) && b) eqn:Et end; [apply Hf; [by right; left|done]|].
  eapply returns_bind; [by apply drive_syn_step|]. intros w1 (Hw1 & b & n & E1).
  replace (get_sent (net w1)) with (get_sent (net w)) by (by rewrite E1).
  replace (tick (net w1)) with (tick (net w)) by (by rewrite E1).
  replace (fetch_progress_tick (net w1)) with (fetch_progress_tick (net w)) by (by rewrite E1).
  match goal with |- context [get_sent (net w) && ?b] => destruct (get_sent (net w) && b) eqn:Eh end; [apply Hf; [by right; right; left|done]|].
  split; [done|]. exists b, n. split; [done|].
  destruct (get_sent (net w)); cbn [negb andb] in Et, Eh; [apply bool_decide_eq_false in Eh|apply bool_decide_eq_false in Et]; lia.
Qed.

(** ** One call of [drive] *)

Definition ticked (s : NetStack) : NetStack := s <| tick ::= fun t => wrap32 (t + 1) |>.

Lemma drive_tick_net k : settings_tag k.(world).(net) = ip_settings_tag cfg ->
  (drive_tick cfg k).(world) = upd ticked k.(world).
Proof.
  intros Ht. unfold drive_tick, sync_settings. cbv zeta. cbn [over world on_net]. unfold upd. cbn [net].
  assert (forall s, settings_tag s = ip_settings_tag cfg -> sync_ip_from_settings cfg (ip_settings_tag cfg) s = s) as Hs.
  { intros s E. unfold sync_ip_from_settings. by rewrite decide_True. }
  by rewrite Hs.
Qed.

Lemma quiet_rx rounds buf w :
  world_wf w -> (0 < rounds)%nat ->
  returns (fun r => world_wf r.1 /\ r.1.(net) = w.(net)) (rx_loop inflate brotli rounds mac buf w).
Proof.
  intros [Hn Hd] Hr. destruct rounds as [|rounds]; [lia|]. cbn [rx_loop].
  destruct (quiet_poll (nicd w) buf Hd) as [E Hq]. destruct (poll_rx_packet _ _) as [[d r] buf'].
  cbn [fst snd] in E, Hq. by subst r.
Qed.

Lemma drive_fetch_step k :
  world_wf k.(world) -> under_way cfg k.(world).(net) -> dns_pending k.(world).(net) = false ->
  returns (fun k' => world_wf k'.(world) /\
    (failed_with timeouts k'.(world).(net) \/
     exists b n, k'.(world).(net) = k.(world).(net) <| syn_sent := b |> <| syn_retries := n |> /\
       fetch_clock k.(world).(net) <= fetch_limit k.(world).(net)))
    (drive_fetch inflate brotli epoch_str fuel mac k).
Proof.
  intros Hw Hu Hd. unfold drive_fetch. cbv zeta. destruct (uw_dns _ _ Hu) as [Hdd|]; [|congruence].
  rewrite (uw_armed _ _ Hu), Hdd, (uw_done _ _ Hu). cbn [andb negb]. unfold on_world.
  pose proof (drive_tcp_step (world k) Hw) as Ht. destruct (drive_tcp mac (world k)) as [[w1 go]|]; [|done].
  destruct Ht as [Hw1 Ht]. cbn [fst snd] in Hw1, Ht. rewrite !bind_ret. destruct go; [|by split; [|left]].
  destruct Ht as (b & n & E & Hc). unfold drive_https. cbv zeta.
  change (world (k <| world := w1 |>)) with w1.
  assert (https_mode (net w1) = https_mode (net (world k)) /\ https_handshake_queued (net w1) = https_handshake_queued (net (world k)) /\
    tls_handshake_done (net w1) = tls_handshake_done (net (world k))) as (E1 & E2 & E3) by (by rewrite E).
  rewrite E1, E2, E3.
  match goal with |- returns ?P _ => assert (returns P (Ret (k <| world := w1 |>))) as Hret end.
  { split; [done|]. right. exists b, n. split; [done|]. unfold fetch_clock, fetch_limit. rewrite Hd.
    by destruct (get_sent (net (world k))). }
  destruct (uw_https _ _ Hu) as [Hh|[Hq Hh]]; rewrite Hh; [exact Hret|].
  rewrite Hq. destruct (https_mode (net (world k))); exact Hret.
Qed.

(** The step of the clock: either it ends the fetch, or the fetch goes on one tick
    nearer to its end. *)
Definition clock_step (s s' : NetStack) : Prop :=
  failed_with timeouts s' \/
  under_way cfg s' /\ fetch_limit s' = fetch_limit s /\ fetch_clock s' = wrap32 (fetch_clock s + 1) /\
  fetch_clock s' <= fetch_limit s'.

Lemma on_world_ret {A} (f : World N -> rust (World N * A)) k w a :
  f k.(world) = Ret (w, a) -> on_world f k = Ret (k <| world := w |>, a).
Proof. unfold on_world. by intros ->. Qed.

(** The timers, on the stack as the tick left it. *)
Lemma drive_timers k ph s :
  world_wf k.(world) -> under_way cfg k.(world).(net) -> k.(world).(net) = (ticked s) <| phase := ph |> ->
  returns (fun k' => world_wf k'.(world) /\ clock_step s k'.(world).(net))
    ('(k, go) ← on_world (drive_dns mac) k;
     if negb go then Ret k else drive_fetch inflate brotli epoch_str fuel mac k).
Proof.
  intros Hw Hu E. assert (dns_pending (net (world k)) = dns_pending s) as Ed by (by rewrite E).
  destruct (dns_pending s) eqn:Ep.
  - unfold on_world. pose proof (drive_dns_step (world k) Hw Hu Ed) as Hs.
    destruct (drive_dns mac (world k)) as [[w1 go]|]; [|done]. destruct Hs as (Hw1 & Hgo & Hs).
    cbn [fst snd] in Hw1, Hgo, Hs. subst go. rewrite !bind_ret. cbn [negb]. split; [done|].
    replace (dns_xmit_phase (net (world k))) with (dns_xmit_phase s) in Hs by (by rewrite E).
    destruct (decide _) as [Hl|Hl]; [by left|right]. destruct Hs as [id Hs].
    assert (under_way cfg (net w1)) as Hu1 by (rewrite Hs; by destruct Hu; split).
    assert (dns_pending (net w1) = true) as Ed1 by (rewrite Hs; exact Ed).
    unfold fetch_clock, fetch_limit. rewrite Ep. change (net (world (over world _ k))) with (net w1). rewrite Ed1.
    split_and!; [done|done|by rewrite Hs|rewrite Hs; cbn; lia].
  - assert (drive_dns mac (world k) = Ret (world k, true)) as Hdns.
    { unfold drive_dns. cbv zeta. unfold dns_pending in Ed.
      rewrite (uw_armed _ _ Hu). cbn [andb]. by rewrite Ed. }
    unfold on_world. rewrite Hdns, !bind_ret. cbn [negb].
    replace (k <| world := world k |>) with k by (by destruct k).
    eapply returns_weaken; [by apply drive_fetch_step|]. intros k' [Hw' H']. split; [done|].
    destruct H' as [|(b & n & E' & Hc)]; [by left|right].
    assert (under_way cfg (net (world k'))) as Hu' by (rewrite E'; by destruct Hu; split).
    assert (fetch_clock (net (world k')) = fetch_clock (net (world k))) as E1 by (by rewrite E').
    assert (fetch_limit (net (world k')) = fetch_limit (net (world k))) as E2 by (by rewrite E').
    assert (fetch_limit (net (world k)) = fetch_limit s) as E3 by (by rewrite E).
    rewrite E1, E2, E3 in *. split_and!; [done|done| |done].
    rewrite E. unfold fetch_clock. change (dns_pending (over phase _ _)) with (dns_pending s). rewrite Ep.
    cbn. destruct (get_sent s); apply wrap32_succ.
Qed.

Lemma drive_step k :
  world_wf k.(world) -> under_way cfg k.(world).(net) ->
  returns (fun k' => world_wf k'.(world) /\ clock_step k.(world).(net) k'.(world).(net))
    (drive inflate brotli epoch_str fuel mac cfg k).
Proof.
  intros Hw Hu. unfold drive. cbv zeta. rewrite (drive_tick_net k (uw_tag _ _ Hu)).
  assert (world_wf (upd ticked (world k))) as Hw1 by (unfold ticked; upd).
  pose proof (quiet_rx fuel (drive_rx_buf (drive_tick cfg k)) _ Hw1 Hfuel) as Hrx.
  destruct (rx_loop _ _ _ _ _ _) as [[w1 buf]|]; [|done]. destruct Hrx as [Hw2 E1]. cbn [fst] in Hw2, E1. rewrite bind_ret.
  set (k1 := over drive_rx_buf _ _). assert (world k1 = w1) as Ek by reflexivity. clearbody k1.
  change (net (upd ticked (world k))) with (ticked (net (world k))) in E1.
  assert (under_way cfg (net w1)) as Hu1 by (rewrite E1; by destruct Hu; split).
  rewrite (on_world_ret (drive_dhcp cfg mac) k1 w1 true).
  2: { rewrite Ek. unfold drive_dhcp. destruct (decide _) as [Hd|]; [|done].
       by rewrite (uw_dhcp _ _ Hu1 Hd), bind_ret, (uw_dhcp _ _ Hu1 Hd). }
  rewrite bind_ret. cbn [negb].
  match goal with |- context [is_our_zero (addrs (net (world ?t)))] =>
    change (world t) with w1 end. rewrite (uw_addr _ _ Hu1).
  set (k2 := on_net _ _).
  assert (net (world k2) = (net w1) <| phase := phase_of (net w1) |>) as E2 by reflexivity.
  assert (world_wf (world k2)) as Hw3 by (destruct Hw2; split; [rewrite E2; wf|done]).
  clearbody k2. assert (under_way cfg (net (world k2))) as Hu2 by (rewrite E2; by destruct Hu1; split).
  rewrite (on_world_ret (drive_arp mac) k2 (world k2) true) by (unfold drive_arp; by rewrite (uw_gw _ _ Hu2)).
  rewrite bind_ret. cbn [negb].
  rewrite E1 in E2. clear E1 Hu1 Hw2 Hw1 w1 Ek k1.
  replace (k2 <| world := world k2 |>) with k2 by (by destruct k2).
  by eapply (drive_timers k2 _ (net (world k))).
Qed.

(** ** Without a gateway *)

Lemma drive_arp_waits w :
  world_wf w -> waits_for_gateway cfg w.(net) ->
  returns (fun r => world_wf r.1 /\ r.2 = false /\ r.1.(net) = w.(net)) (drive_arp mac w).
Proof.
  intros Hw Hu. unfold drive_arp. rewrite (wg_gw _ _ Hu). cbn [negb]. destruct (decide _); [|by split_and!].
  pose proof (wi_net _ _ _ _ Hw) as Hn. eapply returns_bind.
  { apply send_wf; [apply quiet_sends|done|]. apply build_arp_total; eauto with netwf. }
  intros [w1 ok] [Hw1 E]. cbn [fst snd] in Hw1, E. by split_and!.
Qed.

Lemma drive_waits k :
  world_wf k.(world) -> waits_for_gateway cfg k.(world).(net) ->
  returns (fun k' => world_wf k'.(world) /\ waits_for_gateway cfg k'.(world).(net))
    (drive inflate brotli epoch_str fuel mac cfg k).
Proof.
  intros Hw Hu. unfold drive. cbv zeta. rewrite (drive_tick_net k (wg_tag _ _ Hu)).
  assert (world_wf (upd ticked (world k))) as Hw1 by (unfold ticked; upd).
  pose proof (quiet_rx fuel (drive_rx_buf (drive_tick cfg k)) _ Hw1 Hfuel) as Hrx.
  destruct (rx_loop _ _ _ _ _ _) as [[w1 buf]|]; [|done]. destruct Hrx as [Hw2 E1]. cbn [fst] in Hw2, E1. rewrite bind_ret.
  set (k1 := over drive_rx_buf _ _). assert (world k1 = w1) as Ek by reflexivity. clearbody k1.
  change (net (upd ticked (world k))) with (ticked (net (world k))) in E1.
  assert (waits_for_gateway cfg (net w1)) as Hu1 by (rewrite E1; by destruct Hu; split).
  rewrite (on_world_ret (drive_dhcp cfg mac) k1 w1 true).
  2: { rewrite Ek. unfold drive_dhcp. destruct (decide _) as [Hd|]; [|done].
       by rewrite (wg_dhcp _ _ Hu1 Hd), bind_ret, (wg_dhcp _ _ Hu1 Hd). }
  rewrite bind_ret. cbn [negb].
  match goal with |- context [is_our_zero (addrs (net (world ?t)))] =>
    change (world t) with w1 end. rewrite (wg_addr _ _ Hu1).
  set (k2 := on_net _ _).
  assert (net (world k2) = (net w1) <| phase := phase_of (net w1) |>) as E2 by reflexivity.
  assert (world_wf (world k2)) as Hw3 by (destruct Hw2; split; [rewrite E2; wf|done]).
  clearbody k2. assert (waits_for_gateway cfg (net (world k2))) as Hu2 by (rewrite E2; by destruct Hu1; split).
  pose proof (drive_arp_waits _ Hw3 Hu2) as Ha.
  destruct (drive_arp mac (world k2)) as [[w3 go]|] eqn:Earp; [|done]. destruct Ha as (Hw4 & Hgo & E3).
  cbn [fst snd] in Hw4, Hgo, E3. subst go. rewrite (on_world_ret (drive_arp mac) k2 w3 false Earp), bind_ret.
  cbn [negb]. split; [exact Hw4|].
  change (waits_for_gateway cfg (net w3)). by rewrite E3.
Qed.

(** ** Counting down *)

Fixpoint drive_n (n : nat) k : rust (Kernel N T) :=
  match n with
  | O => Ret k
  | S n => k ← drive inflate brotli epoch_str fuel mac cfg k; drive_n n k
  end.

Lemma drive_n_step n k k1 : drive inflate brotli epoch_str fuel mac cfg k = Ret k1 -> drive_n (S n) k = drive_n n k1.
Proof. cbn [drive_n]. by intros ->. Qed.

(** With the clock in range, the fetch ends within the ticks that are left. *)
Lemma countdown m k :
  world_wf k.(world) -> under_way cfg k.(world).(net) ->
  0 <= fetch_clock k.(world).(net) -> fetch_limit k.(world).(net) - fetch_clock k.(world).(net) = Z.of_nat m ->
  exists n k', (n <= S m)%nat /\ drive_n n k = Ret k' /\ failed_with timeouts k'.(world).(net).
Proof.
  revert k. induction m as [|m IH]; intros k Hw Hu Hpos Hm;
    pose proof (drive_step k Hw Hu) as Hs; destruct (drive _ _ _ _ _ _ k) as [k1|] eqn:E; try done;
    destruct Hs as [Hw1 [Hf|(Hu1 & Hl & Hc & Hle)]];
    try (exists 1%nat, k1; split; [lia|]; by rewrite (drive_n_step _ _ _ E)).
  all: pose proof (fetch_limit_range (net (world k)));
    rewrite wrap32_small in Hc by lia.
  - lia.
  - destruct (IH k1 Hw1 Hu1) as (n & k' & Hn & Ek & Hf); [lia|lia|].
    exists (S n), k'. split; [lia|]. by rewrite (drive_n_step _ _ _ E).
Qed.

(** There is no timer in the ARP branch of [drive] (net.rs:719): whatever the
    number of calls, the fetch is still under way. *)
Lemma gateway_never_found n k :
  world_wf k.(world) -> waits_for_gateway cfg k.(world).(net) ->
  returns (fun k' => waits_for_gateway cfg k'.(world).(net)) (drive_n n k).
Proof.
  revert k. induction n as [|n IH]; intros k Hw Hu; [done|]. cbn [drive_n].
  eapply returns_bind; [by apply drive_waits|]. intros k1 [Hw1 Hu1]. by apply IH.
Qed.
End silent.

(** C14: Once the gateway is known, a fetch ends even if the network falls silent:
    when a fetch is under way (the gateway's address known, the address
    configured and no DHCP exchange running; in name resolution, connecting, or
    waiting for data; plain HTTP, or HTTPS before its handshake) and no frame
    arrives any more, then after at most 16002 calls of [drive] the fetch is
    over and the user sees [DNS TIMEOUT], [TCP NO CONNECT] or [HTTP TIMEOUT] -
    from any clock values, wrap-around of the tick counter included. *)
Theorem silent_fetch_ends inflate brotli {N} `{Nic N} (quiet : N -> Prop) `{!Silent quiet} {T} `{TlsLib T}
    epoch_str fuel mac cfg (k : Kernel N T) :
  (0 < fuel)%nat -> length mac = 6%nat -> net_wf k.(world).(net) -> quiet k.(world).(nicd) ->
  under_way cfg k.(world).(net) ->
  exists n k', Z.of_nat n <= 16002 /\ drive_n inflate brotli epoch_str fuel mac cfg n k = Ret k' /\
    failed_with timeouts k'.(world).(net).
Proof.
  intros Hf Hm Hn Hq Hu. assert (world_inv quiet (tls_live (net (world k))) TLS_CIPHER_RX_CAP (world k)) as Hw by by split.
  pose proof (drive_step inflate brotli quiet epoch_str fuel Hf mac Hm cfg _ _ k Hw Hu) as Hs.
  destruct (drive _ _ _ _ _ _ k) as [k1|] eqn:E; [|done]. pose proof (fetch_limit_range (net (world k1))).
  destruct Hs as [Hw1 [Hf1|(Hu1 & Hl & Hc & Hle)]].
  { exists 1%nat, k1. split; [lia|]. by rewrite (drive_n_step _ _ _ _ _ _ _ _ _ E). }
  assert (0 <= fetch_clock (net (world k1))) as Hpos by (rewrite Hc; apply Z.mod_pos_bound; lia).
  destruct (countdown inflate brotli quiet epoch_str fuel Hf mac Hm cfg _ _
    (Z.to_nat (fetch_limit (net (world k1)) - fetch_clock (net (world k1)))) k1 Hw1 Hu1 Hpos) as (n & k' & Hnn & Ek & Hf1); [lia|].
  exists (S n), k'. split; [lia|]. by rewrite (drive_n_step _ _ _ _ _ _ _ _ _ E).
Qed.

(** ** Witness: no frame arrives *)

Definition nothing_waits (d : MemNic) : Prop := d.(mn_waiting) = [].

#[export] Instance nothing_waits_silent : Silent nothing_waits.
Proof.
  split; [by intros [sent fs] f|]. unfold nothing_waits. intros [sent fs] buf Hd. cbn in Hd. by subst fs.
Qed.

Definition demo_armed (s : NetStack) : NetStack :=
  s <| settings_tag := ip_settings_tag settings_new |> <| gw_known := true |> <| fetch_armed := true |> <| dns_done := true |>.
Definition lost_fetch : Kernel MemNic NullTls :=
  on_net demo_armed (boot_kernel [2; 0; 0; 0; 0; 1] (replicate 2048 0) log_new quiet_nic).

Lemma silent_fetch_ends_witness :
  under_way settings_new lost_fetch.(world).(net) /\
  exists n k', Z.of_nat n <= 16002 /\
    drive_n no_inflate no_brotli [] 1 [2; 0; 0; 0; 0; 1] settings_new n lost_fetch = Ret k' /\
    failed_with timeouts k'.(world).(net).
Proof.
  assert (under_way settings_new lost_fetch.(world).(net)) as Hu
    by (split; try reflexivity; by left).
  split; [exact Hu|]. apply (silent_fetch_ends no_inflate no_brotli nothing_waits [] 1 _ settings_new lost_fetch).
  - apply Nat.lt_0_succ.
  - reflexivity.
  - apply (net_inv_wf false 0).
    change (net (world lost_fetch)) with (demo_armed (seed_from_mac [2; 0; 0; 0; 0; 1] (static_initial log_new))).
    pose proof (seed_wf [2; 0; 0; 0; 0; 1] _ _ _ (static_initial_wf 0 log_new)) as Hs.
    generalize dependent (seed_from_mac [2; 0; 0; 0; 0; 1] (static_initial log_new)). intros s Hs. unfold demo_armed. wf.
  - reflexivity.
  - exact Hu.
Defined.

(** The same fetch with the gateway unknown waits for ever. *)
Definition stuck_fetch : Kernel MemNic NullTls := on_net (fun s => s <| gw_known := false |>) lost_fetch.

Example stuck_waits : waits_for_gateway settings_new stuck_fetch.(world).(net).
Proof. by split. Qed.
